(* ===== verification/_CoqProject ===== *)
-Q . S2P
Prelude.v
Spinlock.v
Bitmap.v
PageAlloc.v
DList.v
Str.v
Bytes.v
Buffer.v
Path.v
Mount.v
Vfs.v
VfsSpec.v
Sysfs.v
Pipe.v
Poll.v
PollSpec.v
Socket.v
SocketSpec.v
SocketExample.v
Task.v
Sched.v
SchedSpec.v
Kmalloc.v
KmallocSpec.v
Vm.v
VmSpec.v
VmCopy.v
VmCopySpec.v
Block.v
Ext2.v
Ext2Spec.v
Ext2Dir.v
Ext2Fs.v
Ext2Vfs.v
Ext2DirSpec.v
Ext2Lookup.v
Ext2FsSpec.v
Ext2Example.v
Syscall.v
SyscallSpec.v
SyscallExample.v
LibC.v
LibCSpec.v
Term.v
TermSpec.v
TaskMem.v
TaskMemSpec.v
TaskMemExample.v
Execdata.v
Loader.v
LoaderSpec.v
LoaderExample.v
Fork.v
ForkSpec.v
ForkExample.v
Interrupt.v
InterruptSpec.v
Time.v
KLog.v
Random.v
Keyboard.v
Tmt.v
TmtSpec.v
TmtScreen.v
TmtExample.v
Console.v
ConsoleSpec.v
Fbtext.v
FbtextSpec.v
Virtio.v
VirtioSpec.v
MemInit.v
