(* ===== verification/Prelude.v ===== *)
(** * Xelix: a verification of the kernel

    Xelix is a Unix-like kernel for 32-bit x86 processors, with its port of the C
    library and its own programs.  This library models the parts of it that carry
    its own logic as functions, file by file and function by function, and proves
    what they do.  Paths below are relative to src/src/, the directory of the
    kernel, or start with land/, the user land under src/land/.

    ** The parts and how they interact

    At boot the tags of the boot loader (boot/i386-multiboot.c) tell which memory
    there is (mem/mem.c).  Physical memory is handed out in pages by a bitmap with a lock
    (mem/page_alloc.c on lib/bitmap.c and lib/spinlock.h).  A memory context
    (mem/vm.c) keeps ranges of virtual pages, takes physical pages from the page
    allocator and enters both in the page tables (mem/i386-paging.c).  The
    kernel's heap (mem/kmalloc.c) is one area with boundary tags and a list of
    free blocks.  Tasks (tasks/task.c) stand in the ring of the scheduler
    (tasks/scheduler.c), receive signals (tasks/signal.c) and wait for their
    children (tasks/wait.c).  A task names files by paths (normalised in
    fs/vfs.c), which the mount table (fs/mount.c) leads to a file system; the
    calls of fs/vfs.c go through the function pointers of that file system:
    fs/sysfs.c for devices and kernel files, fs/pipe.c for pipes (which hold
    their bytes in a lib/buffer.c), fs/ext2*.c for disks.  Ext2 reads and writes
    a block device (block/block.c, block/part.c), for example one of virtio
    (block/virtio.c on bsp/virtio.c).  Sockets (net/socket.c) are files above the
    network stack of picotcp, and poll (fs/poll.c) waits for several files.
    Terminals (tty/term.c, tty/pty.c) collect typed lines for the tasks that read
    them.  The keyboard (tty/keyboard.c) feeds the terminal of the console, whose
    output goes through a terminal emulator (tty/tmt.c) and a cache
    (tty/console.c) to the framebuffer (gfx/fbtext.c).

    A task enters the kernel through the gates of the interrupt table
    (int/i386-idt.c, int/int.c): by a system call (tasks/syscall.c), whose
    pointers are checked and mapped before a handler sees them, or by a fault
    (tasks/exception.c), which grows its stack (tasks/mem.c) or becomes a signal.
    A new program finds its arguments and numbers in pages the kernel has filled
    (tasks/execdata.c), which the C library of the user land reads; the C library
    makes the system calls (land/newlib/xelix/syscalls.c), and the dynamic loader
    (land/xelix-utils/src/xelix-loader.c) puts the program into memory.  fork and
    execve (tasks/task.c) make new tasks, with copies of memory by vm_clone.

    ** The files

    - [Prelude]: machine integers (a w-bit integer is a [Z] with its wrap-around
      written out), the outcomes of kernel code, arrays with bounds, errno, the
      macros of lib/generic.h, tactics and hints.
    - [Spinlock], [Bitmap], [PageAlloc]: lib/spinlock.h, lib/bitmap.c,
      mem/page_alloc.c.
    - [DList]: the intrusive doubly linked lists that mount points, sysfs files,
      memory ranges and free heap blocks are kept in.
    - [Str]: lib/string.c.  [Bytes]: numbers and fields in buffers, loads and
      stores that stay inside.  [Buffer]: lib/buffer.c; the pages it grows by come
      through the class [PageSource].
    - [Path], [Mount], [Vfs], [VfsSpec]: path normalisation, mount table and
      descriptor table; a file system is an instance of the class [VfsBackend],
      whose laws are [VfsBackendLaws].
    - [Sysfs], [Pipe]: two file systems on top of it.
    - [Poll], [PollSpec]: fs/poll.c and select of the C library; the callbacks of
      files are the class [PollEnv].
    - [Socket], [SocketSpec], [SocketExample]: net/socket.c and net/conv.c;
      picotcp is the class [PicoTcp], what is relied on [NetLaws].
    - [Task], [Sched], [SchedSpec]: task records, signals, run queue, waiting.
    - [Kmalloc], [KmallocSpec]: the heap.
    - [Vm], [VmSpec]: page tables and memory contexts.  [VmCopy], [VmCopySpec]:
      vm_copy and vm_clone, with the contents of memory.
    - [Block], [Ext2], [Ext2Spec]: block devices and the lower half of ext2
      (bitmaps, inodes, file data); a disk driver is a parameter with the laws
      [DiskLaws].
    - [Ext2Dir], [Ext2DirSpec], [Ext2Lookup]: directories (fs/ext2_dirent.c),
      their records as lists, and the walk along a path.  Memory the code does
      not initialise comes from the class [FreshMemory].
    - [Ext2Fs], [Ext2Vfs], [Ext2FsSpec], [Ext2Example]: the callbacks of fs/ext2.c,
      ext2 as an instance of [VfsBackend], and disks to run it on.
    - [Syscall], [SyscallSpec], [SyscallExample]: the table and the entry of
      system calls; what they use of the kernel is the class [SyscallEnv] with the
      laws [SyscallLaws], one instance of it is on [Vm].
    - [LibC], [LibCSpec]: the wrappers of land/newlib/xelix/syscalls.c around the
      system calls, composed with [Syscall]; newlib is the class [Newlib].
    - [Term], [TermSpec]: terminals and pseudo terminals, on [Buffer].
    - [TaskMem], [TaskMemSpec], [TaskMemExample]: stack, heap and mmap of a task on
      [Vm]; the strings of execve on [SyscallEnv], with the laws [UserMemory].
    - [Execdata]: the data for a new program, and the functions of
      src/land/newlib/xelix that read it.
    - [Loader], [LoaderSpec], [LoaderExample]: the dynamic loader on a memory of
      bytes; open, read, mmap and the heap are the class [LoaderEnv].
    - [Fork], [ForkSpec], [ForkExample]: the creation of tasks, fork, execve and
      the rest of tasks/task.c; memory and sysfs are the class [TaskEnv];
      the theorem on fork names the requests it makes of them, and the example runs
      it with the memory of [VmCopy].
    - [Interrupt], [InterruptSpec]: descriptor tables, dispatch of interrupts and
      exceptions, composed with [Task], [Sched] and [TaskMem].
    - [Time]: the clock (lib/time.c).  [KLog]: the kernel log (lib/log.c).
      [Random]: the generator of random numbers (block/random.c).
    - [Keyboard]: tty/keyboard.c with its key map, on [Term] and [Random].
    - [Tmt], [TmtSpec], [TmtScreen], [TmtExample]: the terminal emulator
      (tty/tmt.c): its code, that it is safe, and what it shows.
    - [Console], [ConsoleSpec]: tty/console.c; the drawing functions are the class
      [TextScreen] with the laws [TextScreenLaws].
    - [Fbtext], [FbtextSpec]: gfx/fbtext.c on the bytes of the framebuffer, and
      that it is an instance of [TextScreenLaws].
    - [MemInit]: boot/i386-multiboot.c and mem/mem.c, on [PageAlloc].
    - [Virtio], [VirtioSpec]: descriptor chains and rings, set-up of a device over
      the class [VirtioPorts], and the block driver.

    A file called [XSpec] holds the theorems about the operations of [X].

    ** How the code is modelled

    A function of the kernel is a Rocq function from the state it works on to an
    [outcome]: [Ret], or [Panic], or [Fault] for an access outside an object (C
    leaves it undefined), or [Spin] for a loop or a wait that does not end.
    Results keep the values of the code (-1 with an errno, NULL as 0).  State is
    passed explicitly; each component has a record of its own, pointers are
    addresses into maps of objects, so that sharing is what it is in the code.

    Fuel: a C loop that is not structural runs on fuel which the state gives,
    the number of elements of the list or ring, the length of the buffer, the
    number of words of the bitmap.  Theorems that a call returns are stated for
    that fuel, so that running out of it ([Spin]) is excluded by them, not
    assumed.  Waiting for other tasks (locks, pipes) is a function of the number
    of the retry, which says what the other tasks do meanwhile; a bound on the
    retries (patience) is an argument, and theorems that such a call returns say
    after which retry the awaited event happens.  Walking a path
    on ext2 is bounded by the number of its segments, a scan of a directory by the
    number of bytes in it, nested page table allocation by its depth (a table of
    the kernel needs no further table), reading the clock by the pass at which two
    readings agree.

    ** What the theorems show

    - Memory: whole pages the boot loader reserves are never handed out; page
      allocation, heap and memory contexts never give the same memory to two users; allocation and release restore the state; page tables
      translate exactly what was mapped; the invariants (tiling of the heap by
      blocks, ranges and bitmap of a context, list of free blocks) are kept by
      every operation.
    - Files: path normalisation equals the left-to-right resolution of the
      segments; the mount table answers with the deepest mount point; descriptor
      lookup ends after any sequence of calls; sysfs meets the contract of the
      vfs; pipes and buffers are first-in first-out queues.
    - Tasks: the scheduler is fair, the end of a child wakes its parent and
      gives its own children to init; what the code of signals writes makes the
      trampoline call the handler and resume, but it writes it to the wrong place.
    - Disks: a block device is an array of bytes; ext2 reads the bytes its block
      map defines and claims free bits only; looking up, adding and removing names
      does on the bytes of directories what it should do on lists of entries; an
      inode that is written is read back; refused calls change nothing; ext2 meets
      the contract of the vfs.
    - Kernel entry: a handler of a system call only ever sees arguments that were
      checked, in the order it declares them, and its mappings are gone
      afterwards; a fault a task would die of ends the task that caused it and nothing else; only two
      gates are open to tasks; the segments are in the rings they belong to.
    - Programs: the stack stays within its bound, the heap grows without gaps, the
      strings of execve arrive, and what the kernel writes for a program is what
      the C library reads.
    - Terminals: the code on its buffers implements the line discipline on lists
      of bytes, erasing more than a single character apart; a typed line is read at the other end.
    - New tasks: a clone of a memory context has the same bytes in pages of its
      own; a child of fork continues where its parent is.
    - Calls from programs: what the C library passes arrives at the handler, or
      the call fails; the numbers and arguments of the two sides agree, for all
      calls but five; poll and
      select report what is ready; a socket is a queue of bytes, and the lock of
      the network is free after every call.
    - Loading: relocation changes the words it should, to what it should, for all
      kinds but R_386_PC32 and R_386_COPY; symbols
      resolve in a fixed order of preference.
    - Console: typing on the keyboard is input to the terminal; the emulator never
      leaves its screen whatever it is sent, and shows text as a typewriter does;
      after an update the screen has what the emulator has, pixel for pixel.
    - Virtio: the device finds the buffers the driver sent; blocks that are read
      into a contiguous buffer are those of the disk.
    - Time and log: the time stamp of the clock is the Unix time of its date; the
      log keeps the messages above debug level that fit into its first page, and all
      of them once the heap is ready.
    - Lemmas named in the manifest's findings show where the code departs from
      what it means to do.  A theorem that leaves such a case out says so in its
      comment and names the lemma.

    ** Not modelled

    Hardware access by ports (block/i386-ide.c, bsp/i386-pci.c, the network and
    sound drivers, tty/serial.c, gfx/mouse.c): what they do is what they tell the
    hardware; boot/init.c, which calls the initialisers in turn.  Assembly other than the signal
    trampoline and the entry of system calls; the text of log output and of the
    files under /sys; picotcp (a git submodule); third-party code (lib/kavl.h with
    the name cache fs/ftree.c above it, lib/md5.c, argparse, ini); the graphical
    compositor and most programs under land/, which are glue around libraries that
    are not part of the repository.  Interrupts that arrive while a handler runs,
    and page tables of tasks that have to be allocated on the way, are not covered
    by the theorems on the dispatch and on mapping. *)
From stdpp Require Import base numbers list gmap.
From Stdlib Require Import ZArith Lia Bool.

Open Scope Z_scope.

(** * Machine integers *)

Definition u8 (x : Z) : Z := x mod 2 ^ 8.

Definition u16 (x : Z) : Z := x mod 2 ^ 16.

Definition u32 (x : Z) : Z := x mod 2 ^ 32.

Definition u64 (x : Z) : Z := x mod 2 ^ 64.

(** Conversion to the 32-bit [int]. *)
Definition s32 (x : Z) : Z :=
  let y := u32 x in if y <? 2 ^ 31 then y else y - 2 ^ 32.

(** C truth value of an integer. *)
Definition nz (x : Z) : bool := negb (x =? 0).

Definition has_flag (x flag : Z) : bool := nz (Z.land x flag).

(** * Outcomes

    A kernel function returns ([Ret]); or it never returns, because it waits
    for a lock nobody releases or for an event that does not come ([Spin]);
    or it reads or writes outside the object it works on, which C leaves
    undefined ([Fault]); or it calls [panic()] ([Panic]). *)
Inductive outcome (A : Type) : Type :=
  | Ret (a : A)
  | Spin
  | Fault
  | Panic.

Arguments Ret {A} a.
Arguments Spin {A}.
Arguments Fault {A}.
Arguments Panic {A}.

#[global] Instance outcome_ret : MRet outcome := fun A a => Ret a.

#[global] Instance outcome_bind : MBind outcome :=
  fun A B f m =>
    match m with
    | Ret a => f a
    | Spin => Spin
    | Fault => Fault
    | Panic => Panic
    end.

(** Array access: [a[i]] and [a[i] = x] on an array given as a list. *)
Definition aload {A} (l : list A) (i : Z) : outcome A :=
  if i <? 0 then Fault else
  match l !! Z.to_nat i with Some x => Ret x | None => Fault end.

Definition astore {A} (l : list A) (i : Z) (x : A) : outcome (list A) :=
  if (0 <=? i) && (i <? Z.of_nat (length l))
  then Ret (<[Z.to_nat i := x]> l) else Fault.

(** * Macros of lib/generic.h *)

Definition MIN (a b : Z) : Z := if a <? b then a else b.

Definition MAX (a b : Z) : Z := if a >? b then a else b.

Definition RDIV (x y : Z) : Z := u32 (x + (y - 1)) / y.

Definition ALIGN_DOWN (val to : Z) : Z := Z.land val (u32 (Z.lnot (to - 1))).

Definition ALIGN (val to : Z) : Z :=
  if nz (val mod to) then u32 (ALIGN_DOWN val to + to) else val.

(** [PAGE_SIZE] of mem/paging.h. *)
Definition PAGE_SIZE : Z := 0x1000.

(** * errno.h *)

Definition EPERM : Z := 1.
Definition ENOENT : Z := 2.
Definition ESRCH : Z := 3.
Definition EINTR : Z := 4.
Definition EIO : Z := 5.
Definition EBADF : Z := 9.
Definition ECHILD : Z := 10.
Definition EAGAIN : Z := 11.
Definition ENOMEM : Z := 12.
Definition EACCES : Z := 13.
Definition EFAULT : Z := 14.
Definition EBUSY : Z := 16.
Definition EXDEV : Z := 18.
Definition ENOTDIR : Z := 20.
Definition EINVAL : Z := 22.
Definition ENFILE : Z := 23.
Definition EMFILE : Z := 24.
Definition EFBIG : Z := 27.
Definition ENOSYS : Z := 88.
Definition ENOTSUP : Z := 134.

(** * Lemmas and automation *)

Create HintDb xelix.
Create Rewrite HintDb xelix.

Lemma u32_range x : 0 <= u32 x < 2 ^ 32.
Proof. unfold u32. apply Z.mod_pos_bound. lia. Qed.

Lemma u32_small x : 0 <= x < 2 ^ 32 -> u32 x = x.
Proof. apply Z.mod_small. Qed.

Lemma u64_small x : 0 <= x < 2 ^ 64 -> u64 x = x.
Proof. apply Z.mod_small. Qed.

Lemma u32_u32 x : u32 (u32 x) = u32 x.
Proof. apply u32_small, u32_range. Qed.

Lemma u32_m1 : u32 (-1) = 4294967295.
Proof. reflexivity. Qed.

Lemma s32_small x : 0 <= x < 2 ^ 31 -> s32 x = x.
Proof.
  intros H. unfold s32. rewrite u32_small by lia.
  destruct (Z.ltb_spec x (2 ^ 31)); lia.
Qed.

Lemma s32_range x : - 2 ^ 31 <= s32 x < 2 ^ 31.
Proof.
  unfold s32. pose proof (u32_range x).
  destruct (Z.ltb_spec (u32 x) (2 ^ 31)); lia.
Qed.

Lemma u32_s32 x : u32 (s32 x) = u32 x.
Proof.
  unfold s32. destruct (Z.ltb_spec (u32 x) (2 ^ 31)).
  - apply u32_u32.
  - unfold u32. rewrite Zminus_mod, Z_mod_same_full, Z.sub_0_r, !Z.mod_mod; lia.
Qed.

Lemma nz_true x : nz x = true <-> x <> 0.
Proof. unfold nz. destruct (Z.eqb_spec x 0); naive_solver. Qed.

Lemma nz_false x : nz x = false <-> x = 0.
Proof. unfold nz. destruct (Z.eqb_spec x 0); naive_solver. Qed.

Lemma aload_Ret {A} (l : list A) i x :
  aload l i = Ret x <-> 0 <= i /\ l !! Z.to_nat i = Some x.
Proof.
  unfold aload. destruct (Z.ltb_spec i 0).
  - split; [discriminate | lia].
  - destruct (l !! Z.to_nat i); naive_solver.
Qed.

Lemma aload_in {A} (l : list A) i :
  0 <= i < Z.of_nat (length l) -> exists x, aload l i = Ret x /\ l !! Z.to_nat i = Some x.
Proof.
  intros H. unfold aload. destruct (Z.ltb_spec i 0); [lia |].
  destruct (lookup_lt_is_Some_2 l (Z.to_nat i)) as [x Hx]; [lia |].
  rewrite Hx. eauto.
Qed.

Lemma aload_out {A} (l : list A) i :
  Z.of_nat (length l) <= i -> aload l i = Fault.
Proof.
  intros H. unfold aload. destruct (Z.ltb_spec i 0); [done |].
  rewrite lookup_ge_None_2; [done | lia].
Qed.

Lemma astore_in {A} (l : list A) i x :
  0 <= i < Z.of_nat (length l) -> astore l i x = Ret (<[Z.to_nat i := x]> l).
Proof.
  intros H. unfold astore.
  destruct (Z.leb_spec 0 i), (Z.ltb_spec i (Z.of_nat (length l))); simpl; done || lia.
Qed.

Lemma MIN_spec a b : MIN a b = Z.min a b.
Proof. unfold MIN. destruct (Z.ltb_spec a b); lia. Qed.

Lemma MAX_spec a b : MAX a b = Z.max a b.
Proof. unfold MAX. rewrite Z.gtb_ltb. destruct (Z.ltb_spec b a); lia. Qed.

(** [RDIV] rounds up when the sum does not wrap. *)
Lemma RDIV_spec x y :
  0 < y -> 0 <= x -> x + (y - 1) < 2 ^ 32 ->
  y * RDIV x y >= x /\ y * RDIV x y < x + y.
Proof.
  intros Hy Hx Hw. unfold RDIV. rewrite u32_small by lia.
  pose proof (Z.div_mod (x + (y - 1)) y). pose proof (Z.mod_pos_bound (x + (y - 1)) y). lia.
Qed.

(** The mask of [ALIGN_DOWN] clears the low bits of a 32-bit value. *)
Lemma ALIGN_DOWN_spec k v :
  0 <= k < 32 -> 0 <= v < 2 ^ 32 -> ALIGN_DOWN v (2 ^ k) = v - v mod 2 ^ k.
Proof.
  intros Hk Hv. unfold ALIGN_DOWN, u32. rewrite <- Z.land_ones by lia.
  replace (2 ^ k - 1) with (Z.ones k) by (rewrite Z.ones_equiv; lia).
  rewrite (Z.land_comm (Z.lnot _)), Z.land_assoc, (Z.land_ones v 32), (Z.mod_small v) by lia.
  rewrite <- Z.ldiff_land.
  rewrite Z.ldiff_ones_r, Z.shiftl_mul_pow2, Z.shiftr_div_pow2 by lia.
  pose proof (Z.div_mod v (2 ^ k) ltac:(lia)). lia.
Qed.

(** [ALIGN] rounds up to a multiple when the result fits. *)
Lemma ALIGN_spec k v :
  0 <= k < 32 -> 0 <= v -> v + 2 ^ k <= 2 ^ 32 ->
  v <= ALIGN v (2 ^ k) < v + 2 ^ k /\ ALIGN v (2 ^ k) mod 2 ^ k = 0.
Proof.
  intros Hk Hv Hw. assert (0 < 2 ^ k) as Hp by (apply Z.pow_pos_nonneg; lia). unfold ALIGN.
  pose proof (Z.mod_pos_bound v (2 ^ k) Hp).
  destruct (nz _) eqn:E; [apply nz_true in E | apply nz_false in E; lia].
  pose proof (Z.div_mod v (2 ^ k) ltac:(lia)) as Hd.
  rewrite ALIGN_DOWN_spec by lia. destruct (decide (v - v mod 2 ^ k + 2 ^ k = 2 ^ 32)) as [E' | E'].
  - exfalso. lia.
  - rewrite u32_small by lia. split; [lia |].
    replace (v - v mod 2 ^ k + 2 ^ k) with ((v / 2 ^ k + 1) * 2 ^ k) by lia. by apply Z_mod_mult.
Qed.

Lemma bind_Ret {A B} (a : A) (f : A -> outcome B) : (Ret a ≫= f) = f a.
Proof. reflexivity. Qed.

(** Inversion of a computation that has returned. *)
Lemma bind_Ret_inv {A B} (m : outcome A) (k : A -> outcome B) b :
  (m ≫= k) = Ret b -> exists a, m = Ret a /\ k a = Ret b.
Proof. destruct m; try discriminate. simpl. eauto. Qed.

Tactic Notation "unbind" hyp(H) "as" simple_intropattern(x) ident(Hx) :=
  apply bind_Ret_inv in H as (x & Hx & H).

#[export] Hint Rewrite @bind_Ret u32_u32 u32_s32 MIN_spec MAX_spec : xelix.
#[export] Hint Resolve u32_range s32_range : xelix.

(** Splits on every boolean comparison of the goal and turns it into a
    proposition [lia] reads. *)
Ltac zcases :=
  repeat match goal with
  | |- context [ ?a <? ?b ] => destruct (Z.ltb_spec a b)
  | |- context [ ?a <=? ?b ] => destruct (Z.leb_spec a b)
  | |- context [ ?a =? ?b ] => destruct (Z.eqb_spec a b)
  end; simpl; try lia; try reflexivity.

(** The same in a hypothesis. *)
Ltac zcases_in H :=
  repeat match type of H with
  | context [ ?a <? ?b ] => destruct (Z.ltb_spec a b)
  | context [ ?a <=? ?b ] => destruct (Z.leb_spec a b)
  | context [ ?a =? ?b ] => destruct (Z.eqb_spec a b)
  end; simpl in H; try lia.
