(* ===== verification/Spinlock.v ===== *)
(** The spinlock of src/src/lib/spinlock.h.

    The lock is a byte, 0 when free.  [released i] says whether another task
    has released the lock while this one was scheduled away after its [i]-th
    try.  The rest of the kernel only passes [-1] for the number of retries,
    which means to try forever. *)
From stdpp Require Import base numbers.
From Stdlib Require Import ZArith Lia Bool.
From S2P Require Import Prelude.

Open Scope Z_scope.

(** The retry loop: [__sync_lock_test_and_set] stores 1 and gives the old value. *)
Fixpoint spinlock_loop (fuel : nat) (i : nat) (released : nat -> bool) (retries lock : Z)
    : outcome (bool * Z) :=
  match fuel with
  | O => Spin
  | S fuel =>
    if (Z.of_nat i <? retries) || (retries =? u32 (-1)) then
      if lock =? 0 then Ret (true, 1)
      else spinlock_loop fuel (S i) released retries (if released i then 0 else 1)
    else Ret (false, lock)
  end.

(** At most [patience] tries are made; a call that needs more is [Spin]. *)
Definition spinlock_get (patience : nat) (released : nat -> bool) (lock retries : Z)
    : outcome (bool * Z) :=
  spinlock_loop (S patience) 0 released retries lock.

Definition spinlock_release (lock : Z) : Z := 0.

(** [spinlock_get(&lock, -1)] while no other task holds or releases the lock:
    what remains of it is this ([spinlock_get_alone]). *)
Definition lock_acquire (lock : Z) : outcome Z := if lock =? 0 then Ret 1 else Spin.

Lemma spinlock_loop_alone fuel i lock :
  spinlock_loop fuel i (fun _ => false) (u32 (-1)) (if lock =? 0 then 1 else lock) =
    Spin \/ lock = 0.
Proof.
  destruct (Z.eqb_spec lock 0); [by right | left].
  revert i lock n. induction fuel as [| fuel IH]; intros i lock Hl; [done |].
  cbn [spinlock_loop]. rewrite Z.eqb_refl, orb_true_r.
  destruct (Z.eqb_spec lock 0); [done |]. by apply IH.
Qed.

(** With nobody to release it, an infinite [spinlock_get] on a free lock takes
    it at once and on a held lock never returns, whatever the patience: it is
    [lock_acquire], and it never answers [false]. *)
Lemma spinlock_get_alone patience lock :
  spinlock_get patience (fun _ => false) lock (u32 (-1)) =
    (l ← lock_acquire lock; Ret (true, l)).
Proof.
  unfold spinlock_get, lock_acquire. cbn [spinlock_loop]. rewrite Z.eqb_refl, orb_true_r.
  destruct (Z.eqb_spec lock 0); [done |].
  destruct (spinlock_loop_alone patience 1 1) as [H | H]; [exact H | done].
Qed.

Lemma spinlock_loop_wait fuel i released retries lock k :
  0 <= retries < u32 (-1) -> lock <> 0 -> (i <= k)%nat -> Z.of_nat k + 1 < retries ->
  (forall j, (i <= j < k)%nat -> released j = false) -> released k = true ->
  (k - i + 1 < fuel)%nat ->
  spinlock_loop fuel i released retries lock = Ret (true, 1).
Proof.
  intros Hr. revert i lock. induction fuel as [| fuel IH]; intros i lock Hl Hik Hk Hno Hrel Hf; [lia |].
  cbn [spinlock_loop]. destruct (Z.ltb_spec (Z.of_nat i) retries); [| lia]. cbn [orb].
  destruct (Z.eqb_spec lock 0); [done |].
  destruct (decide (i = k)) as [-> | Hne].
  - rewrite Hrel. destruct fuel as [| fuel]; [lia |]. cbn [spinlock_loop].
    destruct (Z.ltb_spec (Z.of_nat (S k)) retries); [done | lia].
  - rewrite (Hno i) by lia. apply IH; try done; try lia. intros j Hj. apply Hno. lia.
Qed.

(** A [spinlock_get] with a bounded number of retries takes a held lock as
    soon as another task releases it within the retries. *)
Theorem spinlock_get_acquires patience released retries lock k :
  0 <= retries < u32 (-1) -> lock <> 0 -> Z.of_nat k + 1 < retries ->
  (forall j, (j < k)%nat -> released j = false) -> released k = true ->
  (k + 1 <= patience)%nat ->
  spinlock_get patience released lock retries = Ret (true, 1).
Proof.
  intros Hr Hl Hk Hno Hrel Hp. apply spinlock_loop_wait with k; try done; try lia.
  intros j Hj. apply Hno. lia.
Qed.

Lemma spinlock_get_acquires_witness :
  spinlock_get 10 (fun i => Nat.eqb i 3) 1 8 = Ret (true, 1).
Proof.
  apply (spinlock_get_acquires 10 (fun i => Nat.eqb i 3) 8 1 3); try lia.
  - vm_compute. split; discriminate || reflexivity.
  - intros j Hj. destruct j as [| [| [| j]]]; reflexivity || lia.
  - reflexivity.
Defined.
