(* ===== verification/Bitmap.v ===== *)
(** The page bitmaps of src/src/lib/bitmap.h and bitmap.c.

    A bitmap is an array of 32-bit words, the number of bits it is responsible
    for and a search hint.  The operations are the loops of the C code over
    the words; an access outside the array is [Fault].  The theorems relate
    each of them to the set of bits the array stores ([bitmap_bit]). *)
From stdpp Require Import base numbers list.
From Stdlib Require Import ZArith Lia Bool.
From S2P Require Import Prelude.

Open Scope Z_scope.

(** * The code *)

Definition bit_set (num bit : Z) : Z := Z.lor num (Z.shiftl 1 bit).

Definition bit_clear (num bit : Z) : Z := Z.land num (Z.lnot (Z.shiftl 1 bit)).

Definition bit_toggle (num bit : Z) : Z := Z.lxor num (Z.shiftl 1 bit).

Definition bit_get (num bit : Z) : Z := Z.land num (Z.shiftl 1 bit).

Record bitmap : Type := Bitmap {
  data : list Z;
  size : Z;
  first_free : Z
}.

Definition set_data (bm : bitmap) (d : list Z) : bitmap :=
  Bitmap d (size bm) (first_free bm).

Definition bitmap_index (a : Z) : Z := a / 32.

Definition bitmap_offset (a : Z) : Z := a mod 32.

Definition bitmap_size (sz : Z) : Z := u32 (sz + 32 - 1) / 32.

Definition bitmap_get (bm : bitmap) (num : Z) : outcome Z :=
  w ← aload (data bm) (bitmap_index num);
  Ret (bit_get w (bitmap_offset num)).

(** The loop [bitmap_set] and [bitmap_clear] share: a whole word is stored where
    the range covers one, a single bit is changed elsewhere; [i] is the loop
    variable. *)
Fixpoint range_loop (fuel : nat) (full : Z) (upd : Z -> Z -> Z) (d : list Z)
    (pos num i : Z) : outcome (list Z) :=
  match fuel with
  | O => Spin
  | S fuel =>
    if i <? num then
      let index := bitmap_index (u32 (pos + i)) in
      let offset := bitmap_offset (u32 (pos + i)) in
      if (offset =? 0) && (32 <=? u32 (num - i)) then
        d ← astore d index full;
        range_loop fuel full upd d pos num (i + 31 + 1)
      else
        w ← aload d index;
        d ← astore d index (upd w offset);
        range_loop fuel full upd d pos num (i + 1)
    else Ret d
  end.

Definition bitmap_set (bm : bitmap) (pos num : Z) : outcome bitmap :=
  d ← range_loop (S (Z.to_nat num)) 0xffffffff bit_set (data bm) pos num 0;
  Ret (set_data bm d).

(** [first_free] is compared with [pos] as the unsigned numbers they become. *)
Definition bitmap_clear (bm : bitmap) (pos num : Z) : outcome bitmap :=
  if u32 (pos + num) >? size bm then Ret bm else
  d ← range_loop (S (Z.to_nat num)) 0 bit_clear (data bm) pos num 0;
  Ret (Bitmap d (size bm) (MIN (first_free bm) pos)).

(** [bzero] on an array of words: [n] counts bytes, the words are stored
    little-endian. *)
Fixpoint bzero_words (d : list Z) (n : Z) : list Z :=
  match d with
  | [] => []
  | w :: d' =>
    (if 4 <=? n then 0
     else if n <=? 0 then w
     else Z.shiftl (Z.shiftr w (8 * n)) (8 * n)) :: bzero_words d' (n - 4)
  end.

Definition bitmap_clear_all (bm : bitmap) : bitmap :=
  set_data bm (bzero_words (data bm) (bitmap_size (size bm))).

(** The scan of one word in [bitmap_find]: either the start of a long enough
    run, or the run the word ends in (its start and its length). *)
Inductive scan_res : Type :=
  | Found (start : Z)
  | Run (contig_start contig_num : Z).

Fixpoint find_bits (fuel : nat) (bits i j num cstart cnum : Z) : scan_res :=
  match fuel with
  | O => Run cstart cnum
  | S fuel =>
    if j <? 32 then
      if nz (bit_get bits j) then find_bits fuel bits i (j + 1) num cstart 0
      else
        let cstart := if cnum =? 0 then s32 (i * 32 + j) else cstart in
        let cnum := cnum + 1 in
        if num <=? cnum then Found cstart
        else find_bits fuel bits i (j + 1) num cstart cnum
    else Run cstart cnum
  end.

(** The loop of [bitmap_find] over the words; the result is the returned
    number with the new value of [first_free]. *)
Fixpoint find_words (fuel : nat) (d : list Z) (limit i offset num cstart cnum : Z)
    (all_nonfree : bool) (ff : Z) : outcome (Z * Z) :=
  match fuel with
  | O => Spin
  | S fuel =>
    if i <=? limit then
      bits ← aload d i;
      if bits =? 0xffffffff then
        find_words fuel d limit (i + 1) 0 num cstart 0 all_nonfree ff
      else
        let ff := if all_nonfree then i else ff in
        if (offset =? 0) && (bits =? 0) then
          let cstart := if cnum =? 0 then s32 (i * 32) else cstart in
          let cnum := cnum + 32 in
          if num <=? cnum then Ret (u32 cstart, ff)
          else find_words fuel d limit (i + 1) offset num cstart cnum false ff
        else
          match find_bits 32 bits i offset num cstart cnum with
          | Found r => Ret (u32 r, ff)
          | Run cstart cnum =>
            find_words fuel d limit (i + 1) 0 num cstart cnum false ff
          end
    else Ret (u32 (-1), ff)
  end.

(** The word [bitmap_find] starts at. *)
Definition find_start (bm : bitmap) (start : Z) : Z :=
  if start / 32 <? first_free bm then first_free bm else start / 32.

Definition bitmap_find (bm : bitmap) (start num : Z) : outcome (Z * bitmap) :=
  let limit := bitmap_size (size bm) in
  let start_arraypos := find_start bm start in
  '(r, ff) ← find_words (S (S (Z.to_nat limit))) (data bm) limit start_arraypos
               (start mod 32) num 0 0 true (first_free bm);
  Ret (r, Bitmap (data bm) (size bm) ff).

(** [__builtin_clz], [__builtin_ctz] and [__builtin_popcount] on a word. *)
Definition clz32 (w : Z) : Z := 31 - Z.log2 w.

Fixpoint ctz_pos (p : positive) : Z :=
  match p with
  | xO q => 1 + ctz_pos q
  | _ => 0
  end.

Definition ctz32 (w : Z) : Z :=
  match w with Zpos p => ctz_pos p | _ => 32 end.

Definition popcount32 (w : Z) : Z :=
  foldr (fun j acc => (if Z.testbit w j then 1 else 0) + acc) 0 (seqZ 0 32).

Fixpoint get_range_loop (fuel : nat) (d : list Z) (limit remainder arraypos : Z) : outcome Z :=
  match fuel with
  | O => Spin
  | S fuel =>
    if (0 <? remainder) && (arraypos <=? limit) then
      bits ← aload d arraypos;
      if bits =? 0 then
        if remainder <=? 32 then Ret 0
        else get_range_loop fuel d limit (remainder - 32) (arraypos + 1)
      else if 32 <=? remainder then Ret 1
      else if ctz32 bits <? remainder then Ret 1
      else get_range_loop fuel d limit remainder (arraypos + 1)
    else Ret 0
  end.

Definition bitmap_get_range (bm : bitmap) (start num : Z) : outcome Z :=
  let limit := bitmap_size (size bm) in
  let fuel := S (S (Z.to_nat limit)) in
  let arraypos := start / 32 in
  if nz (start mod 32) then
    bits ← aload (data bm) arraypos;
    let uaoff := 32 - start mod 32 in
    if nz bits && (clz32 bits <? uaoff) then Ret 1
    else get_range_loop fuel (data bm) limit (u32 (num - uaoff)) (arraypos + 1)
  else get_range_loop fuel (data bm) limit num arraypos.

Fixpoint count_loop (fuel : nat) (d : list Z) (limit i count : Z) : outcome Z :=
  match fuel with
  | O => Spin
  | S fuel =>
    if i <=? limit then
      w ← aload d i;
      count_loop fuel d limit (i + 1) (u32 (count + popcount32 w))
    else Ret count
  end.

Definition bitmap_count (bm : bitmap) : outcome Z :=
  let limit := bitmap_size (size bm) in
  count_loop (S (S (Z.to_nat limit))) (data bm) limit (first_free bm)
    (u32 (first_free bm * 32)).

(** * Specification: the bits of the array *)

Definition bitmap_bit (d : list Z) (k : Z) : bool :=
  Z.testbit (default 0 (d !! Z.to_nat (k / 32))) (k mod 32).

(** The number of bits the array can store. *)
Definition nbits (d : list Z) : Z := 32 * Z.of_nat (length d).

Definition words_ok (d : list Z) : Prop := Forall (fun w => 0 <= w < 2 ^ 32) d.

(** What every operation expects of a bitmap and keeps: the words are 32-bit
    words, and the array has a word more than the size needs, because the
    loops over it run one word past the last one. *)
Record bitmap_wf (bm : bitmap) : Prop := {
  wf_words : words_ok (data bm);
  wf_size : 0 <= size bm < 2 ^ 30;
  wf_len : bitmap_size (size bm) < Z.of_nat (length (data bm)) <= 2 ^ 25;
  wf_first : 0 <= first_free bm
}.

(** * Words *)

Lemma bitmap_bit_insert d i w k :
  0 <= i < Z.of_nat (length d) -> 0 <= k ->
  bitmap_bit (<[Z.to_nat i := w]> d) k =
    if k / 32 =? i then Z.testbit w (k mod 32) else bitmap_bit d k.
Proof.
  intros Hi Hk. unfold bitmap_bit.
  assert (0 <= k / 32) by (apply Z.div_pos; lia).
  destruct (Z.eqb_spec (k / 32) i) as [-> | Hne].
  - rewrite list_lookup_insert_eq; [done | lia].
  - rewrite list_lookup_insert_ne by lia. done.
Qed.

Lemma words_ok_insert d i w : words_ok d -> 0 <= w < 2 ^ 32 -> words_ok (<[i := w]> d).
Proof. intros Hd Hw. by apply Forall_insert. Qed.

Lemma words_ok_lookup d i w : words_ok d -> d !! i = Some w -> 0 <= w < 2 ^ 32.
Proof. intros Hd Hl. exact (Forall_lookup_1 _ _ _ _ Hd Hl). Qed.

Lemma word_high w n : 0 <= w < 2 ^ 32 -> 32 <= n -> Z.testbit w n = false.
Proof.
  intros Hw Hn. destruct (Z.eq_dec w 0) as [-> | Hnz]; [apply Z.bits_0 |].
  apply Z.bits_above_log2; [lia |]. assert (Z.log2 w < 32); [| lia].
  apply Z.log2_lt_pow2; lia.
Qed.

(** A number whose bits above 31 are clear is a word. *)
Lemma word_intro w : 0 <= w -> (forall n, 32 <= n -> Z.testbit w n = false) -> 0 <= w < 2 ^ 32.
Proof.
  intros Hw H. split; [done |]. destruct (Z.eq_dec w 0) as [-> | Hnz]; [lia |].
  apply Z.log2_lt_pow2; [lia |]. destruct (Z.lt_ge_cases (Z.log2 w) 32); [done |].
  specialize (H (Z.log2 w) ltac:(done)). rewrite Z.bit_log2 in H by lia. done.
Qed.

Lemma shl1_bit j n : 0 <= j -> Z.testbit (Z.shiftl 1 j) n = (n =? j).
Proof.
  intros Hj. rewrite Z.shiftl_1_l.
  destruct (Z.eqb_spec n j) as [-> | Hne].
  - by apply Z.pow2_bits_true.
  - by apply Z.pow2_bits_false.
Qed.

Lemma bit_get_nz w j : 0 <= j -> nz (bit_get w j) = Z.testbit w j.
Proof.
  intros Hj. unfold bit_get. destruct (Z.testbit w j) eqn:Hb.
  - apply nz_true. intros H0. apply (f_equal (fun x => Z.testbit x j)) in H0.
    rewrite Z.land_spec, shl1_bit, Hb, Z.eqb_refl, Z.bits_0 in H0 by done. done.
  - apply nz_false. apply Z.bits_inj'. intros n Hn.
    rewrite Z.land_spec, shl1_bit, Z.bits_0 by done.
    destruct (Z.eqb_spec n j) as [-> | _]; [by rewrite Hb | apply andb_false_r].
Qed.

Lemma bit_set_ok w j : 0 <= w < 2 ^ 32 -> 0 <= j < 32 -> 0 <= bit_set w j < 2 ^ 32.
Proof.
  intros Hw Hj. apply word_intro.
  - apply Z.lor_nonneg. split; [lia |]. apply Z.shiftl_nonneg. lia.
  - intros n Hn. unfold bit_set. rewrite Z.lor_spec, shl1_bit, word_high by (done || lia).
    destruct (Z.eqb_spec n j); [lia | done].
Qed.

Lemma bit_set_bit w j n : 0 <= j ->
  Z.testbit (bit_set w j) n = if n =? j then true else Z.testbit w n.
Proof.
  intros Hj. unfold bit_set. rewrite Z.lor_spec, shl1_bit by done.
  destruct (n =? j); [apply orb_true_r | apply orb_false_r].
Qed.

Lemma bit_clear_ok w j : 0 <= w < 2 ^ 32 -> 0 <= j < 32 -> 0 <= bit_clear w j < 2 ^ 32.
Proof.
  intros Hw Hj. apply word_intro.
  - apply Z.land_nonneg. left. lia.
  - intros n Hn. unfold bit_clear. by rewrite Z.land_spec, word_high by (done || lia).
Qed.

Lemma bit_clear_bit w j n : 0 <= j -> 0 <= n ->
  Z.testbit (bit_clear w j) n = if n =? j then false else Z.testbit w n.
Proof.
  intros Hj Hn. unfold bit_clear. rewrite Z.land_spec, Z.lnot_spec, shl1_bit by done.
  destruct (n =? j); [apply andb_false_r | apply andb_true_r].
Qed.

Lemma full_word_bit j : 0 <= j < 32 -> Z.testbit 0xffffffff j = true.
Proof.
  intros Hj. change 0xffffffff with (Z.ones 32). rewrite Z.ones_spec_low; [done | lia].
Qed.

(** A word other than [0xffffffff] has a clear bit; used to know that a full
    word ends every run. *)
Lemma bitmap_bit_load d i w j :
  0 <= i -> 0 <= j < 32 -> aload d i = Ret w -> bitmap_bit d (32 * i + j) = Z.testbit w j.
Proof.
  intros Hi Hj [_ Hl]%aload_Ret. unfold bitmap_bit.
  replace ((32 * i + j) / 32) with i by (apply Z.div_unique with j; lia).
  replace ((32 * i + j) mod 32) with j by (apply Z.mod_unique with i; lia).
  by rewrite Hl.
Qed.

Lemma div32_bounds k : 32 * (k / 32) <= k < 32 * (k / 32) + 32.
Proof. pose proof (Z.div_mod k 32). pose proof (Z.mod_pos_bound k 32). lia. Qed.

Lemma div32_range k i : 32 * i <= k < 32 * i + 32 -> k / 32 = i.
Proof. intros H. symmetry. apply Z.div_unique with (k - 32 * i); lia. Qed.

(** * bitmap_set and bitmap_clear *)

(** [range_loop] gives every bit of the range the value [v] and keeps the
    others, for any pair of a full word and a bit update that agree on [v]. *)
Section RangeLoop.
  Context (full : Z) (upd : Z -> Z -> Z) (v : bool).
  Hypothesis full_ok : 0 <= full < 2 ^ 32.
  Hypothesis full_bits : forall j, 0 <= j < 32 -> Z.testbit full j = v.
  Hypothesis upd_ok : forall w j, 0 <= w < 2 ^ 32 -> 0 <= j < 32 -> 0 <= upd w j < 2 ^ 32.
  Hypothesis upd_bit : forall w j n, 0 <= j -> 0 <= n ->
    Z.testbit (upd w j) n = if n =? j then v else Z.testbit w n.

Lemma range_loop_spec fuel d pos num i :
  words_ok d -> 0 <= pos -> 0 <= i <= num -> pos + num <= nbits d -> nbits d < 2 ^ 31 ->
  num - i < Z.of_nat fuel ->
  exists d', range_loop fuel full upd d pos num i = Ret d' /\ words_ok d' /\
    length d' = length d /\
    forall k, 0 <= k ->
      bitmap_bit d' k = if (pos + i <=? k) && (k <? pos + num) then v else bitmap_bit d k.
Proof.
  revert d i. induction fuel as [| fuel IH]; intros d i Hd Hpos Hi Hlen Hmax Hf; [lia |].
  simpl. unfold nbits in *. destruct (Z.ltb_spec i num); last first.
  { exists d. repeat split; try done. intros k Hk. zcases. }
  rewrite !(u32_small (pos + i)), (u32_small (num - i)) by lia.
  unfold bitmap_index, bitmap_offset.
  pose proof (div32_bounds (pos + i)) as Hdiv. pose proof (Z.mod_pos_bound (pos + i) 32) as Hmod.
  pose proof (Z.div_mod (pos + i) 32) as Hdm.
  destruct ((((pos + i) mod 32) =? 0) && (32 <=? num - i)) eqn:Hfast.
  - apply andb_prop in Hfast as [Ho%Z.eqb_eq Hn%Z.leb_le].
    rewrite astore_in by lia. rewrite bind_Ret.
    destruct (IH (<[Z.to_nat ((pos + i) / 32) := full]> d) (i + 31 + 1))
      as (d' & He & Hw & Hl & Hb); rewrite ?length_insert; try lia.
    { by apply words_ok_insert. }
    exists d'. rewrite length_insert in Hl. repeat split; try done. intros k Hk.
    rewrite Hb, bitmap_bit_insert, full_bits by (lia || apply Z.mod_pos_bound; lia).
    pose proof (div32_bounds k). pose proof (div32_range k ((pos + i) / 32)). zcases.
  - clear Hfast. destruct (aload_in d ((pos + i) / 32)) as (w & Hw & Hlk); [lia |].
    pose proof (words_ok_lookup _ _ _ Hd Hlk).
    rewrite Hw, bind_Ret, astore_in, bind_Ret by lia.
    destruct (IH (<[Z.to_nat ((pos + i) / 32) := upd w ((pos + i) mod 32)]> d)
      (i + 1)) as (d' & He & Hww & Hl & Hb); rewrite ?length_insert; try lia.
    { apply words_ok_insert; [done |]. apply upd_ok; lia. }
    exists d'. rewrite length_insert in Hl. repeat split; try done. intros k Hk.
    pose proof (Z.div_mod k 32). pose proof (Z.mod_pos_bound k 32).
    rewrite Hb, bitmap_bit_insert, upd_bit by lia.
    destruct (Z.eqb_spec (k / 32) ((pos + i) / 32)) as [Heq | Hne].
    + unfold bitmap_bit. rewrite Heq, Hlk. simpl. zcases.
    + assert (k <> pos + i) by congruence. zcases.
Qed.

End RangeLoop.

Lemma bitmap_wf_nbits bm : bitmap_wf bm -> size bm <= nbits (data bm) < 2 ^ 31.
Proof.
  intros [_ Hs Hl _]. unfold nbits, bitmap_size in *. rewrite u32_small in Hl by lia.
  pose proof (div32_bounds (size bm + 32 - 1)). lia.
Qed.

Lemma bitmap_set_spec bm pos num :
  bitmap_wf bm -> 0 <= pos -> 0 <= num -> pos + num <= nbits (data bm) ->
  exists bm', bitmap_set bm pos num = Ret bm' /\ bitmap_wf bm' /\
    size bm' = size bm /\ first_free bm' = first_free bm /\
    length (data bm') = length (data bm) /\
    forall k, 0 <= k -> bitmap_bit (data bm') k =
      if (pos <=? k) && (k <? pos + num) then true else bitmap_bit (data bm) k.
Proof.
  intros Hwf Hp Hn Hlen. pose proof (bitmap_wf_nbits _ Hwf) as Hnb. destruct Hwf as [Hw Hs Hl Hf].
  destruct (range_loop_spec 0xffffffff bit_set true) with
    (fuel := S (Z.to_nat num)) (d := data bm) (pos := pos) (num := num) (i := 0)
    as (d' & He & Hw' & Hl' & Hb); try done; try lia.
  - apply full_word_bit.
  - apply bit_set_ok.
  - intros w j n Hj _. by apply bit_set_bit.
  - exists (set_data bm d'). unfold bitmap_set. rewrite He. repeat split; simpl; try done; try lia.
    intros k Hk. by rewrite Hb, Z.add_0_r by done.
Qed.

Lemma bitmap_clear_spec bm pos num :
  bitmap_wf bm -> 0 <= pos -> 0 <= num -> pos + num <= size bm ->
  exists bm', bitmap_clear bm pos num = Ret bm' /\ bitmap_wf bm' /\
    size bm' = size bm /\ first_free bm' = Z.min (first_free bm) pos /\
    length (data bm') = length (data bm) /\
    forall k, 0 <= k -> bitmap_bit (data bm') k =
      if (pos <=? k) && (k <? pos + num) then false else bitmap_bit (data bm) k.
Proof.
  intros Hwf Hp Hn Hlen. pose proof (bitmap_wf_nbits _ Hwf) as Hnb. destruct Hwf as [Hw Hs Hl Hf].
  destruct (range_loop_spec 0 bit_clear false) with
    (fuel := S (Z.to_nat num)) (d := data bm) (pos := pos) (num := num) (i := 0)
    as (d' & He & Hw' & Hl' & Hb); try done; try lia.
  - intros j _. apply Z.bits_0.
  - apply bit_clear_ok.
  - intros w j n Hj Hn'. by apply bit_clear_bit.
  - exists (Bitmap d' (size bm) (Z.min (first_free bm) pos)). unfold bitmap_clear.
    rewrite u32_small, Z.gtb_ltb by lia. destruct (Z.ltb_spec (size bm) (pos + num)); [lia |].
    rewrite He, bind_Ret, MIN_spec. repeat split; simpl; try done; try lia.
    intros k Hk. by rewrite Hb, Z.add_0_r by done.
Qed.

(** * bitmap_find *)

Definition free_run (d : list Z) (r n : Z) : Prop :=
  forall k, r <= k < r + n -> bitmap_bit d k = false.

(** [r] starts the first run of [n] clear bits at or after bit [s]. *)
Definition first_fit (d : list Z) (s n r : Z) : Prop :=
  s <= r /\ free_run d r n /\ forall r', s <= r' < r -> ~ free_run d r' n.

Lemma free_run_hit d r n k : r <= k < r + n -> bitmap_bit d k = true -> ~ free_run d r n.
Proof. intros Hk Hb Hf. by rewrite Hf in Hb. Qed.

(** The state of the search when every bit from [s] up to [cur] has been seen:
    the current run is [cnum] long and ends at [cur], it cannot be extended to
    the left, and no run of [num] bits lies before [cur]. *)
Record scanned (d : list Z) (s num cur cstart cnum : Z) : Prop := {
  sc_num : 0 <= cnum < num;
  sc_start : cnum <> 0 -> cstart = cur - cnum;
  sc_low : s <= cur - cnum;
  sc_run : free_run d (cur - cnum) cnum;
  sc_edge : cur - cnum = s \/ bitmap_bit d (cur - cnum - 1) = true;
  sc_none : forall r, s <= r -> r + num <= cur -> ~ free_run d r num
}.

(** No run that starts left of the current one reaches past its left edge. *)
Lemma scanned_left d s num cur cstart cnum r :
  scanned d s num cur cstart cnum -> s <= r < cur - cnum -> ~ free_run d r num.
Proof.
  intros [Hn Hs Hl Hr He H0] Hr'. destruct (Z.le_gt_cases (r + num) cur); [by apply H0; lia |].
  destruct He as [He | He]; [lia |]. eapply free_run_hit; [| exact He]. lia.
Qed.

(** Seeing [n] more clear bits. *)
Lemma scanned_extend d s num cur cstart cnum n :
  scanned d s num cur cstart cnum -> 0 < n -> free_run d cur n ->
  if num <=? cnum + n then first_fit d s num (cur - cnum)
  else scanned d s num (cur + n) (cur - cnum) (cnum + n).
Proof.
  intros Hsc Hn Hf. destruct (Hsc) as [H1 H2 H3 H4 H5 H6].
  destruct (Z.leb_spec num (cnum + n)).
  - split; [done |]. split.
    + intros k Hk. destruct (Z.lt_ge_cases k cur); [apply H4 | apply Hf]; lia.
    + intros r' Hr'. eapply scanned_left; [exact Hsc | lia].
  - assert (cur + n - (cnum + n) = cur - cnum) as Heq by lia.
    constructor; rewrite ?Heq; try done; try lia.
    + intros k Hk. destruct (Z.lt_ge_cases k cur); [apply H4 | apply Hf]; lia.
    + intros r Hr Hr' Hfr. eapply (scanned_left _ _ _ _ _ _ r); [exact Hsc | lia | done].
Qed.

(** Seeing [n] bits the last of which is set and none of which is clear. *)
Lemma scanned_reset d s num cur cstart cnum n cs :
  scanned d s num cur cstart cnum -> 0 < n ->
  (forall k, cur <= k < cur + n -> bitmap_bit d k = true) ->
  scanned d s num (cur + n) cs 0.
Proof.
  intros [H1 H2 H3 H4 H5 H6] Hn Hset. constructor; rewrite ?Z.sub_0_r; try lia.
  - intros k Hk. lia.
  - right. apply Hset. lia.
  - intros r Hr Hrn. destruct (Z.le_gt_cases (r + num) cur); [by apply H6 |].
    apply (free_run_hit d r num (r + num - 1)); [lia |]. apply Hset. lia.
Qed.

Lemma find_bits_spec fuel d s bits i j num cstart cnum :
  0 <= i < 2 ^ 25 -> 0 <= j <= 32 -> 32 - j < Z.of_nat fuel + 1 -> aload d i = Ret bits ->
  scanned d s num (32 * i + j) cstart cnum ->
  match find_bits fuel bits i j num cstart cnum with
  | Found r => first_fit d s num r /\ r + num <= 32 * i + 32
  | Run cs cn => scanned d s num (32 * i + 32) cs cn
  end.
Proof.
  intros Hi. revert j cstart cnum. induction fuel as [| fuel IH]; intros j cstart cnum Hj Hf Hl Hsc.
  { simpl. by replace 32 with j at 2 by lia. }
  simpl. destruct (Z.ltb_spec j 32); last by replace 32 with j at 2 by lia.
  rewrite bit_get_nz by lia. pose proof (bitmap_bit_load d i bits j) as Hb.
  rewrite (s32_small (i * 32 + j)) by lia.
  destruct (Z.testbit bits j) eqn:Hbit.
  - apply IH; try lia; try done. rewrite Z.add_assoc.
    apply scanned_reset with cstart cnum; try done; try lia.
    intros k Hk. replace k with (32 * i + j) by lia. apply Hb; done || lia.
  - assert (free_run d (32 * i + j) 1) as Hrun.
    { intros k Hk. replace k with (32 * i + j) by lia. apply Hb; done || lia. }
    pose proof (scanned_extend _ _ _ _ _ _ 1 Hsc ltac:(lia) Hrun) as Hext.
    assert ((if cnum =? 0 then i * 32 + j else cstart) = 32 * i + j - cnum) as ->.
    { destruct (Z.eqb_spec cnum 0); [lia |]. by apply (sc_start _ _ _ _ _ _ Hsc). }
    destruct (Z.leb_spec num (cnum + 1)).
    + split; [done |]. destruct Hsc as [? _ ? _ _ _]. lia.
    + apply IH; try lia; try done. by rewrite Z.add_assoc.
Qed.

(** What a search from bit [s] to the end of word [limit] may answer. *)
Definition find_answer (d : list Z) (s num limit r : Z) : Prop :=
  (first_fit d s num r /\ r + num <= 32 * (limit + 1)) \/
  (r = u32 (-1) /\
   forall r', s <= r' -> r' + num <= 32 * (limit + 1) -> ~ free_run d r' num).

Lemma find_words_spec fuel d limit i offset num cstart cnum an ff s :
  words_ok d -> limit < Z.of_nat (length d) <= 2 ^ 25 -> 0 <= s -> 0 <= i -> 0 <= offset < 32 ->
  0 <= ff -> limit - i < Z.of_nat fuel - 1 -> 0 < Z.of_nat fuel ->
  scanned d s num (32 * i + offset) cstart cnum ->
  exists r ff', find_words fuel d limit i offset num cstart cnum an ff = Ret (r, ff') /\
    0 <= ff' /\ find_answer d s num limit r.
Proof.
  intros Hd Hlim Hs. revert i offset cstart cnum an ff.
  induction fuel as [| fuel IH]; intros i offset cstart cnum an ff Hi Ho Hff Hf Hf0 Hsc; [lia |].
  cbn [find_words]. destruct (Z.leb_spec i limit); last first.
  { exists (u32 (-1)), ff. repeat split; try done. right. split; [done |].
    intros r' Hr' Hr''. apply (sc_none _ _ _ _ _ _ Hsc); lia. }
  destruct (aload_in d i) as (bits & Hl & Hlk); [lia |]. rewrite Hl, bind_Ret.
  pose proof (words_ok_lookup _ _ _ Hd Hlk) as Hw.
  pose proof (bitmap_bit_load d i bits) as Hbits.
  destruct (Z.eqb_spec bits 0xffffffff) as [-> | Hnf].
  { apply IH; try lia. replace (32 * (i + 1) + 0) with (32 * i + offset + (32 - offset)) by lia.
    apply scanned_reset with cstart cnum; try done; try lia. intros k Hk.
    replace k with (32 * i + (k - 32 * i)) by lia.
    rewrite Hbits by (done || lia). apply full_word_bit. lia. }
  assert (0 <= (if an then i else ff)) by (destruct an; lia).
  destruct ((offset =? 0) && (bits =? 0)) eqn:Hz.
  - apply andb_prop in Hz as [->%Z.eqb_eq ->%Z.eqb_eq]. rewrite Z.add_0_r in Hsc.
    assert (free_run d (32 * i) 32) as Hrun.
    { intros k Hk. replace k with (32 * i + (k - 32 * i)) by lia.
      rewrite Hbits by (done || lia). apply Z.bits_0. }
    pose proof (scanned_extend _ _ _ _ _ _ 32 Hsc ltac:(lia) Hrun) as Hext.
    rewrite s32_small by lia.
    assert ((if cnum =? 0 then i * 32 else cstart) = 32 * i - cnum) as ->.
    { destruct (Z.eqb_spec cnum 0); [lia |]. by apply (sc_start _ _ _ _ _ _ Hsc). }
    destruct Hsc as [Hc _ Hlow _ _ _].
    destruct (Z.leb_spec num (cnum + 32)).
    + rewrite u32_small by lia. do 2 eexists. repeat split; [done |]. left. split; [done | lia].
    + apply IH; try lia. by replace (32 * (i + 1) + 0) with (32 * i + 32) by lia.
  - pose proof (find_bits_spec 32 d s bits i offset num cstart cnum) as Hfb.
    destruct (find_bits 32 bits i offset num cstart cnum) as [r | cs cn].
    + destruct Hfb as [Hfit Hub]; try done; try lia.
      assert (0 <= r < 2 ^ 31) by (destruct Hfit as [? _], Hsc; lia).
      rewrite u32_small by lia. do 2 eexists. repeat split; [done |]. left. split; [done | lia].
    + apply IH; try lia. replace (32 * (i + 1) + 0) with (32 * i + 32) by lia.
      apply Hfb; done || lia.
Qed.

Lemma bitmap_find_spec bm start num :
  bitmap_wf bm -> 0 <= start -> 0 < num ->
  exists r ff, bitmap_find bm start num = Ret (r, Bitmap (data bm) (size bm) ff) /\
    0 <= ff /\
    find_answer (data bm) (32 * find_start bm start + start mod 32) num
      (bitmap_size (size bm)) r.
Proof.
  intros [Hw Hs Hl Hf] Hst Hn. unfold bitmap_find.
  assert (0 <= start / 32) by (apply Z.div_pos; lia).
  pose proof (Z.mod_pos_bound start 32).
  assert (0 <= bitmap_size (size bm)).
  { unfold bitmap_size. apply Z.div_pos; [apply u32_range | lia]. }
  assert (0 <= find_start bm start) by (unfold find_start; zcases).
  destruct (find_words_spec (S (S (Z.to_nat (bitmap_size (size bm))))) (data bm)
    (bitmap_size (size bm)) (find_start bm start) (start mod 32) num 0 0 true (first_free bm)
    (32 * find_start bm start + start mod 32)) as (r & ff & He & Hff & Ha); try done; try lia.
  - constructor; rewrite ?Z.sub_0_r; try lia. intros k Hk. lia.
  - exists r, ff. rewrite He. done.
Qed.

(** The hint: a search moves it to the first word that is not full, so that
    what the search could see stays visible. *)
Lemma find_words_keeps fuel d limit i offset num cstart cnum ff r ff' :
  find_words fuel d limit i offset num cstart cnum false ff = Ret (r, ff') -> ff' = ff.
Proof.
  revert i offset cstart cnum. induction fuel as [| fuel IH]; intros i offset cstart cnum; [done |]. cbn [find_words].
  destruct (i <=? limit); [| congruence]. destruct (aload d i) as [bits | | |]; try done. cbn [mbind outcome_bind].
  destruct (bits =? 0xffffffff); [apply IH |].
  destruct ((offset =? 0) && (bits =? 0)).
  - destruct (num <=? cnum + 32); [congruence | apply IH].
  - destruct (find_bits 32 bits i offset num cstart cnum); [congruence | apply IH].
Qed.

Lemma find_words_hint fuel d limit i offset num cstart cnum ff r ff' k :
  find_words fuel d limit i offset num cstart cnum true ff = Ret (r, ff') ->
  0 <= i -> 32 * i <= k -> k / 32 <= limit -> bitmap_bit d k = false -> 32 * ff' <= k.
Proof.
  revert i offset cstart cnum. induction fuel as [| fuel IH]; intros i offset cstart cnum; [done |]. cbn [find_words].
  intros E Hi Hk Hlim Hb. pose proof (div32_bounds k). destruct (Z.leb_spec i limit); [| lia].
  destruct (aload d i) as [bits | | |] eqn:Eb; try done. cbn [mbind outcome_bind] in E.
  destruct (Z.eqb_spec bits 0xffffffff) as [-> | Hne].
  { eapply IH; [exact E | lia | | done | done]. destruct (decide (32 * (i + 1) <= k)); [done |]. exfalso.
    replace k with (32 * i + (k - 32 * i)) in Hb by lia. rewrite (bitmap_bit_load d i 0xffffffff) in Hb by (done || lia).
    by rewrite full_word_bit in Hb by lia. }
  assert (ff' = i) as ->; [| lia]. destruct ((offset =? 0) && (bits =? 0)).
  - destruct (num <=? cnum + 32); [congruence | by eapply find_words_keeps].
  - destruct (find_bits 32 bits i offset num cstart cnum); [congruence | by eapply find_words_keeps].
Qed.

Lemma bitmap_find_hint bm num r bm' k :
  bitmap_wf bm -> bitmap_find bm 0 num = Ret (r, bm') ->
  32 * first_free bm <= k < size bm -> bitmap_bit (data bm) k = false -> 32 * first_free bm' <= k.
Proof.
  intros [_ Hs _ Hf] E Hk Hb. unfold bitmap_find in E. change (0 mod 32) with 0 in E.
  unbind E as [r' ff'] E'. simplify_eq. cbn [first_free]. assert (find_start bm 0 = first_free bm) as E0 by (unfold find_start; change (0 / 32) with 0; zcases).
  rewrite E0 in E'. eapply find_words_hint; [exact E' | lia | lia | | done].
  unfold bitmap_size. rewrite u32_small by lia. apply Z.div_le_mono; lia.
Qed.

(** What marking [sz] bits from [n] on makes of a bitmap. *)
Definition marks (b b' : bitmap) (n sz : Z) : Prop :=
  bitmap_wf b' /\ size b' = size b /\ length (data b') = length (data b) /\
  forall k, 0 <= k -> bitmap_bit (data b') k =
    if (n <=? k) && (k <? n + sz) then true else bitmap_bit (data b) k.

(** There is room for [m] bits from [q] on, and a search from the beginning
    sees it. *)
Record room (b : bitmap) (m q : Z) : Prop := {
  rm_pos : 0 < q;
  rm_fits : q + m <= size b;
  rm_free : free_run (data b) q m;
  rm_hint : 32 * first_free b <= q;
}.

(** A search does not go past the room; what is behind it stays free. *)
Lemma room_take b b' b2 m q n sz :
  bitmap_wf b -> room b m q -> 0 < sz <= m -> n <= q -> bitmap_find b 0 sz = Ret (n, b') -> first_free b2 = first_free b' ->
  marks b b2 n sz -> room b2 (m - sz) (q + sz).
Proof.
  intros Hwf [Hp Hf Hfr Hh] Hs Hn E Eh (_ & Hsz & _ & Hb). split; try lia.
  - intros k Hk. rewrite Hb, Hfr by lia. zcases.
  - rewrite Eh. assert (32 * first_free b' <= q); [| lia].
    eapply (bitmap_find_hint b sz n b' q); [done | done | lia | apply Hfr; lia].
Qed.

Lemma find_start_ge bm start : 0 <= start -> start <= 32 * find_start bm start + start mod 32.
Proof.
  intros H. unfold find_start. pose proof (div32_bounds start). pose proof (Z.mod_pos_bound start 32).
  pose proof (Z.div_mod start 32). zcases.
Qed.

(** * bitmap_get_range *)

Lemma ctz_pos_low p j : 0 <= j < ctz_pos p -> Z.testbit (Zpos p) j = false.
Proof.
  revert j. induction p as [p IH | p IH |]; intros j Hj; simpl ctz_pos in Hj; try lia.
  change (Zpos p~0) with (2 * Zpos p). destruct (Z.eq_dec j 0) as [-> | Hnz].
  - by rewrite Z.testbit_even_0.
  - replace j with (Z.succ (j - 1)) by lia. rewrite Z.testbit_even_succ by lia. apply IH. lia.
Qed.

Lemma ctz32_low w j : 0 < w -> 0 <= j < ctz32 w -> Z.testbit w j = false.
Proof. destruct w as [| p | p]; intros Hw Hj; try lia. by apply ctz_pos_low. Qed.

Lemma get_range_loop_spec fuel d limit rem ap :
  words_ok d -> limit < Z.of_nat (length d) -> 0 <= ap -> 0 <= rem ->
  limit - ap < Z.of_nat fuel - 1 -> 0 < Z.of_nat fuel ->
  exists v, get_range_loop fuel d limit rem ap = Ret v /\ (v = 0 \/ v = 1) /\
    (v = 0 -> 32 * ap + rem <= 32 * (limit + 1) -> free_run d (32 * ap) rem).
Proof.
  intros Hd Hlim. revert rem ap. induction fuel as [| fuel IH]; intros rem ap Hap Hrem Hf Hf0; [lia |].
  cbn [get_range_loop].
  destruct (Z.ltb_spec 0 rem); [destruct (Z.leb_spec ap limit) |]; cbn [andb]; last first.
  { exists 0. split; [done |]. split; [by left |]. intros _ _ k Hk. lia. }
  { exists 0. split; [done |]. split; [by left |]. lia. }
  destruct (aload_in d ap) as (bits & Hl & Hlk); [lia |]. rewrite Hl, bind_Ret.
  pose proof (words_ok_lookup _ _ _ Hd Hlk) as Hw.
  assert (forall k, 32 * ap <= k < 32 * ap + 32 -> bitmap_bit d k = Z.testbit bits (k - 32 * ap)) as Hb.
  { intros k Hk. replace k with (32 * ap + (k - 32 * ap)) at 1 by lia.
    apply bitmap_bit_load; done || lia. }
  destruct (Z.eqb_spec bits 0) as [-> | Hbz].
  - destruct (Z.leb_spec rem 32).
    + exists 0. split; [done |]. split; [by left |]. intros _ _ k Hk.
      rewrite Hb by lia. apply Z.bits_0.
    + destruct (IH (rem - 32) (ap + 1)) as (v & He & Hv & Hfree); try lia.
      exists v. split; [done |]. split; [done |]. intros Hv0 Hle k Hk.
      destruct (Z.lt_ge_cases k (32 * ap + 32)).
      * rewrite Hb by lia. apply Z.bits_0.
      * apply (Hfree Hv0); lia.
  - destruct (Z.leb_spec 32 rem); [exists 1; naive_solver lia |].
    destruct (Z.ltb_spec (ctz32 bits) rem); [exists 1; naive_solver lia |].
    destruct (IH rem (ap + 1)) as (v & He & Hv & _); try lia.
    exists v. split; [done |]. split; [done |]. intros _ _ k Hk.
    rewrite Hb by lia. apply ctz32_low; lia.
Qed.

Lemma bitmap_get_range_spec bm start num :
  bitmap_wf bm -> 0 <= start < nbits (data bm) -> 0 <= num ->
  start + num <= 32 * (bitmap_size (size bm) + 1) ->
  exists v, bitmap_get_range bm start num = Ret v /\ (v = 0 \/ v = 1) /\
    (v = 0 -> free_run (data bm) start num).
Proof.
  intros [Hw Hs Hl Hf] Hst Hn Hle. unfold bitmap_get_range, nbits in *.
  pose proof (div32_bounds start) as Hdiv. pose proof (Z.mod_pos_bound start 32) as Hmod.
  pose proof (Z.div_mod start 32) as Hdm.
  set (limit := bitmap_size (size bm)) in *. set (fuel := S (S (Z.to_nat limit))).
  destruct (nz (start mod 32)) eqn:Ho; last first.
  { apply nz_false in Ho.
    destruct (get_range_loop_spec fuel (data bm) limit num (start / 32)) as (v & He & Hv & Hfr);
      try done; try lia.
    exists v. split; [done |]. split; [done |]. intros Hv0.
    replace start with (32 * (start / 32)) by lia. apply Hfr; [done | lia]. }
  apply nz_true in Ho.
  destruct (aload_in (data bm) (start / 32)) as (bits & Hld & Hlk); [lia |].
  rewrite Hld, bind_Ret. pose proof (words_ok_lookup _ _ _ Hw Hlk) as Hwb.
  destruct (nz bits && (clz32 bits <? 32 - start mod 32)) eqn:Hc; [exists 1; naive_solver lia |].
  destruct (get_range_loop_spec fuel (data bm) limit (u32 (num - (32 - start mod 32)))
    (start / 32 + 1)) as (v & He & Hv & Hfr); try done; try lia; [apply u32_range |].
  exists v. split; [done |]. split; [done |]. intros Hv0 k Hk.
  destruct (Z.lt_ge_cases k (32 * (start / 32) + 32)).
  - replace k with (32 * (start / 32) + (k - 32 * (start / 32))) by lia.
    rewrite (bitmap_bit_load _ _ bits) by (done || lia).
    destruct (Z.eq_dec bits 0) as [-> | Hbz]; [apply Z.bits_0 |].
    apply andb_false_iff in Hc as [Hc | Hc]; [by apply nz_false in Hc |].
    apply Z.ltb_ge in Hc. unfold clz32 in Hc. apply Z.bits_above_log2; lia.
  - rewrite u32_small in Hfr by lia. apply Hfr; lia.
Qed.

(** * bitmap_count *)

(** The number of set bits among the [n] bits from [a]. *)
Definition count_set (d : list Z) (a n : Z) : Z :=
  foldr (fun k acc => (if bitmap_bit d k then 1 else 0) + acc) 0 (seqZ a n).

Lemma count_set_range d a n : 0 <= n -> 0 <= count_set d a n <= n.
Proof.
  intros Hn. rewrite <- (Z2Nat.id n) by done. unfold count_set. revert a.
  induction (Z.to_nat n) as [| m IH]; intros a; [done |].
  rewrite seqZ_cons by lia. simpl foldr.
  replace (Z.pred (Z.of_nat (S m))) with (Z.of_nat m) by lia.
  specialize (IH (Z.succ a)). destruct (bitmap_bit d a); lia.
Qed.

Lemma count_set_app d a n m :
  0 <= n -> 0 <= m -> count_set d a (n + m) = count_set d a n + count_set d (a + n) m.
Proof.
  intros Hn Hm. unfold count_set. rewrite seqZ_app by done. rewrite foldr_app.
  generalize (foldr (fun k acc => (if bitmap_bit d k then 1 else 0) + acc) 0 (seqZ (a + n) m)).
  intros z. induction (seqZ a n) as [| x l IH]; simpl; lia.
Qed.

Lemma popcount32_word d i w :
  0 <= i -> aload d i = Ret w -> count_set d (32 * i) 32 = popcount32 w.
Proof.
  intros Hi Hl. unfold count_set, popcount32.
  change (seqZ 0 32) with (seqZ (0 : Z) 32). rewrite <- (Z.add_0_r (32 * i)), <- fmap_add_seqZ.
  assert (forall j, j ∈ seqZ 0 32 -> bitmap_bit d (32 * i + j) = Z.testbit w j) as Hj.
  { intros j Hj%elem_of_seqZ. apply bitmap_bit_load; done || lia. }
  revert Hj. generalize (seqZ 0 32). intros l. induction l as [| j l IH]; intros Hj; [done |].
  rewrite fmap_cons. cbn [foldr]. rewrite IH by (intros j' Hj'; apply Hj; by right).
  by rewrite Hj by left.
Qed.

Lemma count_loop_spec fuel d limit i count :
  limit < Z.of_nat (length d) -> 0 <= i <= limit + 1 ->
  limit - i < Z.of_nat fuel - 1 -> 0 < Z.of_nat fuel -> 0 <= count ->
  count + 32 * (limit + 1 - i) < 2 ^ 32 ->
  count_loop fuel d limit i count = Ret (count + count_set d (32 * i) (32 * (limit + 1 - i))).
Proof.
  intros Hlim. revert i count. induction fuel as [| fuel IH]; intros i count Hi Hf Hf0 Hc Hmax; [lia |].
  cbn [count_loop]. destruct (Z.leb_spec i limit); last first.
  { replace (limit + 1 - i) with 0 by lia. rewrite Z.mul_0_r. simpl. by rewrite Z.add_0_r. }
  destruct (aload_in d i) as (w & Hl & _); [lia |]. rewrite Hl, bind_Ret.
  rewrite <- (popcount32_word d i w) by (done || lia).
  pose proof (count_set_range d (32 * i) 32).
  rewrite u32_small by lia. rewrite IH by lia.
  replace (32 * (limit + 1 - i)) with (32 + 32 * (limit + 1 - (i + 1))) by lia.
  rewrite count_set_app by lia. f_equal. replace (32 * (i + 1)) with (32 * i + 32) by lia. lia.
Qed.

Lemma count_set_full d a n :
  0 <= n -> (forall k, a <= k < a + n -> bitmap_bit d k = true) -> count_set d a n = n.
Proof.
  intros Hn. rewrite <- (Z2Nat.id n) by done. unfold count_set. revert a.
  induction (Z.to_nat n) as [| m IH]; intros a Hf; [done |].
  rewrite seqZ_cons by lia. cbn [foldr].
  replace (Z.pred (Z.of_nat (S m))) with (Z.of_nat m) by lia.
  rewrite Hf, IH by lia || (intros; apply Hf; lia). lia.
Qed.

(** * The properties of the bitmap *)

(** [bitmap_find] returns without touching memory outside the array, keeps
    the bits, and answers with the first run of [num] clear bits from where it
    starts to look; it answers [-1] only when the words it looks at hold no
    such run. *)
Theorem bitmap_find_first_fit bm start num :
  bitmap_wf bm -> 0 <= start -> 0 < num ->
  exists r ff, bitmap_find bm start num = Ret (r, Bitmap (data bm) (size bm) ff) /\
    start <= 32 * find_start bm start + start mod 32 /\
    find_answer (data bm) (32 * find_start bm start + start mod 32) num
      (bitmap_size (size bm)) r.
Proof.
  intros Hwf Hs Hn. destruct (bitmap_find_spec bm start num) as (r & ff & He & _ & Ha); try done.
  exists r, ff. auto using find_start_ge.
Qed.

Definition bitmap_ex : bitmap := Bitmap [0xffffffff; 0xfffffff0; 0; 0] 64 0.

Lemma bitmap_ex_wf : bitmap_wf bitmap_ex.
Proof.
  split; simpl; try lia.
  - repeat constructor; lia.
  - vm_compute. split; [done | discriminate].
Qed.

Lemma bitmap_find_first_fit_witness :
  bitmap_find bitmap_ex 0 4 = Ret (32, Bitmap (data bitmap_ex) 64 1) /\
  exists r ff, bitmap_find bitmap_ex 0 4 = Ret (r, Bitmap (data bitmap_ex) 64 ff) /\
    0 <= 32 * find_start bitmap_ex 0 + 0 mod 32 /\
    find_answer (data bitmap_ex) (32 * find_start bitmap_ex 0 + 0 mod 32) 4
      (bitmap_size 64) r.
Proof.
  split; [reflexivity |].
  apply (bitmap_find_first_fit bitmap_ex 0 4); [apply bitmap_ex_wf | lia | lia].
Defined.

(** setting a range and clearing it again with [bitmap_clear] gives back
    every bit, when the range was clear; in between exactly the bits of the
    range are set.  The word-at-a-time fast path is thus equivalent to
    changing the bits one by one. *)
Theorem bitmap_set_clear bm pos num :
  bitmap_wf bm -> 0 <= pos -> 0 <= num -> pos + num <= size bm ->
  free_run (data bm) pos num ->
  exists bm1 bm2, bitmap_set bm pos num = Ret bm1 /\ bitmap_clear bm1 pos num = Ret bm2 /\
    (forall k, 0 <= k -> bitmap_bit (data bm1) k =
       if (pos <=? k) && (k <? pos + num) then true else bitmap_bit (data bm) k) /\
    (forall k, 0 <= k -> bitmap_bit (data bm2) k = bitmap_bit (data bm) k).
Proof.
  intros Hwf Hp Hn Hle Hfree. pose proof (bitmap_wf_nbits _ Hwf).
  destruct (bitmap_set_spec bm pos num) as (bm1 & H1 & Hwf1 & Hs1 & _ & _ & Hb1); try done; try lia.
  destruct (bitmap_clear_spec bm1 pos num) as (bm2 & H2 & _ & _ & _ & _ & Hb2);
    rewrite ?Hs1; try done; try lia.
  exists bm1, bm2. repeat split; try done. intros k Hk. rewrite Hb2, Hb1 by done.
  destruct (Z.leb_spec pos k), (Z.ltb_spec k (pos + num)); simpl; try done.
  symmetry. apply Hfree. lia.
Qed.

Lemma bitmap_set_clear_witness :
  exists bm1 bm2, bitmap_set bitmap_ex 33 2 = Ret bm1 /\ bitmap_clear bm1 33 2 = Ret bm2 /\
    (forall k, 0 <= k -> bitmap_bit (data bm1) k =
       if (33 <=? k) && (k <? 33 + 2) then true else bitmap_bit (data bitmap_ex) k) /\
    (forall k, 0 <= k -> bitmap_bit (data bm2) k = bitmap_bit (data bitmap_ex) k).
Proof.
  apply (bitmap_set_clear bitmap_ex 33 2); try (simpl; lia); [apply bitmap_ex_wf |].
  intros k Hk. assert (k = 33 \/ k = 34) as [-> | ->] by lia; reflexivity.
Defined.

(** When [bitmap_get_range] reports a range as free, every bit of it is
    clear (the report is 0 or 1 and no memory outside the array is read). *)
Theorem bitmap_get_range_sound bm start num :
  bitmap_wf bm -> 0 <= start < nbits (data bm) -> 0 <= num ->
  start + num <= 32 * (bitmap_size (size bm) + 1) ->
  exists v, bitmap_get_range bm start num = Ret v /\ (v = 0 \/ v = 1) /\
    (v = 0 -> free_run (data bm) start num).
Proof. apply bitmap_get_range_spec. Qed.

Lemma bitmap_get_range_sound_witness :
  exists v, bitmap_get_range bitmap_ex 64 16 = Ret v /\ (v = 0 \/ v = 1) /\
    (v = 0 -> free_run (data bitmap_ex) 64 16).
Proof.
  apply (bitmap_get_range_sound bitmap_ex 64 16); try (vm_compute; split; done || discriminate).
  - apply bitmap_ex_wf.
  - lia.
  - vm_compute. discriminate.
Defined.

(** When the words below [first_free] are full, [bitmap_count] is the
    number of set bits of all the words it looks at. *)
Theorem bitmap_count_exact bm :
  bitmap_wf bm -> first_free bm <= bitmap_size (size bm) ->
  (forall k, 0 <= k < 32 * first_free bm -> bitmap_bit (data bm) k = true) ->
  bitmap_count bm = Ret (count_set (data bm) 0 (32 * (bitmap_size (size bm) + 1))).
Proof.
  intros [Hw Hs Hl Hf] Hff Hfull. unfold bitmap_count.
  assert (0 <= bitmap_size (size bm)).
  { unfold bitmap_size. apply Z.div_pos; [apply u32_range | lia]. }
  rewrite u32_small, count_loop_spec by lia. f_equal.
  replace (32 * (bitmap_size (size bm) + 1)) with
    (32 * first_free bm + 32 * (bitmap_size (size bm) + 1 - first_free bm)) by lia.
  rewrite count_set_app, (count_set_full _ 0) by lia || (intros; apply Hfull; lia).
  rewrite Z.add_0_l. lia.
Qed.

Lemma bitmap_count_exact_witness :
  bitmap_count bitmap_ex = Ret 60 /\
  bitmap_count bitmap_ex = Ret (count_set (data bitmap_ex) 0 (32 * (bitmap_size 64 + 1))).
Proof.
  split; [reflexivity |]. apply (bitmap_count_exact bitmap_ex).
  - apply bitmap_ex_wf.
  - vm_compute. discriminate.
  - simpl. lia.
Defined.

(** [bitmap_clear] mixes up bit and word numbers in [first_free]: a bit
    that is cleared in a word below the hint is not found again. *)
Lemma bitmap_clear_hides_bit bm pos num :
  bitmap_wf bm -> 0 < pos -> pos < size bm -> pos / 32 < first_free bm -> 0 < num ->
  exists bm1 r bm2, bitmap_clear bm pos 1 = Ret bm1 /\ bitmap_bit (data bm1) pos = false /\
    bitmap_find bm1 0 num = Ret (r, bm2) /\ pos < r.
Proof.
  intros Hwf Hp Hs Hff Hn. pose proof (bitmap_wf_nbits _ Hwf) as Hnb.
  destruct (bitmap_clear_spec bm pos 1) as (bm1 & He & Hwf1 & Hs1 & Hff1 & _ & Hb); try done; try lia.
  destruct (bitmap_find_spec bm1 0 num) as (r & ff & Hf & _ & Ha); try done; try lia.
  exists bm1, r. eexists. split; [done |]. split.
  { rewrite Hb by lia. zcases. }
  split; [exact Hf |]. pose proof (div32_bounds pos) as Hd.
  destruct Ha as [[[Hge _] _] | [-> _]].
  - unfold find_start in Hge. rewrite Hff1, Z.mod_0_l, Z.div_0_l in Hge by lia.
    assert (pos / 32 < Z.min (first_free bm) pos) by lia.
    destruct (Z.ltb_spec 0 (Z.min (first_free bm) pos)); lia.
  - destruct Hwf. change (u32 (-1)) with (2 ^ 32 - 1). lia.
Qed.

Lemma bitmap_clear_hides_bit_witness :
  exists bm1 r bm2, bitmap_clear (Bitmap [0xffffffff; 0; 0] 64 1) 5 1 = Ret bm1 /\
    bitmap_bit (data bm1) 5 = false /\ bitmap_find bm1 0 1 = Ret (r, bm2) /\ 5 < r.
Proof.
  apply (bitmap_clear_hides_bit (Bitmap [0xffffffff; 0; 0] 64 1) 5 1); simpl; try lia.
  - split; simpl; try lia; [repeat constructor; lia | vm_compute; split; [done | discriminate]].
  - vm_compute. done.
Defined.

Lemma bzero_words_keeps d n i : 0 <= i -> n <= 4 * i -> bzero_words d n !! Z.to_nat i = d !! Z.to_nat i.
Proof.
  revert n i. induction d as [| w d IH]; intros n i Hi Hn; [done |].
  cbn [bzero_words]. destruct (Z.eq_dec i 0) as [-> | Hnz].
  - simpl. zcases.
  - replace (Z.to_nat i) with (S (Z.to_nat (i - 1))) by lia. simpl. apply IH; lia.
Qed.

(** [bitmap_clear_all] passes a number of words to [bzero], which counts
    bytes: every bit from a quarter of the bitmap on keeps its value. *)
Lemma bitmap_clear_all_partial bm k :
  0 <= k -> bitmap_size (size bm) + 3 <= k / 8 ->
  bitmap_bit (data (bitmap_clear_all bm)) k = bitmap_bit (data bm) k.
Proof.
  intros Hk Hq. unfold bitmap_bit. simpl. pose proof (div32_bounds k).
  assert (8 * (k / 8) <= k < 8 * (k / 8) + 8).
  { pose proof (Z.div_mod k 8). pose proof (Z.mod_pos_bound k 8). lia. }
  rewrite bzero_words_keeps by lia. done.
Qed.

Lemma bitmap_clear_all_partial_witness :
  bitmap_bit (data (bitmap_clear_all (Bitmap [1; 1; 1; 1; 1] 128 0))) 64 = true.
Proof.
  rewrite (bitmap_clear_all_partial (Bitmap [1; 1; 1; 1; 1] 128 0) 64); [reflexivity | lia |].
  vm_compute. discriminate.
Defined.

(** [bitmap_find] looks one word past the size: on a full bitmap it can
    answer with a bit the bitmap is not responsible for. *)
Lemma bitmap_find_past_size :
  exists bm r bm', bitmap_wf bm /\ bitmap_find bm 0 1 = Ret (r, bm') /\ r >= size bm.
Proof.
  exists (Bitmap [0xffffffff; 0xffffffff; 0] 64 0), 64. eexists. split.
  - split; simpl; try lia; [repeat constructor; lia | vm_compute; split; [done | discriminate]].
  - split; [reflexivity | simpl; lia].
Qed.

(** A search that starts further on moves the hint there, even when there are
    free bits before: the next search from the beginning does not see them, and
    they count as used. *)
Lemma bitmap_find_hides_start :
  exists bm, bitmap_find (Bitmap [1; 0; 0; 0] 96 0) 64 1 = Ret (64, bm) /\
    bitmap_find bm 0 1 = Ret (64, bm) /\ bitmap_bit (data bm) 1 = false /\ bitmap_count bm = Ret 64.
Proof. eexists. split; [vm_compute; reflexivity |]. split; [| split]; vm_compute; reflexivity. Qed.
