(* ===== verification/PageAlloc.v ===== *)
(** The physical page allocator of src/src/mem/page_alloc.c, on top of
    [Bitmap] and [Spinlock].

    A context is a lock with a bitmap, one bit for a page.  The word array of
    the bitmap stands for the memory from [bitmap_data] on, that is, the array
    with the word behind it, which the loops of bitmap.c also read. *)
From stdpp Require Import base numbers list.
From Stdlib Require Import ZArith Lia Bool.
From S2P Require Import Prelude.
From S2P Require Import Spinlock.
From S2P Require Import Bitmap.

Open Scope Z_scope.

Definition PAGE_ALLOC_BITMAP_SIZE : Z := 0xfffff000 / PAGE_SIZE.

Record mem_page_alloc_ctx : Type := PageCtx {
  pa_lock : Z;
  pa_bitmap : bitmap
}.

(** Returns an address, 0 for [NULL]. *)
Definition mem_page_alloc (ctx : mem_page_alloc_ctx) (sz : Z)
    : outcome (Z * mem_page_alloc_ctx) :=
  lock ← lock_acquire (pa_lock ctx);
  '(num, bm) ← bitmap_find (pa_bitmap ctx) 0 sz;
  if num =? u32 (-1) then Ret (0, PageCtx lock bm) else
  bm ← bitmap_set bm num sz;
  Ret (u32 (num * PAGE_SIZE), PageCtx (spinlock_release lock) bm).

Definition mem_page_alloc_at (ctx : mem_page_alloc_ctx) (addr sz : Z)
    : outcome (Z * mem_page_alloc_ctx) :=
  lock ← lock_acquire (pa_lock ctx);
  bm ← bitmap_set (pa_bitmap ctx) (addr / PAGE_SIZE) sz;
  Ret (0, PageCtx (spinlock_release lock) bm).

Definition mem_page_free (ctx : mem_page_alloc_ctx) (num sz : Z)
    : outcome (Z * mem_page_alloc_ctx) :=
  bm ← bitmap_clear (pa_bitmap ctx) num sz;
  Ret (0, PageCtx (pa_lock ctx) bm).

(** The total and the used number of bytes. *)
Definition mem_page_alloc_stats (ctx : mem_page_alloc_ctx) : outcome (Z * Z) :=
  used ← bitmap_count (pa_bitmap ctx);
  Ret (u32 (size (pa_bitmap ctx) * PAGE_SIZE), u32 (used * PAGE_SIZE)).

Definition mem_page_alloc_new (ctx : mem_page_alloc_ctx) : outcome (Z * mem_page_alloc_ctx) :=
  let bm := Bitmap (data (pa_bitmap ctx)) PAGE_ALLOC_BITMAP_SIZE (first_free (pa_bitmap ctx)) in
  let bm := bitmap_clear_all bm in
  bm ← bitmap_set bm 0 1;
  Ret (0, PageCtx 0 bm).

(** * Runs of the allocator

    A state is the context with the allocations handed out and not yet given
    back, as page number and number of pages. *)
Definition pa_state : Type := mem_page_alloc_ctx * list (Z * Z).

Inductive pa_step : pa_state -> pa_state -> Prop :=
  | pa_step_alloc ctx ctx' live sz addr :
      0 < sz -> mem_page_alloc ctx sz = Ret (addr, ctx') -> addr <> 0 ->
      pa_step (ctx, live) (ctx', (addr / PAGE_SIZE, sz) :: live)
  | pa_step_fail ctx ctx' live sz :
      0 < sz -> mem_page_alloc ctx sz = Ret (0, ctx') ->
      pa_step (ctx, live) (ctx', live)
  | pa_step_free ctx ctx' live1 live2 num sz r :
      mem_page_free ctx num sz = Ret (r, ctx') ->
      pa_step (ctx, live1 ++ (num, sz) :: live2) (ctx', live1 ++ live2).

Inductive pa_reach (s0 : pa_state) : pa_state -> Prop :=
  | pa_reach_refl : pa_reach s0 s0
  | pa_reach_step s s' : pa_reach s0 s -> pa_step s s' -> pa_reach s0 s'.

(** Two allocations share no page. *)
Definition disjoint_alloc (a b : Z * Z) : Prop :=
  a.1 + a.2 <= b.1 \/ b.1 + b.2 <= a.1.

Fixpoint pairwise_disjoint (l : list (Z * Z)) : Prop :=
  match l with
  | [] => True
  | a :: l' => Forall (disjoint_alloc a) l' /\ pairwise_disjoint l'
  end.

(** Every page of the allocation is marked as used. *)
Definition marked (d : list Z) (a : Z * Z) : Prop :=
  0 < a.1 /\ 0 < a.2 /\ a.1 + a.2 <= nbits d /\
  forall k, a.1 <= k < a.1 + a.2 -> bitmap_bit d k = true.

(** The invariant: the bitmap is well formed and small enough for 32-bit
    addresses, page 0 is taken, and the live allocations are marked and
    disjoint. *)
Record pa_inv (s : pa_state) : Prop := {
  inv_wf : bitmap_wf (pa_bitmap s.1);
  inv_size : size (pa_bitmap s.1) <= 2 ^ 20 - 32;
  inv_zero : bitmap_bit (data (pa_bitmap s.1)) 0 = true;
  inv_marked : Forall (marked (data (pa_bitmap s.1))) s.2;
  inv_disjoint : pairwise_disjoint s.2
}.

(** * Lemmas *)

Lemma PAGE_SIZE_eq : PAGE_SIZE = 4096.
Proof. reflexivity. Qed.

Lemma page_roundtrip n : 0 <= n < 2 ^ 20 -> u32 (n * PAGE_SIZE) / PAGE_SIZE = n.
Proof.
  intros H. rewrite PAGE_SIZE_eq, u32_small by lia. apply Z.div_mul. lia.
Qed.

Lemma bitmap_wf_first bm ff :
  bitmap_wf bm -> 0 <= ff -> bitmap_wf (Bitmap (data bm) (size bm) ff).
Proof. intros [] Hf. by split. Qed.

Lemma pairwise_disjoint_app l1 a l2 :
  pairwise_disjoint (l1 ++ a :: l2) ->
  pairwise_disjoint (l1 ++ l2) /\ Forall (disjoint_alloc a) (l1 ++ l2).
Proof.
  induction l1 as [| b l1 IH]; simpl; [tauto |]. intros [Hb Hrest].
  destruct (IH Hrest) as [H1 H2]. rewrite Forall_app, Forall_cons in Hb.
  destruct Hb as (Hb1 & Hba & Hb2). split; [split; [by rewrite Forall_app | done] |].
  constructor; [| done]. unfold disjoint_alloc in *. lia.
Qed.

(** The bits of a free run are not among those of a marked allocation. *)
Lemma marked_free_disjoint d a r n :
  marked d a -> 0 < n -> free_run d r n -> disjoint_alloc (r, n) a.
Proof.
  intros (Hp & Hs & Hb & Hm) Hn Hf. unfold disjoint_alloc. simpl.
  destruct (Z.le_gt_cases (r + n) a.1); [by left |].
  destruct (Z.le_gt_cases (a.1 + a.2) r); [by right |].
  set (k := Z.max r a.1). specialize (Hf k ltac:(lia)). rewrite Hm in Hf by lia. done.
Qed.

Lemma marked_bits d d' a :
  length d' = length d ->
  (forall k, a.1 <= k < a.1 + a.2 -> 0 <= k -> bitmap_bit d k = true -> bitmap_bit d' k = true) ->
  marked d a -> marked d' a.
Proof.
  intros Hl Hb (Hp & Hs & Hn & Hm). unfold marked, nbits in *. rewrite Hl.
  repeat split; try done. intros k Hk. apply Hb; try lia. by apply Hm.
Qed.

(** What [mem_page_alloc] does with a free lock. *)
Lemma mem_page_alloc_spec ctx sz :
  pa_lock ctx = 0 -> bitmap_wf (pa_bitmap ctx) -> size (pa_bitmap ctx) <= 2 ^ 20 - 32 -> 0 < sz ->
  (exists ff, 0 <= ff /\ mem_page_alloc ctx sz =
     Ret (0, PageCtx 1 (Bitmap (data (pa_bitmap ctx)) (size (pa_bitmap ctx)) ff))) \/
  (exists num ctx', mem_page_alloc ctx sz = Ret (num * PAGE_SIZE, ctx') /\
     0 <= num /\ num + sz <= 2 ^ 20 /\ num + sz <= nbits (data (pa_bitmap ctx)) /\
     free_run (data (pa_bitmap ctx)) num sz /\
     pa_lock ctx' = 0 /\ bitmap_wf (pa_bitmap ctx') /\
     size (pa_bitmap ctx') = size (pa_bitmap ctx) /\
     length (data (pa_bitmap ctx')) = length (data (pa_bitmap ctx)) /\
     forall k, 0 <= k -> bitmap_bit (data (pa_bitmap ctx')) k =
       if (num <=? k) && (k <? num + sz) then true else bitmap_bit (data (pa_bitmap ctx)) k).
Proof.
  intros Hlock Hwf Hsz Hn. unfold mem_page_alloc, lock_acquire. rewrite Hlock, Z.eqb_refl, bind_Ret.
  destruct (bitmap_find_spec (pa_bitmap ctx) 0 sz) as (r & ff & He & Hff & Ha); try done.
  rewrite He, bind_Ret. destruct Ha as [[[Hge [Hfree _]] Hub] | [-> _]]; last first.
  { left. exists ff. by rewrite Z.eqb_refl. }
  right. pose proof (find_start_ge (pa_bitmap ctx) 0) as Hfs.
  assert (0 <= r /\ r + sz <= 2 ^ 20 /\ r + sz <= nbits (data (pa_bitmap ctx))) as (H1 & H2 & H3).
  { destruct Hwf as [_ Hs Hl _]. unfold nbits. split; [lia |].
    assert (bitmap_size (size (pa_bitmap ctx)) <= 2 ^ 15 - 1); [| lia].
    unfold bitmap_size. rewrite u32_small by lia.
    apply Z.le_trans with ((2 ^ 20 - 1) / 32); [apply Z.div_le_mono; lia | done]. }
  destruct (Z.eqb_spec r (u32 (-1))) as [-> | _]; [rewrite u32_m1 in H2; lia |].
  destruct (bitmap_set_spec (Bitmap (data (pa_bitmap ctx)) (size (pa_bitmap ctx)) ff) r sz)
    as (bm & Hb & Hwf' & Hs' & _ & Hl' & Hbits); simpl; try done; try lia.
  { by apply bitmap_wf_first. }
  rewrite Hb, bind_Ret. rewrite u32_small by (rewrite PAGE_SIZE_eq; lia).
  exists r. eexists. split; [done |]. simpl. auto 10.
Qed.

(** Where there is room, [mem_page_alloc] does not fail. *)
Lemma mem_page_alloc_room ctx m q sz :
  pa_lock ctx = 0 -> bitmap_wf (pa_bitmap ctx) -> size (pa_bitmap ctx) <= 2 ^ 20 - 32 ->
  bitmap_bit (data (pa_bitmap ctx)) 0 = true -> room (pa_bitmap ctx) m q -> 0 < sz <= m ->
  exists num ctx', mem_page_alloc ctx sz = Ret (num * PAGE_SIZE, ctx') /\ 0 < num <= q /\
    free_run (data (pa_bitmap ctx)) num sz /\ pa_lock ctx' = 0 /\
    marks (pa_bitmap ctx) (pa_bitmap ctx') num sz /\ room (pa_bitmap ctx') (m - sz) (q + sz).
Proof.
  intros Hlock Hwf Hsz H0 Hroom Hs. unfold mem_page_alloc, lock_acquire. rewrite Hlock, Z.eqb_refl, bind_Ret.
  destruct (bitmap_find_spec (pa_bitmap ctx) 0 sz) as (r & ff & He & Hff & Ha); [done | lia | lia |].
  rewrite He, bind_Ret. destruct Hroom as [Hq Hfit Hfree Hhint] eqn:Er. pose proof (bitmap_wf_nbits _ Hwf).
  assert (32 * find_start (pa_bitmap ctx) 0 + 0 mod 32 <= q) as Hst.
  { unfold find_start. change (0 / 32) with 0. change (0 mod 32) with 0. zcases. }
  assert (free_run (data (pa_bitmap ctx)) q sz) as Hqs by (intros k Hk; apply Hfree; lia).
  assert (q + sz <= 32 * (bitmap_size (size (pa_bitmap ctx)) + 1)) as Hlim.
  { destruct Hwf as [_ Hs' _ _]. unfold bitmap_size. rewrite u32_small by lia.
    pose proof (div32_bounds (size (pa_bitmap ctx) + 32 - 1)). lia. }
  destruct Ha as [[[Hge [Hfr Hmin]] Hub] | [_ Hno]]; [| by destruct (Hno q Hst Hlim)].
  assert (r <= q) as Hrq by (destruct (Z.le_gt_cases r q); [done |]; by destruct (Hmin q)).
  pose proof (find_start_ge (pa_bitmap ctx) 0 ltac:(done)).
  assert (0 < r) as Hr0.
  { destruct (decide (r = 0)) as [-> |]; [| lia]. rewrite Hfr in H0 by lia. done. }
  destruct (Z.eqb_spec r (u32 (-1))) as [E' | _]; [rewrite u32_m1 in E'; lia |].
  destruct (bitmap_set_spec (Bitmap (data (pa_bitmap ctx)) (size (pa_bitmap ctx)) ff) r sz)
    as (bm & Hb & Hwf' & Hs' & Hff' & Hl' & Hbits); simpl; try lia; [by apply bitmap_wf_first |].
  rewrite Hb, bind_Ret, u32_small by (rewrite PAGE_SIZE_eq; lia).
  exists r. eexists. split; [done |]. do 3 (split; [done |]). cbn [pa_bitmap]. split; [done |].
  eapply (room_take (pa_bitmap ctx) _ bm m q r sz); [exact Hwf | exact Hroom | lia | done | exact He | exact Hff' | done].
Qed.

(** [mem_page_free] gives back the pages, or leaves everything as it is when
    the range reaches past the size of the bitmap. *)
Lemma mem_page_free_spec ctx num sz :
  bitmap_wf (pa_bitmap ctx) -> 0 <= num -> 0 <= sz -> num + sz <= nbits (data (pa_bitmap ctx)) ->
  exists ctx', mem_page_free ctx num sz = Ret (0, ctx') /\
    pa_lock ctx' = pa_lock ctx /\ bitmap_wf (pa_bitmap ctx') /\
    size (pa_bitmap ctx') = size (pa_bitmap ctx) /\
    length (data (pa_bitmap ctx')) = length (data (pa_bitmap ctx)) /\
    forall k, 0 <= k -> bitmap_bit (data (pa_bitmap ctx')) k =
      if (num <=? k) && (k <? num + sz) && (num + sz <=? size (pa_bitmap ctx))
      then false else bitmap_bit (data (pa_bitmap ctx)) k.
Proof.
  intros Hwf Hn Hs Hle. pose proof (bitmap_wf_nbits _ Hwf). unfold mem_page_free.
  destruct (Z.leb_spec (num + sz) (size (pa_bitmap ctx))).
  - destruct (bitmap_clear_spec (pa_bitmap ctx) num sz) as (bm & He & Hwf' & Hs' & _ & Hl & Hb);
      try done.
    rewrite He. eexists. split; [done |]. simpl. repeat split; try done; try apply Hwf'.
    intros k Hk. by rewrite andb_true_r, Hb.
  - exists ctx. unfold bitmap_clear. rewrite u32_small, Z.gtb_ltb by lia.
    destruct (Z.ltb_spec (size (pa_bitmap ctx)) (num + sz)); [| lia].
    rewrite bind_Ret. destruct ctx as [l bm]. repeat split; try done; try apply Hwf.
    intros k Hk. by rewrite andb_false_r.
Qed.

(** * The properties *)

Lemma pa_step_inv s s' : pa_inv s -> pa_step s s' -> pa_inv s'.
Proof.
  intros [Hwf Hsz Hz Hm Hd] Hstep.
  destruct Hstep as [ctx ctx' live sz addr Hsp He Hne | ctx ctx' live sz Hsp He
    | ctx ctx' l1 l2 num sz r He]; simpl in *.
  - assert (pa_lock ctx = 0) as Hlock.
    { unfold mem_page_alloc, lock_acquire in He. by destruct (Z.eqb_spec (pa_lock ctx) 0). }
    destruct (mem_page_alloc_spec ctx sz) as [(ff & _ & He') | (num & ctx2 & He' & Hr)]; try done;
      rewrite He' in He; simplify_eq.
    destruct Hr as (Hn & Hb & Hnb & Hfree & _ & Hwf' & Hs' & Hl' & Hbits).
    assert (num * PAGE_SIZE / PAGE_SIZE = num) as ->.
    { rewrite PAGE_SIZE_eq. apply Z.div_mul. lia. }
    assert (num <> 0) by (intros ->; by rewrite (Hfree 0) in Hz by lia).
    constructor; simpl; rewrite ?Hs'; try done; try lia.
    + rewrite Hbits, Hz by lia. by destruct (_ && _).
    + constructor.
      * unfold marked, nbits in *. rewrite Hl'. simpl. repeat split; try lia.
        intros k Hk. rewrite Hbits by lia. zcases.
      * eapply Forall_impl; [exact Hm |]. intros a. apply marked_bits; [done |].
        intros k _ Hk Hb1. rewrite Hbits, Hb1 by done. by destruct (_ && _).
    + split; [| done]. eapply Forall_impl; [exact Hm |]. intros a Ha.
      by eapply marked_free_disjoint.
  - assert (pa_lock ctx = 0) as Hlock.
    { unfold mem_page_alloc, lock_acquire in He. by destruct (Z.eqb_spec (pa_lock ctx) 0). }
    destruct (mem_page_alloc_spec ctx sz) as [(ff & Hff & He') | (num & ctx2 & He' & Hr)]; try done;
      rewrite He' in He; simplify_eq.
    + constructor; simpl; try done. by apply bitmap_wf_first.
    + destruct Hr as (Hn & Hb & Hnb & Hfree & _).
      assert (num = 0) as -> by (rewrite PAGE_SIZE_eq in *; lia).
      by rewrite (Hfree 0) in Hz by lia.
  - apply Forall_app in Hm as [Hm1 [Ha Hm2]%Forall_cons]. pose proof Ha as (Hp & Hs & Hnb & Hset).
    simpl in *. destruct (mem_page_free_spec ctx num sz) as (ctx2 & He' & _ & Hwf' & Hs' & Hl' & Hbits);
      try done; try lia.
    rewrite He' in He. simplify_eq. apply pairwise_disjoint_app in Hd as [Hd Hda].
    constructor; simpl; rewrite ?Hs'; try done; try lia.
    + rewrite Hbits, Hz by lia. destruct (Z.leb_spec num 0); [lia | done].
    + apply Forall_forall. intros b Hb. rewrite Forall_forall in Hda. specialize (Hda b Hb).
      assert (marked (data (pa_bitmap ctx)) b) as Hmb.
      { apply elem_of_app in Hb as [Hb | Hb]; rewrite Forall_forall in Hm1, Hm2; auto. }
      revert Hmb. apply marked_bits; [done |]. intros k Hk Hk0 Hb1.
      rewrite Hbits, Hb1 by done. unfold disjoint_alloc in Hda. simpl in Hda. zcases.
Qed.

(** C3: however allocations and releases follow each other, no page is ever
    part of two live allocations of the physical page allocator, and page 0 is
    never handed out. *)
Theorem page_alloc_disjoint s0 s :
  pa_inv s0 -> pa_reach s0 s ->
  pairwise_disjoint s.2 /\ Forall (fun a => 0 < a.1) s.2 /\ pa_inv s.
Proof.
  intros H0 Hr. assert (pa_inv s) as Hs.
  { induction Hr as [| s s' Hr IH Hst]; [done |]. by eapply pa_step_inv. }
  split; [apply Hs |]. split; [| done].
  eapply Forall_impl; [apply Hs |]. by intros a [H _].
Qed.

Definition pa_ex : mem_page_alloc_ctx := PageCtx 0 (Bitmap [1; 0; 0] 64 0).

Lemma pa_ex_inv : pa_inv (pa_ex, []).
Proof.
  constructor; simpl; try done; try lia.
  split; simpl; try lia; [repeat constructor; lia | vm_compute; split; [done | discriminate]].
Qed.

Lemma page_alloc_disjoint_witness :
  pairwise_disjoint [(4, 2); (1, 3)] /\ Forall (fun a => 0 < a.1) [(4, 2); (1, 3)] /\
  pa_inv (PageCtx 0 (Bitmap [63; 0; 0] 64 0), [(4, 2); (1, 3)]).
Proof.
  apply (page_alloc_disjoint (pa_ex, [])
    (PageCtx 0 (Bitmap [63; 0; 0] 64 0), [(4, 2); (1, 3)])); [apply pa_ex_inv |].
  eapply pa_reach_step; [eapply pa_reach_step; [apply pa_reach_refl |] |].
  - eapply (pa_step_alloc _ _ _ 3 4096); [lia | reflexivity | lia].
  - eapply (pa_step_alloc _ _ _ 2 16384); [lia | reflexivity | lia].
Defined.

(** an allocation that finds no room leaves the lock taken: every later
    call of the allocator waits for it forever. *)
Lemma page_alloc_lock_leak ctx ctx' sz n addr :
  pa_lock ctx = 0 -> bitmap_wf (pa_bitmap ctx) -> size (pa_bitmap ctx) <= 2 ^ 20 - 32 -> 0 < sz ->
  bitmap_bit (data (pa_bitmap ctx)) 0 = true ->
  mem_page_alloc ctx sz = Ret (0, ctx') ->
  mem_page_alloc ctx' n = Spin /\ mem_page_alloc_at ctx' addr n = Spin.
Proof.
  intros Hl Hwf Hs Hn Hz He.
  destruct (mem_page_alloc_spec ctx sz) as [(ff & _ & He') | (num & ctx2 & He' & H1 & H2 & H3 & Hf & _)];
    try done; rewrite He' in He; simplify_eq.
  - by split.
  - assert (num = 0) as -> by (rewrite PAGE_SIZE_eq in *; lia). by rewrite Hf in Hz by lia.
Qed.

Lemma page_alloc_lock_leak_witness :
  mem_page_alloc (PageCtx 1 (Bitmap [1; 0; 0] 64 0)) 1 = Spin /\
  mem_page_alloc_at (PageCtx 1 (Bitmap [1; 0; 0] 64 0)) 4096 1 = Spin.
Proof.
  apply (page_alloc_lock_leak pa_ex _ 1000); try reflexivity; try (simpl; lia).
  apply (inv_wf _ pa_ex_inv).
Defined.
