(* ===== verification/DList.v ===== *)
(** Intrusive doubly linked lists.

    The mount points (src/src/fs/mount.c), the files of sysfs
    (src/src/fs/sysfs.c) and the ranges of a memory context (src/src/mem/vm.c)
    are kept in lists of the same kind: every object carries [prev] and [next]
    pointers, a new object is put in front and an object is unlinked wherever
    it stands.  The objects live in a heap, a map from addresses to nodes; the
    address 0 is NULL.  [list_rep] says that a head pointer represents a
    sequence, and the operations are proved to push and to remove. *)
From stdpp Require Import base numbers list gmap.
From Stdlib Require Import ZArith Lia Bool.
From S2P Require Import Prelude.

Open Scope Z_scope.

Record node (A : Type) : Type := Node {
  nd_prev : Z;
  nd_next : Z;
  nd_data : A;
}.

Arguments Node {A} nd_prev nd_next nd_data.
Arguments nd_prev {A} n.
Arguments nd_next {A} n.
Arguments nd_data {A} n.

Abbreviation dheap A := (gmap Z (node A)).

Section DList.
Context {A : Type}.
Implicit Types (h : dheap A) (a p q : Z) (d : A) (l : list (Z * A)).

(** [p->...], undefined when [p] points to no object. *)
Definition load_node h p : outcome (node A) :=
  match h !! p with Some n => Ret n | None => Fault end.

(** [p->prev = v] *)
Definition set_prev h p (v : Z) : outcome (dheap A) :=
  n ← load_node h p; Ret (<[p := Node v (nd_next n) (nd_data n)]> h).

(** [p->next = v] *)
Definition set_next h p (v : Z) : outcome (dheap A) :=
  n ← load_node h p; Ret (<[p := Node (nd_prev n) v (nd_data n)]> h).

(** Puts the new object at [a] in front of the list. *)
Definition list_push h (head a : Z) d : outcome (dheap A * Z) :=
  let h := <[a := Node 0 head d]> h in
  h ← (if nz head then set_prev h head a else Ret h);
  Ret (h, a).

(** Takes the object at [a] out of the list and frees it. *)
Definition list_unlink h (head a : Z) : outcome (dheap A * Z) :=
  n ← load_node h a;
  h ← (if nz (nd_prev n) then set_next h (nd_prev n) (nd_next n) else Ret h);
  h ← (if nz (nd_next n) then set_prev h (nd_next n) (nd_prev n) else Ret h);
  let head := if head =? a then nd_next n else head in
  Ret (delete a h, head).

(** * Representation *)

(** [lseg h pr p l pr' q]: from [p], whose predecessor is [pr], the objects of
    [l] follow each other up to [q], whose predecessor is [pr']. *)
Fixpoint lseg h (pr p : Z) l (pr' q : Z) : Prop :=
  match l with
  | [] => p = q /\ pr = pr'
  | (a, d) :: l =>
    p = a /\ a <> 0 /\ exists nx, h !! a = Some (Node pr nx d) /\ lseg h a nx l pr' q
  end.

(** The head pointer represents the sequence [l]. *)
Definition list_rep h (head : Z) l : Prop :=
  NoDup l.*1 /\ exists last, lseg h 0 head l last 0.

Lemma lseg_app h pr p l1 l2 pr' q :
  lseg h pr p (l1 ++ l2) pr' q <->
  exists m n, lseg h pr p l1 m n /\ lseg h m n l2 pr' q.
Proof.
  revert pr p. induction l1 as [| [a d] l1 IH]; intros pr p; simpl.
  - naive_solver.
  - split.
    + intros (-> & Ha & nx & Hnx & Hl). apply IH in Hl as (m & n & ? & ?). eauto 10.
    + intros (m & n & (-> & Ha & nx & Hnx & Hl) & H2).
      repeat split; try done. exists nx. split; [done |]. apply IH. eauto.
Qed.

Lemma lseg_frame h h' pr p l pr' q :
  (forall a, a ∈ l.*1 -> h' !! a = h !! a) -> lseg h pr p l pr' q -> lseg h' pr p l pr' q.
Proof.
  revert pr p. induction l as [| [a d] l IH]; intros pr p Hf; simpl; [done |].
  intros (-> & Ha & nx & Hnx & Hl). repeat split; try done. exists nx.
  rewrite Hf by (simpl; set_solver). split; [done |]. apply IH; [| done].
  intros b Hb. apply Hf. simpl. set_solver.
Qed.

Lemma lseg_insert h pr p l pr' q a n :
  a ∉ l.*1 -> lseg h pr p l pr' q -> lseg (<[a := n]> h) pr p l pr' q.
Proof.
  intros Ha. apply lseg_frame. intros b Hb. apply lookup_insert_ne. set_solver.
Qed.

(** Only the head of a list can be NULL or a pointer that is not in it. *)
Lemma lseg_head h pr p l pr' q : lseg h pr p l pr' q -> l <> [] -> p <> 0 /\ p ∈ l.*1.
Proof. destruct l as [| [a d] l]; [done |]. intros (-> & ? & _) _. simpl. set_solver. Qed.

Lemma lseg_last h pr p l pr' q : lseg h pr p l pr' q -> l <> [] -> pr' <> 0 /\ pr' ∈ l.*1.
Proof.
  revert pr p. induction l as [| [a d] l IH]; intros pr p; [done |].
  intros (-> & Ha & nx & _ & Hl) _. destruct l as [| x l].
  - destruct Hl as [_ <-]. simpl. set_solver.
  - apply IH in Hl as [? ?]; [| done]. simpl in *. set_solver.
Qed.

Lemma lseg_set_prev h pr p l pr' q v :
  NoDup l.*1 -> l <> [] -> lseg h pr p l pr' q ->
  exists n, h !! p = Some n /\ nd_prev n = pr /\
    lseg (<[p := Node v (nd_next n) (nd_data n)]> h) v p l pr' q.
Proof.
  destruct l as [| [a d] l]; [done |]. intros Hnd _ (-> & Ha & nx & Hnx & Hl).
  apply NoDup_cons in Hnd as [Hnin _]. eexists. split; [done |]. split; [done |].
  simpl. repeat split; try done. exists nx. split; [by rewrite lookup_insert_eq |].
  by apply lseg_insert.
Qed.

Lemma lseg_set_next h pr p l pr' q v :
  NoDup l.*1 -> l <> [] -> lseg h pr p l pr' q ->
  exists n, h !! pr' = Some n /\ nd_next n = q /\
    lseg (<[pr' := Node (nd_prev n) v (nd_data n)]> h) pr p l pr' v.
Proof.
  intros Hnd Hne. revert pr p. induction l as [| [a d] l IH]; intros pr p; [done |].
  intros (-> & Ha & nx & Hnx & Hl). apply NoDup_cons in Hnd as [Hnin Hnd].
  destruct l as [| x l].
  - destruct Hl as [-> <-]. eexists. split; [done |]. split; [done |]. simpl.
    rewrite lookup_insert_eq. eauto 10.
  - destruct (lseg_last _ _ _ _ _ _ Hl) as [_ Hin]; [done |].
    destruct (IH Hnd ltac:(done) _ _ Hl) as (n & Hn & Hq & Hl'). exists n.
    split; [done |]. split; [done |]. split; [done |]. split; [done |]. exists nx.
    split; [| done]. rewrite lookup_insert_ne; [done |]. set_solver.
Qed.

Lemma load_node_at h a n : h !! a = Some n -> load_node h a = Ret n.
Proof. intros E. unfold load_node. by rewrite E. Qed.

Lemma list_rep_nil h : list_rep h 0 [].
Proof. split; [constructor | by exists 0]. Qed.

Lemma list_rep_null h l : list_rep h 0 l -> l = [].
Proof. intros [_ [last Hl]]. destruct l as [| [a d] l]; [done |]. by destruct Hl as (<- & ? & _). Qed.

Lemma list_rep_lookup h head l a d :
  list_rep h head l -> (a, d) ∈ l -> a <> 0 /\ exists n, h !! a = Some n /\ nd_data n = d.
Proof.
  intros [_ [last Hl]] [l1 [l2 ->]]%list_elem_of_split.
  apply lseg_app in Hl as (m & n & _ & -> & Ha & nx & Hnx & _). eauto.
Qed.

Lemma list_rep_elem h head l a : list_rep h head l -> a ∈ l.*1 -> is_Some (h !! a).
Proof.
  intros Hr [[a' d'] [-> Hin]]%list_elem_of_fmap.
  destruct (list_rep_lookup _ _ _ _ _ Hr Hin) as (_ & n & Hn & _). by exists n.
Qed.

(** A list is never longer than the heap: the size of the heap is fuel enough
    for a loop that follows [next]. *)
Lemma list_rep_length h head l : list_rep h head l -> (length l <= size h)%nat.
Proof.
  intros Hr. rewrite <- (length_fmap fst l), <- size_dom.
  rewrite <- (size_list_to_set (C := gset Z) l.*1) by apply Hr.
  apply subseteq_size. intros a Ha%elem_of_list_to_set. apply elem_of_dom.
  by eapply list_rep_elem.
Qed.

Lemma list_push_spec h head l a d :
  list_rep h head l -> a <> 0 -> h !! a = None ->
  exists h', list_push h head a d = Ret (h', a) /\ list_rep h' a ((a, d) :: l) /\
    forall b, b <> a -> b ∉ l.*1 -> h' !! b = h !! b.
Proof.
  intros [Hnd [last Hl]] Ha Hfree. unfold list_push.
  assert (a ∉ l.*1) as Hnin.
  { intros [[a' d'] [-> Hin]]%list_elem_of_fmap.
    destruct (list_rep_lookup h head l a' d') as (_ & n & Hn & _);
      [by split; eauto | done | simpl in *; congruence]. }
  assert (NoDup ((a, d) :: l).*1) as Hnd' by (simpl; by constructor).
  destruct l as [| x l].
  - destruct Hl as [-> _]. eexists. split; [done |]. split; [| intros; by rewrite lookup_insert_ne].
    split; [done |]. exists a. simpl. rewrite lookup_insert_eq. eauto 10.
  - destruct (lseg_head _ _ _ _ _ _ Hl) as [Hh Hin]; [done |].
    destruct (lseg_set_prev _ _ _ _ _ _ a Hnd ltac:(done) Hl) as (n & Hn & _ & Hl').
    rewrite (proj2 (nz_true head) Hh). unfold set_prev, load_node.
    assert (head <> a) as Hne by set_solver.
    rewrite lookup_insert_ne, Hn by done. cbn. eexists. split; [done |]. split.
    + split; [done |]. exists last. split; [done |]. split; [done |]. exists head.
      rewrite lookup_insert_ne, lookup_insert_eq by done. split; [done |].
      rewrite insert_insert_ne by done. apply lseg_insert; done.
    + intros b Hb Hb'. rewrite !lookup_insert_ne; [done | done | set_solver].
Qed.

Lemma list_unlink_spec h head l1 a d l2 :
  list_rep h head (l1 ++ (a, d) :: l2) ->
  exists h' head', list_unlink h head a = Ret (h', head') /\
    list_rep h' head' (l1 ++ l2) /\ h' !! a = None /\
    forall b, b ∉ (l1 ++ (a, d) :: l2).*1 -> h' !! b = h !! b.
Proof.
  intros [Hnd [last Hl]]. rewrite fmap_app, fmap_cons in Hnd. cbn [fst] in Hnd.
  apply NoDup_app in Hnd as (Hnd1 & Hdisj & [Hn2 Hnd2]%NoDup_cons).
  apply lseg_app in Hl as (m & n & Hl1 & -> & Ha & nx & Hnx & Hl2).
  assert (a ∉ l1.*1) as Hn1 by (intros Hx; apply (Hdisj a Hx); by left).
  unfold list_unlink, load_node. rewrite Hnx. cbn [outcome_bind mbind nd_prev nd_next].
  (* the predecessor *)
  assert (exists h1, (if nz m then set_next h m nx else Ret h) = Ret h1 /\
    lseg h1 0 (if head =? a then nx else head) l1 m nx /\ lseg h1 a nx l2 last 0 /\
    forall b, b ∉ l1.*1 -> h1 !! b = h !! b) as (h1 & -> & Hl1' & Hl2' & Hf1).
  { destruct (decide (l1 = [])) as [-> | Hne].
    - destruct Hl1 as [-> <-]. rewrite Z.eqb_refl. exists h. simpl. done.
    - destruct (lseg_last _ _ _ _ _ _ Hl1 Hne) as [Hm Hin].
      destruct (lseg_head _ _ _ _ _ _ Hl1 Hne) as [_ Hh].
      destruct (lseg_set_next _ _ _ _ _ _ nx Hnd1 Hne Hl1) as (nm & Hnm & _ & Hl1').
      rewrite (proj2 (nz_true m) Hm). unfold set_next, load_node. rewrite Hnm. cbn.
      eexists. split; [done |]. destruct (Z.eqb_spec head a) as [-> | _]; [done |].
      split; [done |]. split.
      + apply lseg_insert; [| done]. intros Hx. apply (Hdisj m Hin). by right.
      + intros b Hb. rewrite lookup_insert_ne; [done | set_solver]. }
  cbn [outcome_bind mbind].
  (* the successor *)
  assert (exists h2, (if nz nx then set_prev h1 nx m else Ret h1) = Ret h2 /\
    lseg h2 0 (if head =? a then nx else head) l1 m nx /\
    (exists last', lseg h2 m nx l2 last' 0) /\
    forall b, b ∉ l2.*1 -> h2 !! b = h1 !! b) as (h2 & -> & Hl1'' & [last' Hl2''] & Hf2).
  { destruct (decide (l2 = [])) as [-> | Hne].
    - destruct Hl2' as [-> <-]. exists h1. split; [done |]. split; [done |]. split; [by exists m | done].
    - destruct (lseg_head _ _ _ _ _ _ Hl2' Hne) as [Hx Hin].
      destruct (lseg_set_prev _ _ _ _ _ _ m Hnd2 Hne Hl2') as (nm & Hnm & _ & Hl).
      rewrite (proj2 (nz_true nx) Hx). unfold set_prev, load_node. rewrite Hnm. cbn.
      eexists. split; [done |]. split; [| split; [by eauto |]].
      + apply lseg_insert; [| done]. intros Hx'. apply (Hdisj nx Hx'). by right.
      + intros b Hb. rewrite lookup_insert_ne; [done | set_solver]. }
  cbn [outcome_bind mbind]. do 2 eexists. split; [done |].
  split; [| split; [apply lookup_delete_eq |]].
  - split.
    { rewrite fmap_app. apply NoDup_app. repeat split; try done. intros b Hb Hb'.
      apply (Hdisj b Hb). by right. }
    exists last'. apply lseg_app. exists m, nx. split; (eapply lseg_frame; [| done]);
      intros b Hb; apply lookup_delete_ne; set_solver.
  - intros b Hb. rewrite fmap_app, fmap_cons in Hb. cbn [fst] in Hb.
    rewrite lookup_delete_ne by set_solver. rewrite Hf2, Hf1; set_solver.
Qed.

End DList.
