(* ===== verification/Str.v ===== *)
(** The string and memory functions of src/src/lib/string.c.

    A buffer is the list of its bytes; a pointer into it is an index.  Reading
    or writing outside the buffer is [Fault].  The C loops run on fuel that
    the length of the buffer bounds.  The theorems relate them to the strings
    the buffers hold ([cstr]). *)
From stdpp Require Import base numbers list.
From Stdlib Require Import ZArith Lia Bool.
From S2P Require Import Prelude.

Open Scope Z_scope.

(** * The code *)

(** [for (s = str; *s != 0 && *s != -1; ++s);]: a byte 0xff is the char -1. *)
Fixpoint strlen_loop (fuel : nat) (a : list Z) (p i : Z) : outcome Z :=
  match fuel with
  | O => Spin
  | S fuel =>
    c ← aload a (p + i);
    if (c =? 0) || (c =? 255) then Ret i else strlen_loop fuel a p (i + 1)
  end.

Definition strlen (a : list Z) (p : Z) : outcome Z :=
  strlen_loop (S (length a)) a p 0.

Fixpoint strnlen_loop (fuel : nat) (a : list Z) (p maxlen len : Z) : outcome Z :=
  match fuel with
  | O => Spin
  | S fuel =>
    if len <? maxlen then
      c ← aload a (p + len);
      if c =? 0 then Ret len else strnlen_loop fuel a p maxlen (len + 1)
    else Ret len
  end.

Definition strnlen (a : list Z) (p maxlen : Z) : outcome Z :=
  strnlen_loop (S (length a)) a p maxlen 0.

Fixpoint strcpy_loop (fuel : nat) (dest : list Z) (d : Z) (src : list Z) (s : Z)
    : outcome (list Z) :=
  match fuel with
  | O => Spin
  | S fuel =>
    c ← aload src s;
    dest ← astore dest d c;
    if nz c then strcpy_loop fuel dest (d + 1) src (s + 1) else Ret dest
  end.

Definition strcpy (dest : list Z) (d : Z) (src : list Z) (s : Z) : outcome (list Z) :=
  strcpy_loop (S (length src)) dest d src s.

(** The first loop of [strlcpy], [while (--n != 0)], with [n] already
    decremented: the buffer, both pointers and [n] when the loop ends. *)
Fixpoint strlcpy_loop (fuel : nat) (dst : list Z) (d : Z) (src : list Z) (s n : Z)
    : outcome (list Z * Z * Z * Z) :=
  match fuel with
  | O => Spin
  | S fuel =>
    let n := n - 1 in
    if nz n then
      c ← aload src s;
      dst ← astore dst d c;
      if c =? 0 then Ret (dst, d + 1, s + 1, n)
      else strlcpy_loop fuel dst (d + 1) src (s + 1) n
    else Ret (dst, d, s, n)
  end.

(** [while ( *s++ );] *)
Fixpoint skip_loop (fuel : nat) (src : list Z) (s : Z) : outcome Z :=
  match fuel with
  | O => Spin
  | S fuel =>
    c ← aload src s;
    if nz c then skip_loop fuel src (s + 1) else Ret (s + 1)
  end.

Definition strlcpy (dst : list Z) (d0 : Z) (src : list Z) (s0 siz : Z)
    : outcome (Z * list Z) :=
  '(dst, d, s, n) ←
    (if nz siz then strlcpy_loop (S (length src)) dst d0 src s0 siz
     else Ret (dst, d0, s0, siz));
  if n =? 0 then
    dst ← (if nz siz then astore dst d 0 else Ret dst);
    s ← skip_loop (S (length src)) src s;
    Ret (s - s0 - 1, dst)
  else Ret (s - s0 - 1, dst).

Fixpoint strncpy_loop (fuel : nat) (dst : list Z) (d : Z) (src : list Z) (s n : Z)
    : outcome (list Z) :=
  match fuel with
  | O => Spin
  | S fuel =>
    if nz n then
      c ← aload src s;
      dst ← astore dst d c;
      if nz c then strncpy_loop fuel dst (d + 1) src (s + 1) (n - 1) else Ret dst
    else Ret dst
  end.

Definition strncpy (dst : list Z) (d : Z) (src : list Z) (s n : Z) : outcome (list Z) :=
  strncpy_loop (S (length src)) dst d src s n.

Fixpoint strcmp_loop (fuel : nat) (a b : list Z) (p q : Z) : outcome Z :=
  match fuel with
  | O => Spin
  | S fuel =>
    x ← aload a p;
    y ← aload b q;
    if x =? y then if x =? 0 then Ret 0 else strcmp_loop fuel a b (p + 1) (q + 1)
    else Ret (if x <? y then -1 else 1)
  end.

Definition strcmp (a b : list Z) (p q : Z) : outcome Z :=
  strcmp_loop (S (length a)) a b p q.

Fixpoint strncmp_loop (fuel : nat) (a b : list Z) (p q n : Z) : outcome Z :=
  match fuel with
  | O => Spin
  | S fuel =>
    if 0 <? n then
      u1 ← aload a p;
      u2 ← aload b q;
      if negb (u1 =? u2) then Ret (u1 - u2)
      else if u1 =? 0 then Ret 0
      else strncmp_loop fuel a b (p + 1) (q + 1) (n - 1)
    else Ret 0
  end.

Definition strncmp (a b : list Z) (p q n : Z) : outcome Z :=
  strncmp_loop (S (length a)) a b p q n.

Definition strcat (dest : list Z) (d : Z) (src : list Z) (s : Z) : outcome (list Z) :=
  l ← strlen dest d;
  strcpy dest (d + l) src s.

(** [memcpy] between two buffers. *)
Fixpoint memcpy_loop (n : nat) (dst : list Z) (d : Z) (src : list Z) (s : Z)
    : outcome (list Z) :=
  match n with
  | O => Ret dst
  | S n =>
    c ← aload src s;
    dst ← astore dst d c;
    memcpy_loop n dst (d + 1) src (s + 1)
  end.

Definition memcpy (dst : list Z) (d : Z) (src : list Z) (s size : Z) : outcome (list Z) :=
  memcpy_loop (Z.to_nat size) dst d src s.

(** [mem] is the memory [kmalloc] returned. *)
Definition substr (mem : list Z) (src : list Z) (start len : Z) : outcome (list Z) :=
  dest ← memcpy mem 0 src start len;
  astore dest len 0.

Definition strndup (mem : list Z) (old : list Z) (o num : Z) : outcome (list Z) :=
  '(_, new) ← strlcpy mem 0 old o (num + 1);
  Ret new.

(** [strtok_r]: whether [c] is one of the delimiters. *)
Definition is_delim (delim : list Z) (c : Z) : bool := existsb (fun sc => c =? sc) delim.

(** The loop behind the label [cont]: the pointer to the first character that
    is no delimiter, and the character. *)
Fixpoint strtok_skip (fuel : nat) (a : list Z) (delim : list Z) (s : Z) : outcome (Z * Z) :=
  match fuel with
  | O => Spin
  | S fuel =>
    c ← aload a s;
    if is_delim delim c then strtok_skip fuel a delim (s + 1) else Ret (s, c)
  end.

(** Scans to the end of the token; the buffer with the end written, and the
    position to go on from ([None] for [NULL]). *)
Fixpoint strtok_scan (fuel : nat) (a : list Z) (delim : list Z) (s : Z)
    : outcome (list Z * option Z) :=
  match fuel with
  | O => Spin
  | S fuel =>
    c ← aload a s;
    if is_delim delim c || (c =? 0) then
      if c =? 0 then Ret (a, None)
      else a ← astore a s 0; Ret (a, Some (s + 1))
    else strtok_scan fuel a delim (s + 1)
  end.

(** [s] is the argument or what the last call left ([None] for [NULL]); the
    result is the token's position, the buffer and the new [*last]. *)
Definition strtok_r (a : list Z) (delim : list Z) (s : option Z)
    : outcome (option Z * list Z * option Z) :=
  match s with
  | None => Ret (None, a, None)
  | Some s =>
    '(s, c) ← strtok_skip (S (length a)) a delim s;
    if c =? 0 then Ret (None, a, None) else
    '(a, last) ← strtok_scan (S (length a)) a delim (s + 1);
    Ret (Some s, a, last)
  end.

(** The inner loop of [find_substr]: whether [item] is a prefix at [p]. *)
Fixpoint match_loop (fuel : nat) (l item : list Z) (p p2 : Z) : outcome bool :=
  match fuel with
  | O => Spin
  | S fuel =>
    y ← aload item p2;
    if y =? 0 then Ret true else
    x ← aload l p;
    if y =? x then match_loop fuel l item (p + 1) (p2 + 1) else Ret false
  end.

Fixpoint find_substr_loop (fuel : nat) (l item : list Z) (t : Z) : outcome Z :=
  match fuel with
  | O => Spin
  | S fuel =>
    c ← aload l t;
    if c =? 0 then Ret (-1) else
    b ← match_loop (S (length item)) l item t 0;
    if (b : bool) then Ret t else find_substr_loop fuel l item (t + 1)
  end.

Definition find_substr (l item : list Z) : outcome Z :=
  find_substr_loop (S (length l)) l item 0.

Fixpoint memcmp_loop (n : nat) (a b : list Z) (p q : Z) : outcome Z :=
  match n with
  | O => Ret 0
  | S n =>
    x ← aload a p;
    y ← aload b q;
    if negb (x =? y) then Ret (if x <? y then -1 else 1)
    else memcmp_loop n a b (p + 1) (q + 1)
  end.

Definition memcmp (a b : list Z) (p q n : Z) : outcome Z := memcmp_loop (Z.to_nat n) a b p q.

(** [memmove] works on one memory; [dst] and [src] are addresses in it.
    [memcpy] copies forwards. *)
Fixpoint copy_forward (n : nat) (m : list Z) (d s : Z) : outcome (list Z) :=
  match n with
  | O => Ret m
  | S n => c ← aload m s; m ← astore m d c; copy_forward n m (d + 1) (s + 1)
  end.

(** [for (i = len; i > 0; i--) d[i-1] = s[i-1];] *)
Fixpoint copy_backward (i : nat) (m : list Z) (d s : Z) : outcome (list Z) :=
  match i with
  | O => Ret m
  | S i =>
    c ← aload m (s + Z.of_nat i);
    m ← astore m (d + Z.of_nat i) c;
    copy_backward i m d s
  end.

(** The same loop over [long]s: four bytes are read before they are written. *)
Fixpoint copy_backward_long (i : nat) (m : list Z) (d s : Z) : outcome (list Z) :=
  match i with
  | O => Ret m
  | S i =>
    let so := s + 4 * Z.of_nat i in
    let do := d + 4 * Z.of_nat i in
    b0 ← aload m so; b1 ← aload m (so + 1); b2 ← aload m (so + 2); b3 ← aload m (so + 3);
    m ← astore m do b0; m ← astore m (do + 1) b1;
    m ← astore m (do + 2) b2; m ← astore m (do + 3) b3;
    copy_backward_long i m d s
  end.

Definition memmove (m : list Z) (dst src len : Z) : outcome (list Z) :=
  if dst <? src then copy_forward (Z.to_nat len) m dst src
  else if (dst mod 4 =? 0) && (src mod 4 =? 0) && (len mod 4 =? 0)
  then copy_backward_long (Z.to_nat (len / 4)) m dst src
  else copy_backward (Z.to_nat len) m dst src.

(** [snprintf(s, n, "%d", x)] without its limit. *)
Fixpoint digits (fuel : nat) (x : Z) (acc : list Z) : list Z :=
  match fuel with
  | O => acc
  | S fuel => let acc := (48 + x mod 10) :: acc in if x <? 10 then acc else digits fuel (x / 10) acc
  end.
Definition print_d (x : Z) : list Z := let x := s32 x in if x <? 0 then 45 :: digits 10 (- x) [] else digits 10 x [].

Fixpoint strchr_loop (fuel : nat) (a : list Z) (p c : Z) : outcome (option Z) :=
  match fuel with
  | O => Spin
  | S fuel =>
    x ← aload a p;
    if x =? c then Ret (Some p)
    else if x =? 0 then Ret None
    else strchr_loop fuel a (p + 1) c
  end.

Definition strchr (a : list Z) (p ch : Z) : outcome (option Z) :=
  strchr_loop (S (length a)) a p (u8 ch).

(** A byte as a (signed) [char]. *)
Definition schar (x : Z) : Z := if x <? 128 then x else x - 256.

Fixpoint strrchr_loop (fuel : nat) (a : list Z) (p ch : Z) (save : option Z)
    : outcome (option Z) :=
  match fuel with
  | O => Spin
  | S fuel =>
    x ← aload a p;
    let save := if schar x =? ch then Some p else save in
    if x =? 0 then Ret save else strrchr_loop fuel a (p + 1) ch save
  end.

Definition strrchr (a : list Z) (p ch : Z) : outcome (option Z) :=
  strrchr_loop (S (length a)) a p ch None.

(** * Specification *)

(** The buffer [a] holds the string [s], terminated by a NUL, at [p]. *)
Definition cstr (a : list Z) (p : Z) (s : list Z) : Prop :=
  0 <= p /\ Forall (fun c => 0 < c < 256) s /\
  exists rest, drop (Z.to_nat p) a = s ++ 0 :: rest.

(** The bytes of [a] from [p] on, [n] of them. *)
Definition bytes_at (a : list Z) (p n : Z) : list Z := take (Z.to_nat n) (drop (Z.to_nat p) a).

(** The lexicographic order of strings, as the sign [strcmp] returns. *)
Fixpoint cmp_str (s t : list Z) : Z :=
  match s, t with
  | [], [] => 0
  | [], _ :: _ => -1
  | _ :: _, [] => 1
  | x :: s, y :: t => if x =? y then cmp_str s t else if x <? y then -1 else 1
  end.

(** * Lemmas *)

Lemma drop_aload (a : list Z) p x l :
  0 <= p -> drop (Z.to_nat p) a = x :: l -> aload a p = Ret x /\ drop (Z.to_nat (p + 1)) a = l.
Proof.
  intros Hp Hd. assert (a !! Z.to_nat p = Some x) as Hl.
  { rewrite <- (Nat.add_0_r (Z.to_nat p)), <- lookup_drop, Hd. done. }
  split; [by apply aload_Ret |].
  replace (Z.to_nat (p + 1)) with (S (Z.to_nat p)) by lia.
  erewrite drop_S in Hd by exact Hl. by simplify_eq.
Qed.

Lemma cstr_length a p s : cstr a p s -> p + Z.of_nat (length s) < Z.of_nat (length a).
Proof.
  intros (Hp & _ & rest & Hd). apply (f_equal length) in Hd.
  rewrite length_drop, length_app in Hd. simpl in Hd. lia.
Qed.

Lemma cstr_nil a p : cstr a p [] -> aload a p = Ret 0.
Proof. intros (Hp & _ & rest & Hd). by apply (drop_aload a p 0 rest). Qed.

Lemma cstr_cons a p c s :
  cstr a p (c :: s) -> aload a p = Ret c /\ 0 < c < 256 /\ cstr a (p + 1) s.
Proof.
  intros (Hp & [Hc Hs]%Forall_cons & rest & Hd).
  destruct (drop_aload a p c (s ++ 0 :: rest)) as [Hl Hr]; [done | done |].
  repeat split; try done; try lia. by exists rest.
Qed.

Lemma strcmp_spec a b p q s t :
  cstr a p s -> cstr b q t -> strcmp a b p q = Ret (cmp_str s t).
Proof.
  intros Ha Hb. unfold strcmp. assert (Z.of_nat (length s) < Z.of_nat (S (length a))) as Hf.
  { apply cstr_length in Ha as Hl. destruct Ha. lia. }
  revert Hf. generalize (S (length a)) as fuel. intros fuel Hf.
  revert p q t fuel Ha Hb Hf. induction s as [| x s IH]; intros p q t fuel Ha Hb Hf;
    (destruct fuel as [| fuel]; [simpl in Hf; lia |]); cbn [strcmp_loop]; destruct t as [| y t].
  - rewrite (cstr_nil a p Ha), (cstr_nil b q Hb), !bind_Ret. done.
  - apply cstr_cons in Hb as (Hy & Hr & _). rewrite (cstr_nil a p Ha), Hy, !bind_Ret.
    cbn [cmp_str]. zcases.
  - apply cstr_cons in Ha as (Hx & Hr & _). rewrite Hx, (cstr_nil b q Hb), !bind_Ret.
    cbn [cmp_str]. zcases.
  - apply cstr_cons in Ha as (Hx & Hrx & Ha). apply cstr_cons in Hb as (Hy & Hry & Hb).
    rewrite Hx, Hy, !bind_Ret. cbn [cmp_str]. destruct (Z.eqb_spec x y) as [-> | Hne]; [| done].
    destruct (Z.eqb_spec y 0); [lia |]. apply IH; try done. simpl in Hf. lia.
Qed.

Lemma cmp_str_0 s t : cmp_str s t = 0 <-> s = t.
Proof.
  revert t. induction s as [| x s IH]; intros [| y t]; simpl; try (split; done).
  destruct (Z.eqb_spec x y) as [-> | Hne].
  - rewrite IH. naive_solver.
  - destruct (x <? y); naive_solver.
Qed.

(** [strcmp] on two NUL-terminated strings is their lexicographic
    comparison by unsigned bytes; in particular it is 0 exactly for equal
    strings, and it reads nothing behind the terminators. *)
Theorem strcmp_lexicographic a b p q s t :
  cstr a p s -> cstr b q t ->
  strcmp a b p q = Ret (cmp_str s t) /\ (cmp_str s t = 0 <-> s = t).
Proof. intros Ha Hb. split; [by apply strcmp_spec | apply cmp_str_0]. Qed.

Lemma strcmp_lexicographic_witness :
  strcmp [97; 98; 0] [97; 99; 0] 0 0 = Ret (cmp_str [97; 98] [97; 99]) /\
  (cmp_str [97; 98] [97; 99] = 0 <-> [97; 98] = [97; 99]).
Proof.
  apply (strcmp_lexicographic [97; 98; 0] [97; 99; 0] 0 0);
    (split; [lia |]; split; [repeat constructor; lia | by exists []]).
Defined.

(** [strncmp] on strings: the first [n] bytes, terminators included, decide. *)
Lemma strncmp_spec a b p q s t n :
  cstr a p s -> cstr b q t -> 0 <= n ->
  exists r, strncmp a b p q n = Ret r /\
    (r = 0 <-> take (Z.to_nat n) (s ++ [0]) = take (Z.to_nat n) (t ++ [0])).
Proof.
  intros Ha Hb. unfold strncmp. assert (Z.of_nat (length s) < Z.of_nat (S (length a))) as Hf.
  { apply cstr_length in Ha as Hl. destruct Ha. lia. }
  revert Hf. generalize (S (length a)) as fuel. intros fuel Hf.
  revert p q t n fuel Ha Hb Hf.
  induction s as [| x s IH]; intros p q t n fuel Ha Hb Hf Hn;
    (destruct fuel as [| fuel]; [simpl in Hf; lia |]); cbn [strncmp_loop];
    (destruct (Z.ltb_spec 0 n);
      [| exists 0; replace n with 0 by lia; split; [done |]; split; done]);
    (destruct (Z.to_nat n) as [| k] eqn:Hk; [lia |]); destruct t as [| y t]; cbn [take app].
  - rewrite (cstr_nil a p Ha), (cstr_nil b q Hb), !bind_Ret. exists 0. rewrite take_nil. done.
  - apply cstr_cons in Hb as (Hy & Hr & _). rewrite (cstr_nil a p Ha), Hy, !bind_Ret.
    destruct (Z.eqb_spec 0 y); [lia |]. eexists. split; [done |]. split; [lia | intros [= ?]; lia].
  - apply cstr_cons in Ha as (Hx & Hr & _). rewrite Hx, (cstr_nil b q Hb), !bind_Ret.
    destruct (Z.eqb_spec x 0); [lia |]. eexists. split; [done |]. split; [lia | intros [= ?]; lia].
  - apply cstr_cons in Ha as (Hx & Hrx & Ha). apply cstr_cons in Hb as (Hy & Hry & Hb).
    rewrite Hx, Hy, !bind_Ret. destruct (Z.eqb_spec x y) as [-> | Hne]; cbn [negb].
    + destruct (Z.eqb_spec y 0); [lia |].
      destruct (IH (p + 1) (q + 1) t (n - 1) fuel Ha Hb) as (r & Hr & Hiff); [simpl in Hf; lia.. |].
      exists r. split; [done |]. rewrite Hiff. replace (Z.to_nat (n - 1)) with k by lia. split; [by intros -> | by intros [= ->]].
    + eexists. split; [done |]. split; [lia | intros [= ?]; lia].
Qed.

Lemma strlen_spec a p s :
  cstr a p s -> 255 ∉ s -> strlen a p = Ret (Z.of_nat (length s)).
Proof.
  intros Ha Hs. unfold strlen. apply cstr_length in Ha as Hl.
  assert (Z.of_nat (length s) < Z.of_nat (S (length a))) as Hf by (destruct Ha; lia). clear Hl.
  assert (forall fuel i, cstr a (p + i) s -> Z.of_nat (length s) < Z.of_nat fuel ->
    strlen_loop fuel a p i = Ret (i + Z.of_nat (length s))) as Hloop.
  { clear Ha Hf. induction s as [| c s IH]; intros [| fuel] i Ha Hf; [simpl in Hf; lia.. | |
      simpl in Hf; lia |]; cbn [strlen_loop].
    - rewrite (cstr_nil _ _ Ha), bind_Ret. cbn. by rewrite Z.add_0_r.
    - apply cstr_cons in Ha as (Hc & Hr & Ha). apply not_elem_of_cons in Hs as [Hc' Hs].
      rewrite Hc, bind_Ret. destruct (Z.eqb_spec c 0), (Z.eqb_spec c 255); try lia. cbn [orb].
      rewrite IH; [f_equal; simpl; lia | done | by rewrite Z.add_assoc | simpl in Hf; lia]. }
  rewrite Hloop; [done | by rewrite Z.add_0_r | done].
Qed.

(** A string with its terminator, as a buffer. *)
Lemma cstr_of s : Forall (fun c => 0 < c < 256) s -> cstr (s ++ [0]) 0 s.
Proof. intros Hs. split; [lia |]. split; [done |]. by exists []. Qed.

(** * Copying *)

Lemma inserts_comm (A B m : list Z) i j :
  (i + length A <= j)%nat ->
  list_inserts i A (list_inserts j B m) = list_inserts j B (list_inserts i A m).
Proof.
  revert i. induction A as [| a A IH]; intros i H; [done |]. simpl in *.
  rewrite IH by lia. apply list_insert_inserts_lt. lia.
Qed.

Lemma inserts_block (A B m : list Z) i :
  list_inserts i A (list_inserts (i + length A) B m) = list_inserts i (A ++ B) m.
Proof. rewrite list_inserts_app_l, inserts_comm by lia. by rewrite Nat.add_comm. Qed.

Lemma bytes_at_length a p n :
  0 <= p -> 0 <= n -> p + n <= Z.of_nat (length a) -> length (bytes_at a p n) = Z.to_nat n.
Proof. intros Hp Hn Hl. unfold bytes_at. rewrite length_take, length_drop. lia. Qed.

Lemma bytes_at_S a p n c :
  0 <= p -> 0 < n -> aload a p = Ret c -> bytes_at a p n = c :: bytes_at a (p + 1) (n - 1).
Proof.
  intros Hp Hn [_ Hl]%aload_Ret. unfold bytes_at.
  replace (Z.to_nat n) with (S (Z.to_nat (n - 1))) by lia.
  replace (Z.to_nat (p + 1)) with (S (Z.to_nat p)) by lia.
  by rewrite (drop_S _ _ _ Hl).
Qed.

(** A copy from more than there is fails. *)
Lemma memcpy_overreads n dst d src s :
  0 <= s <= Z.of_nat (length src) -> Z.of_nat (length src) < s + Z.of_nat n -> memcpy_loop n dst d src s = Fault.
Proof.
  revert dst d s. induction n as [| n IH]; intros dst d s Hs Hn; [lia |]. cbn [memcpy_loop].
  destruct (decide (s = Z.of_nat (length src))) as [-> |]; [by rewrite aload_out by lia |].
  destruct (aload_in src s) as (c & -> & _); [lia |]. rewrite bind_Ret.
  unfold astore. case_match; [rewrite bind_Ret | done]. apply IH; lia.
Qed.

Lemma bytes_at_app a p n m :
  0 <= p -> 0 <= n -> 0 <= m -> bytes_at a p (n + m) = bytes_at a p n ++ bytes_at a (p + n) m.
Proof.
  intros Hp Hn Hm. unfold bytes_at. rewrite !Z2Nat.inj_add by lia. rewrite <- drop_drop. by rewrite take_take_drop.
Qed.

(** A block that was overwritten outside [p .. p + n) still has its bytes there. *)
Lemma bytes_at_inserts a j B p n :
  0 <= p -> 0 <= n -> (Z.to_nat (p + n) <= j)%nat \/ (j + length B <= Z.to_nat p)%nat ->
  bytes_at (list_inserts j B a) p n = bytes_at a p n.
Proof.
  intros Hp Hn Hd. unfold bytes_at. apply list_eq. intros i.
  destruct (decide (i < Z.to_nat n)%nat) as [Hi | Hi].
  - rewrite !lookup_take_lt, !lookup_drop by done.
    destruct Hd; [apply list_lookup_inserts_lt | apply list_lookup_inserts_ge]; lia.
  - rewrite !lookup_take_ge by lia. done.
Qed.

Lemma copy_forward_spec n m d s :
  0 <= d < s -> s + Z.of_nat n <= Z.of_nat (length m) ->
  copy_forward n m d s = Ret (list_inserts (Z.to_nat d) (bytes_at m s (Z.of_nat n)) m).
Proof.
  revert m d s. induction n as [| n IH]; intros m d s Hd Hl; [done |].
  cbn [copy_forward]. destruct (aload_in m s) as (c & Hc & _); [lia |].
  rewrite Hc, bind_Ret, astore_in, bind_Ret by lia.
  rewrite IH by (rewrite ?length_insert; lia). f_equal.
  rewrite (bytes_at_S m s _ c) by (done || lia). simpl list_inserts.
  replace (Z.of_nat (S n) - 1) with (Z.of_nat n) by lia.
  replace (Z.to_nat (d + 1)) with (S (Z.to_nat d)) by lia.
  rewrite list_insert_inserts_lt by lia. f_equal.
  apply (bytes_at_inserts m (Z.to_nat d) [c]); simpl; lia.
Qed.

Lemma copy_backward_spec n m d s :
  0 <= s <= d -> d + Z.of_nat n <= Z.of_nat (length m) ->
  copy_backward n m d s = Ret (list_inserts (Z.to_nat d) (bytes_at m s (Z.of_nat n)) m).
Proof.
  revert m. induction n as [| n IH]; intros m Hd Hl; [done |].
  cbn [copy_backward]. destruct (aload_in m (s + Z.of_nat n)) as (c & Hc & _); [lia |].
  rewrite Hc, bind_Ret, astore_in, bind_Ret by lia.
  rewrite IH by (rewrite ?length_insert; lia). f_equal.
  change (<[Z.to_nat (d + Z.of_nat n) := c]> m) with
    (list_inserts (Z.to_nat (d + Z.of_nat n)) [c] m).
  rewrite bytes_at_inserts by (simpl; lia).
  replace (Z.of_nat (S n)) with (Z.of_nat n + 1) by lia.
  rewrite bytes_at_app by lia. rewrite (bytes_at_S m (s + Z.of_nat n) 1 c) by (done || lia).
  replace (Z.to_nat (d + Z.of_nat n)) with (Z.to_nat d + length (bytes_at m s (Z.of_nat n)))%nat
    by (rewrite bytes_at_length; lia).
  by rewrite inserts_block.
Qed.

Lemma copy_backward_long_spec n m d s :
  0 <= s <= d -> d + 4 * Z.of_nat n <= Z.of_nat (length m) ->
  copy_backward_long n m d s = Ret (list_inserts (Z.to_nat d) (bytes_at m s (4 * Z.of_nat n)) m).
Proof.
  revert m. induction n as [| n IH]; intros m Hd Hl; [done |].
  cbn [copy_backward_long]. set (so := s + 4 * Z.of_nat n). set (do := d + 4 * Z.of_nat n).
  destruct (aload_in m so) as (b0 & H0 & _); [lia |].
  destruct (aload_in m (so + 1)) as (b1 & H1 & _); [lia |].
  destruct (aload_in m (so + 2)) as (b2 & H2 & _); [lia |].
  destruct (aload_in m (so + 3)) as (b3 & H3 & _); [lia |].
  rewrite H0, H1, H2, H3, !bind_Ret.
  do 4 rewrite astore_in, bind_Ret by (rewrite ?length_insert; lia).
  rewrite IH by (rewrite ?length_insert; lia). f_equal.
  assert (<[Z.to_nat (do + 3) := b3]> (<[Z.to_nat (do + 2) := b2]>
    (<[Z.to_nat (do + 1) := b1]> (<[Z.to_nat do := b0]> m))) =
    list_inserts (Z.to_nat do) [b0; b1; b2; b3] m) as ->.
  { change [b0; b1; b2; b3] with ([b0] ++ [b1] ++ [b2] ++ [b3]).
    rewrite !list_inserts_app_l. simpl. repeat (f_equal; try lia). }
  rewrite bytes_at_inserts by (simpl; lia).
  replace (4 * Z.of_nat (S n)) with (4 * Z.of_nat n + 4) by lia.
  rewrite bytes_at_app by lia. fold so.
  rewrite (bytes_at_S m so 4 b0), (bytes_at_S m (so + 1) _ b1) by (done || lia).
  replace (so + 1 + 1) with (so + 2) by lia. rewrite (bytes_at_S m (so + 2) _ b2) by (done || lia).
  replace (so + 2 + 1) with (so + 3) by lia. rewrite (bytes_at_S m (so + 3) _ b3) by (done || lia).
  replace (Z.to_nat do) with (Z.to_nat d + length (bytes_at m s (4 * Z.of_nat n)))%nat
    by (rewrite bytes_at_length; lia).
  by rewrite inserts_block.
Qed.

Lemma memmove_spec m dst src len :
  0 <= dst -> 0 <= src -> 0 <= len ->
  dst + len <= Z.of_nat (length m) -> src + len <= Z.of_nat (length m) ->
  memmove m dst src len = Ret (list_inserts (Z.to_nat dst) (bytes_at m src len) m).
Proof.
  intros Hd Hs Hn Hdl Hsl. unfold memmove. destruct (Z.ltb_spec dst src).
  - rewrite copy_forward_spec by lia. by rewrite Z2Nat.id.
  - destruct ((dst mod 4 =? 0) && (src mod 4 =? 0) && (len mod 4 =? 0)) eqn:He.
    + apply andb_prop in He as [_ He%Z.eqb_eq]. pose proof (Z.div_mod len 4).
      assert (0 <= len / 4) by (apply Z.div_pos; lia).
      rewrite copy_backward_long_spec by lia. rewrite Z2Nat.id by lia. do 3 f_equal. lia.
    + rewrite copy_backward_spec by lia. by rewrite Z2Nat.id.
Qed.

(** [memmove] stores at [dst] the bytes that were at [src] before the call,
    however the two ranges overlap and whichever of its three loops it takes,
    and changes nothing else. *)
Theorem memmove_copies m dst src len :
  0 <= dst -> 0 <= src -> 0 <= len ->
  dst + len <= Z.of_nat (length m) -> src + len <= Z.of_nat (length m) ->
  exists m', memmove m dst src len = Ret m' /\ length m' = length m /\
    (forall i, 0 <= i < len -> m' !! Z.to_nat (dst + i) = m !! Z.to_nat (src + i)) /\
    (forall j, (j < Z.to_nat dst \/ Z.to_nat (dst + len) <= j)%nat -> m' !! j = m !! j).
Proof.
  intros Hd Hs Hn Hdl Hsl. rewrite memmove_spec by done. eexists. split; [done |].
  rewrite length_inserts. split; [done |]. pose proof (bytes_at_length m src len) as Hl. split.
  - intros i Hi. rewrite list_lookup_inserts by (rewrite ?Hl by lia; lia). unfold bytes_at.
    rewrite lookup_take_lt, lookup_drop by lia. f_equal. lia.
  - intros j [Hj | Hj]; [by apply list_lookup_inserts_lt |].
    apply list_lookup_inserts_ge. rewrite Hl by lia. lia.
Qed.

Lemma memmove_copies_witness :
  exists m', memmove [1; 2; 3; 4; 5; 6; 7; 8] 4 0 4 = Ret m' /\ length m' = 8%nat /\
    (forall i, 0 <= i < 4 -> m' !! Z.to_nat (4 + i) = [1; 2; 3; 4; 5; 6; 7; 8] !! Z.to_nat (0 + i)) /\
    (forall j, (j < Z.to_nat 4 \/ Z.to_nat (4 + 4) <= j)%nat ->
       m' !! j = [1; 2; 3; 4; 5; 6; 7; 8] !! j).
Proof. apply (memmove_copies [1; 2; 3; 4; 5; 6; 7; 8] 4 0 4); simpl; lia. Defined.

Lemma memcpy_loop_spec n dst d src s :
  0 <= d -> 0 <= s -> d + Z.of_nat n <= Z.of_nat (length dst) ->
  s + Z.of_nat n <= Z.of_nat (length src) ->
  memcpy_loop n dst d src s = Ret (list_inserts (Z.to_nat d) (bytes_at src s (Z.of_nat n)) dst).
Proof.
  revert dst d s. induction n as [| n IH]; intros dst d s Hd Hs Hl1 Hl2; [done |].
  cbn [memcpy_loop]. destruct (aload_in src s) as (c & Hc & _); [lia |].
  rewrite Hc, bind_Ret, astore_in, bind_Ret by lia.
  rewrite IH by (rewrite ?length_insert; lia). f_equal.
  rewrite (bytes_at_S src s _ c) by (done || lia). simpl list_inserts.
  replace (Z.of_nat (S n) - 1) with (Z.of_nat n) by lia.
  replace (Z.to_nat (d + 1)) with (S (Z.to_nat d)) by lia.
  by rewrite list_insert_inserts_lt by lia.
Qed.

Lemma memcpy_spec dst d src s size :
  0 <= d -> 0 <= s -> 0 <= size -> d + size <= Z.of_nat (length dst) ->
  s + size <= Z.of_nat (length src) ->
  memcpy dst d src s size = Ret (list_inserts (Z.to_nat d) (bytes_at src s size) dst).
Proof. intros. unfold memcpy. rewrite memcpy_loop_spec by lia. by rewrite Z2Nat.id. Qed.

(** * strlcpy *)

Lemma skip_loop_spec fuel src s str :
  cstr src s str -> Z.of_nat (length str) < Z.of_nat fuel ->
  skip_loop fuel src s = Ret (s + Z.of_nat (length str) + 1).
Proof.
  revert s str. induction fuel as [| fuel IH]; intros s str Hc Hf; [lia |].
  cbn [skip_loop]. destruct str as [| c str].
  - rewrite (cstr_nil _ _ Hc), bind_Ret. simpl. f_equal. lia.
  - apply cstr_cons in Hc as (Hl & Hr & Hc). rewrite Hl, bind_Ret.
    destruct (nz c) eqn:Hz; [| apply nz_false in Hz; lia].
    simpl length in Hf. rewrite (IH _ str) by (done || lia). simpl. f_equal. lia.
Qed.

(** Either the whole string with its NUL was copied, or [n] ran out. *)
Lemma strlcpy_loop_spec fuel dst d src s n str :
  cstr src s str -> 0 < n -> 0 <= d -> Z.of_nat (length str) < Z.of_nat fuel - 1 ->
  d + Z.min (Z.of_nat (length str) + 1) n <= Z.of_nat (length dst) ->
  let len := Z.of_nat (length str) in
  strlcpy_loop fuel dst d src s n =
    if len + 1 <? n
    then Ret (list_inserts (Z.to_nat d) (str ++ [0]) dst, d + len + 1, s + len + 1, n - len - 1)
    else Ret (list_inserts (Z.to_nat d) (take (Z.to_nat (n - 1)) str) dst,
              d + (n - 1), s + (n - 1), 0).
Proof.
  revert dst d s n str. induction fuel as [| fuel IH]; intros dst d s n str Hc Hn Hd Hf Hl; [lia |].
  cbn [strlcpy_loop]. destruct (nz (n - 1)) eqn:Hz.
  - apply nz_true in Hz. destruct str as [| c str].
    + rewrite (cstr_nil _ _ Hc), bind_Ret. simpl in Hl. rewrite astore_in, bind_Ret by lia.
      change (Z.of_nat (length [])) with 0. destruct (Z.ltb_spec (0 + 1) n); [| lia]. simpl.
      repeat (f_equal; try lia).
    + apply cstr_cons in Hc as (Hld & Hr & Hc). rewrite Hld, bind_Ret. simpl length in *.
      rewrite astore_in, bind_Ret by lia. destruct (Z.eqb_spec c 0); [lia |].
      rewrite (IH _ _ _ _ str) by (rewrite ?length_insert; done || lia).
      replace (Z.to_nat (d + 1)) with (S (Z.to_nat d)) by lia.
      destruct (Z.ltb_spec (Z.of_nat (length str) + 1) (n - 1)),
        (Z.ltb_spec (Z.of_nat (S (length str)) + 1) n); try lia.
      * simpl list_inserts. rewrite list_insert_inserts_lt by lia.
        repeat (f_equal; try lia).
      * replace (Z.to_nat (n - 1)) with (S (Z.to_nat (n - 1 - 1))) by lia.
        simpl. rewrite list_insert_inserts_lt by lia. repeat (f_equal; try lia).
  - apply nz_false in Hz. destruct (Z.ltb_spec (Z.of_nat (length str) + 1) n); [lia |].
    replace (n - 1) with 0 by lia. simpl. by rewrite !Z.add_0_r.
Qed.

Lemma strlcpy_spec dst d0 src s0 siz str :
  cstr src s0 str -> 0 < siz -> 0 <= d0 ->
  d0 + Z.min (Z.of_nat (length str) + 1) siz <= Z.of_nat (length dst) ->
  strlcpy dst d0 src s0 siz =
    Ret (Z.of_nat (length str),
         list_inserts (Z.to_nat d0) (take (Z.to_nat (siz - 1)) str ++ [0]) dst).
Proof.
  intros Hc Hs Hd Hl. pose proof (cstr_length _ _ _ Hc). pose proof (proj1 Hc).
  unfold strlcpy. destruct (nz siz) eqn:Hz; [| apply nz_false in Hz; lia].
  rewrite (strlcpy_loop_spec _ _ _ _ _ _ str) by (done || lia).
  destruct (Z.ltb_spec (Z.of_nat (length str) + 1) siz).
  - rewrite bind_Ret. destruct (Z.eqb_spec (siz - Z.of_nat (length str) - 1) 0); [lia |].
    rewrite take_ge by lia. do 2 f_equal. lia.
  - rewrite bind_Ret. cbn [Z.eqb]. rewrite astore_in, bind_Ret by (rewrite length_inserts; lia).
    assert (cstr src (s0 + (siz - 1)) (drop (Z.to_nat (siz - 1)) str)) as Hc'.
    { destruct Hc as (Hp & Hb & rest & Hdr). split; [lia |]. split; [by apply Forall_drop |].
      exists rest. rewrite Z2Nat.inj_add, <- drop_drop, Hdr by lia.
      rewrite drop_app_le by lia. done. }
    rewrite (skip_loop_spec _ _ _ _ Hc') by (rewrite length_drop; lia).
    rewrite bind_Ret, length_drop. f_equal. f_equal; [lia |].
    rewrite list_inserts_app_l. simpl. f_equal. rewrite length_take. lia.
Qed.

Lemma strlcpy_copies dst d0 src s0 siz str :
  cstr src s0 str -> 0 < siz -> 0 <= d0 ->
  d0 + Z.min (Z.of_nat (length str) + 1) siz <= Z.of_nat (length dst) ->
  exists dst', strlcpy dst d0 src s0 siz = Ret (Z.of_nat (length str), dst') /\
    length dst' = length dst /\
    cstr dst' d0 (take (Z.to_nat (siz - 1)) str) /\
    (forall i, (i < Z.to_nat d0)%nat \/
               (Z.to_nat d0 + length (take (Z.to_nat (siz - 1)) str) < i)%nat ->
       dst' !! i = dst !! i).
Proof.
  intros Hc Hs Hd Hl. rewrite (strlcpy_spec _ _ _ _ _ str) by done. eexists. split; [done |].
  rewrite length_inserts. split; [done |]. set (t := take _ str).
  assert (Z.of_nat (length t) = Z.min (Z.of_nat (length str)) (siz - 1)) as Ht
    by (unfold t; rewrite length_take; lia).
  split.
  - split; [done |]. split; [apply Forall_take, Hc |].
    exists (drop (Z.to_nat d0 + length t + 1) dst). apply list_eq. intros i.
    rewrite lookup_drop, (cons_middle 0 t (drop _ dst)), (app_assoc t [0] (drop _ dst)).
    destruct (decide (i < length t + 1)%nat) as [Hi | Hi].
    + rewrite lookup_app_l by (rewrite length_app; simpl; lia).
      rewrite list_lookup_inserts by (rewrite ?length_app; simpl; lia). f_equal. lia.
    + rewrite lookup_app_r by (rewrite length_app; simpl; lia).
      rewrite list_lookup_inserts_ge by (rewrite ?length_app; simpl; lia).
      rewrite lookup_drop, length_app. f_equal. simpl. lia.
  - intros i [Hi | Hi]; [by apply list_lookup_inserts_lt |].
    apply list_lookup_inserts_ge. rewrite length_app. simpl. lia.
Qed.

(** [strlcpy] copies at most [siz - 1] characters, always terminates the
    destination, writes nothing else and returns the length of the source, so
    that a result of at least [siz] tells that the string was cut. *)
Theorem strlcpy_truncates dst d0 src s0 siz str :
  cstr src s0 str -> 0 < siz -> 0 <= d0 ->
  d0 + Z.min (Z.of_nat (length str) + 1) siz <= Z.of_nat (length dst) ->
  exists dst', strlcpy dst d0 src s0 siz = Ret (Z.of_nat (length str), dst') /\
    length dst' = length dst /\
    cstr dst' d0 (take (Z.to_nat (siz - 1)) str) /\
    (forall i, (i < Z.to_nat d0)%nat \/
               (Z.to_nat d0 + length (take (Z.to_nat (siz - 1)) str) < i)%nat ->
       dst' !! i = dst !! i).
Proof. apply strlcpy_copies. Qed.

Lemma strlcpy_truncates_witness :
  exists dst', strlcpy [9; 9; 9; 9] 0 [97; 98; 99; 100; 0] 0 3 = Ret (4, dst') /\
    length dst' = 4%nat /\ cstr dst' 0 [97; 98] /\
    (forall i, (i < 0)%nat \/ (0 + 2 < i)%nat -> dst' !! i = [9; 9; 9; 9] !! i).
Proof.
  apply (strlcpy_truncates [9; 9; 9; 9] 0 [97; 98; 99; 100; 0] 0 3 [97; 98; 99; 100]);
    simpl; try lia.
  split; [lia |]. split; [repeat constructor; lia | by exists []].
Defined.
