(* ===== verification/Bytes.v ===== *)
(** Buffers of bytes: parts of them, numbers stored in them (least significant
    byte first), and loads and stores that stay inside.  The file systems and
    the data the kernel hands to programs are such buffers. *)
From stdpp Require Import base numbers list.
From Stdlib Require Import ZArith Lia Bool.
From S2P Require Import Prelude Str.

Open Scope Z_scope.

(** [l] with the bytes [x] stored from [o] on. *)
Definition splice (l : list Z) (o : Z) (x : list Z) : list Z :=
  take (Z.to_nat o) l ++ x ++ drop (Z.to_nat o + length x) l.

(** [n] bytes from [o] on as a number, least significant first; bytes past the
    end count as 0. *)
Fixpoint le_at (n : nat) (b : list Z) (o : Z) : Z :=
  match n with
  | O => 0
  | S n => default 0 (b !! Z.to_nat o) + 2 ^ 8 * le_at n b (o + 1)
  end.

Definition u16_at (b : list Z) (o : Z) : Z := le_at 2 b o.
Definition u32_at (b : list Z) (o : Z) : Z := le_at 4 b o.

Fixpoint le_bytes (n : nat) (x : Z) : list Z :=
  match n with
  | O => []
  | S n => x mod 2 ^ 8 :: le_bytes n (x / 2 ^ 8)
  end.

Definition set_u16 (b : list Z) (o x : Z) : list Z := splice b o (le_bytes 2 x).
Definition set_u32 (b : list Z) (o x : Z) : list Z := splice b o (le_bytes 4 x).

(** Stores of several bytes, and loads of one. *)
Definition store_bytes (b : list Z) (p : Z) (x : list Z) : outcome (list Z) :=
  if (0 <=? p) && (p + Z.of_nat (length x) <=? Z.of_nat (length b)) then Ret (splice b p x) else Fault.

Definition load_bytes (b : list Z) (p n : Z) : outcome (list Z) :=
  if (0 <=? p) && (p + n <=? Z.of_nat (length b)) then Ret (bytes_at b p n) else Fault.

Definition load_le (n : nat) (b : list Z) (p : Z) : outcome Z :=
  x ← load_bytes b p (Z.of_nat n); Ret (le_at n x 0).

Lemma lookup_bytes_at (l : list Z) p n i :
  bytes_at l p n !! i = if decide (i < Z.to_nat n)%nat then l !! (Z.to_nat p + i)%nat else None.
Proof.
  unfold bytes_at. case_decide.
  - by rewrite lookup_take_lt, lookup_drop.
  - apply lookup_take_ge. lia.
Qed.

Lemma length_bytes_at (l : list Z) p n :
  0 <= p -> 0 <= n -> p + n <= Z.of_nat (length l) -> length (bytes_at l p n) = Z.to_nat n.
Proof. intros. unfold bytes_at. rewrite length_take, length_drop. lia. Qed.

Lemma length_splice l o x :
  0 <= o -> o + Z.of_nat (length x) <= Z.of_nat (length l) -> length (splice l o x) = length l.
Proof. intros. unfold splice. rewrite !length_app, length_take, length_drop. lia. Qed.

Lemma lookup_splice l o x i :
  0 <= o -> o + Z.of_nat (length x) <= Z.of_nat (length l) ->
  splice l o x !! i =
    if decide (Z.to_nat o <= i < Z.to_nat o + length x)%nat then x !! (i - Z.to_nat o)%nat else l !! i.
Proof.
  intros Ho Hl. unfold splice. assert (length (take (Z.to_nat o) l) = Z.to_nat o) as Ht by (rewrite length_take; lia).
  case_decide as Hi.
  - rewrite lookup_app_r, Ht, lookup_app_l by lia. done.
  - destruct (decide (i < Z.to_nat o)%nat).
    + rewrite lookup_app_l, lookup_take_lt by lia. done.
    + rewrite lookup_app_r, Ht, lookup_app_r, lookup_drop by lia. f_equal. lia.
Qed.

(** * Numbers in bytes *)

Lemma le_at_take n b m o : 0 <= o -> o + Z.of_nat n <= m -> le_at n (take (Z.to_nat m) b) o = le_at n b o.
Proof.
  revert o. induction n as [| n IH]; intros o Ho Hm; [done |]. cbn [le_at].
  rewrite lookup_take_lt by lia. rewrite IH by lia. done.
Qed.

Lemma length_le_bytes n x : length (le_bytes n x) = n.
Proof. revert x. induction n as [| n IH]; intros x; [done |]. simpl. by rewrite IH. Qed.

Lemma le_at_le_bytes n x r : 0 <= x < 2 ^ (8 * Z.of_nat n) -> le_at n (le_bytes n x ++ r) 0 = x.
Proof.
  intros Hx. assert (forall pre, le_at n (pre ++ le_bytes n x ++ r) (Z.of_nat (length pre)) = x) as Hg; [| by apply (Hg [])].
  revert x Hx. induction n as [| n IH]; intros x Hx pre; [simpl in Hx; simpl; lia |].
  cbn [le_at le_bytes]. rewrite Nat2Z.id, <- app_comm_cons, list_lookup_middle by done. simpl default.
  replace (pre ++ x mod 2 ^ 8 :: le_bytes n (x / 2 ^ 8) ++ r) with ((pre ++ [x mod 2 ^ 8]) ++ le_bytes n (x / 2 ^ 8) ++ r)
    by (by rewrite <- app_assoc).
  replace (Z.of_nat (length pre) + 1) with (Z.of_nat (length (pre ++ [x mod 2 ^ 8]))) by (rewrite length_app; simpl; lia).
  rewrite IH; [pose proof (Z.div_mod x (2 ^ 8)); lia |].
  replace (8 * Z.of_nat (S n)) with (8 + 8 * Z.of_nat n) in Hx by lia. rewrite Z.pow_add_r in Hx by lia.
  split; [apply Z.div_pos; lia | apply Z.div_lt_upper_bound; lia].
Qed.

(** * Loads and stores in the middle of a buffer *)

Lemma bytes_at_mid (pre x post : list Z) :
  bytes_at (pre ++ x ++ post) (Z.of_nat (length pre)) (Z.of_nat (length x)) = x.
Proof. unfold bytes_at. rewrite !Nat2Z.id, drop_app_length. apply take_app_length. Qed.

Lemma load_bytes_mid (pre x post : list Z) p n :
  p = Z.of_nat (length pre) -> n = Z.of_nat (length x) -> load_bytes (pre ++ x ++ post) p n = Ret x.
Proof.
  intros -> ->. unfold load_bytes. rewrite bytes_at_mid, !length_app.
  destruct (Z.leb_spec 0 (Z.of_nat (length pre))); [| lia].
  destruct (Z.leb_spec (Z.of_nat (length pre) + Z.of_nat (length x)) (Z.of_nat (length pre + (length x + length post)))); [done | lia].
Qed.

Lemma load_bytes_all (x : list Z) : load_bytes x 0 (Z.of_nat (length x)) = Ret x.
Proof.
  pose proof (load_bytes_mid [] x [] 0 _ eq_refl eq_refl) as Hl. cbn [app] in Hl. by rewrite app_nil_r in Hl.
Qed.

Lemma store_bytes_mid (pre x post y : list Z) p :
  p = Z.of_nat (length pre) -> length x = length y -> store_bytes (pre ++ x ++ post) p y = Ret (pre ++ y ++ post).
Proof.
  intros -> E. unfold store_bytes. rewrite !length_app.
  destruct (Z.leb_spec 0 (Z.of_nat (length pre))); [| lia].
  destruct (Z.leb_spec (Z.of_nat (length pre) + Z.of_nat (length y)) (Z.of_nat (length pre + (length x + length post)))); [| lia].
  simpl. unfold splice. rewrite Nat2Z.id, take_app_length, <- E, <- drop_drop, !drop_app_length. done.
Qed.

Lemma load_le_mid n (pre post : list Z) x p :
  p = Z.of_nat (length pre) -> 0 <= x < 2 ^ (8 * Z.of_nat n) -> load_le n (pre ++ le_bytes n x ++ post) p = Ret x.
Proof.
  intros -> Hx. unfold load_le. rewrite (load_bytes_mid pre (le_bytes n x)) by (rewrite ?length_le_bytes; done).
  rewrite bind_Ret. f_equal. rewrite <- (app_nil_r (le_bytes n x)). by apply le_at_le_bytes.
Qed.

Lemma aload_mid {A} (pre post : list A) x p : p = Z.of_nat (length pre) -> aload (pre ++ x :: post) p = Ret x.
Proof. intros ->. apply aload_Ret. rewrite Nat2Z.id. split; [lia |]. by apply list_lookup_middle. Qed.

(** * Buffers that agree in a part *)

(** [m'] has the bytes of [m] from [lo] up to [hi]. *)
Definition same_on (m m' : list Z) (lo hi : Z) : Prop := forall k, lo <= Z.of_nat k < hi -> m' !! k = m !! k.

Lemma same_on_bytes m m' p n : 0 <= p -> same_on m m' p (p + n) -> bytes_at m' p n = bytes_at m p n.
Proof.
  intros Hp Hs. apply list_eq. intros i. rewrite !lookup_bytes_at. case_decide; [| done]. apply Hs. lia.
Qed.

Lemma same_on_load_le n m m' p :
  length m' = length m -> 0 <= p -> same_on m m' p (p + Z.of_nat n) -> load_le n m' p = load_le n m p.
Proof. intros Hl Hp Hs. unfold load_le, load_bytes. by rewrite Hl, (same_on_bytes m m'). Qed.

Lemma same_on_cstr m m' p s :
  length m' = length m -> same_on m m' p (p + Z.of_nat (length s) + 1) -> cstr m p s -> cstr m' p s.
Proof.
  intros Hl Hs (Hp & Hc & rest & Hd). split; [done |]. split; [done |].
  exists (drop (Z.to_nat p + (length s + 1)) m'). rewrite <- drop_drop.
  rewrite <- (take_drop (length s + 1) (drop (Z.to_nat p) m')) at 1.
  assert (take (length s + 1) (drop (Z.to_nat p) m') = s ++ [0]) as ->; [| by rewrite <- app_assoc].
  replace (length s + 1)%nat with (Z.to_nat (Z.of_nat (length s) + 1)) by lia.
  change (take _ (drop _ m')) with (bytes_at m' p (Z.of_nat (length s) + 1)).
  rewrite (same_on_bytes m m') by (done || by rewrite Z.add_assoc). unfold bytes_at. rewrite Hd.
  replace (s ++ 0 :: rest) with ((s ++ [0]) ++ rest) by (by rewrite <- app_assoc).
  apply take_app_length'. rewrite length_app. simpl. lia.
Qed.

(** A store: the bytes are there, the rest is as before. *)
Lemma store_bytes_spec m p x :
  0 <= p -> p + Z.of_nat (length x) <= Z.of_nat (length m) ->
  exists m', store_bytes m p x = Ret m' /\ length m' = length m /\ bytes_at m' p (Z.of_nat (length x)) = x /\
    forall k, Z.of_nat k < p \/ p + Z.of_nat (length x) <= Z.of_nat k -> m' !! k = m !! k.
Proof.
  intros Hp Hl. exists (splice m p x). unfold store_bytes.
  destruct (Z.leb_spec 0 p); [| lia]. destruct (Z.leb_spec (p + Z.of_nat (length x)) (Z.of_nat (length m))); [| lia].
  split; [done |]. split; [by apply length_splice |]. split.
  - apply list_eq. intros i. rewrite lookup_bytes_at, lookup_splice by done.
    destruct (decide (i < length x)%nat) as [Hi | Hi].
    + rewrite decide_True by lia. rewrite decide_True by lia. f_equal. lia.
    + rewrite decide_False by lia. by rewrite lookup_ge_None_2 by lia.
  - intros k Hk. rewrite lookup_splice by done. by rewrite decide_False by lia.
Qed.

Lemma load_le_bytes_at n m p x :
  0 <= p -> p + Z.of_nat n <= Z.of_nat (length m) -> 0 <= x < 2 ^ (8 * Z.of_nat n) ->
  bytes_at m p (Z.of_nat n) = le_bytes n x -> load_le n m p = Ret x.
Proof.
  intros Hp Hl Hx E. unfold load_le, load_bytes. rewrite E.
  destruct (Z.leb_spec 0 p); [| lia]. destruct (Z.leb_spec (p + Z.of_nat n) (Z.of_nat (length m))); [| lia]. cbn [andb].
  rewrite bind_Ret, <- (app_nil_r (le_bytes n x)). f_equal. by apply le_at_le_bytes.
Qed.

(** Stores one after the other. *)
Fixpoint store_fields (m : list Z) (l : list (Z * list Z)) : outcome (list Z) :=
  match l with
  | [] => Ret m
  | (o, x) :: l => m ← store_bytes m o x; store_fields m l
  end.

Definition apart (f g : Z * list Z) : Prop := f.1 + Z.of_nat (length f.2) <= g.1 \/ g.1 + Z.of_nat (length g.2) <= f.1.

Lemma store_fields_spec m l :
  Forall (fun f => 0 <= f.1 /\ f.1 + Z.of_nat (length f.2) <= Z.of_nat (length m)) l -> ForallOrdPairs apart l ->
  exists m', store_fields m l = Ret m' /\ length m' = length m /\
    Forall (fun f => bytes_at m' f.1 (Z.of_nat (length f.2)) = f.2) l /\
    forall k, Forall (fun f => Z.of_nat k < f.1 \/ f.1 + Z.of_nat (length f.2) <= Z.of_nat k) l -> m' !! k = m !! k.
Proof.
  intros Hf Ha. revert m Hf. induction Ha as [| [o x] l Hx Ha IH]; intros m Hf; [by exists m |].
  apply Forall_cons in Hf as [[Ho Hl] Hf]. simpl in Ho, Hl. cbn [store_fields].
  destruct (store_bytes_spec m o x Ho Hl) as (m1 & -> & Hl1 & Hb1 & Hs1). rewrite bind_Ret.
  destruct (IH m1) as (m2 & -> & Hl2 & Hb2 & Hs2); [by rewrite Hl1 |].
  exists m2. split; [done |]. split; [congruence |]. split.
  - apply Forall_cons. split; [| done]. simpl. rewrite <- Hb1 at 2. apply same_on_bytes; [done |].
    intros k Hk. apply Hs2. eapply Forall_impl; [exact Hx |]. intros g Hg. unfold apart in Hg. simpl in Hg. lia.
  - intros k [Hk Hr]%Forall_cons. rewrite (Hs2 k Hr). by apply Hs1.
Qed.
