(* ===== verification/Buffer.v ===== *)
(** The growing byte buffer of src/src/lib/buffer.c, which pipes, terminals
    and sockets store their data in.

    The pages a buffer owns are the list of their bytes.  Where they come from
    ([vm_alloc] in the kernel context) is behind the class [PageSource].  The
    theorems show that a buffer is a first-in first-out queue of bytes, and
    what happens to the lock on the error paths. *)
From stdpp Require Import base numbers list.
From Stdlib Require Import ZArith Lia Bool.
From S2P Require Import Prelude.
From S2P Require Import Spinlock.
From S2P Require Import Str.

Open Scope Z_scope.

(** [vm_alloc(VM_KERNEL, &vmem, n, NULL, VM_RW)] as far as a client sees it:
    [n] fresh pages with whatever they contain, or failure. *)
Class PageSource (S : Type) : Type :=
  page_source : S -> Z -> option (list Z * S).

Class PageSourceLaws (S : Type) `{PageSource S} : Prop :=
  page_source_length : forall s n mem s',
    page_source s n = Some (mem, s') -> Z.of_nat (length mem) = n * PAGE_SIZE.

Record buffer : Type := Buffer {
  buf_data : list Z;
  buf_lock : Z;
  buf_size : Z;
  buf_pages : Z;
  buf_max_pages : Z
}.

(** [size_t] -1. *)
Definition SIZE_ERR : Z := u32 (-1).

Section Code.
  Context {S : Type} `{PageSource S}.

Definition buffer_new (s : S) (max_pages : Z) : option buffer * S :=
  match page_source s 1 with
  | None => (None, s)
  | Some (mem, s) => (Some (Buffer mem 0 0 1 max_pages), s)
  end.

(** The number of pages [buffer_write] asks for when the data do not fit. *)
Definition size_needed (buf : buffer) (size : Z) : Z :=
  u32 (buf_pages buf + RDIV size PAGE_SIZE).

Definition size_new (buf : buffer) (size : Z) : Z :=
  let size_wanted := MAX (u32 (buf_pages buf * 3)) (size_needed buf size) in
  MIN size_wanted (buf_max_pages buf).

(** The outcome is the returned number, the buffer, the page source and the
    value of [sc_errno]. *)
Definition buffer_write (s : S) (errno : Z) (buf : buffer) (src : list Z) (size : Z)
    : outcome (Z * buffer * S * Z) :=
  lock ← lock_acquire (buf_lock buf);
  let buf := Buffer (buf_data buf) lock (buf_size buf) (buf_pages buf) (buf_max_pages buf) in
  if u32 (buf_size buf + size) >? u32 (buf_pages buf * PAGE_SIZE) then
    if size_needed buf size >? buf_max_pages buf then Ret (SIZE_ERR, buf, s, EFBIG) else
    match page_source s (size_new buf size) with
    | None => Ret (SIZE_ERR, buf, s, errno)
    | Some (mem, s) =>
      mem ← memcpy mem 0 (buf_data buf) 0 (buf_size buf);
      mem ← memcpy mem (buf_size buf) src 0 size;
      Ret (size, Buffer mem (spinlock_release lock) (u32 (buf_size buf + size))
                   (size_new buf size) (buf_max_pages buf), s, errno)
    end
  else
    mem ← memcpy (buf_data buf) (buf_size buf) src 0 size;
    Ret (size, Buffer mem (spinlock_release lock) (u32 (buf_size buf + size))
                 (buf_pages buf) (buf_max_pages buf), s, errno).

(** The number of bytes read and the bytes themselves, to be stored at the
    start of [dest]. *)
Definition do_read (buf : buffer) (dest : list Z) (size offset : Z) : outcome (Z * list Z) :=
  if offset >=? buf_size buf then Ret (0, dest) else
  let size := MIN (u32 (buf_size buf - offset)) size in
  dest ← memcpy dest 0 (buf_data buf) offset size;
  Ret (size, dest).

Definition buffer_read (buf : buffer) (dest : list Z) (size offset : Z)
    : outcome (Z * list Z * buffer) :=
  lock ← lock_acquire (buf_lock buf);
  '(nread, dest) ← do_read buf dest size offset;
  Ret (nread, dest, Buffer (buf_data buf) (spinlock_release lock) (buf_size buf)
                      (buf_pages buf) (buf_max_pages buf)).

Definition buffer_pop (buf : buffer) (dest : list Z) (size : Z)
    : outcome (Z * list Z * buffer) :=
  lock ← lock_acquire (buf_lock buf);
  '(nread, dest) ← do_read buf dest size 0;
  let sz := u32 (buf_size buf - nread) in
  mem ← (if nz sz then memmove (buf_data buf) 0 size sz else Ret (buf_data buf));
  Ret (nread, dest, Buffer mem (spinlock_release lock) sz (buf_pages buf) (buf_max_pages buf)).

Definition buffer_size (buf : buffer) : outcome (Z * buffer) :=
  lock ← lock_acquire (buf_lock buf);
  Ret (buf_size buf, Buffer (buf_data buf) (spinlock_release lock) (buf_size buf)
                       (buf_pages buf) (buf_max_pages buf)).

End Code.

(** * Specification: a queue of bytes *)

(** The bytes a buffer holds. *)
Definition contents (buf : buffer) : list Z := take (Z.to_nat (buf_size buf)) (buf_data buf).

Record buffer_wf (buf : buffer) : Prop := {
  bwf_lock : buf_lock buf = 0;
  bwf_data : Z.of_nat (length (buf_data buf)) = buf_pages buf * PAGE_SIZE;
  bwf_size : 0 <= buf_size buf <= buf_pages buf * PAGE_SIZE;
  bwf_pages : 1 <= buf_pages buf <= buf_max_pages buf;
  bwf_max : buf_max_pages buf < 2 ^ 18
}.

Lemma contents_length buf :
  buffer_wf buf -> Z.of_nat (length (contents buf)) = buf_size buf.
Proof. intros []. unfold contents. rewrite length_take. lia. Qed.

Lemma drop_take_le (l : list Z) n m :
  (m <= n)%nat -> drop m (take n l) = take (n - m) (drop m l).
Proof. intros H. rewrite take_drop_commute. by replace (m + (n - m))%nat with n by lia. Qed.

Lemma bytes_at_all (l : list Z) : bytes_at l 0 (Z.of_nat (length l)) = l.
Proof. unfold bytes_at. rewrite Nat2Z.id, drop_0. by apply take_ge. Qed.

Lemma take_inserts_0 (k l : list Z) :
  (length k <= length l)%nat -> take (length k) (list_inserts 0 k l) = k.
Proof.
  intros Hl. rewrite <- (take_drop (length k) l).
  rewrite list_inserts_0_r by (rewrite length_take; lia). by rewrite take_app_length.
Qed.

Lemma take_inserts_app (k l : list Z) n :
  (n + length k <= length l)%nat ->
  take (n + length k) (list_inserts n k l) = take n l ++ k.
Proof.
  intros Hl. rewrite <- (take_drop n l) at 1.
  assert (length (take n l) = n) as Hn by (rewrite length_take; lia).
  rewrite <- Hn at 2. rewrite <- (Nat.add_0_r (length (take n l))), list_inserts_app_r.
  rewrite take_app_add'; [| done]. f_equal. apply take_inserts_0. rewrite length_drop. lia.
Qed.

(** Storing [src] behind the contents of a data area of [pages] pages. *)
Lemma append_spec (mem src : list Z) (sz pages maxp : Z) :
  0 <= sz -> sz + Z.of_nat (length src) <= pages * PAGE_SIZE ->
  Z.of_nat (length mem) = pages * PAGE_SIZE -> 1 <= pages <= maxp -> maxp < 2 ^ 18 ->
  exists mem', memcpy mem sz src 0 (Z.of_nat (length src)) = Ret mem' /\
    let buf := Buffer mem' 0 (u32 (sz + Z.of_nat (length src))) pages maxp in
    buffer_wf buf /\ contents buf = take (Z.to_nat sz) mem ++ src.
Proof.
  intros Hs Hl Hm Hp Hmax. change PAGE_SIZE with 4096 in *. rewrite memcpy_spec by lia.
  eexists. split; [done |]. rewrite bytes_at_all, u32_small by lia. split.
  - constructor; simpl; rewrite ?length_inserts; change PAGE_SIZE with 4096; try done; lia.
  - unfold contents. cbn [buf_size buf_data].
    replace (Z.to_nat (sz + Z.of_nat (length src))) with (Z.to_nat sz + length src)%nat by lia.
    apply take_inserts_app. lia.
Qed.

(** The bytes fit into the pages the buffer has. *)
Definition has_room (buf : buffer) (n : Z) : Prop := buf_size buf + n <= buf_pages buf * PAGE_SIZE.

Lemma buffer_write_room {S : Type} `{PageSource S} (s : S) errno buf src :
  buffer_wf buf -> has_room buf (Z.of_nat (length src)) ->
  exists buf', buffer_write s errno buf src (Z.of_nat (length src)) = Ret (Z.of_nat (length src), buf', s, errno) /\
    buffer_wf buf' /\ contents buf' = contents buf ++ src /\ buf_pages buf' = buf_pages buf /\
    buf_size buf' = buf_size buf + Z.of_nat (length src).
Proof.
  unfold has_room. intros Hwf Hroom. destruct (Hwf) as [Hk Hd Hs Hp Hm]. unfold buffer_write, lock_acquire.
  rewrite Hk, Z.eqb_refl, bind_Ret. cbn [buf_size buf_pages buf_data buf_max_pages]. change PAGE_SIZE with 4096 in *.
  rewrite (u32_small (buf_size buf + _)), (u32_small (buf_pages buf * _)), Z.gtb_ltb by lia.
  destruct (Z.ltb_spec (buf_pages buf * 4096) (buf_size buf + Z.of_nat (length src))); [lia |].
  destruct (append_spec (buf_data buf) src (buf_size buf) (buf_pages buf) (buf_max_pages buf))
    as (mem' & He & Hw & Hc); change PAGE_SIZE with 4096; try lia.
  rewrite He, bind_Ret. rewrite u32_small in Hw, Hc by lia. eexists. split; [reflexivity |]. auto.
Qed.

Section Spec.
  Context {S : Type} `{PageSourceLaws S}.

(** [buffer_write] appends the bytes, or fails with the lock still taken. *)
Lemma buffer_write_spec (s : S) errno buf src :
  buffer_wf buf -> Z.of_nat (length src) < 2 ^ 31 ->
  exists r buf' s' e, buffer_write s errno buf src (Z.of_nat (length src)) = Ret (r, buf', s', e) /\
    ((r = Z.of_nat (length src) /\ e = errno /\ buffer_wf buf' /\ contents buf' = contents buf ++ src) \/
     (r = SIZE_ERR /\ buf_lock buf' = 1 /\
      buf_size buf + Z.of_nat (length src) > buf_pages buf * PAGE_SIZE)).
Proof.
  intros Hwf Hlen. destruct (Hwf) as [Hk Hd Hs Hp Hm]. unfold buffer_write, lock_acquire.
  rewrite Hk, Z.eqb_refl, bind_Ret. cbn [buf_size buf_pages buf_data buf_max_pages].
  set (b1 := Buffer _ 1 _ _ _). change PAGE_SIZE with 4096 in *.
  rewrite (u32_small (buf_size buf + _)), (u32_small (buf_pages buf * _)), Z.gtb_ltb by lia.
  destruct (Z.ltb_spec (buf_pages buf * 4096) (buf_size buf + Z.of_nat (length src))); last first.
  { destruct (append_spec (buf_data buf) src (buf_size buf) (buf_pages buf) (buf_max_pages buf))
      as (mem' & He & Hw & Hc); change PAGE_SIZE with 4096; try lia.
    rewrite He, bind_Ret. rewrite u32_small in Hw, Hc by lia. do 4 eexists.
    split; [reflexivity |]. left. auto. }
  pose proof (RDIV_spec (Z.of_nat (length src)) 4096) as Hr.
  assert (0 <= RDIV (Z.of_nat (length src)) 4096 < 2 ^ 20) by lia.
  assert (size_needed b1 (Z.of_nat (length src)) =
    buf_pages buf + RDIV (Z.of_nat (length src)) 4096) as Hnd.
  { unfold size_needed. apply u32_small. cbn [buf_pages b1]. change PAGE_SIZE with 4096. lia. }
  rewrite Z.gtb_ltb, Hnd.
  destruct (Z.ltb_spec (buf_max_pages buf) (buf_pages buf + RDIV (Z.of_nat (length src)) 4096)).
  { do 4 eexists. split; [reflexivity |]. right. simpl. lia. }
  destruct (page_source s (size_new b1 _)) as [[mem s'] |] eqn:Hps; last first.
  { do 4 eexists. split; [reflexivity |]. right. simpl. lia. }
  apply page_source_length in Hps. change PAGE_SIZE with 4096 in Hps.
  assert (buf_pages buf + RDIV (Z.of_nat (length src)) 4096 <= size_new b1 (Z.of_nat (length src))
    <= buf_max_pages buf) as Hn.
  { unfold size_new. rewrite Hnd, MIN_spec, MAX_spec. cbn [buf_max_pages b1]. lia. }
  rewrite memcpy_spec, bind_Ret by lia.
  set (mem1 := list_inserts _ _ mem).
  assert (Z.of_nat (length mem1) = size_new b1 (Z.of_nat (length src)) * 4096) as Hm1
    by (unfold mem1; rewrite length_inserts; done).
  destruct (append_spec mem1 src (buf_size buf) (size_new b1 (Z.of_nat (length src)))
    (buf_max_pages buf)) as (mem' & He & Hw & Hc); change PAGE_SIZE with 4096; try lia.
  rewrite He, bind_Ret. rewrite u32_small in Hw, Hc by lia. do 4 eexists.
  split; [reflexivity |]. left. repeat split; try apply Hw. etransitivity; [exact Hc |]. f_equal.
  unfold mem1, contents, bytes_at. simpl. rewrite drop_0.
  assert (length (take (Z.to_nat (buf_size buf)) (buf_data buf)) = Z.to_nat (buf_size buf)) as Hl
    by (rewrite length_take; lia).
  rewrite <- Hl at 1. apply take_inserts_0. lia.
Qed.

(** [do_read] stores the bytes from [offset] on, as many as there are and are
    asked for. *)
Lemma do_read_spec buf dest n offset :
  buffer_wf buf -> 0 <= offset -> 0 <= n <= Z.of_nat (length dest) ->
  exists nread dest', do_read buf dest n offset = Ret (nread, dest') /\
    nread = Z.min n (Z.max 0 (buf_size buf - offset)) /\
    length dest' = length dest /\
    take (Z.to_nat nread) dest' = take (Z.to_nat n) (drop (Z.to_nat offset) (contents buf)).
Proof.
  intros [Hk Hd Hs Hp Hm] Ho Hn. unfold do_read. change PAGE_SIZE with 4096 in *. rewrite Z.geb_leb.
  destruct (Z.leb_spec (buf_size buf) offset).
  - exists 0, dest. split; [done |]. split; [lia |]. split; [done |].
    rewrite drop_ge; [by rewrite take_nil |]. unfold contents. rewrite length_take. lia.
  - rewrite u32_small, MIN_spec by lia. rewrite memcpy_spec by lia.
    eexists _, _. split; [done |]. split; [lia |]. rewrite length_inserts. split; [done |].
    set (k := Z.min _ _).
    assert (length (bytes_at (buf_data buf) offset k) = Z.to_nat k) as Hl
      by (apply bytes_at_length; lia).
    rewrite <- Hl at 1. rewrite take_inserts_0 by lia. unfold bytes_at, contents.
    rewrite drop_take_le, take_take by lia. f_equal. lia.
Qed.

Lemma buffer_pop_spec buf dest n :
  buffer_wf buf -> 0 <= n <= Z.of_nat (length dest) -> n < 2 ^ 31 ->
  exists nread dest' buf', buffer_pop buf dest n = Ret (nread, dest', buf') /\
    nread = Z.min n (buf_size buf) /\ buffer_wf buf' /\ length dest' = length dest /\
    take (Z.to_nat nread) dest' = take (Z.to_nat n) (contents buf) /\
    contents buf' = drop (Z.to_nat n) (contents buf).
Proof.
  intros Hwf Hn Hn31. destruct (do_read_spec buf dest n 0) as (nread & dest' & He & Hr & Hl & Ht);
    try done.
  pose proof (contents_length _ Hwf) as Hcl. destruct (Hwf) as [Hk Hd Hs Hp Hm].
  change PAGE_SIZE with 4096 in *.
  rewrite Z.sub_0_r, Z.max_r in Hr by lia. rewrite drop_0 in Ht.
  unfold buffer_pop, lock_acquire. rewrite Hk, Z.eqb_refl, bind_Ret, He, bind_Ret.
  rewrite (u32_small (buf_size buf - nread)) by lia.
  destruct (nz (buf_size buf - nread)) eqn:Hz.
  - apply nz_true in Hz. assert (nread = n) as -> by lia.
    rewrite memmove_spec, bind_Ret by lia. do 3 eexists. split; [done |].
    split; [lia |]. split.
    { constructor; simpl; rewrite ?length_inserts; change PAGE_SIZE with 4096; try done; lia. }
    split; [done |]. split; [done |]. unfold contents. cbn [buf_size buf_data].
    assert (length (bytes_at (buf_data buf) n (buf_size buf - n)) = Z.to_nat (buf_size buf - n)) as Hbl
      by (apply bytes_at_length; lia).
    rewrite <- Hbl. rewrite take_inserts_0 by lia. unfold bytes_at. rewrite drop_take_le by lia. f_equal. lia.
  - apply nz_false in Hz. rewrite bind_Ret. do 3 eexists. split; [done |]. split; [lia |]. split.
    { constructor; simpl; change PAGE_SIZE with 4096; try done; lia. }
    split; [done |]. split; [done |]. rewrite drop_ge by lia. unfold contents.
    cbn [buf_size buf_data]. by replace (Z.to_nat (buf_size buf - nread)) with 0%nat by lia.
Qed.

(** A client that writes and pops, in any order.  A write that fails ends the
    run.  The result lists the bytes written and the bytes popped. *)
Inductive buf_op : Type :=
  | OpWrite (src : list Z)
  | OpPop (n : Z).

Fixpoint buf_run (s : S) (buf : buffer) (ops : list buf_op)
    : outcome (list Z * list Z * buffer) :=
  match ops with
  | [] => Ret ([], [], buf)
  | OpWrite src :: ops =>
    '(r, buf, s, _) ← buffer_write s 0 buf src (Z.of_nat (length src));
    if r =? SIZE_ERR then Ret ([], [], buf) else
    '(w, p, buf) ← buf_run s buf ops;
    Ret (src ++ w, p, buf)
  | OpPop n :: ops =>
    '(nread, dest, buf) ← buffer_pop buf (replicate (Z.to_nat n) 0) n;
    '(w, p, buf) ← buf_run s buf ops;
    Ret (w, take (Z.to_nat nread) dest ++ p, buf)
  end.

Definition buf_op_ok (op : buf_op) : Prop :=
  match op with
  | OpWrite src => Z.of_nat (length src) < 2 ^ 31
  | OpPop n => 0 <= n < 2 ^ 31
  end.

Lemma buf_run_spec ops (s : S) buf :
  buffer_wf buf -> Forall buf_op_ok ops ->
  exists w p buf', buf_run s buf ops = Ret (w, p, buf') /\
    (buf_lock buf' = 0 -> buffer_wf buf' /\ contents buf ++ w = p ++ contents buf').
Proof.
  revert s buf. induction ops as [| op ops IH]; intros s buf Hwf Hops.
  { exists [], [], buf. split; [done |]. by rewrite app_nil_r. }
  apply Forall_cons in Hops as [Hop Hops]. destruct op as [src | n]; cbn [buf_run buf_op_ok] in *.
  - destruct (buffer_write_spec s 0 buf src) as (r & buf1 & s1 & e & He & Hr); try done.
    rewrite He, bind_Ret. destruct Hr as [(-> & _ & Hwf1 & Hc) | (-> & Hl & _)].
    + assert ((Z.of_nat (length src) =? SIZE_ERR) = false) as ->.
      { apply Z.eqb_neq. unfold SIZE_ERR. rewrite u32_m1. lia. }
      destruct (IH s1 buf1) as (w & p & buf2 & Hrun & Hq); try done.
      rewrite Hrun, bind_Ret. do 3 eexists. split; [done |]. intros Hk. destruct (Hq Hk) as [Hw2 Hq2].
      split; [done |]. by rewrite app_assoc, <- Hc.
    + rewrite Z.eqb_refl. do 3 eexists. split; [done |]. intros Hk. congruence.
  - destruct (buffer_pop_spec buf (replicate (Z.to_nat n) 0) n)
      as (nread & dest & buf1 & He & Hr & Hwf1 & _ & Ht & Hd);
      try done; try (rewrite length_replicate; lia); try lia.
    rewrite He, bind_Ret. destruct (IH s buf1) as (w & p & buf2 & Hrun & Hq); try done.
    rewrite Hrun, bind_Ret. do 3 eexists. split; [done |]. intros Hk. destruct (Hq Hk) as [Hw2 Hq2].
    split; [done |]. rewrite <- (app_assoc _ p), <- Hq2, Ht, Hd, app_assoc, take_drop. done.
Qed.

End Spec.

(** A page source that never fails and gives zeroed pages. *)
#[global] Instance zero_pages : PageSource unit :=
  fun s n => if n <? 0 then None else Some (replicate (Z.to_nat (n * PAGE_SIZE)) 0, s).

#[global] Instance zero_pages_laws : PageSourceLaws unit.
Proof.
  intros s n mem s' Hp. unfold page_source, zero_pages in Hp.
  destruct (Z.ltb_spec n 0); simplify_eq. rewrite length_replicate. change PAGE_SIZE with 4096. lia.
Qed.

(** a buffer is a first-in first-out queue of bytes: for every page
    source and every sequence of writes and pops from a new buffer, the bytes
    popped so far followed by the bytes still in the buffer are the bytes
    written, in order; the run never reads or writes outside the pages of the
    buffer and never waits, unless a write has failed. *)
Theorem buffer_fifo {S : Type} `{PageSourceLaws S} (s s' : S) (max_pages : Z) buf ops :
  1 <= max_pages < 2 ^ 18 -> buffer_new s max_pages = (Some buf, s') -> Forall buf_op_ok ops ->
  exists written popped buf', buf_run s' buf ops = Ret (written, popped, buf') /\
    (buf_lock buf' = 0 -> written = popped ++ contents buf').
Proof.
  intros Hm Hnew Hops. unfold buffer_new in Hnew.
  destruct (page_source s 1) as [[mem s1] |] eqn:Hp; simplify_eq.
  apply page_source_length in Hp. change PAGE_SIZE with 4096 in Hp.
  assert (buffer_wf (Buffer mem 0 0 1 max_pages)) as Hwf.
  { constructor; simpl; change PAGE_SIZE with 4096; try done; lia. }
  destruct (buf_run_spec ops s' _ Hwf Hops) as (w & p & buf' & He & Hq).
  do 3 eexists. split; [exact He |]. intros Hk. by destruct (Hq Hk) as [_ Hq2].
Qed.

Lemma buffer_fifo_witness :
  exists written popped buf',
    buf_run (S := unit) tt (Buffer (replicate (Z.to_nat (1 * PAGE_SIZE)) 0) 0 0 1 4)
      [OpWrite [1; 2; 3]; OpPop 2; OpWrite [4]; OpPop 5] = Ret (written, popped, buf') /\
    (buf_lock buf' = 0 -> written = popped ++ contents buf').
Proof.
  apply (buffer_fifo tt tt 4); [lia | reflexivity |].
  repeat constructor; simpl; lia.
Defined.

(** a write that does not fit fails with the lock taken, and from then on
    every operation on the buffer waits forever. *)
Lemma buffer_write_lock_leak {S : Type} `{PageSourceLaws S} (s s' : S) errno e buf buf' src :
  buffer_wf buf -> Z.of_nat (length src) < 2 ^ 31 ->
  buffer_write s errno buf src (Z.of_nat (length src)) = Ret (SIZE_ERR, buf', s', e) ->
  (forall src' size, buffer_write s' e buf' src' size = Spin) /\
  (forall dest size, buffer_pop buf' dest size = Spin) /\ buffer_size buf' = Spin.
Proof.
  intros Hwf Hl He. destruct (buffer_write_spec s errno buf src) as (r & b & s1 & e1 & He' & Hr); try done.
  rewrite He' in He. simplify_eq. destruct Hr as [(Hr & _) | (_ & Hk & _)].
  - unfold SIZE_ERR in Hr. rewrite u32_m1 in Hr. lia.
  - unfold buffer_write, buffer_pop, buffer_size, lock_acquire. by rewrite Hk.
Qed.

Lemma buffer_write_lock_leak_witness :
  let buf' := Buffer (replicate 4096 0) 1 0 1 1 in
  (forall src' size, buffer_write (S := unit) tt EFBIG buf' src' size = Spin) /\
  (forall dest size, buffer_pop buf' dest size = Spin) /\ buffer_size buf' = Spin.
Proof.
  apply (buffer_write_lock_leak tt tt 0 EFBIG (Buffer (replicate 4096 0) 0 0 1 1) _ (replicate 4097 7)).
  - constructor; simpl; change PAGE_SIZE with 4096; try done; lia.
  - rewrite length_replicate. lia.
  - vm_compute. reflexivity.
Defined.
