(* ===== verification/Path.v ===== *)
(** Path normalisation: [vfs_normalize_path] of src/src/fs/vfs.c.

    A string is the list of its bytes, without the terminating NUL.  The code
    walks over the path backwards, cuts it at every slash and counts the
    directories a [..] removes; the specification splits the path at its
    slashes and keeps a stack of directories.  The theorem shows that the two
    agree. *)
From stdpp Require Import base numbers list.
From Stdlib Require Import ZArith Lia Bool.
From S2P Require Import Prelude.

Open Scope Z_scope.

Definition SLASH : Z := 47.
Definition DOT : Z := 46.

(** A string of the kernel. *)
Abbreviation cstring := (list Z).

(** [strlen] of lib/string.c on such a string: it also stops at a byte 0xff. *)
Fixpoint c_strlen (s : cstring) : Z :=
  match s with
  | [] => 0
  | c :: s => if (c =? 0) || (c =? 255) then 0 else 1 + c_strlen s
  end.

(** The string that starts at a pointer: the bytes up to the next NUL. *)
Fixpoint until0 (s : cstring) : cstring :=
  match s with
  | [] => []
  | c :: s => if c =? 0 then [] else c :: until0 s
  end.

(** The loop of [vfs_normalize_path] over the characters, from the last to the
    first.  [new_path] is built from its end: [acc] are the bytes from [nptr]
    to the end of it, and [nptr] must not pass its start. *)
Fixpoint normalize_loop (ptr : nat) (path : cstring) (plen skip set : Z) (acc : cstring)
    : outcome (cstring * Z) :=
  match ptr with
  | O => Ret (acc, set)
  | S p =>
    c ← aload path (Z.of_nat p);
    if negb (c =? SLASH) then normalize_loop p path plen skip set acc else
    let path := <[p := 0]> path in
    let seg := until0 (drop (S p) path) in
    if bool_decide (seg = []) || bool_decide (seg = [DOT])
    then normalize_loop p path plen skip set acc
    else if bool_decide (seg = [DOT; DOT])
    then normalize_loop p path plen (skip + 1) set acc
    else if nz skip then normalize_loop p path plen (skip - 1) set acc
    else
      let slen := c_strlen seg in
      let acc := SLASH :: take (Z.to_nat slen) seg ++ acc in
      if plen <? Z.of_nat (length acc) then Fault
      else normalize_loop p path plen skip (set + 1) acc
  end.

(** The absolute path the loop works on. *)
Definition absolute_path (orig_path cwd : cstring) : cstring :=
  if bool_decide (head orig_path = Some SLASH) then orig_path
  else take (Z.to_nat (c_strlen orig_path + c_strlen cwd + 3 - 1))
         (SLASH :: cwd ++ SLASH :: orig_path).

Definition vfs_normalize_path (orig_path cwd : cstring) : outcome cstring :=
  if bool_decide (orig_path = [DOT]) then Ret cwd else
  let path := absolute_path orig_path cwd in
  let plen := c_strlen path in
  '(acc, set) ← normalize_loop (Z.to_nat plen) path plen 0 0 [];
  if nz set then Ret acc
  else if plen <? 1 then Fault else Ret (SLASH :: acc).

(** * Specification *)

(** The segments of a path, as they stand between the slashes. *)
Fixpoint split_path (p : cstring) : list cstring :=
  match p with
  | [] => [[]]
  | c :: p =>
    if c =? SLASH then [] :: split_path p
    else match split_path p with
         | [] => [[c]]
         | seg :: segs => (c :: seg) :: segs
         end
  end.

(** What one segment does to the stack of directories (the innermost first). *)
Definition enter (st : list cstring) (seg : cstring) : list cstring :=
  if bool_decide (seg = []) || bool_decide (seg = [DOT]) then st
  else if bool_decide (seg = [DOT; DOT]) then tail st
  else seg :: st.

Definition resolve (segs : list cstring) : list cstring := fold_left enter segs [].

(** A list of segments as an absolute path. *)
Definition join_path (segs : list cstring) : cstring :=
  concat (map (cons SLASH) segs).

Definition render (segs : list cstring) : cstring :=
  match segs with [] => [SLASH] | _ => join_path segs end.

(** A path without NUL and without the byte [strlen] takes for an end. *)
Definition path_ok (p : cstring) : Prop := Forall (fun c => 0 < c < 255) p.

(** * Lemmas *)

Lemma c_strlen_ok s : path_ok s -> c_strlen s = Z.of_nat (length s).
Proof.
  induction 1 as [| c s Hc Hs IH]; [done |]. simpl c_strlen.
  destruct (Z.eqb_spec c 0), (Z.eqb_spec c 255); simpl; lia.
Qed.

Lemma until0_app s t : path_ok s -> until0 t = [] -> until0 (s ++ t) = s.
Proof.
  intros Hs Ht. induction Hs as [| c s Hc Hs IH]; [done |]. simpl.
  destruct (Z.eqb_spec c 0); [lia |]. by rewrite IH.
Qed.

(** The same walk over the list of segments, the last one first. *)
Fixpoint seg_loop (rsegs : list cstring) (skip : nat) : list cstring :=
  match rsegs with
  | [] => []
  | seg :: rsegs =>
    if bool_decide (seg = []) || bool_decide (seg = [DOT]) then seg_loop rsegs skip
    else if bool_decide (seg = [DOT; DOT]) then seg_loop rsegs (S skip)
    else match skip with
         | S skip => seg_loop rsegs skip
         | O => seg_loop rsegs O ++ [seg]
         end
  end.

Lemma seg_loop_resolve segs skip :
  seg_loop (reverse segs) skip = reverse (drop skip (resolve segs)).
Proof.
  revert skip. induction segs as [| x segs IH] using rev_ind; intros skip.
  { by destruct skip. }
  rewrite reverse_snoc. cbn [seg_loop]. unfold resolve. rewrite fold_left_app. cbn [fold_left].
  fold (resolve segs). unfold enter.
  destruct (bool_decide (x = []) || bool_decide (x = [DOT])); [apply IH |].
  destruct (bool_decide (x = [DOT; DOT])).
  { rewrite IH. f_equal. destruct (resolve segs); [by destruct skip | done]. }
  destruct skip as [| skip]; [| apply IH]. rewrite IH, !drop_0. by rewrite reverse_cons.
Qed.

Lemma join_path_app s t : join_path (s ++ t) = join_path s ++ join_path t.
Proof. unfold join_path. by rewrite map_app, concat_app. Qed.

Definition seg_ok (seg : cstring) : Prop := path_ok seg /\ Forall (fun c => c <> SLASH) seg.

Lemma join_path_seg segs seg : join_path (segs ++ [seg]) = join_path segs ++ SLASH :: seg.
Proof. rewrite join_path_app. unfold join_path. simpl. by rewrite app_nil_r. Qed.

(** Scanning over the characters of a segment changes nothing. *)
Lemma normalize_loop_seg body seg rest plen skip set acc k :
  Forall (fun c => c <> SLASH) seg -> (k <= length seg)%nat ->
  normalize_loop (length body + 1 + k) (body ++ SLASH :: seg ++ rest) plen skip set acc =
  normalize_loop (length body + 1) (body ++ SLASH :: seg ++ rest) plen skip set acc.
Proof.
  intros Hs. induction k as [| k IH]; intros Hk; [by rewrite Nat.add_0_r |].
  replace (length body + 1 + S k)%nat with (S (length body + 1 + k)) by lia.
  cbn [normalize_loop].
  destruct (lookup_lt_is_Some_2 seg k) as [c Hc]; [lia |].
  assert (aload (body ++ SLASH :: seg ++ rest) (Z.of_nat (length body + 1 + k)) = Ret c) as ->.
  { apply aload_Ret. split; [lia |]. rewrite Nat2Z.id, lookup_app_r by lia.
    replace (length body + 1 + k - length body)%nat with (S k) by lia. simpl.
    by rewrite lookup_app_l by lia. }
  rewrite bind_Ret. eapply Forall_lookup_1 in Hs; [| exact Hc]. simpl in Hs.
  destruct (Z.eqb_spec c SLASH); [done |]. cbn [negb]. apply IH. lia.
Qed.

(** The walk over the characters of [join_path segs] is the walk over [segs]. *)
Lemma normalize_loop_join segs tail plen skip set acc :
  Forall seg_ok segs -> until0 tail = [] ->
  Z.of_nat (length acc) + Z.of_nat (length (join_path segs)) <= plen ->
  let kept := seg_loop (reverse segs) skip in
  normalize_loop (length (join_path segs)) (join_path segs ++ tail) plen (Z.of_nat skip) set acc =
    Ret (join_path kept ++ acc, set + Z.of_nat (length kept)).
Proof.
  revert tail skip set acc.
  induction segs as [| seg segs IH] using rev_ind; intros tail skip set acc Hok Ht Hlen.
  { simpl. by rewrite Z.add_0_r. }
  apply Forall_app in Hok as [Hok [[Hp Hns] _]%Forall_cons].
  rewrite join_path_seg in Hlen |- *. rewrite length_app in *. simpl length in *.
  rewrite reverse_snoc, <- app_assoc. cbn [app].
  replace (length (join_path segs) + S (length seg))%nat
    with (length (join_path segs) + 1 + length seg)%nat by lia.
  rewrite normalize_loop_seg by done.
  replace (length (join_path segs) + 1)%nat with (S (length (join_path segs))) by lia.
  cbn [normalize_loop seg_loop].
  assert (aload (join_path segs ++ SLASH :: seg ++ tail) (Z.of_nat (length (join_path segs))) =
    Ret SLASH) as ->.
  { apply aload_Ret. split; [lia |]. by rewrite Nat2Z.id, list_lookup_middle. }
  rewrite bind_Ret. cbn [negb Z.eqb SLASH Pos.eqb].
  assert (<[length (join_path segs) := 0]> (join_path segs ++ SLASH :: seg ++ tail) =
    join_path segs ++ 0 :: seg ++ tail) as ->.
  { rewrite insert_app_r_alt by lia. by rewrite Nat.sub_diag. }
  assert (drop (S (length (join_path segs))) (join_path segs ++ 0 :: seg ++ tail) = seg ++ tail) as ->.
  { rewrite drop_app_ge by lia.
    by replace (S (length (join_path segs)) - length (join_path segs))%nat with 1%nat by lia. }
  rewrite until0_app by done.
  destruct (bool_decide (seg = []) || bool_decide (seg = [DOT])); [apply IH; done || lia |].
  destruct (bool_decide (seg = [DOT; DOT])).
  { replace (Z.of_nat skip + 1) with (Z.of_nat (S skip)) by lia. apply IH; done || lia. }
  destruct skip as [| skip].
  - cbn [nz negb Z.eqb Z.of_nat]. rewrite c_strlen_ok, Nat2Z.id, take_ge by done || lia.
    destruct (Z.ltb_spec plen (Z.of_nat (length (SLASH :: seg ++ acc)))) as [Hlt | _].
    { simpl in Hlt. rewrite length_app in Hlt. lia. }
    change 0 with (Z.of_nat 0) at 2. rewrite IH; [| done | done |].
    + rewrite length_app, join_path_seg, <- app_assoc. simpl. do 2 f_equal. lia.
    + simpl. rewrite length_app. lia.
  - assert (nz (Z.of_nat (S skip)) = true) as -> by (apply nz_true; lia).
    replace (Z.of_nat (S skip) - 1) with (Z.of_nat skip) by lia. apply IH; done || lia.
Qed.

Lemma split_path_nonempty p : split_path p <> [].
Proof. destruct p as [| c p]; [done |]. simpl. destruct (c =? SLASH), (split_path p); done. Qed.

Lemma join_split p : join_path (split_path p) = SLASH :: p.
Proof.
  induction p as [| c p IH]; [done |]. simpl. destruct (Z.eqb_spec c SLASH) as [-> | Hne].
  - unfold join_path in *. simpl. by rewrite IH.
  - destruct (split_path p) as [| seg segs] eqn:Hs; [by apply split_path_nonempty in Hs |].
    unfold join_path in *. simpl in *. by simplify_eq.
Qed.

Lemma split_path_ok p : path_ok p -> Forall seg_ok (split_path p).
Proof.
  induction 1 as [| c p Hc Hp IH]; [by repeat constructor |]. simpl.
  destruct (Z.eqb_spec c SLASH); [constructor; [by split; constructor | done] |].
  destruct (split_path p) as [| seg segs].
  { constructor; [| constructor]. split; (constructor; [done | constructor]). }
  apply Forall_cons in IH as [[H1 H2] H3]. constructor; [split; by constructor | done].
Qed.

Lemma absolute_path_ok orig cwd :
  path_ok orig -> path_ok cwd -> exists p, absolute_path orig cwd = SLASH :: p /\ path_ok p.
Proof.
  intros Ho Hc. unfold absolute_path. case_bool_decide as Hh.
  - destruct orig as [| c p]; simplify_eq/=. apply Forall_cons in Ho as [_ Ho]. eauto.
  - rewrite !c_strlen_ok, take_ge by (done || (simpl; rewrite length_app; simpl; lia)).
    eexists. split; [done |]. apply Forall_app_2; [done |]. constructor; [unfold SLASH; lia | done].
Qed.

(** A segment that names a directory entry. *)
Definition seg_normal (seg : cstring) : Prop :=
  seg_ok seg /\ seg <> [] /\ seg <> [DOT] /\ seg <> [DOT; DOT].

Lemma resolve_normal_app segs st :
  Forall seg_ok segs -> Forall seg_normal st -> Forall seg_normal (fold_left enter segs st).
Proof.
  intros Hs. revert st. induction Hs as [| seg segs Hseg Hs IH]; intros st Hst; [done |].
  simpl. apply IH. unfold enter.
  destruct (bool_decide (seg = []) || bool_decide (seg = [DOT])) eqn:Hb; [done |].
  apply orb_false_elim in Hb as [?%bool_decide_eq_false ?%bool_decide_eq_false].
  case_bool_decide as Hd; [by inversion Hst |]. by constructor.
Qed.

Lemma resolve_of_normal segs st :
  Forall seg_normal segs -> fold_left enter segs st = reverse segs ++ st.
Proof.
  intros Hs. revert st. induction Hs as [| seg segs (_ & H1 & H2 & H3) Hs IH]; intros st; [done |].
  simpl. rewrite IH, reverse_cons, <- app_assoc. f_equal. unfold enter. by rewrite !bool_decide_false.
Qed.

Lemma normalize_spec orig cwd :
  path_ok orig -> path_ok cwd -> orig <> [DOT] ->
  vfs_normalize_path orig cwd =
    Ret (render (reverse (resolve (split_path (absolute_path orig cwd))))).
Proof.
  intros Ho Hc Hd. destruct (absolute_path_ok orig cwd) as (p & Ha & Hp); try done.
  unfold vfs_normalize_path. rewrite bool_decide_false, Ha by done.
  assert (path_ok (SLASH :: p)) as Hsp by (constructor; [unfold SLASH; lia | done]).
  rewrite c_strlen_ok, Nat2Z.id by done.
  pose proof (normalize_loop_join (split_path p) [] (Z.of_nat (length (SLASH :: p))) 0 0 [])
    as Hloop.
  rewrite join_split, app_nil_r in Hloop. change 0 with (Z.of_nat 0) at 1.
  rewrite Hloop by (done || (apply split_path_ok; done) || (simpl; lia)).
  rewrite bind_Ret, app_nil_r, seg_loop_resolve, drop_0. clear Hloop.
  change (split_path (SLASH :: p)) with ([] :: split_path p).
  assert (resolve ([] :: split_path p) = resolve (split_path p)) as -> by done.
  destruct (reverse (resolve (split_path p))) as [| seg segs].
  { cbn [length]. rewrite Z.add_0_l. cbn [nz Z.of_nat negb Z.eqb]. by zcases. }
  assert (nz (0 + Z.of_nat (length (seg :: segs))) = true) as ->; [| done].
  apply nz_true. simpl. lia.
Qed.

(** C30: [vfs_normalize_path] gives the absolute path of the directories that
    are left after every segment of the path (put behind the working directory
    when it is relative) has been resolved from left to right: empty segments
    and [.] are dropped and [..] leaves the last directory, at the root it
    does nothing.  The call never writes outside its buffers. *)
Theorem normalize_path_resolves orig cwd :
  path_ok orig -> path_ok cwd -> orig <> [DOT] ->
  vfs_normalize_path orig cwd =
    Ret (render (reverse (resolve (split_path (absolute_path orig cwd))))).
Proof. apply normalize_spec. Qed.

(** /usr/./x/../bin under /home, spelled in bytes. *)
Definition path_ex : cstring :=
  [117; 115; 114; 47; 46; 47; 120; 47; 46; 46; 47; 98; 105; 110; 47].

Lemma normalize_path_resolves_witness :
  vfs_normalize_path path_ex [47; 104] =
    Ret (render (reverse (resolve (split_path (absolute_path path_ex [47; 104]))))) /\
  vfs_normalize_path path_ex [47; 104] = Ret [47; 104; 47; 117; 115; 114; 47; 98; 105; 110].
Proof.
  split; [| reflexivity].
  apply (normalize_path_resolves path_ex [47; 104]); [repeat constructor; lia.. | done].
Defined.

Lemma render_ok segs :
  Forall seg_normal segs -> path_ok (render segs) /\ exists q, render segs = SLASH :: q.
Proof.
  intros Hn.
  destruct segs as [| seg segs']; [by split; [repeat constructor; unfold SLASH; lia | eauto] |].
  split; [| simpl; eauto]. cbn [render]. revert Hn. generalize (seg :: segs'). intros l Hl.
  induction Hl as [| s l [[Hs _] _] Hl IH]; [constructor |]. unfold join_path in *. simpl.
  constructor; [unfold SLASH; lia |]. by apply Forall_app_2.
Qed.

Lemma split_app s p segs :
  seg_ok s -> split_path p = [] :: segs -> split_path (s ++ p) = s :: segs.
Proof.
  intros [_ Hns] Hp. induction Hns as [| c s Hc Hns IHs]; simpl; [done |].
  destruct (Z.eqb_spec c SLASH); [done |]. by rewrite IHs.
Qed.

(** Splitting at the slashes undoes the printing of a non-empty list of names. *)
Lemma split_join seg segs :
  Forall seg_normal (seg :: segs) -> split_path (join_path (seg :: segs)) = [] :: seg :: segs.
Proof.
  revert seg. induction segs as [| s segs IH]; intros seg [Hs Hl]%Forall_cons;
    unfold join_path in *; cbn [map concat];
    change ((SLASH :: seg) ++ ?t) with (SLASH :: seg ++ t); cbn [split_path];
    rewrite Z.eqb_refl; f_equal; destruct Hs as [Hs _].
  - rewrite app_nil_r, <- (app_nil_r seg). by rewrite (split_app _ _ []); rewrite ?app_nil_r.
  - apply split_app; [done |]. by apply IH.
Qed.

Definition path_normal (p : cstring) : Prop :=
  exists segs, p = render segs /\ Forall seg_normal segs.

(** The result has no empty, [.] or [..] segment, and normalising it
    again, from any working directory, changes nothing. *)
Theorem normalize_path_idempotent orig cwd cwd' :
  path_ok orig -> path_ok cwd -> path_ok cwd' -> orig <> [DOT] ->
  exists p, vfs_normalize_path orig cwd = Ret p /\ path_normal p /\
    vfs_normalize_path p cwd' = Ret p.
Proof.
  intros Ho Hc Hc' Hd. rewrite normalize_spec by done. eexists. split; [done |].
  destruct (absolute_path_ok orig cwd) as (p & Ha & Hp); try done. rewrite Ha.
  set (segs := reverse (resolve (split_path (SLASH :: p)))).
  assert (Forall seg_normal segs) as Hn.
  { apply Forall_reverse, resolve_normal_app; [| done]. apply split_path_ok.
    constructor; [unfold SLASH; lia | done]. }
  split; [by exists segs |].
  destruct (render_ok segs) as [Hok [q Hq]]; [done |].
  rewrite normalize_spec; [| done | done | rewrite Hq; done]. do 2 f_equal.
  unfold absolute_path. rewrite bool_decide_true by (by rewrite Hq).
  destruct segs as [| seg segs']; [done |]. cbn [render]. unfold resolve.
  rewrite split_join by done. change (fold_left enter ([] :: ?l) []) with (fold_left enter l []).
  rewrite resolve_of_normal, app_nil_r by done. apply reverse_involutive.
Qed.

Lemma normalize_path_idempotent_witness :
  exists p, vfs_normalize_path path_ex [47; 104] = Ret p /\ path_normal p /\
    vfs_normalize_path p [47] = Ret p.
Proof.
  apply (normalize_path_idempotent path_ex [47; 104] [47]); [repeat constructor; lia.. | done].
Defined.
