(* ===== verification/Mount.v ===== *)
(** The mount table: src/src/fs/mount.c, without [vfs_mount] itself, which
    needs the path lookup of the vfs and is modelled in Vfs.v.

    The mount points are a doubly linked list in a heap.  [vfs_mount_get] is
    specified by the deepest mount point a path lies under. *)
From stdpp Require Import base numbers list gmap.
From Stdlib Require Import ZArith Lia Bool.
From S2P Require Import Prelude DList Str Path.

Open Scope Z_scope.

(** [struct vfs_callbacks] of fs/vfs.h: function pointers, 0 for NULL. *)
Record vfs_callbacks : Type := Callbacks {
  cb_open : Z; cb_access : Z; cb_read : Z; cb_write : Z; cb_getdents : Z; cb_stat : Z;
  cb_mkdir : Z; cb_symlink : Z; cb_unlink : Z; cb_chmod : Z; cb_chown : Z; cb_utimes : Z;
  cb_link : Z; cb_readlink : Z; cb_rmdir : Z; cb_ioctl : Z; cb_poll : Z;
  cb_build_path_tree : Z;
}.

Definition no_callbacks : vfs_callbacks :=
  Callbacks 0 0 0 0 0 0 0 0 0 0 0 0 0 0 0 0 0 0.

(** [struct vfs_mountpoint], its links apart. *)
Record vfs_mountpoint : Type := Mountpoint {
  mp_path : cstring;
  mp_instance : Z;
  mp_type : cstring;
  mp_dev : Z;
  mp_callbacks : vfs_callbacks;
}.

(** The mount points, the head of their list, and the [mounted] flags of the
    block devices. *)
Record mounts : Type := Mounts {
  mt_heap : dheap vfs_mountpoint;
  mt_head : Z;
  mt_mounted : gmap Z bool;
}.

(** A string as the buffer the string functions read. *)
Abbreviation buf s := (s ++ [0]).

(** [strcpy] into an array of [n] bytes of a fresh object. *)
Definition copy_name (n : Z) (s : cstring) : outcome cstring :=
  if Z.of_nat (length s) <? n then Ret s else Fault.

(** [dev->mounted = b], on a device that exists. *)
Definition set_mounted (m : gmap Z bool) (dev : Z) (b : bool) : outcome (gmap Z bool) :=
  match m !! dev with Some _ => Ret (<[dev := b]> m) | None => Fault end.

(** [mp] is the address [kmalloc] gives; the code does not check it for NULL. *)
Definition vfs_mount_register (mt : mounts) (mp dev : Z) (path : cstring) (instance : Z)
    (type : cstring) (callbacks : vfs_callbacks) : outcome (Z * mounts) :=
  mounted ← (if nz dev then set_mounted (mt_mounted mt) dev true else Ret (mt_mounted mt));
  if mp =? 0 then Fault else
  type ← copy_name 50 type;
  path ← copy_name 265 path;
  '(h, head) ← list_push (mt_heap mt) (mt_head mt) mp
                 (Mountpoint path instance type dev callbacks);
  Ret (0, Mounts h head mounted).

(** The pointer [mpath] of [vfs_mount_get]. *)
Inductive mpath_ptr : Type :=
  | MNull
  | MInto (off : Z)  (* path + off *)
  | MRoot            (* the literal / *).

Fixpoint mount_get_loop (fuel : nat) (h : dheap vfs_mountpoint) (path : cstring) (cur_mp : Z)
    (found : Z * Z * mpath_ptr) : outcome (Z * Z * mpath_ptr) :=
  match fuel with
  | O => Spin
  | S fuel =>
    if cur_mp =? 0 then Ret found else
    n ← load_node h cur_mp;
    let cur_path := mp_path (nd_data n) in
    plen ← strlen (buf cur_path) 0;
    r ← strncmp (buf path) (buf cur_path) 0 0 (u32 (plen - 1));
    let '(_, match_len, _) := found in
    found ←
      (if (r =? 0) && (match_len <? plen) then
         l ← strlen (buf path) 0;
         Ret (cur_mp, plen, if 0 <? u32 (l - plen) then MInto plen else MRoot)
       else Ret found);
    mount_get_loop fuel h path (nd_next n) found
  end.

(** [strdup(mpath)]; a pointer past the terminator of the path is outside it. *)
Definition mpath_dup (path : cstring) (m : mpath_ptr) : outcome (option cstring) :=
  match m with
  | MNull => Ret None
  | MInto off =>
    if off <=? Z.of_nat (length path) then Ret (Some (drop (Z.to_nat off) path)) else Fault
  | MRoot => Ret (Some [SLASH])
  end.

(** The mount point (0 for none) and the path in it.  [want_path] is false for
    the callers that pass NULL for [mount_path]. *)
Definition vfs_mount_get (mt : mounts) (path : cstring) (want_path : bool)
    : outcome (Z * option cstring) :=
  '(mp, _, mpath) ← mount_get_loop (S (size (mt_heap mt))) (mt_heap mt) path (mt_head mt)
                      (0, 0, MNull);
  mount_path ← (if want_path then mpath_dup path mpath else Ret None);
  Ret (mp, mount_path).

(** The result, errno and the table; [euid] is that of the calling task. *)
Definition vfs_umount (mt : mounts) (errno euid : Z) (target : cstring)
    : outcome (Z * Z * mounts) :=
  if negb (euid =? 0) then Ret (-1, EPERM, mt) else
  '(mp, _) ← vfs_mount_get mt target false;
  if mp =? 0 then Ret (-1, EINVAL, mt) else
  n ← load_node (mt_heap mt) mp;
  r ← strcmp (buf (mp_path (nd_data n))) (buf [SLASH]) 0 0;
  if r =? 0 then Ret (-1, EBUSY, mt) else
  '(h, head) ← list_unlink (mt_heap mt) (mt_head mt) mp;
  mounted ← (if nz (mp_dev (nd_data n))
             then set_mounted (mt_mounted mt) (mp_dev (nd_data n)) false
             else Ret (mt_mounted mt));
  Ret (0, errno, Mounts h head mounted).

(** * Specification *)

(** The table represents the sequence [l] of mount points; their paths are not
    empty and consist of characters. *)
Record mounts_rep (mt : mounts) (l : list (Z * vfs_mountpoint)) : Prop := {
  mr_list : list_rep (mt_heap mt) (mt_head mt) l;
  mr_paths : Forall (fun e => path_ok (mp_path e.2) /\ 0 < Z.of_nat (length (mp_path e.2)) < 265) l;
  mr_devs : Forall (fun e => mp_dev e.2 <> 0 -> is_Some (mt_mounted mt !! mp_dev e.2)) l;
}.

(** The path lies at or below the mount point, by components. *)
Definition under (mp path : cstring) : Prop :=
  mp = [SLASH] \/ path = mp \/ exists r, path = mp ++ SLASH :: r.

(** What the code tests: all but the last character of the mount point. *)
Definition near (path mp : cstring) : bool :=
  bool_decide (take (length mp - 1) (buf path) = take (length mp - 1) (buf mp)).

(** No mount point passes the test of the code without containing the path. *)
Definition no_near_miss (l : list (Z * vfs_mountpoint)) (path : cstring) : Prop :=
  forall a m, (a, m) ∈ l -> near path (mp_path m) = true -> under (mp_path m) path.

(** One turn of the loop of [vfs_mount_get], on the sequence. *)
Definition consider (path : cstring) (found : Z * Z * mpath_ptr) (e : Z * vfs_mountpoint)
    : Z * Z * mpath_ptr :=
  let '(_, match_len, _) := found in
  let plen := Z.of_nat (length (mp_path e.2)) in
  if near path (mp_path e.2) && (match_len <? plen)
  then (e.1, plen,
        if 0 <? u32 (Z.of_nat (length path) - plen) then MInto plen else MRoot)
  else found.

Lemma path_ok_255 s : path_ok s -> 255 ∉ s.
Proof. intros Hs Hin. apply (proj1 (Forall_forall _ _) Hs) in Hin. lia. Qed.

Lemma path_ok_cstr s : path_ok s -> cstr (buf s) 0 s.
Proof. intros Hs. apply cstr_of. eapply Forall_impl; [exact Hs |]. simpl. lia. Qed.

Lemma strlen_path s : path_ok s -> strlen (buf s) 0 = Ret (Z.of_nat (length s)).
Proof. intros Hs. apply strlen_spec; [by apply path_ok_cstr | by apply path_ok_255]. Qed.

Lemma mount_get_loop_spec h path l pr cur last found fuel :
  path_ok path -> lseg h pr cur l last 0 ->
  Forall (fun e => path_ok (mp_path e.2) /\ 0 < Z.of_nat (length (mp_path e.2)) < 265) l ->
  (length l < fuel)%nat ->
  mount_get_loop fuel h path cur found = Ret (fold_left (consider path) l found).
Proof.
  intros Hp. revert pr cur found fuel.
  induction l as [| [a m] l IH]; intros pr cur found fuel Hl Hok Hf;
    (destruct fuel as [| fuel]; [simpl in Hf; lia |]); cbn [mount_get_loop fold_left].
  { destruct Hl as [-> _]. done. }
  destruct Hl as (-> & Ha & nx & Hnx & Hl). apply Forall_cons in Hok as [[Hm Hlen] Hok].
  cbn [snd] in Hm, Hlen. destruct (Z.eqb_spec a 0); [done |]. unfold load_node. rewrite Hnx, bind_Ret.
  cbn [nd_data nd_next]. rewrite (strlen_path (mp_path m)), bind_Ret by done. rewrite u32_small by lia.
  destruct (strncmp_spec (buf path) (buf (mp_path m)) 0 0 path (mp_path m)
    (Z.of_nat (length (mp_path m)) - 1)) as (r & -> & Hr); [by apply path_ok_cstr.. | lia |].
  rewrite bind_Ret. destruct found as [[f1 f2] f3]. unfold consider at 2. cbn [fst snd].
  replace (Z.to_nat (Z.of_nat (length (mp_path m)) - 1)) with (length (mp_path m) - 1)%nat in Hr by lia.
  assert ((r =? 0) = near path (mp_path m)) as ->.
  { unfold near. destruct (Z.eqb_spec r 0); symmetry; [apply bool_decide_true | apply bool_decide_false]; tauto. }
  rewrite strlen_path by done.
  destruct (near path (mp_path m) && (f2 <? Z.of_nat (length (mp_path m)))); rewrite ?bind_Ret;
    (apply (IH a); [done | done | simpl in Hf; lia]).
Qed.

Lemma mount_get_spec mt l path want :
  mounts_rep mt l -> path_ok path ->
  vfs_mount_get mt path want =
    (let '(mp, _, mpath) := fold_left (consider path) l (0, 0, MNull) in
     p ← (if want then mpath_dup path mpath else Ret None); Ret (mp, p)).
Proof.
  intros [Hr Hok _] Hp. pose proof (list_rep_length _ _ _ Hr) as Hlen.
  destruct Hr as [_ [last Hl]]. unfold vfs_mount_get.
  erewrite mount_get_loop_spec by (done || lia). rewrite bind_Ret.
  by destruct (fold_left _ _ _) as [[mp x] mpath].
Qed.

(** What the loop has found so far: nothing, or an entry that no entry seen
    before exceeds in length. *)
Definition found_ok (path : cstring) (l : list (Z * vfs_mountpoint)) (f : Z * Z * mpath_ptr) : Prop :=
  (f = (0, 0, MNull) /\ forall a m, (a, m) ∈ l -> near path (mp_path m) = false) \/
  exists a m, (a, m) ∈ l /\ near path (mp_path m) = true /\
    f = (a, Z.of_nat (length (mp_path m)),
         if 0 <? u32 (Z.of_nat (length path) - Z.of_nat (length (mp_path m)))
         then MInto (Z.of_nat (length (mp_path m))) else MRoot) /\
    forall a' m', (a', m') ∈ l -> near path (mp_path m') = true ->
      (length (mp_path m') <= length (mp_path m))%nat.

Lemma found_ok_consider path l f e :
  0 < Z.of_nat (length (mp_path e.2)) ->
  found_ok path l f -> found_ok path (l ++ [e]) (consider path f e).
Proof.
  intros Hpos Hf. destruct e as [b mb], f as [[f1 f2] f3]. unfold consider. cbn [fst snd] in *.
  destruct (near path (mp_path mb)) eqn:Hn; cbn [andb].
  - destruct (Z.ltb_spec f2 (Z.of_nat (length (mp_path mb)))) as [Hlt | Hge].
    + right. exists b, mb. split; [set_solver |]. split; [done |]. split; [done |].
      intros a' m' [Hin | Hin]%elem_of_app Hn'.
      * destruct Hf as [[? Hno] | (a & m & _ & _ & Heq & Hmax)].
        -- rewrite (Hno _ _ Hin) in Hn'. done.
        -- simplify_eq. pose proof (Hmax _ _ Hin Hn'). lia.
      * apply list_elem_of_singleton in Hin. by simplify_eq.
    + destruct Hf as [[Heq _] | (a & m & Hin & Hnm & Heq & Hmax)]; simplify_eq; [lia |].
      right. exists a, m. split; [set_solver |]. split; [done |]. split; [done |].
      intros a' m' [Hin' | Hin']%elem_of_app Hn'; [by eapply Hmax |].
      apply list_elem_of_singleton in Hin'. simplify_eq. lia.
  - destruct Hf as [[-> Hno] | (a & m & Hin & Hnm & Heq & Hmax)].
    + left. split; [done |]. intros a' m' [Hin' | Hin']%elem_of_app; [by eapply Hno |].
      apply list_elem_of_singleton in Hin'. by simplify_eq.
    + right. exists a, m. split; [set_solver |]. split; [done |]. split; [done |].
      intros a' m' [Hin' | Hin']%elem_of_app Hn'; [by eapply Hmax |].
      apply list_elem_of_singleton in Hin'. simplify_eq. congruence.
Qed.

Lemma fold_consider_ok path l :
  Forall (fun e => 0 < Z.of_nat (length (mp_path e.2))) l ->
  found_ok path l (fold_left (consider path) l (0, 0, MNull)).
Proof.
  induction l as [| e l IH] using rev_ind; intros Hl.
  - left. split; [done |]. intros a m Hin. by apply not_elem_of_nil in Hin.
  - apply Forall_app in Hl as [Hl He]. rewrite fold_left_app. cbn [fold_left].
    apply found_ok_consider; [by inversion He | by apply IH].
Qed.

Lemma under_near mp path : mp <> [] -> under mp path -> near path mp = true.
Proof.
  intros Hne Hu. apply bool_decide_eq_true. destruct Hu as [-> | [-> | [r ->]]]; [done.. |].
  rewrite <- app_assoc, !take_app_le by lia. done.
Qed.

Lemma under_rest mp path :
  under mp path -> mp <> [] -> path <> [] -> head path = Some SLASH ->
  path = mp \/ (length mp < length path)%nat /\ path = mp ++ drop (length mp) path.
Proof.
  intros [-> | [-> | [r ->]]] Hne Hp Hh; [| by left |].
  - destruct path as [| c [| c' p]]; simplify_eq/=; [by left | right]. split; [lia | done].
  - right. rewrite length_app, drop_app_length. simpl. split; [lia | done].
Qed.

(** The owner of a path in a table: the mount point [vfs_mount_get] must give. *)
Definition owner (l : list (Z * vfs_mountpoint)) (path : cstring) (a : Z) (m : vfs_mountpoint) : Prop :=
  (a, m) ∈ l /\ under (mp_path m) path /\
  forall a' m', (a', m') ∈ l -> under (mp_path m') path ->
    (length (mp_path m') <= length (mp_path m))%nat.

Lemma mount_get_owner mt l path want :
  mounts_rep mt l -> path_ok path -> Z.of_nat (length path) < 2 ^ 31 -> no_near_miss l path ->
  (exists a m, (a, m) ∈ l /\ mp_path m = [SLASH]) -> head path = Some SLASH ->
  exists a m rest, owner l path a m /\
    vfs_mount_get mt path want = Ret (a, if want then Some rest else None) /\
    (path = mp_path m /\ rest = [SLASH] \/ path = mp_path m ++ rest /\ rest <> []).
Proof.
  intros Hr Hp Hlen Hnm (a0 & m0 & Hin0 & Hroot) Hh. rewrite (mount_get_spec mt l) by done.
  pose proof (mr_paths _ _ Hr) as Hok.
  assert (forall a m, (a, m) ∈ l -> path_ok (mp_path m) /\ 0 < Z.of_nat (length (mp_path m)) < 265)
    as Hok' by (intros a m Hin; apply (proj1 (Forall_forall _ _) Hok _ Hin)).
  destruct (fold_consider_ok path l) as [[_ Hno] | (a & m & Hin & Hn & Heq & Hmax)].
  { eapply Forall_impl; [exact Hok |]. simpl. lia. }
  { pose proof (Hno _ _ Hin0) as Hf. rewrite under_near in Hf; [done | by rewrite Hroot | by left]. }
  rewrite Heq. destruct (Hok' _ _ Hin) as [_ Hml].
  assert (mp_path m <> []) as Hne by (intros E; rewrite E in Hml; simpl in Hml; lia).
  pose proof (Hnm _ _ Hin Hn) as Hu.
  assert (owner l path a m) as Ho.
  { split; [done |]. split; [done |]. intros a' m' Hin' Hu'. apply (Hmax a'); [done |].
    apply under_near; [| done]. destruct (Hok' _ _ Hin') as [_ ?]. intros E. rewrite E in *. simpl in *. lia. }
  destruct (under_rest _ _ Hu Hne) as [-> | [Hlt Heqp]]; [by intros -> | done | |].
  - exists a, m, [SLASH]. split; [done |]. rewrite Z.sub_diag. split; [by destruct want | by left].
  - exists a, m, (drop (length (mp_path m)) path). split; [done |]. split.
    + rewrite u32_small by lia. destruct (Z.ltb_spec 0 (Z.of_nat (length path) - Z.of_nat (length (mp_path m)))); [| lia].
      cbn [mpath_dup]. destruct (Z.leb_spec (Z.of_nat (length (mp_path m))) (Z.of_nat (length path))); [| lia].
      rewrite Nat2Z.id. by destruct want.
    + right. split; [done |]. intros E. apply (f_equal length) in E. rewrite length_drop in E. simpl in E. lia.
Qed.

(** C29: in a table with a root mount in which no mount point passes the prefix
    test without containing the path, [vfs_mount_get] gives the deepest mount
    point the absolute path lies under (by components), and what follows it in
    the path, or [/] for the mount point itself. *)
Theorem mount_lookup_deepest mt l path :
  mounts_rep mt l -> path_ok path -> Z.of_nat (length path) < 2 ^ 31 -> no_near_miss l path ->
  (exists a m, (a, m) ∈ l /\ mp_path m = [SLASH]) -> head path = Some SLASH ->
  exists a m rest, owner l path a m /\ vfs_mount_get mt path true = Ret (a, Some rest) /\
    (path = mp_path m /\ rest = [SLASH] \/ path = mp_path m ++ rest /\ rest <> []).
Proof. apply (mount_get_owner mt l path true). Qed.

(** A table with / on device 7 and /dev, both in a heap of two nodes. *)
Definition mounts_ex : mounts :=
  Mounts (<[0x200 := Node 0 0x100 (Mountpoint [47; 100; 101; 118] 0 [115] 0 no_callbacks)]>
           (<[0x100 := Node 0x200 0 (Mountpoint [47] 1 [101] 7 no_callbacks)]> ∅))
         0x200 (<[7 := true]> ∅).

Definition mounts_ex_list : list (Z * vfs_mountpoint) :=
  [(0x200, Mountpoint [47; 100; 101; 118] 0 [115] 0 no_callbacks);
   (0x100, Mountpoint [47] 1 [101] 7 no_callbacks)].

Lemma mounts_ex_rep : mounts_rep mounts_ex mounts_ex_list.
Proof.
  split.
  - split; [apply (bool_decide_unpack _); vm_compute; done |]. exists 0x100. simpl.
    split; [done |]. split; [done |]. eexists. split; [reflexivity |].
    split; [done |]. split; [done |]. eexists. split; [reflexivity |]. done.
  - repeat constructor; simpl; lia.
  - repeat constructor; simpl; [done |]. intros _. by exists true.
Qed.

(** The path /dev/a has no near miss in it. *)
Lemma mounts_ex_near : no_near_miss mounts_ex_list [47; 100; 101; 118; 47; 97].
Proof.
  intros a m Hin _. unfold mounts_ex_list in Hin.
  apply elem_of_cons in Hin as [Hin | Hin]; [simplify_eq |].
  2: { apply elem_of_cons in Hin as [Hin | Hin%not_elem_of_nil]; [simplify_eq; by left | done]. }
  right. right. by exists [97].
Qed.

Lemma mount_lookup_deepest_witness :
  exists a m rest, owner mounts_ex_list [47; 100; 101; 118; 47; 97] a m /\
    vfs_mount_get mounts_ex [47; 100; 101; 118; 47; 97] true = Ret (a, Some rest) /\
    ([47; 100; 101; 118; 47; 97] = mp_path m /\ rest = [SLASH] \/
     [47; 100; 101; 118; 47; 97] = mp_path m ++ rest /\ rest <> []).
Proof.
  apply (mount_lookup_deepest mounts_ex mounts_ex_list).
  - apply mounts_ex_rep.
  - repeat constructor; lia.
  - simpl. lia.
  - apply mounts_ex_near.
  - do 2 eexists. split; [right; left |]. done.
  - done.
Defined.

(** The [mounted] flags after [if(dev) dev->mounted = b]. *)
Definition mark (m : gmap Z bool) (dev : Z) (b : bool) : gmap Z bool :=
  if nz dev then <[dev := b]> m else m.

Lemma mark_spec m dev b :
  (dev <> 0 -> is_Some (m !! dev)) ->
  (if nz dev then set_mounted m dev b else Ret m) = Ret (mark m dev b).
Proof.
  intros Hd. unfold mark, set_mounted. destruct (nz dev) eqn:E; [| done].
  apply nz_true in E. destruct (Hd E) as [x ->]. done.
Qed.

Lemma mark_known m dev b d : is_Some (m !! d) -> is_Some (mark m dev b !! d).
Proof.
  intros Hd. unfold mark. destruct (nz dev); [| done].
  destruct (decide (dev = d)) as [-> |]; [rewrite lookup_insert_eq | rewrite lookup_insert_ne]; eauto.
Qed.

Lemma mount_register_spec mt l mp dev path instance type callbacks :
  mounts_rep mt l -> mp <> 0 -> mt_heap mt !! mp = None ->
  (dev <> 0 -> is_Some (mt_mounted mt !! dev)) -> path_ok path ->
  0 < Z.of_nat (length path) < 265 -> Z.of_nat (length type) < 50 ->
  exists mt', vfs_mount_register mt mp dev path instance type callbacks = Ret (0, mt') /\
    mounts_rep mt' ((mp, Mountpoint path instance type dev callbacks) :: l) /\
    mt_mounted mt' = mark (mt_mounted mt) dev true.
Proof.
  intros [Hr Hok Hdv] Hmp Hfree Hdev Hp Hlen Ht.
  destruct (list_push_spec _ _ _ mp (Mountpoint path instance type dev callbacks) Hr Hmp Hfree)
    as (h' & Hpush & Hr' & _).
  unfold vfs_mount_register, copy_name. rewrite mark_spec by done.
  rewrite bind_Ret. destruct (Z.eqb_spec mp 0); [done |].
  destruct (Z.ltb_spec (Z.of_nat (length type)) 50); [| lia].
  destruct (Z.ltb_spec (Z.of_nat (length path)) 265); [| lia].
  rewrite !bind_Ret, Hpush, bind_Ret. eexists. split; [done |]. split; [| done].
  split; [done | |]; constructor; try done; simpl.
  - intros Hd. apply mark_known. by apply Hdev.
  - eapply Forall_impl; [exact Hdv |]. intros e He Hne. apply mark_known. by apply He.
Qed.

(** root can unmount: on a path without near misses [vfs_umount] takes
    exactly the mount point that owns the path out of the table and marks its
    device as free; the root file system is refused with EBUSY.  Every other
    task gets EPERM. *)
Theorem umount_removes_owner mt l errno euid target :
  mounts_rep mt l -> path_ok target -> Z.of_nat (length target) < 2 ^ 31 ->
  no_near_miss l target -> (exists a m, (a, m) ∈ l /\ mp_path m = [SLASH]) ->
  head target = Some SLASH ->
  (euid <> 0 -> vfs_umount mt errno euid target = Ret (-1, EPERM, mt)) /\
  exists l1 a m l2, l = l1 ++ (a, m) :: l2 /\ owner l target a m /\
    if bool_decide (mp_path m = [SLASH])
    then vfs_umount mt errno 0 target = Ret (-1, EBUSY, mt)
    else exists mt', vfs_umount mt errno 0 target = Ret (0, errno, mt') /\
      mounts_rep mt' (l1 ++ l2) /\
      mt_mounted mt' = mark (mt_mounted mt) (mp_dev m) false.
Proof.
  intros Hrep Hp Hlen Hnm Hroot Hh. split.
  { intros He. unfold vfs_umount. destruct (Z.eqb_spec euid 0); done. }
  destruct (mount_get_owner mt l target false) as (a & m & rest & Ho & Hget & _); try done.
  destruct Ho as [Hin Ho]. pose proof Hin as [l1 [l2 Hl]]%list_elem_of_split.
  exists l1, a, m, l2. split; [done |]. split; [done |].
  destruct Hrep as [Hr Hok Hdv]. destruct (list_rep_lookup _ _ _ _ _ Hr Hin) as (Ha & n & Hn & Hd).
  unfold vfs_umount. rewrite Hget. cbn [negb Z.eqb]. rewrite bind_Ret.
  destruct (Z.eqb_spec a 0); [done |]. unfold load_node. rewrite Hn, bind_Ret, Hd.
  destruct (proj1 (Forall_forall _ _) Hok _ Hin) as [Hmp _]. cbn [snd] in Hmp.
  rewrite (strcmp_spec _ _ 0 0 (mp_path m) [SLASH]); [| by apply path_ok_cstr |].
  2: { apply path_ok_cstr. repeat constructor; unfold SLASH; lia. }
  rewrite bind_Ret. case_bool_decide as Hs.
  { destruct (Z.eqb_spec (cmp_str (mp_path m) [SLASH]) 0) as [_ | E]; [done |].
    by apply cmp_str_0 in Hs. }
  destruct (Z.eqb_spec (cmp_str (mp_path m) [SLASH]) 0) as [E%cmp_str_0 | _]; [done |].
  rewrite Hl in Hr. destruct (list_unlink_spec _ _ _ _ _ _ Hr) as (h' & head' & Hu & Hr' & _).
  rewrite Hu, bind_Ret, mark_spec by apply (proj1 (Forall_forall _ _) Hdv _ Hin).
  rewrite bind_Ret. eexists. split; [done |]. split; [| done].
  rewrite Hl in Hok, Hdv. apply Forall_app in Hok as [Hok1 [_ Hok2]%Forall_cons].
  apply Forall_app in Hdv as [Hd1 [_ Hd2]%Forall_cons].
  split; [done | by apply Forall_app_2 |]. simpl.
  eapply Forall_impl; [by apply Forall_app_2 |]. intros e He Hne. apply mark_known. by apply He.
Qed.

Lemma umount_removes_owner_witness :
  (1000 <> 0 -> vfs_umount mounts_ex 0 1000 [47; 100; 101; 118; 47; 97] = Ret (-1, EPERM, mounts_ex)) /\
  exists l1 a m l2, mounts_ex_list = l1 ++ (a, m) :: l2 /\
    owner mounts_ex_list [47; 100; 101; 118; 47; 97] a m /\
    if bool_decide (mp_path m = [SLASH])
    then vfs_umount mounts_ex 0 0 [47; 100; 101; 118; 47; 97] = Ret (-1, EBUSY, mounts_ex)
    else exists mt', vfs_umount mounts_ex 0 0 [47; 100; 101; 118; 47; 97] = Ret (0, 0, mt') /\
      mounts_rep mt' (l1 ++ l2) /\
      mt_mounted mt' = mark (mt_mounted mounts_ex) (mp_dev m) false.
Proof.
  apply (umount_removes_owner mounts_ex mounts_ex_list 0 1000).
  - apply mounts_ex_rep.
  - repeat constructor; lia.
  - simpl. lia.
  - apply mounts_ex_near.
  - do 2 eexists. split; [right; left |]. done.
  - done.
Defined.

(** Without the hypothesis the lookup leaves the file system: in this table
    /dex is answered with the root of /dev, and /de with a read behind the end
    of the path. *)
Lemma mount_get_near_miss :
  vfs_mount_get mounts_ex [47; 100; 101; 120] true = Ret (0x200, Some [SLASH]) /\
  vfs_mount_get mounts_ex [47; 100; 101] true = Fault.
Proof. split; vm_compute; reflexivity. Qed.

(** Unmounting any path below a mount point unmounts it, and /dex unmounts /dev. *)
Lemma umount_near_miss :
  exists mt', vfs_umount mounts_ex 0 0 [47; 100; 101; 120] = Ret (0, 0, mt') /\
    mt_head mt' = 0x100 /\ mt_heap mt' !! 0x200 = None.
Proof. eexists. split; [vm_compute; reflexivity |]. split; reflexivity. Qed.
