(* ===== verification/Vfs.v ===== *)
(** The virtual file system: src/src/fs/vfs.c (the normalisation of paths is in
    Path.v, the mount table in Mount.v) and [vfs_mount] of src/src/fs/mount.c.

    A task has a table of open files; a descriptor is an index into it and may
    be a duplicate, that is, point to another descriptor ([dup_target]).  The
    file systems are reached through function pointers: the class [VfsBackend]
    says what calling one does.  [vfs_state] is the part of the kernel's state
    the vfs works on; [vs_world] is everything else the callbacks can change. *)
From stdpp Require Import base numbers list gmap.
From Stdlib Require Import ZArith Lia Bool.
From S2P Require Import Prelude DList Str Path Mount.

Open Scope Z_scope.

Definition CONFIG_VFS_MAX_OPENFILES : Z := 500.

Definition VFS_SEEK_SET : Z := 0.
Definition VFS_SEEK_CUR : Z := 1.
Definition VFS_SEEK_END : Z := 2.

Definition FT_IFSOCK : Z := 0xC000.
Definition FT_IFREG : Z := 0x8000.
Definition FT_IFDIR : Z := 0x4000.
Definition FT_IFCHR : Z := 0x2000.
Definition FT_IFPIPE : Z := 0x2001.

Definition O_RDONLY : Z := 0.
Definition O_WRONLY : Z := 1.
Definition O_RDWR : Z := 2.
Definition O_APPEND : Z := 0x0008.
Definition O_NONBLOCK : Z := 0x4000.
Definition O_CLOEXEC : Z := 0x80000.

Definition F_DUPFD : Z := 0.
Definition F_GETFD : Z := 1.
Definition F_SETFD : Z := 2.
Definition F_GETFL : Z := 3.
Definition F_SETFL : Z := 4.
Definition F_GETPATH : Z := 15.

Definition VFS_PATH_MAX : Z := 1024.

(** [vfs_file_t] *)
Record vfs_file : Type := File {
  f_refs : Z;
  f_dup_target : Z;
  f_type : Z;
  f_num : Z;
  f_path : cstring;
  f_mount_path : cstring;
  f_mp : Z;
  f_mount_instance : Z;
  f_callbacks : vfs_callbacks;
  f_flags : Z;
  f_offset : Z;
  f_inode : Z;
  f_meta : Z;
}.

(** A slot after [bzero]. *)
Definition zero_file : vfs_file := File 0 0 0 0 [] [] 0 0 no_callbacks 0 0 0 0.

Definition with_refs (f : vfs_file) (refs : Z) : vfs_file :=
  File refs (f_dup_target f) (f_type f) (f_num f) (f_path f) (f_mount_path f) (f_mp f)
    (f_mount_instance f) (f_callbacks f) (f_flags f) (f_offset f) (f_inode f) (f_meta f).

Definition with_num (f : vfs_file) (num : Z) : vfs_file :=
  File (f_refs f) (f_dup_target f) (f_type f) num (f_path f) (f_mount_path f) (f_mp f)
    (f_mount_instance f) (f_callbacks f) (f_flags f) (f_offset f) (f_inode f) (f_meta f).

Definition with_dup (f : vfs_file) (t : Z) : vfs_file :=
  File (f_refs f) t (f_type f) (f_num f) (f_path f) (f_mount_path f) (f_mp f)
    (f_mount_instance f) (f_callbacks f) (f_flags f) (f_offset f) (f_inode f) (f_meta f).

Definition with_flags (f : vfs_file) (flags : Z) : vfs_file :=
  File (f_refs f) (f_dup_target f) (f_type f) (f_num f) (f_path f) (f_mount_path f) (f_mp f)
    (f_mount_instance f) (f_callbacks f) flags (f_offset f) (f_inode f) (f_meta f).

Definition with_offset (f : vfs_file) (offset : Z) : vfs_file :=
  File (f_refs f) (f_dup_target f) (f_type f) (f_num f) (f_path f) (f_mount_path f) (f_mp f)
    (f_mount_instance f) (f_callbacks f) (f_flags f) offset (f_inode f) (f_meta f).

(** What [vfs_open] fills in after the callback has allocated the file. *)
Definition with_open (f : vfs_file) (path mount_path : cstring) (mp instance flags : Z)
    : vfs_file :=
  File (f_refs f) (f_dup_target f) (f_type f) (f_num f) path mount_path mp instance
    (f_callbacks f) flags (f_offset f) (f_inode f) (f_meta f).

(** The fields of [vfs_stat_t] the kernel itself fills in or reads. *)
Record vfs_stat_t : Type := Stat {
  st_dev : Z; st_ino : Z; st_mode : Z; st_nlink : Z; st_uid : Z; st_gid : Z; st_rdev : Z;
  st_size : Z; st_atime : Z; st_mtime : Z; st_ctime : Z; st_blksize : Z; st_blocks : Z;
}.

(** [struct vfs_callback_ctx]; [ctx_fp] is the index of the file. *)
Record vfs_callback_ctx : Type := Ctx {
  ctx_fp : option nat;
  ctx_orig_path : cstring;
  ctx_path : cstring;
  ctx_mp : Z;
}.

(** The calls to a file system that return a number. *)
Inductive vfs_call : Type :=
  | CAccess (amode : Z)
  | CRead (dest size : Z)
  | CWrite (source size : Z)
  | CGetdents (dest size : Z)
  | CMkdir (mode : Z)
  | CUnlink
  | CChmod (mode : Z)
  | CChown (owner group : Z)
  | CUtimes (times : Z)
  | CLink (new_path : option cstring)
  | CReadlink (buf size : Z)
  | CRmdir
  | CIoctl (request arg : Z).

(** The task (its file table, or [kernel_files] when there is none), errno and
    the mount table. *)
Record vfs_state (W : Type) : Type := State {
  vs_task : bool;
  vs_files : list vfs_file;
  vs_cwd : cstring;
  vs_ctty : Z;
  vs_euid : Z;
  vs_errno : Z;
  vs_mounts : mounts;
  vs_world : W;
}.

Arguments State {W} vs_task vs_files vs_cwd vs_ctty vs_euid vs_errno vs_mounts vs_world.
Arguments vs_task {W} v.
Arguments vs_files {W} v.
Arguments vs_cwd {W} v.
Arguments vs_ctty {W} v.
Arguments vs_euid {W} v.
Arguments vs_errno {W} v.
Arguments vs_mounts {W} v.
Arguments vs_world {W} v.

(** What calling a function pointer of a file system does, and the few other
    services of the kernel the vfs uses. *)
Class VfsBackend (W : Type) : Type := {
  call : Z -> vfs_callback_ctx -> vfs_call -> vfs_state W -> outcome (Z * vfs_state W);
  (* with what [ctx->path] is afterwards *)
  call_open : Z -> vfs_callback_ctx -> Z -> vfs_state W -> outcome (option nat * cstring * vfs_state W);
  call_stat : Z -> vfs_callback_ctx -> vfs_state W -> outcome (Z * vfs_stat_t * vfs_state W);
  (* [net_vfs_close_cb] of net/socket.c *)
  net_vfs_close_cb : nat -> vfs_state W -> outcome (Z * vfs_state W);
  (* [vm_map] of a user buffer into the kernel; 0 when it fails *)
  vm_map_user : Z -> Z -> vfs_state W -> outcome (Z * vfs_state W);
  task_signal_segv : vfs_state W -> outcome (vfs_state W);
  (* [strlcpy] to such an address *)
  store_string : Z -> cstring -> Z -> vfs_state W -> outcome (Z * vfs_state W);
  (* [vfs_block_get_dev] and [ext2_mount] *)
  block_get_dev : cstring -> vfs_state W -> Z;
  ext2_mount : Z -> cstring -> vfs_state W -> outcome (Z * vfs_state W);
}.

Section Vfs.
Context {W : Type} `{VfsBackend W}.
Implicit Types st : vfs_state W.

Definition set_files st (files : list vfs_file) : vfs_state W :=
  State (vs_task st) files (vs_cwd st) (vs_ctty st) (vs_euid st) (vs_errno st) (vs_mounts st)
    (vs_world st).

(** [sc_errno = e] *)
Definition set_errno st (e : Z) : vfs_state W :=
  State (vs_task st) (vs_files st) (vs_cwd st) (vs_ctty st) (vs_euid st) e (vs_mounts st)
    (vs_world st).

Definition set_ctty st (t : Z) : vfs_state W :=
  State (vs_task st) (vs_files st) (vs_cwd st) t (vs_euid st) (vs_errno st) (vs_mounts st)
    (vs_world st).

(** [sc_errno = e; return -1;] *)
Definition fail st (e : Z) : outcome (Z * vfs_state W) := Ret (-1, set_errno st e).

(** The same for the calls that return a [size_t]. *)
Definition fail_size st (e : Z) : outcome (Z * vfs_state W) := Ret (u32 (-1), set_errno st e).

(** An update of the file at an index. *)
Definition update st (i : nat) (g : vfs_file -> vfs_file) : outcome (vfs_state W) :=
  f ← aload (vs_files st) (Z.of_nat i);
  Ret (set_files st (<[i := g f]> (vs_files st))).

(** * Descriptors *)

(** The tail recursion of [vfs_get_from_id] along the duplicates. *)
Fixpoint get_from_id (fuel : nat) (files : list vfs_file) (fd : Z) : outcome (option nat) :=
  match fuel with
  | O => Spin
  | S fuel =>
    if (fd <? 0) || (CONFIG_VFS_MAX_OPENFILES <=? fd) then Ret None else
    fp ← aload files fd;
    if f_refs fp =? 0 then Ret None
    else if nz (f_dup_target fp) then get_from_id fuel files (f_dup_target fp)
    else Ret (Some (Z.to_nat fd))
  end.

Definition vfs_get_from_id st (fd : Z) : outcome (option nat) :=
  get_from_id (S (length (vs_files st))) (vs_files st) fd.

(** The loop of [vfs_alloc_fileno] from descriptor [i] on. *)
Fixpoint alloc_loop (fuel : nat) (files : list vfs_file) (i : Z) : outcome (option Z) :=
  match fuel with
  | O => Spin
  | S fuel =>
    if i <? CONFIG_VFS_MAX_OPENFILES then
      file ← aload files i;
      if f_refs file =? 0 then Ret (Some i) else alloc_loop fuel files (i + 1)
    else Ret None
  end.

Definition vfs_alloc_fileno st (min : Z) : outcome (option nat * vfs_state W) :=
  r ← alloc_loop (S (Z.to_nat (CONFIG_VFS_MAX_OPENFILES - min))) (vs_files st) min;
  match r with
  | None => Ret (None, set_errno st ENFILE)
  | Some i =>
    st ← update st (Z.to_nat i) (fun f => with_num (with_refs f 1) i);
    Ret (Some (Z.to_nat i), st)
  end.

(** * Contexts *)

Definition vfs_context_from_fd st (fd : Z) : outcome (option (vfs_callback_ctx * vfs_file)) :=
  r ← vfs_get_from_id st fd;
  match r with
  | None => Ret None
  | Some i =>
    fp ← aload (vs_files st) (Z.of_nat i);
    Ret (Some (Ctx (Some i) (f_path fp) (f_mount_path fp) (f_mp fp), fp))
  end.

Definition cwd_of st : cstring := if vs_task st then vs_cwd st else [SLASH].

Definition vfs_context_from_path st (path : cstring)
    : outcome (option vfs_callback_ctx * vfs_state W) :=
  orig_path ← vfs_normalize_path path (cwd_of st);
  '(mp, mpath) ← vfs_mount_get (vs_mounts st) orig_path true;
  match mpath with
  | Some mpath =>
    if mp =? 0 then Ret (None, set_errno st ENOENT)
    else Ret (Some (Ctx None orig_path mpath mp), st)
  | None => Ret (None, set_errno st ENOENT)
  end.

(** [ctx->mp] *)
Definition ctx_mount st (ctx : vfs_callback_ctx) : outcome vfs_mountpoint :=
  n ← load_node (mt_heap (vs_mounts st)) (ctx_mp ctx); Ret (nd_data n).

(** The calls on an open file. *)
Definition vfs_fstat st (fd : Z) : outcome (Z * option vfs_stat_t * vfs_state W) :=
  r ← vfs_context_from_fd st fd;
  match r with
  | None => Ret (-1, None, set_errno st EBADF)
  | Some (ctx, fp) =>
    if cb_stat (f_callbacks fp) =? 0 then Ret (-1, None, set_errno st ENOSYS) else
    '(r, stat, st) ← call_stat (cb_stat (f_callbacks fp)) ctx st;
    Ret (r, Some stat, st)
  end.

(** [offset] is a [size_t], so [offset < 0] never holds. *)
Definition vfs_seek st (fd offset origin : Z) : outcome (Z * vfs_state W) :=
  r ← vfs_get_from_id st fd;
  match r with
  | None => fail st EBADF
  | Some i =>
    fp ← aload (vs_files st) (Z.of_nat i);
    '(ok, st) ←
      (if origin =? VFS_SEEK_SET then
         st ← update st i (fun f => with_offset f offset); Ret (true, st)
       else if origin =? VFS_SEEK_CUR then
         st ← update st i (fun f => with_offset f (u64 (f_offset f + offset))); Ret (true, st)
       else if origin =? VFS_SEEK_END then
         '(r, stat, st) ← vfs_fstat st (s32 (f_num fp));
         if r <? 0 then Ret (false, st) else
         match stat with
         | Some stat =>
           st ← update st i (fun f => with_offset f (u32 (st_size stat + offset)));
           Ret (true, st)
         | None => Fault
         end
       else Ret (true, st));
    if (ok : bool) then
      fp ← aload (vs_files st) (Z.of_nat i);
      Ret (s32 (f_offset fp), st)
    else Ret (-1, st)
  end.

Definition vfs_open st (orig_path : cstring) (flags : Z) : outcome (Z * vfs_state W) :=
  if bool_decide (orig_path = []) then fail st ENOENT else
  '(r, st) ← vfs_context_from_path st orig_path;
  match r with
  | None => Ret (-1, st)
  | Some ctx =>
    mp ← ctx_mount st ctx;
    if cb_open (mp_callbacks mp) =? 0 then fail st ENOSYS else
    '(fp, cpath, st) ← call_open (cb_open (mp_callbacks mp)) ctx flags st;
    match fp with
    | None => Ret (-1, st)
    | Some i =>
      path ← copy_name 512 (ctx_orig_path ctx);
      mount_path ← copy_name 512 cpath;
      l ← strlen (buf mount_path) 0;
      f ← aload (vs_files st) (Z.of_nat i);
      let instance := if l =? 0 then mp_instance mp else f_mount_instance f in
      st ← update st i (fun f => with_open f path mount_path (ctx_mp ctx) instance flags);
      st ← (if has_flag flags O_APPEND
            then '(_, st) ← vfs_seek st (s32 (f_num f)) 0 VFS_SEEK_END; Ret st
            else Ret st);
      f ← aload (vs_files st) (Z.of_nat i);
      Ret (s32 (f_num f), st)
    end
  end.

(** [dest] and [source] are addresses, 0 for NULL. *)
Definition vfs_read st (fd dest size : Z) : outcome (Z * vfs_state W) :=
  if (dest =? 0) && nz size then fail_size st EINVAL else
  r ← vfs_context_from_fd st fd;
  match r with
  | None => fail_size st EBADF
  | Some (ctx, fp) =>
    if has_flag (f_flags fp) O_WRONLY then fail_size st EBADF
    else if cb_read (f_callbacks fp) =? 0 then fail_size st ENOSYS
    else if size =? 0 then Ret (0, st) else
    '(read, st) ← call (cb_read (f_callbacks fp)) ctx (CRead dest size) st;
    i ← match ctx_fp ctx with Some i => Ret i | None => Fault end;
    st ← update st i (fun f => with_offset f (u64 (f_offset f + read)));
    Ret (read, st)
  end.

Definition vfs_write st (fd source size : Z) : outcome (Z * vfs_state W) :=
  if (source =? 0) && nz size then fail_size st EINVAL else
  r ← vfs_context_from_fd st fd;
  match r with
  | None => fail_size st EBADF
  | Some (ctx, fp) =>
    if has_flag (f_flags fp) O_RDONLY then fail_size st EBADF
    else if cb_write (f_callbacks fp) =? 0 then fail_size st ENOSYS
    else if size =? 0 then Ret (0, st) else
    '(written, st) ← call (cb_write (f_callbacks fp)) ctx (CWrite source size) st;
    i ← match ctx_fp ctx with Some i => Ret i | None => Fault end;
    st ← update st i (fun f => with_offset f (u64 (f_offset f + written)));
    Ret (written, st)
  end.

Definition vfs_getdents st (fd dest size : Z) : outcome (Z * vfs_state W) :=
  r ← vfs_context_from_fd st fd;
  match r with
  | None => fail_size st EBADF
  | Some (ctx, fp) =>
    if cb_getdents (f_callbacks fp) =? 0 then fail_size st ENOSYS
    else call (cb_getdents (f_callbacks fp)) ctx (CGetdents dest size) st
  end.

Definition vfs_ioctl st (fd request arg : Z) : outcome (Z * vfs_state W) :=
  r ← vfs_context_from_fd st fd;
  match r with
  | None => fail st EBADF
  | Some (ctx, fp) =>
    if cb_ioctl (f_callbacks fp) =? 0 then fail st ENOSYS
    else call (cb_ioctl (f_callbacks fp)) ctx (CIoctl request arg) st
  end.

(** The recursion on a duplicate is bounded by the number of descriptors. *)
Fixpoint close_loop (fuel : nat) st (fd : Z) : outcome (Z * vfs_state W) :=
  match fuel with
  | O => Spin
  | S fuel =>
    r ← vfs_get_from_id st fd;
    match r with
    | None => fail st EBADF
    | Some i =>
      st ← update st i (fun f => with_refs f (f_refs f - 1));
      fp ← aload (vs_files st) (Z.of_nat i);
      if negb (f_refs fp =? 0) then Ret (0, st) else
      st ← (if nz (f_dup_target fp)
            then '(_, st) ← close_loop fuel st (f_dup_target fp); Ret st
            else Ret st);
      '(r, st) ← (if f_type fp =? FT_IFSOCK then net_vfs_close_cb i st else Ret (0, st));
      if r <? 0 then Ret (r, st) else
      st ← update st i (fun _ => zero_file);
      Ret (0, st)
    end
  end.

Definition vfs_close st (fd : Z) : outcome (Z * vfs_state W) :=
  close_loop (S (length (vs_files st))) st fd.

Definition vfs_fcntl st (fd cmd arg3 : Z) : outcome (Z * vfs_state W) :=
  r ← vfs_get_from_id st fd;
  match r with
  | None => fail st EBADF
  | Some i =>
    fp ← aload (vs_files st) (Z.of_nat i);
    if cmd =? F_DUPFD then
      '(r, st) ← vfs_alloc_fileno st (MAX 3 arg3);
      match r with
      | None => Ret (-1, st)
      | Some j =>
        st ← update st i (fun f => with_refs f (f_refs f + 1));
        st ← update st j (fun f => with_dup f (s32 (f_num fp)));
        fp2 ← aload (vs_files st) (Z.of_nat j);
        Ret (s32 (f_num fp2), st)
      end
    else if cmd =? F_GETFL then Ret (s32 (f_flags fp), st)
    else if cmd =? F_SETFL then
      st ← update st i (fun f => with_flags f
             (if has_flag (u32 arg3) O_NONBLOCK then Z.lor (f_flags f) O_NONBLOCK
              else Z.land (f_flags f) (u32 (Z.lnot O_NONBLOCK))));
      Ret (0, st)
    else if cmd =? F_GETFD then Ret (s32 (Z.land (f_flags fp) O_CLOEXEC), st)
    else if cmd =? F_SETFD then
      st ← update st i (fun f => with_flags f
             (if has_flag (u32 arg3) 1 then Z.lor (f_flags f) O_CLOEXEC
              else Z.land (f_flags f) (u32 (Z.lnot O_CLOEXEC))));
      Ret (0, st)
    else if cmd =? F_GETPATH then
      '(dest, st) ← vm_map_user (u32 arg3) VFS_PATH_MAX st;
      if dest =? 0 then st ← task_signal_segv st; fail st EFAULT
      else '(n, st) ← store_string dest (f_path fp) VFS_PATH_MAX st; Ret (s32 n, st)
    else fail st ENOSYS
  end.

(** [__sync_bool_compare_and_swap(&fp->refs, 0, 1)] *)
Definition cas_refs st (i : nat) : outcome (bool * vfs_state W) :=
  f ← aload (vs_files st) (Z.of_nat i);
  if f_refs f =? 0 then st ← update st i (fun f => with_refs f 1); Ret (true, st)
  else Ret (false, st).

Definition DEV_PTS : cstring := [47; 100; 101; 118; 47; 112; 116; 115].

(** [fd2] is used as an index without a check. *)
Definition vfs_dup2 st (fd1 fd2 : Z) : outcome (Z * vfs_state W) :=
  r ← vfs_get_from_id st fd1;
  match r with
  | None => fail st EBADF
  | Some i =>
    fp1 ← aload (vs_files st) (Z.of_nat i);
    st ← (if fd2 <=? 2 then
            c ← strncmp (buf (f_path fp1)) (buf DEV_PTS) 0 0 8;
            if c =? 0 then if vs_task st then Ret (set_ctty st (f_meta fp1)) else Fault
            else Ret st
          else Ret st);
    if (fd2 <? 0) || (Z.of_nat (length (vs_files st)) <=? fd2) then Fault else
    let j := Z.to_nat fd2 in
    '(ok, st) ← cas_refs st j;
    fp2 ← aload (vs_files st) fd2;
    if negb ok && (1 <? f_refs fp2) then fail st EIO else
    '(ok, st) ←
      (if (ok : bool) then Ret (true, st)
       else '(_, st) ← vfs_close st fd2;
            '(ok, st) ← cas_refs st j;
            Ret (ok || (fd2 <=? 2), st));
    if negb ok then fail st EIO else
    st ← update st j (fun f => with_num f fd2);
    st ← update st i (fun f => with_refs f (f_refs f + 1));
    fp1 ← aload (vs_files st) (Z.of_nat i);
    st ← update st j (fun f => with_dup f (s32 (f_num fp1)));
    Ret (0, st)
  end.

(** * Calls on paths *)

(** The common shape: look the mount point up, check that the file system has
    the callback [sel] and call it.  [badf]: whether a failed lookup is
    reported as EBADF, instead of the ENOENT the lookup sets. *)
Definition path_call (badf : bool) (sel : vfs_callbacks -> Z) st (orig_path : cstring)
    (op : vfs_call) : outcome (Z * vfs_state W) :=
  '(r, st) ← vfs_context_from_path st orig_path;
  match r with
  | None => Ret (-1, if badf then set_errno st EBADF else st)
  | Some ctx =>
    mp ← ctx_mount st ctx;
    if sel (mp_callbacks mp) =? 0 then fail st ENOSYS
    else call (sel (mp_callbacks mp)) ctx op st
  end.

Definition vfs_unlink st (orig_path : cstring) : outcome (Z * vfs_state W) :=
  path_call true cb_unlink st orig_path CUnlink.

Definition vfs_chmod st (orig_path : cstring) (mode : Z) : outcome (Z * vfs_state W) :=
  path_call true cb_chmod st orig_path (CChmod mode).

Definition vfs_chown st (orig_path : cstring) (uid gid : Z) : outcome (Z * vfs_state W) :=
  path_call true cb_chown st orig_path (CChown uid gid).

Definition vfs_mkdir st (orig_path : cstring) (mode : Z) : outcome (Z * vfs_state W) :=
  path_call true cb_mkdir st orig_path (CMkdir mode).

Definition vfs_access st (orig_path : cstring) (amode : Z) : outcome (Z * vfs_state W) :=
  path_call false cb_access st orig_path (CAccess amode).

Definition vfs_utimes st (orig_path : cstring) (times : Z) : outcome (Z * vfs_state W) :=
  path_call true cb_utimes st orig_path (CUtimes times).

Definition vfs_readlink st (path : cstring) (buf size : Z) : outcome (Z * vfs_state W) :=
  path_call false cb_readlink st path (CReadlink buf size).

Definition vfs_rmdir st (orig_path : cstring) : outcome (Z * vfs_state W) :=
  path_call true cb_rmdir st orig_path CRmdir.

(** The path is stored at [dest]. *)
Definition vfs_realpath st (orig_path : cstring) (dest : Z) : outcome (Z * vfs_state W) :=
  '(r, st) ← vfs_context_from_path st orig_path;
  match r with
  | None => Ret (-1, st)
  | Some ctx =>
    '(_, st) ← store_string dest (ctx_orig_path ctx) VFS_PATH_MAX st; Ret (0, st)
  end.

Definition vfs_stat st (orig_path : cstring) : outcome (Z * option vfs_stat_t * vfs_state W) :=
  '(r, st) ← vfs_context_from_path st orig_path;
  match r with
  | None => Ret (-1, None, set_errno st EBADF)
  | Some ctx =>
    mp ← ctx_mount st ctx;
    if cb_stat (mp_callbacks mp) =? 0 then Ret (-1, None, set_errno st ENOSYS) else
    '(r, stat, st) ← call_stat (cb_stat (mp_callbacks mp)) ctx st;
    Ret (r, Some stat, st)
  end.

Definition vfs_link st (orig_path orig_new_path : cstring) : outcome (Z * vfs_state W) :=
  '(r, st) ← vfs_context_from_path st orig_path;
  match r with
  | None => fail st EBADF
  | Some ctx =>
    mp ← ctx_mount st ctx;
    if cb_link (mp_callbacks mp) =? 0 then fail st ENOSYS else
    new_path ← vfs_normalize_path orig_new_path (cwd_of st);
    '(new_mp, new_mount_path) ← vfs_mount_get (vs_mounts st) new_path true;
    if negb (ctx_mp ctx =? new_mp) then fail st EXDEV
    else call (cb_link (mp_callbacks mp)) ctx (CLink new_mount_path) st
  end.

(** [vfs_mount] of fs/mount.c. *)
Definition vfs_mount st (source target : cstring) : outcome (Z * vfs_state W) :=
  if vs_task st && negb (vs_euid st =? 0) then fail st EPERM else
  '(ok, mnt_target, st) ←
    (if bool_decide (target = [SLASH]) then Ret (true, [SLASH], st) else
     '(r, st) ← vfs_context_from_path st target;
     match r with
     | None => Ret (false, [], set_errno st EBADF)
     | Some ctx =>
       mp ← ctx_mount st ctx;
       if cb_stat (mp_callbacks mp) =? 0 then Ret (false, [], set_errno st ENOSYS) else
       '(r, stat, st) ← call_stat (cb_stat (mp_callbacks mp)) ctx st;
       if r <? 0 then Ret (false, [], st)
       else if has_flag (st_mode stat) FT_IFDIR then Ret (true, ctx_orig_path ctx, st)
       else Ret (false, [], set_errno st ENOTDIR)
     end);
  if negb ok then Ret (-1, st) else
  let dev := block_get_dev source st in
  if dev =? 0 then fail st ENOENT else
  mounted ← match mt_mounted (vs_mounts st) !! dev with Some b => Ret b | None => Fault end;
  if (mounted : bool) then fail st EBUSY else
  ext2_mount dev mnt_target st.

End Vfs.
