(* ===== verification/VfsSpec.v ===== *)
(** Properties of the descriptor table of Vfs.v.

    The table of a task is well formed when duplicates point to descriptors
    without a cycle; every sequence of calls keeps it so, as long as no
    descriptor is duplicated onto itself, and then every lookup ends. *)
From stdpp Require Import base numbers list gmap.
From Stdlib Require Import ZArith Lia Bool.
From S2P Require Import Prelude DList Str Path Mount Vfs.

Open Scope Z_scope.

(** * The invariant of the table *)

Record slot_ok (i : nat) (f : vfs_file) : Prop := {
  sl_refs : 0 <= f_refs f;
  sl_num : f_num f = 0 \/ f_num f = Z.of_nat i;
  sl_free : f_refs f = 0 -> f_dup_target f = 0;
  sl_dup : 0 <= f_dup_target f < CONFIG_VFS_MAX_OPENFILES;
}.

Record table_inv (files : list vfs_file) : Prop := {
  ti_len : Z.of_nat (length files) = CONFIG_VFS_MAX_OPENFILES;
  ti_slot : forall i f, files !! i = Some f -> slot_ok i f;
  ti_acyclic : exists rank : nat -> nat, forall i f, files !! i = Some f ->
    f_dup_target f <> 0 -> (rank (Z.to_nat (f_dup_target f)) < rank i)%nat;
}.

(** Changing one slot. *)
Lemma table_inv_insert files j f f' :
  table_inv files -> files !! j = Some f -> slot_ok j f' ->
  f_dup_target f' = 0 \/ f_dup_target f' = f_dup_target f \/
  (exists i g, f_dup_target f' = Z.of_nat i /\ i <> j /\ files !! i = Some g /\
     f_dup_target g = 0) ->
  table_inv (<[j := f']> files).
Proof.
  intros [Hlen Hslot [rank Hrank]] Hj Hok Hd. apply lookup_lt_Some in Hj as Hlt. split.
  - by rewrite length_insert.
  - intros k g Hk. destruct (decide (j = k)) as [<- | Hne].
    + rewrite list_lookup_insert_eq in Hk by done. by simplify_eq.
    + rewrite list_lookup_insert_ne in Hk by done. by apply Hslot.
  - destruct Hd as [Hd | [Hd | (i & g & Hd & Hij & Hi & Hg)]].
    + exists rank. intros k h Hk Hh. destruct (decide (j = k)) as [<- | Hne].
      * rewrite list_lookup_insert_eq in Hk by done. by simplify_eq.
      * rewrite list_lookup_insert_ne in Hk by done. by apply Hrank.
    + exists rank. intros k h Hk Hh. destruct (decide (j = k)) as [<- | Hne].
      * rewrite list_lookup_insert_eq in Hk by done. simplify_eq. rewrite Hd in *. by apply Hrank.
      * rewrite list_lookup_insert_ne in Hk by done. by apply Hrank.
    + exists (fun k => if decide (k = i) then O else S (rank k)).
      intros k h Hk Hh. destruct (decide (j = k)) as [<- | Hne].
      * rewrite list_lookup_insert_eq in Hk by done. simplify_eq. rewrite Hd, Nat2Z.id.
        rewrite decide_True, decide_False by done. lia.
      * rewrite list_lookup_insert_ne in Hk by done. pose proof (Hrank _ _ Hk Hh).
        rewrite (decide_False (P := k = i)) by congruence.
        destruct (decide (Z.to_nat (f_dup_target h) = i)); lia.
Qed.

(** * Lookups end *)

Lemma NoDup_bounded (l : list nat) n :
  NoDup l -> (forall x, x ∈ l -> (x < n)%nat) -> (length l <= n)%nat.
Proof.
  intros Hnd Hb. rewrite <- (length_seq n 0). apply submseteq_length, NoDup_submseteq; [done |].
  intros x Hx. apply elem_of_seq. pose proof (Hb x Hx). lia.
Qed.

(** The chain of duplicates never visits a descriptor twice, so its length is
    at most the number of descriptors. *)
Lemma get_from_id_fuel files fuel seen fd (rank : nat -> nat) :
  Z.of_nat (length files) = CONFIG_VFS_MAX_OPENFILES ->
  (forall i f, files !! i = Some f -> slot_ok i f) ->
  (forall i f, files !! i = Some f -> f_dup_target f <> 0 ->
     (rank (Z.to_nat (f_dup_target f)) < rank i)%nat) ->
  NoDup seen -> (forall x, x ∈ seen -> (x < length files)%nat /\ (rank (Z.to_nat fd) < rank x)%nat) ->
  (length files < fuel + length seen)%nat ->
  exists r, get_from_id fuel files fd = Ret r /\
    forall i, r = Some i -> exists f, files !! i = Some f /\ f_refs f <> 0 /\ f_dup_target f = 0.
Proof.
  intros Hlen Hslot Hrank. revert seen fd.
  induction fuel as [| fuel IH]; intros seen fd Hnd Hseen Hf.
  { pose proof (NoDup_bounded seen (length files) Hnd ltac:(naive_solver)). lia. }
  cbn [get_from_id]. destruct (Z.ltb_spec fd 0); [by eexists |].
  destruct (Z.leb_spec CONFIG_VFS_MAX_OPENFILES fd); [by eexists |]. cbn [orb].
  destruct (aload_in files fd) as (f & -> & Hlk); [lia |]. rewrite bind_Ret.
  destruct (Z.eqb_spec (f_refs f) 0) as [| Hr]; [by eexists |].
  destruct (nz (f_dup_target f)) eqn:Hd.
  - apply nz_true in Hd. apply (IH (Z.to_nat fd :: seen)).
    + constructor; [| done]. intros Hin. pose proof (proj2 (Hseen _ Hin)). lia.
    + pose proof (Hrank _ _ Hlk Hd). apply lookup_lt_Some in Hlk.
      intros x [-> | Hx]%elem_of_cons; [lia |]. pose proof (Hseen _ Hx). lia.
    + simpl. lia.
  - apply nz_false in Hd. eexists. split; [done |]. intros i [= <-]. eauto.
Qed.

Lemma get_from_id_total files fd :
  table_inv files ->
  exists r, get_from_id (S (length files)) files fd = Ret r /\
    forall i, r = Some i -> exists f, files !! i = Some f /\ f_refs f <> 0 /\ f_dup_target f = 0.
Proof.
  intros [Hlen Hslot [rank Hrank]].
  apply (get_from_id_fuel files _ [] fd rank); try done; [constructor | | simpl; lia].
  intros x Hx. by apply not_elem_of_nil in Hx.
Qed.

(** The loop of [vfs_alloc_fileno] finds the lowest free descriptor. *)
Lemma alloc_loop_spec files fuel i :
  Z.of_nat (length files) = CONFIG_VFS_MAX_OPENFILES -> 0 <= i ->
  Z.max 0 (CONFIG_VFS_MAX_OPENFILES - i) < Z.of_nat fuel ->
  exists r, alloc_loop fuel files i = Ret r /\
    match r with
    | Some k => i <= k < CONFIG_VFS_MAX_OPENFILES /\
        (exists f, files !! Z.to_nat k = Some f /\ f_refs f = 0) /\
        forall j f, i <= j < k -> files !! Z.to_nat j = Some f -> f_refs f <> 0
    | None => forall j f, i <= j -> files !! Z.to_nat j = Some f -> f_refs f <> 0
    end.
Proof.
  intros Hlen. revert i. induction fuel as [| fuel IH]; intros i Hi Hf; cbn [alloc_loop].
  { lia. }
  destruct (Z.ltb_spec i CONFIG_VFS_MAX_OPENFILES).
  - destruct (aload_in files i) as (f & -> & Hlk); [lia |]. rewrite bind_Ret.
    destruct (Z.eqb_spec (f_refs f) 0) as [Hr | Hr].
    + eexists. split; [done |]. split; [lia |]. split; [eauto |]. intros; lia.
    + destruct (IH (i + 1)) as (r & -> & Hres); [lia.. |]. exists r. split; [done |].
      assert (forall j g, i <= j -> files !! Z.to_nat j = Some g -> j = i -> f_refs g <> 0)
        as Hhd by (intros j g _ Hg ->; congruence).
      destruct r as [k |].
      * destruct Hres as (Hk & Hfree & Hmin). split; [lia |]. split; [done |].
        intros j g Hj Hg. destruct (decide (j = i)); [eapply Hhd; eauto; lia | eapply Hmin; eauto; lia].
      * intros j g Hj Hg. destruct (decide (j = i)); [eapply Hhd; eauto | eapply Hres; eauto; lia].
  - eexists. split; [done |]. intros j g Hj Hg. apply lookup_lt_Some in Hg. lia.
Qed.

(** * Operations keep the invariant *)

(** The fields that make up the structure of the table. *)
Definition same_slot (f g : vfs_file) : Prop :=
  f_refs f = f_refs g /\ f_dup_target f = f_dup_target g /\ f_num f = f_num g.

Definition keeps {W} (st st' : vfs_state W) : Prop :=
  Forall2 same_slot (vs_files st) (vs_files st').

(** What the vfs relies on: a callback does not touch the structure of the
    table, except that [open] allocates the file it returns. *)
Class VfsBackendLaws (W : Type) `{VfsBackend W} : Prop := {
  law_call : forall p ctx op st r st', call p ctx op st = Ret (r, st') -> keeps st st';
  law_stat : forall p ctx st r s st', call_stat p ctx st = Ret (r, s, st') -> keeps st st';
  law_open : forall p ctx flags st r cp st', call_open p ctx flags st = Ret (r, cp, st') ->
    match r with
    | None => keeps st st'
    | Some i => exists st1 min st2, keeps st st1 /\ 0 <= min /\
        vfs_alloc_fileno st1 min = Ret (Some i, st2) /\ keeps st2 st'
    end;
  law_net : forall i st r st', net_vfs_close_cb i st = Ret (r, st') -> keeps st st';
  law_map : forall a n st r st', vm_map_user a n st = Ret (r, st') -> keeps st st';
  law_segv : forall st st', task_signal_segv st = Ret st' -> keeps st st';
  law_store : forall a s n st r st', store_string a s n st = Ret (r, st') -> keeps st st';
  law_mount : forall d p st r st', ext2_mount d p st = Ret (r, st') -> keeps st st';
}.

Lemma keeps_refl {W} (st : vfs_state W) : keeps st st.
Proof. apply Forall_Forall2_diag, Forall_true. done. Qed.

Lemma keeps_trans {W} (a b c : vfs_state W) : keeps a b -> keeps b c -> keeps a c.
Proof.
  unfold keeps. intros H1 H2. apply Forall2_same_length_lookup. split.
  { by rewrite (Forall2_length _ _ _ H1), (Forall2_length _ _ _ H2). }
  intros i x z Hx Hz. destruct (Forall2_lookup_l _ _ _ _ _ H1 Hx) as (y & Hy & Hxy).
  destruct (Forall2_lookup_l _ _ _ _ _ H2 Hy) as (z' & Hz' & Hyz). simplify_eq.
  unfold same_slot in *. intuition congruence.
Qed.

Lemma keeps_files {W} (st : vfs_state W) st' : vs_files st = vs_files st' -> keeps st st'.
Proof. unfold keeps. intros <-. apply keeps_refl. Qed.

Lemma keeps_inv {W} (st st' : vfs_state W) :
  keeps st st' -> table_inv (vs_files st) -> table_inv (vs_files st').
Proof.
  intros Hk [Hlen Hslot [rank Hrank]]. split.
  - by rewrite <- (Forall2_length _ _ _ Hk).
  - intros i f Hi. destruct (Forall2_lookup_r _ _ _ _ _ Hk Hi) as (g & Hg & H1 & H2 & H3).
    destruct (Hslot _ _ Hg). split; rewrite <- ?H1, <- ?H2, <- ?H3; done.
  - exists rank. intros i f Hi. destruct (Forall2_lookup_r _ _ _ _ _ Hk Hi) as (g & Hg & H1 & H2 & H3).
    rewrite <- H2. by apply Hrank.
Qed.

Lemma keeps_slot {W} (st st' : vfs_state W) i f :
  keeps st st' -> vs_files st !! i = Some f ->
  exists g, vs_files st' !! i = Some g /\ same_slot f g.
Proof. intros Hk Hi. exact (Forall2_lookup_l _ _ _ _ _ Hk Hi). Qed.

Section Invariant.
Context {W : Type} `{VfsBackendLaws W}.
Implicit Types st : vfs_state W.

Lemma update_Ret st i g st' :
  update st i g = Ret st' ->
  exists f, vs_files st !! i = Some f /\ st' = set_files st (<[i := g f]> (vs_files st)).
Proof.
  unfold update. intros Hu. unbind Hu as x Hx. apply aload_Ret in Hx as [_ Hx]. rewrite Nat2Z.id in Hx.
  exists x. by simplify_eq.
Qed.

(** An update that leaves the structure of the slot alone. *)
Lemma update_keeps st i g st' :
  (forall f, same_slot f (g f)) -> update st i g = Ret st' -> keeps st st'.
Proof.
  intros Hg (f & Hf & ->)%update_Ret. unfold keeps. simpl.
  rewrite <- (list_insert_id _ _ _ Hf) at 1. apply Forall2_insert; [apply keeps_refl | apply Hg].
Qed.

Lemma alloc_fileno_inv st min r st' :
  table_inv (vs_files st) -> 0 <= min -> vfs_alloc_fileno st min = Ret (r, st') ->
  table_inv (vs_files st') /\
  (forall j, r = Some j -> exists f, vs_files st !! j = Some f /\ f_refs f = 0 /\
     vs_files st' = <[j := with_num (with_refs f 1) (Z.of_nat j)]> (vs_files st)).
Proof.
  intros Hi Hm. unfold vfs_alloc_fileno.
  destruct (alloc_loop_spec (vs_files st) (S (Z.to_nat (CONFIG_VFS_MAX_OPENFILES - min))) min)
    as (k & -> & Hk); [apply Hi | done | lia |]. rewrite bind_Ret. intros Ha.
  destruct k as [k |].
  - destruct Hk as (Hk & (f & Hf & Hr) & _). unbind Ha as x Hx. apply update_Ret in Hx as (g & Hg & ->).
    assert (g = f) as -> by congruence. simplify_eq.
    assert (vs_files (set_files st (<[Z.to_nat k := with_num (with_refs f 1) k]> (vs_files st))) =
      <[Z.to_nat k := with_num (with_refs f 1) (Z.of_nat (Z.to_nat k))]> (vs_files st)) as Heq
      by (simpl; by rewrite Z2Nat.id by lia).
    split; [| intros j [= <-]; exists f; done]. rewrite Heq.
    destruct (ti_slot _ Hi _ _ Hf) as [H1 H2 H3 H4].
    eapply table_inv_insert; [done | done | | by right; left].
    split; simpl; try done; [by right].
  - simplify_eq. split; [done | by intros].
Qed.

Lemma lookup_inv st fd :
  table_inv (vs_files st) ->
  exists r, vfs_get_from_id st fd = Ret r /\
    forall i, r = Some i -> exists f, vs_files st !! i = Some f /\ f_refs f <> 0 /\ f_dup_target f = 0.
Proof. apply get_from_id_total. Qed.

(** Case analysis on a lookup that has returned. *)
Tactic Notation "lookup" hyp(Hi) "in" hyp(Ho) "as" ident(i) ident(f) ident(Hf) ident(Hr) ident(Hd) :=
  let r := fresh "r" in let Heq := fresh "Hget" in let Hroot := fresh "Hroot" in
  match type of Ho with
  | context [ vfs_get_from_id ?st ?fd ] =>
    destruct (lookup_inv st fd Hi) as (r & Heq & Hroot);
    rewrite Heq, bind_Ret in Ho;
    destruct r as [i |]; [specialize (Hroot _ eq_refl) as (f & Hf & Hr & Hd) | clear Hroot]
  end.

(** A change of the reference counter of a descriptor that is no duplicate. *)
Lemma update_refs_inv st i n st' f :
  table_inv (vs_files st) -> vs_files st !! i = Some f -> f_dup_target f = 0 ->
  0 <= f_refs f + n ->
  update st i (fun f => with_refs f (f_refs f + n)) = Ret st' -> table_inv (vs_files st').
Proof.
  intros Hi Hf Hd Hn (g & Hg & ->)%update_Ret. simpl. assert (g = f) as -> by congruence.
  destruct (ti_slot _ Hi _ _ Hf). eapply table_inv_insert; [done | done | | by left].
  by split.
Qed.

Lemma update_zero_inv st i st' :
  table_inv (vs_files st) -> update st i (fun _ => zero_file) = Ret st' ->
  table_inv (vs_files st').
Proof.
  intros Hi (g & Hg & ->)%update_Ret. simpl.
  eapply table_inv_insert; [done | done | | by left]. split; simpl; unfold CONFIG_VFS_MAX_OPENFILES; lia.
Qed.

(** A step on the table that keeps the invariant and makes no descriptor a
    duplicate. *)
Definition shrinks st st' : Prop :=
  table_inv (vs_files st') /\
  forall i f, vs_files st !! i = Some f -> f_dup_target f = 0 ->
    exists f', vs_files st' !! i = Some f' /\ f_dup_target f' = 0.

Lemma shrinks_keeps st st' : table_inv (vs_files st) -> keeps st st' -> shrinks st st'.
Proof.
  intros Hi Hk. split; [by eapply keeps_inv |]. intros i f Hf Hd.
  destruct (keeps_slot _ _ _ _ Hk Hf) as (g & Hg & _ & ? & _). exists g. split; [done | congruence].
Qed.

Lemma shrinks_trans a b c : shrinks a b -> shrinks b c -> shrinks a c.
Proof.
  intros [_ H1] [Hc H2]. split; [done |]. intros i f Hf Hd.
  destruct (H1 _ _ Hf Hd) as (g & Hg & Hd'). eauto.
Qed.

Lemma shrinks_update st i g st' :
  update st i g = Ret st' -> table_inv (vs_files st') ->
  (forall f, f_dup_target f = 0 -> f_dup_target (g f) = 0) -> shrinks st st'.
Proof.
  intros (f & Hf & ->)%update_Ret Hi Hg. split; [done |]. simpl. intros k h Hk Hd.
  destruct (decide (i = k)) as [<- | Hne].
  - rewrite list_lookup_insert_eq by (by eapply lookup_lt_Some). simplify_eq. eauto.
  - rewrite list_lookup_insert_ne by done. eauto.
Qed.

Lemma close_inv fuel st fd r st' :
  table_inv (vs_files st) -> close_loop fuel st fd = Ret (r, st') -> shrinks st st'.
Proof.
  intros Hi Hc. destruct fuel as [| fuel]; [done |]. cbn [close_loop] in Hc.
  lookup Hi in Hc as i f Hf Hr Hd; [| injection Hc as <- <-; by apply shrinks_keeps, keeps_files].
  pose proof (ti_slot _ Hi _ _ Hf) as [Hr0 _ _ _].
  unbind Hc as st1 Hx. assert (table_inv (vs_files st1)) as Hi1.
  { eapply (update_refs_inv st i (-1)); [done | done | done | lia | exact Hx]. }
  assert (shrinks st st1) as Hs1 by (by eapply shrinks_update).
  apply (shrinks_trans _ st1); [done |]. clear Hx.
  unbind Hc as f1 Hx. apply aload_Ret in Hx as [_ Hx]. rewrite Nat2Z.id in Hx.
  destruct (proj2 Hs1 _ _ Hf Hd) as (f2 & Hf2 & Hd2). assert (f2 = f1) as -> by congruence.
  destruct (f_refs f1 =? 0); cbn [negb] in Hc; [| simplify_eq; by apply shrinks_keeps, keeps_refl].
  rewrite (proj2 (nz_false _) Hd2), bind_Ret in Hc. unbind Hc as [z v] Hn.
  assert (keeps st1 v) as Hk.
  { destruct (f_type f1 =? FT_IFSOCK); [by eapply law_net | simplify_eq; apply keeps_refl]. }
  destruct (z <? 0); [simplify_eq; by apply shrinks_keeps |].
  apply (shrinks_trans _ v); [by apply shrinks_keeps |]. unbind Hc as st2 Hz. injection Hc as <- <-.
  eapply shrinks_update; [done | | done]. eapply update_zero_inv; [by eapply keeps_inv | done].
Qed.

Lemma keeps_errno st e : keeps st (set_errno st e).
Proof. by apply keeps_files. Qed.

Lemma fail_keeps st e r st' : fail st e = Ret (r, st') -> keeps st st'.
Proof. intros [= _ <-]. apply keeps_errno. Qed.

Lemma fail_size_keeps st e r st' : fail_size st e = Ret (r, st') -> keeps st st'.
Proof. intros [= _ <-]. apply keeps_errno. Qed.

Lemma context_from_path_keeps st p r st' :
  vfs_context_from_path st p = Ret (r, st') -> keeps st st'.
Proof.
  unfold vfs_context_from_path. intros Hc. unbind Hc as o Ho. unbind Hc as [mp m] Hm.
  destruct m; [destruct (mp =? 0) |]; simplify_eq; auto using keeps_errno, keeps_refl.
Qed.

Lemma fstat_keeps st fd r s st' : vfs_fstat st fd = Ret (r, s, st') -> keeps st st'.
Proof.
  unfold vfs_fstat. intros Hc. unbind Hc as c Hx. destruct c as [[ctx fp] |].
  - destruct (cb_stat (f_callbacks fp) =? 0); [simplify_eq; apply keeps_errno |].
    unbind Hc as [[r' s'] st1] Hs. simplify_eq. by eapply law_stat.
  - simplify_eq. apply keeps_errno.
Qed.

Lemma offset_keeps st i g st' :
  update st i (fun f => with_offset f (g f)) = Ret st' -> keeps st st'.
Proof. by apply update_keeps. Qed.

Lemma seek_keeps st fd off origin r st' : vfs_seek st fd off origin = Ret (r, st') -> keeps st st'.
Proof.
  unfold vfs_seek. intros Hc. unbind Hc as [i |] Hg; [| by eapply fail_keeps].
  unbind Hc as fp Hf. unbind Hc as [ok st1] Hs. assert (keeps st st1) as Hk.
  { destruct (origin =? VFS_SEEK_SET); [unbind Hs as s1 H1; simplify_eq; eapply offset_keeps; exact H1 |].
    destruct (origin =? VFS_SEEK_CUR).
    { unbind Hs as s1 H1. simplify_eq. eapply offset_keeps. exact H1. }
    destruct (origin =? VFS_SEEK_END); [| simplify_eq; apply keeps_refl].
    unbind Hs as [[q s] st2] H2. apply fstat_keeps in H2.
    destruct (q <? 0); [by simplify_eq |]. destruct s; [| done].
    unbind Hs as st3 H3. simplify_eq. eapply keeps_trans; [done |]. eapply offset_keeps. exact H3. }
  destruct ok; [unbind Hc as fp1 Hf1 |]; by simplify_eq.
Qed.

Lemma read_keeps st fd dest size r st' : vfs_read st fd dest size = Ret (r, st') -> keeps st st'.
Proof.
  unfold vfs_read. intros Hc. destruct ((dest =? 0) && nz size); [by eapply fail_size_keeps |].
  unbind Hc as [[ctx fp] |] Hg; [| by eapply fail_size_keeps].
  destruct (has_flag (f_flags fp) O_WRONLY); [by eapply fail_size_keeps |].
  destruct (cb_read (f_callbacks fp) =? 0); [by eapply fail_size_keeps |].
  destruct (size =? 0); [simplify_eq; apply keeps_refl |]. unbind Hc as [n st1] Hcall.
  apply law_call in Hcall. unbind Hc as i Hi. unbind Hc as st2 Hu. simplify_eq.
  eapply keeps_trans; [done |]. eapply offset_keeps. exact Hu.
Qed.

Lemma write_keeps st fd src size r st' : vfs_write st fd src size = Ret (r, st') -> keeps st st'.
Proof.
  unfold vfs_write. intros Hc. destruct ((src =? 0) && nz size); [by eapply fail_size_keeps |].
  unbind Hc as [[ctx fp] |] Hg; [| by eapply fail_size_keeps].
  destruct (has_flag (f_flags fp) O_RDONLY); [by eapply fail_size_keeps |].
  destruct (cb_write (f_callbacks fp) =? 0); [by eapply fail_size_keeps |].
  destruct (size =? 0); [simplify_eq; apply keeps_refl |]. unbind Hc as [n st1] Hcall.
  apply law_call in Hcall. unbind Hc as i Hi. unbind Hc as st2 Hu. simplify_eq.
  eapply keeps_trans; [done |]. eapply offset_keeps. exact Hu.
Qed.

Lemma getdents_keeps st fd dest size r st' :
  vfs_getdents st fd dest size = Ret (r, st') -> keeps st st'.
Proof.
  unfold vfs_getdents. intros Hc. unbind Hc as [[ctx fp] |] Hg; [| by eapply fail_size_keeps].
  destruct (cb_getdents (f_callbacks fp) =? 0); [by eapply fail_size_keeps | by eapply law_call].
Qed.

Lemma ioctl_keeps st fd req arg r st' : vfs_ioctl st fd req arg = Ret (r, st') -> keeps st st'.
Proof.
  unfold vfs_ioctl. intros Hc. unbind Hc as [[ctx fp] |] Hg; [| by eapply fail_keeps].
  destruct (cb_ioctl (f_callbacks fp) =? 0); [by eapply fail_keeps | by eapply law_call].
Qed.

Lemma path_call_keeps badf sel st p op r st' :
  path_call badf sel st p op = Ret (r, st') -> keeps st st'.
Proof.
  unfold path_call. intros Hc. unbind Hc as [[ctx |] st1] Hp; apply context_from_path_keeps in Hp.
  - unbind Hc as mp Hm. eapply keeps_trans; [done |].
    destruct (sel (mp_callbacks mp) =? 0); [by eapply fail_keeps | by eapply law_call].
  - destruct badf; simplify_eq; [| done]. eapply keeps_trans; [done | apply keeps_errno].
Qed.

Lemma link_keeps st p q r st' : vfs_link st p q = Ret (r, st') -> keeps st st'.
Proof.
  unfold vfs_link. intros Hc. unbind Hc as [[ctx |] st1] Hp; apply context_from_path_keeps in Hp;
    (eapply keeps_trans; [done |]); [| by eapply fail_keeps].
  unbind Hc as mp Hm. destruct (cb_link (mp_callbacks mp) =? 0); [by eapply fail_keeps |].
  unbind Hc as np Hn. unbind Hc as [nmp nmpath] Hmm.
  destruct (negb (ctx_mp ctx =? nmp)); [by eapply fail_keeps | by eapply law_call].
Qed.

Lemma open_inv st p flags r st' :
  table_inv (vs_files st) -> vfs_open st p flags = Ret (r, st') -> table_inv (vs_files st').
Proof.
  intros Hi. unfold vfs_open. case_bool_decide.
  { intros Hc. eapply keeps_inv; [by eapply fail_keeps | done]. }
  intros Hc. unbind Hc as [[ctx |] st1] Hp; apply context_from_path_keeps in Hp;
    (assert (table_inv (vs_files st1)) as Hi1 by (by eapply keeps_inv)); [| by simplify_eq].
  clear Hi Hp. unbind Hc as mp Hm. destruct (cb_open (mp_callbacks mp) =? 0).
  { eapply keeps_inv; [by eapply fail_keeps | done]. }
  unbind Hc as [[fp cp] st2] Ho. apply law_open in Ho. destruct fp as [i |].
  - destruct Ho as (s1 & min & s2 & Hk1 & Hmin & Ha & Hk2).
    apply alloc_fileno_inv in Ha as [Ha _]; [| by eapply keeps_inv | done].
    assert (table_inv (vs_files st2)) as Hi2 by (by eapply keeps_inv).
    unbind Hc as pa Hpa. unbind Hc as mpa Hmpa. unbind Hc as l Hl. unbind Hc as g Hg.
    unbind Hc as st3 Hu. apply update_keeps in Hu; [| done].
    unbind Hc as st4 Hs. unbind Hc as h Hh. simplify_eq.
    eapply keeps_inv; [| exact Hi2]. eapply keeps_trans; [done |].
    destruct (has_flag flags O_APPEND); [| simplify_eq; apply keeps_refl].
    unbind Hs as [q st5] Hs5. simplify_eq. by eapply seek_keeps.
  - simplify_eq. by eapply keeps_inv.
Qed.

Lemma s32_num i f : slot_ok i f -> (i < 500)%nat -> s32 (f_num f) = 0 \/ s32 (f_num f) = Z.of_nat i.
Proof. intros [_ [-> | ->] _ _] Hi; [left | right]; apply s32_small; lia. Qed.

(** Making the live descriptor [j] a duplicate of [i], which is none. *)
Lemma update_dup_inv st i j fi fj st' :
  table_inv (vs_files st) -> vs_files st !! i = Some fi -> f_dup_target fi = 0 ->
  vs_files st !! j = Some fj -> f_refs fj <> 0 -> i <> j ->
  update st j (fun f => with_dup f (s32 (f_num fi))) = Ret st' -> table_inv (vs_files st').
Proof.
  intros Hi Hfi Hd Hfj Hr Hne (g & Hg & ->)%update_Ret. simpl. assert (g = fj) as -> by congruence.
  pose proof (ti_len _ Hi) as Hl. pose proof (lookup_lt_Some _ _ _ Hfi) as Hlt.
  unfold CONFIG_VFS_MAX_OPENFILES in Hl.
  destruct (ti_slot _ Hi _ _ Hfj) as [H1 H2 H3 H4].
  destruct (s32_num i fi) as [Hs | Hs]; [by eapply ti_slot | lia | |];
    (eapply table_inv_insert; [exact Hi | exact Hfj | |]); cbn [with_dup f_dup_target]; rewrite Hs.
  - split; cbn; rewrite ?Hs; unfold CONFIG_VFS_MAX_OPENFILES; try done.
  - by left.
  - split; cbn; rewrite ?Hs; unfold CONFIG_VFS_MAX_OPENFILES; try done. lia.
  - right. right. by exists i, fi.
Qed.

Lemma aload_nat {A} (l : list A) i x : aload l (Z.of_nat i) = Ret x -> l !! i = Some x.
Proof. intros [_ Hx]%aload_Ret. by rewrite Nat2Z.id in Hx. Qed.

Lemma lookup_update_ne st i g st' k :
  update st i g = Ret st' -> i <> k -> vs_files st' !! k = vs_files st !! k.
Proof. intros (f & _ & ->)%update_Ret Hne. simpl. by apply list_lookup_insert_ne. Qed.

Lemma lookup_update_eq st i g st' f :
  update st i g = Ret st' -> vs_files st !! i = Some f -> vs_files st' !! i = Some (g f).
Proof.
  intros (f' & Hf & ->)%update_Ret Hf'. simpl. simplify_eq.
  apply list_lookup_insert_eq. by eapply lookup_lt_Some.
Qed.

Lemma fcntl_inv st fd cmd arg3 r st' :
  table_inv (vs_files st) -> vfs_fcntl st fd cmd arg3 = Ret (r, st') -> table_inv (vs_files st').
Proof.
  intros Hi Hc. unfold vfs_fcntl in Hc.
  lookup Hi in Hc as i f Hf Hr Hd; [| eapply keeps_inv; [by eapply fail_keeps | done]].
  unbind Hc as fp Hx. apply aload_nat in Hx. assert (fp = f) as -> by congruence. clear Hx.
  destruct (cmd =? F_DUPFD).
  { unbind Hc as [j st1] Ha. apply alloc_fileno_inv in Ha as [Hi1 Hj]; [| done | rewrite MAX_spec; lia].
    destruct j as [j |]; [| by simplify_eq]. destruct (Hj j eq_refl) as (g & Hg & Hgr & Heq).
    assert (i <> j) as Hne by (intros ->; congruence).
    assert (vs_files st1 !! i = Some f) as Hf1 by (by rewrite Heq, list_lookup_insert_ne).
    unbind Hc as st2 H2. unbind Hc as st3 H3. unbind Hc as fp2 H4. simplify_eq.
    assert (table_inv (vs_files st2)) as Hi2.
    { pose proof (ti_slot _ Hi _ _ Hf) as [? _ _ _].
      eapply (update_refs_inv st1 i 1); [done | done | done | lia | done]. }
    eapply (update_dup_inv st2 i j (with_refs f (f_refs f + 1))); [done | | done | | | done | exact H3].
    - exact (lookup_update_eq _ _ _ _ _ H2 Hf1).
    - rewrite (lookup_update_ne _ _ _ _ _ H2 Hne), Heq. apply list_lookup_insert_eq.
      by eapply lookup_lt_Some.
    - done. }
  destruct (cmd =? F_GETFL); [by simplify_eq |].
  destruct (cmd =? F_SETFL).
  { unbind Hc as st1 H1. simplify_eq. eapply keeps_inv; [| done]. eapply update_keeps; [| exact H1]. done. }
  destruct (cmd =? F_GETFD); [by simplify_eq |].
  destruct (cmd =? F_SETFD).
  { unbind Hc as st1 H1. simplify_eq. eapply keeps_inv; [| done]. eapply update_keeps; [| exact H1]. done. }
  destruct (cmd =? F_GETPATH); [| eapply keeps_inv; [by eapply fail_keeps | done]].
  eapply keeps_inv; [| done]. unbind Hc as [dest st1] H1. apply law_map in H1.
  eapply keeps_trans; [done |]. destruct (dest =? 0).
  - unbind Hc as st2 H2. apply law_segv in H2. eapply keeps_trans; [done |]. by eapply fail_keeps.
  - unbind Hc as [n st2] H2. simplify_eq. by eapply law_store.
Qed.

(** A descriptor table after [cas_refs]: the slot is live. *)
Lemma cas_refs_inv st j ok st' :
  table_inv (vs_files st) -> cas_refs st j = Ret (ok, st') ->
  shrinks st st' /\ exists f, vs_files st' !! j = Some f /\ f_refs f <> 0.
Proof.
  intros Hi Hc. unfold cas_refs in Hc. unbind Hc as f Hf. apply aload_nat in Hf.
  destruct (Z.eqb_spec (f_refs f) 0) as [Hr | Hr].
  - unbind Hc as st1 Hu. simplify_eq. pose proof (lookup_update_eq _ _ _ _ _ Hu Hf) as Hl.
    split; [| eauto]. eapply shrinks_update; [done | | done].
    apply update_Ret in Hu as (g & Hg & ->). simpl. simplify_eq.
    destruct (ti_slot _ Hi _ _ Hf) as [H1 H2 H3 H4].
    eapply table_inv_insert; [done | done | by split | by right; left].
  - simplify_eq. split; [by apply shrinks_keeps, keeps_refl | eauto].
Qed.

Lemma dup2_inv st fd1 fd2 r st' :
  table_inv (vs_files st) -> vfs_get_from_id st fd1 <> Ret (Some (Z.to_nat fd2)) ->
  vfs_dup2 st fd1 fd2 = Ret (r, st') -> table_inv (vs_files st').
Proof.
  intros Hi Hself Hc. unfold vfs_dup2 in Hc.
  lookup Hi in Hc as i f Hf Hr Hd; [| eapply keeps_inv; [by eapply fail_keeps | done]].
  assert (i <> Z.to_nat fd2) as Hne by congruence. clear Hself Hget.
  unbind Hc as fp Hx. apply aload_nat in Hx. assert (fp = f) as -> by congruence. clear Hx.
  unbind Hc as st0 Hst0. assert (keeps st st0) as Hk0.
  { destruct (fd2 <=? 2); [| simplify_eq; apply keeps_refl]. unbind Hst0 as c Hcmp.
    destruct (c =? 0); [destruct (vs_task st) |]; simplify_eq; try done; by apply keeps_files. }
  assert (shrinks st st0) as Hs by (by apply shrinks_keeps). clear Hst0 Hk0.
  destruct ((fd2 <? 0) || (Z.of_nat (length (vs_files st0)) <=? fd2)) eqn:Hb; [done |].
  apply orb_false_elim in Hb as [Hb1%Z.ltb_ge Hb2%Z.leb_gt].
  unbind Hc as [ok st1] H1. apply cas_refs_inv in H1 as [Hs1 Hlive]; [| apply Hs].
  apply (shrinks_trans _ _ _ Hs) in Hs1. unbind Hc as fp2 H2.
  destruct (negb ok && (1 <? f_refs fp2)).
  { eapply keeps_inv; [by eapply fail_keeps | apply Hs1]. }
  unbind Hc as [ok2 st2] H3.
  assert (shrinks st st2 /\ exists f, vs_files st2 !! Z.to_nat fd2 = Some f /\ f_refs f <> 0)
    as [Hs2 (fj & Hfj & Hrj)].
  { destruct ok; [by simplify_eq |]. unbind H3 as [rc st3] Hclose. unbind H3 as [ok3 st4] Hcas.
    simplify_eq. apply close_inv in Hclose; [| apply Hs1].
    apply cas_refs_inv in Hcas as [Hs4 Hl4]; [| apply Hclose]. split; [| done].
    eapply shrinks_trans; [exact Hs1 |]. by eapply shrinks_trans. }
  clear H2 H3 Hs Hs1 Hlive. destruct (negb ok2); [eapply keeps_inv; [by eapply fail_keeps | apply Hs2] |].
  destruct (proj2 Hs2 _ _ Hf Hd) as (fi & Hfi & Hdi). destruct Hs2 as [Hi2 _].
  unbind Hc as st3 H3. unbind Hc as st4 H4. unbind Hc as fp1 H5. unbind Hc as st5 H6. simplify_eq.
  assert (table_inv (vs_files st3)) as Hi3.
  { apply update_Ret in H3 as (g & Hg & ->). simpl. assert (g = fj) as -> by congruence.
    destruct (ti_slot _ Hi2 _ _ Hfj). eapply table_inv_insert; [done | done | | by right; left].
    split; simpl; try done. right. lia. }
  assert (vs_files st3 !! i = Some fi) as Hfi3 by (rewrite (lookup_update_ne _ _ _ _ _ H3); done).
  pose proof (ti_slot _ Hi3 _ _ Hfi3) as [Hr3 _ _ _].
  assert (table_inv (vs_files st4)) as Hi4
    by (eapply (update_refs_inv st3 i 1); [done | done | done | lia | done]).
  pose proof (lookup_update_eq _ _ _ _ _ H4 Hfi3) as Hfi4. apply aload_nat in H5.
  assert (fp1 = with_refs fi (f_refs fi + 1)) as -> by congruence.
  eapply (update_dup_inv st4 i (Z.to_nat fd2)); [done | exact Hfi4 | done | | | done | exact H6].
  - rewrite (lookup_update_ne _ _ _ _ _ H4) by done. exact (lookup_update_eq _ _ _ _ _ H3 Hfj).
  - done.
Qed.

End Invariant.

(** * Sequences of calls *)

(** The calls a task can make. *)
Inductive vfs_op : Type :=
  | OpOpen (path : cstring) (flags : Z)
  | OpRead (fd dest size : Z)
  | OpWrite (fd source size : Z)
  | OpGetdents (fd dest size : Z)
  | OpSeek (fd offset origin : Z)
  | OpClose (fd : Z)
  | OpFcntl (fd cmd arg3 : Z)
  | OpDup2 (fd1 fd2 : Z)
  | OpIoctl (fd request arg : Z)
  | OpUnlink (path : cstring)
  | OpChmod (path : cstring) (mode : Z)
  | OpChown (path : cstring) (uid gid : Z)
  | OpMkdir (path : cstring) (mode : Z)
  | OpAccess (path : cstring) (amode : Z)
  | OpUtimes (path : cstring) (times : Z)
  | OpReadlink (path : cstring) (buf size : Z)
  | OpRmdir (path : cstring)
  | OpLink (path new_path : cstring).

Section Run.
Context {W : Type} `{VfsBackend W}.

Definition vfs_exec (st : vfs_state W) (op : vfs_op) : outcome (Z * vfs_state W) :=
  match op with
  | OpOpen p flags => vfs_open st p flags
  | OpRead fd dest size => vfs_read st fd dest size
  | OpWrite fd source size => vfs_write st fd source size
  | OpGetdents fd dest size => vfs_getdents st fd dest size
  | OpSeek fd offset origin => vfs_seek st fd offset origin
  | OpClose fd => vfs_close st fd
  | OpFcntl fd cmd arg3 => vfs_fcntl st fd cmd arg3
  | OpDup2 fd1 fd2 => vfs_dup2 st fd1 fd2
  | OpIoctl fd request arg => vfs_ioctl st fd request arg
  | OpUnlink p => vfs_unlink st p
  | OpChmod p mode => vfs_chmod st p mode
  | OpChown p uid gid => vfs_chown st p uid gid
  | OpMkdir p mode => vfs_mkdir st p mode
  | OpAccess p amode => vfs_access st p amode
  | OpUtimes p times => vfs_utimes st p times
  | OpReadlink p buf size => vfs_readlink st p buf size
  | OpRmdir p => vfs_rmdir st p
  | OpLink p q => vfs_link st p q
  end.

(** [dup2] of a descriptor onto the one it already stands for. *)
Definition dup2_onto_itself (st : vfs_state W) (op : vfs_op) : Prop :=
  match op with
  | OpDup2 fd1 fd2 => vfs_get_from_id st fd1 = Ret (Some (Z.to_nat fd2))
  | _ => False
  end.

Inductive vfs_reach (st : vfs_state W) : vfs_state W -> Prop :=
  | reach_refl : vfs_reach st st
  | reach_step st1 op r st2 :
      vfs_reach st st1 -> ~ dup2_onto_itself st1 op -> vfs_exec st1 op = Ret (r, st2) ->
      vfs_reach st st2.

(** The table of a new task. *)
Definition fresh_table : list vfs_file :=
  replicate (Z.to_nat CONFIG_VFS_MAX_OPENFILES) zero_file.

End Run.

Lemma fresh_table_inv : table_inv fresh_table.
Proof.
  split; [reflexivity | |].
  - intros i f [-> _]%lookup_replicate. split; simpl; unfold CONFIG_VFS_MAX_OPENFILES; lia.
  - exists (fun _ => O). intros i f [-> _]%lookup_replicate. done.
Qed.

Lemma reach_inv {W} `{VfsBackendLaws W} (st st' : vfs_state W) :
  vfs_reach st st' -> table_inv (vs_files st) -> table_inv (vs_files st').
Proof.
  intros Hr Hi. induction Hr as [| st1 op r st2 Hr IH Hok Hx]; [done |].
  destruct op; simpl in Hx, Hok;
    try (eapply keeps_inv; [| exact IH];
         first [ by eapply read_keeps | by eapply write_keeps | by eapply getdents_keeps
               | by eapply seek_keeps | by eapply ioctl_keeps | by eapply path_call_keeps
               | by eapply link_keeps ]).
  - by eapply open_inv.
  - by eapply close_inv.
  - by eapply fcntl_inv.
  - by eapply dup2_inv.
Qed.

(** C4: from a fresh task, after any sequence of vfs calls that does not
    duplicate a descriptor onto itself, looking a descriptor up always ends
    (the chain of duplicates has no cycle), and so does the search for a free
    one. *)
Theorem vfs_lookup_terminates {W} `{VfsBackendLaws W} (st st' : vfs_state W) :
  vs_files st = fresh_table -> vfs_reach st st' ->
  (forall fd, exists r, vfs_get_from_id st' fd = Ret r) /\
  (forall min, 0 <= min -> exists r st2, vfs_alloc_fileno st' min = Ret (r, st2)).
Proof.
  intros Hf Hr. pose proof (reach_inv _ _ Hr) as Hi. rewrite Hf in Hi. specialize (Hi fresh_table_inv).
  split.
  - intros fd. destruct (lookup_inv st' fd Hi) as (r & Hg & _). eauto.
  - intros min Hm. unfold vfs_alloc_fileno.
    destruct (alloc_loop_spec (vs_files st') (S (Z.to_nat (CONFIG_VFS_MAX_OPENFILES - min))) min)
      as (k & -> & Hk); [apply Hi | done | lia |]. rewrite bind_Ret.
    destruct k as [k |]; [| eauto]. unfold update.
    destruct (aload_in (vs_files st') (Z.of_nat (Z.to_nat k))) as (f & -> & _); [| rewrite !bind_Ret; eauto].
    destruct Hk as (Hk & (f & Hlk & _) & _). apply lookup_lt_Some in Hlk. lia.
Qed.

(** A table of callbacks that are all set. *)
Definition vfs_ex_cb : vfs_callbacks := Callbacks 1 1 1 1 1 1 1 1 1 1 1 1 1 1 1 1 1 1.

Definition with_callbacks (f : vfs_file) (cb : vfs_callbacks) : vfs_file :=
  File (f_refs f) (f_dup_target f) (f_type f) (f_num f) (f_path f) (f_mount_path f) (f_mp f)
    (f_mount_instance f) cb (f_flags f) (f_offset f) (f_inode f) (f_meta f).

(** A file system in which every call succeeds and does nothing: the backend
    of the examples. *)
Definition null_backend (W : Type) : VfsBackend W := {|
  call p ctx op st := Ret (match op with CRead _ n | CWrite _ n => n | _ => 0 end, st);
  call_open p ctx flags st :=
    '(r, st) ← vfs_alloc_fileno st 0;
    match r with
    | Some i => st ← update st i (fun f => with_callbacks f vfs_ex_cb); Ret (Some i, ctx_path ctx, st)
    | None => Ret (None, ctx_path ctx, st)
    end;
  call_stat p ctx st := Ret (0, Stat 0 0 0 0 0 0 0 0 0 0 0 0 0, st);
  net_vfs_close_cb i st := Ret (0, st);
  vm_map_user a n st := Ret (a, st);
  task_signal_segv st := Ret st;
  store_string a s n st := Ret (Z.of_nat (length s), st);
  block_get_dev p st := 0;
  ext2_mount d p st := Ret (0, st);
|}.

#[global] Instance null_unit : VfsBackend unit := null_backend unit.

Lemma null_backend_laws (W : Type) : VfsBackendLaws (H := null_backend W) W.
Proof.
  split; simpl; try (intros; simplify_eq; by apply keeps_refl).
  intros p ctx flags st r cp st' Ho. unbind Ho as [[i |] st1] Ha.
  - unbind Ho as st2 Hu. injection Ho as <- <- <-. exists st, 0, st1. split; [apply keeps_refl |].
    split; [done |]. split; [done |]. eapply update_keeps; [| exact Hu]. done.
  - injection Ho as <- <- <-. unfold vfs_alloc_fileno in Ha. unbind Ha as k Hk.
    destruct k; [by unbind Ha as s Hs |]. simplify_eq. apply keeps_errno.
Qed.

#[global] Instance null_unit_laws : VfsBackendLaws unit := null_backend_laws unit.

(** A task on a system with this file system at /. *)
Definition vfs_ex : vfs_state unit :=
  State true fresh_table [47] 0 0 0
    (Mounts (<[0x100 := Node 0 0 (Mountpoint [47] 1 [101] 0 vfs_ex_cb)]> ∅) 0x100 ∅) tt.

(** The same task after it has opened /a and duplicated the descriptor to 7. *)
Definition vfs_ex_open : vfs_state unit := match vfs_open vfs_ex [47; 97] O_RDONLY with Ret (_, st) => st | _ => vfs_ex end.
Definition vfs_ex_dup : vfs_state unit := match vfs_dup2 vfs_ex_open 0 7 with Ret (_, st) => st | _ => vfs_ex end.

Lemma vfs_lookup_terminates_witness :
  f_dup_target <$> vs_files vfs_ex_dup !! 7%nat = Some 0 /\
  (forall fd, exists r, vfs_get_from_id vfs_ex_dup fd = Ret r) /\
  (forall min, 0 <= min -> exists r st2, vfs_alloc_fileno vfs_ex_dup min = Ret (r, st2)).
Proof.
  split; [vm_compute; reflexivity |]. apply (vfs_lookup_terminates vfs_ex vfs_ex_dup); [reflexivity |].
  apply (reach_step vfs_ex vfs_ex_open (OpDup2 0 7) 0 vfs_ex_dup); [| | vm_compute; reflexivity].
  - apply (reach_step vfs_ex vfs_ex (OpOpen [47; 97] O_RDONLY) 0 vfs_ex_open); [apply reach_refl | | vm_compute; reflexivity].
    intros H. exact H.
  - vm_compute. intuition discriminate.
Defined.

(** [vfs_alloc_fileno] takes the lowest free descriptor from [min] on and
    marks it as used by one reference; when there is none it fails with ENFILE
    and changes nothing else. *)
Theorem alloc_fileno_lowest {W} (st : vfs_state W) min :
  table_inv (vs_files st) -> 0 <= min ->
  exists r st', vfs_alloc_fileno st min = Ret (r, st') /\
    match r with
    | Some i => min <= Z.of_nat i < CONFIG_VFS_MAX_OPENFILES /\
        (forall j f, (j < i)%nat -> min <= Z.of_nat j -> vs_files st !! j = Some f -> f_refs f <> 0) /\
        exists f, vs_files st !! i = Some f /\ f_refs f = 0 /\
          st' = set_files st (<[i := with_num (with_refs f 1) (Z.of_nat i)]> (vs_files st))
    | None => (forall j f, min <= Z.of_nat j -> vs_files st !! j = Some f -> f_refs f <> 0) /\
        st' = set_errno st ENFILE
    end.
Proof.
  intros Hi Hm. unfold vfs_alloc_fileno.
  destruct (alloc_loop_spec (vs_files st) (S (Z.to_nat (CONFIG_VFS_MAX_OPENFILES - min))) min)
    as (k & -> & Hk); [apply Hi | done | lia |]. rewrite bind_Ret. destruct k as [k |].
  - destruct Hk as (Hk & (f & Hf & Hr) & Hmin). unfold update.
    assert (aload (vs_files st) (Z.of_nat (Z.to_nat k)) = Ret f) as ->.
    { apply aload_Ret. rewrite Nat2Z.id. split; [lia | done]. }
    rewrite !bind_Ret. do 2 eexists. split; [done |]. split; [lia |]. split.
    + intros j g Hj Hmj Hg. apply (Hmin (Z.of_nat j)); [lia |]. by rewrite Nat2Z.id.
    + exists f. rewrite Z2Nat.id by lia. done.
  - do 2 eexists. split; [done |]. split; [| done]. intros j g Hj Hg. apply (Hk (Z.of_nat j)); [done |].
    by rewrite Nat2Z.id.
Qed.

Lemma alloc_fileno_lowest_witness :
  exists r st', vfs_alloc_fileno vfs_ex 3 = Ret (r, st') /\
    match r with
    | Some i => 3 <= Z.of_nat i < CONFIG_VFS_MAX_OPENFILES /\
        (forall j f, (j < i)%nat -> 3 <= Z.of_nat j -> vs_files vfs_ex !! j = Some f -> f_refs f <> 0) /\
        exists f, vs_files vfs_ex !! i = Some f /\ f_refs f = 0 /\
          st' = set_files vfs_ex (<[i := with_num (with_refs f 1) (Z.of_nat i)]> (vs_files vfs_ex))
    | None => (forall j f, 3 <= Z.of_nat j -> vs_files vfs_ex !! j = Some f -> f_refs f <> 0) /\
        st' = set_errno vfs_ex ENFILE
    end.
Proof. apply (alloc_fileno_lowest vfs_ex 3); [apply fresh_table_inv | lia]. Defined.

Lemma get_from_id_root files fuel i f :
  Z.of_nat (length files) = CONFIG_VFS_MAX_OPENFILES -> files !! i = Some f ->
  f_refs f <> 0 -> f_dup_target f = 0 ->
  get_from_id (S fuel) files (Z.of_nat i) = Ret (Some i).
Proof.
  intros Hlen Hi Hr Hd. apply lookup_lt_Some in Hi as Hlt. cbn [get_from_id].
  destruct (Z.ltb_spec (Z.of_nat i) 0); [lia |].
  destruct (Z.leb_spec CONFIG_VFS_MAX_OPENFILES (Z.of_nat i)); [lia |]. cbn [orb].
  assert (aload files (Z.of_nat i) = Ret f) as -> by (apply aload_Ret; rewrite Nat2Z.id; split; [lia | done]).
  rewrite bind_Ret. destruct (Z.eqb_spec (f_refs f) 0); [done |]. rewrite Hd. cbn.
  by rewrite Nat2Z.id.
Qed.

(** [fcntl(F_DUPFD)] on a descriptor other than 0 gives a descriptor that
    stands for the same open file: a lookup finds the same entry, which counts
    one more reference, and no other descriptor changes. *)
Theorem dupfd_shares_file {W} `{VfsBackendLaws W} (st st' : vfs_state W) fd arg3 fd' i f :
  table_inv (vs_files st) -> vfs_get_from_id st fd = Ret (Some i) ->
  vs_files st !! i = Some f -> f_num f = Z.of_nat i -> (0 < i)%nat ->
  vfs_fcntl st fd F_DUPFD arg3 = Ret (fd', st') -> 0 <= fd' ->
  vfs_get_from_id st' fd' = Ret (Some i) /\ vfs_get_from_id st' (Z.of_nat i) = Ret (Some i) /\
  vs_files st' !! i = Some (with_refs f (f_refs f + 1)) /\ Z.max 3 arg3 <= fd' /\
  forall k, k <> i -> Z.of_nat k <> fd' -> vs_files st' !! k = vs_files st !! k.
Proof.
  intros Hi Hg Hf Hnum Hpos Hc Hfd. pose proof (fcntl_inv _ _ _ _ _ _ Hi Hc) as Hi'.
  destruct (lookup_inv st fd Hi) as (r & Hg' & Hroot). rewrite Hg in Hg'. simplify_eq.
  destruct (Hroot _ eq_refl) as (f0 & Hf0 & Hr & Hd). assert (f0 = f) as -> by congruence.
  unfold vfs_fcntl in Hc. rewrite Hg, bind_Ret in Hc. unbind Hc as fp Hx. apply aload_nat in Hx.
  assert (fp = f) as -> by congruence.
  cbn [Z.eqb F_DUPFD] in Hc. unbind Hc as [[j |] st1] Ha; [| simplify_eq; lia].
  apply alloc_fileno_inv in Ha as Ha'; [| done | rewrite MAX_spec; lia].
  destruct Ha' as [_ Hj]. destruct (Hj j eq_refl) as (g & Hg2 & Hgr & Heq).
  assert (i <> j) as Hne by (intros ->; congruence).
  unbind Hc as st2 H2. unbind Hc as st3 H3. unbind Hc as fp2 H4. apply aload_nat in H4.
  assert (vs_files st1 !! i = Some f) as Hf1 by (by rewrite Heq, list_lookup_insert_ne).
  assert (vs_files st1 !! j = Some (with_num (with_refs g 1) (Z.of_nat j))) as Hj1
    by (rewrite Heq; apply list_lookup_insert_eq; by eapply lookup_lt_Some).
  pose proof (lookup_update_eq _ _ _ _ _ H2 Hf1) as Hf2.
  rewrite <- (lookup_update_ne _ _ _ _ _ H2 Hne) in Hj1.
  pose proof (lookup_update_eq _ _ _ _ _ H3 Hj1) as Hj3. rewrite Hj3 in H4. injection H4 as <-.
  rewrite <- (lookup_update_ne _ _ _ _ _ H3 (not_eq_sym Hne)) in Hf2.
  pose proof (ti_len _ Hi) as Hlen. unfold CONFIG_VFS_MAX_OPENFILES in Hlen.
  apply lookup_lt_Some in Hg2 as Hlt. apply lookup_lt_Some in Hf as Hlti.
  cbn [f_num with_dup with_num] in Hc. rewrite s32_small in Hc by lia. injection Hc as <- <-.
  destruct (ti_slot _ Hi _ _ Hf) as [Hr0 _ _ _].
  unfold vfs_get_from_id. repeat split.
  - cbn [get_from_id]. destruct (Z.ltb_spec (Z.of_nat j) 0); [lia |].
    destruct (Z.leb_spec CONFIG_VFS_MAX_OPENFILES (Z.of_nat j)) as [Hb |]; [unfold CONFIG_VFS_MAX_OPENFILES in Hb; lia |].
    cbn [orb]. assert (aload (vs_files st3) (Z.of_nat j) = Ret _) as ->
      by (apply aload_Ret; rewrite Nat2Z.id; split; [lia | exact Hj3]).
    rewrite bind_Ret. cbn [f_refs with_dup with_num with_refs Z.eqb f_dup_target].
    rewrite Hnum, s32_small by lia. rewrite (proj2 (nz_true _)) by lia.
    destruct (length (vs_files st3)) eqn:E; [apply lookup_lt_Some in Hf2; lia |].
    eapply get_from_id_root; [apply Hi' | done | simpl; lia | done].
  - eapply get_from_id_root; [apply Hi' | done | simpl; lia | done].
  - done.
  - unfold vfs_alloc_fileno in Ha. unbind Ha as k Hk.
    destruct (alloc_loop_spec (vs_files st) (S (Z.to_nat (CONFIG_VFS_MAX_OPENFILES - MAX 3 arg3))) (MAX 3 arg3))
      as (k' & Hk' & Hs); [apply Hi | rewrite MAX_spec; lia | lia |].
    rewrite Hk in Hk'. simplify_eq. destruct k' as [k |]; [| done]. unbind Ha as st4 H4. simplify_eq.
    rewrite MAX_spec in Hs. lia.
  - intros k Hk Hkj. rewrite (lookup_update_ne _ _ _ _ _ H3) by lia.
    rewrite (lookup_update_ne _ _ _ _ _ H2) by done. rewrite Heq. apply list_lookup_insert_ne. lia.
Qed.

(** The state after a call of the example. *)
Definition after (m : outcome (Z * vfs_state unit)) : vfs_state unit :=
  match m with Ret (_, st) => st | _ => vfs_ex end.

(** The example with the files /a and /b open, as descriptors 0 and 1. *)
Definition vfs_ex1 : vfs_state unit := after (vfs_open vfs_ex [47; 97] O_RDWR).

Definition vfs_ex2 : vfs_state unit := after (vfs_open vfs_ex1 [47; 98] O_RDONLY).

Lemma vfs_ex2_inv : table_inv (vs_files vfs_ex2).
Proof.
  apply (open_inv vfs_ex1 [47; 98] O_RDONLY 1); [| vm_compute; reflexivity].
  apply (open_inv vfs_ex [47; 97] O_RDWR 0); [apply fresh_table_inv | vm_compute; reflexivity].
Qed.

(** The second open file of the example. *)
Definition vfs_ex2_f1 : vfs_file :=
  match vs_files vfs_ex2 !! 1%nat with Some f => f | None => zero_file end.

Definition vfs_ex3 : vfs_state unit :=
  after (vfs_fcntl vfs_ex2 1 F_DUPFD 0).

Lemma dupfd_shares_file_witness :
  vfs_get_from_id vfs_ex3 3 = Ret (Some 1%nat) /\ vfs_get_from_id vfs_ex3 1 = Ret (Some 1%nat) /\
  vs_files vfs_ex3 !! 1%nat = Some (with_refs vfs_ex2_f1 (f_refs vfs_ex2_f1 + 1)) /\
  Z.max 3 0 <= 3 /\
  forall k, k <> 1%nat -> Z.of_nat k <> 3 -> vs_files vfs_ex3 !! k = vs_files vfs_ex2 !! k.
Proof.
  apply (dupfd_shares_file vfs_ex2 vfs_ex3 1 0 3 1%nat vfs_ex2_f1);
    [apply vfs_ex2_inv | vm_compute; reflexivity.. | lia | vm_compute; reflexivity | lia].
Defined.

(** * Where the descriptors misbehave *)

(** [dup2] of a descriptor onto itself closes the file, and every later lookup
    of the descriptor runs forever. *)
Lemma dup2_self_loops :
  exists st, vfs_dup2 vfs_ex2 1 1 = Ret (0, st) /\ vfs_get_from_id st 1 = Spin.
Proof. exists (after (vfs_dup2 vfs_ex2 1 1)). split; vm_compute; reflexivity. Qed.

(** A duplicate of descriptor 0 is a descriptor without a file: reading from it
    fails with ENOSYS although descriptor 0 can be read. *)
Lemma dup_of_0_broken :
  exists st st1 st2, vfs_fcntl vfs_ex2 0 F_DUPFD 0 = Ret (3, st) /\
    vfs_read st 3 0x1000 4 = Ret (u32 (-1), st1) /\ vs_errno st1 = ENOSYS /\
    vfs_read st 0 0x1000 4 = Ret (4, st2).
Proof.
  set (st := after (vfs_fcntl vfs_ex2 0 F_DUPFD 0)).
  exists st, (after (vfs_read st 3 0x1000 4)), (after (vfs_read st 0 0x1000 4)).
  repeat split; vm_compute; reflexivity.
Qed.

(** A closed duplicate stays in use: its descriptor is never free again, and it
    can still be read. *)
Lemma closed_dup_alive :
  exists st st1, vfs_close vfs_ex3 3 = Ret (0, st) /\ vfs_read st 3 0x1000 4 = Ret (4, st1).
Proof.
  set (st := after (vfs_close vfs_ex3 3)). exists st, (after (vfs_read st 3 0x1000 4)).
  split; vm_compute; reflexivity.
Qed.

(** A file opened for reading can be written: O_RDONLY is 0. *)
Lemma write_to_rdonly :
  exists st, vfs_write vfs_ex2 1 0x1000 4 = Ret (4, st).
Proof. exists (after (vfs_write vfs_ex2 1 0x1000 4)). vm_compute. reflexivity. Qed.

(** Seeking back by one from offset 10 gives 2^32 + 9, of which 9 is returned. *)
Lemma seek_back_wraps :
  exists st st', vfs_seek vfs_ex2 1 10 VFS_SEEK_SET = Ret (10, st) /\
    vfs_seek st 1 (u32 (-1)) VFS_SEEK_CUR = Ret (9, st') /\
    f_offset <$> vs_files st' !! 1%nat = Some (2 ^ 32 + 9).
Proof.
  set (st := after (vfs_seek vfs_ex2 1 10 VFS_SEEK_SET)).
  exists st, (after (vfs_seek st 1 (u32 (-1)) VFS_SEEK_CUR)). repeat split; vm_compute; reflexivity.
Qed.

(** [dup2] does not check its second argument. *)
Lemma dup2_out_of_bounds : vfs_dup2 vfs_ex2 1 500 = Fault.
Proof. vm_compute. reflexivity. Qed.
