(* ===== verification/Sysfs.v ===== *)
(** The pseudo file system of /sys and /dev: src/src/fs/sysfs.c.

    A file of sysfs is a node of one of two doubly linked lists and has
    callbacks of its own, those of the driver that added it.  Sysfs is a file
    system of the vfs: [sysfs_backend] puts its functions on top of the
    callbacks of the drivers, and [sysfs_keeps_contract] shows that it keeps
    the contract the vfs relies on whenever the drivers do. *)
From stdpp Require Import base numbers list gmap.
From Stdlib Require Import ZArith Lia Bool.
From S2P Require Import Prelude DList Str Path Mount Vfs VfsSpec.

Open Scope Z_scope.

(** [struct sysfs_file], its links apart. *)
Record sysfs_file : Type := SysFile {
  sf_name : cstring;
  sf_cb : vfs_callbacks;
  sf_meta : Z;
  sf_type : Z;
}.

(** The objects, the variables [sys_files] and [dev_files], the clock, and the
    bytes sysfs has stored through user pointers, the last first. *)
Record sysfs_world : Type := SysWorld {
  sw_heap : dheap sysfs_file;
  sw_sys_files : Z;
  sw_dev_files : Z;
  sw_time : Z;
  sw_stores : list (Z * list Z);
}.

(** The addresses of the two variables, the [instance] of the mount points. *)
Definition SYS_FILES : Z := 1.
Definition DEV_FILES : Z := 2.

(** The addresses of the functions of sysfs. *)
Definition SYSFS_OPEN : Z := 0x100.
Definition SYSFS_STAT : Z := 0x101.
Definition SYSFS_ACCESS : Z := 0x102.
Definition SYSFS_READLINK : Z := 0x103.
Definition SYSFS_BUILD_PATH_TREE : Z := 0x104.
Definition SYSFS_CHMOD : Z := 0x105.
Definition SYSFS_CHOWN : Z := 0x106.
Definition SYSFS_GETDENTS : Z := 0x107.

(** The static [callbacks]. *)
Definition sysfs_callbacks : vfs_callbacks := {|
  cb_open := SYSFS_OPEN; cb_access := SYSFS_ACCESS; cb_read := 0; cb_write := 0; cb_getdents := 0;
  cb_stat := SYSFS_STAT; cb_mkdir := 0; cb_symlink := 0; cb_unlink := 0; cb_chmod := SYSFS_CHMOD;
  cb_chown := SYSFS_CHOWN; cb_utimes := 0; cb_link := 0; cb_readlink := SYSFS_READLINK; cb_rmdir := 0;
  cb_ioctl := 0; cb_poll := 0; cb_build_path_tree := SYSFS_BUILD_PATH_TREE |}.

Definition FT_IFDIR_MODE : Z := 0x4000.
Definition S_IRUGO : Z := 0x124.   (* S_IRUSR | S_IRGRP | S_IROTH *)
Definition S_IWUGO : Z := 0x92.    (* S_IWUSR | S_IWGRP | S_IWOTH *)
Definition S_IXUGO : Z := 0x49.    (* S_IXUSR | S_IXGRP | S_IXOTH *)
Definition X_OK : Z := 1.

(** * The lists of files *)

(** [*table], for the address of one of the two variables. *)
Definition table_head (w : sysfs_world) (table : Z) : outcome Z :=
  if table =? SYS_FILES then Ret (sw_sys_files w)
  else if table =? DEV_FILES then Ret (sw_dev_files w) else Fault.

Definition set_table (w : sysfs_world) (table : Z) (h : dheap sysfs_file) (head : Z) : sysfs_world :=
  if table =? SYS_FILES then SysWorld h head (sw_dev_files w) (sw_time w) (sw_stores w)
  else SysWorld h (sw_sys_files w) head (sw_time w) (sw_stores w).

(** [!strncmp(path, "/", 2)] *)
Definition is_root_path (path : cstring) : outcome bool :=
  r ← strncmp (buf path) (buf [SLASH]) 0 0 2; Ret (r =? 0).

Fixpoint get_file_loop (fuel : nat) (h : dheap sysfs_file) (path : cstring) (file : Z)
    : outcome (option (Z * sysfs_file)) :=
  match fuel with
  | O => Spin
  | S fuel =>
    if file =? 0 then Ret None else
    n ← load_node h file;
    r ← strcmp (buf (sf_name (nd_data n))) (buf path) 0 0;
    if r =? 0 then Ret (Some (file, nd_data n)) else get_file_loop fuel h path (nd_next n)
  end.

Definition get_file (w : sysfs_world) (path : cstring) (first : Z)
    : outcome (option (Z * sysfs_file)) :=
  root ← is_root_path path;
  if (first =? 0) || root then Ret None else
  let path := if bool_decide (head path = Some SLASH) then tail path else path in
  get_file_loop (S (size (sw_heap w))) (sw_heap w) path first.

(** [fp] is the address [zmalloc] gives. *)
Definition add_file (w : sysfs_world) (table fp : Z) (name : cstring) (cb : vfs_callbacks)
    : outcome (Z * sysfs_world) :=
  if fp =? 0 then Fault else
  name ← copy_name 40 name;
  head ← table_head w table;
  '(h, head) ← list_push (sw_heap w) head fp
     (SysFile name cb 0 (if table =? SYS_FILES then FT_IFREG else FT_IFCHR));
  Ret (fp, set_table w table h head).

Definition remove_file (w : sysfs_world) (table fp : Z) : outcome sysfs_world :=
  if fp =? 0 then Ret w else
  head ← table_head w table;
  '(h, head) ← list_unlink (sw_heap w) head fp;
  Ret (set_table w table h head).

Definition sysfs_add_file (w : sysfs_world) (fp : Z) (name : cstring) (cb : vfs_callbacks)
    : outcome (Z * sysfs_world) := add_file w SYS_FILES fp name cb.

Definition sysfs_add_dev (w : sysfs_world) (fp : Z) (name : cstring) (cb : vfs_callbacks)
    : outcome (Z * sysfs_world) := add_file w DEV_FILES fp name cb.

Definition sysfs_rm_file (w : sysfs_world) (fp : Z) : outcome sysfs_world :=
  remove_file w SYS_FILES fp.

Definition sysfs_rm_dev (w : sysfs_world) (fp : Z) : outcome sysfs_world :=
  remove_file w DEV_FILES fp.

(** * The file system *)

Section Sysfs.
Context (drivers : VfsBackend sysfs_world).
Implicit Types st : vfs_state sysfs_world.

Definition set_world st (w : sysfs_world) : vfs_state sysfs_world :=
  State (vs_task st) (vs_files st) (vs_cwd st) (vs_ctty st) (vs_euid st) (vs_errno st)
    (vs_mounts st) w.

(** [*(struct sysfs_file** )ctx->mp->instance] *)
Definition ctx_files st (ctx : vfs_callback_ctx) : outcome Z :=
  mp ← ctx_mount st ctx; table_head (vs_world st) (mp_instance mp).

Definition sysfs_stat (ctx : vfs_callback_ctx) st : outcome (Z * vfs_stat_t * vfs_state sysfs_world) :=
  is_root ← is_root_path (ctx_path ctx);
  first ← ctx_files st ctx;
  file ← get_file (vs_world st) (ctx_path ctx) first;
  let none := Stat 0 0 0 0 0 0 0 0 0 0 0 0 0 in
  let t := u32 (sw_time (vs_world st)) in
  let stat mode := Stat 2 1 mode 1 0 0 0 0 t t t 1024 2 in
  match file with
  | None =>
    if negb is_root then Ret (-1, none, set_errno st ENOENT)
    else Ret (0, stat (Z.lor FT_IFDIR (Z.lor S_IXUGO S_IRUGO)), st)
  | Some (_, f) =>
    if nz (cb_stat (sf_cb f)) then call_stat (cb_stat (sf_cb f)) ctx st
    else if (is_root : bool) then Ret (0, stat (Z.lor FT_IFDIR (Z.lor S_IXUGO S_IRUGO)), st)
    else
      let mode := sf_type f in
      let mode := if nz (cb_read (sf_cb f)) then Z.lor mode S_IRUGO else mode in
      let mode := if nz (cb_write (sf_cb f)) then Z.lor mode S_IWUGO else mode in
      Ret (0, stat mode, st)
  end.

Definition sysfs_access (ctx : vfs_callback_ctx) (amode : Z) st : outcome (Z * vfs_state sysfs_world) :=
  is_root ← is_root_path (ctx_path ctx);
  if (is_root : bool) then Ret (0, st)
  else if has_flag amode X_OK then fail st EACCES else
  first ← ctx_files st ctx;
  file ← get_file (vs_world st) (ctx_path ctx) first;
  match file with
  | None => fail st ENOENT
  | Some _ => Ret (0, st)
  end.

Definition sysfs_readlink (ctx : vfs_callback_ctx) (buf size : Z) st
    : outcome (Z * vfs_state sysfs_world) :=
  first ← ctx_files st ctx;
  file ← get_file (vs_world st) (ctx_path ctx) first;
  match file with
  | None => fail st ENOENT
  | Some (_, f) =>
    if cb_readlink (sf_cb f) =? 0 then fail st ENOSYS
    else call (cb_readlink (sf_cb f)) ctx (CReadlink buf size) st
  end.

(** [sizeof(vfs_dirent_t)] and the offset of [d_name]; [d_reclen] is at 8. *)
Definition DIRENT_SIZE : Z := 12.
Definition D_NAME : Z := 11.

(** A 16- and a 32-bit number in memory. *)
Definition le16 (x : Z) : list Z := [u8 x; u8 (x / 2 ^ 8)].
Definition le32 (x : Z) : list Z := [u8 x; u8 (x / 2 ^ 8); u8 (x / 2 ^ 16); u8 (x / 2 ^ 24)].

(** The loop of [sysfs_getdents]: the total length, the number of entries and
    what is stored. *)
Fixpoint getdents_loop (fuel : nat) (h : dheap sysfs_file) (file i dir total_length count size : Z)
    (out : list (Z * list Z)) : outcome (Z * Z * list (Z * list Z)) :=
  match fuel with
  | O => Spin
  | S fuel =>
    if file =? 0 then Ret (total_length, count, out) else
    n ← load_node h file;
    name_len ← strlen (buf (sf_name (nd_data n))) 0;
    let rec_len := u32 (DIRENT_SIZE + name_len + 1) in
    if size <? u32 (total_length + rec_len) then Ret (total_length, count, out) else
    let name := take (Z.to_nat name_len) (sf_name (nd_data n)) in
    let out := (dir + 8, le16 rec_len) :: (dir, le32 i) ::
               (dir + D_NAME + name_len, [0]) :: (dir + D_NAME, name) :: out in
    getdents_loop fuel h (nd_next n) (i + 1) (dir + u16 rec_len) (u32 (total_length + rec_len))
      (count + 1) size out
  end.

Definition sysfs_getdents (ctx : vfs_callback_ctx) (dest sz : Z) st
    : outcome (Z * vfs_state sysfs_world) :=
  first ← ctx_files st ctx;
  i ← match ctx_fp ctx with Some i => Ret i | None => Fault end;
  fp ← aload (vs_files st) (Z.of_nat i);
  if (first =? 0) || nz (f_offset fp) then Ret (0, st) else
  let w := vs_world st in
  '(total, count, out) ←
    getdents_loop (S (size (sw_heap w))) (sw_heap w) first 2 dest 0 0 sz (sw_stores w);
  st ← update st i (fun f => with_offset f (u64 (f_offset f + count)));
  Ret (total, set_world st (SysWorld (sw_heap w) (sw_sys_files w) (sw_dev_files w) (sw_time w) out)).

(** What [sysfs_open] fills in: [inode], [type], [meta] and the callbacks. *)
Definition with_node (f : vfs_file) (type meta : Z) (cb : vfs_callbacks) : vfs_file :=
  File (f_refs f) (f_dup_target f) type (f_num f) (f_path f) (f_mount_path f) (f_mp f)
    (f_mount_instance f) cb (f_flags f) (f_offset f) 1 meta.

Definition with_getdents (cb : vfs_callbacks) (p : Z) : vfs_callbacks :=
  Callbacks (cb_open cb) (cb_access cb) (cb_read cb) (cb_write cb) p (cb_stat cb) (cb_mkdir cb)
    (cb_symlink cb) (cb_unlink cb) (cb_chmod cb) (cb_chown cb) (cb_utimes cb) (cb_link cb)
    (cb_readlink cb) (cb_rmdir cb) (cb_ioctl cb) (cb_poll cb) (cb_build_path_tree cb).

Definition with_stat_access (cb : vfs_callbacks) (stat access : Z) : vfs_callbacks :=
  Callbacks (cb_open cb) access (cb_read cb) (cb_write cb) (cb_getdents cb) stat (cb_mkdir cb)
    (cb_symlink cb) (cb_unlink cb) (cb_chmod cb) (cb_chown cb) (cb_utimes cb) (cb_link cb)
    (cb_readlink cb) (cb_rmdir cb) (cb_ioctl cb) (cb_poll cb) (cb_build_path_tree cb).

Definition sysfs_open (ctx : vfs_callback_ctx) (flags : Z) st
    : outcome (option nat * cstring * vfs_state sysfs_world) :=
  first ← ctx_files st ctx;
  file ← get_file (vs_world st) (ctx_path ctx) first;
  is_root ← is_root_path (ctx_path ctx);
  let own_open := match file with Some (_, f) => cb_open (sf_cb f) | None => 0 end in
  if negb (bool_decide (is_Some file) || is_root) then Ret (None, ctx_path ctx, set_errno st ENOENT)
  else if nz own_open then call_open own_open ctx flags st
  else
    '(r, st) ← vfs_alloc_fileno st 0;
    match r with
    | None => Ret (None, ctx_path ctx, st)
    | Some i =>
      st ←
        (if (is_root : bool)
         then update st i (fun f =>
                with_node f FT_IFDIR (f_meta f) (with_getdents sysfs_callbacks SYSFS_GETDENTS))
         else match file with
              | Some (_, sf) =>
                let cb := sf_cb sf in
                let stat := if cb_stat cb =? 0 then SYSFS_STAT else cb_stat cb in
                let access := if cb_access cb =? 0 then SYSFS_ACCESS else cb_access cb in
                update st i (fun f =>
                  with_node f (sf_type sf) (u32 (sf_meta sf)) (with_stat_access cb stat access))
              | None => Fault
              end);
      Ret (Some i, ctx_path ctx, st)
    end.

(** Sysfs on top of the drivers: a call goes to the function at the address. *)
Definition sysfs_backend : VfsBackend sysfs_world := {|
  call p ctx op st :=
    match op with
    | CAccess amode => if p =? SYSFS_ACCESS then sysfs_access ctx amode st else call p ctx op st
    | CReadlink b n => if p =? SYSFS_READLINK then sysfs_readlink ctx b n st else call p ctx op st
    | CGetdents d n => if p =? SYSFS_GETDENTS then sysfs_getdents ctx d n st else call p ctx op st
    | CChmod _ => if p =? SYSFS_CHMOD then Ret (0, st) else call p ctx op st
    | CChown _ _ => if p =? SYSFS_CHOWN then Ret (0, st) else call p ctx op st
    | _ => call p ctx op st
    end;
  call_open p ctx flags st :=
    if p =? SYSFS_OPEN then sysfs_open ctx flags st else call_open p ctx flags st;
  call_stat p ctx st :=
    if p =? SYSFS_STAT then sysfs_stat ctx st else call_stat p ctx st;
  net_vfs_close_cb := net_vfs_close_cb;
  vm_map_user := vm_map_user;
  task_signal_segv := task_signal_segv;
  store_string := store_string;
  block_get_dev := block_get_dev;
  ext2_mount := ext2_mount;
|}.

(** * The contract of the vfs *)

Lemma sysfs_getdents_keeps ctx dest sz st r st' :
  sysfs_getdents ctx dest sz st = Ret (r, st') -> keeps st st'.
Proof.
  unfold sysfs_getdents. intros Hc. unbind Hc as first Hf. unbind Hc as i Hi. unbind Hc as fp Hp.
  destruct ((first =? 0) || nz (f_offset fp)); [simplify_eq; apply keeps_refl |].
  unbind Hc as [[total count] out] Hl. unbind Hc as st1 Hu. simplify_eq.
  eapply keeps_trans; [eapply offset_keeps; exact Hu | by apply keeps_files].
Qed.

Lemma sysfs_open_allocates `{!VfsBackendLaws sysfs_world} ctx flags st r cp st' :
  sysfs_open ctx flags st = Ret (r, cp, st') ->
  match r with
  | None => keeps st st'
  | Some i => exists st1 min st2, keeps st st1 /\ 0 <= min /\
      vfs_alloc_fileno st1 min = Ret (Some i, st2) /\ keeps st2 st'
  end.
Proof.
  unfold sysfs_open. intros Hc. unbind Hc as first Hf. unbind Hc as file Hg. unbind Hc as is_root Hr.
  destruct (negb (bool_decide (is_Some file) || is_root)).
  { simplify_eq. apply keeps_errno. }
  destruct (nz _); [by eapply law_open |]. unbind Hc as [[i |] st1] Ha.
  - unbind Hc as st2 Hu. injection Hc as <- <- <-. exists st, 0, st1.
    split; [apply keeps_refl |]. split; [done |]. split; [done |].
    destruct is_root; [eapply update_keeps; [| exact Hu]; done |].
    destruct file as [[a sf] |]; [| done]. eapply update_keeps; [| exact Hu]; done.
  - injection Hc as <- <- <-. unfold vfs_alloc_fileno in Ha. unbind Ha as k Hk.
    destruct k; [by unbind Ha as s Hs |]. simplify_eq. apply keeps_errno.
Qed.

Lemma sysfs_call_keeps `{!VfsBackendLaws sysfs_world} p ctx op st r st' :
  (@call _ sysfs_backend) p ctx op st = Ret (r, st') -> keeps st st'.
Proof.
  destruct op; simpl; try apply law_call.
  - destruct (p =? SYSFS_ACCESS); [| apply law_call]. unfold sysfs_access. intros Hc.
    unbind Hc as is_root Hr. destruct is_root; [simplify_eq; apply keeps_refl |].
    destruct (has_flag amode X_OK); [by eapply fail_keeps |].
    unbind Hc as first Hf. unbind Hc as [file |] Hg; [simplify_eq; apply keeps_refl | by eapply fail_keeps].
  - destruct (p =? SYSFS_GETDENTS); [apply sysfs_getdents_keeps | apply law_call].
  - destruct (p =? SYSFS_CHMOD); [intros ?; simplify_eq; apply keeps_refl | apply law_call].
  - destruct (p =? SYSFS_CHOWN); [intros ?; simplify_eq; apply keeps_refl | apply law_call].
  - destruct (p =? SYSFS_READLINK); [| apply law_call]. unfold sysfs_readlink. intros Hc.
    unbind Hc as first Hf. unbind Hc as [[a f] |] Hg; [| by eapply fail_keeps].
    destruct (cb_readlink (sf_cb f) =? 0); [by eapply fail_keeps | by eapply law_call].
Qed.

Lemma sysfs_stat_keeps `{!VfsBackendLaws sysfs_world} ctx st r s st' :
  sysfs_stat ctx st = Ret (r, s, st') -> keeps st st'.
Proof.
  unfold sysfs_stat. intros Hc. unbind Hc as is_root Hr. unbind Hc as first Hf. unbind Hc as file Hg.
  destruct file as [[a f] |].
  - destruct (nz (cb_stat (sf_cb f))); [by eapply law_stat |].
    destruct is_root; simplify_eq; apply keeps_refl.
  - destruct (negb is_root); simplify_eq; [apply keeps_errno | apply keeps_refl].
Qed.

End Sysfs.

(** sysfs keeps the contract of the vfs: if the callbacks of the drivers
    leave the structure of the descriptor table alone, so do all functions of
    sysfs, [open] apart, which allocates exactly the descriptor it returns. *)
Theorem sysfs_keeps_contract (drivers : VfsBackend sysfs_world) :
  VfsBackendLaws (H := drivers) sysfs_world ->
  VfsBackendLaws (H := sysfs_backend drivers) sysfs_world.
Proof.
  intros Hl. split.
  - apply sysfs_call_keeps, Hl.
  - intros p ctx st r s st'. simpl. destruct (p =? SYSFS_STAT);
      [by apply sysfs_stat_keeps | apply law_stat].
  - intros p ctx flags st r cp st'. simpl. destruct (p =? SYSFS_OPEN);
      [by apply sysfs_open_allocates | apply law_open].
  - apply (law_net (VfsBackendLaws := Hl)).
  - apply (law_map (VfsBackendLaws := Hl)).
  - apply (law_segv (VfsBackendLaws := Hl)).
  - apply (law_store (VfsBackendLaws := Hl)).
  - apply (law_mount (VfsBackendLaws := Hl)).
Qed.

Lemma sysfs_keeps_contract_witness :
  VfsBackendLaws (H := sysfs_backend (null_backend sysfs_world)) sysfs_world.
Proof. apply (sysfs_keeps_contract (null_backend sysfs_world)), null_backend_laws. Defined.

(** * Directory listings *)

Definition name_ok (f : sysfs_file) : Prop :=
  path_ok (sf_name f) /\ Z.of_nat (length (sf_name f)) < 40.

Definition rec_len (f : sysfs_file) : Z := DIRENT_SIZE + Z.of_nat (length (sf_name f)) + 1.

(** The stores for one entry, in their order. *)
Definition entry (f : sysfs_file) (i dir : Z) : list (Z * list Z) :=
  [(dir + D_NAME, sf_name f); (dir + D_NAME + Z.of_nat (length (sf_name f)), [0]);
   (dir, le32 i); (dir + 8, le16 (rec_len f))].

(** The entries of the files of [l] from [dir] on, numbered from [i]. *)
Fixpoint entries (l : list (Z * sysfs_file)) (i dir : Z) : list (Z * list Z) :=
  match l with
  | [] => []
  | (_, f) :: l => entry f i dir ++ entries l (i + 1) (dir + rec_len f)
  end.

Fixpoint entries_size (l : list (Z * sysfs_file)) : Z :=
  match l with
  | [] => 0
  | (_, f) :: l => rec_len f + entries_size l
  end.

Lemma getdents_loop_spec h l pr file last i dir total count size out fuel :
  lseg h pr file l last 0 -> Forall (fun e => name_ok e.2) l -> (length l < fuel)%nat ->
  0 <= total <= size -> size < 2 ^ 31 ->
  exists l1 l2, l = l1 ++ l2 /\
    getdents_loop fuel h file i dir total count size out =
      Ret (total + entries_size l1, count + Z.of_nat (length l1), reverse (entries l1 i dir) ++ out) /\
    total + entries_size l1 <= size /\
    match l2 with (_, f) :: _ => size < total + entries_size l1 + rec_len f | [] => True end.
Proof.
  revert pr file i dir total count out fuel.
  induction l as [| [a f] l IH]; intros pr file i dir total count out fuel Hl Hok Hf Ht Hs;
    (destruct fuel as [| fuel]; [simpl in Hf; lia |]); cbn [getdents_loop].
  { destruct Hl as [-> _]. exists [], []. cbn. rewrite !Z.add_0_r. split; [done |]. split; [done | lia]. }
  destruct Hl as (-> & Ha & nx & Hnx & Hl). apply Forall_cons in Hok as [[Hn Hlen] Hok].
  cbn [snd] in Hn, Hlen. destruct (Z.eqb_spec a 0); [done |]. unfold load_node. rewrite Hnx, bind_Ret.
  cbn [nd_data nd_next]. rewrite strlen_path, bind_Ret by done.
  assert (u32 (DIRENT_SIZE + Z.of_nat (length (sf_name f)) + 1) = rec_len f) as ->
    by (apply u32_small; unfold rec_len, DIRENT_SIZE; lia).
  assert (0 <= rec_len f < 60) as Hrl by (unfold rec_len, DIRENT_SIZE; lia).
  rewrite u32_small by lia. destruct (Z.ltb_spec size (total + rec_len f)) as [Hb | Hb].
  { exists [], ((a, f) :: l). cbn [app entries_size length entries Z.of_nat]. rewrite !Z.add_0_r.
    split; [done |]. split; [done |]. lia. }
  assert (u16 (rec_len f) = rec_len f) as -> by (apply Z.mod_small; lia).
  rewrite Nat2Z.id, take_ge by done.
  destruct (IH a nx (i + 1) (dir + rec_len f) (total + rec_len f) (count + 1)
    (reverse (entry f i dir) ++ out) fuel) as (l1 & l2 & -> & Heq & Hle & Hnext);
    [done | done | simpl in Hf; lia | lia | done |].
  exists ((a, f) :: l1), l2. split; [done |]. cbn [entries_size entries length].
  split; [| split; [lia | destruct l2 as [| [b g] l2]; [done | lia]]].
  etransitivity; [exact Heq |]. rewrite reverse_app, <- app_assoc, Z.add_assoc.
  by replace (count + Z.of_nat (S (length l1))) with (count + 1 + Z.of_nat (length l1)) by lia.
Qed.

Lemma entries_bounds l i dir a bs :
  (a, bs) ∈ entries l i dir -> dir <= a /\ a + Z.of_nat (length bs) <= dir + entries_size l.
Proof.
  revert i dir. assert (forall l, 0 <= entries_size l) as Hnn.
  { intros k. induction k as [| [b f] k IH]; cbn [entries_size]; unfold rec_len, DIRENT_SIZE; lia. }
  induction l as [| [b f] l IH]; intros i dir Hin; cbn [entries entries_size] in *;
    [by apply not_elem_of_nil in Hin |].
  pose proof (Hnn l). apply elem_of_app in Hin as [Hin | Hin].
  - unfold entry, rec_len, D_NAME, DIRENT_SIZE in *.
    repeat (apply elem_of_cons in Hin as [Hin | Hin]; [simplify_eq; simpl; lia |]).
    by apply not_elem_of_nil in Hin.
  - apply IH in Hin. unfold rec_len, DIRENT_SIZE in *. lia.
Qed.

(** [sysfs_getdents] on a directory read from the start lists the files in
    the order of the list, as many as fit into the buffer; it stores one
    record per file, back to back, returns their total length, and stores
    nothing outside the buffer. *)
Theorem sysfs_getdents_lists st ctx i fp table l dest size :
  ctx_files st ctx = Ret table -> list_rep (sw_heap (vs_world st)) table l ->
  Forall (fun e => name_ok e.2) l ->
  ctx_fp ctx = Some i -> vs_files st !! i = Some fp -> f_offset fp = 0 -> 0 <= size < 2 ^ 31 ->
  exists l1 l2 st', l = l1 ++ l2 /\
    sysfs_getdents ctx dest size st = Ret (entries_size l1, st') /\
    sw_stores (vs_world st') = reverse (entries l1 2 dest) ++ sw_stores (vs_world st) /\
    entries_size l1 <= size /\
    (forall a bs, (a, bs) ∈ entries l1 2 dest -> dest <= a /\ a + Z.of_nat (length bs) <= dest + size) /\
    match l2 with (_, f) :: _ => size < entries_size l1 + rec_len f | [] => True end.
Proof.
  intros Hc Hrep Hok Hfp Hf Hoff Hsz. unfold sysfs_getdents. rewrite Hc, bind_Ret, Hfp, bind_Ret.
  assert (aload (vs_files st) (Z.of_nat i) = Ret fp) as ->
    by (apply aload_Ret; rewrite Nat2Z.id; split; [lia | done]).
  rewrite bind_Ret, Hoff. destruct (Z.eqb_spec table 0) as [-> | Hne]; cbn [orb nz Z.eqb negb].
  { apply list_rep_null in Hrep as ->. exists [], [], st. cbn. split; [done |]. split; [done |].
    split; [done |]. split; [lia |]. split; [| done]. intros a bs Hin. by apply not_elem_of_nil in Hin. }
  pose proof (list_rep_length _ _ _ Hrep) as Hlen. destruct Hrep as [_ [last Hl]].
  destruct (getdents_loop_spec (sw_heap (vs_world st)) l 0 table last 2 dest 0 0 size
    (sw_stores (vs_world st)) (S (base.size (sw_heap (vs_world st)))))
    as (l1 & l2 & -> & Hloop & Hle & Hnext); [done | done | lia | lia | lia |].
  rewrite Hloop, bind_Ret. unfold update.
  assert (aload (vs_files st) (Z.of_nat i) = Ret fp) as ->
    by (apply aload_Ret; rewrite Nat2Z.id; split; [lia | done]).
  rewrite !bind_Ret. exists l1, l2. eexists. split; [done |]. split; [by rewrite Z.add_0_l |].
  split; [done |]. split; [lia |]. split; [| by rewrite Z.add_0_l in Hnext].
  intros a bs Hin%entries_bounds. lia.
Qed.

(** A system with the file null in /dev, whose directory is open as 0. *)
Definition sysfs_null : sysfs_file := SysFile [110; 117; 108; 108] no_callbacks 0 FT_IFCHR.

Definition sysfs_ex : vfs_state sysfs_world :=
  State true (<[0%nat := with_refs zero_file 1]> fresh_table) [SLASH] 0 0 0
    (Mounts (<[0x100 := Node 0 0 (Mountpoint [47; 100; 101; 118] DEV_FILES [115] 0 sysfs_callbacks)]> ∅)
       0x100 ∅)
    (SysWorld (<[0x500 := Node 0 0 sysfs_null]> ∅) 0 0x500 1000 []).

Lemma sysfs_getdents_lists_witness :
  exists l1 l2 st', [(0x500, sysfs_null)] = l1 ++ l2 /\
    sysfs_getdents (Ctx (Some 0%nat) [] [SLASH] 0x100) 0x4000 100 sysfs_ex = Ret (entries_size l1, st') /\
    sw_stores (vs_world st') = reverse (entries l1 2 0x4000) ++ sw_stores (vs_world sysfs_ex) /\
    entries_size l1 <= 100 /\
    (forall a bs, (a, bs) ∈ entries l1 2 0x4000 ->
       0x4000 <= a /\ a + Z.of_nat (length bs) <= 0x4000 + 100) /\
    match l2 with (_, f) :: _ => 100 < entries_size l1 + rec_len f | [] => True end.
Proof.
  apply (sysfs_getdents_lists sysfs_ex (Ctx (Some 0%nat) [] [SLASH] 0x100) 0%nat
           (with_refs zero_file 1) 0x500 [(0x500, sysfs_null)]);
    [reflexivity | | | reflexivity.. | lia].
  - split; [repeat constructor; set_solver |]. exists 0x500. simpl. split; [done |]. split; [done |].
    by exists 0.
  - constructor; [| constructor]. split; [repeat constructor; lia | simpl; lia].
Defined.

(** * Names *)

(** The first file of a list with a name. *)
Definition lookup_name (l : list (Z * sysfs_file)) (name : cstring) : option (Z * sysfs_file) :=
  List.find (fun e => bool_decide (sf_name e.2 = name)) l.

Lemma get_file_loop_spec h l pr file last name fuel :
  lseg h pr file l last 0 -> Forall (fun e => name_ok e.2) l -> path_ok name ->
  (length l < fuel)%nat -> get_file_loop fuel h name file = Ret (lookup_name l name).
Proof.
  intros Hl Hok Hn. revert pr file fuel Hl.
  induction l as [| [a f] l IH]; intros pr file fuel Hl Hf;
    (destruct fuel as [| fuel]; [simpl in Hf; lia |]); cbn [get_file_loop].
  { destruct Hl as [-> _]. done. }
  destruct Hl as (-> & Ha & nx & Hnx & Hl). apply Forall_cons in Hok as [[Hfn _] Hok].
  destruct (Z.eqb_spec a 0); [done |]. unfold load_node. rewrite Hnx, bind_Ret. cbn [nd_data nd_next].
  rewrite (strcmp_spec _ _ 0 0 (sf_name f) name), bind_Ret by (by apply path_ok_cstr).
  unfold lookup_name. cbn [List.find snd].
  destruct (Z.eqb_spec (cmp_str (sf_name f) name) 0) as [E%cmp_str_0 | E].
  - by rewrite bool_decide_true.
  - rewrite bool_decide_false by (by intros ?%cmp_str_0).
    apply (IH Hok a); [done | simpl in Hf; lia].
Qed.

(** The path /name of a file of the table finds the first file with the name. *)
Lemma get_file_spec w hd l name :
  list_rep (sw_heap w) hd l -> Forall (fun e => name_ok e.2) l -> path_ok name -> name <> [] ->
  get_file w (SLASH :: name) hd = Ret (lookup_name l name).
Proof.
  intros Hr Hok Hn Hne. unfold get_file, is_root_path.
  destruct (strncmp_spec (buf (SLASH :: name)) (buf [SLASH]) 0 0 (SLASH :: name) [SLASH] 2)
    as (r & -> & Hiff); [| | lia |].
  { apply path_ok_cstr. constructor; [unfold SLASH; lia | done]. }
  { apply path_ok_cstr. repeat constructor; unfold SLASH; lia. }
  rewrite !bind_Ret. destruct (Z.eqb_spec r 0) as [E | E].
  { apply Hiff in E. destruct name as [| c name]; [done |].
    apply Forall_cons in Hn as [Hc _]. simpl in E. injection E. lia. }
  rewrite orb_false_r. cbn [head tail]. rewrite bool_decide_true by done.
  pose proof (list_rep_length _ _ _ Hr) as Hlen.
  destruct (Z.eqb_spec hd 0) as [-> | Hh]; [by apply list_rep_null in Hr as -> |].
  destruct Hr as [_ [last Hl]]. eapply get_file_loop_spec; try done. lia.
Qed.

(** a file added to /sys or /dev is found under its name, all other names
    are looked up as before, and removing the file restores the table. *)
Theorem sysfs_add_remove w table hd l fp name cb :
  table_head w table = Ret hd -> list_rep (sw_heap w) hd l -> Forall (fun e => name_ok e.2) l ->
  fp <> 0 -> sw_heap w !! fp = None -> path_ok name -> name <> [] -> Z.of_nat (length name) < 40 ->
  exists w1 f w2 hd2, add_file w table fp name cb = Ret (fp, w1) /\
    get_file w1 (SLASH :: name) fp = Ret (Some (fp, f)) /\ sf_name f = name /\ sf_cb f = cb /\
    (forall name', path_ok name' -> name' <> [] -> name' <> name ->
       get_file w1 (SLASH :: name') fp = get_file w (SLASH :: name') hd) /\
    remove_file w1 table fp = Ret w2 /\ table_head w2 table = Ret hd2 /\ list_rep (sw_heap w2) hd2 l.
Proof.
  intros Hh Hr Hok Hfp Hfree Hn Hne Hlen. unfold add_file, copy_name.
  destruct (Z.eqb_spec fp 0); [done |]. destruct (Z.ltb_spec (Z.of_nat (length name)) 40); [| lia].
  rewrite bind_Ret, Hh, bind_Ret. set (f := SysFile name cb 0 _).
  destruct (list_push_spec _ _ _ fp f Hr Hfp Hfree) as (h1 & -> & Hr1 & _). rewrite bind_Ret.
  set (w1 := set_table w table h1 fp).
  assert (sw_heap w1 = h1) as Hw1 by (unfold w1, set_table; by destruct (table =? SYS_FILES)).
  assert (table_head w1 table = Ret fp) as Ht1.
  { unfold w1, set_table, table_head in *. destruct (table =? SYS_FILES); [done |].
    by destruct (table =? DEV_FILES). }
  assert (Forall (fun e => name_ok e.2) ((fp, f) :: l)) as Hok1 by (constructor; [by split | done]).
  assert (list_rep (sw_heap w1) fp ((fp, f) :: l)) as Hr1' by (by rewrite Hw1).
  destruct (list_unlink_spec h1 fp [] fp f l Hr1) as (h2 & hd2 & Hu & Hr2 & _).
  exists w1, f, (set_table w1 table h2 hd2), hd2. split; [done |].
  split; [| split; [done | split; [done | split]]].
  - rewrite (get_file_spec w1 fp ((fp, f) :: l)) by done. unfold lookup_name. cbn [List.find snd].
    by rewrite bool_decide_true.
  - intros name' Hn' Hne' Hd. rewrite (get_file_spec w1 fp ((fp, f) :: l)), (get_file_spec w hd l) by done.
    unfold lookup_name. cbn [List.find snd]. by rewrite bool_decide_false.
  - unfold remove_file. destruct (Z.eqb_spec fp 0); [done |]. rewrite Ht1, bind_Ret, Hw1, Hu, bind_Ret.
    split; [done |]. unfold set_table, table_head in *. destruct (table =? SYS_FILES); [done |].
    by destruct (table =? DEV_FILES).
Qed.

Lemma sysfs_add_remove_witness :
  exists w1 f w2 hd2,
    add_file (vs_world sysfs_ex) DEV_FILES 0x600 [122] no_callbacks = Ret (0x600, w1) /\
    get_file w1 [SLASH; 122] 0x600 = Ret (Some (0x600, f)) /\ sf_name f = [122] /\ sf_cb f = no_callbacks /\
    (forall name', path_ok name' -> name' <> [] -> name' <> [122] ->
       get_file w1 (SLASH :: name') 0x600 = get_file (vs_world sysfs_ex) (SLASH :: name') 0x500) /\
    remove_file w1 DEV_FILES 0x600 = Ret w2 /\ table_head w2 DEV_FILES = Ret hd2 /\
    list_rep (sw_heap w2) hd2 [(0x500, sysfs_null)].
Proof.
  apply (sysfs_add_remove (vs_world sysfs_ex) DEV_FILES 0x500 [(0x500, sysfs_null)]);
    [reflexivity | | | lia | reflexivity | repeat constructor; lia | done | simpl; lia].
  - split; [repeat constructor; set_solver |]. exists 0x500. simpl. split; [done |]. split; [done |].
    by exists 0.
  - constructor; [| constructor]. split; [repeat constructor; lia | simpl; lia].
Defined.

(** A directory that does not fit into the buffer is cut off: the position is
    no longer 0, so the next call reports the end of the directory. *)
Lemma getdents_truncates :
  exists st st',
    sysfs_getdents (Ctx (Some 0%nat) [] [SLASH] 0x100) 0x4000 20
      (set_world sysfs_ex (SysWorld (<[0x600 := Node 0 0x500 sysfs_null]> (<[0x500 := Node 0x600 0 sysfs_null]> ∅))
         0 0x600 1000 [])) = Ret (17, st) /\
    sysfs_getdents (Ctx (Some 0%nat) [] [SLASH] 0x100) 0x4000 20 st = Ret (0, st').
Proof.
  eexists. eexists. split; [reflexivity |]. reflexivity.
Qed.
