(* ===== verification/Pipe.v ===== *)
(** Pipes: src/src/fs/pipe.c.

    A pipe is a byte buffer (Buffer.v) with the numbers of its two descriptors.
    While a reader waits, other tasks run: [env i] is what they do to the state
    during its [i]-th [scheduler_yield].  [patience] bounds the number of times
    it waits; a read that needs more is [Spin]. *)
From stdpp Require Import base numbers list gmap.
From Stdlib Require Import ZArith Lia Bool.
From S2P Require Import Prelude Spinlock Str Buffer DList Path Mount Vfs VfsSpec.

Open Scope Z_scope.

(** [struct pipe] *)
Record pipe : Type := Pipe {
  pipe_buf : buffer;
  pipe_fd0 : Z;
  pipe_fd1 : Z;
}.

(** The pipes by address, the memory they get their pages from, and the clock. *)
Record pipe_world (S : Type) : Type := PipeWorld {
  pw_pipes : gmap Z pipe;
  pw_pages : S;
  pw_time : Z;
}.

Arguments PipeWorld {S} pw_pipes pw_pages pw_time.
Arguments pw_pipes {S} p.
Arguments pw_pages {S} p.
Arguments pw_time {S} p.

(** The addresses of the callbacks. *)
Definition PIPE_READ : Z := 0x200.
Definition PIPE_WRITE : Z := 0x201.
Definition PIPE_POLL : Z := 0x202.
Definition PIPE_STAT : Z := 0x203.

Definition POLLIN : Z := 1.
Definition FT_IFIFO : Z := 0x1000.

Section Pipe.
Context {S : Type} `{PageSource S} `{VfsBackend (pipe_world S)}.
Implicit Types st : vfs_state (pipe_world S).

Definition set_pworld st (w : pipe_world S) : vfs_state (pipe_world S) :=
  State (vs_task st) (vs_files st) (vs_cwd st) (vs_ctty st) (vs_euid st) (vs_errno st)
    (vs_mounts st) w.

Definition set_pipe st (p : Z) (x : pipe) : vfs_state (pipe_world S) :=
  set_pworld st (PipeWorld (<[p := x]> (pw_pipes (vs_world st))) (pw_pages (vs_world st))
                   (pw_time (vs_world st))).

(** The open file of a context, and its pipe. *)
Definition ctx_file st (ctx : vfs_callback_ctx) : outcome vfs_file :=
  match ctx_fp ctx with Some i => aload (vs_files st) (Z.of_nat i) | None => Fault end.

Definition load_pipe st (p : Z) : outcome pipe :=
  match pw_pipes (vs_world st) !! p with Some x => Ret x | None => Fault end.

(** [while(!buffer_size(pipe->buf))]: true when there are data, false with the
    value to return otherwise. *)
Fixpoint pipe_wait (patience : nat) (i : nat) (env : nat -> vfs_state (pipe_world S) -> vfs_state (pipe_world S))
    (ctx : vfs_callback_ctx) (p : Z) st : outcome (option Z * vfs_state (pipe_world S)) :=
  x ← load_pipe st p;
  '(n, b) ← buffer_size (pipe_buf x);
  let st := set_pipe st p (Pipe b (pipe_fd0 x) (pipe_fd1 x)) in
  if nz n then Ret (None, st) else
  write_fp ← vfs_get_from_id st (pipe_fd1 x);
  match write_fp with
  | None => Ret (Some 0, st)
  | Some _ =>
    fp ← ctx_file st ctx;
    if has_flag (f_flags fp) O_NONBLOCK then Ret (Some (u32 (-1)), set_errno st EAGAIN) else
    match patience with
    | O => Spin
    | Datatypes.S patience => pipe_wait patience (Datatypes.S i) env ctx p (env i st)
    end
  end.

(** The result, the contents of [dest] and the state. *)
Definition pipe_read (patience : nat) (env : nat -> vfs_state (pipe_world S) -> vfs_state (pipe_world S))
    (ctx : vfs_callback_ctx) (dest : list Z) (size : Z) st
    : outcome (Z * list Z * vfs_state (pipe_world S)) :=
  fp ← ctx_file st ctx;
  let p := f_mount_instance fp in
  '(r, st) ← pipe_wait patience 0 env ctx p st;
  match r with
  | Some r => Ret (r, dest, st)
  | None =>
    x ← load_pipe st p;
    '(n, dest, b) ← buffer_pop (pipe_buf x) dest size;
    Ret (n, dest, set_pipe st p (Pipe b (pipe_fd0 x) (pipe_fd1 x)))
  end.

Definition pipe_write (ctx : vfs_callback_ctx) (source : list Z) (size : Z) st
    : outcome (Z * vfs_state (pipe_world S)) :=
  fp ← ctx_file st ctx;
  let p := f_mount_instance fp in
  x ← load_pipe st p;
  '(n, b, pages, e) ← buffer_write (pw_pages (vs_world st)) (vs_errno st) (pipe_buf x) source size;
  let st := set_pworld st (PipeWorld (<[p := Pipe b (pipe_fd0 x) (pipe_fd1 x)]> (pw_pipes (vs_world st)))
                             pages (pw_time (vs_world st))) in
  Ret (n, set_errno st e).

Definition pipe_poll (ctx : vfs_callback_ctx) (events : Z) st : outcome (Z * vfs_state (pipe_world S)) :=
  fp ← ctx_file st ctx;
  let p := f_mount_instance fp in
  if p =? 0 then fail st EINVAL else
  if has_flag (u32 events) POLLIN then
    x ← load_pipe st p;
    '(n, b) ← buffer_size (pipe_buf x);
    let st := set_pipe st p (Pipe b (pipe_fd0 x) (pipe_fd1 x)) in
    Ret (if nz n then POLLIN else 0, st)
  else Ret (0, st).

Definition pipe_stat (ctx : vfs_callback_ctx) st : outcome (Z * vfs_stat_t * vfs_state (pipe_world S)) :=
  let t := u32 (pw_time (vs_world st)) in
  Ret (0, Stat 3 1 (Z.lor FT_IFIFO 0x1b6) 2 0 0 0 0 t t t 1024 2, st).

(** The fields [vfs_pipe] sets on one end. *)
Definition pipe_end (f : vfs_file) (read write flags instance : Z) : vfs_file :=
  let cb := f_callbacks f in
  File (f_refs f) (f_dup_target f) FT_IFPIPE (f_num f) (f_path f) (f_mount_path f) (f_mp f) instance
    (Callbacks (cb_open cb) (cb_access cb) read write (cb_getdents cb) PIPE_STAT (cb_mkdir cb)
      (cb_symlink cb) (cb_unlink cb) (cb_chmod cb) (cb_chown cb) (cb_utimes cb) (cb_link cb)
      (cb_readlink cb) (cb_rmdir cb) (cb_ioctl cb) PIPE_POLL (cb_build_path_tree cb))
    flags (f_offset f) (f_inode f) (f_meta f).

(** [p] is the address [zmalloc] gives; a NULL is not checked.  The result is
    the value returned and the two descriptors. *)
Definition vfs_pipe st (p : Z) : outcome (Z * option (Z * Z) * vfs_state (pipe_world S)) :=
  '(r1, st) ← vfs_alloc_fileno st 3;
  match r1 with
  | None => Ret (-1, None, set_errno st EMFILE)
  | Some i =>
    fd1 ← aload (vs_files st) (Z.of_nat i);
    '(r2, st) ← vfs_alloc_fileno st (s32 (f_num fd1));
    match r2 with
    | None =>
      '(_, st) ← vfs_close st (s32 (f_num fd1));
      Ret (-1, None, set_errno st EMFILE)
    | Some j =>
      fd2 ← aload (vs_files st) (Z.of_nat j);
      if p =? 0 then Fault else
      let w := vs_world st in
      match buffer_new (pw_pages w) 150 with
      | (None, pages) => Ret (-1, None, set_pworld st (PipeWorld (pw_pipes w) pages (pw_time w)))
      | (Some b, pages) =>
        let st := set_pworld st (PipeWorld (<[p := Pipe b (s32 (f_num fd1)) (s32 (f_num fd2))]> (pw_pipes w))
                                   pages (pw_time w)) in
        st ← update st i (fun f => pipe_end f PIPE_READ (cb_write (f_callbacks f)) O_RDONLY p);
        st ← update st j (fun f => pipe_end f (cb_read (f_callbacks f)) PIPE_WRITE O_WRONLY p);
        Ret (0, Some (s32 (f_num fd1), s32 (f_num fd2)), st)
      end
    end
  end.

End Pipe.

(** * Reading and writing *)

Section PipeSpec.
Context {S : Type} `{PageSourceLaws S} `{VfsBackendLaws (pipe_world S)}.
Implicit Types st : vfs_state (pipe_world S).
Implicit Types env : nat -> vfs_state (pipe_world S) -> vfs_state (pipe_world S).

(** The context is one of a descriptor of the pipe at [p], which is [x]. *)
Definition on_pipe st (ctx : vfs_callback_ctx) (p : Z) (x : pipe) (f : vfs_file) : Prop :=
  ctx_file st ctx = Ret f /\ f_mount_instance f = p /\
  pw_pipes (vs_world st) !! p = Some x /\ buffer_wf (pipe_buf x).

Lemma buffer_size_wf b : buffer_wf b -> buffer_size b = Ret (buf_size b, b).
Proof.
  intros Hwf. destruct (Hwf) as [Hk _ _ _ _]. unfold buffer_size, lock_acquire.
  rewrite Hk, Z.eqb_refl, bind_Ret. destruct b. simpl in *. unfold spinlock_release. by rewrite Hk.
Qed.

Lemma set_pipe_id st p x : pw_pipes (vs_world st) !! p = Some x -> set_pipe st p x = st.
Proof.
  intros Hp. unfold set_pipe, set_pworld. rewrite insert_id by done.
  destruct st as [a b c d e f g [h i j]]. done.
Qed.

(** One look at the pipe. *)
Lemma pipe_wait_step patience i env ctx p st x :
  pw_pipes (vs_world st) !! p = Some x -> buffer_wf (pipe_buf x) ->
  pipe_wait patience i env ctx p st =
    (if nz (buf_size (pipe_buf x)) then Ret (None, st) else
     write_fp ← vfs_get_from_id st (pipe_fd1 x);
     match write_fp with
     | None => Ret (Some 0, st)
     | Some _ =>
       fp ← ctx_file st ctx;
       if has_flag (f_flags fp) O_NONBLOCK then Ret (Some (u32 (-1)), set_errno st EAGAIN) else
       match patience with
       | O => Spin
       | Datatypes.S patience => pipe_wait patience (Datatypes.S i) env ctx p (env i st)
       end
     end).
Proof.
  intros Hp Hwf. destruct patience; cbn [pipe_wait]; unfold load_pipe; rewrite Hp, bind_Ret;
    rewrite buffer_size_wf, bind_Ret by done;
    (replace (Pipe (pipe_buf x) (pipe_fd0 x) (pipe_fd1 x)) with x by (by destruct x));
    rewrite set_pipe_id by done; done.
Qed.

(** A read from a pipe with data takes the first bytes at once. *)
Lemma pipe_read_data patience env ctx dest n st p x f :
  on_pipe st ctx p x f -> contents (pipe_buf x) <> [] ->
  0 <= n <= Z.of_nat (length dest) -> n < 2 ^ 31 ->
  exists nread dest' b, pipe_read patience env ctx dest n st =
      Ret (nread, dest', set_pipe st p (Pipe b (pipe_fd0 x) (pipe_fd1 x))) /\
    nread = Z.min n (buf_size (pipe_buf x)) /\ buffer_wf b /\
    take (Z.to_nat nread) dest' = take (Z.to_nat n) (contents (pipe_buf x)) /\
    contents b = drop (Z.to_nat n) (contents (pipe_buf x)).
Proof.
  intros (Hf & Hi & Hp & Hwf) Hne Hn Hn31. unfold pipe_read. rewrite Hf, bind_Ret, Hi.
  rewrite (pipe_wait_step _ _ _ _ _ _ x) by done.
  rewrite (proj2 (nz_true _)).
  2: { intros E. apply Hne. unfold contents. by rewrite E. }
  rewrite bind_Ret. unfold load_pipe. rewrite Hp, bind_Ret.
  destruct (buffer_pop_spec (pipe_buf x) dest n) as (nread & dest' & b & -> & Hr & Hb & _ & Ht & Hd);
    [done.. |].
  rewrite bind_Ret. exists nread, dest', b. done.
Qed.

Lemma pipe_write_data ctx src st p x f :
  on_pipe st ctx p x f -> Z.of_nat (length src) < 2 ^ 31 ->
  exists r st', pipe_write ctx src (Z.of_nat (length src)) st = Ret (r, st') /\
    (r = Z.of_nat (length src) ->
     exists b, pw_pipes (vs_world st') = <[p := Pipe b (pipe_fd0 x) (pipe_fd1 x)]> (pw_pipes (vs_world st)) /\
       vs_files st' = vs_files st /\ buffer_wf b /\ contents b = contents (pipe_buf x) ++ src).
Proof.
  intros (Hf & Hi & Hp & Hwf) Hlen. unfold pipe_write, load_pipe. rewrite Hf, bind_Ret, Hi, Hp, bind_Ret.
  destruct (buffer_write_spec (pw_pages (vs_world st)) (vs_errno st) (pipe_buf x) src)
    as (r & b & pages & e & -> & Hcase); [done.. |]. rewrite bind_Ret. do 2 eexists. split; [done |].
  intros ->. exists b. split; [done |]. split; [done |].
  destruct Hcase as [(_ & _ & Hb & Hc) | (Hr & _)]; [done |]. unfold SIZE_ERR in Hr.
  rewrite u32_m1 in Hr. lia.
Qed.

End PipeSpec.

(** what is written to a pipe is read from it, in order: after a
    successful write of [src] a read of [n] bytes returns, without waiting, the
    first [n] bytes of the old contents followed by [src] (all of them when
    there are fewer). *)
Theorem pipe_fifo {S : Type} `{PageSourceLaws S} `{VfsBackendLaws (pipe_world S)}
    (st st' : vfs_state (pipe_world S)) patience env ctxw ctxr p x fw fr src dest n :
  on_pipe st ctxw p x fw -> on_pipe st ctxr p x fr ->
  Z.of_nat (length src) < 2 ^ 31 -> src <> [] ->
  pipe_write ctxw src (Z.of_nat (length src)) st = Ret (Z.of_nat (length src), st') ->
  0 <= n <= Z.of_nat (length dest) -> n < 2 ^ 31 ->
  exists nread dest' st'', pipe_read patience env ctxr dest n st' = Ret (nread, dest', st'') /\
    take (Z.to_nat nread) dest' = take (Z.to_nat n) (contents (pipe_buf x) ++ src).
Proof.
  intros Hw Hr Hlen Hne Hwrite Hn Hn31.
  destruct (pipe_write_data ctxw src st p x fw Hw Hlen) as (r & st1 & Hw1 & Hok).
  rewrite Hwrite in Hw1. injection Hw1 as <- <-. destruct (Hok eq_refl) as (b & Hp & Hfiles & Hb & Hc).
  destruct Hr as (Hf & Hi & Hpx & _).
  destruct (pipe_read_data patience env ctxr dest n st' p (Pipe b (pipe_fd0 x) (pipe_fd1 x)) fr)
    as (nread & dest' & b' & Hread & _ & _ & Ht & _); [| | done | done |].
  - unfold on_pipe, ctx_file in *. rewrite Hfiles, Hp. split; [done |]. split; [done |].
    split; [apply lookup_insert_eq | done].
  - cbn [pipe_buf]. rewrite Hc. by destruct (contents (pipe_buf x)).
  - exists nread, dest'. eexists. split; [exact Hread |]. cbn [pipe_buf] in Ht. by rewrite Hc in Ht.
Qed.

(** The state after the reader has yielded [k] times. *)
Fixpoint yields {A} (env : nat -> A -> A) (i k : nat) (st : A) : A :=
  match k with
  | O => st
  | Datatypes.S k => yields env (Datatypes.S i) k (env i st)
  end.

(** The pipe is empty and the reader has to wait. *)
Definition must_wait {S} (st : vfs_state (pipe_world S)) (ctx : vfs_callback_ctx) (p : Z) : Prop :=
  exists x f j, on_pipe st ctx p x f /\ contents (pipe_buf x) = [] /\
    vfs_get_from_id st (pipe_fd1 x) = Ret (Some j) /\ has_flag (f_flags f) O_NONBLOCK = false.

Lemma contents_nil b : buffer_wf b -> contents b = [] -> nz (buf_size b) = false.
Proof.
  intros Hwf Hc. apply nz_false. pose proof (contents_length _ Hwf) as Hl. rewrite Hc in Hl.
  destruct Hwf. simpl in Hl. lia.
Qed.

Lemma pipe_wait_yields {S} `{PageSource S} `{VfsBackend (pipe_world S)} env ctx p x f
    (st : vfs_state (pipe_world S)) i k patience :
  (forall j, (j < k)%nat -> must_wait (yields env i j st) ctx p) ->
  on_pipe (yields env i k st) ctx p x f -> contents (pipe_buf x) <> [] -> (k <= patience)%nat ->
  pipe_wait patience i env ctx p st = Ret (None, yields env i k st).
Proof.
  revert i patience st. induction k as [| k IH]; intros i patience st Hw Hd Hne Hk; cbn [yields] in *.
  - destruct Hd as (_ & _ & Hp & Hwf). rewrite (pipe_wait_step _ _ _ _ _ _ x) by done.
    rewrite (proj2 (nz_true _)); [done |]. intros E. apply Hne. unfold contents. by rewrite E.
  - destruct (Hw O ltac:(lia)) as (y & g & j & (Hf & Hi & Hp & Hwf) & Hc & Hg & Hn). cbn [yields] in *.
    rewrite (pipe_wait_step _ _ _ _ _ _ y) by done. rewrite contents_nil by done.
    rewrite Hg, bind_Ret, Hf, bind_Ret, Hn. destruct patience as [| patience]; [lia |].
    apply IH; [| done | done | lia]. intros m Hm. apply (Hw (Datatypes.S m)). lia.
Qed.

(** reading from an empty pipe: the end of the file when the write end is
    closed, EAGAIN when the descriptor is not to block, and otherwise the read
    waits: if data arrive while it has yielded for the [k]-th time, it returns
    the first of them. *)
Theorem pipe_read_empty {S : Type} `{PageSourceLaws S} `{VfsBackendLaws (pipe_world S)}
    (st : vfs_state (pipe_world S)) patience env ctx p x f dest n :
  on_pipe st ctx p x f -> contents (pipe_buf x) = [] ->
  0 <= n <= Z.of_nat (length dest) -> n < 2 ^ 31 ->
  (vfs_get_from_id st (pipe_fd1 x) = Ret None ->
   pipe_read patience env ctx dest n st = Ret (0, dest, st)) /\
  (forall j, vfs_get_from_id st (pipe_fd1 x) = Ret (Some j) -> has_flag (f_flags f) O_NONBLOCK = true ->
   pipe_read patience env ctx dest n st = Ret (u32 (-1), dest, set_errno st EAGAIN)) /\
  (forall k y g, (k <= patience)%nat ->
     (forall j, (j < k)%nat -> must_wait (yields env 0 j st) ctx p) ->
     on_pipe (yields env 0 k st) ctx p y g -> contents (pipe_buf y) <> [] ->
     exists nread dest' st', pipe_read patience env ctx dest n st = Ret (nread, dest', st') /\
       take (Z.to_nat nread) dest' = take (Z.to_nat n) (contents (pipe_buf y))).
Proof.
  intros Hon Hc Hn Hn31. pose proof Hon as (Hf & Hi & Hp & Hwf).
  unfold pipe_read. rewrite Hf, bind_Ret, Hi.
  split; [| split].
  - intros Hg. rewrite (pipe_wait_step _ _ _ _ _ _ x) by done. rewrite contents_nil, Hg by done. done.
  - intros j Hg Hnb. rewrite (pipe_wait_step _ _ _ _ _ _ x) by done.
    rewrite contents_nil, Hg, bind_Ret, Hf, bind_Ret, Hnb by done. done.
  - intros k y g Hk Hw Hd Hne.
    rewrite (pipe_wait_yields env ctx p y g st 0 k patience) by done. rewrite bind_Ret.
    destruct (pipe_read_data O env ctx dest n (yields env 0 k st) p y g)
      as (nread & dest' & b & Hr & _ & _ & Ht & _); try done.
    unfold pipe_read in Hr. pose proof Hd as (Hf' & Hi' & Hp' & Hwf').
    rewrite Hf', bind_Ret, Hi', (pipe_wait_step _ _ _ _ _ _ y) in Hr by done.
    rewrite (proj2 (nz_true _)), bind_Ret in Hr.
    2: { intros E. apply Hne. unfold contents. by rewrite E. }
    rewrite Hr. eauto.
Qed.

(** A task with a pipe at descriptors 3 and 4. *)
Definition pipe_ex_x : pipe := Pipe (Buffer (replicate (Z.to_nat PAGE_SIZE) 0) 0 0 1 150) 3 4.

Definition pipe_ex_end (num read write flags : Z) : vfs_file :=
  pipe_end (with_num (with_refs zero_file 1) num) read write flags 0x900.

Definition pipe_ex : vfs_state (pipe_world unit) :=
  State true (<[3%nat := pipe_ex_end 3 PIPE_READ 0 O_RDONLY]>
               (<[4%nat := pipe_ex_end 4 0 PIPE_WRITE O_WRONLY]> fresh_table)) [SLASH] 0 0 0
    (Mounts ∅ 0 ∅) (PipeWorld (<[0x900 := pipe_ex_x]> ∅) tt 0).

#[local] Instance pipe_ex_backend : VfsBackend (pipe_world unit) := null_backend (pipe_world unit).

#[local] Instance pipe_ex_laws : VfsBackendLaws (pipe_world unit) := null_backend_laws (pipe_world unit).

Lemma pipe_ex_wf : buffer_wf (pipe_buf pipe_ex_x).
Proof. split; cbn [pipe_buf pipe_ex_x buf_lock buf_data buf_size buf_pages buf_max_pages]; try reflexivity; try (rewrite length_replicate); unfold PAGE_SIZE; lia. Qed.

Lemma pipe_ex_on i num read write flags :
  vs_files pipe_ex !! i = Some (pipe_ex_end num read write flags) ->
  on_pipe pipe_ex (Ctx (Some i) [] [] 0) 0x900 pipe_ex_x (pipe_ex_end num read write flags).
Proof.
  intros Hi. split; [| split; [done | split; [done | apply pipe_ex_wf]]].
  unfold ctx_file. cbn [ctx_fp]. apply aload_Ret. rewrite Nat2Z.id. split; [lia | done].
Qed.

Definition pipe_ex_written : vfs_state (pipe_world unit) :=
  match pipe_write (Ctx (Some 4%nat) [] [] 0) [7; 8; 9] 3 pipe_ex with Ret (_, st) => st | _ => pipe_ex end.

Lemma pipe_fifo_witness :
  exists nread dest' st'',
    pipe_read 0 (fun _ st => st) (Ctx (Some 3%nat) [] [] 0) [0; 0] 2 pipe_ex_written = Ret (nread, dest', st'') /\
    take (Z.to_nat nread) dest' = take (Z.to_nat 2) (contents (pipe_buf pipe_ex_x) ++ [7; 8; 9]).
Proof.
  apply (pipe_fifo pipe_ex pipe_ex_written 0 (fun _ st => st) (Ctx (Some 4%nat) [] [] 0)
           (Ctx (Some 3%nat) [] [] 0) 0x900 pipe_ex_x
           (pipe_ex_end 4 0 PIPE_WRITE O_WRONLY) (pipe_ex_end 3 PIPE_READ 0 O_RDONLY) [7; 8; 9] [0; 0] 2).
  - by apply pipe_ex_on.
  - by apply pipe_ex_on.
  - simpl. lia.
  - done.
  - vm_compute. reflexivity.
  - simpl. lia.
  - lia.
Defined.

Lemma pipe_read_empty_witness :
  (vfs_get_from_id pipe_ex 4 = Ret None ->
   pipe_read 1 (fun _ _ => pipe_ex_written) (Ctx (Some 3%nat) [] [] 0) [0; 0] 2 pipe_ex = Ret (0, [0; 0], pipe_ex)) /\
  (forall j, vfs_get_from_id pipe_ex 4 = Ret (Some j) ->
   has_flag (f_flags (pipe_ex_end 3 PIPE_READ 0 O_RDONLY)) O_NONBLOCK = true ->
   pipe_read 1 (fun _ _ => pipe_ex_written) (Ctx (Some 3%nat) [] [] 0) [0; 0] 2 pipe_ex =
     Ret (u32 (-1), [0; 0], set_errno pipe_ex EAGAIN)) /\
  (forall k y g, (k <= 1)%nat ->
     (forall j, (j < k)%nat -> must_wait (yields (fun _ _ => pipe_ex_written) 0 j pipe_ex) (Ctx (Some 3%nat) [] [] 0) 0x900) ->
     on_pipe (yields (fun _ _ => pipe_ex_written) 0 k pipe_ex) (Ctx (Some 3%nat) [] [] 0) 0x900 y g ->
     contents (pipe_buf y) <> [] ->
     exists nread dest' st',
       pipe_read 1 (fun _ _ => pipe_ex_written) (Ctx (Some 3%nat) [] [] 0) [0; 0] 2 pipe_ex = Ret (nread, dest', st') /\
       take (Z.to_nat nread) dest' = take (Z.to_nat 2) (contents (pipe_buf y))).
Proof.
  apply (pipe_read_empty pipe_ex 1 (fun _ _ => pipe_ex_written) (Ctx (Some 3%nat) [] [] 0) 0x900 pipe_ex_x
           (pipe_ex_end 3 PIPE_READ 0 O_RDONLY) [0; 0] 2).
  - by apply pipe_ex_on.
  - done.
  - simpl. lia.
  - lia.
Defined.
