(* ===== verification/Poll.v ===== *)
(** Polling: src/src/fs/poll.c, and [select] of the C library, which is made of
    it: src/land/newlib/xelix/select.c.

    [vfs_poll] asks each descriptor in turn whether it is ready, and yields until
    one is or the time is over.  As for pipes (Pipe.v), [env i] is what the other
    tasks do during the [i]-th [scheduler_yield], and [patience] bounds the number
    of times the call yields.  The contexts are values, so that they are not
    allocated or freed. *)
From stdpp Require Import base numbers list gmap.
From Stdlib Require Import ZArith Lia Bool.
From S2P Require Import Prelude Spinlock Str Buffer DList Path Mount Vfs VfsSpec Pipe.

Open Scope Z_scope.

Definition POLLOUT : Z := 4.
Definition POLLERR : Z := 8.
Definition POLLHUP : Z := 0x10.

(** A [short]. *)
Definition s16 (x : Z) : Z := let y := u16 x in if y <? 2 ^ 15 then y else y - 2 ^ 16.

(** [struct pollfd] *)
Record pollfd : Type := Pollfd { pfd_fd : Z; pfd_events : Z; pfd_revents : Z }.

(** * The system call *)

(** Calling a [poll] callback, and the timer. *)
Class PollEnv (W : Type) : Type := {
  call_poll : Z -> vfs_callback_ctx -> Z -> vfs_state W -> outcome (Z * vfs_state W);
  timer_get_tick : vfs_state W -> Z;
  timer_get_rate : vfs_state W -> Z;
}.

Section Poll.
Context {W : Type} `{VfsBackend W} `{PollEnv W}.
Implicit Types st : vfs_state W.
Implicit Types fds : list pollfd.

(** [timer_get_tick() + (timeout * 1000 / timer_get_rate())], or 0. *)
Definition poll_timeout_end st (timeout : Z) : outcome Z :=
  if 0 <=? timeout then
    if timer_get_rate st =? 0 then Fault else
    Ret (u32 (timer_get_tick st + u32 (timeout * 1000) / timer_get_rate st))
  else Ret 0.

(** The contexts of the descriptors from the [i]-th on; an error number when one
    is not open or can not be polled. *)
Fixpoint poll_contexts (n : nat) (i : Z) st fds : outcome (Z + list vfs_callback_ctx) :=
  match n with
  | O => Ret (inr [])
  | S n =>
    x ← aload fds i;
    r ← vfs_context_from_fd st (pfd_fd x);
    match r with
    | None => Ret (inl EBADF)
    | Some (ctx, fp) =>
      if cb_poll (f_callbacks fp) =? 0 then Ret (inl ENOSYS) else
      r ← poll_contexts n (i + 1) st fds;
      Ret (match r with inl e => inl e | inr l => inr (ctx :: l) end)
    end
  end.

(** One pass over the descriptors: the first that is ready, with its events. *)
Fixpoint poll_pass (ctxs : list vfs_callback_ctx) (i : Z) fds st : outcome (option (Z * Z) * vfs_state W) :=
  match ctxs with
  | [] => Ret (None, st)
  | ctx :: ctxs =>
    fp ← match ctx_fp ctx with Some j => aload (vs_files st) (Z.of_nat j) | None => Fault end;
    x ← aload fds i;
    '(r, st) ← call_poll (cb_poll (f_callbacks fp)) ctx (pfd_events x) st;
    if r >? 0 then Ret (Some (i, r), st) else poll_pass ctxs (i + 1) fds st
  end.

(** [while(1)]; [k] counts the yields. *)
Fixpoint poll_loop (patience k : nat) (env : nat -> vfs_state W -> vfs_state W)
    (ctxs : list vfs_callback_ctx) (timeout_end : Z) fds st : outcome (Z * list pollfd * vfs_state W) :=
  '(r, st) ← poll_pass ctxs 0 fds st;
  match r with
  | Some (i, r) =>
    x ← aload fds i;
    fds ← astore fds i (Pollfd (pfd_fd x) (pfd_events x) (s16 r));
    Ret (1, fds, st)
  | None =>
    if nz timeout_end && (timer_get_tick st >? timeout_end) then Ret (0, fds, st) else
    match patience with
    | O => Spin
    | S patience => poll_loop patience (S k) env ctxs timeout_end fds (env k st)
    end
  end.

(** The result, the array and the state. *)
Definition vfs_poll (patience : nat) (env : nat -> vfs_state W -> vfs_state W) st fds (nfds timeout : Z)
    : outcome (Z * list pollfd * vfs_state W) :=
  timeout_end ← poll_timeout_end st timeout;
  r ← poll_contexts (Z.to_nat nfds) 0 st fds;
  match r with
  | inl e => Ret (-1, fds, set_errno st e)
  | inr ctxs => poll_loop patience 0 env ctxs timeout_end fds st
  end.

End Poll.

(** * [select] *)

Definition FD_SETSIZE : Z := 64.

Definition NFDBITS : Z := 32.

(** [fd_set]: the words [fds_bits]. *)
Definition fd_set : Type := list Z.

Definition FD_ISSET (n : Z) (set : fd_set) : outcome bool :=
  w ← aload set (n / NFDBITS); Ret (nz (Z.land w (u32 (Z.shiftl 1 (n mod NFDBITS))))).

Definition FD_SET (n : Z) (set : fd_set) : outcome fd_set :=
  w ← aload set (n / NFDBITS);
  astore set (n / NFDBITS) (Z.lor w (u32 (Z.shiftl 1 (n mod NFDBITS)))).

Definition FD_ZERO (set : fd_set) : fd_set := map (fun _ => 0) set.

(** The inner loop of [__convert_fd_set]: the bits of word [i] from the [j]-th
    on; the array and [*found]. *)
Fixpoint convert_word (n : nat) (i j : Z) (pfds : list pollfd) (set : fd_set) (events found max : Z)
    : outcome (list pollfd * Z) :=
  match n with
  | O => Ret (pfds, found)
  | S n =>
    if found <? max then
      let bit := i * NFDBITS + j in
      b ← FD_ISSET bit set;
      if (b : bool) then
        x ← aload pfds found;
        pfds ← astore pfds found (Pollfd bit events (pfd_revents x));
        convert_word n i (j + 1) pfds set events (found + 1) max
      else convert_word n i (j + 1) pfds set events found max
    else Ret (pfds, found)
  end.

(** The outer loop, from word [i] on. *)
Fixpoint convert_words (n : nat) (i : Z) (pfds : list pollfd) (set : fd_set) (events found max : Z)
    : outcome (list pollfd * Z) :=
  match n with
  | O => Ret (pfds, found)
  | S n =>
    if found <? max then
      w ← aload set i;
      '(pfds, found) ←
        (if nz w then convert_word (Z.to_nat NFDBITS) i 0 pfds set events found max else Ret (pfds, found));
      convert_words n (i + 1) pfds set events found max
    else Ret (pfds, found)
  end.

Definition __convert_fd_set (pfds : list pollfd) (set : fd_set) (events found max : Z)
    : outcome (list pollfd * Z) :=
  convert_words (Z.to_nat ((FD_SETSIZE + (NFDBITS - 1)) / NFDBITS)) 0 pfds set events found max.

(** [if(readfds) { __convert_fd_set(...); FD_ZERO(readfds); }] *)
Definition select_set (pfds : list pollfd) (set : option fd_set) (events found max : Z)
    : outcome (list pollfd * Z * option fd_set) :=
  match set with
  | None => Ret (pfds, found, None)
  | Some set => '(pfds, found) ← __convert_fd_set pfds set events found max; Ret (pfds, found, Some (FD_ZERO set))
  end.

(** [if(set && pfds[i].revents & events) FD_SET(pfds[i].fd, set);] *)
Definition select_mark (x : pollfd) (events : Z) (set : option fd_set) : outcome (option fd_set) :=
  match set with
  | None => Ret None
  | Some s =>
    if has_flag (u32 (pfd_revents x)) events then s ← FD_SET (pfd_fd x) s; Ret (Some s) else Ret (Some s)
  end.

(** The three sets. *)
Record sets : Type := Sets { readfds : option fd_set; writefds : option fd_set; exceptfds : option fd_set }.

(** The loop over the results. *)
Fixpoint select_results (n : nat) (i : Z) (pfds : list pollfd) (s : sets) : outcome sets :=
  match n with
  | O => Ret s
  | S n =>
    x ← aload pfds i;
    r ← select_mark x POLLIN (readfds s);
    w ← select_mark x POLLOUT (writefds s);
    e ← select_mark x (Z.lor POLLERR POLLHUP) (exceptfds s);
    select_results n (i + 1) pfds (Sets r w e)
  end.

Section Select.
Context {A : Type}.

(** [poll]: the array, the number of descriptors and the timeout to the result
    and the array. *)
Variable poll : list pollfd -> Z -> Z -> A -> outcome (Z * list pollfd * A).

(** [alloc] tells whether [calloc] succeeds; [tv_sec] is that of the timeout. *)
Definition select (alloc : bool) (nfds : Z) (s : sets) (tv_sec : option Z) (a : A) : outcome (Z * sets * A) :=
  if alloc then
    let pfds := replicate (Z.to_nat nfds) (Pollfd 0 0 0) in
    '(pfds, found, r) ← select_set pfds (readfds s) POLLIN 0 nfds;
    '(pfds, found, w) ← select_set pfds (writefds s) POLLOUT found nfds;
    let s := Sets r w (option_map FD_ZERO (exceptfds s)) in
    '(r, pfds, a) ← poll pfds found (match tv_sec with Some t => s32 (t * 1000) | None => -1 end) a;
    if r <? 0 then Ret (r, s, a) else
    s ← select_results (Z.to_nat found) 0 pfds s;
    Ret (r, s, a)
  else Ret (-1, s, a).

End Select.
