(* ===== verification/PollSpec.v ===== *)
(** Theorems on polling (Poll.v). *)
From stdpp Require Import base numbers list gmap.
From Stdlib Require Import ZArith Lia Bool.
From S2P Require Import Prelude Spinlock Bitmap Str Bytes Buffer DList Path Mount Vfs VfsSpec Pipe Poll.

Open Scope Z_scope.

(** * [vfs_poll] *)

Section PollSpec.
Context {W : Type} `{VfsBackend W} `{PollEnv W}.
Implicit Types st : vfs_state W.
Implicit Types fds : list pollfd.
Implicit Types env : nat -> vfs_state W -> vfs_state W.

(** The poll callback of a context answers [r] and changes nothing. *)
Definition answers st (ctx : vfs_callback_ctx) (x : pollfd) (r : Z) : Prop :=
  exists j fp, ctx_fp ctx = Some j /\ vs_files st !! j = Some fp /\
    call_poll (cb_poll (f_callbacks fp)) ctx (pfd_events x) st = Ret (r, st).

(** None of the descriptors is ready. *)
Definition quiet st (ctxs : list vfs_callback_ctx) fds : Prop :=
  Forall2 (fun ctx x => exists r, answers st ctx x r /\ r <= 0) ctxs fds.

(** The contexts [vfs_poll] works with. *)
Definition can_poll st (x : pollfd) (ctx : vfs_callback_ctx) : Prop :=
  exists fp, vfs_context_from_fd st (pfd_fd x) = Ret (Some (ctx, fp)) /\ cb_poll (f_callbacks fp) <> 0.

(** The time is over. *)
Definition expired st (timeout_end : Z) : bool := nz timeout_end && (timer_get_tick st >? timeout_end).

Lemma poll_pass_cons st ctx ctxs x r pre fds :
  answers st ctx x r ->
  poll_pass (ctx :: ctxs) (Z.of_nat (length pre)) (pre ++ x :: fds) st =
    (if r >? 0 then Ret (Some (Z.of_nat (length pre), r), st)
     else poll_pass ctxs (Z.of_nat (length (pre ++ [x]))) ((pre ++ [x]) ++ fds) st).
Proof.
  intros (j & fp & Hj & Hl & Hc). cbn [poll_pass]. rewrite Hj.
  rewrite (proj2 (aload_Ret (vs_files st) (Z.of_nat j) fp)); [| rewrite Nat2Z.id; split; [lia | exact Hl]].
  rewrite bind_Ret, aload_mid, bind_Ret, Hc, bind_Ret by done.
  destruct (r >? 0); [done |]. rewrite <- app_assoc, length_app. cbn [length app].
  by rewrite Nat2Z.inj_add.
Qed.

Lemma poll_pass_quiet st ctxs fds pre rest ctxs' :
  quiet st ctxs fds ->
  poll_pass (ctxs ++ ctxs') (Z.of_nat (length pre)) (pre ++ fds ++ rest) st =
    poll_pass ctxs' (Z.of_nat (length (pre ++ fds))) ((pre ++ fds) ++ rest) st.
Proof.
  intros Hq. revert pre. induction Hq as [| ctx x ctxs fds (r & Ha & Hr) _ IH]; intros pre.
  - cbn [app]. by rewrite app_nil_r.
  - cbn [app]. rewrite (poll_pass_cons _ _ _ _ r) by done.
    destruct (Z.gtb_spec r 0) as [|_]; [lia |]. rewrite IH. by rewrite <- app_assoc.
Qed.

Lemma poll_pass_none st ctxs fds : quiet st ctxs fds -> poll_pass ctxs 0 fds st = Ret (None, st).
Proof.
  intros Hq. pose proof (poll_pass_quiet st ctxs fds [] [] [] Hq) as Hp. rewrite !app_nil_r in Hp. exact Hp.
Qed.

Lemma poll_pass_first st c1 ctx c2 f1 x f2 r :
  quiet st c1 f1 -> answers st ctx x r -> r > 0 ->
  poll_pass (c1 ++ ctx :: c2) 0 (f1 ++ x :: f2) st = Ret (Some (Z.of_nat (length f1), r), st).
Proof.
  intros Hq Ha Hr. pose proof (poll_pass_quiet st c1 f1 [] (x :: f2) (ctx :: c2) Hq) as Hp. cbn [app] in Hp.
  rewrite (poll_pass_cons _ _ _ _ r) in Hp by done. destruct (Z.gtb_spec r 0) as [_|]; [exact Hp | lia].
Qed.

Lemma poll_contexts_ok st fds ctxs pre :
  Forall2 (can_poll st) fds ctxs ->
  poll_contexts (length fds) (Z.of_nat (length pre)) st (pre ++ fds) = Ret (inr ctxs).
Proof.
  intros Hf. revert pre. induction Hf as [| x ctx fds ctxs (fp & Hc & Hp) _ IH]; intros pre; [done |].
  cbn [length poll_contexts]. rewrite aload_mid, bind_Ret, Hc, bind_Ret by done.
  rewrite (proj2 (Z.eqb_neq _ _) Hp).
  specialize (IH (pre ++ [x])). rewrite <- app_assoc, length_app, Nat2Z.inj_add in IH.
  cbn [length app] in IH. change (Z.of_nat 1) with 1 in IH. by rewrite IH, bind_Ret.
Qed.

(** The first descriptor that can not be polled decides the error. *)
Lemma poll_contexts_bad st good ctxs bad fds e pre :
  Forall2 (can_poll st) good ctxs ->
  (vfs_context_from_fd st (pfd_fd bad) = Ret None /\ e = EBADF \/
   exists ctx fp, vfs_context_from_fd st (pfd_fd bad) = Ret (Some (ctx, fp)) /\
     cb_poll (f_callbacks fp) = 0 /\ e = ENOSYS) ->
  poll_contexts (length (good ++ bad :: fds)) (Z.of_nat (length pre)) st (pre ++ good ++ bad :: fds) =
    Ret (inl e).
Proof.
  intros Hf Hb. revert pre. induction Hf as [| x ctx good ctxs (fp & Hc & Hp) _ IH]; intros pre;
    cbn [app length poll_contexts]; rewrite aload_mid, bind_Ret by done.
  - destruct Hb as [[Hb ->] | (ctx & fp & Hb & Hp & ->)]; rewrite Hb, bind_Ret; [done |]. by rewrite Hp.
  - rewrite Hc, bind_Ret, (proj2 (Z.eqb_neq _ _) Hp).
    specialize (IH (pre ++ [x])). rewrite <- app_assoc, (length_app pre), Nat2Z.inj_add in IH.
    cbn [length app] in IH. change (Z.of_nat 1) with 1 in IH. by rewrite IH, bind_Ret.
Qed.

(** The loop waits while nothing is ready. *)
Lemma poll_loop_waits env ctxs te fds k i patience st :
  (forall j, (j < k)%nat -> quiet (yields env i j st) ctxs fds /\ expired (yields env i j st) te = false) ->
  (k <= patience)%nat ->
  poll_loop patience i env ctxs te fds st =
    poll_loop (patience - k) (i + k) env ctxs te fds (yields env i k st).
Proof.
  revert i patience st. induction k as [| k IH]; intros i patience st Hw Hk; cbn [yields].
  - by rewrite Nat.sub_0_r, Nat.add_0_r.
  - destruct patience as [| patience]; [lia |].
    destruct (Hw O ltac:(lia)) as [Hq He]. cbn [yields] in Hq, He.
    cbn [poll_loop]. rewrite poll_pass_none, bind_Ret by done.
    fold (expired st te). rewrite He. rewrite IH; [| | lia].
    + by rewrite <- Nat.add_succ_comm.
    + intros j Hj. apply (Hw (S j)). lia.
Qed.

End PollSpec.

(** C14: [vfs_poll] returns with the first descriptor that is ready in the first
    pass that finds one, and sets the result of that descriptor only; it returns 0,
    with the array as it was, in the first pass after the end of the timeout in
    which none is ready; a descriptor that is not open, or has no [poll] callback,
    is reported before anything is polled. *)
Theorem vfs_poll_correct {W : Type} `{VfsBackend W} `{PollEnv W} (st : vfs_state W) env fds ctxs timeout te k patience :
  poll_timeout_end st timeout = Ret te -> (k <= patience)%nat ->
  let st_k := yields env 0 k st in
  (Forall2 (can_poll st) fds ctxs ->
   (forall j, (j < k)%nat -> quiet (yields env 0 j st) ctxs fds /\ expired (yields env 0 j st) te = false) ->
   (forall c1 ctx c2 f1 x f2 r,
      ctxs = c1 ++ ctx :: c2 -> fds = f1 ++ x :: f2 -> quiet st_k c1 f1 -> answers st_k ctx x r -> r > 0 ->
      vfs_poll patience env st fds (Z.of_nat (length fds)) timeout =
        Ret (1, f1 ++ Pollfd (pfd_fd x) (pfd_events x) (s16 r) :: f2, st_k)) /\
   (quiet st_k ctxs fds -> expired st_k te = true ->
      vfs_poll patience env st fds (Z.of_nat (length fds)) timeout = Ret (0, fds, st_k))) /\
  (forall good ctxs bad rest,
     fds = good ++ bad :: rest -> Forall2 (can_poll st) good ctxs ->
     vfs_context_from_fd st (pfd_fd bad) = Ret None ->
     vfs_poll patience env st fds (Z.of_nat (length fds)) timeout = Ret (-1, fds, set_errno st EBADF)) /\
  (forall good ctxs bad rest ctx fp,
     fds = good ++ bad :: rest -> Forall2 (can_poll st) good ctxs ->
     vfs_context_from_fd st (pfd_fd bad) = Ret (Some (ctx, fp)) -> cb_poll (f_callbacks fp) = 0 ->
     vfs_poll patience env st fds (Z.of_nat (length fds)) timeout = Ret (-1, fds, set_errno st ENOSYS)).
Proof.
  intros Hte Hk st_k. unfold vfs_poll. rewrite Hte, !bind_Ret, Nat2Z.id. split; [| split].
  - intros Hf Hw. rewrite (poll_contexts_ok st fds ctxs [] Hf : poll_contexts _ 0 st fds = _), bind_Ret.
    rewrite (poll_loop_waits env ctxs te fds k) by done. fold st_k.
    destruct (patience - k)%nat; cbn [poll_loop]; split.
    all: try (intros Hq He; rewrite poll_pass_none, bind_Ret by done; fold (expired st_k te); by rewrite He).
    all: intros c1 ctx c2 f1 x f2 r -> -> Hq Ha Hr;
      rewrite (poll_pass_first _ _ _ _ _ _ _ r) by done;
      rewrite bind_Ret, aload_mid, bind_Ret, astore_in by (reflexivity || rewrite length_app; simpl; lia);
      by rewrite Nat2Z.id, bind_Ret, insert_app_r_alt, Nat.sub_diag by done.
  - intros good cs bad rest -> Hf Hb.
    pose proof (poll_contexts_bad st good cs bad rest EBADF [] Hf (or_introl (conj Hb eq_refl))) as Hp.
    change (Z.of_nat (length [])) with 0 in Hp. cbn [app] in Hp. by rewrite Hp, bind_Ret.
  - intros good cs bad rest ctx fp -> Hf Hb Hc.
    pose proof (poll_contexts_bad st good cs bad rest ENOSYS [] Hf) as Hp. change (Z.of_nat (length [])) with 0 in Hp.
    cbn [app] in Hp.     rewrite Hp, bind_Ret; [done |]. right. eauto.
Qed.

(** * Polling a pipe *)

(** [pipe_poll] says whether there are data, and changes nothing. *)
Lemma pipe_poll_answer {S} `{PageSource S} `{VfsBackend (pipe_world S)} (st : vfs_state (pipe_world S)) ctx p x f events :
  on_pipe st ctx p x f -> p <> 0 -> has_flag (u32 events) POLLIN = true ->
  pipe_poll ctx events st = Ret (if decide (contents (pipe_buf x) = []) then 0 else POLLIN, st).
Proof.
  intros (Hf & Hi & Hp & Hwf) Hn Hev. unfold pipe_poll. rewrite Hf, bind_Ret, Hi, (proj2 (Z.eqb_neq _ _) Hn), Hev.
  unfold load_pipe. rewrite Hp, bind_Ret, buffer_size_wf, bind_Ret by done. destruct x as [b fd0 fd1].
  cbn [pipe_buf pipe_fd0 pipe_fd1] in *. rewrite set_pipe_id by done. case_decide as Hc.
  - by rewrite contents_nil.
  - rewrite (proj2 (nz_true _)); [done |]. intros E. apply Hc. unfold contents. by rewrite E.
Qed.

(** The poll callback of a pipe, on a timer of 1000 ticks per second. *)
#[local] Instance pipe_poll_env : PollEnv (pipe_world unit) := {|
  call_poll p ctx events st := if p =? PIPE_POLL then pipe_poll ctx events st else Fault;
  timer_get_tick st := pw_time (vs_world st);
  timer_get_rate _ := 1000;
|}.

#[local] Instance poll_ex_backend : VfsBackend (pipe_world unit) := null_backend (pipe_world unit).

#[local] Instance poll_ex_laws : VfsBackendLaws (pipe_world unit) := null_backend_laws (pipe_world unit).

Definition poll_ex_ctx : vfs_callback_ctx := Ctx (Some 3%nat) [] [] 0.

Lemma poll_ex_answers st x f r :
  on_pipe st poll_ex_ctx 0x900 x f -> vs_files st !! 3%nat = Some f -> cb_poll (f_callbacks f) = PIPE_POLL ->
  r = (if decide (contents (pipe_buf x) = []) then 0 else POLLIN) ->
  answers st poll_ex_ctx (Pollfd 3 POLLIN 0) r.
Proof.
  intros Hon Hf Hc ->. exists 3%nat, f. split; [done |]. split; [done |]. rewrite Hc.
  cbn [call_poll pipe_poll_env]. rewrite Z.eqb_refl. by apply pipe_poll_answer with 0x900 f.
Qed.

Lemma poll_ex_written_on :
  exists y, on_pipe pipe_ex_written poll_ex_ctx 0x900 y (pipe_ex_end 3 PIPE_READ 0 O_RDONLY) /\
    contents (pipe_buf y) = [7; 8; 9].
Proof.
  exists (match pw_pipes (vs_world pipe_ex_written) !! 0x900 with Some y => y | None => pipe_ex_x end).
  split; [| vm_compute; reflexivity].
  repeat split; try (vm_compute; reflexivity); try (vm_compute; intros; discriminate).
  all: vm_compute; intuition congruence.
Qed.

(** The data arrive while the call yields for the first time. *)
Lemma vfs_poll_correct_witness :
  vfs_poll 1 (fun _ _ => pipe_ex_written) pipe_ex [Pollfd 3 POLLIN 0] 1 (-1) =
    Ret (1, [Pollfd 3 POLLIN POLLIN], pipe_ex_written).
Proof.
  destruct poll_ex_written_on as (y & Hy & Hc).
  destruct (vfs_poll_correct pipe_ex (fun _ _ => pipe_ex_written) [Pollfd 3 POLLIN 0] [poll_ex_ctx] (-1) 0 1 1
    eq_refl (le_n 1)) as [Hok _].
  refine (proj1 (Hok _ _) [] poll_ex_ctx [] [] (Pollfd 3 POLLIN 0) [] POLLIN eq_refl eq_refl _ _ eq_refl).
  - repeat constructor. eexists. split; [vm_compute; reflexivity | discriminate].
  - intros [| j] Hj; [| lia]. split; [| reflexivity]. repeat constructor. exists 0. split; [| lia].
    apply (poll_ex_answers _ pipe_ex_x (pipe_ex_end 3 PIPE_READ 0 O_RDONLY)); [by apply pipe_ex_on | done | done | done].
  - constructor.
  - apply (poll_ex_answers _ y (pipe_ex_end 3 PIPE_READ 0 O_RDONLY)); [done | done | done |]. by rewrite Hc.
Defined.

(** The same task after it has closed the write end. *)
Definition poll_ex_closed : vfs_state (pipe_world unit) := set_files pipe_ex (<[4%nat := zero_file]> (vs_files pipe_ex)).

(** On a pipe that is empty and whose write end is closed a read returns at once,
    but polling it waits for ever. *)
Lemma poll_misses_end_of_file patience :
  pipe_read 0 (fun _ st => st) poll_ex_ctx [0; 0] 2 poll_ex_closed = Ret (0, [0; 0], poll_ex_closed) /\
  vfs_poll patience (fun _ st => st) poll_ex_closed [Pollfd 3 POLLIN 0] 1 (-1) = Spin.
Proof.
  assert (on_pipe poll_ex_closed poll_ex_ctx 0x900 pipe_ex_x (pipe_ex_end 3 PIPE_READ 0 O_RDONLY)) as Hon.
  { repeat split; try reflexivity; apply pipe_ex_wf. }
  split.
  - vm_compute. reflexivity.
  - unfold vfs_poll. change (poll_timeout_end _ _) with (Ret 0). rewrite bind_Ret.
    replace (poll_contexts _ _ _ _) with (Ret (inr (A := Z) [poll_ex_ctx])) by (vm_compute; reflexivity).
    rewrite bind_Ret. generalize O as k. induction patience as [| patience IH]; intros k; cbn [poll_loop].
    all: rewrite poll_pass_none, bind_Ret; [by try apply IH |].
    all: repeat constructor; exists 0; split; [| lia]; eapply poll_ex_answers; [exact Hon | done..].
Qed.

(** A call that is not to wait does wait when it is made at tick 0. *)
Lemma poll_timeout_tick_zero {W} `{PollEnv W} (st : vfs_state W) te :
  timer_get_tick st = 0 -> 0 < timer_get_rate st ->
  poll_timeout_end st 0 = Ret te -> forall st', expired st' te = false.
Proof.
  intros Ht Hr Hte st'. unfold poll_timeout_end in Hte. destruct (Z.eqb_spec (timer_get_rate st) 0); [lia |].
  cbn in Hte. rewrite Ht, Z.div_0_l in Hte by done. by injection Hte as <-.
Qed.

(** * [select] *)

(** A set of [FD_SETSIZE] descriptors. *)
Definition fd_set_ok (set : fd_set) : Prop := length set = 2%nat /\ words_ok set.

(** The descriptors of a set between two numbers, in order. *)
Definition members (set : fd_set) (from n : Z) : list Z := filter (fun b => bitmap_bit set b = true) (seqZ from n).

Definition requests (set : fd_set) (events from n : Z) : list pollfd :=
  map (fun b => Pollfd b events 0) (members set from n).

(** The array [pfds] of [max] entries, after [l] has been put into it as far as it fits. *)
Definition fill (max : nat) (l : list pollfd) : list pollfd :=
  take max l ++ replicate (max - length l) (Pollfd 0 0 0).

Definition fill_found (max : nat) (l : list pollfd) : Z := Z.of_nat (Nat.min max (length l)).

Lemma shl1_u32 k : 0 <= k < 32 -> u32 (Z.shiftl 1 k) = Z.shiftl 1 k.
Proof.
  intros Hk. apply u32_small. rewrite Z.shiftl_1_l. split; [lia |]. apply Z.pow_lt_mono_r; lia.
Qed.

Lemma fd_word set n : fd_set_ok set -> 0 <= n < FD_SETSIZE ->
  exists w, aload set (n / 32) = Ret w /\ 0 <= n / 32 < Z.of_nat (length set) /\ 0 <= n mod 32 < 32 /\ 0 <= w < 2 ^ 32.
Proof.
  unfold FD_SETSIZE. intros [Hl Hw] Hn. pose proof (div32_bounds n). destruct (aload_in set (n / 32)) as (w & Ha & Hl'); [lia |].
  exists w. split; [done |]. split; [lia |]. split; [apply Z.mod_pos_bound; lia |].
  by apply words_ok_lookup in Hl'.
Qed.

Lemma FD_ISSET_spec set n : fd_set_ok set -> 0 <= n < FD_SETSIZE -> FD_ISSET n set = Ret (bitmap_bit set n).
Proof.
  intros Hs Hn. destruct (fd_word set n Hs Hn) as (w & Ha & Hi & Hk & _). unfold FD_ISSET, NFDBITS.
  rewrite Ha, bind_Ret, shl1_u32 by done. fold (bit_get w (n mod 32)). rewrite bit_get_nz by lia.
  f_equal. symmetry. rewrite (Z.div_mod n 32) at 1 by lia. apply bitmap_bit_load; [lia | done | done].
Qed.

Lemma FD_SET_spec set n : fd_set_ok set -> 0 <= n < FD_SETSIZE ->
  exists set', FD_SET n set = Ret set' /\ fd_set_ok set' /\
    forall k, 0 <= k -> bitmap_bit set' k = (k =? n) || bitmap_bit set k.
Proof.
  intros Hs Hn. destruct (fd_word set n Hs Hn) as (w & Ha & Hi & Hk & Hw). destruct Hs as [Hl Hws]. unfold FD_SET, NFDBITS.
  rewrite Ha, bind_Ret, shl1_u32 by done. fold (bit_set w (n mod 32)). rewrite astore_in by done.
  eexists. split; [done |]. split.
  { split; [by rewrite length_insert |]. apply words_ok_insert; [done |]. by apply bit_set_ok. }
  intros k Hk0. rewrite bitmap_bit_insert by lia. destruct (Z.eqb_spec (k / 32) (n / 32)) as [E | E].
  - rewrite bit_set_bit by lia. pose proof (Z.div_mod k 32). pose proof (Z.div_mod n 32).
    assert (bitmap_bit set k = Z.testbit w (k mod 32)) as ->.
    { rewrite (Z.div_mod k 32) at 1 by lia. rewrite E. apply bitmap_bit_load; [lia | apply Z.mod_pos_bound; lia | done]. }
    destruct (Z.eqb_spec (k mod 32) (n mod 32)), (Z.eqb_spec k n); try done; exfalso; [lia | subst; lia].
  - destruct (Z.eqb_spec k n) as [-> | _]; [done |]. done.
Qed.

Lemma FD_ZERO_spec set : fd_set_ok set -> fd_set_ok (FD_ZERO set) /\ forall k, 0 <= k -> bitmap_bit (FD_ZERO set) k = false.
Proof.
  intros [Hl _]. split; [split; [by unfold FD_ZERO; rewrite length_map |] |].
  - apply Forall_forall. intros w (x & -> & _)%list_elem_of_fmap. lia.
  - intros k Hk. unfold bitmap_bit, FD_ZERO.
    assert (forall (l : list Z) i, default 0 (map (fun _ => 0) l !! i) = 0) as ->; [| apply Z.bits_0].
    intros l. induction l; intros [| i]; simpl; done.
Qed.

(** Putting a request into the array. *)
Lemma fill_store max l x : fill_found max l < Z.of_nat max ->
  aload (fill max l) (fill_found max l) = Ret (Pollfd 0 0 0) /\
  astore (fill max l) (fill_found max l) x = Ret (fill max (l ++ [x])) /\
  fill_found max l + 1 = fill_found max (l ++ [x]).
Proof.
  unfold fill_found, fill. intros Hf. assert (length l < max)%nat as Hl by lia.
  rewrite Nat.min_r by lia. rewrite !take_ge by (rewrite ?length_app; simpl; lia). rewrite length_app. cbn [length].
  replace (max - length l)%nat with (S (max - (length l + 1))) by lia. cbn [replicate]. split; [| split].
  - by apply aload_mid.
  - rewrite astore_in by (rewrite length_app; simpl; lia). rewrite Nat2Z.id, insert_app_r_alt, Nat.sub_diag by done.
    cbn. by rewrite <- app_assoc.
  - lia.
Qed.

(** A full array takes no more. *)
Lemma fill_full max l x : Z.of_nat max <= fill_found max l ->
  fill max l = fill max (l ++ x) /\ fill_found max l = fill_found max (l ++ x).
Proof.
  unfold fill_found, fill. intros Hf. rewrite length_app. split; [| lia].
  rewrite take_app_le by lia. f_equal. f_equal. lia.
Qed.

Lemma members_cons set a n : 0 < n ->
  members set a n = (if bitmap_bit set a then [a] else []) ++ members set (a + 1) (n - 1).
Proof.
  intros Hn. unfold members. rewrite seqZ_cons by done. rewrite filter_cons.
  replace (Z.succ a) with (a + 1) by lia. replace (Z.pred n) with (n - 1) by lia.
  destruct (bitmap_bit set a); by case_decide.
Qed.

Lemma members_app set a n m : 0 <= n -> 0 <= m -> members set a (n + m) = members set a n ++ members set (a + n) m.
Proof. intros Hn Hm. unfold members. by rewrite seqZ_app, filter_app. Qed.

Lemma convert_word_spec n i j max l set events :
  fd_set_ok set -> 0 <= i -> 0 <= j -> i * 32 + j + Z.of_nat n <= FD_SETSIZE ->
  let l' := l ++ requests set events (i * 32 + j) (Z.of_nat n) in
  convert_word n i j (fill max l) set events (fill_found max l) (Z.of_nat max) = Ret (fill max l', fill_found max l').
Proof.
  intros Hs Hi. revert j l. induction n as [| n IH]; intros j l Hj Hn l'.
  { unfold l'. cbn. by rewrite app_nil_r. }
  cbn [convert_word]. destruct (Z.ltb_spec (fill_found max l) (Z.of_nat max)) as [Hf | Hf].
  - unfold NFDBITS. rewrite FD_ISSET_spec, bind_Ret by (done || lia).
    unfold l', requests. rewrite members_cons by lia. rewrite map_app.
    replace (i * 32 + j + 1) with (i * 32 + (j + 1)) by lia. replace (Z.of_nat (S n) - 1) with (Z.of_nat n) by lia.
    destruct (bitmap_bit set (i * 32 + j)).
    + destruct (fill_store max l (Pollfd (i * 32 + j) events 0) Hf) as (Hl & Hst & He).
      rewrite Hl, bind_Ret. cbn [pfd_revents]. rewrite Hst, bind_Ret, He, IH by lia. by rewrite <- app_assoc.
    + by rewrite IH by lia.
  - destruct (fill_full max l (requests set events (i * 32 + j) (Z.of_nat (S n))) Hf) as [-> ->]. done.
Qed.

Lemma members_zero set i : fd_set_ok set -> 0 <= i -> aload set i = Ret 0 -> members set (i * 32) 32 = [].
Proof.
  intros Hs Hi Ha. unfold members. apply elem_of_nil_inv. intros b [Hb Hr]%list_elem_of_filter.
  apply elem_of_seqZ in Hr. pose proof (bitmap_bit_load set i 0 (b - 32 * i) Hi ltac:(lia) Ha) as Hz.
  replace (32 * i + (b - 32 * i)) with b in Hz by lia. rewrite Hb, Z.bits_0 in Hz. done.
Qed.

Lemma convert_words_spec n i max l set events :
  fd_set_ok set -> 0 <= i -> (i + Z.of_nat n) * 32 <= FD_SETSIZE ->
  let l' := l ++ requests set events (i * 32) (Z.of_nat n * 32) in
  convert_words n i (fill max l) set events (fill_found max l) (Z.of_nat max) = Ret (fill max l', fill_found max l').
Proof.
  intros Hs. revert i l. induction n as [| n IH]; intros i l Hi Hn l'.
  { unfold l'. cbn. by rewrite app_nil_r. }
  cbn [convert_words]. destruct (Z.ltb_spec (fill_found max l) (Z.of_nat max)) as [Hf | Hf].
  - destruct (aload_in set i) as (w & Ha & _); [destruct Hs as [-> _]; unfold FD_SETSIZE in Hn; lia |].
    rewrite Ha, bind_Ret. unfold l', requests.
    replace (Z.of_nat (S n) * 32) with (32 + Z.of_nat n * 32) by lia. rewrite members_app, map_app, app_assoc by lia.
    replace (i * 32 + 32) with ((i + 1) * 32) by lia. destruct (nz w) eqn:Hw.
    + pose proof (convert_word_spec 32 i 0 max l set events Hs Hi (Z.le_refl 0)) as Hc.
      cbn zeta in Hc. rewrite Z.add_0_r in Hc. change (Z.to_nat NFDBITS) with 32%nat. rewrite Hc by lia.
      rewrite bind_Ret. apply IH; lia.
    + apply nz_false in Hw as ->. rewrite members_zero by done. cbn [map]. rewrite app_nil_r, bind_Ret. apply IH; lia.
  - destruct (fill_full max l (requests set events (i * 32) (Z.of_nat (S n) * 32)) Hf) as [-> ->]. done.
Qed.

(** [__convert_fd_set] appends the members of the set, as far as they fit. *)
Lemma convert_fd_set_spec max l set events :
  fd_set_ok set ->
  let l' := l ++ requests set events 0 FD_SETSIZE in
  __convert_fd_set (fill max l) set events (fill_found max l) (Z.of_nat max) = Ret (fill max l', fill_found max l').
Proof. intros Hs. apply (convert_words_spec 2 0); [done | lia | done]. Qed.

(** Some entry reports one of the events for descriptor [k]. *)
Definition reported (pfds : list pollfd) (events k : Z) : bool :=
  existsb (fun x => (pfd_fd x =? k) && has_flag (u32 (pfd_revents x)) events) pfds.

Definition set_ok (set : option fd_set) : Prop := match set with Some s => fd_set_ok s | None => True end.

Definition sets_ok (s : sets) : Prop := set_ok (readfds s) /\ set_ok (writefds s) /\ set_ok (exceptfds s).

(** The set after the call, when there is one, has the descriptors of [P]
    beside those it had. *)
Definition grows (P : Z -> bool) (set set' : option fd_set) : Prop :=
  match set, set' with
  | Some s, Some s' => fd_set_ok s' /\ forall k, 0 <= k -> bitmap_bit s' k = bitmap_bit s k || P k
  | None, None => True
  | _, _ => False
  end.

Lemma grows_ok P set set' : grows P set set' -> set_ok set'.
Proof. destruct set, set'; simpl; tauto. Qed.

Lemma select_mark_spec x events set :
  set_ok set -> 0 <= pfd_fd x < FD_SETSIZE ->
  exists set', select_mark x events set = Ret set' /\
    grows (fun k => (pfd_fd x =? k) && has_flag (u32 (pfd_revents x)) events) set set'.
Proof.
  intros Hs Hx. destruct set as [s |]; [| by exists None]. cbn [select_mark].
  destruct (has_flag (u32 (pfd_revents x)) events).
  - destruct (FD_SET_spec s (pfd_fd x) Hs Hx) as (s' & -> & Hs' & Hb). exists (Some s'). split; [done |].
    split; [done |]. intros k Hk. rewrite Hb, orb_comm, andb_true_r, Z.eqb_sym by done. done.
  - exists (Some s). split; [done |]. split; [done |]. intros k Hk. by rewrite andb_false_r, orb_false_r.
Qed.

Lemma grows_trans P Q a b c : grows P a b -> grows Q b c -> grows (fun k => P k || Q k) a c.
Proof.
  destruct a, b, c; simpl; try tauto. intros [_ H1] [Hok H2]. split; [done |]. intros k Hk.
  by rewrite H2, H1, orb_assoc.
Qed.

Lemma grows_none P a : (forall k, P k = false) -> set_ok a -> grows P a a.
Proof. intros HP Ha. destruct a; [| done]. split; [done |]. intros k _. by rewrite HP, orb_false_r. Qed.

Lemma select_results_spec todo pre rest s :
  sets_ok s -> Forall (fun x => 0 <= pfd_fd x < FD_SETSIZE) todo ->
  exists s', select_results (length todo) (Z.of_nat (length pre)) (pre ++ todo ++ rest) s = Ret s' /\
    grows (reported todo POLLIN) (readfds s) (readfds s') /\ grows (reported todo POLLOUT) (writefds s) (writefds s') /\
    grows (reported todo (Z.lor POLLERR POLLHUP)) (exceptfds s) (exceptfds s').
Proof.
  revert pre s. induction todo as [| x todo IH]; intros pre s (Hr & Hw & He) Hf.
  { exists s. split; [done |]. split; [| split]; by apply grows_none. }
  inversion_clear Hf as [| ? ? Hx Ht]. cbn [length select_results app]. rewrite aload_mid, bind_Ret by done.
  destruct (select_mark_spec x POLLIN (readfds s) Hr Hx) as (r & -> & Gr).
  destruct (select_mark_spec x POLLOUT (writefds s) Hw Hx) as (w & -> & Gw).
  destruct (select_mark_spec x (Z.lor POLLERR POLLHUP) (exceptfds s) He Hx) as (e & -> & Ge).
  rewrite !bind_Ret. destruct (IH (pre ++ [x]) (Sets r w e)) as (s' & Hs' & Hr' & Hw' & He').
  { split; [| split]; eapply grows_ok; eassumption. }
  { done. }
  rewrite <- app_assoc, length_app, Nat2Z.inj_add in Hs'. cbn [length app] in Hs'.
  exists s'. split; [exact Hs' |].
  split; [| split]; eapply grows_trans; eassumption.
Qed.

(** The entries a set asks for. *)
Definition wanted (set : option fd_set) (events : Z) : list pollfd :=
  match set with Some s => requests s events 0 FD_SETSIZE | None => [] end.

Lemma select_set_spec max l set events :
  set_ok set ->
  let l' := l ++ wanted set events in
  select_set (fill max l) set events (fill_found max l) (Z.of_nat max) =
    Ret (fill max l', fill_found max l', option_map FD_ZERO set).
Proof.
  intros Hs. destruct set as [s |]; cbn [select_set wanted]; [| by rewrite app_nil_r].
  pose proof (convert_fd_set_spec max l s events Hs) as Hc. cbn zeta in Hc. by rewrite Hc, bind_Ret.
Qed.

Lemma zero_ok set : set_ok set -> set_ok (option_map FD_ZERO set).
Proof. destruct set; [| done]. intros Hs. by apply FD_ZERO_spec. Qed.

Lemma wanted_range set events : Forall (fun x => 0 <= pfd_fd x < FD_SETSIZE) (wanted set events).
Proof.
  destruct set as [s |]; [| by constructor]. apply Forall_forall. intros x (b & -> & Hb)%list_elem_of_fmap.
  apply list_elem_of_filter in Hb as [_ Hb]. apply elem_of_seqZ in Hb. simpl. lia.
Qed.

Definition becomes (P : Z -> bool) (set set' : option fd_set) : Prop :=
  match set, set' with
  | Some _, Some s' => fd_set_ok s' /\ forall k, 0 <= k -> bitmap_bit s' k = P k
  | None, None => True
  | _, _ => False
  end.

Lemma grows_becomes P set set' : set_ok set -> grows P (option_map FD_ZERO set) set' -> becomes P set set'.
Proof.
  destruct set, set'; simpl; try tauto. intros Hs [Hok Hb]. split; [done |]. intros k Hk.
  by rewrite Hb, (proj2 (FD_ZERO_spec _ Hs)).
Qed.

Lemma zero_becomes set : set_ok set -> becomes (fun _ => false) set (option_map FD_ZERO set).
Proof. destruct set; [| done]. intros Hs. by apply FD_ZERO_spec. Qed.

(** The first [found] entries ask for descriptors that a set can have. *)
Lemma found_range max l pfds :
  Forall (fun x => 0 <= pfd_fd x < FD_SETSIZE) l -> map pfd_fd pfds = map pfd_fd (fill max l) ->
  Forall (fun x => 0 <= pfd_fd x < FD_SETSIZE) (take (Nat.min max (length l)) pfds) /\
  length (take (Nat.min max (length l)) pfds) = Nat.min max (length l).
Proof.
  intros Hl Hm. split.
  - apply (Forall_fmap pfd_fd (fun b => 0 <= b < FD_SETSIZE)). rewrite fmap_take.
    replace (pfd_fd <$> pfds) with (pfd_fd <$> fill max l) by done. unfold fill.
    rewrite <- fmap_take, take_app_le by (rewrite length_take; lia).
    apply Forall_fmap, Forall_take, Forall_take. exact Hl.
  - apply (f_equal length) in Hm. rewrite !length_map in Hm. unfold fill in Hm.
    rewrite length_app, length_take, length_replicate in Hm. rewrite length_take. lia.
Qed.

(** [select] asks for the members of the set to read, then for those of the set
    to write, in order and as far as [nfds] entries go, and never stores outside
    the array; afterwards each set has exactly the descriptors for which one of
    its events has been reported, and no descriptor if [poll] failed. *)
Theorem select_correct {A} (poll : list pollfd -> Z -> Z -> A -> outcome (Z * list pollfd * A)) (a a' : A)
    nfds s tv_sec r pfds' :
  sets_ok s -> 0 <= nfds ->
  let l := wanted (readfds s) POLLIN ++ wanted (writefds s) POLLOUT in
  let found := Nat.min (Z.to_nat nfds) (length l) in
  poll (fill (Z.to_nat nfds) l) (Z.of_nat found) (match tv_sec with Some t => s32 (t * 1000) | None => -1 end) a =
    Ret (r, pfds', a') ->
  map pfd_fd pfds' = map pfd_fd (fill (Z.to_nat nfds) l) ->
  exists s', select poll true nfds s tv_sec a = Ret (r, s', a') /\
    let now events k := (0 <=? r) && reported (take found pfds') events k in
    becomes (now POLLIN) (readfds s) (readfds s') /\ becomes (now POLLOUT) (writefds s) (writefds s') /\
    becomes (now (Z.lor POLLERR POLLHUP)) (exceptfds s) (exceptfds s').
Proof.
  intros (Hr & Hw & He) Hn l found Hp Hm. unfold select.
  rewrite <- (Z2Nat.id nfds) in * by done. set (max := Z.to_nat nfds) in *. rewrite !Nat2Z.id in *.
  pose proof (select_set_spec max [] (readfds s) POLLIN Hr) as H1. cbn zeta in H1.
  replace (fill max []) with (replicate max (Pollfd 0 0 0)) in H1 by (unfold fill; simpl; by rewrite Nat.sub_0_r, take_nil).
  change (fill_found max []) with (Z.of_nat (Nat.min max 0)) in H1. rewrite Nat.min_0_r in H1. change (Z.of_nat 0) with 0 in H1. cbn [app] in H1.
  rewrite H1, bind_Ret.
  pose proof (select_set_spec max (wanted (readfds s) POLLIN) (writefds s) POLLOUT Hw) as H2. cbn zeta in H2.
  fold l in H2. rewrite H2, bind_Ret. unfold fill_found. fold found. rewrite Hp, bind_Ret.
  destruct (Z.ltb_spec r 0) as [Hneg | Hpos].
  - eexists. split; [done |]. destruct (Z.leb_spec 0 r); [lia |]. cbn [readfds writefds exceptfds andb].
    split; [| split]; by apply zero_becomes.
  - destruct (Z.leb_spec 0 r); [| lia]. rewrite Nat2Z.id.
    destruct (found_range max l pfds' ltac:(apply Forall_app; split; apply wanted_range) Hm) as [Hf Hl]. fold found in Hf, Hl.
    destruct (select_results_spec (take found pfds') [] (drop found pfds')
      (Sets (option_map FD_ZERO (readfds s)) (option_map FD_ZERO (writefds s)) (option_map FD_ZERO (exceptfds s))))
      as (s' & Hs & Gr & Gw & Ge); [split; [| split]; by apply zero_ok | done |].
    rewrite Hl, app_nil_l, take_drop in Hs. change (Z.of_nat (length [])) with 0 in Hs. rewrite Hs, bind_Ret.
    exists s'. split; [done |]. cbn [andb]. split; [| split]; by apply grows_becomes.
Qed.

(** Waiting for the pipe of the example, through [select]. *)
Lemma select_correct_witness :
  exists s', select (fun pfds n t st => vfs_poll 1 (fun _ _ => pipe_ex_written) st pfds n t) true 4
      (Sets (Some [8; 0]) None (Some [0; 0])) None pipe_ex = Ret (1, s', pipe_ex_written) /\
    becomes (fun k => k =? 3) (Some [8; 0]) (readfds s').
Proof.
  destruct (select_correct (fun pfds n t st => vfs_poll 1 (fun _ _ => pipe_ex_written) st pfds n t) pipe_ex pipe_ex_written 4
    (Sets (Some [8; 0]) None (Some [0; 0])) None 1
    [Pollfd 3 POLLIN POLLIN; Pollfd 0 0 0; Pollfd 0 0 0; Pollfd 0 0 0]) as (s' & Hs & Hr & _).
  - repeat split; repeat constructor; lia.
  - lia.
  - vm_compute. reflexivity.
  - reflexivity.
  - exists s'. split; [exact Hs |]. cbn [readfds] in Hr |- *. unfold becomes in *. destruct (readfds s') as [set |]; [| done].
    destruct Hr as [Hok Hb]. split; [exact Hok |]. intros k Hk. rewrite Hb by exact Hk.
    change ((3 =? k) && true || false = (k =? 3)). by rewrite andb_true_r, orb_false_r, Z.eqb_sym.
Defined.

(** With as many descriptors to read as [nfds] entries, those to write are not asked for. *)
Lemma select_drops_writes :
  __convert_fd_set (replicate 2 (Pollfd 0 0 0)) [3; 0] POLLIN 0 2 = Ret ([Pollfd 0 POLLIN 0; Pollfd 1 POLLIN 0], 2) /\
  __convert_fd_set [Pollfd 0 POLLIN 0; Pollfd 1 POLLIN 0] [2; 0] POLLOUT 2 2 = Ret ([Pollfd 0 POLLIN 0; Pollfd 1 POLLIN 0], 2).
Proof. split; reflexivity. Qed.
