(* ===== verification/Socket.v ===== *)
(** Sockets: src/src/net/socket.c, and the conversion of addresses of src/src/net/conv.c.

    A socket of the kernel is a [struct socket], at an address that the open file
    keeps in [mount_instance] and picotcp keeps in [priv].  picotcp is a library
    that is not part of the sources: the class [PicoTcp] says what calling it
    does.  It reports events to [socket_cb], which runs in a kernel worker, that
    is, while a task yields: as for pipes (Pipe.v), [env i] is what happens during
    the [i]-th yield, and [patience] bounds the number of yields.  [released] says
    when another task releases [net_pico_lock] (Spinlock.v).

    A [union pico_address] is 16 bytes; memory a pointer argument points to is the
    list of its bytes.  The interrupt flag is not modelled. *)
From stdpp Require Import base numbers list gmap.
From Stdlib Require Import ZArith Lia Bool.
From S2P Require Import Prelude Spinlock Str Bytes DList Path Mount Vfs Pipe Poll.

Open Scope Z_scope.

Definition ECONNRESET : Z := 104.
Definition ENOBUFS : Z := 105.
Definition EAFNOSUPPORT : Z := 106.
Definition ENOTSOCK : Z := 108.
Definition EPROTONOSUPPORT : Z := 123.
Definition ENOTCONN : Z := 128.

Definition AF_INET : Z := 1.
Definition AF_INET6 : Z := 2.
Definition SOCK_DGRAM : Z := 1.
Definition SOCK_STREAM : Z := 2.
Definition MSG_PEEK : Z := 32.

Definition READ_BUFFER_SIZE : Z := 0x5000.

(** The sizes of [struct sockaddr_in] and [struct sockaddr_in6] on i386. *)
Definition SOCKSIZE : Z := 20.
Definition SOCKSIZE6 : Z := 32.

(** * conv.c *)

(** The result and the address. *)
Definition net_bsd_to_pico_addr (addr saddr : list Z) (socklen : Z) : outcome (Z * list Z) :=
  if negb (socklen =? SOCKSIZE) && negb (socklen =? SOCKSIZE6) then Ret (-1, addr)
  else if socklen =? SOCKSIZE6 then addr ← memcpy addr 0 saddr 12 16; Ret (0, addr)
  else x ← load_bytes saddr 8 4; addr ← store_bytes addr 0 x; Ret (0, addr).

Definition net_bsd_to_pico_port (saddr : list Z) (socklen : Z) : outcome Z :=
  if negb (socklen =? SOCKSIZE) && negb (socklen =? SOCKSIZE6) then Ret (u16 (-1))
  else load_le 2 saddr 4.

(** The result, [saddr], and the error number to set. *)
Definition net_conv_pico2bsd (saddr : list Z) (socklen : Z) (addr : list Z) (port : Z)
    : outcome (Z * list Z * option Z) :=
  if socklen =? SOCKSIZE6 then
    saddr ← memcpy saddr 12 addr 0 16;
    saddr ← store_bytes saddr 0 (le_bytes 4 AF_INET6);
    saddr ← store_bytes saddr 4 (le_bytes 2 port);
    Ret (0, saddr, None)
  else if socklen =? SOCKSIZE then
    x ← load_bytes addr 0 4;
    saddr ← store_bytes saddr 8 x;
    saddr ← store_bytes saddr 0 (le_bytes 4 AF_INET);
    saddr ← store_bytes saddr 4 (le_bytes 2 port);
    Ret (0, saddr, None)
  else Ret (-1, saddr, Some EINVAL).

(** * State *)

Inductive socket_state : Type :=
  | SOCK_OPEN | SOCK_BOUND | SOCK_LISTEN | SOCK_CONNECTED | SOCK_ERROR | SOCK_RESET_BY_PEER | SOCK_CLOSED.

#[global] Instance socket_state_eq_dec : EqDecision socket_state.
Proof. solve_decision. Defined.

(** [struct socket] *)
Record socket : Type := Socket {
  s_pico : Z;
  s_conn_requests : Z;
  s_can_write : bool;
  s_read_buffer : list Z;
  s_read_buffer_length : Z;
  s_state : socket_state;
}.

(** [struct dns_cb_state] *)
Record dns_cb_state : Type := DnsState { d_dest : Z; d_dest_len : Z; d_result : Z }.

(** The sockets by address, [priv] of the sockets of picotcp, the lock, the
    requests for names, and picotcp with the timer. *)
Record net_world (P : Type) : Type := NetWorld {
  nw_socks : gmap Z socket;
  nw_priv : gmap Z Z;
  nw_lock : Z;
  nw_dns : gmap Z dns_cb_state;
  nw_pico : P;
}.

Arguments NetWorld {P} nw_socks nw_priv nw_lock nw_dns nw_pico.
Arguments nw_socks {P} n.
Arguments nw_priv {P} n.
Arguments nw_lock {P} n.
Arguments nw_dns {P} n.
Arguments nw_pico {P} n.

(** picotcp: a socket is an address, 0 for NULL. *)
Class PicoTcp (P : Type) : Type := {
  pico_socket_open : Z -> Z -> P -> outcome (Z * P);
  (* the result and the bytes it has stored *)
  pico_socket_read : Z -> Z -> P -> outcome (Z * list Z * P);
  pico_socket_write : Z -> list Z -> Z -> P -> outcome (Z * P);
  pico_socket_bind : Z -> list Z -> Z -> P -> outcome (Z * P);
  pico_socket_listen : Z -> Z -> P -> outcome (Z * P);
  (* with the address and the port of the peer *)
  pico_socket_accept : Z -> P -> outcome (Z * list Z * Z * P);
  pico_socket_connect : Z -> list Z -> Z -> P -> outcome (Z * P);
  pico_socket_getpeername : Z -> P -> outcome (Z * list Z * Z * P);
  pico_socket_nodelay : Z -> P -> outcome P;
  (* [local_addr] and [local_port] *)
  pico_socket_local : Z -> P -> outcome (list Z * Z);
  (* [pico_dns_client_getaddr], or [getname], with the address of the state *)
  pico_dns_client : bool -> cstring -> Z -> P -> outcome (Z * P);
  pico_err : P -> Z;
  (* constants of its headers *)
  PICO_SOCK_EV_RD : Z;
  PICO_SOCK_EV_WR : Z;
  PICO_SOCK_EV_CONN : Z;
  PICO_SOCK_EV_CLOSE : Z;
  PICO_SOCK_EV_FIN : Z;
  PICO_SOCK_EV_ERR : Z;
  PICO_PROTO_IPV4 : Z;
  PICO_PROTO_IPV6 : Z;
  PICO_PROTO_TCP : Z;
  PICO_PROTO_UDP : Z;
  (* [timer_tick] and [timer_rate] *)
  pico_tick : P -> Z;
  pico_rate : P -> Z;
}.

(** The addresses of the callbacks. *)
Definition SOCKET_READ : Z := 0x300.
Definition SOCKET_WRITE : Z := 0x301.
Definition SOCKET_POLL : Z := 0x302.

Section Socket.
Context {P : Type} `{PicoTcp P} `{VfsBackend (net_world P)}.
Context (released : nat -> bool).
Implicit Types st : vfs_state (net_world P).
Implicit Types env : nat -> vfs_state (net_world P) -> vfs_state (net_world P).

Definition set_nworld st (w : net_world P) : vfs_state (net_world P) :=
  State (vs_task st) (vs_files st) (vs_cwd st) (vs_ctty st) (vs_euid st) (vs_errno st) (vs_mounts st) w.

Definition set_sock st (a : Z) (x : socket) : vfs_state (net_world P) :=
  let w := vs_world st in
  set_nworld st (NetWorld (<[a := x]> (nw_socks w)) (nw_priv w) (nw_lock w) (nw_dns w) (nw_pico w)).

Definition set_lock st (l : Z) : vfs_state (net_world P) :=
  let w := vs_world st in set_nworld st (NetWorld (nw_socks w) (nw_priv w) l (nw_dns w) (nw_pico w)).

Definition set_pico st (p : P) : vfs_state (net_world P) :=
  let w := vs_world st in set_nworld st (NetWorld (nw_socks w) (nw_priv w) (nw_lock w) (nw_dns w) p).

Definition set_priv st (s a : Z) : vfs_state (net_world P) :=
  let w := vs_world st in set_nworld st (NetWorld (nw_socks w) (<[s := a]> (nw_priv w)) (nw_lock w) (nw_dns w) (nw_pico w)).

Definition set_dns st (m : gmap Z dns_cb_state) : vfs_state (net_world P) :=
  let w := vs_world st in set_nworld st (NetWorld (nw_socks w) (nw_priv w) (nw_lock w) m (nw_pico w)).

Definition pico_of st : P := nw_pico (vs_world st).

Definition load_sock st (a : Z) : outcome socket :=
  match nw_socks (vs_world st) !! a with Some x => Ret x | None => Fault end.

(** [spinlock_get(&net_pico_lock, 200)] and [spinlock_release(&net_pico_lock)]. *)
Definition get_lock st : outcome (bool * vfs_state (net_world P)) :=
  '(ok, l) ← spinlock_get 200 released (nw_lock (vs_world st)) 200; Ret (ok, set_lock st l).

Definition release_lock st : vfs_state (net_world P) := set_lock st (spinlock_release (nw_lock (vs_world st))).

(** The changes of a socket. *)
Definition with_state (x : socket) (s : socket_state) : socket :=
  Socket (s_pico x) (s_conn_requests x) (s_can_write x) (s_read_buffer x) (s_read_buffer_length x) s.
Definition with_requests (x : socket) (n : Z) : socket :=
  Socket (s_pico x) n (s_can_write x) (s_read_buffer x) (s_read_buffer_length x) (s_state x).
Definition with_can_write (x : socket) (b : bool) : socket :=
  Socket (s_pico x) (s_conn_requests x) b (s_read_buffer x) (s_read_buffer_length x) (s_state x).
Definition with_buffer (x : socket) (b : list Z) (n : Z) : socket :=
  Socket (s_pico x) (s_conn_requests x) (s_can_write x) b n (s_state x).

(** The address of the socket, None for NULL. *)
Definition get_socket st (sockfd : Z) : outcome (option Z * vfs_state (net_world P)) :=
  r ← vfs_get_from_id st sockfd;
  match r with
  | None => Ret (None, set_errno st EBADF)
  | Some i =>
    fp ← aload (vs_files st) (Z.of_nat i);
    if negb (f_type fp =? FT_IFSOCK) then Ret (None, set_errno st ENOTSOCK)
    else Ret ((if f_mount_instance fp =? 0 then None else Some (f_mount_instance fp)), st)
  end.

(** * Events *)

(** The changes of the state by an event. *)
Definition event_state (ev : Z) (x : socket) : socket :=
  let x := if has_flag ev PICO_SOCK_EV_CONN then
             if bool_decide (s_state x = SOCK_LISTEN) then with_requests x (s32 (s_conn_requests x + 1))
             else with_state x SOCK_CONNECTED
           else x in
  let x := if has_flag ev PICO_SOCK_EV_ERR then with_state x SOCK_RESET_BY_PEER else x in
  let x := if has_flag ev PICO_SOCK_EV_FIN || has_flag ev PICO_SOCK_EV_CLOSE then with_state x SOCK_CLOSED else x in
  with_can_write x (has_flag ev PICO_SOCK_EV_WR).

(** The data of picotcp go to the buffer; the lock is held. *)
Definition event_read st (a : Z) (x : socket) : outcome (socket * vfs_state (net_world P)) :=
  let free_bytes := s32 (READ_BUFFER_SIZE - s_read_buffer_length x) in
  if nz free_bytes then
    '(n, bytes, p) ← pico_socket_read (s_pico x) free_bytes (pico_of st);
    b ← store_bytes (s_read_buffer x) (s_read_buffer_length x) bytes;
    Ret (with_buffer x b (u32 (s_read_buffer_length x + n)), set_pico st p)
  else Ret (x, st).

Definition socket_cb st (ev pico_sock : Z) : outcome (vfs_state (net_world P)) :=
  match nw_priv (vs_world st) !! pico_sock with
  | None => Ret st
  | Some a =>
    if a =? 0 then Ret st else
    x ← load_sock st a;
    let x := event_state ev x in
    let st := set_sock st a x in
    if has_flag ev PICO_SOCK_EV_RD then
      '(ok, st) ← get_lock st;
      if (ok : bool) then
        '(x, st) ← event_read st a x;
        Ret (set_sock (release_lock st) a (with_can_write x true))
      else Ret st
    else Ret st
  end.

(** * Reading and writing *)

(** The error of a connection that has ended. *)
Definition ended (s : socket_state) : option Z :=
  match s with SOCK_CLOSED => Some ENOTCONN | SOCK_RESET_BY_PEER => Some ECONNRESET | _ => None end.

(** Waits until [ready]; an error when the connection has ended. *)
Fixpoint sock_wait (patience i : nat) env (ready : socket -> bool) (a : Z) st
    : outcome (option Z * vfs_state (net_world P)) :=
  x ← load_sock st a;
  if ready x then Ret (None, st) else
  match ended (s_state x) with
  | Some e => Ret (Some e, st)
  | None =>
    match patience with
    | O => Spin
    | S patience => sock_wait patience (S i) env ready a (env i st)
    end
  end.

(** The result, [dest] and the state. *)
Definition do_recvfrom (patience : nat) env st (a : Z) (dest : list Z) (size fp_flags recv_flags : Z)
    : outcome (Z * list Z * vfs_state (net_world P)) :=
  x ← load_sock st a;
  match ended (s_state x) with
  | Some e => Ret (u32 (-1), dest, set_errno st e)
  | None =>
    if negb (nz (s_read_buffer_length x)) && has_flag fp_flags O_NONBLOCK then Ret (u32 (-1), dest, set_errno st EAGAIN) else
    '(r, st) ← sock_wait patience 0 env (fun x => nz (s_read_buffer_length x)) a st;
    match r with
    | Some e => Ret (u32 (-1), dest, set_errno st e)
    | None =>
      x ← load_sock st a;
      let size := if size >? s_read_buffer_length x then s_read_buffer_length x else size in
      dest ← memcpy dest 0 (s_read_buffer x) 0 size;
      if negb (has_flag recv_flags MSG_PEEK) then
        let n := u32 (s_read_buffer_length x - size) in
        b ← (if nz n then memmove (s_read_buffer x) 0 size n else Ret (s_read_buffer x));
        Ret (size, dest, set_sock st a (with_buffer x b n))
      else Ret (size, dest, st)
    end
  end.

Definition socket_read_cb (patience : nat) env (ctx : vfs_callback_ctx) (dest : list Z) (size : Z) st
    : outcome (Z * list Z * vfs_state (net_world P)) :=
  fp ← match ctx_fp ctx with Some i => aload (vs_files st) (Z.of_nat i) | None => Fault end;
  if f_mount_instance fp =? 0 then Ret (u32 (-1), dest, set_errno st EBADF) else
  do_recvfrom patience env st (f_mount_instance fp) dest size (f_flags fp) 0.

(** [struct recvfrom_data] without the fields that are not used. *)
Record recvfrom_data : Type := RecvData { rd_sockfd : Z; rd_dest : Z; rd_size : Z; rd_flags : Z }.

(** [dest] is the memory at [data->dest]. *)
Definition net_recvfrom (patience : nat) env st (data : recvfrom_data) (dest : list Z)
    : outcome (Z * list Z * vfs_state (net_world P)) :=
  '(r, st) ← get_socket st (rd_sockfd data);
  match r with
  | None => Ret (-1, dest, st)
  | Some a =>
    '(m, st) ← vm_map_user (rd_dest data) (rd_size data) st;
    if m =? 0 then st ← task_signal_segv st; Ret (-1, dest, set_errno st EFAULT) else
    '(read, dest, st) ← do_recvfrom patience env st a dest (rd_size data) 0 (rd_flags data);
    Ret (s32 read, dest, st)
  end.

Definition socket_write_cb (patience : nat) env (ctx : vfs_callback_ctx) (source : list Z) (size : Z) st
    : outcome (Z * vfs_state (net_world P)) :=
  fp ← match ctx_fp ctx with Some i => aload (vs_files st) (Z.of_nat i) | None => Fault end;
  let a := f_mount_instance fp in
  '(r, st) ← sock_wait patience 0 env s_can_write a st;
  match r with
  | Some e => fail_size st e
  | None =>
    '(ok, st) ← get_lock st;
    if negb ok then fail_size st EAGAIN else
    x ← load_sock st a;
    '(written, p) ← pico_socket_write (s_pico x) source size (pico_of st);
    let st := release_lock (set_pico st p) in
    Ret (u32 written, set_errno st (pico_err (pico_of st)))
  end.

Definition socket_poll_cb (ctx : vfs_callback_ctx) (events : Z) st : outcome (Z * vfs_state (net_world P)) :=
  fp ← match ctx_fp ctx with Some i => aload (vs_files st) (Z.of_nat i) | None => Fault end;
  '(ok, st) ← get_lock st;
  if negb ok then fail st EAGAIN else
  x ← load_sock st (f_mount_instance fp);
  let ret := if has_flag (u32 events) POLLIN && (nz (s_conn_requests x) || nz (s_read_buffer_length x)) then POLLIN else 0 in
  let ret := if has_flag (u32 events) POLLOUT && s_can_write x then Z.lor ret POLLOUT else ret in
  Ret (ret, release_lock st).

(** * Descriptors *)

Definition socket_file (f : vfs_file) (a : Z) : vfs_file :=
  let cb := f_callbacks f in
  File (f_refs f) (f_dup_target f) FT_IFSOCK (f_num f) (f_path f) (f_mount_path f) (f_mp f) a
    (Callbacks (cb_open cb) (cb_access cb) SOCKET_READ SOCKET_WRITE (cb_getdents cb) (cb_stat cb) (cb_mkdir cb)
      (cb_symlink cb) (cb_unlink cb) (cb_chmod cb) (cb_chown cb) (cb_utimes cb) (cb_link cb)
      (cb_readlink cb) (cb_rmdir cb) (cb_ioctl cb) SOCKET_POLL (cb_build_path_tree cb))
    O_RDWR (f_offset f) (f_inode f) (f_meta f).

(** [mem] is the address [zmalloc] returns, which is not checked. *)
Definition new_socket_fd st (mem pico_sock : Z) (s : socket_state) : outcome (option nat * vfs_state (net_world P)) :=
  if mem =? 0 then Fault else
  if pico_sock =? 0 then Fault else
  let st := set_sock st mem (Socket pico_sock 0 false (replicate (Z.to_nat READ_BUFFER_SIZE) 0) 0 s) in
  let st := set_priv st pico_sock mem in
  '(r, st) ← vfs_alloc_fileno st 3;
  match r with
  | None => Ret (None, st)
  | Some i => st ← update st i (fun f => socket_file f mem); Ret (Some i, st)
  end.

(** The descriptor of a new socket. *)
Definition socket_result st (fd : option nat) : outcome (Z * vfs_state (net_world P)) :=
  match fd with
  | None => Ret (-1, st)
  | Some i => fp ← aload (vs_files st) (Z.of_nat i); Ret (s32 (f_num fp), st)
  end.

Definition net_socket st (mem domain type protocol : Z) : outcome (Z * vfs_state (net_world P)) :=
  if negb (domain =? AF_INET) && negb (domain =? AF_INET6) then fail st EAFNOSUPPORT else
  let domain := if domain =? AF_INET then PICO_PROTO_IPV4 else PICO_PROTO_IPV6 in
  if negb (type =? SOCK_STREAM) && negb (type =? SOCK_DGRAM) then fail st EPROTONOSUPPORT else
  let type := if type =? SOCK_STREAM then PICO_PROTO_TCP else PICO_PROTO_UDP in
  '(ok, st) ← get_lock st;
  if negb ok then fail st EAGAIN else
  '(pico_sock, p) ← pico_socket_open domain type (pico_of st);
  let st := set_pico st p in
  if pico_sock =? 0 then fail st (pico_err p) else
  let st := release_lock st in
  '(fd, st) ← new_socket_fd st mem pico_sock SOCK_OPEN;
  socket_result st fd.

(** [endian_swap16] *)
Definition endian_swap16 (x : Z) : Z := Z.lor (Z.shiftl (Z.land x 0xff) 8) (Z.shiftr x 8).

(** The address of a call, checked: None when the call has failed with [errno]. *)
Definition checked_address st (sa : list Z) (addrlen : Z) : outcome (option (list Z * Z) * vfs_state (net_world P)) :=
  port ← net_bsd_to_pico_port sa addrlen;
  if (endian_swap16 port <=? 1024) && nz (vs_euid st) then Ret (None, set_errno st EACCES) else
  '(r, addr) ← net_bsd_to_pico_addr (replicate 16 0) sa addrlen;
  if r <? 0 then Ret (None, set_errno st EINVAL) else Ret (Some (addr, port), st).

(** A call to picotcp with the lock held, after which the socket is in a new state. *)
Definition locked_call st (a : Z) (f : Z -> P -> outcome (Z * P)) (s : socket_state) : outcome (Z * vfs_state (net_world P)) :=
  '(ok, st) ← get_lock st;
  if negb ok then fail st EAGAIN else
  x ← load_sock st a;
  '(r, p) ← f (s_pico x) (pico_of st);
  let st := release_lock (set_pico st p) in
  if r <? 0 then fail st (pico_err p) else
  x ← load_sock st a;
  Ret (0, set_sock st a (with_state x s)).

Definition net_bind st (sockfd : Z) (sa : list Z) (addrlen : Z) : outcome (Z * vfs_state (net_world P)) :=
  '(r, st) ← get_socket st sockfd;
  match r with
  | None => Ret (-1, st)
  | Some a =>
    '(c, st) ← checked_address st sa addrlen;
    match c with
    | None => Ret (-1, st)
    | Some (addr, port) => locked_call st a (fun s => pico_socket_bind s addr port) SOCK_BOUND
    end
  end.

Definition net_listen st (sockfd backlog : Z) : outcome (Z * vfs_state (net_world P)) :=
  '(r, st) ← get_socket st sockfd;
  match r with
  | None => Ret (-1, st)
  | Some a =>
    let backlog := if backlog <? 4 then 4 else backlog in
    locked_call st a (fun s => pico_socket_listen s backlog) SOCK_LISTEN
  end.

Definition net_connect st (sockfd : Z) (sa : list Z) (addrlen : Z) : outcome (Z * vfs_state (net_world P)) :=
  '(r, st) ← get_socket st sockfd;
  match r with
  | None => Ret (-1, st)
  | Some a =>
    family ← load_le 4 sa 0;
    if negb (family =? AF_INET) || negb (addrlen =? SOCKSIZE) then fail st EAFNOSUPPORT else
    '(c, st) ← checked_address st sa addrlen;
    match c with
    | None => Ret (-1, st)
    | Some (addr, port) => locked_call st a (fun s => pico_socket_connect s addr port) SOCK_CONNECTED
    end
  end.

(** [while(!sock->conn_requests) asm("hlt");] *)
Fixpoint accept_wait (patience i : nat) env (a : Z) st : outcome (vfs_state (net_world P)) :=
  x ← load_sock st a;
  if nz (s_conn_requests x) then Ret st else
  match patience with
  | O => Spin
  | S patience => accept_wait patience (S i) env a (env i st)
  end.

(** [addrlen] is NULL or what it points to; [amem] is the memory at [oaddr]. *)
Definition net_accept (patience : nat) env st (mem sockfd oaddr : Z) (addrlen : option Z) (amem : list Z)
    : outcome (Z * list Z * vfs_state (net_world P)) :=
  '(r, st) ← get_socket st sockfd;
  match r with
  | None => Ret (-1, amem, st)
  | Some a =>
    x ← load_sock st a;
    if bool_decide (s_state x = SOCK_CONNECTED) then Ret (-1, amem, set_errno st EBADF) else
    '(addr, ok, st) ←
      match addrlen with
      | Some len =>
        if nz oaddr then
          '(m, st) ← vm_map_user oaddr len st;
          if m =? 0 then st ← task_signal_segv st; Ret (false, false, set_errno st EFAULT) else Ret (true, true, st)
        else Ret (false, true, st)
      | None => Ret (false, true, st)
      end;
    if negb ok then Ret (-1, amem, st) else
    st ← accept_wait patience 0 env a st;
    '(ok, st) ← get_lock st;
    if negb ok then Ret (-1, amem, set_errno st EAGAIN) else
    x ← load_sock st a;
    '(pico_sock, paddr, port, p) ← pico_socket_accept (s_pico x) (pico_of st);
    let st := release_lock (set_pico st p) in
    '(amem, st) ←
      (if (addr : bool) then
         '(_, amem, e) ← net_conv_pico2bsd amem SOCKSIZE paddr port;
         Ret (amem, match e with Some e => set_errno st e | None => st end)
       else Ret (amem, st));
    p ← pico_socket_nodelay pico_sock (pico_of st);
    let st := set_pico st p in
    if pico_sock =? 0 then Ret (-1, amem, set_errno st (pico_err p)) else
    '(fd, st) ← new_socket_fd st mem pico_sock SOCK_CONNECTED;
    match fd with
    | None => Ret (-1, amem, st)
    | Some i =>
      x ← load_sock st a;
      let st := set_sock st a (with_requests x (s32 (s_conn_requests x - 1))) in
      fp ← aload (vs_files st) (Z.of_nat i);
      Ret (s32 (f_num fp), amem, st)
    end
  end.

(** The end of [net_getpeername] and [net_getsockname]. *)
Definition give_name st (amem addr : list Z) (port : Z) : outcome (Z * list Z * vfs_state (net_world P)) :=
  '(r, amem, e) ← net_conv_pico2bsd amem SOCKSIZE addr port;
  Ret (r, amem, match e with Some e => set_errno st e | None => st end).

Definition net_getpeername st (sockfd osa addrlen : Z) (amem : list Z) : outcome (Z * list Z * vfs_state (net_world P)) :=
  '(r, st) ← get_socket st sockfd;
  match r with
  | None => Ret (-1, amem, st)
  | Some a =>
    if addrlen <? SOCKSIZE then Ret (-1, amem, set_errno st ENOBUFS) else
    '(m, st) ← vm_map_user osa addrlen st;
    if m =? 0 then st ← task_signal_segv st; Ret (-1, amem, set_errno st EFAULT) else
    x ← load_sock st a;
    '(r, addr, port, p) ← pico_socket_getpeername (s_pico x) (pico_of st);
    let st := set_pico st p in
    if r <? 0 then Ret (-1, amem, set_errno st (pico_err p)) else
    give_name st amem addr port
  end.

Definition net_getsockname st (sockfd oaddr addrlen : Z) (amem : list Z) : outcome (Z * list Z * vfs_state (net_world P)) :=
  '(r, st) ← get_socket st sockfd;
  match r with
  | None => Ret (-1, amem, st)
  | Some a =>
    '(m, st) ← vm_map_user oaddr addrlen st;
    if m =? 0 then st ← task_signal_segv st; Ret (-1, amem, set_errno st EFAULT) else
    x ← load_sock st a;
    '(addr, port) ← pico_socket_local (s_pico x) (pico_of st);
    give_name st amem addr port
  end.

(** * Names *)

(** [data] is None for NULL; [kfree] takes the state away. *)
Definition dns_cb st (data : option cstring) (a : Z) : outcome (vfs_state (net_world P)) :=
  match nw_dns (vs_world st) !! a with
  | None => Fault
  | Some d =>
    if d_result d =? -3 then Ret (set_dns st (delete a (nw_dns (vs_world st)))) else
    match data with
    | Some s =>
      '(_, st) ← store_string (d_dest d) s (d_dest_len d) st;
      Ret (set_dns st (<[a := DnsState (d_dest d) (d_dest_len d) 0]> (nw_dns (vs_world st))))
    | None => Ret (set_dns st (<[a := DnsState (d_dest d) (d_dest_len d) (-1)]> (nw_dns (vs_world st))))
    end
  end.

(** [while(timer_tick < end_tick && state->result == -2) scheduler_yield();] *)
Fixpoint dns_wait (patience i : nat) env (end_tick a : Z) st : outcome (vfs_state (net_world P)) :=
  d ← match nw_dns (vs_world st) !! a with Some d => Ret d | None => Fault end;
  if (pico_tick (pico_of st) <? end_tick) && (d_result d =? -2) then
    match patience with
    | O => Spin
    | S patience => dns_wait patience (S i) env end_tick a (env i st)
    end
  else Ret st.

(** [mem] is the address [kmalloc] returns, which is not checked. *)
Definition do_resolve (patience : nat) env st (mem : Z) (data : cstring) (result result_len : Z) (mode : bool)
    : outcome (Z * vfs_state (net_world P)) :=
  if mem =? 0 then Fault else
  let st := set_dns st (<[mem := DnsState result result_len (-2)]> (nw_dns (vs_world st))) in
  '(r, p) ← pico_dns_client mode data mem (pico_of st);
  let st := set_pico st p in
  if nz r then fail st (pico_err p) else
  let end_tick := u32 (pico_tick p + 5 * pico_rate p) in
  st ← dns_wait patience 0 env end_tick mem st;
  d ← match nw_dns (vs_world st) !! mem with Some d => Ret d | None => Fault end;
  if d_result d =? -2 then
    Ret (-1, set_dns st (<[mem := DnsState (d_dest d) (d_dest_len d) (-3)]> (nw_dns (vs_world st))))
  else
    let st := set_dns st (delete mem (nw_dns (vs_world st))) in
    Ret (if d_result d =? 0 then 0 else -1, st).

Definition net_getaddr (patience : nat) env st (mem : Z) (host : cstring) (result result_len : Z) :=
  do_resolve patience env st mem host result result_len true.

Definition net_getname (patience : nat) env st (mem : Z) (ip : cstring) (result result_len : Z) :=
  do_resolve patience env st mem ip result result_len false.

End Socket.
