(* ===== verification/SocketSpec.v ===== *)
(** Theorems on sockets (Socket.v). *)
From stdpp Require Import base numbers list gmap.
From Stdlib Require Import ZArith Lia Bool.
From S2P Require Import Prelude Spinlock Str Bytes Buffer DList Path Mount Vfs VfsSpec Pipe Poll Socket.

Open Scope Z_scope.

(** * Addresses *)

(** * Invariant *)

(** A socket: its buffer and how much of it is in use. *)
Definition sock_ok (x : socket) : Prop :=
  Z.of_nat (length (s_read_buffer x)) = READ_BUFFER_SIZE /\ 0 <= s_read_buffer_length x <= READ_BUFFER_SIZE.

(** The bytes that have arrived and have not been read. *)
Definition pending (x : socket) : list Z := take (Z.to_nat (s_read_buffer_length x)) (s_read_buffer x).

Lemma pending_length x : sock_ok x -> Z.of_nat (length (pending x)) = s_read_buffer_length x.
Proof. intros [Hl Hn]. unfold pending. rewrite length_take. lia. Qed.

(** What the kernel relies on.  A read of picotcp stores as many bytes as it
    returns, at most as many as asked for, or fails and returns -1; mapping memory,
    writing to it and sending a signal do not touch the sockets. *)
Class NetLaws (P : Type) `{PicoTcp P} `{VfsBackend (net_world P)} : Prop := {
  law_read s n p r bytes p' : pico_socket_read s n p = Ret (r, bytes, p') -> 0 < n ->
    (r = -1 /\ bytes = []) \/ (0 <= r <= n /\ Z.of_nat (length bytes) = r);
  law_net_map a n (st : vfs_state (net_world P)) r st' : vm_map_user a n st = Ret (r, st') -> vs_world st' = vs_world st;
  law_net_segv (st st' : vfs_state (net_world P)) : task_signal_segv st = Ret st' -> vs_world st' = vs_world st;
  law_net_string a s n (st : vfs_state (net_world P)) r st' : store_string a s n st = Ret (r, st') -> vs_world st' = vs_world st;
}.

Lemma take_splice (l x : list Z) o n :
  0 <= o -> o + Z.of_nat (length x) <= Z.of_nat (length l) -> n = Z.of_nat (length x) ->
  take (Z.to_nat (o + n)) (splice l o x) = take (Z.to_nat o) l ++ x.
Proof.
  intros Ho Hl ->. unfold splice. rewrite app_assoc. apply take_app_length'. rewrite length_app, length_take. lia.
Qed.

(** Copying to the beginning of a buffer. *)
Lemma memcpy_front (dest src : list Z) n :
  0 <= n <= Z.of_nat (length dest) -> n <= Z.of_nat (length src) ->
  exists dest', memcpy dest 0 src 0 n = Ret dest' /\ take (Z.to_nat n) dest' = take (Z.to_nat n) src /\
    drop (Z.to_nat n) dest' = drop (Z.to_nat n) dest.
Proof.
  intros Hd Hs. rewrite memcpy_spec by lia. eexists. split; [done |].
  assert (length (bytes_at src 0 n) = Z.to_nat n) as Hb by (apply bytes_at_length; lia). change (Z.to_nat 0) with 0%nat. split.
  - rewrite <- Hb at 1. rewrite take_inserts_0 by lia. unfold bytes_at. by rewrite drop_0.
  - rewrite <- (take_drop (Z.to_nat n) dest) at 1. rewrite list_inserts_0_r by (rewrite length_take; lia).
    apply drop_app_length'. lia.
Qed.

Section Invariant.
Context {P : Type} `{PicoTcp P} `{VfsBackend (net_world P)}.
Context (released : nat -> bool).
Implicit Types st : vfs_state (net_world P).

Definition socks_ok (w : net_world P) : Prop := map_Forall (fun _ => sock_ok) (nw_socks w).

(** Every socket is well formed and the lock is free. *)
Definition net_ok st : Prop := nw_lock (vs_world st) = 0 /\ socks_ok (vs_world st).

Lemma get_lock_free st : nw_lock (vs_world st) = 0 -> get_lock released st = Ret (true, set_lock st 1).
Proof. intros Hl. unfold get_lock. by rewrite Hl. Qed.

Lemma socks_ok_insert st a x : socks_ok (vs_world st) -> sock_ok x -> socks_ok (vs_world (set_sock st a x)).
Proof. intros Hs Hx. by apply map_Forall_insert_2. Qed.

Lemma load_sock_ok st a x : socks_ok (vs_world st) -> load_sock st a = Ret x -> sock_ok x.
Proof.
  intros Hs Hl. unfold load_sock in Hl. destruct (nw_socks (vs_world st) !! a) as [y |] eqn:E; [| done].
  injection Hl as <-. exact (Hs _ _ E).
Qed.

Lemma alloc_world st min r st' : vfs_alloc_fileno st min = Ret (r, st') -> vs_world st' = vs_world st.
Proof.
  unfold vfs_alloc_fileno. intros Ha. unbind Ha as k Hk. destruct k; [| by simplify_eq].
  unbind Ha as st1 Hu. unfold update in Hu. unbind Hu as f Hf. by simplify_eq.
Qed.

Lemma get_socket_world st fd r st' : get_socket st fd = Ret (r, st') -> vs_world st' = vs_world st.
Proof.
  unfold get_socket. intros Hg. unbind Hg as i Hi. destruct i as [i |]; [| by simplify_eq].
  unbind Hg as fp Hf. destruct (negb _); by simplify_eq.
Qed.

Lemma event_state_buffer ev x :
  s_read_buffer (event_state ev x) = s_read_buffer x /\ s_read_buffer_length (event_state ev x) = s_read_buffer_length x /\
  s_pico (event_state ev x) = s_pico x.
Proof. unfold event_state. by repeat case_match. Qed.

Lemma event_state_ok ev x : sock_ok x -> sock_ok (event_state ev x).
Proof. unfold sock_ok. by destruct (event_state_buffer ev x) as (-> & -> & _). Qed.

Context `{!NetLaws P}.

(** The bytes picotcp has for the rest of the buffer, none when it is full. *)
Definition arrived st (x : socket) (bytes : list Z) : Prop :=
  if s_read_buffer_length x =? READ_BUFFER_SIZE then bytes = []
  else exists r p, pico_socket_read (s_pico x) (READ_BUFFER_SIZE - s_read_buffer_length x) (pico_of st) = Ret (r, bytes, p).

Definition read_fails st (x : socket) : Prop :=
  exists bytes p, pico_socket_read (s_pico x) (READ_BUFFER_SIZE - s_read_buffer_length x) (pico_of st) = Ret (-1, bytes, p).

(** Reading from picotcp appends what it has to the pending bytes. *)
Lemma event_read_spec st a x x' st' :
  sock_ok x -> event_read st a x = Ret (x', st') ->
  nw_lock (vs_world st') = nw_lock (vs_world st) /\ nw_socks (vs_world st') = nw_socks (vs_world st) /\
  s_state x' = s_state x /\ s_conn_requests x' = s_conn_requests x /\ s_pico x' = s_pico x /\
  ((exists bytes, sock_ok x' /\ pending x' = pending x ++ bytes /\ arrived st x bytes) \/
   (read_fails st x /\ s_read_buffer_length x' = u32 (s_read_buffer_length x - 1))).
Proof.
  intros [Hl Hn] He. unfold event_read in He. unfold READ_BUFFER_SIZE in *. rewrite s32_small in He by lia.
  destruct (nz (0x5000 - s_read_buffer_length x)) eqn:Hz.
  - apply nz_true in Hz. unbind He as [[r bytes] p] Hr. unbind He as b Hb. injection He as <- <-.
    repeat (split; [done |]). destruct (law_read _ _ _ _ _ _ Hr ltac:(lia)) as [[-> ->] | [Hr1 Hr2]].
    + right. split; [by exists [], p | done].
    + left. exists bytes. unfold store_bytes in Hb. destruct (_ && _); [| done]. injection Hb as <-. cbn [with_buffer]. split.
      * split; cbn [with_buffer s_read_buffer s_read_buffer_length]; unfold READ_BUFFER_SIZE; [rewrite length_splice by lia; done | rewrite u32_small by lia; lia].
      * unfold pending. cbn [with_buffer s_read_buffer s_read_buffer_length]. rewrite u32_small by lia.
        split; [apply take_splice; lia |]. unfold arrived, READ_BUFFER_SIZE.
        destruct (Z.eqb_spec (s_read_buffer_length x) 0x5000); [lia |]. eauto.
  - apply nz_false in Hz. injection He as <- <-. repeat (split; [done |]). left. exists [].
    rewrite app_nil_r. split; [split; unfold READ_BUFFER_SIZE; lia |]. split; [done |]. unfold arrived, READ_BUFFER_SIZE.
    destruct (Z.eqb_spec (s_read_buffer_length x) 0x5000); [done | lia].
Qed.

(** What an event does to the socket it is for. *)
Lemma socket_cb_spec st ev ps a x st' :
  net_ok st -> nw_priv (vs_world st) !! ps = Some a -> a <> 0 -> nw_socks (vs_world st) !! a = Some x ->
  socket_cb released st ev ps = Ret st' ->
  exists x', nw_socks (vs_world st') = <[a := x']> (nw_socks (vs_world st)) /\ nw_lock (vs_world st') = 0 /\
    s_state x' = s_state (event_state ev x) /\ s_conn_requests x' = s_conn_requests (event_state ev x) /\
    ((exists bytes, sock_ok x' /\ pending x' = pending x ++ bytes /\
        if has_flag ev PICO_SOCK_EV_RD then arrived st x bytes else bytes = []) \/
     (has_flag ev PICO_SOCK_EV_RD = true /\ read_fails st x /\ s_read_buffer_length x' = u32 (s_read_buffer_length x - 1))).
Proof.
  intros [Hl Hs] Hp Ha Hx Hc. unfold socket_cb in Hc. rewrite Hp, (proj2 (Z.eqb_neq _ _) Ha) in Hc.
  unfold load_sock in Hc. rewrite Hx, bind_Ret in Hc. pose proof (event_state_ok ev x (Hs _ _ Hx)) as Hok.
  destruct (event_state_buffer ev x) as (Eb & En & Epi).
  assert (pending (event_state ev x) = pending x) as Ep by (unfold pending; by rewrite Eb, En).
  destruct (has_flag ev PICO_SOCK_EV_RD).
  - rewrite get_lock_free, bind_Ret in Hc by done. unbind Hc as [x1 st1] He. injection Hc as <-.
    destruct (event_read_spec _ _ _ _ _ Hok He) as (_ & Es & E1 & E2 & _ & Hr).
    exists (with_can_write x1 true). split; [| split; [done | split; [done | split; [done |]]]].
    + cbn. rewrite Es. cbn. apply insert_insert_eq.
    + unfold arrived, read_fails in *. rewrite En, Epi in Hr.
      destruct Hr as [(bytes & Hok1 & Hpend & Hb) | [Hf Hn]]; [left; exists bytes | right; done].
      split; [exact Hok1 |]. split; [| exact Hb]. rewrite <- Ep. exact Hpend.
  - injection Hc as <-. exists (event_state ev x). repeat (split; [done |]). left. exists []. rewrite app_nil_r. done.
Qed.

(** Waiting while [ready] does not hold. *)
Lemma sock_wait_yields env ready a k i patience st x :
  (forall j, (j < k)%nat -> exists y, nw_socks (vs_world (yields env i j st)) !! a = Some y /\ ready y = false /\ ended (s_state y) = None) ->
  nw_socks (vs_world (yields env i k st)) !! a = Some x -> ready x = true -> (k <= patience)%nat ->
  sock_wait patience i env ready a st = Ret (None, yields env i k st).
Proof.
  revert i patience st. induction k as [| k IH]; intros i patience st Hw Hx Hr Hk; cbn [yields] in *.
  - destruct patience; cbn [sock_wait]; unfold load_sock; by rewrite Hx, bind_Ret, Hr.
  - destruct (Hw O ltac:(lia)) as (y & Hy & Hry & Hey). cbn [yields] in Hy. destruct patience as [| patience]; [lia |].
    cbn [sock_wait]. unfold load_sock. rewrite Hy, bind_Ret, Hry, Hey. apply IH; [| done | done | lia].
    intros j Hj. apply (Hw (S j)). lia.
Qed.

(** Taking bytes from the front of the buffer. *)
Lemma recv_data_spec x dest size peek :
  sock_ok x -> 0 <= size <= Z.of_nat (length dest) ->
  let n := if size >? s_read_buffer_length x then s_read_buffer_length x else size in
  exists dest' b, memcpy dest 0 (s_read_buffer x) 0 n = Ret dest' /\
    take (Z.to_nat n) dest' = take (Z.to_nat size) (pending x) /\ drop (Z.to_nat n) dest' = drop (Z.to_nat n) dest /\
    (if nz (u32 (s_read_buffer_length x - n)) then memmove (s_read_buffer x) 0 n (u32 (s_read_buffer_length x - n))
     else Ret (s_read_buffer x)) = Ret b /\
    let x' := if peek : bool then x else with_buffer x b (u32 (s_read_buffer_length x - n)) in
    sock_ok x' /\ pending x' = if peek then pending x else drop (Z.to_nat n) (pending x).
Proof.
  intros [Hl Hn] Hs n. unfold READ_BUFFER_SIZE in *.
  assert (n = Z.min size (s_read_buffer_length x)) as En by (unfold n; destruct (Z.gtb_spec size (s_read_buffer_length x)); lia).
  clearbody n. destruct (memcpy_front dest (s_read_buffer x) n) as (dest' & Hm & Ht & Hd); [lia | lia |].
  rewrite u32_small by lia. exists dest'.
  assert (take (Z.to_nat n) dest' = take (Z.to_nat size) (pending x)) as Htake.
  { rewrite Ht. unfold pending. rewrite take_take. f_equal. lia. }
  assert (sock_ok x) as Hok by (split; unfold READ_BUFFER_SIZE; lia).
  destruct (nz (s_read_buffer_length x - n)) eqn:Hz.
  - apply nz_true in Hz. assert (n = size) as -> by lia. rewrite memmove_spec by lia. eexists.
    repeat (split; [done |]). destruct peek; [done |].
    assert (length (bytes_at (s_read_buffer x) size (s_read_buffer_length x - size)) = Z.to_nat (s_read_buffer_length x - size)) as Hb2
      by (apply bytes_at_length; lia).
    split.
    + split; cbn [with_buffer s_read_buffer s_read_buffer_length]; rewrite ?length_inserts; unfold READ_BUFFER_SIZE; lia.
    + unfold pending. cbn [with_buffer s_read_buffer s_read_buffer_length]. rewrite <- Hb2. change (Z.to_nat 0) with 0%nat.
      rewrite take_inserts_0 by lia. unfold bytes_at. rewrite drop_take_le by lia. f_equal. lia.
  - apply nz_false in Hz. assert (n = s_read_buffer_length x) as -> by lia. eexists.
    repeat (split; [done |]). destruct peek; [done |]. split.
    + split; cbn [with_buffer s_read_buffer s_read_buffer_length]; unfold READ_BUFFER_SIZE; lia.
    + unfold pending. cbn [with_buffer s_read_buffer s_read_buffer_length]. rewrite Hz, take_0, drop_ge; [done |].
      rewrite length_take. lia.
Qed.

End Invariant.

Lemma do_recvfrom_spec {P} `{PicoTcp P} `{VfsBackend (net_world P)} patience env (st : vfs_state (net_world P)) a x dest size fl rf :
  nw_socks (vs_world st) !! a = Some x -> sock_ok x -> ended (s_state x) = None -> pending x <> [] ->
  0 <= size <= Z.of_nat (length dest) ->
  exists dest' x', let n := Z.min size (Z.of_nat (length (pending x))) in
    do_recvfrom patience env st a dest size fl rf =
      Ret (n, dest', if has_flag rf MSG_PEEK then st else set_sock st a x') /\
    take (Z.to_nat n) dest' = take (Z.to_nat size) (pending x) /\ drop (Z.to_nat n) dest' = drop (Z.to_nat n) dest /\
    sock_ok x' /\ s_state x' = s_state x /\
    pending x' = (if has_flag rf MSG_PEEK then pending x else drop (Z.to_nat n) (pending x)).
Proof.
  intros Hx Hok He Hp Hs. pose proof (pending_length _ Hok) as Hl.
  assert (nz (s_read_buffer_length x) = true) as Hnz.
  { apply nz_true. intros E. apply Hp, length_zero_iff_nil. lia. }
  assert (load_sock st a = Ret x) as Hld by (unfold load_sock; by rewrite Hx).
  unfold do_recvfrom. rewrite Hld, bind_Ret, He, Hnz. cbn [negb andb].
  rewrite (sock_wait_yields env (fun x => nz (s_read_buffer_length x)) a 0 0 patience st x), bind_Ret;
    [cbn [yields] | lia | exact Hx | exact Hnz | lia].
  rewrite Hld, bind_Ret.
  destruct (recv_data_spec x dest size (has_flag rf MSG_PEEK) Hok Hs) as (dest' & b & Hm & Ht & Hd & Hb & Hok' & Hp').
  rewrite Hl. replace (Z.min size (s_read_buffer_length x)) with
    (if size >? s_read_buffer_length x then s_read_buffer_length x else size)
    by (destruct (Z.gtb_spec size (s_read_buffer_length x)); lia).
  set (n := if size >? s_read_buffer_length x then s_read_buffer_length x else size) in *.
  exists dest', (if has_flag rf MSG_PEEK then x else with_buffer x b (u32 (s_read_buffer_length x - n))).
  rewrite Hm, bind_Ret. destruct (has_flag rf MSG_PEEK); cbn [negb].
  - repeat (split; [done |]). done.
  - rewrite Hb, bind_Ret. repeat (split; [done |]). done.
Qed.

(** A receive that starts in [st0] waits [k] times, without data and without the end of
    the connection, until the state is [st1]. *)
Definition waits {P} `{PicoTcp P} (env : nat -> vfs_state (net_world P) -> vfs_state (net_world P)) (a : Z) (k : nat)
    (st0 st1 : vfs_state (net_world P)) : Prop :=
  yields env 0 k st0 = st1 /\ forall j, (j < k)%nat ->
    exists y, nw_socks (vs_world (yields env 0 j st0)) !! a = Some y /\ s_read_buffer_length y = 0 /\ ended (s_state y) = None.

Lemma do_recvfrom_waits {P} `{PicoTcp P} `{VfsBackend (net_world P)} patience env k (st0 st1 : vfs_state (net_world P)) a x dest size fl rf :
  waits env a k st0 st1 -> (k <= patience)%nat -> k = O \/ has_flag fl O_NONBLOCK = false ->
  nw_socks (vs_world st1) !! a = Some x -> ended (s_state x) = None -> s_read_buffer_length x <> 0 ->
  do_recvfrom patience env st0 a dest size fl rf = do_recvfrom patience env st1 a dest size fl rf.
Proof.
  intros [E Hw] Hk Hb Hx He Hl. destruct k as [| k]; [cbn [yields] in E; by subst st1 |]. destruct Hb as [? | Hb]; [done |].
  apply nz_true in Hl. destruct (Hw O ltac:(lia)) as (y & Hy & Hy0 & Hye). cbn [yields] in Hy. unfold do_recvfrom.
  assert (load_sock st0 a = Ret y) as -> by (unfold load_sock; by rewrite Hy). rewrite bind_Ret, Hye, Hb, andb_false_r.
  rewrite (sock_wait_yields env (fun x => nz (s_read_buffer_length x)) a (S k) 0 patience st0 x);
    [| | by rewrite E | done | done].
  2: { intros j Hj. destruct (Hw j Hj) as (z & Hz & Hz0 & Hze). exists z. split; [done |]. split; [by rewrite Hz0 | done]. }
  rewrite E, bind_Ret. assert (load_sock st1 a = Ret x) as Hld by (unfold load_sock; by rewrite Hx). rewrite Hld, !bind_Ret, He, Hl. cbn [negb andb].
  rewrite (sock_wait_yields env (fun x => nz (s_read_buffer_length x)) a 0 0 patience st1 x), bind_Ret;
    [cbn [yields] | lia | exact Hx | exact Hl | lia].
  by rewrite Hld, bind_Ret.
Qed.

(** C23: a socket is a queue of bytes: an event that says that there are data
    appends what picotcp has for the socket, and a receive, made after the event, or
    made before and waiting for it (not with [O_NONBLOCK]), returns the first bytes, as
    many as asked for and there are, and takes them away unless it only peeks; memory
    behind them is not touched, and the socket stays well formed.  Conditions: the read
    of picotcp does not fail (see [read_error_wraps]), the event does not end the
    connection (then bytes that are there are not received, see [close_loses_data]),
    and there are bytes after it; a receive that waits finds no data and no end of the
    connection until then, and is patient enough. *)
Theorem socket_stream_correct {P} `{NetLaws P} released patience env (st st1 : vfs_state (net_world P)) ev ps a x dest size fl rf :
  net_ok st -> nw_priv (vs_world st) !! ps = Some a -> a <> 0 -> nw_socks (vs_world st) !! a = Some x ->
  ~ read_fails st x -> socket_cb released st ev ps = Ret st1 ->
  0 <= size <= Z.of_nat (length dest) ->
  exists bytes, (if has_flag ev PICO_SOCK_EV_RD then arrived st x bytes else bytes = []) /\ net_ok st1 /\
    (ended (s_state (event_state ev x)) = None -> pending x ++ bytes <> [] ->
     forall k st0, waits env a k st0 st1 -> (k <= patience)%nat -> k = O \/ has_flag fl O_NONBLOCK = false ->
     exists n dest' st2 x2, do_recvfrom patience env st0 a dest size fl rf = Ret (n, dest', st2) /\
       n = Z.min size (Z.of_nat (length (pending x ++ bytes))) /\
       take (Z.to_nat n) dest' = take (Z.to_nat size) (pending x ++ bytes) /\
       drop (Z.to_nat n) dest' = drop (Z.to_nat n) dest /\ net_ok st2 /\
       nw_socks (vs_world st2) !! a = Some x2 /\
       pending x2 = (if has_flag rf MSG_PEEK then pending x ++ bytes else drop (Z.to_nat n) (pending x ++ bytes))).
Proof.
  intros Hok Hp Ha Hx Hr Hc Hs. destruct (socket_cb_spec released _ _ _ _ _ _ Hok Hp Ha Hx Hc)
    as (x1 & Ew & El & Es & _ & [(bytes & Hok1 & Hpend & Hb) | (_ & Hf & _)]); [| done].
  exists bytes. split; [done |]. destruct Hok as [Hl0 Hall].
  assert (net_ok st1) as Hok2 by (split; [done |]; unfold socks_ok; rewrite Ew; by apply map_Forall_insert_2).
  split; [done |]. intros He Hne k st0 Hw Hk Hbl. rewrite <- Es in He. rewrite <- Hpend in *.
  assert (nw_socks (vs_world st1) !! a = Some x1) as Hx1 by (by rewrite Ew, lookup_insert_eq).
  rewrite (do_recvfrom_waits patience env k st0 st1 a x1); [| done ..| ].
  2: { pose proof (pending_length _ Hok1) as Hl. intros E. apply Hne, length_zero_iff_nil. lia. }
  destruct (do_recvfrom_spec patience env st1 a x1 dest size fl rf Hx1 Hok1 He Hne Hs) as (dest' & x2 & Hd & Ht & Hr2 & Hok3 & _ & Hp2).
  destruct (has_flag rf MSG_PEEK); (do 4 eexists; split; [exact Hd |]; split; [done |]; split; [exact Ht |]; split; [exact Hr2 |]).
  - done.
  - split; [| split; [apply lookup_insert_eq | exact Hp2]]. destruct Hok2 as [Hl2 Hs2]. split; [done |]. by apply socks_ok_insert.
Qed.

(** * Every operation keeps the invariant *)

Section Preserve.
Context {P : Type} `{NetLaws P}.
Context (released : nat -> bool).
Implicit Types st : vfs_state (net_world P).

Context (env : nat -> vfs_state (net_world P) -> vfs_state (net_world P)).
Hypothesis env_ok : forall i st, net_ok st -> net_ok (env i st).

Lemma net_ok_world st st' : net_ok st -> vs_world st' = vs_world st -> net_ok st'.
Proof. unfold net_ok. by intros Hok ->. Qed.

(** The state while the lock is held. *)
Lemma net_ok_locked st p : net_ok st -> net_ok (release_lock (set_pico (set_lock st 1) p)).
Proof. intros [_ Hs]. by split. Qed.

Lemma net_ok_sock st a x : net_ok st -> sock_ok x -> net_ok (set_sock st a x).
Proof. intros [Hl Hs] Hx. split; [done |]. by apply socks_ok_insert. Qed.

Lemma sock_wait_ok patience i ready a st r st' :
  net_ok st -> sock_wait patience i env ready a st = Ret (r, st') -> net_ok st'.
Proof.
  revert i st. induction patience as [| patience IH]; intros i st Hok Hw; cbn [sock_wait] in Hw; unbind Hw as x Hx.
  all: destruct (ready x); [by simplify_eq |]; destruct (ended (s_state x)); [by simplify_eq |].
  - done.
  - eapply IH; [| exact Hw]. by apply env_ok.
Qed.

Lemma accept_wait_ok patience i a st st' : net_ok st -> accept_wait patience i env a st = Ret st' -> net_ok st'.
Proof.
  revert i st. induction patience as [| patience IH]; intros i st Hok Hw; cbn [accept_wait] in Hw; unbind Hw as x Hx.
  all: destruct (nz _); [by simplify_eq |].
  - done.
  - eapply IH; [| exact Hw]. by apply env_ok.
Qed.

Lemma dns_wait_ok patience i e a st st' : net_ok st -> dns_wait patience i env e a st = Ret st' -> net_ok st'.
Proof.
  revert i st. induction patience as [| patience IH]; intros i st Hok Hw; cbn [dns_wait] in Hw; unbind Hw as d Hd.
  all: destruct (_ && _); [| by simplify_eq].
  - done.
  - eapply IH; [| exact Hw]. by apply env_ok.
Qed.

(** Taking bytes away leaves a well formed socket. *)
Lemma recv_shift_ok x n b :
  sock_ok x -> 0 <= n <= s_read_buffer_length x ->
  (if nz (u32 (s_read_buffer_length x - n)) then memmove (s_read_buffer x) 0 n (u32 (s_read_buffer_length x - n))
   else Ret (s_read_buffer x)) = Ret b ->
  sock_ok (with_buffer x b (u32 (s_read_buffer_length x - n))).
Proof.
  intros [Hl Hx] Hn Hb. unfold READ_BUFFER_SIZE in *. rewrite u32_small in * by lia.
  assert (length b = length (s_read_buffer x)) as Eb.
  { destruct (nz _); [| by simplify_eq]. rewrite memmove_spec in Hb by lia. injection Hb as <-. apply length_inserts. }
  split; cbn [with_buffer s_read_buffer s_read_buffer_length]; unfold READ_BUFFER_SIZE; lia.
Qed.

Lemma do_recvfrom_ok patience st a dest size fl rf r st' :
  net_ok st -> 0 <= size -> do_recvfrom patience env st a dest size fl rf = Ret (r, st') -> net_ok st'.
Proof.
  intros Hok Hsz Hd. unfold do_recvfrom in Hd. unbind Hd as x Hx.
  destruct (ended (s_state x)); [by simplify_eq |]. destruct (_ && _); [by simplify_eq |].
  unbind Hd as [w st1] Hw. apply sock_wait_ok in Hw; [| done]. destruct w; [by simplify_eq |].
  unbind Hd as y Hy. unbind Hd as d Hm. pose proof (load_sock_ok _ _ _ (proj2 Hw) Hy) as Hyok.
  destruct (negb _); [| by simplify_eq]. unbind Hd as b Hb. injection Hd as _ <-. apply net_ok_sock; [done |].
  apply recv_shift_ok; [done | | exact Hb]. destruct Hyok as [_ Hyl]. destruct (Z.gtb_spec size (s_read_buffer_length y)); lia.
Qed.

Lemma get_socket_ok st fd r st' : net_ok st -> get_socket st fd = Ret (r, st') -> net_ok st'.
Proof. intros Hok Hg. eapply net_ok_world; [done |]. by eapply get_socket_world. Qed.

Lemma map_user_ok st a n r st' : net_ok st -> vm_map_user a n st = Ret (r, st') -> net_ok st'.
Proof. intros Hok Hg. eapply net_ok_world; [done |]. by eapply law_net_map. Qed.

Lemma segv_ok st st' : net_ok st -> task_signal_segv st = Ret st' -> net_ok st'.
Proof. intros Hok Hg. eapply net_ok_world; [done |]. by eapply law_net_segv. Qed.

Lemma locked_call_ok st a f s r st' : net_ok st -> locked_call released st a f s = Ret (r, st') -> net_ok st'.
Proof.
  intros Hok Hc. unfold locked_call in Hc. rewrite get_lock_free, bind_Ret in Hc by apply Hok. cbn [negb] in Hc.
  unbind Hc as x Hx. unbind Hc as [q p] Hf. destruct (q <? 0); [injection Hc as <- <-; by apply net_ok_locked |].
  unbind Hc as y Hy. injection Hc as <- <-. apply net_ok_sock; [by apply net_ok_locked |].
  exact (load_sock_ok _ _ _ (proj2 (net_ok_locked _ p Hok)) Hy).
Qed.

Lemma checked_address_ok st sa len r st' : net_ok st -> checked_address st sa len = Ret (r, st') -> net_ok st'.
Proof.
  intros Hok Hc. unfold checked_address in Hc. unbind Hc as port Hp. destruct (_ && _); [by simplify_eq |].
  unbind Hc as [q addr] Ha. destruct (q <? 0); by simplify_eq.
Qed.

Lemma new_socket_ok st mem ps s r st' : net_ok st -> new_socket_fd st mem ps s = Ret (r, st') -> net_ok st'.
Proof.
  intros Hok Hc. unfold new_socket_fd in Hc. destruct (mem =? 0); [done |]. destruct (ps =? 0); [done |].
  unbind Hc as [i st1] Ha. apply alloc_world in Ha.
  assert (net_ok st1) as Hok1.
  { eapply net_ok_world; [| exact Ha]. split; [apply Hok |]. apply map_Forall_insert_2; [| apply Hok].
    split; cbn [s_read_buffer s_read_buffer_length]; unfold READ_BUFFER_SIZE; [by rewrite length_replicate |]. lia. }
  destruct i; [| by simplify_eq]. unbind Hc as st2 Hu. unfold update in Hu. unbind Hu as f Hf. by simplify_eq.
Qed.

Lemma give_name_ok st amem addr port r m st' : net_ok st -> give_name st amem addr port = Ret (r, m, st') -> net_ok st'.
Proof. intros Hok Hc. unfold give_name in Hc. unbind Hc as [[q am] e] Hq. injection Hc as <- <- <-. by destruct e. Qed.

(** Whatever the operation returns, the invariant holds afterwards. *)
Definition maintains {A} (m : outcome (A * vfs_state (net_world P))) : Prop := forall r st', m = Ret (r, st') -> net_ok st'.

Lemma read_cb_ok patience ctx dest size st : net_ok st -> 0 <= size -> maintains (socket_read_cb patience env ctx dest size st).
Proof.
  intros Hok Hsz r st' Hc. unfold socket_read_cb in Hc. unbind Hc as fp Hf. destruct (_ =? 0); [by simplify_eq |].
  by eapply do_recvfrom_ok.
Qed.

Lemma recvfrom_ok patience st data dest : net_ok st -> 0 <= rd_size data -> maintains (net_recvfrom patience env st data dest).
Proof.
  intros Hok Hsz r st' Hc. unfold net_recvfrom in Hc. unbind Hc as [a st1] Hg. apply get_socket_ok in Hg; [| done].
  destruct a as [a |]; [| by simplify_eq]. unbind Hc as [m st2] Hm. apply map_user_ok in Hm; [| done].
  destruct (m =? 0).
  - unbind Hc as st3 Hs. apply segv_ok in Hs; [| done]. by simplify_eq.
  - unbind Hc as [[n d] st3] Hd. injection Hc as <- <-. by eapply do_recvfrom_ok.
Qed.

Lemma write_cb_ok patience ctx source size st : net_ok st -> maintains (socket_write_cb released patience env ctx source size st).
Proof.
  intros Hok r st' Hc. unfold socket_write_cb in Hc. unbind Hc as fp Hf. unbind Hc as [w st1] Hw.
  apply sock_wait_ok in Hw; [| done]. destruct w; [by injection Hc as <- <- |].
  rewrite get_lock_free, bind_Ret in Hc by apply Hw. cbn [negb] in Hc. unbind Hc as x Hx. unbind Hc as [n p] Hp.
  injection Hc as <- <-. exact (net_ok_locked _ p Hw).
Qed.

Lemma poll_cb_ok ctx events st : net_ok st -> maintains (socket_poll_cb released ctx events st).
Proof.
  intros Hok r st' Hc. unfold socket_poll_cb in Hc. unbind Hc as fp Hf. rewrite get_lock_free, bind_Ret in Hc by apply Hok.
  cbn [negb] in Hc. unbind Hc as x Hx. injection Hc as <- <-. by split; [| apply Hok].
Qed.

Lemma socket_ok st mem domain type protocol :
  net_ok st -> (forall d t p, pico_socket_open d t (pico_of st) <> Ret (0, p)) -> maintains (net_socket released st mem domain type protocol).
Proof.
  intros Hok Ho r st' Hc. unfold net_socket in Hc. destruct (_ && _); [by injection Hc as <- <- |].
  destruct (_ && _); [by injection Hc as <- <- |]. rewrite get_lock_free, bind_Ret in Hc by apply Hok. cbn [negb] in Hc.
  unbind Hc as [ps p] Hp. destruct (Z.eqb_spec ps 0) as [-> |]; [by apply Ho in Hp |].
  unbind Hc as [fd st1] Hn. apply new_socket_ok in Hn; [| exact (net_ok_locked _ p Hok)].
  unfold socket_result in Hc. destruct fd; [unbind Hc as fp Hf |]; by simplify_eq.
Qed.

Lemma bind_ok st fd sa len : net_ok st -> maintains (net_bind released st fd sa len).
Proof.
  intros Hok r st' Hc. unfold net_bind in Hc. unbind Hc as [a st1] Hg. apply get_socket_ok in Hg; [| done].
  destruct a as [a |]; [| by simplify_eq]. unbind Hc as [c st2] Hd. apply checked_address_ok in Hd; [| done].
  destruct c as [[addr port] |]; [| by simplify_eq]. by eapply locked_call_ok.
Qed.

Lemma listen_ok st fd backlog : net_ok st -> maintains (net_listen released st fd backlog).
Proof.
  intros Hok r st' Hc. unfold net_listen in Hc. unbind Hc as [a st1] Hg. apply get_socket_ok in Hg; [| done].
  destruct a as [a |]; [| by simplify_eq]. by eapply locked_call_ok.
Qed.

Lemma connect_ok st fd sa len : net_ok st -> maintains (net_connect released st fd sa len).
Proof.
  intros Hok r st' Hc. unfold net_connect in Hc. unbind Hc as [a st1] Hg. apply get_socket_ok in Hg; [| done].
  destruct a as [a |]; [| by simplify_eq]. unbind Hc as fam Hf. destruct (_ || _); [by injection Hc as <- <- |].
  unbind Hc as [c st2] Hd. apply checked_address_ok in Hd; [| done].
  destruct c as [[addr port] |]; [| by simplify_eq]. by eapply locked_call_ok.
Qed.

Lemma accept_ok patience st mem fd oaddr addrlen amem : net_ok st -> maintains (net_accept released patience env st mem fd oaddr addrlen amem).
Proof.
  intros Hok [r m] st' Hc. unfold net_accept in Hc. unbind Hc as [a st1] Hg. apply get_socket_ok in Hg; [| done].
  destruct a as [a |]; [| by simplify_eq]. unbind Hc as x Hx. destruct (bool_decide _); [by simplify_eq |].
  unbind Hc as [[addr ok] st2] Hm. assert (net_ok st2) as Hok2.
  { destruct addrlen as [len |]; [| by simplify_eq]. destruct (nz oaddr); [| by simplify_eq]. unbind Hm as [q st3] Hq.
    apply map_user_ok in Hq; [| done]. destruct (q =? 0); [| by simplify_eq]. unbind Hm as st4 Hs. apply segv_ok in Hs; [| done]. by simplify_eq. }
  destruct (negb ok); [by simplify_eq |]. unbind Hc as st3 Hw. apply accept_wait_ok in Hw; [| done].
  rewrite get_lock_free, bind_Ret in Hc by apply Hw. cbn [negb] in Hc. unbind Hc as y Hy. unbind Hc as [[[ps pa] port] p] Hp.
  unbind Hc as [am st4] Ha. assert (net_ok st4) as Hok4.
  { pose proof (net_ok_locked _ p Hw) as Hl. destruct addr; [| by simplify_eq]. unbind Ha as [[z am2] e] Hz. injection Ha as <- <-. by destruct e. }
  unbind Hc as p2 Hp2. assert (net_ok (set_pico st4 p2)) as Hok5 by (destruct Hok4; by split).
  destruct (ps =? 0); [by injection Hc as <- <- <- |]. unbind Hc as [i st6] Hn. apply new_socket_ok in Hn; [| done].
  destruct i as [i |]; [| by simplify_eq]. unbind Hc as w Hw2. unbind Hc as fp Hfp. injection Hc as <- <- <-.
  apply net_ok_sock; [done |]. exact (load_sock_ok _ _ _ (proj2 Hn) Hw2).
Qed.

Lemma getpeername_ok st fd osa len amem : net_ok st -> maintains (net_getpeername st fd osa len amem).
Proof.
  intros Hok [r m] st' Hc. unfold net_getpeername in Hc. unbind Hc as [a st1] Hg. apply get_socket_ok in Hg; [| done].
  destruct a as [a |]; [| by simplify_eq]. destruct (len <? SOCKSIZE); [by simplify_eq |].
  unbind Hc as [q st2] Hq. apply map_user_ok in Hq; [| done].
  destruct (q =? 0); [unbind Hc as st3 Hs; apply segv_ok in Hs; [| done]; by simplify_eq |].
  unbind Hc as x Hx. unbind Hc as [[[z addr] port] p] Hp. assert (net_ok (set_pico st2 p)) as Hok3 by (destruct Hq; by split).
  destruct (z <? 0); [by simplify_eq |]. by eapply give_name_ok.
Qed.

Lemma getsockname_ok st fd osa len amem : net_ok st -> maintains (net_getsockname st fd osa len amem).
Proof.
  intros Hok [r m] st' Hc. unfold net_getsockname in Hc. unbind Hc as [a st1] Hg. apply get_socket_ok in Hg; [| done].
  destruct a as [a |]; [| by simplify_eq]. unbind Hc as [q st2] Hq. apply map_user_ok in Hq; [| done].
  destruct (q =? 0); [unbind Hc as st3 Hs; apply segv_ok in Hs; [| done]; by simplify_eq |].
  unbind Hc as x Hx. unbind Hc as [addr port] Hp. by eapply give_name_ok.
Qed.

Lemma resolve_ok patience st mem data result len mode : net_ok st -> maintains (do_resolve patience env st mem data result len mode).
Proof.
  intros Hok r st' Hc. unfold do_resolve in Hc. destruct (mem =? 0); [done |]. unbind Hc as [q p] Hq.
  match type of Hc with context [nz q] => destruct (nz q); [injection Hc as <- <-; by destruct Hok |] end.
  unbind Hc as st2 Hw. apply dns_wait_ok in Hw; [| by destruct Hok]. unbind Hc as d Hd.
  destruct (_ =? -2); injection Hc as <- <-; by destruct Hw.
Qed.

Lemma dns_cb_ok st data a st' : net_ok st -> dns_cb st data a = Ret st' -> net_ok st'.
Proof.
  intros Hok Hc. unfold dns_cb in Hc. destruct (_ !! a) as [d |]; [| done]. destruct (_ =? -3); [injection Hc as <-; by destruct Hok |].
  destruct data as [s |]; [| injection Hc as <-; by destruct Hok]. unbind Hc as [q st1] Hs. injection Hc as <-.
  apply law_net_string in Hs. apply (net_ok_world _ _ Hok) in Hs. by destruct Hs.
Qed.

Lemma event_ok st ev ps st' :
  net_ok st -> (forall a x, nw_priv (vs_world st) !! ps = Some a -> nw_socks (vs_world st) !! a = Some x -> ~ read_fails st x) ->
  socket_cb released st ev ps = Ret st' -> net_ok st'.
Proof.
  intros Hok Hr Hc. destruct (nw_priv (vs_world st) !! ps) as [a |] eqn:Hp.
  2: { unfold socket_cb in Hc. rewrite Hp in Hc. by simplify_eq. }
  destruct (Z.eq_dec a 0) as [-> | Ha]. { unfold socket_cb in Hc. rewrite Hp, Z.eqb_refl in Hc. by injection Hc as <-. }
  destruct (nw_socks (vs_world st) !! a) as [x |] eqn:Hx.
  2: { unfold socket_cb, load_sock in Hc. rewrite Hp, (proj2 (Z.eqb_neq _ _) Ha), Hx in Hc. done. }
  destruct (socket_cb_spec released _ _ _ _ _ _ Hok Hp Ha Hx Hc) as (x' & Ew & El & _ & _ & [(b & Hx' & _) | (_ & Hf & _)]).
  - split; [done |]. unfold socks_ok. rewrite Ew. apply map_Forall_insert_2; [done | apply Hok].
  - by apply Hr in Hx.
Qed.

End Preserve.

(** C24: every operation on sockets, and every event of picotcp, leaves the lock of
    the network free and every socket well formed (the buffer has its size and is
    never overfull), on all paths, errors included, if they were so before and
    stay so while the operation waits.  There are two exceptions: an event whose
    read fails ([read_error_wraps]) and net_socket when picotcp has no socket
    ([net_socket_keeps_lock]). *)
Theorem net_invariant {P} `{NetLaws P} released env (st : vfs_state (net_world P)) :
  (forall i st, net_ok st -> net_ok (env i st)) -> net_ok st ->
  (forall ev ps st', (forall a x, nw_priv (vs_world st) !! ps = Some a -> nw_socks (vs_world st) !! a = Some x -> ~ read_fails st x) ->
     socket_cb released st ev ps = Ret st' -> net_ok st') /\
  (forall data a st', dns_cb st data a = Ret st' -> net_ok st') /\
  (forall patience ctx dest size, 0 <= size -> maintains (socket_read_cb patience env ctx dest size st)) /\
  (forall patience data dest, 0 <= rd_size data -> maintains (net_recvfrom patience env st data dest)) /\
  (forall patience ctx source size, maintains (socket_write_cb released patience env ctx source size st)) /\
  (forall ctx events, maintains (socket_poll_cb released ctx events st)) /\
  (forall mem domain type protocol, (forall d t p, pico_socket_open d t (pico_of st) <> Ret (0, p)) ->
     maintains (net_socket released st mem domain type protocol)) /\
  (forall fd sa len, maintains (net_bind released st fd sa len)) /\
  (forall fd backlog, maintains (net_listen released st fd backlog)) /\
  (forall fd sa len, maintains (net_connect released st fd sa len)) /\
  (forall patience mem fd oaddr addrlen amem, maintains (net_accept released patience env st mem fd oaddr addrlen amem)) /\
  (forall fd osa len amem, maintains (net_getpeername st fd osa len amem)) /\
  (forall fd osa len amem, maintains (net_getsockname st fd osa len amem)) /\
  (forall patience mem host result len, maintains (net_getaddr patience env st mem host result len)) /\
  (forall patience mem ip result len, maintains (net_getname patience env st mem ip result len)).
Proof.
  intros He Hok. split_and!; intros.
  - by eapply event_ok.
  - by eapply dns_cb_ok.
  - by apply read_cb_ok.
  - by apply recvfrom_ok.
  - by apply write_cb_ok.
  - by apply poll_cb_ok.
  - by apply socket_ok.
  - by apply bind_ok.
  - by apply listen_ok.
  - by apply connect_ok.
  - by apply accept_ok.
  - by apply getpeername_ok.
  - by apply getsockname_ok.
  - by apply resolve_ok.
  - by apply resolve_ok.
Qed.
