(* ===== verification/SocketExample.v ===== *)
(** An instance of picotcp for the theorems on sockets (SocketSpec.v), the
    conversion of addresses there and back, and where the code of Socket.v falls
    short. *)
From stdpp Require Import base numbers list gmap.
From Stdlib Require Import ZArith Lia Bool.
From S2P Require Import Prelude Spinlock Str Bytes Buffer DList Path Mount Vfs VfsSpec Pipe Poll Socket SocketSpec.

Open Scope Z_scope.

(** * Addresses *)

(** An address of picotcp survives the conversion to BSD and back. *)
Lemma address_roundtrip (mem addr : list Z) port len :
  len = SOCKSIZE \/ len = SOCKSIZE6 -> Z.of_nat (length mem) = len -> length addr = 16%nat -> 0 <= port < 2 ^ 16 ->
  exists sa addr', net_conv_pico2bsd mem len addr port = Ret (0, sa, None) /\
    net_bsd_to_pico_port sa len = Ret port /\ net_bsd_to_pico_addr (replicate 16 0) sa len = Ret (0, addr') /\
    (if len =? SOCKSIZE6 then addr' = addr else take 4 addr' = take 4 addr).
Proof.
  intros Hlen Hm Ha Hp.
  assert (forall p0 p1, le_bytes 2 port = [p0; p1] -> le_at 2 [p0; p1] 0 = port) as Hport.
  { intros p0 p1 <-. rewrite <- (app_nil_r (le_bytes 2 port)). apply le_at_le_bytes. done. }
  do 17 (destruct addr as [| ? addr]; [try done |]); [| done].
  destruct Hlen as [-> | ->]; unfold SOCKSIZE, SOCKSIZE6 in *.
  - do 21 (destruct mem as [| ? mem]; [try done |]); [| simpl in Hm; lia].
    do 2 eexists. split; [reflexivity |]. split; [| split; reflexivity].
    change (Ret (le_at 2 [u8 port; u8 (port / 256)] 0) = Ret port). f_equal. by apply Hport.
  - do 33 (destruct mem as [| ? mem]; [try done |]); [| simpl in Hm; lia].
    do 2 eexists. split; [reflexivity |]. split; [| split; reflexivity].
    change (Ret (le_at 2 [u8 port; u8 (port / 256)] 0) = Ret port). f_equal. by apply Hport.
Qed.

(** * An instance *)

(** A picotcp with bytes to read, which may refuse to work. *)
Record toy_pico : Type := ToyPico { tp_data : list Z; tp_refuse : bool }.

#[global] Instance toy_picotcp : PicoTcp toy_pico := {
  pico_socket_open d t p := Ret (if tp_refuse p then 0 else 0x700, p);
  pico_socket_read s n p :=
    if tp_refuse p then Ret (-1, [], p) else
    Ret (Z.of_nat (length (take (Z.to_nat n) (tp_data p))), take (Z.to_nat n) (tp_data p), ToyPico (drop (Z.to_nat n) (tp_data p)) false);
  pico_socket_write s d n p := Ret (n, p);
  pico_socket_bind s a port p := Ret (0, p);
  pico_socket_listen s b p := Ret (0, p);
  pico_socket_accept s p := Ret (0x701, replicate 16 1, 80, p);
  pico_socket_connect s a port p := Ret (0, p);
  pico_socket_getpeername s p := Ret (0, replicate 16 1, 80, p);
  pico_socket_nodelay s p := Ret p;
  pico_socket_local s p := Ret (replicate 16 1, 80);
  pico_dns_client m d s p := Ret (0, p);
  pico_err p := 12;
  PICO_SOCK_EV_RD := 1;
  PICO_SOCK_EV_WR := 2;
  PICO_SOCK_EV_CONN := 4;
  PICO_SOCK_EV_CLOSE := 8;
  PICO_SOCK_EV_FIN := 16;
  PICO_SOCK_EV_ERR := 128;
  PICO_PROTO_IPV4 := 0;
  PICO_PROTO_IPV6 := 41;
  PICO_PROTO_TCP := 6;
  PICO_PROTO_UDP := 17;
  pico_tick p := 0;
  pico_rate p := 1000;
}.

#[global] Instance net_ex_backend : VfsBackend (net_world toy_pico) := null_backend (net_world toy_pico).

#[global] Instance toy_net_laws : NetLaws toy_pico.
Proof.
  split.
  - intros s n p r bytes p' Hr Hn. cbn in Hr. destruct (tp_refuse p); injection Hr as <- <- <-; [by left | right].
    split; [| done]. rewrite length_take. lia.
  - intros a n st r st' Hm. by injection Hm as <- <-.
  - intros st st' Hm. by injection Hm as <-.
  - intros a s n st r st' Hm. by injection Hm as <- <-.
Qed.

(** A task, not root, with a socket at descriptor 3. *)
Definition ex_sock (s : socket_state) : socket := Socket 0x700 0 false (replicate (Z.to_nat READ_BUFFER_SIZE) 0) 0 s.

Definition ex_net (x : socket) (p : toy_pico) : vfs_state (net_world toy_pico) :=
  State true (<[3%nat := socket_file (with_num (with_refs zero_file 1) 3) 0x900]> fresh_table) [SLASH] 0 1000 0
    (Mounts ∅ 0 ∅) (NetWorld {[0x900 := x]} {[0x700 := 0x900]} 0 ∅ p).

Definition nobody : nat -> bool := fun _ => false.

Lemma ex_net_ok s p : net_ok (ex_net (ex_sock s) p).
Proof.
  split; [done |]. unfold socks_ok. cbn [vs_world ex_net nw_socks]. apply map_Forall_singleton. split; cbn [ex_sock s_read_buffer s_read_buffer_length].
  - by rewrite length_replicate.
  - unfold READ_BUFFER_SIZE. lia.
Qed.

(** Five bytes arrive at a connected socket, and three are received. *)
Definition ex_arrive : vfs_state (net_world toy_pico) := ex_net (ex_sock SOCK_CONNECTED) (ToyPico [1; 2; 3; 4; 5] false).

Definition ex_arrived : vfs_state (net_world toy_pico) :=
  match socket_cb nobody ex_arrive 1 0x700 with Ret st => st | _ => ex_arrive end.

Lemma ex_arrives : socket_cb nobody ex_arrive 1 0x700 = Ret ex_arrived.
Proof. reflexivity. Qed.

Definition ex_delivers (i : nat) (st : vfs_state (net_world toy_pico)) : vfs_state (net_world toy_pico) := ex_arrived.

(** A receive after the event, and one that waits for it. *)
Lemma socket_stream_correct_witness :
  (exists n dest' st2, do_recvfrom 1 ex_delivers ex_arrived 0x900 [0; 0; 0; 9] 3 0 0 = Ret (n, dest', st2) /\
    n = 3 /\ take 3 dest' = [1; 2; 3]) /\
  exists n dest' st2, do_recvfrom 1 ex_delivers ex_arrive 0x900 [0; 0; 0; 9] 3 0 0 = Ret (n, dest', st2) /\
    n = 3 /\ take 3 dest' = [1; 2; 3].
Proof.
  destruct (socket_stream_correct nobody 1 ex_delivers ex_arrive ex_arrived 1 0x700 0x900 (ex_sock SOCK_CONNECTED)
    [0; 0; 0; 9] 3 0 0) as (bytes & Hb & _ & Hr).
  - apply ex_net_ok.
  - reflexivity.
  - discriminate.
  - reflexivity.
  - intros (b & p & Hf). discriminate.
  - apply ex_arrives.
  - simpl. lia.
  - destruct Hb as (r & p & Hb). injection Hb as Hr' Hbytes Hp.
    replace bytes with [1; 2; 3; 4; 5] in Hr by (rewrite <- Hbytes; reflexivity). specialize (Hr ltac:(reflexivity) ltac:(discriminate)). split.
    + destruct (Hr 0%nat ex_arrived) as (n & dest' & st2 & x2 & Hd & Hn & Ht & _); [split; [reflexivity | lia] | lia | by left |].
      exists n, dest', st2. split; [exact Hd |]. subst n. split; [reflexivity | exact Ht].
    + destruct (Hr 1%nat ex_arrive) as (n & dest' & st2 & x2 & Hd & Hn & Ht & _); [| lia | right; reflexivity |].
      { split; [reflexivity |]. intros j Hj. assert (j = 0%nat) as -> by lia. exists (ex_sock SOCK_CONNECTED).
        split; [reflexivity |]. split; reflexivity. }
      exists n, dest', st2. split; [exact Hd |]. subst n. split; [reflexivity | exact Ht].
Defined.

(** A call to listen on the example succeeds and leaves the lock free. *)
Lemma net_invariant_witness :
  exists st', net_listen nobody (ex_net (ex_sock SOCK_BOUND) (ToyPico [] false)) 3 10 = Ret (0, st') /\ net_ok st'.
Proof.
  destruct (net_invariant nobody (fun _ st => st) (ex_net (ex_sock SOCK_BOUND) (ToyPico [] false)) ltac:(intros i st H; exact H)
    (ex_net_ok _ _)) as (_ & _ & _ & _ & _ & _ & _ & _ & Hl & _).
  eexists. split; [reflexivity |]. apply (Hl 3 10 0). reflexivity.
Defined.

(** * Where the code falls short *)

(** A receive of more than the buffer has, when the length says that it is there,
    copies memory behind the buffer. *)
Lemma recv_overreads {P : Type} `{PicoTcp P} `{VfsBackend (net_world P)} patience env (st : vfs_state (net_world P)) a x dest size fp_flags recv_flags :
  nw_socks (vs_world st) !! a = Some x -> ended (s_state x) = None -> Z.of_nat (length (s_read_buffer x)) < size <= s_read_buffer_length x ->
  do_recvfrom patience env st a dest size fp_flags recv_flags = Fault.
Proof.
  intros Ha He Hs. assert (load_sock st a = Ret x) as Hl by (unfold load_sock; by rewrite Ha).
  assert (nz (s_read_buffer_length x) = true) as Hn by (apply nz_true; lia).
  unfold do_recvfrom. rewrite Hl, bind_Ret, He, Hn. cbn [negb andb].
  assert (sock_wait patience 0 env (fun x => nz (s_read_buffer_length x)) a st = Ret (None, st)) as ->
    by (destruct patience; cbn [sock_wait]; by rewrite Hl, bind_Ret, Hn).
  rewrite bind_Ret, Hl, bind_Ret. rewrite Z.gtb_ltb. destruct (Z.ltb_spec (s_read_buffer_length x) size); [lia |].
  unfold memcpy. by rewrite memcpy_overreads by lia.
Qed.

(** A read of picotcp that fails makes the length of the data 2^32 - 1, and the
    next receive copies memory behind the buffer. *)
Lemma read_error_wraps :
  exists st, socket_cb nobody (ex_net (ex_sock SOCK_CONNECTED) (ToyPico [] true)) 1 0x700 = Ret st /\
    s_read_buffer_length <$> nw_socks (vs_world st) !! 0x900 = Some (2 ^ 32 - 1) /\
    do_recvfrom 0 (fun _ st => st) st 0x900 (replicate 0x5001 0) 0x5001 0 0 = Fault.
Proof.
  eexists. split; [reflexivity |]. split; [reflexivity |]. eapply recv_overreads; [reflexivity | reflexivity |].
  split; [| done]. change (event_state 1 (ex_sock SOCK_CONNECTED)) with (ex_sock SOCK_CONNECTED).
  cbn [ex_sock with_buffer with_can_write s_read_buffer s_read_buffer_length].
  rewrite length_splice by (rewrite ?length_replicate; done). by rewrite length_replicate.
Qed.

(** When picotcp has no socket, the lock stays taken, and every later call fails. *)
Lemma net_socket_keeps_lock :
  match net_socket nobody (ex_net (ex_sock SOCK_OPEN) (ToyPico [] true)) 0xa00 AF_INET SOCK_STREAM 0 with
  | Ret (r, st) => r = -1 /\ nw_lock (vs_world st) = 1 /\
      match net_listen nobody st 3 10 with Ret (r, st') => r = -1 /\ vs_errno st' = EAGAIN | _ => False end
  | _ => False
  end.
Proof. vm_compute. repeat split; reflexivity. Qed.

(** Data that arrived before the peer closed the connection can not be received. *)
Lemma close_loses_data :
  match socket_cb nobody ex_arrived 16 0x700 with
  | Ret st => pending <$> nw_socks (vs_world st) !! 0x900 = Some [1; 2; 3; 4; 5] /\
      match do_recvfrom 0 (fun _ st => st) st 0x900 [0; 0; 0; 9] 3 0 0 with
      | Ret (r, _, st') => r = u32 (-1) /\ vs_errno st' = ENOTCONN
      | _ => False
      end
  | _ => False
  end.
Proof. vm_compute. repeat split; reflexivity. Qed.

(** A user can not connect to port 80. *)
Definition port_80 : list Z := [1; 0; 0; 0; 0; 80; 0; 0; 127; 0; 0; 1; 0; 0; 0; 0; 0; 0; 0; 0].

Lemma connect_needs_root :
  exists st, net_connect nobody (ex_net (ex_sock SOCK_OPEN) (ToyPico [] false)) 3 port_80 20 = Ret (-1, st) /\ vs_errno st = EACCES.
Proof. eexists. split; reflexivity. Qed.

(** accept and getsockname write 20 bytes, however long the program says that its memory is. *)
Lemma getsockname_overflows :
  net_getsockname (ex_net (ex_sock SOCK_BOUND) (ToyPico [] false)) 3 0x5000 4 [0; 0; 0; 0] = Fault.
Proof. reflexivity. Qed.

Lemma accept_overflows :
  net_accept nobody 0 (fun _ st => st) (ex_net (with_requests (ex_sock SOCK_LISTEN) 1) (ToyPico [] false)) 0xa00 3 0x5000 (Some 4) [0; 0; 0; 0] = Fault.
Proof. vm_compute. reflexivity. Qed.

(** A closed connection is not reported to poll. *)
Lemma poll_misses_close :
  exists st st', socket_cb nobody (ex_net (ex_sock SOCK_CONNECTED) (ToyPico [] false)) 16 0x700 = Ret st /\
    socket_poll_cb nobody (Ctx (Some 3%nat) [] [] 0) (Z.lor POLLIN POLLOUT) st = Ret (0, st').
Proof. do 2 eexists. split; [reflexivity |]. reflexivity. Qed.
