(* ===== verification/Task.v ===== *)
(** Tasks and signals: [task_t] of src/src/tasks/task.h, src/src/tasks/signal.c,
    the small calls of src/src/tasks/task.c that only touch the task itself, and
    the signal trampoline of src/src/tasks/i386-signal.asm.

    The kernel's state is a record: the tasks and the entries of the run queue
    by address, the words of kernel memory the signal code works on, the clock.
    A pointer to a task that has been freed points to nothing: using it is
    [Fault]. *)
From stdpp Require Import base numbers list gmap.
From Stdlib Require Import ZArith Lia Bool.
From S2P Require Import Prelude DList.

Open Scope Z_scope.

Inductive task_state : Type :=
  | TERMINATED
  | ZOMBIE
  | REAPED
  | STOPPED
  | REPLACED
  | RUNNING
  | WAITING
  | SLEEPING
  | SYSCALL.

#[global] Instance task_state_eq_dec : EqDecision task_state.
Proof. solve_decision. Defined.

Definition NSIG : Z := 32.
Definition SIGKILL : Z := 9.
Definition SIGSEGV : Z := 11.
Definition SIGURG : Z := 16.
Definition SIGSTOP : Z := 17.
Definition SIGCONT : Z := 19.
Definition SIGCHLD : Z := 20.
Definition SIG_DFL : Z := 0.
Definition SIG_IGN : Z := 1.

Definition SIG_SETMASK : Z := 0.
Definition SIG_BLOCK : Z := 1.
Definition SIG_UNBLOCK : Z := 2.

Record sigaction : Type := Sigaction { sa_flags : Z; sa_mask : Z; sa_handler : Z }.

(** The general registers of [isf_t]. *)
Record regs : Type := Regs { edi : Z; esi : Z; ebp : Z; ebx : Z; edx : Z; ecx : Z; eax : Z }.

(** [task_t], as far as scheduling, signals and waiting use it.  Pointers are
    addresses, 0 for NULL; [t_umem] holds the words of the task's memory the
    kernel writes. *)
Record task : Type := Task {
  t_pid : Z;
  t_uid : Z;
  t_gid : Z;
  t_euid : Z;
  t_egid : Z;
  t_parent : Z;
  t_qentry : Z;
  t_state : task_state;
  t_exit_code : Z;
  t_handlers : list sigaction;
  t_mask : Z;
  t_wait_for : Z;
  t_wait_res_pid : Z;
  t_stat_loc : Z;
  t_interrupt_yield : bool;
  t_sleep_until : Z;
  t_ctty : Z;
  t_strace_observer : Z;
  t_strace_fd : Z;
  t_kernel_stack : Z;
  t_regs : regs;
  t_umem : gmap Z Z;
}.

(** * Updates *)

Definition t_set_state (t : task) (s : task_state) : task :=
  Task (t_pid t) (t_uid t) (t_gid t) (t_euid t) (t_egid t) (t_parent t) (t_qentry t) s
    (t_exit_code t) (t_handlers t) (t_mask t) (t_wait_for t) (t_wait_res_pid t) (t_stat_loc t)
    (t_interrupt_yield t) (t_sleep_until t) (t_ctty t) (t_strace_observer t) (t_strace_fd t)
    (t_kernel_stack t) (t_regs t) (t_umem t).

Definition t_set_yield (t : task) (b : bool) : task :=
  Task (t_pid t) (t_uid t) (t_gid t) (t_euid t) (t_egid t) (t_parent t) (t_qentry t) (t_state t)
    (t_exit_code t) (t_handlers t) (t_mask t) (t_wait_for t) (t_wait_res_pid t) (t_stat_loc t) b
    (t_sleep_until t) (t_ctty t) (t_strace_observer t) (t_strace_fd t) (t_kernel_stack t)
    (t_regs t) (t_umem t).

Definition t_set_exit (t : task) (c : Z) : task :=
  Task (t_pid t) (t_uid t) (t_gid t) (t_euid t) (t_egid t) (t_parent t) (t_qentry t) (t_state t)
    c (t_handlers t) (t_mask t) (t_wait_for t) (t_wait_res_pid t) (t_stat_loc t)
    (t_interrupt_yield t) (t_sleep_until t) (t_ctty t) (t_strace_observer t) (t_strace_fd t)
    (t_kernel_stack t) (t_regs t) (t_umem t).

Definition t_set_mask (t : task) (m : Z) : task :=
  Task (t_pid t) (t_uid t) (t_gid t) (t_euid t) (t_egid t) (t_parent t) (t_qentry t) (t_state t)
    (t_exit_code t) (t_handlers t) m (t_wait_for t) (t_wait_res_pid t) (t_stat_loc t)
    (t_interrupt_yield t) (t_sleep_until t) (t_ctty t) (t_strace_observer t) (t_strace_fd t)
    (t_kernel_stack t) (t_regs t) (t_umem t).

Definition t_set_handlers (t : task) (l : list sigaction) : task :=
  Task (t_pid t) (t_uid t) (t_gid t) (t_euid t) (t_egid t) (t_parent t) (t_qentry t) (t_state t)
    (t_exit_code t) l (t_mask t) (t_wait_for t) (t_wait_res_pid t) (t_stat_loc t)
    (t_interrupt_yield t) (t_sleep_until t) (t_ctty t) (t_strace_observer t) (t_strace_fd t)
    (t_kernel_stack t) (t_regs t) (t_umem t).

Definition t_set_umem (t : task) (m : gmap Z Z) : task :=
  Task (t_pid t) (t_uid t) (t_gid t) (t_euid t) (t_egid t) (t_parent t) (t_qentry t) (t_state t)
    (t_exit_code t) (t_handlers t) (t_mask t) (t_wait_for t) (t_wait_res_pid t) (t_stat_loc t)
    (t_interrupt_yield t) (t_sleep_until t) (t_ctty t) (t_strace_observer t) (t_strace_fd t)
    (t_kernel_stack t) (t_regs t) m.

Definition t_set_wait (t : task) (w r l : Z) : task :=
  Task (t_pid t) (t_uid t) (t_gid t) (t_euid t) (t_egid t) (t_parent t) (t_qentry t) (t_state t)
    (t_exit_code t) (t_handlers t) (t_mask t) w r l (t_interrupt_yield t) (t_sleep_until t)
    (t_ctty t) (t_strace_observer t) (t_strace_fd t) (t_kernel_stack t) (t_regs t) (t_umem t).

Definition t_set_parent (t : task) (p : Z) : task :=
  Task (t_pid t) (t_uid t) (t_gid t) (t_euid t) (t_egid t) p (t_qentry t) (t_state t)
    (t_exit_code t) (t_handlers t) (t_mask t) (t_wait_for t) (t_wait_res_pid t) (t_stat_loc t)
    (t_interrupt_yield t) (t_sleep_until t) (t_ctty t) (t_strace_observer t) (t_strace_fd t)
    (t_kernel_stack t) (t_regs t) (t_umem t).

Definition t_set_qentry (t : task) (q : Z) : task :=
  Task (t_pid t) (t_uid t) (t_gid t) (t_euid t) (t_egid t) (t_parent t) q (t_state t)
    (t_exit_code t) (t_handlers t) (t_mask t) (t_wait_for t) (t_wait_res_pid t) (t_stat_loc t)
    (t_interrupt_yield t) (t_sleep_until t) (t_ctty t) (t_strace_observer t) (t_strace_fd t)
    (t_kernel_stack t) (t_regs t) (t_umem t).

Definition t_set_uid (t : task) (u : Z) : task :=
  Task (t_pid t) u (t_gid t) u (t_egid t) (t_parent t) (t_qentry t) (t_state t) (t_exit_code t)
    (t_handlers t) (t_mask t) (t_wait_for t) (t_wait_res_pid t) (t_stat_loc t)
    (t_interrupt_yield t) (t_sleep_until t) (t_ctty t) (t_strace_observer t) (t_strace_fd t)
    (t_kernel_stack t) (t_regs t) (t_umem t).

Definition t_set_gid (t : task) (g : Z) : task :=
  Task (t_pid t) (t_uid t) g (t_euid t) g (t_parent t) (t_qentry t) (t_state t) (t_exit_code t)
    (t_handlers t) (t_mask t) (t_wait_for t) (t_wait_res_pid t) (t_stat_loc t)
    (t_interrupt_yield t) (t_sleep_until t) (t_ctty t) (t_strace_observer t) (t_strace_fd t)
    (t_kernel_stack t) (t_regs t) (t_umem t).

Definition t_set_sleep (t : task) (n : Z) : task :=
  Task (t_pid t) (t_uid t) (t_gid t) (t_euid t) (t_egid t) (t_parent t) (t_qentry t) (t_state t)
    (t_exit_code t) (t_handlers t) (t_mask t) (t_wait_for t) (t_wait_res_pid t) (t_stat_loc t)
    (t_interrupt_yield t) n (t_ctty t) (t_strace_observer t) (t_strace_fd t) (t_kernel_stack t)
    (t_regs t) (t_umem t).

(** [struct scheduler_qentry], its links apart: a task or a worker. *)
Record qentry : Type := Qentry { q_task : Z; q_worker : Z }.

(** Calls into other parts of the kernel: a file of a task is closed, a task
    and its sysfs file are freed. *)
Inductive event : Type :=
  | EvClose (task fd : Z)
  | EvFree (task : Z).

Inductive scheduler_state : Type := SCHEDULER_OFF | SCHEDULER_INITIALIZING | SCHEDULER_INITIALIZED.

(** The kernel: tasks and queue entries by address, [current_entry], the tick
    of the timer, kernel memory (words), the foreground task of each terminal,
    the [stopped] flag of each worker, errno, and what other parts were told. *)
Record kstate : Type := Kstate {
  ks_tasks : gmap Z task;
  ks_qes : dheap qentry;
  ks_current : Z;
  ks_sched : scheduler_state;
  ks_tick : Z;
  ks_kmem : gmap Z Z;
  ks_fg : gmap Z Z;
  ks_workers : gmap Z bool;
  ks_errno : Z;
  ks_events : list event;
}.

Definition ks_set_tasks (k : kstate) (m : gmap Z task) : kstate :=
  Kstate m (ks_qes k) (ks_current k) (ks_sched k) (ks_tick k) (ks_kmem k) (ks_fg k) (ks_workers k)
    (ks_errno k) (ks_events k).

Definition ks_set_qes (k : kstate) (q : dheap qentry) (c : Z) : kstate :=
  Kstate (ks_tasks k) q c (ks_sched k) (ks_tick k) (ks_kmem k) (ks_fg k) (ks_workers k)
    (ks_errno k) (ks_events k).

Definition ks_set_sched (k : kstate) (s : scheduler_state) : kstate :=
  Kstate (ks_tasks k) (ks_qes k) (ks_current k) s (ks_tick k) (ks_kmem k) (ks_fg k) (ks_workers k)
    (ks_errno k) (ks_events k).

Definition ks_set_kmem (k : kstate) (m : gmap Z Z) : kstate :=
  Kstate (ks_tasks k) (ks_qes k) (ks_current k) (ks_sched k) (ks_tick k) m (ks_fg k) (ks_workers k)
    (ks_errno k) (ks_events k).

Definition ks_set_fg (k : kstate) (m : gmap Z Z) : kstate :=
  Kstate (ks_tasks k) (ks_qes k) (ks_current k) (ks_sched k) (ks_tick k) (ks_kmem k) m (ks_workers k)
    (ks_errno k) (ks_events k).

Definition ks_set_errno (k : kstate) (e : Z) : kstate :=
  Kstate (ks_tasks k) (ks_qes k) (ks_current k) (ks_sched k) (ks_tick k) (ks_kmem k) (ks_fg k)
    (ks_workers k) e (ks_events k).

Definition ks_add_event (k : kstate) (e : event) : kstate :=
  Kstate (ks_tasks k) (ks_qes k) (ks_current k) (ks_sched k) (ks_tick k) (ks_kmem k) (ks_fg k)
    (ks_workers k) (ks_errno k) (e :: ks_events k).

(** [p->...] and an update of a task. *)
Definition load_task (k : kstate) (p : Z) : outcome task :=
  match ks_tasks k !! p with Some t => Ret t | None => Fault end.

Definition upd_task (k : kstate) (p : Z) (g : task -> task) : outcome kstate :=
  t ← load_task k p; Ret (ks_set_tasks k (<[p := g t]> (ks_tasks k))).

(** [sc_errno = e; return -1;] *)
Definition kfail (k : kstate) (e : Z) : outcome (Z * kstate) := Ret (-1, ks_set_errno k e).

(** * Signals *)

Definition load_word (m : gmap Z Z) (a : Z) : Z := default 0 (m !! a).

(** The stores of consecutive words from [a] on. *)
Fixpoint store_words (m : gmap Z Z) (a : Z) (ws : list Z) : gmap Z Z :=
  match ws with
  | [] => m
  | w :: ws => store_words (<[a := w]> m) (a + 4) ws
  end.

(** The address of [task_sigjmp_crt0]. *)
Definition SIGJMP : Z := 0x101000.

Definition KERNEL_STACK_PAGES : Z := 4.
Definition KERNEL_STACK_SIZE : Z := PAGE_SIZE * KERNEL_STACK_PAGES.
Definition SIZEOF_IRET : Z := 20.

(** [bit_get(mask, sig)]: shifting by less than 0 or by the width is undefined. *)
Definition mask_bit (mask sig : Z) : outcome bool :=
  if (sig <? 0) || (32 <=? sig) then Fault else Ret (has_flag mask (Z.shiftl 1 sig)).

Section Signal.
(** Whether [vm_map] can map the 44 bytes at an address of a task's stack. *)
Context (user_mapped : Z -> Z -> bool).

(** The words [task_signal] puts on the stack of the task. *)
Definition sig_frame (handler sig : Z) (r : regs) (eip : Z) : list Z :=
  [handler; sig; edi r; esi r; ebp r; 0; ebx r; edx r; ecx r; eax r; eip].

Definition deliver (k : kstate) (p sig handler : Z) : outcome (Z * kstate) :=
  t ← load_task k p;
  let iret := t_kernel_stack t + PAGE_SIZE - SIZEOF_IRET in
  let user_esp := u32 (load_word (ks_kmem k) (iret + 12) - 11 * 4) in
  let k := ks_set_kmem k (<[iret + 12 := user_esp]> (ks_kmem k)) in
  if negb (user_mapped p user_esp) then Ret (-1, k) else
  let eip := load_word (ks_kmem k) iret in
  k ← upd_task k p (fun t =>
        t_set_state (t_set_umem t (store_words (t_umem t) user_esp (sig_frame handler sig (t_regs t) eip)))
          RUNNING);
  Ret (0, ks_set_kmem k (<[iret := SIGJMP]> (ks_kmem k))).

Definition task_signal (k : kstate) (p sig : Z) : outcome (Z * kstate) :=
  if NSIG <? sig then kfail k EINVAL else
  if (sig =? SIGKILL) || (sig =? SIGSTOP) then
    k ← upd_task k p (fun t => t_set_yield
          (t_set_state t (if sig =? SIGKILL then TERMINATED else STOPPED)) true);
    Ret (0, k)
  else
  t ← load_task k p;
  masked ← mask_bit (t_mask t) sig;
  if (masked : bool) then Ret (0, k) else
  sa ← aload (t_handlers t) sig;
  if sa_handler sa =? SIG_IGN then Ret (0, k)
  else if nz (sa_handler sa) && negb (sa_handler sa =? SIG_DFL) then deliver k p sig (sa_handler sa)
  else if (sig =? SIGCONT) && bool_decide (t_state t = STOPPED) then
    k ← upd_task k p (fun t => t_set_state t RUNNING); Ret (0, k)
  else if (sig =? SIGCHLD) || (sig =? SIGCONT) || (sig =? SIGURG) then Ret (0, k)
  else
    k ← upd_task k p (fun t => t_set_yield
          (t_set_exit (t_set_state t TERMINATED) (Z.lor 0x100 sig)) true);
    Ret (0, k).

End Signal.

(** [set] is None for a NULL pointer; the result is the old mask, which the
    code stores through [oset] when that is not NULL. *)
Definition task_sigprocmask (k : kstate) (p how : Z) (set : option Z) : outcome (Z * Z * kstate) :=
  t ← load_task k p;
  let old := t_mask t in
  match set with
  | None => Ret (0, old, k)
  | Some s =>
    let new :=
      if how =? SIG_SETMASK then s
      else if how =? SIG_BLOCK then Z.lor old s
      else if how =? SIG_UNBLOCK then Z.land old (u32 (Z.lnot s))
      else old in
    k ← upd_task k p (fun t => t_set_mask t new);
    Ret (0, old, k)
  end.

(** The result is the old action; [act] is None for NULL. *)
Definition task_sigaction (k : kstate) (p sig : Z) (act : option sigaction)
    : outcome (Z * option sigaction * kstate) :=
  if NSIG <? sig then Ret (-1, None, ks_set_errno k EINVAL) else
  t ← load_task k p;
  old ← aload (t_handlers t) sig;
  match act with
  | None => Ret (0, Some old, k)
  | Some a =>
    l ← astore (t_handlers t) sig a;
    k ← upd_task k p (fun t => t_set_handlers t l);
    Ret (0, Some old, k)
  end.

(** * Calls of task.c on the task itself *)

Definition task_exit (k : kstate) (p code : Z) : outcome (Z * kstate) :=
  k ← upd_task k p (fun t => t_set_yield (t_set_exit (t_set_state t TERMINATED)
        (s32 (code * 2 ^ 8))) true);
  Ret (0, k).

Definition task_setid (k : kstate) (p which id : Z) : outcome (Z * kstate) :=
  t ← load_task k p;
  if negb (t_euid t =? 0) then kfail k EPERM else
  if which =? 0 then k ← upd_task k p (fun t => t_set_uid t (u16 id)); Ret (0, k)
  else if which =? 1 then k ← upd_task k p (fun t => t_set_gid t (u16 id)); Ret (0, k)
  else kfail k EINVAL.

(** * The trampoline

    [task_sigjmp_crt0]: the stack pointer, the registers and the address it
    jumps to; the handler itself is a call that leaves the stack as it was. *)
Definition task_sigjmp_crt0 (m : gmap Z Z) (esp : Z) : Z * Z * Z * regs * Z :=
  let handler := load_word m esp in          (* pop eax; call eax *)
  let esp := esp + 4 in
  let sig := load_word m esp in              (* the argument of the handler *)
  let esp := esp + 4 in                      (* add esp, 4 *)
  let r := Regs (load_word m esp) (load_word m (esp + 4)) (load_word m (esp + 8))
             (load_word m (esp + 16)) (load_word m (esp + 20)) (load_word m (esp + 24))
             (load_word m (esp + 28)) in     (* popa, which skips esp *)
  let esp := esp + 32 in
  let esp := esp + 4 in                      (* add esp, 4 *)
  (handler, sig, load_word m (esp - 4), r, esp). (* jmp [esp-4] *)

(** * Lemmas *)

Lemma store_words_below m a ws b : b < a -> store_words m a ws !! b = m !! b.
Proof.
  revert m a. induction ws as [| w ws IH]; intros m a Hb; simpl; [done |].
  rewrite IH by lia. apply lookup_insert_ne. lia.
Qed.

Lemma store_words_lookup m a ws i w :
  ws !! i = Some w -> store_words m a ws !! (a + 4 * Z.of_nat i) = Some w.
Proof.
  revert m a i. induction ws as [| v ws IH]; intros m a i Hi; [done |].
  destruct i as [| i]; simpl in Hi; cbn [store_words].
  - injection Hi as <-. rewrite Z.mul_0_r, Z.add_0_r, store_words_below by lia. apply lookup_insert_eq.
  - rewrite <- (IH (<[a := v]> m) (a + 4) i Hi). f_equal. lia.
Qed.

Lemma load_store m a ws i w b :
  ws !! i = Some w -> b = a + 4 * Z.of_nat i -> load_word (store_words m a ws) b = w.
Proof. intros Hw ->. unfold load_word. by rewrite (store_words_lookup _ _ _ _ _ Hw). Qed.

Lemma load_task_Ret k p t : load_task k p = Ret t <-> ks_tasks k !! p = Some t.
Proof. unfold load_task. destruct (ks_tasks k !! p); split; congruence. Qed.

Lemma upd_task_Ret k p t g :
  ks_tasks k !! p = Some t -> upd_task k p g = Ret (ks_set_tasks k (<[p := g t]> (ks_tasks k))).
Proof. intros Hp. unfold upd_task. by rewrite (proj2 (load_task_Ret _ _ _) Hp). Qed.

(** The trampoline on a frame of [task_signal]. *)
Lemma sigjmp_frame m esp handler sig r eip :
  task_sigjmp_crt0 (store_words m esp (sig_frame handler sig r eip)) esp =
    (handler, sig, eip, r, esp + 44).
Proof.
  unfold task_sigjmp_crt0.
  set (ws := sig_frame handler sig r eip).
  rewrite (load_store m esp ws 0 handler esp) by (done || lia).
  rewrite (load_store m esp ws 1 sig (esp + 4)) by (done || lia).
  rewrite (load_store m esp ws 2 (edi r) (esp + 4 + 4)) by (done || lia).
  rewrite (load_store m esp ws 3 (esi r) (esp + 4 + 4 + 4)) by (done || lia).
  rewrite (load_store m esp ws 4 (ebp r) (esp + 4 + 4 + 8)) by (done || lia).
  rewrite (load_store m esp ws 6 (ebx r) (esp + 4 + 4 + 16)) by (done || lia).
  rewrite (load_store m esp ws 7 (edx r) (esp + 4 + 4 + 20)) by (done || lia).
  rewrite (load_store m esp ws 8 (ecx r) (esp + 4 + 4 + 24)) by (done || lia).
  rewrite (load_store m esp ws 9 (eax r) (esp + 4 + 4 + 28)) by (done || lia).
  rewrite (load_store m esp ws 10 eip (esp + 4 + 4 + 32 + 4 - 4)) by (done || lia).
  replace (esp + 4 + 4 + 32 + 4) with (esp + 44) by lia. by destruct r.
Qed.

Lemma mask_bit_Ret mask sig :
  0 <= sig < 32 -> mask_bit mask sig = Ret (Z.testbit mask sig).
Proof.
  intros Hs. unfold mask_bit, has_flag.
  destruct (Z.ltb_spec sig 0), (Z.leb_spec 32 sig); try lia. cbn [orb]. f_equal.
  rewrite Z.shiftl_1_l. destruct (Z.testbit mask sig) eqn:E.
  - apply nz_true. intros E0. assert (Z.testbit (Z.land mask (2 ^ sig)) sig = false) as E1
      by (by rewrite E0, Z.bits_0).
    rewrite Z.land_spec, E, Z.pow2_bits_true in E1 by lia. done.
  - apply nz_false. apply Z.bits_inj'. intros n Hn. rewrite Z.land_spec, Z.bits_0.
    destruct (decide (n = sig)) as [-> | Hne]; [by rewrite E |].
    by rewrite Z.pow2_bits_false, andb_false_r by lia.
Qed.

(** Where [task_signal] takes the frame of a task to be: at the end of the first page
    of the kernel stack. *)
Definition iret_of (t : task) : Z := t_kernel_stack t + PAGE_SIZE - SIZEOF_IRET.

Lemma task_signal_handler user_mapped k p t sig sa :
  ks_tasks k !! p = Some t -> 0 <= sig < 32 -> sig <> SIGKILL -> sig <> SIGSTOP ->
  Z.testbit (t_mask t) sig = false -> t_handlers t !! Z.to_nat sig = Some sa ->
  sa_handler sa <> SIG_DFL -> sa_handler sa <> SIG_IGN ->
  task_signal user_mapped k p sig = deliver user_mapped k p sig (sa_handler sa).
Proof.
  intros Hp Hs Hk Hst Hm Hsa Hd Hi. unfold task_signal, NSIG.
  destruct (Z.ltb_spec 32 sig); [lia |]. destruct (Z.eqb_spec sig SIGKILL); [done |].
  destruct (Z.eqb_spec sig SIGSTOP); [done |]. cbn [orb].
  rewrite (proj2 (load_task_Ret _ _ _) Hp), bind_Ret, mask_bit_Ret, Hm, bind_Ret by done.
  assert (aload (t_handlers t) sig = Ret sa) as -> by (apply aload_Ret; split; [lia | done]).
  rewrite bind_Ret. destruct (Z.eqb_spec (sa_handler sa) SIG_IGN); [done |].
  rewrite (proj2 (nz_true _) Hd). by destruct (Z.eqb_spec (sa_handler sa) SIG_DFL).
Qed.

(** What [task_signal] does to the words at [iret_of] and to the stack they point to:
    the word for the program counter is redirected to the trampoline, and the
    trampoline, started with the stack pointer left there, calls the handler with the
    signal number and restores all registers, the stack pointer and the program counter
    that were at that place.  The frame the processor uses is at the top of the kernel
    stack, not there (see [signal_misses_iret]). *)
Theorem signal_delivery_roundtrip user_mapped k p t sig sa esp eip :
  ks_tasks k !! p = Some t -> 0 <= sig < 32 -> sig <> SIGKILL -> sig <> SIGSTOP ->
  Z.testbit (t_mask t) sig = false -> t_handlers t !! Z.to_nat sig = Some sa ->
  sa_handler sa <> SIG_DFL -> sa_handler sa <> SIG_IGN ->
  load_word (ks_kmem k) (iret_of t) = eip -> load_word (ks_kmem k) (iret_of t + 12) = esp ->
  44 <= esp < 2 ^ 32 -> user_mapped p (esp - 44) = true ->
  exists k' t', task_signal user_mapped k p sig = Ret (0, k') /\ ks_tasks k' !! p = Some t' /\
    t_state t' = RUNNING /\ load_word (ks_kmem k') (iret_of t') = SIGJMP /\
    task_sigjmp_crt0 (t_umem t') (load_word (ks_kmem k') (iret_of t' + 12)) =
      (sa_handler sa, sig, eip, t_regs t, esp).
Proof.
  intros Hp Hs Hk Hst Hm Hsa Hd Hi Heip Hesp Hr Hmap.
  rewrite (task_signal_handler _ _ _ t _ sa) by done. unfold deliver.
  rewrite (proj2 (load_task_Ret _ _ _) Hp), bind_Ret. fold (iret_of t). rewrite Hesp.
  change (11 * 4) with 44. rewrite (u32_small (esp - 44)), Hmap by lia. cbn [negb].
  rewrite (upd_task_Ret _ _ t) by done. rewrite bind_Ret. do 2 eexists. split; [done |].
  cbn [ks_tasks ks_set_tasks ks_set_kmem ks_kmem]. rewrite lookup_insert_eq. split; [done |].
  split; [done |]. unfold iret_of. cbn [t_kernel_stack t_set_state t_set_umem t_umem]. fold (iret_of t).
  unfold load_word at 1 2. rewrite lookup_insert_eq. split; [done |].
  unfold load_word in Heip. rewrite lookup_insert_ne, Heip by lia.
  unfold load_word. rewrite lookup_insert_ne, lookup_insert_eq by lia. cbn [default].
  rewrite sigjmp_frame. unfold id. by replace (esp - 44 + 44) with esp by lia.
Qed.

(** A task that handles signal 2 at 0x8000, with its stack pointer at 0x7000. *)
Definition task_ex : task :=
  Task 5 0 0 0 0 0 0 RUNNING 0 (<[2%nat := Sigaction 0 0 0x8000]> (replicate 33 (Sigaction 0 0 0))) 0
    0 0 0 false 0 0 0 0 0x100000 (Regs 1 2 3 4 5 6 7) ∅.

Definition signal_ex : kstate :=
  Kstate (<[0x50 := task_ex]> ∅) ∅ 0 SCHEDULER_INITIALIZED 0
    (<[0x100000 + PAGE_SIZE - 20 := 0x4000]> (<[0x100000 + PAGE_SIZE - 8 := 0x7000]> ∅)) ∅ ∅ 0 [].

Lemma signal_delivery_roundtrip_witness :
  exists k' t', task_signal (fun _ _ => true) signal_ex 0x50 2 = Ret (0, k') /\
    ks_tasks k' !! 0x50 = Some t' /\ t_state t' = RUNNING /\
    load_word (ks_kmem k') (iret_of t') = SIGJMP /\
    task_sigjmp_crt0 (t_umem t') (load_word (ks_kmem k') (iret_of t' + 12)) =
      (0x8000, 2, 0x4000, Regs 1 2 3 4 5 6 7, 0x7000).
Proof.
  apply (signal_delivery_roundtrip (fun _ _ => true) signal_ex 0x50 task_ex 2 (Sigaction 0 0 0x8000)
           0x7000 0x4000); done || lia.
Defined.

(** The processor has pushed the frame it returns with at the top of the kernel
    stack, three pages above the one [task_signal] changes: the return address
    of the task stays as it was. *)
Lemma signal_misses_iret user_mapped k p t sig sa off :
  ks_tasks k !! p = Some t -> 0 <= sig < 32 -> sig <> SIGKILL -> sig <> SIGSTOP ->
  Z.testbit (t_mask t) sig = false -> t_handlers t !! Z.to_nat sig = Some sa ->
  sa_handler sa <> SIG_DFL -> sa_handler sa <> SIG_IGN ->
  (forall a, user_mapped p a = true) -> 0 <= off < SIZEOF_IRET ->
  exists k', task_signal user_mapped k p sig = Ret (0, k') /\
    load_word (ks_kmem k') (t_kernel_stack t + KERNEL_STACK_SIZE - SIZEOF_IRET + off) =
    load_word (ks_kmem k) (t_kernel_stack t + KERNEL_STACK_SIZE - SIZEOF_IRET + off).
Proof.
  intros Hp Hs Hk Hst Hm Hsa Hd Hi Hmap Hoff.
  rewrite (task_signal_handler _ _ _ t _ sa) by done. unfold deliver.
  rewrite (proj2 (load_task_Ret _ _ _) Hp), bind_Ret, Hmap. cbn [negb].
  rewrite (upd_task_Ret _ _ t) by done. rewrite bind_Ret. eexists. split; [done |].
  unfold KERNEL_STACK_SIZE, KERNEL_STACK_PAGES, PAGE_SIZE, SIZEOF_IRET, load_word in *.
  cbn [ks_kmem ks_set_kmem ks_set_tasks]. rewrite !lookup_insert_ne by lia. done.
Qed.

(** blocking works: after [task_sigprocmask(SIG_BLOCK, set)] a signal of
    the set has no effect on the task, whatever its handler, except SIGKILL,
    which terminates it, and SIGSTOP, which stops it. *)
Theorem blocked_signals user_mapped k p t set sig :
  ks_tasks k !! p = Some t -> 0 <= sig < 32 -> Z.testbit set sig = true ->
  exists k1, task_sigprocmask k p SIG_BLOCK (Some set) = Ret (0, t_mask t, k1) /\
    exists k2, task_signal user_mapped k1 p sig = Ret (0, k2) /\
      match ks_tasks k2 !! p with
      | Some t2 =>
        if sig =? SIGKILL then t_state t2 = TERMINATED
        else if sig =? SIGSTOP then t_state t2 = STOPPED
        else k2 = k1 /\ t_state t2 = t_state t
      | None => False
      end.
Proof.
  intros Hp Hs Hb. unfold task_sigprocmask.
  rewrite (proj2 (load_task_Ret _ _ _) Hp), bind_Ret. cbn [Z.eqb SIG_BLOCK SIG_SETMASK].
  rewrite (upd_task_Ret _ _ t) by done. rewrite bind_Ret.
  set (t1 := t_set_mask t (Z.lor (t_mask t) set)).
  exists (ks_set_tasks k (<[p := t1]> (ks_tasks k))). split; [done |].
  assert (ks_tasks (ks_set_tasks k (<[p := t1]> (ks_tasks k))) !! p = Some t1) as Hp1
    by apply lookup_insert_eq.
  unfold task_signal, NSIG. destruct (Z.ltb_spec 32 sig); [lia |].
  destruct (Z.eqb_spec sig SIGKILL) as [-> | Hk]; cbn [orb].
  { rewrite (upd_task_Ret _ _ t1), bind_Ret by done. eexists. split; [done |]. simpl.
    by rewrite lookup_insert_eq. }
  destruct (Z.eqb_spec sig SIGSTOP) as [-> | Hst].
  { rewrite (upd_task_Ret _ _ t1), bind_Ret by done. eexists. split; [done |]. simpl.
    by rewrite lookup_insert_eq. }
  rewrite (proj2 (load_task_Ret _ _ _) Hp1), bind_Ret, mask_bit_Ret by done.
  cbn [t_mask t1 t_set_mask]. rewrite Z.lor_spec, Hb, orb_true_r, bind_Ret.
  eexists. split; [done |]. by rewrite Hp1.
Qed.

Lemma blocked_signals_witness :
  exists k1, task_sigprocmask signal_ex 0x50 SIG_BLOCK (Some 4) = Ret (0, t_mask task_ex, k1) /\
    exists k2, task_signal (fun _ _ => true) k1 0x50 2 = Ret (0, k2) /\
      match ks_tasks k2 !! 0x50 with
      | Some t2 =>
        if 2 =? SIGKILL then t_state t2 = TERMINATED
        else if 2 =? SIGSTOP then t_state t2 = STOPPED
        else k2 = k1 /\ t_state t2 = t_state task_ex
      | None => False
      end.
Proof. apply (blocked_signals (fun _ _ => true) signal_ex 0x50 task_ex 4 2); done || lia. Defined.

(** [kill(pid, 32)] and negative signal numbers are accepted. *)
Lemma signal_out_of_range :
  task_signal (fun _ _ => true) signal_ex 0x50 32 = Fault /\
  task_signal (fun _ _ => true) signal_ex 0x50 (-1) = Fault.
Proof. done. Qed.
