(* ===== verification/Sched.v ===== *)
(** The scheduler: src/src/tasks/scheduler.c, src/src/tasks/wait.c, the end of
    a task in src/src/tasks/task.c and [task_signal_syscall] of
    src/src/tasks/signal.c.

    The run queue is a circular doubly linked list of entries; the variable
    [current_entry] points into it.  [ring] says that the entries form a ring;
    it reuses the segments of DList.v.  Loops that follow [next] run on fuel,
    the number of entries plus one; a loop of the code that never ends shows
    up as [Spin]. *)
From stdpp Require Import base numbers list gmap.
From Stdlib Require Import ZArith Lia Bool.
From S2P Require Import Prelude DList Task.

Open Scope Z_scope.

Implicit Types (k : kstate).

(** * The queue *)

Definition load_qe k (a : Z) : outcome (node qentry) := load_node (ks_qes k) a.

Definition scheduler_get_current k : outcome Z :=
  if ks_current k =? 0 then Ret 0 else n ← load_qe k (ks_current k); Ret (q_task (nd_data n)).

(** Puts a new entry behind the current one. *)
Definition queue_add k (entry : Z) (d : qentry) : outcome kstate :=
  if entry =? 0 then Fault else
  if ks_current k =? 0 then
    Ret (ks_set_qes k (<[entry := Node entry entry d]> (ks_qes k)) entry)
  else
    c ← load_qe k (ks_current k);
    let h := <[entry := Node 0 (nd_next c) d]> (ks_qes k) in   (* entry->next = current->next *)
    h ← set_prev h (nd_next c) entry;                            (* entry->next->prev = entry *)
    h ← set_prev h entry (ks_current k);                         (* entry->prev = current *)
    h ← set_next h (ks_current k) entry;                         (* current->next = entry *)
    Ret (ks_set_qes k h (ks_current k)).

(** [entry] is the address [kmalloc] gives. *)
Definition scheduler_add k (entry p : Z) : outcome kstate :=
  k ← upd_task k p (fun t => t_set_qentry t entry);
  k ← queue_add k entry (Qentry p 0);
  t ← load_task k p;
  if nz (t_ctty t) then Ret (ks_set_fg k (<[t_ctty t := p]> (ks_fg k))) else Ret k.

Definition scheduler_add_worker k (entry worker : Z) : outcome kstate :=
  queue_add k entry (Qentry 0 worker).

(** The states [scheduler_find] does not find. *)
Definition hidden (s : task_state) : bool :=
  bool_decide (s = REPLACED) || bool_decide (s = TERMINATED) || bool_decide (s = REAPED).

Fixpoint sched_find_loop (fuel : nat) k (pid start entry : Z) : outcome Z :=
  match fuel with
  | O => Spin
  | S fuel =>
    n ← load_qe k entry;
    if nd_next n =? start then Ret 0 else
    let t := q_task (nd_data n) in
    if t =? 0 then sched_find_loop fuel k pid start (nd_next n) else
    x ← load_task k t;
    if (t_pid x =? pid) && negb (hidden (t_state x)) then Ret t
    else if nd_next n =? entry then Ret 0
    else sched_find_loop fuel k pid start (nd_next n)
  end.

Definition scheduler_find k (pid : Z) : outcome Z :=
  sched_find_loop (S (size (ks_qes k))) k pid (ks_current k) (ks_current k).

Definition task_signal_syscall (user_mapped : Z -> Z -> bool) k (source target_pid sig : Z)
    : outcome (Z * kstate) :=
  target ← scheduler_find k (u32 target_pid);
  if target =? 0 then kfail k ESRCH else
  t ← load_task k target;
  s ← load_task k source;
  if negb (t_euid t =? t_euid s) then kfail k EPERM
  else if sig =? 0 then Ret (0, k)
  else task_signal user_mapped k target sig.

(** * Waiting *)

(** [*stat_loc] is the status word of the parent. *)
Definition wait_finish k (p child : Z) : outcome kstate :=
  t ← load_task k p;
  c ← load_task k child;
  if nz (t_wait_for t) && negb (t_wait_for t =? t_pid c) then Ret k else
  k ← upd_task k p (fun t =>
        let t := t_set_wait t (t_wait_for t) (t_pid c) (t_stat_loc t) in
        if nz (t_stat_loc t) then t_set_umem t (<[t_stat_loc t := t_exit_code c]> (t_umem t)) else t);
  k ← upd_task k child (fun c => t_set_state c REAPED);
  upd_task k p (fun t => t_set_state t RUNNING).

(** [for(e = first; e->next != first; e = e->next)] over the entries. *)
Fixpoint has_child_loop (fuel : nat) k (p first e : Z) : outcome bool :=
  match fuel with
  | O => Spin
  | S fuel =>
    n ← load_qe k e;
    if nd_next n =? first then Ret false else
    if q_task (nd_data n) =? 0 then has_child_loop fuel k p first (nd_next n) else
    i ← load_task k (q_task (nd_data n));
    if (t_parent i =? p) && negb (bool_decide (t_state i = REPLACED)) &&
       negb (bool_decide (t_state i = REAPED))
    then Ret true else has_child_loop fuel k p first (nd_next n)
  end.

(** The first part of [task_waitpid], up to the loop that waits: an error, or
    the state in which the task waits. *)
Definition waitpid_begin k (p child_pid stat_loc : Z) : outcome (bool * kstate) :=
  '(ok, wait_for) ←
    (if 0 <? child_pid then
       target ← scheduler_find k child_pid;
       if target =? 0 then Ret (false, 0) else
       x ← load_task k target;
       Ret (t_parent x =? p, child_pid)
     else
       t ← load_task k p;
       q ← load_qe k (t_qentry t);
       have ← has_child_loop (S (size (ks_qes k))) k p (nd_next q) (nd_next q);
       Ret (have, 0));
  if negb ok then Ret (false, ks_set_errno k ECHILD) else
  k ← upd_task k p (fun t => t_set_yield (t_set_state (t_set_wait t wait_for 0 stat_loc) WAITING) true);
  Ret (true, k).

(** [while(task->task_state == TASK_STATE_WAITING) scheduler_yield();], with
    what the other tasks do during the [i]-th yield. *)
Fixpoint waitpid_loop (patience i : nat) (env : nat -> kstate -> kstate) k (p : Z)
    : outcome (Z * kstate) :=
  t ← load_task k p;
  if negb (bool_decide (t_state t = WAITING)) then Ret (t_wait_res_pid t, k) else
  match patience with
  | O => Spin
  | S patience => waitpid_loop patience (S i) env (env i k) p
  end.

Definition task_waitpid (patience : nat) (env : nat -> kstate -> kstate) k (p child_pid stat_loc : Z)
    : outcome (Z * kstate) :=
  '(ok, k) ← waitpid_begin k p child_pid stat_loc;
  if (ok : bool) then waitpid_loop patience 0 env k p else Ret (-1, k).

(** [timer_get_rate()] is CONFIG_PIT_RATE. *)
Definition PIT_RATE : Z := 1000.

(** [task_sleep] up to its [scheduler_yield]. *)
Definition task_sleep k (p tv_sec tv_usec : Z) : outcome (Z * kstate) :=
  let duration := u32 (tv_sec * PIT_RATE) in
  let duration := if nz tv_usec then u32 (duration + tv_usec / (1000 / PIT_RATE * 1000)) else duration in
  k ← upd_task k p (fun t => t_set_state (t_set_sleep t (u32 (ks_tick k + duration))) SLEEPING);
  Ret (0, k).

(** * The end of a task *)

Section Eol.
Context (user_mapped : Z -> Z -> bool).

Fixpoint reparent_loop (fuel : nat) k (p init first e : Z) : outcome kstate :=
  match fuel with
  | O => Spin
  | S fuel =>
    n ← load_qe k e;
    if nd_next n =? first then Ret k else
    k ← (if nz (q_task (nd_data n)) then
           x ← load_task k (q_task (nd_data n));
           if t_parent x =? p then upd_task k (q_task (nd_data n)) (fun x => t_set_parent x init)
           else Ret k
         else Ret k);
    reparent_loop fuel k p init first (nd_next n)
  end.

Definition task_userland_eol k (p : Z) : outcome kstate :=
  k ← upd_task k p (fun t => t_set_state t ZOMBIE);
  init ← scheduler_find k 1;
  t ← load_task k p;
  q ← load_qe k (t_qentry t);
  k ← reparent_loop (S (size (ks_qes k))) k p init (nd_next q) (nd_next q);
  t ← load_task k p;
  k ← (if nz (t_parent t) then
         par ← load_task k (t_parent t);
         k ← (if bool_decide (t_state par = WAITING) then wait_finish k (t_parent t) p else Ret k);
         '(_, k) ← task_signal user_mapped k (t_parent t) SIGCHLD;
         Ret k
       else Ret k);
  let k := if nz (t_ctty t) && bool_decide (ks_fg k !! t_ctty t = Some p)
           then ks_set_fg k (<[t_ctty t := t_parent t]> (ks_fg k)) else k in
  if nz (t_strace_observer t) && nz (t_strace_fd t)
  then Ret (ks_add_event k (EvClose (t_strace_observer t) (t_strace_fd t)))
  else Ret k.

(** The task and what belongs to it are freed. *)
Definition task_cleanup k (p : Z) : kstate :=
  ks_add_event (ks_set_tasks k (delete p (ks_tasks k))) (EvFree p).

(** The entry itself stays allocated. *)
Definition unlink k (entry : Z) : outcome kstate :=
  n ← load_qe k entry;
  if (nd_next n =? entry) || (nd_prev n =? entry) then Panic else
  h ← set_prev (ks_qes k) (nd_next n) (nd_prev n);
  h ← set_next h (nd_prev n) (nd_next n);
  let k := ks_set_qes k h (ks_current k) in
  if nz (q_task (nd_data n)) then Ret (task_cleanup k (q_task (nd_data n))) else Ret k.

(** * Choosing the next task *)

Fixpoint find_runnable_loop (fuel : nat) k (qe orig : Z) (initial : bool) : outcome (Z * kstate) :=
  match fuel with
  | O => Spin
  | S fuel =>
    if qe =? 0 then Panic else
    if (qe =? orig) && negb initial then Ret (0, k) else
    n ← load_qe k qe;
    let skip k := (n ← load_qe k qe; find_runnable_loop fuel k (nd_next n) orig false) in
    if nz (q_worker (nd_data n)) then
      stopped ← match ks_workers k !! q_worker (nd_data n) with Some b => Ret b | None => Fault end;
      if (stopped : bool) then k ← unlink k qe; skip k else Ret (qe, k)
    else if nz (q_task (nd_data n)) then
      t ← load_task k (q_task (nd_data n));
      match t_state t with
      | TERMINATED => k ← task_userland_eol k (q_task (nd_data n)); skip k
      | REAPED | REPLACED => k ← unlink k qe; skip k
      | STOPPED | WAITING | ZOMBIE => skip k
      | SLEEPING => if ks_tick k <? t_sleep_until t then skip k else Ret (qe, k)
      | RUNNING | SYSCALL => Ret (qe, k)
      end
    else Ret (qe, k)
  end.

Definition find_runnable_qentry (fuel : nat) k (start : Z) : outcome (Z * kstate) :=
  n ← load_qe k start;
  find_runnable_loop fuel k (nd_next n) (nd_next n) true.

(** [idle] is the address of [idle_qentry]; the result is the entry whose
    state is loaded, 0 for none. *)
Definition scheduler_select (fuel : nat) k (idle : Z) : outcome (Z * kstate) :=
  match ks_sched k with
  | SCHEDULER_OFF => Ret (0, k)
  | _ =>
    k ←
      (match ks_sched k with
       | SCHEDULER_INITIALIZING => Ret (ks_set_sched k SCHEDULER_INITIALIZED)
       | _ =>
         '(qe, k) ← find_runnable_qentry fuel k (ks_current k);
         if nz qe then Ret (ks_set_qes k (ks_qes k) qe) else
         c ← load_qe k (ks_current k);
         i ← load_qe k idle;
         Ret (ks_set_qes k (<[idle := Node (ks_current k) (nd_next c) (nd_data i)]> (ks_qes k)) idle)
       end);
    n ← load_qe k (ks_current k);
    if nz (q_task (nd_data n)) then
      k ← upd_task k (q_task (nd_data n)) (fun t => t_set_state t RUNNING);
      Ret (ks_current k, k)
    else if nz (q_worker (nd_data n)) then Ret (ks_current k, k)
    else Ret (0, k)
  end.

End Eol.
