(* ===== verification/SchedSpec.v ===== *)
(** Properties of the scheduler of Sched.v: the queue is a ring, tasks get
    their turn, and waiting for a child ends when the child does. *)
From stdpp Require Import base numbers list gmap.
From Stdlib Require Import ZArith Lia Bool.
From S2P Require Import Prelude DList Task Sched.

Open Scope Z_scope.

Implicit Types (k : kstate) (h : dheap qentry) (l r : list (Z * qentry)).

(** * The ring *)

(** From [c] on, the entries of [l] follow each other and lead back to [c]. *)
Definition ring h (c : Z) l : Prop :=
  NoDup l.*1 /\ l <> [] /\ exists last, lseg h last c l last c.

Lemma ring_head h c l : ring h c l -> exists d l', l = (c, d) :: l' /\ c <> 0.
Proof.
  intros (_ & Hne & last & Hl). destruct l as [| [a d] l]; [done |].
  destruct Hl as (-> & Ha & _). eauto.
Qed.

(** The same ring, from the next entry on. *)
Lemma ring_rotate h c d l nd :
  ring h c ((c, d) :: l) -> h !! c = Some nd -> ring h (nd_next nd) (l ++ [(c, d)]).
Proof.
  intros (Hnd & _ & last & _ & Hc & nx & Hnx & Hl) Hlk. rewrite Hnx in Hlk. injection Hlk as <-.
  cbn [nd_next]. split; [| split; [by destruct l |]].
  - rewrite fmap_app. apply NoDup_cons in Hnd as [Hn Hnd]. apply NoDup_app. split; [done |].
    split; [| apply NoDup_singleton]. intros x Hx ->%list_elem_of_singleton. done.
  - exists c. apply lseg_app. exists last, c. split; [done |]. simpl. split; [done |]. split; [done |].
    by exists nx.
Qed.

Lemma ring_next h c d l : ring h c ((c, d) :: l) ->
  exists n, h !! c = Some n /\ nd_data n = d /\
    nd_next n = match l with [] => c | (a, _) :: _ => a end.
Proof.
  intros (_ & _ & last & _ & Hc & nx & Hnx & Hl). eexists. split; [done |]. split; [done |].
  simpl. destruct l as [| [a e] l]; [by destruct Hl | by destruct Hl as [-> _]].
Qed.

Lemma ring_length h c l : ring h c l -> (length l <= size h)%nat.
Proof.
  intros (Hnd & _ & last & Hl). rewrite <- (length_fmap fst l), <- size_dom.
  rewrite <- (size_list_to_set (C := gset Z) l.*1) by done.
  apply subseteq_size. intros a Ha%elem_of_list_to_set. apply elem_of_dom.
  apply list_elem_of_fmap in Ha as [[a' d'] [-> [l1 [l2 ->]]%list_elem_of_split]].
  apply lseg_app in Hl as (m & n & _ & -> & _ & nx & Hnx & _). eauto.
Qed.

(** A new entry stands right behind the current one. *)
Lemma queue_add_ring k c d0 l entry d :
  ks_current k = c -> ring (ks_qes k) c ((c, d0) :: l) -> entry <> 0 -> ks_qes k !! entry = None ->
  exists h', queue_add k entry d = Ret (ks_set_qes k h' c) /\
    ring h' c ((c, d0) :: (entry, d) :: l).
Proof.
  intros Hcur (Hnd & _ & last & _ & Hc & nx & Hnx & Hl) He Hfree. unfold queue_add. rewrite Hcur.
  destruct (Z.eqb_spec entry 0); [done |]. destruct (Z.eqb_spec c 0); [done |].
  unfold load_qe, load_node, set_prev, set_next, load_node. rewrite Hnx, bind_Ret. cbn [nd_next].
  assert (c <> entry) as Hne by (intros ->; congruence). rewrite fmap_cons in Hnd. apply NoDup_cons in Hnd as [Hcn Hnd].
  cbn [fst] in Hcn. assert (entry ∉ l.*1) as Hen.
  { intros [[a' d'] [-> [l1 [l2 ->]]%list_elem_of_split]]%list_elem_of_fmap.
    apply lseg_app in Hl as (m & n' & _ & -> & _ & y & Hy & _). simpl in *. congruence. }
  assert (NoDup ((c, d0) :: (entry, d) :: l).*1) as Hnd'.
  { simpl. constructor; [| by constructor]. intros [-> | Hx]%elem_of_cons; done. }
  destruct l as [| x l].
  - destruct Hl as [-> <-]. rewrite lookup_insert_ne, Hnx, bind_Ret by done. cbn.
    rewrite lookup_insert_ne, lookup_insert_eq, bind_Ret by done. cbn.
    rewrite lookup_insert_ne, lookup_insert_eq by done. cbn. eexists. split; [done |].
    split; [done |]. split; [done |]. exists entry. simpl.
    split; [done |]. split; [done |]. exists entry. rewrite lookup_insert_eq. split; [done |].
    split; [done |]. split; [done |]. exists c.
    rewrite lookup_insert_ne, lookup_insert_eq by done. done.
  - destruct (lseg_head _ _ _ _ _ _ Hl) as [Hx Hin]; [done |].
    assert (nx <> c) as Hxc by (intros ->; done). assert (nx <> entry) as Hxe by (intros ->; done).
    destruct (lseg_set_prev _ _ _ _ _ _ entry Hnd ltac:(done) Hl) as (n1 & Hn1 & Hpr & Hl1).
    rewrite lookup_insert_ne, Hn1, bind_Ret by done. cbn.
    rewrite lookup_insert_ne, lookup_insert_eq by done. cbn.
    rewrite !lookup_insert_ne, Hnx by done. cbn. eexists. split; [done |].
    split; [done |]. split; [done |]. exists last. split; [done |]. split; [done |]. exists entry.
    rewrite lookup_insert_eq. split; [done |]. split; [done |]. split; [done |]. exists nx.
    rewrite lookup_insert_ne, lookup_insert_eq by done. split; [done |].
    apply lseg_insert; [done |]. apply lseg_insert; [done |].
    rewrite insert_insert_ne by done. by apply lseg_insert.
Qed.

(** * Whose turn it is *)

(** Entries the scheduler neither cleans up nor removes. *)
Definition quiet k (d : qentry) : Prop :=
  if nz (q_worker d) then q_task d = 0 /\ ks_workers k !! q_worker d = Some false
  else q_task d <> 0 /\ exists t, ks_tasks k !! q_task d = Some t /\
    t_state t <> TERMINATED /\ t_state t <> REAPED /\ t_state t <> REPLACED.

(** Entries that can run. *)
Definition runnable k (d : qentry) : bool :=
  if nz (q_worker d) then true
  else if nz (q_task d) then
    match ks_tasks k !! q_task d with
    | Some t =>
      match t_state t with
      | RUNNING | SYSCALL => true
      | SLEEPING => t_sleep_until t <=? ks_tick k
      | _ => false
      end
    | None => false
    end
  else true.

(** The address of the first entry that can run, 0 for none. *)
Fixpoint first_runnable k r : Z :=
  match r with
  | [] => 0
  | (a, d) :: r => if runnable k d then a else first_runnable k r
  end.

(** One step of the search on a quiet entry. *)
Lemma find_step user_mapped fuel k qe orig initial n :
  qe <> 0 -> (initial = false -> qe <> orig) -> ks_qes k !! qe = Some n -> quiet k (nd_data n) ->
  find_runnable_loop user_mapped (S fuel) k qe orig initial =
    (if runnable k (nd_data n) then Ret (qe, k)
     else find_runnable_loop user_mapped fuel k (nd_next n) orig false).
Proof.
  intros Hq Hi Hn Hqu. cbn [find_runnable_loop]. destruct (Z.eqb_spec qe 0); [done |].
  assert ((qe =? orig) && negb initial = false) as ->.
  { destruct initial; [apply andb_false_r |]. destruct (Z.eqb_spec qe orig); [by specialize (Hi eq_refl) | done]. }
  unfold load_qe, load_node, runnable, quiet in *. rewrite !Hn, !bind_Ret. destruct (nz (q_worker (nd_data n))).
  { destruct Hqu as [_ ->]. done. }
  destruct Hqu as (Hq0 & t & Ht & H1 & H2 & H3). rewrite (proj2 (nz_true _) Hq0).
  rewrite (proj2 (load_task_Ret _ _ _) Ht), Ht, bind_Ret.
  destruct (t_state t); try done. rewrite Z.leb_antisym. by destruct (ks_tick k <? t_sleep_until t).
Qed.

Lemma find_loop_quiet user_mapped k r pr qe pr' orig initial fuel :
  lseg (ks_qes k) pr qe r pr' orig -> orig <> 0 -> Forall (fun e => quiet k e.2) r ->
  NoDup r.*1 -> (initial = false -> orig ∉ r.*1) -> (initial = true -> exists d r', r = (orig, d) :: r') ->
  (length r < fuel)%nat ->
  find_runnable_loop user_mapped fuel k qe orig initial = Ret (first_runnable k r, k).
Proof.
  revert pr qe initial fuel. induction r as [| [a d] r IH]; intros pr qe initial fuel Hl Ho Hqu Hnd Hf Ht Hlen;
    (destruct fuel as [| fuel]; [simpl in Hlen; lia |]).
  - destruct Hl as [-> _]. destruct initial; [by destruct (Ht eq_refl) as (? & ? & ?) |].
    cbn [find_runnable_loop]. destruct (Z.eqb_spec orig 0); [done |]. by rewrite Z.eqb_refl.
  - destruct Hl as (-> & Ha & nx & Hnx & Hl). apply Forall_cons in Hqu as [Hq Hqu].
    apply NoDup_cons in Hnd as [Hna Hnd].
    erewrite find_step; [| done | | exact Hnx | exact Hq].
    2: { intros ->. specialize (Hf eq_refl). simpl in Hf. set_solver. }
    cbn [nd_data nd_next first_runnable snd]. destruct (runnable k d); [done |].
    apply (IH a); try done; [| simpl in Hlen; lia]. intros _. destruct initial.
    + destruct (Ht eq_refl) as (d' & r' & [= -> -> ->]). done.
    + specialize (Hf eq_refl). simpl in Hf. set_solver.
Qed.

(** The search gives the first entry behind the current one that can run. *)
Lemma find_runnable_quiet user_mapped k c d l fuel :
  ring (ks_qes k) c ((c, d) :: l) -> Forall (fun e => quiet k e.2) ((c, d) :: l) ->
  (S (length l) < fuel)%nat ->
  find_runnable_qentry user_mapped fuel k c = Ret (first_runnable k (l ++ [(c, d)]), k).
Proof.
  intros Hr Hqu Hlen. destruct (ring_next _ _ _ _ Hr) as (n & Hn & _).
  pose proof (ring_rotate _ _ _ _ _ Hr Hn) as Hr'. destruct (ring_head _ _ _ Hr') as (d' & l' & Heq & Hne).
  unfold find_runnable_qentry, load_qe, load_node. rewrite Hn, bind_Ret.
  destruct Hr' as (Hnd & _ & last & Hl). eapply find_loop_quiet; [exact Hl | done | | done | done | by eauto |].
  - apply Forall_cons in Hqu as [H1 H2]. apply Forall_app_2; [done | by constructor].
  - rewrite length_app. simpl. lia.
Qed.

(** * Fairness *)

Lemma ring_rotate_to h c x a d y : ring h c (x ++ (a, d) :: y) -> ring h a ((a, d) :: y ++ x).
Proof.
  intros (Hnd & _ & last & Hl). apply lseg_app in Hl as (m & n & Hx & Hay). pose proof Hay as (-> & _).
  split; [| split; [done |]].
  - rewrite (fmap_app fst) in Hnd. change ((a, d) :: y ++ x) with (((a, d) :: y) ++ x).
    rewrite fmap_app. by rewrite Permutation_app_comm.
  - exists m. change ((a, d) :: y ++ x) with (((a, d) :: y) ++ x). apply lseg_app. by exists last, c.
Qed.

Lemma ring_elem h c x a d y : ring h c (x ++ (a, d) :: y) ->
  a <> 0 /\ exists n, h !! a = Some n /\ nd_data n = d.
Proof.
  intros Hr%ring_rotate_to. destruct (ring_next _ _ _ _ Hr) as (n & Hn & Hd & _).
  split; [by apply ring_head in Hr as (? & ? & ? & ?) | eauto].
Qed.

Lemma first_runnable_split k r :
  (exists r1 a d r2, r = r1 ++ (a, d) :: r2 /\ runnable k d = true /\ first_runnable k r = a /\
     Forall (fun e => runnable k e.2 = false) r1) \/
  Forall (fun e => runnable k e.2 = false) r /\ first_runnable k r = 0.
Proof.
  induction r as [| [a d] r IH]; [by right |]. cbn [first_runnable]. destruct (runnable k d) eqn:Hd.
  - left. exists [], a, d, r. done.
  - destruct IH as [(r1 & b & e & r2 & -> & He & Hf & Hno) | [Hno Hf]].
    + left. exists ((a, d) :: r1), b, e, r2. split; [done |]. split; [done |]. split; [done |]. by constructor.
    + right. split; [by constructor | done].
Qed.

(** Two states in which the same entries can run and need no cleaning. *)
Definition same_turns k k' : Prop :=
  ks_qes k' = ks_qes k /\ ks_sched k' = ks_sched k /\
  (forall d, runnable k' d = runnable k d) /\ (forall d, quiet k d -> quiet k' d).

Lemma same_turns_run k p t :
  ks_tasks k !! p = Some t -> p <> 0 -> runnable k (Qentry p 0) = true ->
  same_turns k (ks_set_tasks k (<[p := t_set_state t RUNNING]> (ks_tasks k))).
Proof.
  intros Hp Hp0 Hr. unfold runnable in Hr. cbn [q_worker q_task nz Z.eqb negb] in Hr.
  rewrite (proj2 (nz_true p) Hp0), Hp in Hr. split; [done |]. split; [done |].
  split; intros d; unfold runnable, quiet; cbn [ks_tasks ks_set_tasks ks_workers ks_tick].
  - destruct (nz (q_worker d)); [done |]. destruct (nz (q_task d)); [| done].
    destruct (decide (q_task d = p)) as [-> | Hne].
    + rewrite lookup_insert_eq, Hp. cbn [t_state t_set_state]. symmetry. exact Hr.
    + by rewrite lookup_insert_ne.
  - destruct (nz (q_worker d)); [done |]. intros (Hq0 & t' & Ht' & H1 & H2 & H3). split; [done |].
    destruct (decide (q_task d = p)) as [-> | Hne].
    + rewrite lookup_insert_eq. by eexists.
    + rewrite lookup_insert_ne by done. by exists t'.
Qed.

(** Selecting in a quiet ring in which something can run. *)
Lemma select_quiet user_mapped fuel k idle c dc l x a d y :
  ks_sched k = SCHEDULER_INITIALIZED -> ks_current k = c ->
  ring (ks_qes k) c ((c, dc) :: l) -> Forall (fun e => quiet k e.2) ((c, dc) :: l) ->
  (S (length l) < fuel)%nat -> l ++ [(c, dc)] = x ++ (a, d) :: y ->
  runnable k d = true -> first_runnable k (l ++ [(c, dc)]) = a ->
  exists k', scheduler_select user_mapped fuel k idle = Ret (a, k') /\ ks_current k' = a /\ same_turns k k'.
Proof.
  intros Hs Hc Hr Hq Hlen Heq Hd Hf. unfold scheduler_select. rewrite Hs, Hc.
  rewrite (find_runnable_quiet _ _ _ dc l) by done. rewrite Hf, bind_Ret.
  destruct (ring_next _ _ _ _ Hr) as (nc & Hnc & _).
  pose proof (ring_rotate _ _ _ _ _ Hr Hnc) as Hr'. rewrite Heq in Hr'.
  destruct (ring_elem _ _ _ _ _ _ Hr') as (Ha & n & Hn & Hnd). rewrite (proj2 (nz_true a) Ha), bind_Ret.
  set (k1 := ks_set_qes k (ks_qes k) a). unfold load_qe, load_node. cbn [ks_current k1 ks_set_qes ks_qes].
  rewrite Hn, bind_Ret, Hnd.
  assert (quiet k d) as Hqd.
  { assert (Forall (fun e => quiet k e.2) (l ++ [(c, dc)])) as Hq'
      by (apply Forall_cons in Hq as [? ?]; apply Forall_app_2; [done | by constructor]).
    rewrite Heq in Hq'. by apply Forall_app in Hq' as [_ [? _]%Forall_cons]. }
  assert (same_turns k k1) as Hst by done.
  destruct (nz (q_task d)) eqn:Ht.
  - apply nz_true in Ht. unfold quiet in Hqd. destruct (nz (q_worker d)) eqn:Hw; [by destruct Hqd |].
    destruct Hqd as (_ & t & Hlk & _). rewrite (upd_task_Ret _ _ t), bind_Ret by done.
    eexists. split; [done |]. split; [done |].
    assert (runnable k (Qentry (q_task d) 0) = true) as Hrun.
    { unfold runnable in *. rewrite Hw in Hd. cbn [q_worker q_task nz Z.eqb negb]. exact Hd. }
    destruct (same_turns_run k (q_task d) t) as (H1 & H2 & H3 & H4); done.
  - destruct (nz (q_worker d)) eqn:Hw; [eexists; done |]. apply nz_false in Ht.
    unfold quiet in Hqd. rewrite Hw in Hqd. by destruct Hqd.
Qed.

(** [n] turns of the scheduler. *)
Fixpoint select_n (user_mapped : Z -> Z -> bool) (fuel n : nat) k (idle : Z) : outcome kstate :=
  match n with
  | O => Ret k
  | S n => '(_, k) ← scheduler_select user_mapped fuel k idle; select_n user_mapped fuel n k idle
  end.

Lemma same_turns_quiet k k' l :
  same_turns k k' -> Forall (fun e => quiet k e.2) l -> Forall (fun e => quiet k' e.2) l.
Proof. intros (_ & _ & _ & Hq) Hl. eapply Forall_impl; [exact Hl |]. auto. Qed.

Lemma first_runnable_app k r a d y :
  Forall (fun e => runnable k e.2 = false) r -> runnable k d = true ->
  first_runnable k (r ++ (a, d) :: y) = a.
Proof.
  intros Hno Hd. induction Hno as [| [b db] r Hb Hno IH]; cbn [app first_runnable]; [by rewrite Hd |].
  cbn [snd] in Hb. by rewrite Hb.
Qed.

(** One turn of the scheduler, when [a] is the first that can run. *)
Lemma fair_step user_mapped fuel idle k c dc r1 a da y :
  ks_sched k = SCHEDULER_INITIALIZED -> ks_current k = c ->
  ring (ks_qes k) c ((c, dc) :: r1 ++ (a, da) :: y) ->
  Forall (fun x => quiet k x.2) ((c, dc) :: r1 ++ (a, da) :: y) ->
  (length r1 + length y + 2 < fuel)%nat -> Forall (fun e => runnable k e.2 = false) r1 ->
  runnable k da = true ->
  exists k1, scheduler_select user_mapped fuel k idle = Ret (a, k1) /\ ks_current k1 = a /\
    same_turns k k1 /\ ring (ks_qes k1) a ((a, da) :: y ++ (c, dc) :: r1) /\
    Forall (fun x => quiet k1 x.2) ((a, da) :: y ++ (c, dc) :: r1).
Proof.
  intros Hs Hc Hr Hq Hfuel Hno Ha.
  destruct (select_quiet user_mapped fuel k idle c dc (r1 ++ (a, da) :: y) r1 a da (y ++ [(c, dc)]))
    as (k1 & Hsel & Hc1 & Hst); try done.
  { rewrite length_app. simpl. lia. }
  { by rewrite <- app_assoc. }
  { rewrite <- app_assoc. by apply first_runnable_app. }
  exists k1. split; [done |]. split; [done |]. split; [done |]. split.
  - rewrite (proj1 Hst). by apply (ring_rotate_to _ c ((c, dc) :: r1)).
  - apply (same_turns_quiet k); [done |]. rewrite Forall_cons, Forall_app, Forall_cons in Hq.
    rewrite Forall_cons, Forall_app, Forall_cons. tauto.
Qed.

Lemma fair_aux user_mapped fuel idle m k c dc l1 e d l2 :
  (length l1 < m)%nat ->
  ks_sched k = SCHEDULER_INITIALIZED -> ks_current k = c ->
  ring (ks_qes k) c ((c, dc) :: l1 ++ (e, d) :: l2) ->
  Forall (fun x => quiet k x.2) ((c, dc) :: l1 ++ (e, d) :: l2) ->
  (length l1 + length l2 + 2 < fuel)%nat -> runnable k d = true ->
  exists n k', (1 <= n <= S (length l1))%nat /\ select_n user_mapped fuel n k idle = Ret k' /\
    ks_current k' = e.
Proof.
  revert k c dc l1 l2. induction m as [| m IH]; intros k c dc l1 l2 Hm Hs Hc Hr Hq Hfuel Hd; [lia |].
  destruct (first_runnable_split k l1) as [(r1 & a & da & r2 & -> & Ha & Hf & Hno) | [Hno Hf]].
  - rewrite length_app in Hm, Hfuel |- *. simpl in Hm, Hfuel |- *.
    rewrite <- app_assoc, <- app_comm_cons in Hr, Hq.
    destruct (fair_step user_mapped fuel idle k c dc r1 a da (r2 ++ (e, d) :: l2))
      as (k1 & Hsel & Hc1 & (_ & Hsch & Hrun & _) & Hr1 & Hq1); try done.
    { rewrite length_app. simpl. lia. }
    rewrite <- app_assoc, <- app_comm_cons in Hr1, Hq1.
    destruct (IH k1 a da r2 (l2 ++ (c, dc) :: r1)) as (n & k' & Hn & Hrn & Hcur); try done.
    { lia. } { congruence. } { rewrite length_app. simpl. lia. } { by rewrite Hrun. }
    exists (S n), k'. split; [lia |]. split; [| done]. cbn [select_n]. by rewrite Hsel, bind_Ret.
  - destruct (fair_step user_mapped fuel idle k c dc l1 e d l2) as (k1 & Hsel & Hc1 & _); try done.
    exists 1%nat, k1. split; [lia |]. cbn [select_n]. by rewrite Hsel, bind_Ret.
Qed.

(** C5: the scheduler is fair: in a ring without entries to clean up, an entry
    that can run gets its turn after at most as many selections as there are
    entries between the current one and it, plus one. *)
Theorem scheduler_fair user_mapped fuel idle k c dc l1 e d l2 :
  ks_sched k = SCHEDULER_INITIALIZED -> ks_current k = c ->
  ring (ks_qes k) c ((c, dc) :: l1 ++ (e, d) :: l2) ->
  Forall (fun x => quiet k x.2) ((c, dc) :: l1 ++ (e, d) :: l2) ->
  (length l1 + length l2 + 2 < fuel)%nat -> runnable k d = true ->
  exists n k', (1 <= n <= S (length l1))%nat /\ select_n user_mapped fuel n k idle = Ret k' /\
    ks_current k' = e.
Proof. intros. apply (fair_aux user_mapped fuel idle (S (length l1)) k c dc l1 e d l2); done || lia. Qed.

(** * The end of a task *)

(** Every task in the queue exists. *)
Definition queue_ok k l : Prop :=
  Forall (fun e => q_task e.2 = 0 \/ is_Some (ks_tasks k !! q_task e.2)) l.

(** [scheduler_find] always ends. *)
Lemma find_loop_total k pid start r pr e pr' fuel :
  lseg (ks_qes k) pr e r pr' start -> r <> [] -> queue_ok k r -> (length r <= fuel)%nat ->
  exists x, sched_find_loop fuel k pid start e = Ret x.
Proof.
  revert pr e fuel. induction r as [| [a d] r IH]; intros pr e fuel Hl Hne Hq Hf; [done |].
  destruct fuel as [| fuel]; [simpl in Hf; lia |]. destruct Hl as (-> & Ha & nx & Hnx & Hl).
  apply Forall_cons in Hq as [Hd Hq]. cbn [snd] in Hd. cbn [sched_find_loop]. unfold load_qe, load_node.
  rewrite Hnx, bind_Ret. cbn [nd_next nd_data].
  destruct (Z.eqb_spec nx start) as [| Hns]; [eauto |].
  assert (r <> []) as Hr by (intros ->; by destruct Hl).
  assert (exists x, sched_find_loop fuel k pid start nx = Ret x) as Hrest
    by (apply (IH a); [done | done | done | simpl in Hf; lia]).
  destruct (Z.eqb_spec (q_task d) 0) as [| Hn0]; [done |]. destruct Hd as [? | [t Ht]]; [done |].
  rewrite (proj2 (load_task_Ret _ _ _) Ht), bind_Ret.
  destruct ((t_pid t =? pid) && negb (hidden (t_state t))); [eauto |].
  destruct (nx =? a); [eauto | done].
Qed.

Lemma scheduler_find_total k c l pid :
  ks_current k = c -> ring (ks_qes k) c l -> queue_ok k l -> exists x, scheduler_find k pid = Ret x.
Proof.
  intros Hc Hr Hq. pose proof (ring_length _ _ _ Hr). destruct Hr as (_ & Hne & last & Hl).
  unfold scheduler_find. rewrite Hc. eapply find_loop_total; [done | done | done | lia].
Qed.

(** What it finds has the pid. *)
Lemma find_loop_pid fuel k pid start e x :
  sched_find_loop fuel k pid start e = Ret x -> x <> 0 -> exists t, ks_tasks k !! x = Some t /\ t_pid t = pid.
Proof.
  revert e. induction fuel as [| fuel IH]; intros e; cbn [sched_find_loop]; [done |].
  intros (n & _ & H)%bind_Ret_inv Hx. destruct (nd_next n =? start); [by injection H as <- |].
  destruct (q_task (nd_data n) =? 0); [by eapply IH |]. apply bind_Ret_inv in H as (t & Ht & H). apply load_task_Ret in Ht.
  destruct (Z.eqb_spec (t_pid t) pid) as [E | E]; cbn [andb] in H.
  - destruct (negb (hidden (t_state t))); [injection H as <-; by exists t |]. destruct (nd_next n =? e); [by injection H as <- | by eapply IH].
  - destruct (nd_next n =? e); [by injection H as <- | by eapply IH].
Qed.

(** The tasks after the children of [p] have been given to [init]. *)
Definition reparented k k' (p init : Z) : Prop :=
  k' = ks_set_tasks k (ks_tasks k') /\
  forall a x, ks_tasks k !! a = Some x -> exists x', ks_tasks k' !! a = Some x' /\
    (x' = x \/ t_parent x = p /\ x' = t_set_parent x init).

Lemma reparented_refl k p init : reparented k k p init.
Proof. split; [by destruct k | eauto]. Qed.

Lemma reparented_trans a b c p init :
  reparented a b p init -> reparented b c p init -> reparented a c p init.
Proof.
  intros [Hb H1] [Hc H2]. split; [rewrite Hc, Hb; done |]. intros i x Hx.
  destruct (H1 _ _ Hx) as (x1 & Hx1 & Hcase1). destruct (H2 _ _ Hx1) as (x2 & Hx2 & Hcase2).
  exists x2. split; [done |]. destruct Hcase1 as [-> | [Hp ->]]; [done |].
  right. split; [done |]. by destruct Hcase2 as [-> | [_ ->]].
Qed.

Lemma reparented_one k p init a x :
  ks_tasks k !! a = Some x -> t_parent x = p ->
  reparented k (ks_set_tasks k (<[a := t_set_parent x init]> (ks_tasks k))) p init.
Proof.
  intros Ha Hp. split; [done |]. intros b y Hy. cbn [ks_tasks ks_set_tasks].
  destruct (decide (a = b)) as [<- | Hne].
  - rewrite lookup_insert_eq. eexists. split; [done |]. right. by simplify_eq.
  - rewrite lookup_insert_ne by done. eauto.
Qed.

(** What the loop does with one entry. *)
Definition reparent_one k (p init : Z) (d : qentry) : outcome kstate :=
  if nz (q_task d) then
    x ← load_task k (q_task d);
    if t_parent x =? p then upd_task k (q_task d) (fun x => t_set_parent x init) else Ret k
  else Ret k.

(** The task of the entry has [init] as its parent afterwards if [p] was its parent
    before, and otherwise the parent it had. *)
Definition moved k k' (p init : Z) (d : qentry) : Prop :=
  q_task d <> 0 -> forall x, ks_tasks k !! q_task d = Some x ->
  exists x', ks_tasks k' !! q_task d = Some x' /\ t_parent x' = if t_parent x =? p then init else t_parent x.

Lemma reparent_one_spec k p init d :
  q_task d = 0 \/ is_Some (ks_tasks k !! q_task d) ->
  exists k', reparent_one k p init d = Ret k' /\ reparented k k' p init /\ ks_qes k' = ks_qes k /\
    moved k k' p init d.
Proof.
  intros Hd. unfold reparent_one, moved. destruct (nz (q_task d)) eqn:Hz.
  - apply nz_true in Hz. destruct Hd as [? | [x Hx]]; [done |].
    rewrite (proj2 (load_task_Ret _ _ _) Hx), bind_Ret. destruct (Z.eqb_spec (t_parent x) p) as [Hp | Hp].
    + rewrite (upd_task_Ret _ _ x) by done. eexists. split; [done |].
      split; [by apply reparented_one |]. split; [done |]. intros _ y Hy. simplify_eq.
      cbn [ks_tasks ks_set_tasks]. rewrite lookup_insert_eq, Z.eqb_refl. by eexists.
    + exists k. split; [done |]. split; [apply reparented_refl |]. split; [done |]. intros _ y Hy. simplify_eq.
      eexists. split; [exact Hx |]. by rewrite (proj2 (Z.eqb_neq _ _) Hp).
  - apply nz_false in Hz. exists k. split; [done |]. split; [apply reparented_refl |]. done.
Qed.

Lemma moved_later k k1 k' p init d : moved k k1 p init d -> reparented k1 k' p init -> moved k k' p init d.
Proof.
  intros Hm [_ Hr] Hz x Hx. destruct (Hm Hz x Hx) as (x1 & Hx1 & Hp). destruct (Hr _ _ Hx1) as (x' & Hx' & Hcase).
  exists x'. split; [done |]. destruct Hcase as [-> | [E ->]]; [done |]. cbn [t_parent t_set_parent].
  destruct (Z.eqb_spec (t_parent x) p); [done | congruence].
Qed.

Lemma moved_earlier k k1 k' p init d : reparented k k1 p init -> moved k1 k' p init d -> moved k k' p init d.
Proof.
  intros [_ Hr] Hm Hz x Hx. destruct (Hr _ _ Hx) as (x1 & Hx1 & Hcase). destruct (Hm Hz x1 Hx1) as (x' & Hx' & Hp).
  exists x'. split; [done |]. rewrite Hp. destruct Hcase as [-> | [E ->]]; [done |]. cbn [t_parent t_set_parent].
  rewrite E, Z.eqb_refl. by destruct (init =? p).
Qed.

Lemma reparent_loop_spec p init k r z pr e pr' first fuel :
  lseg (ks_qes k) pr e (r ++ [z]) pr' first ->
  first ∉ (tail (r ++ [z])).*1 -> queue_ok k r -> (length r < fuel)%nat ->
  exists k', reparent_loop fuel k p init first e = Ret k' /\ reparented k k' p init /\
    forall a d, (a, d) ∈ r -> moved k k' p init d.
Proof.
  revert k pr e fuel. induction r as [| [a d] r IH]; intros k pr e fuel Hl Hn Hq Hf;
    (destruct fuel as [| fuel]; [simpl in Hf; lia |]); cbn [reparent_loop]; unfold load_qe, load_node.
  { destruct z as [a d]. destruct Hl as (-> & Ha & nx & Hnx & -> & _). rewrite Hnx, bind_Ret.
    cbn [nd_next]. rewrite Z.eqb_refl. exists k. split; [done |]. split; [apply reparented_refl |].
    intros b e' Hin. by apply not_elem_of_nil in Hin. }
  destruct Hl as (-> & Ha & nx & Hnx & Hl). change (_ r [z]) with (r ++ [z]) in Hl.
  rewrite Hnx, bind_Ret. cbn [nd_next nd_data]. cbn [app tail] in Hn.
  destruct (Z.eqb_spec nx first) as [-> | Hne].
  { exfalso. apply Hn. by apply (lseg_head _ _ _ _ _ _ Hl); destruct r. }
  apply Forall_cons in Hq as [Hd Hq]. cbn [snd] in Hd.
  destruct (reparent_one_spec k p init d Hd) as (k1 & Hone & Hrep & Hqes & Hmv).
  unfold reparent_one in Hone. rewrite Hone, bind_Ret. rewrite <- Hqes in Hl.
  destruct (IH k1 a nx fuel) as (k' & Hloop & Hrep' & Hall); try done; [| | simpl in Hf; lia |].
  { intros Hin. apply Hn. destruct (r ++ [z]); [done |]. simpl in *. set_solver. }
  { eapply Forall_impl; [exact Hq |]. intros y [? | [x Hx]]; [by left | right].
    destruct (proj2 Hrep _ _ Hx) as (x' & Hx' & _). eauto. }
  exists k'. split; [done |]. split; [by eapply reparented_trans |].
  intros b e' [Heq | Hin]%elem_of_cons; [| by eapply moved_earlier, Hall].
  injection Heq as -> ->. by eapply moved_later.
Qed.

(** SIGCHLD without a handler changes nothing. *)
Lemma sigchld_default user_mapped k p t sa :
  ks_tasks k !! p = Some t -> t_handlers t !! 20%nat = Some sa ->
  sa_handler sa = SIG_DFL \/ sa_handler sa = SIG_IGN -> t_state t <> STOPPED ->
  task_signal user_mapped k p SIGCHLD = Ret (0, k).
Proof.
  intros Hp Hs Hh _. unfold task_signal. cbn [Z.ltb Z.compare NSIG SIGCHLD SIGKILL SIGSTOP Z.eqb orb].
  change (NSIG <? SIGCHLD) with false. change ((SIGCHLD =? SIGKILL) || (SIGCHLD =? SIGSTOP)) with false.
  rewrite (proj2 (load_task_Ret _ _ _) Hp), bind_Ret, mask_bit_Ret, bind_Ret by (unfold SIGCHLD; lia).
  destruct (Z.testbit (t_mask t) SIGCHLD); [done |].
  assert (aload (t_handlers t) SIGCHLD = Ret sa) as -> by (by apply aload_Ret).
  rewrite bind_Ret. by destruct Hh as [-> | ->].
Qed.

(** A parent that waits for the child gets its pid and exit code. *)
Lemma wait_finish_spec k p child t c :
  ks_tasks k !! p = Some t -> ks_tasks k !! child = Some c -> p <> child ->
  t_wait_for t = 0 \/ t_wait_for t = t_pid c ->
  exists k' t', wait_finish k p child = Ret k' /\
    k' = ks_set_tasks k (<[p := t']> (<[child := t_set_state c REAPED]> (ks_tasks k))) /\
    t_state t' = RUNNING /\ t_wait_res_pid t' = t_pid c /\ t_handlers t' = t_handlers t /\
    t_parent t' = t_parent t /\
    (t_stat_loc t <> 0 -> t_umem t' !! t_stat_loc t = Some (t_exit_code c)).
Proof.
  intros Hp Hc Hne Hw. unfold wait_finish. rewrite (proj2 (load_task_Ret _ _ _) Hp), bind_Ret.
  rewrite (proj2 (load_task_Ret _ _ _) Hc), bind_Ret.
  assert (nz (t_wait_for t) && negb (t_wait_for t =? t_pid c) = false) as ->
    by (destruct Hw as [-> | ->]; [done | by rewrite Z.eqb_refl, andb_false_r]).
  rewrite (upd_task_Ret _ _ t), bind_Ret by done. set (t1 := if nz _ then _ else _).
  rewrite (upd_task_Ret _ _ c) by (simpl; by rewrite lookup_insert_ne). rewrite bind_Ret.
  rewrite (upd_task_Ret _ _ t1).
  2: { simpl. rewrite lookup_insert_ne by done. apply lookup_insert_eq. }
  eexists. exists (t_set_state t1 RUNNING). split; [done |]. split.
  { cbn [ks_tasks ks_set_tasks]. unfold ks_set_tasks. cbn. f_equal.
    rewrite (insert_insert_ne _ child p) by done. by rewrite insert_insert_eq. }
  unfold t1. destruct (nz (t_stat_loc _)) eqn:Hz; cbn in Hz |- *; repeat (split; [done |]).
  - intros _. apply lookup_insert_eq.
  - intros Hs. by apply nz_false in Hz.
Qed.

Lemma queue_ok_upd k l p t :
  queue_ok k l -> queue_ok (ks_set_tasks k (<[p := t]> (ks_tasks k))) l.
Proof.
  intros Hq. eapply Forall_impl; [exact Hq |]. intros e [? | [x Hx]]; [by left | right].
  cbn [ks_tasks ks_set_tasks]. destruct (decide (p = q_task e.2)) as [-> |];
    [rewrite lookup_insert_eq | rewrite lookup_insert_ne]; eauto.
Qed.

(** The part of [task_userland_eol] up to the notification of the parent. *)
Lemma eol_reparents k c x q p y t :
  ks_current k = c -> ring (ks_qes k) c (x ++ (q, Qentry p 0) :: y) ->
  queue_ok k (x ++ (q, Qentry p 0) :: y) -> ks_tasks k !! p = Some t -> t_qentry t = q ->
  t_parent t <> p ->
  exists init k2 n, let t1 := t_set_state t ZOMBIE in
    let k1 := ks_set_tasks k (<[p := t1]> (ks_tasks k)) in
    scheduler_find k1 1 = Ret init /\ load_qe k1 q = Ret n /\
    reparent_loop (S (size (ks_qes k1))) k1 p init (nd_next n) (nd_next n) = Ret k2 /\
    reparented k1 k2 p init /\ ks_tasks k2 !! p = Some t1 /\
    forall a d, (a, d) ∈ x ++ y -> moved k1 k2 p init d.
Proof.
  intros Hc Hr Hq Ht Hqe Hpp. set (t1 := t_set_state t ZOMBIE).
  set (k1 := ks_set_tasks k (<[p := t1]> (ks_tasks k))).
  pose proof (queue_ok_upd _ _ p t1 Hq) as Hq1. fold k1 in Hq1.
  destruct (scheduler_find_total k1 c _ 1 Hc Hr Hq1) as (init & Hinit).
  pose proof (ring_length _ _ _ Hr) as Hsz. apply ring_rotate_to in Hr.
  destruct (ring_next _ _ _ _ Hr) as (n & Hn & _). pose proof (ring_rotate _ _ _ _ _ Hr Hn) as Hr1.
  destruct (ring_head _ _ _ Hr1) as (d1 & l1 & Heq & _). destruct Hr1 as (Hnd & _ & last & Hl).
  destruct (reparent_loop_spec p init k1 (y ++ x) (q, Qentry p 0) last (nd_next n) last (nd_next n)
    (S (size (ks_qes k1)))) as (k2 & Hloop & Hrep & Hall).
  - exact Hl.
  - rewrite Heq in Hnd |- *. rewrite fmap_cons in Hnd. by apply NoDup_cons in Hnd as [? _].
  - unfold queue_ok in *. rewrite Forall_app, Forall_cons in Hq1. rewrite Forall_app. tauto.
  - rewrite length_app in Hsz |- *. cbn [length] in Hsz. change (ks_qes k1) with (ks_qes k). lia.
  - exists init, k2, n. split; [done |]. split; [unfold load_qe, load_node; simpl; by rewrite Hn |].
    split; [done |]. split; [done |]. split.
    + assert (ks_tasks k1 !! p = Some t1) as Hp1 by apply lookup_insert_eq.
      destruct (proj2 Hrep _ _ Hp1) as (t2 & Ht2 & [-> | [Hbad _]]); [done |]. by destruct Hpp.
    + intros a d Hin. apply (Hall a). rewrite elem_of_app in *. tauto.
Qed.

(** The kernel once the task is marked as a zombie. *)
Definition zombie k (p : Z) (t : task) : kstate := ks_set_tasks k (<[p := t_set_state t ZOMBIE]> (ks_tasks k)).

Lemma zombie_find k p t x :
  ks_tasks k !! p = Some t -> scheduler_find (zombie k p t) 1 = Ret x -> x <> 0 -> exists i, ks_tasks k !! x = Some i /\ t_pid i = 1.
Proof.
  intros Ht Hf Hx. destruct (find_loop_pid _ _ _ _ _ _ Hf Hx) as (i & Hi & Ei). cbn [zombie ks_tasks ks_set_tasks] in Hi.
  destruct (decide (p = x)) as [<- | Hne]; [rewrite lookup_insert_eq in Hi; injection Hi as <-; by exists t |].
  rewrite lookup_insert_ne in Hi by done. by exists i.
Qed.

(** C31: the end of a task with a waiting parent that has no handler for SIGCHLD: the
    parent, waiting for this child or for any, runs again, has the child's pid as its
    result and the exit code in its status word; the child is marked as reaped; and
    exactly the tasks that had the child as their parent have what the scheduler finds
    for pid 1 as theirs: a task with that pid, or 0 if it finds none, as it does when
    init is in the last place of its queue (see [find_misses_last]). *)
Theorem eol_wakes_parent user_mapped k c x q p y t par sa :
  ks_current k = c -> ring (ks_qes k) c (x ++ (q, Qentry p 0) :: y) ->
  queue_ok k (x ++ (q, Qentry p 0) :: y) -> ks_tasks k !! p = Some t -> t_qentry t = q ->
  t_parent t <> 0 -> t_parent t <> p -> ks_tasks k !! t_parent t = Some par -> t_state par = WAITING ->
  t_wait_for par = 0 \/ t_wait_for par = t_pid t ->
  t_handlers par !! 20%nat = Some sa -> sa_handler sa = SIG_DFL \/ sa_handler sa = SIG_IGN ->
  exists k' par' t' init, task_userland_eol user_mapped k p = Ret k' /\
    ks_tasks k' !! t_parent t = Some par' /\ t_state par' = RUNNING /\ t_wait_res_pid par' = t_pid t /\
    (t_stat_loc par <> 0 -> t_umem par' !! t_stat_loc par = Some (t_exit_code t)) /\
    ks_tasks k' !! p = Some t' /\ t_state t' = REAPED /\
    scheduler_find (zombie k p t) 1 = Ret init /\ (init <> 0 -> exists i, ks_tasks k !! init = Some i /\ t_pid i = 1) /\
    forall a d, (a, d) ∈ x ++ y -> moved k k' p init d.
Proof.
  intros Hc Hr Hq Ht Hqe Hpp0 Hpp Hpar Hws Hwf Hsa Hh.
  destruct (eol_reparents k c x q p y t) as (init & k2 & n & Hinit & Hn & Hloop & Hrep & Hp2 & Hmv); try done.
  unfold task_userland_eol. rewrite (upd_task_Ret _ _ t), bind_Ret, Hinit, bind_Ret by done.
  set (k1 := ks_set_tasks k (<[p := t_set_state t ZOMBIE]> (ks_tasks k))) in *.
  assert (ks_tasks k1 !! p = Some (t_set_state t ZOMBIE)) as Hp1 by apply lookup_insert_eq.
  rewrite (proj2 (load_task_Ret _ _ _) Hp1), bind_Ret. cbn [t_qentry t_set_state]. rewrite Hqe, Hn, bind_Ret.
  rewrite Hloop, bind_Ret, (proj2 (load_task_Ret _ _ _) Hp2), bind_Ret.
  cbn [t_parent t_set_state t_ctty t_strace_observer t_strace_fd]. rewrite (proj2 (nz_true _) Hpp0).
  assert (ks_tasks k1 !! t_parent t = Some par) as Hpar1 by (unfold k1; simpl; by rewrite lookup_insert_ne).
  destruct (proj2 Hrep _ _ Hpar1) as (par2 & Hpar2 & Hcase).
  assert (t_state par2 = WAITING /\ t_wait_for par2 = t_wait_for par /\ t_handlers par2 = t_handlers par /\
    t_stat_loc par2 = t_stat_loc par) as (H1 & H2 & H3 & H4) by (destruct Hcase as [-> | [_ ->]]; done).
  rewrite (proj2 (load_task_Ret _ _ _) Hpar2), bind_Ret, bool_decide_true by done.
  destruct (wait_finish_spec k2 (t_parent t) p par2 (t_set_state t ZOMBIE))
    as (k3 & par3 & Hwait & Hk3 & Hs3 & Hres & Hh3 & Hpar3 & Hst); try done; [by rewrite H2 |].
  rewrite Hwait, bind_Ret. assert (ks_tasks k3 !! t_parent t = Some par3) as Hlk3
    by (rewrite Hk3; apply lookup_insert_eq).
  rewrite (sigchld_default user_mapped k3 _ par3 sa), !bind_Ret by (done || congruence).
  set (k4 := if nz (t_ctty t) && _ then _ else _).
  assert (ks_tasks k4 = ks_tasks k3) as Hk4 by (unfold k4; by destruct (nz (t_ctty t) && _)).
  set (k5 := if nz (t_strace_observer t) && _ then _ else _).
  assert (exists k6, k5 = Ret k6 /\ ks_tasks k6 = ks_tasks k3) as (k6 & -> & Hk6).
  { unfold k5. destruct (nz (t_strace_observer t) && _); eexists; (split; [done |]); done. }
  exists k6, par3, (t_set_state (t_set_state t ZOMBIE) REAPED), init. rewrite Hk6.
  split; [done |]. split; [done |]. split; [done |]. split; [done |]. split; [by rewrite <- H4 |].
  assert (ks_tasks k3 !! p = Some (t_set_state (t_set_state t ZOMBIE) REAPED)) as Hp3
    by (rewrite Hk3; simpl; rewrite lookup_insert_ne by done; apply lookup_insert_eq).
  split; [done |]. split; [done |]. split; [exact Hinit |]. split; [exact (zombie_find k p t init Ht Hinit) |]. intros a d Hin Hz z0 Hz0.
  assert (exists z1, ks_tasks k1 !! q_task d = Some z1 /\ t_parent z1 = t_parent z0) as (z1 & Hz1 & Ep).
  { unfold k1. cbn [ks_tasks ks_set_tasks]. destruct (decide (p = q_task d)) as [Hd | Hd]; [| rewrite lookup_insert_ne by done; by exists z0].
    rewrite <- Hd in Hz0 |- *. rewrite lookup_insert_eq. eexists. split; [done |]. simplify_eq. done. }
  destruct (Hmv a d Hin Hz z1 Hz1) as (z & Hz2 & Hpz). rewrite Hk6. rewrite Ep in Hpz.
  destruct (decide (q_task d = p)) as [Hd | Hd].
  { rewrite Hd in *. simplify_eq. eexists. split; [by rewrite Hp3 | done]. }
  destruct (decide (q_task d = t_parent t)) as [Hd' | Hd'].
  - rewrite Hd' in *. simplify_eq. exists par3. split; [done |]. by rewrite Hpar3.
  - exists z. split; [| done]. rewrite Hk3. simpl. by rewrite !lookup_insert_ne.
Qed.

(** * Examples *)

Definition sched_task (pid parent qe : Z) (s : task_state) : task :=
  Task pid 0 0 0 0 parent qe s 0 (replicate 33 (Sigaction 0 0 0)) 0 0 0 0 false 500 0 0 0 0
    (Regs 0 0 0 0 0 0 0) ∅.

(** Three tasks in a ring, the parent of the others first; the tick is 100, and
    a task that sleeps does so until 500. *)
Definition sched_ex (s1 s2 s3 : task_state) : kstate :=
  Kstate (<[0x1000 := sched_task 1 0 0x10 s1]> (<[0x2000 := sched_task 2 0x1000 0x20 s2]>
           (<[0x3000 := sched_task 3 0x1000 0x30 s3]> ∅)))
    (<[0x10 := Node 0x30 0x20 (Qentry 0x1000 0)]> (<[0x20 := Node 0x10 0x30 (Qentry 0x2000 0)]>
      (<[0x30 := Node 0x20 0x10 (Qentry 0x3000 0)]> ∅)))
    0x10 SCHEDULER_INITIALIZED 100 ∅ ∅ ∅ 0 [].

Lemma sched_ex_ring s1 s2 s3 :
  ring (ks_qes (sched_ex s1 s2 s3)) 0x10
    [(0x10, Qentry 0x1000 0); (0x20, Qentry 0x2000 0); (0x30, Qentry 0x3000 0)].
Proof.
  split; [| split; [done |]].
  - repeat constructor; set_solver.
  - exists 0x30. cbn [lseg]. split; [done |]. split; [done |]. exists 0x20. split; [done |].
    split; [done |]. split; [done |]. exists 0x30. split; [done |].
    split; [done |]. split; [done |]. exists 0x10. done.
Qed.

Lemma scheduler_fair_witness :
  exists n k', (1 <= n <= 2)%nat /\
    select_n (fun _ _ => true) 6 n (sched_ex RUNNING WAITING RUNNING) 0 = Ret k' /\ ks_current k' = 0x30.
Proof.
  apply (scheduler_fair (fun _ _ => true) 6 0 (sched_ex RUNNING WAITING RUNNING) 0x10 (Qentry 0x1000 0)
           [(0x20, Qentry 0x2000 0)] 0x30 (Qentry 0x3000 0) []).
  - done.
  - done.
  - apply sched_ex_ring.
  - repeat constructor; cbn; try done; eexists; (split; [reflexivity |]); done.
  - simpl. lia.
  - done.
Defined.

(** Init waits for its child, whose own child is the third task. *)
Definition family_ex : kstate :=
  ks_set_tasks (sched_ex WAITING TERMINATED RUNNING)
    (<[0x3000 := sched_task 3 0x2000 0x30 RUNNING]> (ks_tasks (sched_ex WAITING TERMINATED RUNNING))).

Lemma eol_wakes_parent_witness :
  exists k' par' t' x', task_userland_eol (fun _ _ => true) family_ex 0x2000 = Ret k' /\
    ks_tasks k' !! 0x1000 = Some par' /\ t_state par' = RUNNING /\ t_wait_res_pid par' = 2 /\
    ks_tasks k' !! 0x2000 = Some t' /\ t_state t' = REAPED /\
    ks_tasks k' !! 0x3000 = Some x' /\ t_parent x' = 0x1000.
Proof.
  destruct (eol_wakes_parent (fun _ _ => true) family_ex 0x10
           [(0x10, Qentry 0x1000 0)] 0x20 0x2000 [(0x30, Qentry 0x3000 0)]
           (sched_task 2 0x1000 0x20 TERMINATED) (sched_task 1 0 0x10 WAITING) (Sigaction 0 0 0))
    as (k' & par' & t' & init & E & Hpar & Hrun & Hpid & _ & Ht & Hr & Hi & _ & Hm).
  - done.
  - apply sched_ex_ring.
  - repeat (constructor; [right; eexists; reflexivity |]). constructor.
  - done.
  - done.
  - done.
  - done.
  - done.
  - done.
  - by left.
  - done.
  - by left.
  - destruct (Hm 0x30 (Qentry 0x3000 0) ltac:(right; left) ltac:(done) (sched_task 3 0x2000 0x30 RUNNING) ltac:(reflexivity)) as (x' & Hx & Hp).
    exists k', par', t', x'. assert (Hi' : scheduler_find (zombie family_ex 0x2000 (sched_task 2 0x1000 0x20 TERMINATED)) 1 = Ret 0x1000) by (vm_compute; reflexivity).
    rewrite Hi' in Hi. injection Hi as <-. repeat (split; [done |]). exact Hp.
Defined.

(** A task that sleeps and one that has been reaped. *)
Definition hang_ex : kstate :=
  Kstate (<[0x1000 := sched_task 1 0 0x10 SLEEPING]> (<[0x2000 := sched_task 2 0x1000 0x20 REAPED]> ∅))
    (<[0x10 := Node 0x20 0x20 (Qentry 0x1000 0)]> (<[0x20 := Node 0x10 0x10 (Qentry 0x2000 0)]> ∅))
    0x10 SCHEDULER_INITIALIZED 100 ∅ ∅ ∅ 0 [].

(** [scheduler_find] does not look at the last entry of the ring: a running task
    cannot be signalled when it is just before the current one. *)
Lemma find_misses_last :
  scheduler_find (sched_ex RUNNING RUNNING RUNNING) 2 = Ret 0x2000 /\
  scheduler_find (sched_ex RUNNING RUNNING RUNNING) 3 = Ret 0 /\
  task_signal_syscall (fun _ _ => true) (sched_ex RUNNING RUNNING RUNNING) 0x1000 3 SIGKILL =
    Ret (-1, ks_set_errno (sched_ex RUNNING RUNNING RUNNING) ESRCH).
Proof. split; [| split]; vm_compute; reflexivity. Qed.

(** A child that has exited and has not been cleaned up cannot be waited for,
    and one that has become a zombie is waited for forever: nothing wakes the
    parent again, however often the scheduler runs. *)
Lemma waitpid_terminated_child env patience :
  task_waitpid patience env (sched_ex RUNNING TERMINATED RUNNING) 0x1000 2 0 =
    Ret (-1, ks_set_errno (sched_ex RUNNING TERMINATED RUNNING) ECHILD).
Proof. destruct patience; vm_compute; reflexivity. Qed.

Definition sched_turn (i : nat) (k : kstate) : kstate :=
  match scheduler_select (fun _ _ => true) 6 k 0 with Ret (_, k) => k | _ => k end.

(** A task that waits in a state the others do not change. *)
Lemma waitpid_stuck patience env k p t i :
  ks_tasks k !! p = Some t -> t_state t = WAITING -> (forall j, env j k = k) ->
  waitpid_loop patience i env k p = Spin.
Proof.
  intros Hp Hw He. revert i. induction patience as [| m IH]; intros i; cbn [waitpid_loop];
    rewrite (proj2 (load_task_Ret _ _ _) Hp), bind_Ret, Hw; [done |].
  cbn [bool_decide negb]. rewrite bool_decide_true by done. cbn [negb]. rewrite He. apply IH.
Qed.

Definition zombie_ex : kstate :=
  match waitpid_begin (sched_ex RUNNING ZOMBIE RUNNING) 0x1000 2 0 with Ret (_, k) => k | _ => hang_ex end.

Lemma waitpid_zombie_hangs patience :
  task_waitpid patience sched_turn (sched_ex RUNNING ZOMBIE RUNNING) 0x1000 2 0 = Spin.
Proof.
  unfold task_waitpid.
  assert (waitpid_begin (sched_ex RUNNING ZOMBIE RUNNING) 0x1000 2 0 = Ret (true, zombie_ex)) as ->
    by (vm_compute; reflexivity).
  rewrite bind_Ret. destruct patience as [| m]; [reflexivity |].
  transitivity (waitpid_loop m 1 sched_turn (sched_turn 0 zombie_ex) 0x1000); [reflexivity |].
  eapply waitpid_stuck; [vm_compute; reflexivity | reflexivity |]. intros j. vm_compute. reflexivity.
Qed.

(** The search never ends when the first entry behind the current one is removed
    and nothing can run: the entry it compares with is no longer in the ring. *)
Lemma select_hangs fuel : scheduler_select (fun _ _ => true) fuel hang_ex 0 = Spin.
Proof.
  unfold scheduler_select, find_runnable_qentry. cbn [ks_sched hang_ex ks_current].
  assert (forall m k, ks_qes k !! 0x10 = Some (Node 0x10 0x10 (Qentry 0x1000 0)) ->
    ks_tasks k !! 0x1000 = Some (sched_task 1 0 0x10 SLEEPING) -> ks_tick k = 100 ->
    find_runnable_loop (fun _ _ => true) m k 0x10 0x20 false = Spin) as Hloop.
  { induction m as [| m IH]; intros k Hq Ht Hk; cbn [find_runnable_loop]; [done |].
    cbn [Z.eqb Pos.eqb andb]. unfold load_qe, load_node, load_task. rewrite Hq, bind_Ret. cbn.
    rewrite Ht. cbn. rewrite Hk. by apply IH. }
  destruct fuel as [| fuel]; [reflexivity |].
  set (k1 := task_cleanup (ks_set_qes hang_ex (<[0x10 := Node 0x10 0x10 (Qentry 0x1000 0)]>
               (<[0x20 := Node 0x10 0x10 (Qentry 0x2000 0)]> ∅)) 0x10) 0x2000).
  assert (find_runnable_loop (fun _ _ => true) (S fuel) hang_ex 0x20 0x20 true =
    find_runnable_loop (fun _ _ => true) fuel k1 0x10 0x20 false) as Hstep by reflexivity.
  change (load_qe hang_ex 0x10) with (Ret (Node 0x20 0x20 (Qentry 0x1000 0))).
  rewrite bind_Ret. cbn [nd_next]. rewrite Hstep, Hloop; done.
Qed.
