(* ===== verification/Kmalloc.v ===== *)
(** The kernel's heap: src/src/mem/kmalloc.c, as it is built without
    CONFIG_KMALLOC_CHECK and CONFIG_KMALLOC_DEBUG.

    The area from [alloc_start] to [alloc_end] is tiled by blocks: a header of
    8 bytes (size and type), the content, and a footer of 8 bytes that repeats
    the size.  A free block holds the links of the list of free blocks in its
    content.  Memory is seen through the three structures: [km_headers],
    [km_footers] and [km_fbs] map the addresses of headers, footers and free
    list nodes to what is stored there; reading a structure that has not been
    written is [Fault].  The list of free blocks is a list of DList.v in which
    the pointer [prev] of the code leads on (it is [nd_next]). *)
From stdpp Require Import base numbers list gmap.
From Stdlib Require Import ZArith Lia Bool.
From S2P Require Import Prelude Spinlock DList.

Open Scope Z_scope.

Inductive block_type : Type := TYPE_USED | TYPE_FREE.

(** [struct mem_block]; the type is None until it has been stored. *)
Record mem_block : Type := MemBlock { mb_size : Z; mb_type : option block_type }.

(** [sizeof] of [struct mem_block], [struct footer] and [struct free_block]. *)
Definition SIZEOF_HEADER : Z := 8.
Definition SIZEOF_FOOTER : Z := 8.
Definition SIZEOF_FB : Z := 8.

(** The static variables and the memory of the heap. *)
Record kheap : Type := Kheap {
  km_headers : gmap Z mem_block;
  km_footers : gmap Z Z;
  km_fbs : dheap unit;
  km_last_free : Z;
  km_start : Z;
  km_end : Z;
  km_max : Z;
  km_lock : Z;
  km_ready : bool;
}.

Implicit Types s : kheap.

Definition set_headers s (h : gmap Z mem_block) (f : gmap Z Z) : kheap :=
  Kheap h f (km_fbs s) (km_last_free s) (km_start s) (km_end s) (km_max s) (km_lock s) (km_ready s).

Definition set_fbs s (f : dheap unit) (last : Z) : kheap :=
  Kheap (km_headers s) (km_footers s) f last (km_start s) (km_end s) (km_max s) (km_lock s) (km_ready s).

Definition set_end s (e : Z) : kheap :=
  Kheap (km_headers s) (km_footers s) (km_fbs s) (km_last_free s) (km_start s) e (km_max s) (km_lock s)
    (km_ready s).

Definition set_lock s (l : Z) : kheap :=
  Kheap (km_headers s) (km_footers s) (km_fbs s) (km_last_free s) (km_start s) (km_end s) (km_max s) l
    (km_ready s).

(** The macros: addresses of the parts of the block at [x], of size [sz]. *)
Definition GET_FOOTER (x sz : Z) : Z := u32 (x + sz + SIZEOF_HEADER).
Definition GET_CONTENT (x : Z) : Z := u32 (x + SIZEOF_HEADER).
Definition NEXT_BLOCK (x sz : Z) : Z := u32 (GET_FOOTER x sz + SIZEOF_FOOTER).
Definition FULL_SIZE (sz : Z) : Z := u32 (sz + SIZEOF_FOOTER + SIZEOF_HEADER).

(** [PREV_BLOCK(x)]: the word before the first block is read but not used. *)
Definition PREV_BLOCK s (x : Z) : Z :=
  u32 (x - SIZEOF_FOOTER - default 0 (km_footers s !! (x - SIZEOF_FOOTER)) - SIZEOF_HEADER).

Definition load_header s (x : Z) : outcome mem_block :=
  match km_headers s !! x with Some b => Ret b | None => Fault end.

Definition block_type_of s (x : Z) : outcome block_type :=
  b ← load_header s x;
  match mb_type b with Some t => Ret t | None => Fault end.

Definition set_type s (x : Z) (t : block_type) : outcome kheap :=
  b ← load_header s x;
  Ret (set_headers s (<[x := MemBlock (mb_size b) (Some t)]> (km_headers s)) (km_footers s)).

(** The type of a block whose size is set stays what it was. *)
Definition set_block s (sz x : Z) : kheap :=
  set_headers s (<[x := MemBlock sz (km_headers s !! x ≫= mb_type)]> (km_headers s))
    (<[GET_FOOTER x sz := sz]> (km_footers s)).

Definition unlink_free_block s (fb : Z) : outcome kheap :=
  '(f, last) ← list_unlink (km_fbs s) (km_last_free s) fb;
  Ret (set_fbs s f last).

(** The first half of [free_block]: the block becomes part of the free block
    before it, or gets its place in the list of free blocks. *)
Definition free_or_merge s (header : Z) : outcome (Z * kheap) :=
  let prev := PREV_BLOCK s header in
  let fb := GET_CONTENT header in
  prev_free ←
    (if km_start s <? header then
       t ← block_type_of s prev; Ret (match t with TYPE_FREE => true | TYPE_USED => false end)
     else Ret false);
  if (prev_free : bool) then
    p ← load_header s prev;
    h ← load_header s header;
    Ret (prev, set_block s (u32 (mb_size p + FULL_SIZE (mb_size h))) prev)
  else
    s ← set_type s header TYPE_FREE;
    '(f, last) ← list_push (km_fbs s) (km_last_free s) fb tt;
    Ret (header, set_fbs s f last).

(** The second half: the free block behind becomes part of this one. *)
Definition merge_next s (header : Z) (check_next : bool) : outcome (Z * kheap) :=
  h ← load_header s header;
  let next := NEXT_BLOCK header (mb_size h) in
  if check_next && (next <? km_end s) then
    t ← block_type_of s next;
    match t with
    | TYPE_USED => Ret (header, s)
    | TYPE_FREE =>
      n ← load_header s next;
      let s := set_block s (u32 (mb_size h + FULL_SIZE (mb_size n))) header in
      s ← unlink_free_block s (GET_CONTENT next);
      Ret (header, s)
    end
  else Ret (header, s).

Definition free_block s (header : Z) (check_next : bool) : outcome (Z * kheap) :=
  '(header, s) ← free_or_merge s header;
  merge_next s header check_next.

Definition split_block s (header sz : Z) : outcome (option Z * kheap) :=
  h ← load_header s header;
  if mb_size h <? u32 (sz + SIZEOF_HEADER + SIZEOF_FOOTER + SIZEOF_FB) then Ret (None, s) else
  let s := set_block s sz header in
  let new_size := u32 (mb_size h - sz - SIZEOF_HEADER - SIZEOF_FOOTER) in
  let new := NEXT_BLOCK header sz in
  Ret (Some new, set_block s new_size new).

Definition get_alignment_offset (address : Z) : Z :=
  let content_addr := GET_CONTENT address in
  if nz (Z.land content_addr (PAGE_SIZE - 1)) then
    let offset := u32 (ALIGN content_addr PAGE_SIZE - content_addr) in
    if offset <? 0x100 then u32 (offset + PAGE_SIZE) else offset
  else 0.

(** The loop over the list of free blocks. *)
Fixpoint get_free_loop (fuel : nat) s (sz : Z) (align : bool) (fb : Z) : outcome (option Z * kheap) :=
  match fuel with
  | O => Spin
  | S fuel =>
    if fb =? 0 then Ret (None, s) else
    let fblock := u32 (fb - SIZEOF_HEADER) in
    n ← load_node (km_fbs s) fb;
    b ← load_header s fblock;
    t ← block_type_of s fblock;
    match t with
    | TYPE_USED => get_free_loop fuel s sz align (nd_next n)
    | TYPE_FREE =>
      let alignment_offset := if align then get_alignment_offset fblock else 0 in
      let sz_needed := if align then u32 (sz + alignment_offset + SIZEOF_HEADER + SIZEOF_FOOTER) else sz in
      if sz_needed <=? mb_size b then
        s ← unlink_free_block s fb;
        '(new, s) ← split_block s fblock (u32 (sz + alignment_offset));
        s ← match new with
            | Some new => s ← set_type s fblock TYPE_USED; '(_, s) ← free_block s new true; Ret s
            | None => Ret s
            end;
        Ret (Some fblock, s)
      else get_free_loop fuel s sz align (nd_next n)
    end
  end.

Definition get_free_block s (sz : Z) (align : bool) : outcome (option Z * kheap) :=
  get_free_loop (S (size (km_fbs s))) s sz align (km_last_free s).

(** The part of [_kmalloc] that makes a new block at the end of the heap. *)
Definition append_block s (sz_needed : Z) (align : bool) (alignment_offset : Z) : outcome (Z * kheap) :=
  if km_max s <=? u32 (km_end s + sz_needed) then Panic else
  let sz_needed :=
    if align && nz alignment_offset then u32 (sz_needed + get_alignment_offset (km_end s))
    else sz_needed in
  let header := km_end s in
  let s := set_block s sz_needed header in
  Ret (header, set_end s (u32 (GET_FOOTER header sz_needed + SIZEOF_FOOTER))).

(** The part of [_kmalloc] that cuts the allocation out of its block: 0 when
    the block cannot be split. *)
Definition align_block s (header : Z) (align : bool) (alignment_offset : Z) : outcome (Z * kheap) :=
  if align && nz alignment_offset then
    '(new, s) ← split_block s header (u32 (alignment_offset - SIZEOF_HEADER - SIZEOF_FOOTER));
    match new with
    | None => Ret (0, s)
    | Some new =>
      s ← set_type s new TYPE_USED;
      '(_, s) ← free_block s header true;
      Ret (new, s)
    end
  else Ret (header, s).

(** The result is the address of the content (0 for NULL); [zero] has no effect
    on the structures of the heap. *)
Definition _kmalloc s (sz : Z) (align zero : bool) : outcome (Z * kheap) :=
  if negb (km_ready s) then Panic else
  let sz_needed := MAX (ALIGN sz 8) SIZEOF_FB in
  lock ← lock_acquire (km_lock s);
  let s := set_lock s lock in
  '(found, s) ← get_free_block s sz_needed align;
  let alignment_offset :=
    if align then get_alignment_offset (match found with Some h => h | None => km_end s end) else 0 in
  '(header, s) ←
    match found with
    | Some h => Ret (h, s)
    | None => append_block s sz_needed align alignment_offset
    end;
  '(header, s) ← align_block s header align alignment_offset;
  if header =? 0 then Ret (0, s) else
  s ← set_type s header TYPE_USED;
  Ret (GET_CONTENT header, set_lock s (spinlock_release (km_lock s))).

Definition _kfree s (ptr : Z) : outcome kheap :=
  if ptr =? 0 then Ret s else
  let header := u32 (ptr - SIZEOF_HEADER) in
  invalid ←
    (if (header <? km_start s) || (km_end s <=? ptr) then Ret true
     else t ← block_type_of s header; Ret (match t with TYPE_FREE => true | TYPE_USED => false end));
  if (invalid : bool) then Ret s else
  lock ← lock_acquire (km_lock s);
  '(_, s) ← free_block (set_lock s lock) header true;
  Ret (set_lock s (spinlock_release (km_lock s))).

(** The result is the new address, and the number of bytes copied from the old
    block to it. *)
Definition _krealloc s (ptr new_size : Z) : outcome (Z * Z * kheap) :=
  if ptr =? 0 then '(p, s) ← _kmalloc s new_size false false; Ret (p, 0, s) else
  let header := u32 (ptr - SIZEOF_HEADER) in
  invalid ←
    (if (header <? km_start s) || (km_end s <=? ptr) then Ret true
     else t ← block_type_of s header; Ret (match t with TYPE_FREE => true | TYPE_USED => false end));
  if (invalid : bool) then Ret (0, 0, s) else
  '(new, s) ← _kmalloc s new_size false false;
  h ← load_header s header;
  s ← _kfree s ptr;
  Ret (new, mb_size h, s).

(** [start] is what [vm_alloc] gives for the 0x3200 pages. *)
Definition kmalloc_init (start : Z) : outcome kheap :=
  if start =? 0 then Panic else
  Ret (Kheap ∅ ∅ ∅ 0 start start (u32 (start + 0x3200 * PAGE_SIZE)) 0 true).

Fixpoint stats_loop (fuel : nat) s (fb used : Z) : outcome Z :=
  match fuel with
  | O => Spin
  | S fuel =>
    if fb =? 0 then Ret used else
    n ← load_node (km_fbs s) fb;
    b ← load_header s (u32 (fb - SIZEOF_HEADER));
    stats_loop fuel s (nd_next n) (u32 (used - mb_size b))
  end.

(** [total] and [used]. *)
Definition kmalloc_get_stats s : outcome (Z * Z) :=
  used ← stats_loop (S (size (km_fbs s))) s (km_last_free s) (u32 (km_end s - km_start s));
  Ret (u32 (km_max s - km_start s), used).
