(* ===== verification/KmallocSpec.v ===== *)
(** Correctness of the kernel's heap (Kmalloc.v): the blocks always tile the
    area, the list of free blocks holds exactly the free ones, and [kmalloc]
    gives a block that no other allocation uses. *)
From stdpp Require Import base numbers list gmap.
From Stdlib Require Import ZArith Lia Bool.
From S2P Require Import Prelude Spinlock DList Kmalloc.

Open Scope Z_scope.

Implicit Types s : kheap.

(** * The invariant *)

(** A block: its address, its size, and its type. *)
Abbreviation block := (Z * (Z * option block_type))%type.

#[global] Instance block_type_eq_dec : EqDecision block_type.
Proof. solve_decision. Defined.

(** The blocks [bs] tile memory from [a] to [e]. *)
Fixpoint tiles (H : gmap Z mem_block) (F : gmap Z Z) (a : Z) (bs : list block) (e : Z) : Prop :=
  match bs with
  | [] => a = e
  | (b, (sz, t)) :: bs =>
    b = a /\ H !! a = Some (MemBlock sz t) /\ F !! (a + sz + 8) = Some sz /\
    8 <= sz /\ sz mod 8 = 0 /\ tiles H F (a + sz + 16) bs e
  end.

Definition is_free (b : block) : bool := bool_decide (b.2.2 = Some TYPE_FREE).
Definition is_used (b : block) : bool := bool_decide (b.2.2 = Some TYPE_USED).
Definition typed (b : block) : Prop := b.2.2 <> None.

(** The list nodes of the free blocks; address and size of the blocks in use. *)
Definition frees (bs : list block) : list Z := map (fun b => b.1 + 8) (List.filter is_free bs).
Definition used (bs : list block) : list (Z * Z) := map (fun b => (b.1, b.2.1)) (List.filter is_used bs).

(** The list of free blocks of the code is [fl], and no other node exists. *)
Definition flist s (fl : list Z) : Prop :=
  list_rep (km_fbs s) (km_last_free s) (map (fun a => (a, tt)) fl) /\
  forall a, a ∉ fl -> km_fbs s !! a = None.

Record area_ok s : Prop := {
  ar_start : 8 <= km_start s;
  ar_align : km_start s mod 8 = 0;
  ar_end : km_end s <= km_max s + 0x2000;
  ar_le : km_start s <= km_max s;
  ar_max : km_max s + 0x8000 <= 2 ^ 32;
}.

(** The blocks are [bs]. *)
Definition shape s (bs : list block) : Prop :=
  tiles (km_headers s) (km_footers s) (km_start s) bs (km_end s) /\ area_ok s.

Definition free_list_is s (bs : list block) : Prop := exists fl, flist s fl /\ fl ≡ₚ frees bs.

Record kinv s (bs : list block) : Prop := {
  ki_shape : shape s bs;
  ki_typed : Forall typed bs;
  ki_free : free_list_is s bs;
}.

(** The fields no operation on the blocks changes. *)
Definition same_area s s' : Prop :=
  km_start s' = km_start s /\ km_end s' = km_end s /\ km_max s' = km_max s /\
  km_lock s' = km_lock s /\ km_ready s' = km_ready s.

Definition same_list s s' : Prop := km_fbs s' = km_fbs s /\ km_last_free s' = km_last_free s.

Lemma same_area_trans a b c : same_area a b -> same_area b c -> same_area a c.
Proof. unfold same_area. intuition congruence. Qed.

Lemma same_list_flist s s' fl : same_list s s' -> flist s fl -> flist s' fl.
Proof. intros [E1 E2]. unfold flist. by rewrite E1, E2. Qed.

(** * Tiles *)

Lemma tiles_le H F a bs e : tiles H F a bs e -> a <= e.
Proof.
  revert a. induction bs as [| [b [sz t]] bs IH]; intros a Ht; simpl in Ht; [lia |].
  destruct Ht as (_ & _ & _ & Hs & _ & Ht). apply IH in Ht. lia.
Qed.

Lemma tiles_app H F a x y e :
  tiles H F a (x ++ y) e <-> exists m, tiles H F a x m /\ tiles H F m y e.
Proof.
  revert a. induction x as [| [b [sz t]] x IH]; intros a; simpl.
  - split; [eauto | intros (m & -> & ?); done].
  - split.
    + intros (-> & H1 & H2 & H3 & H4 & Ht). apply IH in Ht as (m & ? & ?). exists m. done.
    + intros (m & (-> & H1 & H2 & H3 & H4 & Hx) & Hy). repeat (split; [done |]). apply IH. eauto.
Qed.

Lemma tiles_frame H F H' F' a bs e :
  (forall x, a <= x < e -> H' !! x = H !! x) -> (forall x, a <= x < e -> F' !! x = F !! x) ->
  tiles H F a bs e -> tiles H' F' a bs e.
Proof.
  revert a. induction bs as [| [b [sz t]] bs IH]; intros a Hh Hf Ht; simpl in *; [done |].
  destruct Ht as (-> & H1 & H2 & H3 & H4 & Ht). pose proof (tiles_le _ _ _ _ _ Ht).
  rewrite Hh, Hf by lia. repeat (split; [done |]). apply IH; [| | done]; intros; [apply Hh | apply Hf]; lia.
Qed.

(** Stores outside the area leave it alone. *)
Lemma tiles_store H F a bs e p v q w :
  ~ a <= p < e -> ~ a <= q < e -> tiles H F a bs e -> tiles (<[p := v]> H) (<[q := w]> F) a bs e.
Proof. intros Hp Hq. apply tiles_frame; intros x Hx; apply lookup_insert_ne; lia. Qed.

Lemma tiles_store_header H F a bs e p v :
  ~ a <= p < e -> tiles H F a bs e -> tiles (<[p := v]> H) F a bs e.
Proof. intros Hp. apply tiles_frame; intros x Hx; [apply lookup_insert_ne; lia | done]. Qed.

Lemma mod8_add a b : a mod 8 = 0 -> b mod 8 = 0 -> (a + b) mod 8 = 0.
Proof. intros Ha Hb. rewrite Z.add_mod, Ha, Hb by lia. done. Qed.

Lemma mod8_sub a b : a mod 8 = 0 -> b mod 8 = 0 -> (a - b) mod 8 = 0.
Proof. intros Ha Hb. rewrite Zminus_mod, Ha, Hb. done. Qed.

#[local] Hint Resolve mod8_add mod8_sub : xelix.

Lemma tiles_aligned H F a bs e : tiles H F a bs e -> a mod 8 = 0 -> e mod 8 = 0.
Proof.
  revert a. induction bs as [| [b [sz t]] bs IH]; intros a Ht Ha; simpl in Ht; [congruence |].
  destruct Ht as (_ & _ & _ & _ & Hs & Ht). apply (IH _ Ht). auto with xelix.
Qed.

(** What is stored for the block at [h], and the bounds around it. *)
Lemma shape_block s x h sz t y :
  shape s (x ++ (h, (sz, t)) :: y) ->
  tiles (km_headers s) (km_footers s) (km_start s) x h /\
  km_headers s !! h = Some (MemBlock sz t) /\ km_footers s !! (h + sz + 8) = Some sz /\
  8 <= sz /\ sz mod 8 = 0 /\ tiles (km_headers s) (km_footers s) (h + sz + 16) y (km_end s).
Proof. intros [(m & Hx & -> & H1 & H2 & H3 & H4 & Hr)%tiles_app _]. done. Qed.

Lemma block_shape s x h sz t y :
  tiles (km_headers s) (km_footers s) (km_start s) x h ->
  km_headers s !! h = Some (MemBlock sz t) -> km_footers s !! (h + sz + 8) = Some sz ->
  8 <= sz -> sz mod 8 = 0 -> tiles (km_headers s) (km_footers s) (h + sz + 16) y (km_end s) ->
  area_ok s -> shape s (x ++ (h, (sz, t)) :: y).
Proof. intros. split; [| done]. apply tiles_app. exists h. simpl. done. Qed.

Lemma shape_bounds s x h sz t y :
  shape s (x ++ (h, (sz, t)) :: y) ->
  8 <= km_start s <= h /\ h mod 8 = 0 /\ 8 <= sz /\ h + sz + 16 <= km_end s /\ km_end s + 0x6000 <= 2 ^ 32.
Proof.
  intros Hs. destruct (shape_block _ _ _ _ _ _ Hs) as (Hl & _ & _ & Hz & _ & Hr).
  destruct Hs as [_ [H1 H2 H3 _ H4]]. pose proof (tiles_aligned _ _ _ _ _ Hl H2).
  apply tiles_le in Hl, Hr. lia.
Qed.

Lemma NEXT_BLOCK_small x sz : 0 <= x -> 0 <= sz -> x + sz + 16 < 2 ^ 32 ->
  GET_FOOTER x sz = x + sz + 8 /\ NEXT_BLOCK x sz = x + sz + 16 /\ GET_CONTENT x = x + 8.
Proof.
  intros H1 H2 H3. unfold NEXT_BLOCK, GET_CONTENT, GET_FOOTER, SIZEOF_FOOTER, SIZEOF_HEADER.
  rewrite !(u32_small (x + sz + 8)), !u32_small by lia. lia.
Qed.

Lemma frees_app x y : frees (x ++ y) = frees x ++ frees y.
Proof. unfold frees. by rewrite List.filter_app, map_app. Qed.

Lemma used_app x y : used (x ++ y) = used x ++ used y.
Proof. unfold used. by rewrite List.filter_app, map_app. Qed.

Lemma frees_bounds H F a bs e z : tiles H F a bs e -> z ∈ frees bs -> a + 8 <= z < e.
Proof.
  revert a. induction bs as [| [b [sz t]] bs IH]; intros a Ht Hz; simpl in Ht.
  - by apply not_elem_of_nil in Hz.
  - destruct Ht as (-> & _ & _ & Hs & _ & Ht). pose proof (tiles_le _ _ _ _ _ Ht).
    change ((a, (sz, t)) :: bs) with ([(a, (sz, t))] ++ bs) in Hz. rewrite frees_app in Hz.
    apply elem_of_app in Hz as [Hz | Hz]; [| apply (IH _ Ht) in Hz; lia].
    unfold frees in Hz. simpl in Hz. destruct (is_free _); simpl in Hz.
    + apply list_elem_of_singleton in Hz. lia.
    + by apply not_elem_of_nil in Hz.
Qed.

(** * The stores of the allocator *)

Lemma set_fbs_shape s bs f last : shape s bs -> shape (set_fbs s f last) bs.
Proof. intros [Ht []]. by split. Qed.

Lemma set_type_spec s x h sz t t' y :
  shape s (x ++ (h, (sz, t)) :: y) ->
  exists s', set_type s h t' = Ret s' /\ shape s' (x ++ (h, (sz, Some t')) :: y) /\
    same_area s s' /\ same_list s s'.
Proof.
  intros Hs. pose proof (shape_bounds _ _ _ _ _ _ Hs) as Hb.
  destruct (shape_block _ _ _ _ _ _ Hs) as (Hl & Hh & Hf & Hz & Hm & Hr).
  unfold set_type, load_header. rewrite Hh, bind_Ret. eexists. split; [done |].
  split; [| done]. destruct Hs as [_ []]. apply block_shape; simpl; try done.
  - apply tiles_store_header; [lia | done].
  - apply lookup_insert_eq.
  - apply tiles_store_header; [lia | done].
Qed.

(** The size of a block is set so that the blocks [y] follow it. *)
Lemma set_block_spec s x h sz y :
  tiles (km_headers s) (km_footers s) (km_start s) x h -> 8 <= sz -> sz mod 8 = 0 ->
  tiles (km_headers s) (km_footers s) (h + sz + 16) y (km_end s) -> area_ok s ->
  shape (set_block s sz h) (x ++ (h, (sz, km_headers s !! h ≫= mb_type)) :: y) /\
  same_area s (set_block s sz h) /\ same_list s (set_block s sz h).
Proof.
  intros Hl Hs Hm Hr Ha. split; [| done]. pose proof (tiles_le _ _ _ _ _ Hl).
  pose proof (tiles_le _ _ _ _ _ Hr). destruct (Ha) as [? ? ? ? ?].
  destruct (NEXT_BLOCK_small h sz) as (Hf & _); [lia .. |].
  apply block_shape; cbn [set_block set_headers km_headers km_footers km_start km_end]; try done.
  - apply tiles_store; [lia | lia | done].
  - apply lookup_insert_eq.
  - rewrite Hf. apply lookup_insert_eq.
  - apply tiles_store; [lia | lia | done].
Qed.

(** A block takes over the one behind it. *)
Lemma set_block_join s x h sz t k m u y :
  shape s (x ++ (h, (sz, t)) :: (k, (m, u)) :: y) ->
  let s' := set_block s (u32 (sz + FULL_SIZE m)) h in
  shape s' (x ++ (h, (sz + m + 16, t)) :: y) /\ same_area s s' /\ same_list s s'.
Proof.
  intros Hs. pose proof (shape_bounds _ _ _ _ _ _ Hs) as Hb.
  destruct (shape_block _ _ _ _ _ _ Hs) as (Hl & Hh & _ & Hz & Hm & Hr). simpl in Hr.
  destruct Hr as (-> & _ & _ & Hz' & Hm' & Hr). pose proof (tiles_le _ _ _ _ _ Hr).
  cbv zeta. unfold FULL_SIZE, SIZEOF_FOOTER, SIZEOF_HEADER.
  rewrite (u32_small (m + 8 + 8)), u32_small by lia.
  replace (sz + (m + 8 + 8)) with (sz + m + 16) by lia.
  replace t with (km_headers s !! h ≫= mb_type) by by rewrite Hh.
  apply set_block_spec; [done | lia | auto with xelix | | apply Hs].
  replace (h + (sz + m + 16) + 16) with (h + sz + 16 + m + 16) by lia. done.
Qed.

(** A block is split behind its first [n] bytes. *)
Lemma split_block_spec s x h sz t y n :
  shape s (x ++ (h, (sz, t)) :: y) -> 8 <= n -> n mod 8 = 0 -> n + 24 <= sz ->
  exists s' u, split_block s h n = Ret (Some (h + n + 16), s') /\
    shape s' (x ++ (h, (n, t)) :: (h + n + 16, (sz - n - 16, u)) :: y) /\
    same_area s s' /\ same_list s s'.
Proof.
  intros Hs Hn Hn8 Hle. pose proof (shape_bounds _ _ _ _ _ _ Hs) as Hb.
  destruct (shape_block _ _ _ _ _ _ Hs) as (Hl & Hh & Hf & Hz & Hm & Hr).
  pose proof (tiles_le _ _ _ _ _ Hr).
  destruct (NEXT_BLOCK_small h n) as (Hfo & Hnx & _); [lia .. |].
  unfold split_block, load_header. rewrite Hh, bind_Ret. cbn [mb_size].
  unfold SIZEOF_HEADER, SIZEOF_FOOTER, SIZEOF_FB. rewrite u32_small by lia.
  destruct (Z.ltb_spec sz (n + 8 + 8 + 8)); [lia |]. rewrite Hnx, u32_small by lia.
  replace (sz - n - 8 - 8) with (sz - n - 16) by lia.
  set (s1 := set_block s n h). set (new := h + n + 16).
  destruct (NEXT_BLOCK_small new (sz - n - 16)) as (Hfo2 & _); [lia .. |].
  do 2 eexists. split; [done |]. split; [| done].
  assert (shape (set_block s1 (sz - n - 16) new)
    ((x ++ [(h, (n, t))]) ++ (new, (sz - n - 16, km_headers s1 !! new ≫= mb_type)) :: y)) as [Hsh Har].
  { apply set_block_spec; [| lia | auto with xelix | |].
    - apply tiles_app. exists h. unfold s1, set_block, set_headers. cbn [km_headers km_footers km_start].
      rewrite Hh, Hfo. cbn. rewrite !lookup_insert_eq.
      split; [apply tiles_store; [lia | lia | done] |]. done.
    - unfold s1, set_block, set_headers. cbn [km_headers km_footers km_end]. rewrite Hfo.
      replace (new + (sz - n - 16) + 16) with (h + sz + 16) by lia.
      apply tiles_store; [lia | lia | done].
    - destruct Hs as [_ []]. by split. }
  split; [| exact Har]. rewrite <- app_assoc in Hsh. exact Hsh.
Qed.

(** A block that is too small to be split is left alone. *)
Lemma split_block_small s x h sz t y n :
  shape s (x ++ (h, (sz, t)) :: y) -> 0 <= n <= sz -> sz < n + 24 -> split_block s h n = Ret (None, s).
Proof.
  intros Hs Hn Hlt. pose proof (shape_bounds _ _ _ _ _ _ Hs) as Hb.
  destruct (shape_block _ _ _ _ _ _ Hs) as (_ & Hh & _).
  unfold split_block, load_header. rewrite Hh, bind_Ret. cbn [mb_size].
  unfold SIZEOF_HEADER, SIZEOF_FOOTER, SIZEOF_FB. rewrite u32_small by lia.
  destruct (Z.ltb_spec sz (n + 8 + 8 + 8)); [done | lia].
Qed.

(** * The list of free blocks *)

Lemma fmap_unit (fl : list Z) : (map (fun a => (a, tt)) fl).*1 = fl.
Proof. induction fl as [| a fl IH]; [done |]. cbn. by f_equal. Qed.

Lemma flist_push s fl a :
  flist s fl -> a <> 0 -> a ∉ fl ->
  exists f last, list_push (km_fbs s) (km_last_free s) a tt = Ret (f, last) /\
    flist (set_fbs s f last) (a :: fl).
Proof.
  intros [Hl Ho] Ha Hn. destruct (list_push_spec _ _ _ a tt Hl Ha (Ho _ Hn)) as (f & E & Hl' & Hf).
  exists f, a. split; [done |]. split; [done |]. simpl. intros b [Hb Hb']%not_elem_of_cons.
  rewrite Hf; [by apply Ho | done | by rewrite fmap_unit].
Qed.

Lemma flist_unlink s fl a :
  flist s fl -> a ∈ fl ->
  exists f last fl', unlink_free_block s a = Ret (set_fbs s f last) /\
    flist (set_fbs s f last) fl' /\ fl ≡ₚ a :: fl'.
Proof.
  intros [Hl Ho] (l1 & l2 & ->)%list_elem_of_split. rewrite map_app in Hl. simpl in Hl.
  destruct (list_unlink_spec _ _ _ _ _ _ Hl) as (f & last & E & Hl' & Hn & Hf).
  exists f, last, (l1 ++ l2). unfold unlink_free_block. rewrite E, bind_Ret.
  split; [done |]. split; [| by rewrite Permutation_middle].
  split; [by rewrite map_app |]. simpl. intros b Hb. destruct (decide (b = a)) as [-> | Hne]; [done |].
  rewrite Hf; [apply Ho; set_solver |]. change (a, tt) with ((fun a => (a, tt)) a).
  rewrite <- map_cons, <- map_app, fmap_unit. set_solver.
Qed.

(** * Freeing a block *)

Lemma block_type_of_spec s x h sz t y :
  shape s (x ++ (h, (sz, Some t)) :: y) -> block_type_of s h = Ret t.
Proof.
  intros Hs. destruct (shape_block _ _ _ _ _ _ Hs) as (_ & Hh & _).
  unfold block_type_of, load_header. by rewrite Hh.
Qed.

Lemma load_header_spec s x h sz t y :
  shape s (x ++ (h, (sz, t)) :: y) -> load_header s h = Ret (MemBlock sz t).
Proof.
  intros Hs. destruct (shape_block _ _ _ _ _ _ Hs) as (_ & Hh & _). unfold load_header. by rewrite Hh.
Qed.

(** The footer in front of a block leads to the block before it. *)
Lemma PREV_BLOCK_spec s x p psz u h sz t y :
  shape s (x ++ (p, (psz, u)) :: (h, (sz, t)) :: y) -> PREV_BLOCK s h = p /\ km_start s < h.
Proof.
  intros Hs. pose proof (shape_bounds _ _ _ _ _ _ Hs).
  destruct (shape_block _ _ _ _ _ _ Hs) as (_ & _ & Hf & Hz & _ & Hr). destruct Hr as (-> & _).
  split; [| lia]. unfold PREV_BLOCK, SIZEOF_FOOTER, SIZEOF_HEADER.
  replace (p + psz + 16 - 8) with (p + psz + 8) by lia. rewrite Hf. simpl. rewrite u32_small; lia.
Qed.

Lemma node_fresh s x h sz t y :
  shape s (x ++ (h, (sz, t)) :: y) -> h + 8 ∉ frees x ++ frees y.
Proof.
  intros Hs. pose proof (shape_bounds _ _ _ _ _ _ Hs).
  destruct (shape_block _ _ _ _ _ _ Hs) as (Hl & _ & _ & Hz & _ & Hr).
  intros [Hin | Hin]%elem_of_app.
  - apply (frees_bounds _ _ _ _ _ _ Hl) in Hin. lia.
  - apply (frees_bounds _ _ _ _ _ _ Hr) in Hin. lia.
Qed.

(** The block goes to the list. *)
Lemma push_free_spec s x h sz t y fl :
  shape s (x ++ (h, (sz, t)) :: y) -> flist s fl -> fl ≡ₚ frees x ++ frees y ->
  exists s', (s ← set_type s h TYPE_FREE;
     '(f, last) ← list_push (km_fbs s) (km_last_free s) (GET_CONTENT h) tt;
     Ret (h, set_fbs s f last)) = Ret (h, s') /\
    shape s' (x ++ (h, (sz, Some TYPE_FREE)) :: y) /\ flist s' (h + 8 :: fl) /\ same_area s s'.
Proof.
  intros Hs Hfl Hp. pose proof (shape_bounds _ _ _ _ _ _ Hs).
  destruct (NEXT_BLOCK_small h sz) as (_ & _ & ->); [lia .. |].
  destruct (set_type_spec _ _ _ _ _ TYPE_FREE _ Hs) as (s1 & -> & Hs1 & Ha1 & Hl1).
  destruct (flist_push s1 fl (h + 8)) as (f & last & E & Hf).
  - by eapply same_list_flist.
  - lia.
  - rewrite Hp. by eapply node_fresh.
  - rewrite bind_Ret, E, bind_Ret. eexists. split; [done |]. split; [by apply set_fbs_shape |]. done.
Qed.

Definition absorbed_left (x x1 : list block) : Prop := x1 = x \/ exists b, x = x1 ++ [b] /\ is_free b.

Definition absorbed_right (y y1 : list block) : Prop := y1 = y \/ exists b, y = b :: y1 /\ is_free b.

Lemma free_or_merge_spec s x h sz t y fl :
  shape s (x ++ (h, (sz, t)) :: y) -> Forall typed x -> flist s fl -> fl ≡ₚ frees x ++ frees y ->
  exists h1 s1 x1 sz1 fl1, free_or_merge s h = Ret (h1, s1) /\
    shape s1 (x1 ++ (h1, (sz1, Some TYPE_FREE)) :: y) /\
    flist s1 fl1 /\ fl1 ≡ₚ h1 + 8 :: frees x1 ++ frees y /\ same_area s s1 /\ absorbed_left x x1.
Proof.
  intros Hs Hty Hfl Hp. unfold free_or_merge.
  destruct (push_free_spec _ _ _ _ _ _ _ Hs Hfl Hp) as (s' & Epush & Hs' & Hfl' & Ha').
  destruct x as [| [p [psz u]] x _] using rev_ind.
  - destruct (shape_block _ _ _ _ _ _ Hs) as (Hl & _). simpl in Hl. rewrite <- Hl, Z.ltb_irrefl, bind_Ret.
    rewrite Hl, Epush. do 5 eexists. split; [done |]. split; [done |]. split; [done |].
    split; [by rewrite Hp |]. split; [done | by left].
  - apply Forall_app in Hty as [_ [Hu _]%Forall_cons]. unfold typed in Hu. simpl in Hu.
    destruct u as [u |]; [| done]. rewrite <- app_assoc in Hs. simpl in Hs.
    destruct (PREV_BLOCK_spec _ _ _ _ _ _ _ _ _ Hs) as [-> Hlt].
    destruct (Z.ltb_spec (km_start s) h); [| lia].
    rewrite (block_type_of_spec _ _ _ _ _ _ Hs), !bind_Ret. destruct u.
    + rewrite Epush. do 5 eexists. split; [done |]. split; [done |]. split; [done |].
      split; [by rewrite Hp |]. split; [done | by left].
    + rewrite (load_header_spec _ _ _ _ _ _ Hs), bind_Ret.
      rewrite (load_header_spec s (x ++ [(p, (psz, Some TYPE_FREE))]) h sz t y), bind_Ret
        by by rewrite <- app_assoc.
      destruct (set_block_join _ _ _ _ _ _ _ _ _ Hs) as (Hj & Hja & Hjl).
      do 5 eexists. split; [done |]. split; [exact Hj |]. split; [by eapply same_list_flist |].
      split; [| split; [done | right; by eexists]].
      rewrite Hp, frees_app, <- app_assoc. symmetry. apply (Permutation_middle (frees x) (frees y)).
Qed.

Lemma merge_next_spec s x h sz y fl :
  shape s (x ++ (h, (sz, Some TYPE_FREE)) :: y) -> Forall typed y ->
  flist s fl -> fl ≡ₚ h + 8 :: frees x ++ frees y ->
  exists s1 sz1 y1 fl1, merge_next s h true = Ret (h, s1) /\
    shape s1 (x ++ (h, (sz1, Some TYPE_FREE)) :: y1) /\
    flist s1 fl1 /\ fl1 ≡ₚ h + 8 :: frees x ++ frees y1 /\ same_area s s1 /\ absorbed_right y y1.
Proof.
  intros Hs Hty Hfl Hp. pose proof (shape_bounds _ _ _ _ _ _ Hs). unfold merge_next.
  rewrite (load_header_spec _ _ _ _ _ _ Hs), bind_Ret. cbn [mb_size andb].
  destruct (NEXT_BLOCK_small h sz) as (_ & -> & _); [lia .. |].
  destruct (shape_block _ _ _ _ _ _ Hs) as (_ & _ & _ & _ & _ & Hr).
  destruct y as [| [k [m u]] y].
  - simpl in Hr. rewrite Hr, Z.ltb_irrefl. do 4 eexists. split; [done |]. do 3 (split; [done |]).
    split; [done | by left].
  - assert (k = h + sz + 16) as -> by apply Hr. apply Forall_cons in Hty as [Hu _].
    unfold typed in Hu. simpl in Hu. destruct u as [u |]; [| done].
    assert (shape s ((x ++ [(h, (sz, Some TYPE_FREE))]) ++ (h + sz + 16, (m, Some u)) :: y)) as Hs2
      by by rewrite <- app_assoc.
    pose proof (shape_bounds _ _ _ _ _ _ Hs2).
    destruct (Z.ltb_spec (h + sz + 16) (km_end s)); [| lia].
    rewrite (block_type_of_spec _ _ _ _ _ _ Hs2), bind_Ret. destruct u.
    + do 4 eexists. split; [done |]. do 3 (split; [done |]). split; [done | by left].
    + rewrite (load_header_spec _ _ _ _ _ _ Hs2), bind_Ret. cbn [mb_size].
      destruct (NEXT_BLOCK_small (h + sz + 16) m) as (_ & _ & ->); [lia .. |].
      destruct (set_block_join _ _ _ _ _ _ _ _ _ Hs) as (Hj & Hja & Hjl).
      destruct (flist_unlink _ fl (h + sz + 16 + 8) (same_list_flist _ _ _ Hjl Hfl)) as (f & last & fl' & -> & Hf & Hp').
      { rewrite Hp. apply elem_of_cons. right. apply elem_of_app. right. unfold frees. simpl. left. }
      rewrite bind_Ret. do 4 eexists. split; [done |]. split; [apply set_fbs_shape; exact Hj |].
      split; [done |]. split; [| split; [done | right; by eexists]].
      apply (Permutation_cons_inv (a := h + sz + 16 + 8)). rewrite <- Hp', Hp.
      unfold frees at 2. simpl. rewrite <- (Permutation_middle (frees x)). apply Permutation_swap.
Qed.

Lemma frees_middle x h sz y : frees (x ++ (h, (sz, Some TYPE_FREE)) :: y) ≡ₚ h + 8 :: frees x ++ frees y.
Proof. rewrite frees_app. unfold frees at 2. simpl. by rewrite Permutation_middle. Qed.

Lemma absorbed_left_typed x x1 : absorbed_left x x1 -> Forall typed x -> Forall typed x1.
Proof. intros [-> | (b & -> & _)]; [done |]. by intros [? _]%Forall_app. Qed.

Lemma absorbed_right_typed y y1 : absorbed_right y y1 -> Forall typed y -> Forall typed y1.
Proof. intros [-> | (b & -> & _)]; [done |]. by intros [_ ?]%Forall_cons. Qed.

Lemma free_not_used b : is_free b -> is_used b = false.
Proof. intros Hb%bool_decide_unpack. unfold is_used. by rewrite Hb. Qed.

Lemma absorbed_left_used x x1 : absorbed_left x x1 -> used x1 = used x.
Proof.
  intros [-> | (b & -> & Hb)]; [done |]. rewrite used_app. unfold used at 3. simpl.
  by rewrite (free_not_used b Hb), app_nil_r.
Qed.

Lemma absorbed_right_used y y1 : absorbed_right y y1 -> used y1 = used y.
Proof.
  intros [-> | (b & -> & Hb)]; [done |]. unfold used. simpl. by rewrite (free_not_used b Hb).
Qed.

(** [free_block] of the block between [x] and [y]. *)
Lemma free_block_spec s x h sz t y :
  shape s (x ++ (h, (sz, t)) :: y) -> Forall typed x -> Forall typed y -> free_list_is s (x ++ y) ->
  exists h1 s1 x1 sz1 y1, free_block s h true = Ret (h1, s1) /\
    kinv s1 (x1 ++ (h1, (sz1, Some TYPE_FREE)) :: y1) /\
    same_area s s1 /\ absorbed_left x x1 /\ absorbed_right y y1.
Proof.
  intros Hs Hx Hy (fl & Hfl & Hp). rewrite frees_app in Hp.
  destruct (free_or_merge_spec _ _ _ _ _ _ _ Hs Hx Hfl Hp)
    as (h1 & s1 & x1 & sz1 & fl1 & E1 & Hs1 & Hfl1 & Hp1 & Ha1 & Hx1).
  destruct (merge_next_spec _ _ _ _ _ _ Hs1 Hy Hfl1 Hp1)
    as (s2 & sz2 & y1 & fl2 & E2 & Hs2 & Hfl2 & Hp2 & Ha2 & Hy1).
  exists h1, s2, x1, sz2, y1. unfold free_block. rewrite E1, bind_Ret. split; [done |].
  split; [| split; [by eapply same_area_trans | done]]. split; [done | |].
  - apply Forall_app. split; [by eapply absorbed_left_typed |].
    apply Forall_cons. split; [done | by eapply absorbed_right_typed].
  - exists fl2. split; [done |]. by rewrite frees_middle.
Qed.

Lemma used_free_middle x h sz y : used (x ++ (h, (sz, Some TYPE_FREE)) :: y) = used x ++ used y.
Proof. rewrite used_app. by unfold used at 2. Qed.

Lemma used_middle x h sz y : used (x ++ (h, (sz, Some TYPE_USED)) :: y) = used x ++ (h, sz) :: used y.
Proof. rewrite used_app. by unfold used at 2. Qed.

(** * kfree *)

Lemma set_lock_kinv s l bs : kinv s bs -> kinv (set_lock s l) bs.
Proof. intros [[Ht []] Hty Hf]. by split; [split | |]. Qed.

Lemma used_split bs h n :
  (h, n) ∈ used bs -> exists x y, bs = x ++ (h, (n, Some TYPE_USED)) :: y.
Proof.
  unfold used. intros [[b [m t]] [E Hin]]%list_elem_of_fmap. simpl in E. simplify_eq.
  apply list_elem_of_In, filter_In in Hin as [Hin Hu]. apply list_elem_of_In in Hin.
  apply bool_decide_eq_true_1 in Hu. simpl in Hu. subst t. by apply list_elem_of_split.
Qed.

Lemma free_list_used s x h sz y :
  free_list_is s (x ++ (h, (sz, Some TYPE_USED)) :: y) <-> free_list_is s (x ++ y).
Proof. unfold free_list_is. by rewrite !frees_app. Qed.

(** C25: kfree of a block in use gives its memory back: the heap keeps its
    invariant, exactly that block leaves the blocks in use (the others keep
    address and size), and the lock is free again. *)
Theorem kfree_correct s bs h n :
  kinv s bs -> km_lock s = 0 -> (h, n) ∈ used bs ->
  exists s' bs', _kfree s (h + 8) = Ret s' /\ kinv s' bs' /\ used bs ≡ₚ (h, n) :: used bs' /\
    same_area s s'.
Proof.
  intros [Hs Hty Hf] Hlock (x & y & ->)%used_split. pose proof (shape_bounds _ _ _ _ _ _ Hs) as Hb.
  unfold _kfree, SIZEOF_HEADER. destruct (Z.eqb_spec (h + 8) 0); [lia |].
  replace (h + 8 - 8) with h by lia. rewrite u32_small by lia.
  destruct (Z.ltb_spec h (km_start s)), (Z.leb_spec (km_end s) (h + 8)); [lia .. |]. simpl.
  rewrite (block_type_of_spec _ _ _ _ _ _ Hs), !bind_Ret. unfold lock_acquire.
  rewrite Hlock, Z.eqb_refl, bind_Ret.
  destruct (set_lock_kinv s 1 _ {| ki_shape := Hs; ki_typed := Hty; ki_free := Hf |}) as [Hs' _ Hf'].
  apply Forall_app in Hty as [Hx [_ Hy]%Forall_cons]. apply free_list_used in Hf'.
  destruct (free_block_spec _ _ _ _ _ _ Hs' Hx Hy Hf')
    as (h1 & s1 & x1 & sz1 & y1 & -> & Hk & Ha & Hx1 & Hy1).
  rewrite bind_Ret. do 2 eexists. split; [done |]. split; [by apply set_lock_kinv |]. split.
  - rewrite used_middle, used_free_middle, (absorbed_left_used _ _ Hx1), (absorbed_right_used _ _ Hy1).
    by rewrite <- Permutation_middle.
  - destruct Ha as (? & ? & ? & ? & ?). by repeat split.
Qed.

(** * Taking a block from the list *)

Lemma absorbed_left_last_used x h n x1 :
  absorbed_left (x ++ [(h, (n, Some TYPE_USED))]) x1 -> x1 = x ++ [(h, (n, Some TYPE_USED))].
Proof.
  intros [-> | (b & E & Hb)]; [done |]. apply app_inj_tail in E as [_ <-].
  by apply bool_decide_unpack in Hb.
Qed.

(** The first [k] bytes of a block off the list stay, the rest is freed. *)
Lemma carve_spec s x h m t y k :
  shape s (x ++ (h, (m, t)) :: y) -> Forall typed x -> Forall typed y -> free_list_is s (x ++ y) ->
  8 <= k <= m -> k mod 8 = 0 ->
  exists s' n t' y',
    ('(new, s) ← split_block s h k;
     s ← match new with
         | Some new => s ← set_type s h TYPE_USED; '(_, s) ← free_block s new true; Ret s
         | None => Ret s
         end;
     Ret (Some h, s)) = Ret (Some h, s') /\
    shape s' (x ++ (h, (n, t')) :: y') /\ Forall typed y' /\ free_list_is s' (x ++ y') /\
    k <= n /\ used y' = used y /\ same_area s s'.
Proof.
  intros Hs Hx Hy Hf Hk Hk8. destruct (Z_lt_le_dec m (k + 24)) as [Hlt | Hge].
  { rewrite (split_block_small _ _ _ _ _ _ k Hs) by lia. exists s, m, t, y.
    by repeat (split; [done || lia |]). }
  destruct (split_block_spec _ _ _ _ _ _ k Hs) as (s1 & u & -> & Hs1 & Ha1 & Hl1); [lia | done | lia |].
  rewrite bind_Ret. destruct (set_type_spec _ _ _ _ _ TYPE_USED _ Hs1) as (s2 & -> & Hs2 & Ha2 & Hl2).
  rewrite bind_Ret. set (b := (h, (k, Some TYPE_USED))) in *.
  assert (shape s2 ((x ++ [b]) ++ (h + k + 16, (m - k - 16, u)) :: y)) as Hs2'
    by by rewrite <- app_assoc.
  destruct (free_block_spec _ _ _ _ _ _ Hs2') as (h1 & s3 & x1 & sz1 & y1 & -> & Hk3 & Ha3 & Hx1 & Hy1).
  - apply Forall_app. split; [done |]. by apply Forall_singleton.
  - done.
  - rewrite <- app_assoc. apply free_list_used. destruct Hf as (fl & Hfl & Hp). exists fl.
    split; [| done]. by do 2 (eapply same_list_flist; [done |]).
  - rewrite !bind_Ret. apply absorbed_left_last_used in Hx1 as ->. rewrite <- app_assoc in Hk3.
    destruct Hk3 as [Hs3 Hty3 Hf3]. simpl in Hs3, Hty3, Hf3.
    apply Forall_app in Hty3 as [_ [_ Hty3]%Forall_cons]. apply free_list_used in Hf3.
    exists s3, k, (Some TYPE_USED), ((h1, (sz1, Some TYPE_FREE)) :: y1).
    do 4 (split; [done |]). split; [lia |].
    split; [by apply (absorbed_right_used _ _ Hy1) |].
    eapply same_area_trans; [exact Ha1 |]. by eapply same_area_trans.
Qed.

(** [get_alignment_offset]: what is missing to the next page, and enough for a
    block of its own. *)
Lemma alignment_offset_spec h :
  0 <= h -> h mod 8 = 0 -> h + 0x4000 <= 2 ^ 32 ->
  let off := get_alignment_offset h in
  (h + 8 + off) mod PAGE_SIZE = 0 /\ off mod 8 = 0 /\ (off = 0 \/ 0x100 <= off < 0x1100).
Proof.
  intros H0 H8 Hw off. subst off. unfold get_alignment_offset.
  assert (GET_CONTENT h = h + 8) as -> by (unfold GET_CONTENT, SIZEOF_HEADER; rewrite u32_small; lia).
  change (PAGE_SIZE - 1) with (Z.ones 12). rewrite Z.land_ones by lia.
  change PAGE_SIZE with (2 ^ 12). destruct (nz _) eqn:E.
  2: { apply nz_false in E. rewrite Z.add_0_r. repeat split; [done | by left]. }
  destruct (ALIGN_spec 12 (h + 8)) as [Hal Hm]; [lia .. |]. set (c := ALIGN (h + 8) (2 ^ 12)) in *.
  rewrite (u32_small (c - (h + 8))) by lia. apply nz_true in E.
  assert (c mod 8 = 0) as Hc8.
  { rewrite (Z.div_mod c (2 ^ 12)), Hm by lia. rewrite Z.add_0_r.
    replace (2 ^ 12 * (c / 2 ^ 12)) with (c / 2 ^ 12 * 512 * 8) by lia. apply Z_mod_mult. }
  assert ((c - (h + 8)) mod 8 = 0) as Ho8 by auto with xelix.
  destruct (Z.ltb_spec (c - (h + 8)) 0x100).
  - rewrite u32_small by lia. replace (h + 8 + (c - (h + 8) + 2 ^ 12)) with (c + 1 * 2 ^ 12) by lia.
    rewrite Z_mod_plus_full. split; [done |]. split; [by apply mod8_add |]. right. lia.
  - replace (h + 8 + (c - (h + 8))) with c by lia. split; [done |]. split; [done |]. right.
    lia.
Qed.

(** The size a free block at [h] must have for an allocation of [sz]. *)
Definition needed (sz : Z) (align : bool) (h : Z) : Z :=
  if align then sz + get_alignment_offset h + 16 else sz.

Definition offset (align : bool) (h : Z) : Z := if align then get_alignment_offset h else 0.

Section Search.
Context (s : kheap) (bs : list block) (sz : Z) (align : bool).
Context (Hinv : kinv s bs) (Hsz : 8 <= sz) (Hsz8 : sz mod 8 = 0) (Hroom : km_max s + sz + 0x8000 <= 2 ^ 32).

(** The block that is found, and the state it leaves. *)
Definition found_block (h : Z) (s' : kheap) : Prop :=
  exists x m y n t y', bs = x ++ (h, (m, Some TYPE_FREE)) :: y /\
    shape s' (x ++ (h, (n, t)) :: y') /\ Forall typed x /\ Forall typed y' /\ free_list_is s' (x ++ y') /\
    sz + offset align h <= n /\ used y' = used y /\ same_area s s'.

Lemma frees_split (z : Z) : z ∈ frees bs -> exists x h m y, z = h + 8 /\ bs = x ++ (h, (m, Some TYPE_FREE)) :: y.
Proof.
  unfold frees. intros [[b [m t]] [-> Hin]]%list_elem_of_fmap.
  apply list_elem_of_In, filter_In in Hin as [Hin Hu]. apply list_elem_of_In in Hin.
  apply bool_decide_eq_true_1 in Hu. simpl in Hu. subst t.
  apply list_elem_of_split in Hin as (x & y & ->). by exists x, b, m, y.
Qed.

(** The body of the loop on a block that is big enough. *)
Lemma take_block_spec x h m y :
  bs = x ++ (h, (m, Some TYPE_FREE)) :: y -> needed sz align h <= m ->
  exists s',
    (s ← unlink_free_block s (h + 8);
     '(new, s) ← split_block s h (u32 (sz + offset align h));
     s ← match new with
         | Some new => s ← set_type s h TYPE_USED; '(_, s) ← free_block s new true; Ret s
         | None => Ret s
         end;
     Ret (Some h, s)) = Ret (Some h, s') /\ found_block h s'.
Proof.
  intros Ebs Hn. destruct Hinv as [Hs Hty (fl & Hfl & Hp)]. rewrite Ebs in Hs, Hty, Hp.
  pose proof (shape_bounds _ _ _ _ _ _ Hs) as Hb. rewrite frees_middle in Hp.
  destruct (flist_unlink s fl (h + 8) Hfl) as (f & last & fl' & -> & Hfl' & Hp').
  { rewrite Hp. left. }
  rewrite bind_Ret. apply Forall_app in Hty as [Hx [_ Hy]%Forall_cons].
  assert (offset align h mod 8 = 0 /\ 0 <= offset align h < 0x1100 /\ sz + offset align h <= m) as (Ho8 & Ho & Hm).
  { unfold offset, needed in *. destruct align; [| split; [done | lia]].
    destruct (alignment_offset_spec h) as (_ & ? & ?); lia. }
  rewrite u32_small by (destruct Hs as [_ []]; lia).
  destruct (carve_spec (set_fbs s f last) x h m (Some TYPE_FREE) y (sz + offset align h))
    as (s' & n & t' & y' & -> & Hs' & Hy' & Hf' & Hk & Hu & Ha).
  - by apply set_fbs_shape.
  - done.
  - done.
  - exists fl'. split; [done |]. rewrite frees_app.
    apply (Permutation_cons_inv (a := h + 8)). by rewrite <- Hp', Hp.
  - lia.
  - by apply mod8_add.
  - exists s'. split; [done |]. exists x, m, y, n, t', y'. done.
Qed.

Lemma get_free_loop_spec (l : list Z) :
  forall fuel fb pr last, lseg (km_fbs s) pr fb (map (fun a => (a, tt)) l) last 0 ->
  Forall (fun z => z ∈ frees bs) l -> (length l < fuel)%nat ->
  (get_free_loop fuel s sz align fb = Ret (None, s) /\
   forall x h m y, h + 8 ∈ l -> bs = x ++ (h, (m, Some TYPE_FREE)) :: y -> m < needed sz align h) \/
  exists h s', get_free_loop fuel s sz align fb = Ret (Some h, s') /\ found_block h s'.
Proof.
  induction l as [| z l IH]; intros fuel fb pr last Hl Hin Hfuel; (destruct fuel as [| fuel]; [simpl in *; lia |]).
  - destruct Hl as [-> _]. left. split; [done |]. intros x h m y Hz. by apply not_elem_of_nil in Hz.
  - apply Forall_cons in Hin as [Hz Hin]. destruct Hl as (-> & Hz0 & nx & Hnode & Hl).
    destruct (frees_split _ Hz) as (x & h & m & y & -> & Ebs).
    destruct (Hinv) as [Hs _ _]. rewrite Ebs in Hs. pose proof (shape_bounds _ _ _ _ _ _ Hs) as Hb.
    cbn [get_free_loop]. destruct (Z.eqb_spec (h + 8) 0); [done |]. unfold SIZEOF_HEADER.
    replace (h + 8 - 8) with h by lia. rewrite (u32_small h) by lia.
    unfold load_node. rewrite Hnode, bind_Ret.
    rewrite (load_header_spec _ _ _ _ _ _ Hs), bind_Ret, (block_type_of_spec _ _ _ _ _ _ Hs), bind_Ret.
    change (if align then get_alignment_offset h else 0) with (offset align h). cbn [mb_size nd_next].
    assert ((if align then u32 (sz + offset align h + 8 + SIZEOF_FOOTER) else sz) = needed sz align h) as ->.
    { unfold needed, offset, SIZEOF_FOOTER. destruct align; [| done].
      destruct (alignment_offset_spec h) as (_ & _ & ?); [lia .. |]. destruct Hs as [_ []].
      rewrite u32_small; lia. }
    destruct (Z.leb_spec (needed sz align h) m) as [Hle | Hgt].
    + right. exists h. destruct (take_block_spec x h m y Ebs Hle) as (s' & E & Hfound). by exists s'.
    + simpl in Hfuel. destruct (IH fuel nx (h + 8) last Hl Hin ltac:(lia)) as [[-> Hno] | Hyes]; [left | by right].
      split; [done |]. intros x' h' m' y' [E | Hin']%elem_of_cons Ebs'; [| by eapply Hno].
      assert (h' = h) as -> by lia. destruct (Hinv) as [Hs' _ _]. rewrite Ebs' in Hs'.
      pose proof (load_header_spec _ _ _ _ _ _ Hs) as E1.
      pose proof (load_header_spec _ _ _ _ _ _ Hs') as E2. rewrite E1 in E2. by injection E2 as <-.
Qed.

Lemma get_free_block_spec :
  (get_free_block s sz align = Ret (None, s) /\
   forall x h m y, bs = x ++ (h, (m, Some TYPE_FREE)) :: y -> m < needed sz align h) \/
  exists h s', get_free_block s sz align = Ret (Some h, s') /\ found_block h s'.
Proof.
  destruct (Hinv) as [_ _ (fl & [Hr _] & Hp)]. pose proof (list_rep_length _ _ _ Hr) as Hlen.
  rewrite length_map in Hlen. destruct Hr as [_ [last Hl]].
  destruct (get_free_loop_spec fl (S (size (km_fbs s))) _ _ _ Hl) as [[E Hno] | Hyes].
  - apply Forall_forall. intros z Hz. by rewrite <- Hp.
  - lia.
  - left. split; [exact E |]. intros x h m y Ebs. apply (Hno x h m y); [| done].
    rewrite Hp, Ebs, frees_middle. left.
  - by right.
Qed.

(** A new block at the end. *)
Lemma append_block_spec :
  km_end s + sz < km_max s ->
  exists s' t, append_block s sz align (offset align (km_end s)) = Ret (km_end s, s') /\
    shape s' (bs ++ [(km_end s, (sz + offset align (km_end s), t))]) /\ free_list_is s' bs /\
    km_start s' = km_start s /\ km_max s' = km_max s /\ km_lock s' = km_lock s /\ km_ready s' = km_ready s.
Proof.
  intros Hroom'. destruct (Hinv) as [[Ht [H1 H2 H3 H4 H5]] _ Hf].
  pose proof (tiles_le _ _ _ _ _ Ht). pose proof (tiles_aligned _ _ _ _ _ Ht H2) as He.
  unfold append_block. rewrite (u32_small (km_end s + sz)) by lia.
  destruct (Z.leb_spec (km_max s) (km_end s + sz)); [lia |].
  assert (offset align (km_end s) mod 8 = 0 /\ 0 <= offset align (km_end s) < 0x1100) as [Ho8 Ho].
  { unfold offset. destruct align; [| split; [done | lia]].
    destruct (alignment_offset_spec (km_end s)) as (_ & ? & ?); lia. }
  assert ((if align && nz (offset align (km_end s)) then u32 (sz + get_alignment_offset (km_end s)) else sz)
    = sz + offset align (km_end s)) as ->.
  { unfold offset in *. destruct align; simpl; [| lia]. destruct (nz _) eqn:E.
    - rewrite u32_small; lia.
    - apply nz_false in E. lia. }
  set (n := sz + offset align (km_end s)) in *. set (h := km_end s) in *.
  destruct (NEXT_BLOCK_small h n) as (Hfo & _ & _); [lia .. |].
  cbv zeta. rewrite Hfo. unfold SIZEOF_FOOTER. rewrite (u32_small (h + n + 8 + 8)) by lia.
  replace (h + n + 8 + 8) with (h + n + 16) by lia.
  do 2 eexists. split; [done |]. split; [| split; [exact Hf | done]].
  change (set_end (set_block s n h) (h + n + 16)) with (set_block (set_end s (h + n + 16)) n h).
  apply set_block_spec; [done | lia | by apply mod8_add | done |]. split; simpl; lia || done.
Qed.

End Search.

Lemma absorbed_right_head_used y h n y1 :
  absorbed_right ((h, (n, Some TYPE_USED)) :: y) y1 -> y1 = (h, (n, Some TYPE_USED)) :: y.
Proof.
  intros [-> | (b & E & Hb)]; [done |]. injection E as <- _. by apply bool_decide_unpack in Hb.
Qed.

(** * kmalloc *)

(** The block of a successful allocation of [sz] in the state [s']. *)
Definition allocated s s' (before : list (Z * Z)) (sz : Z) (align : bool) (p : Z) : Prop :=
  exists bs' n, kinv s' bs' /\ used bs' ≡ₚ (p - 8, n) :: before /\ sz <= n /\
    p mod 8 = 0 /\ (align = true -> p mod PAGE_SIZE = 0) /\ km_lock s' = 0 /\
    km_start s' = km_start s /\ km_max s' = km_max s /\ km_ready s' = km_ready s.

Lemma free_list_same s s' bs : same_list s s' -> free_list_is s bs -> free_list_is s' bs.
Proof. intros Hl (fl & Hfl & Hp). exists fl. split; [by eapply same_list_flist | done]. Qed.

(** The end of [_kmalloc]: the block is marked as used. *)
Lemma mark_used_spec s x h n t y :
  shape s (x ++ (h, (n, t)) :: y) -> Forall typed x -> Forall typed y -> free_list_is s (x ++ y) ->
  exists s', (if h =? 0 then Ret (0, s) else
      s ← set_type s h TYPE_USED;
      Ret (GET_CONTENT h, set_lock s (spinlock_release (km_lock s)))) = Ret (h + 8, s') /\
    kinv s' (x ++ (h, (n, Some TYPE_USED)) :: y) /\ km_lock s' = 0 /\
    km_start s' = km_start s /\ km_max s' = km_max s /\ km_ready s' = km_ready s.
Proof.
  intros Hs Hx Hy Hf. pose proof (shape_bounds _ _ _ _ _ _ Hs) as Hb.
  destruct (Z.eqb_spec h 0); [lia |].
  destruct (set_type_spec _ _ _ _ _ TYPE_USED _ Hs) as (s1 & -> & Hs1 & Ha1 & Hl1).
  destruct (NEXT_BLOCK_small h n) as (_ & _ & ->); [lia .. |].
  rewrite bind_Ret. eexists. split; [done |]. split.
  - apply set_lock_kinv. split; [done | |].
    + apply Forall_app. split; [done |]. by apply Forall_cons.
    + apply free_list_used. by eapply free_list_same.
  - split; [done |]. by destruct Ha1 as (? & ? & ? & ? & ?).
Qed.

(** The front of a block is split off and freed, so that the rest is aligned. *)
Lemma align_block_split s x h n t y off :
  shape s (x ++ (h, (n, t)) :: y) -> Forall typed x -> Forall typed y -> free_list_is s (x ++ y) ->
  0x100 <= off < 0x1100 -> off mod 8 = 0 -> off + 8 <= n ->
  exists s' x' f, align_block s h true off = Ret (h + off, s') /\
    kinv s' (x' ++ f :: (h + off, (n - off, Some TYPE_USED)) :: y) /\
    used (x' ++ [f]) = used x /\ same_area s s'.
Proof.
  intros Hs Hx Hy Hf Ho Ho8 Hn. pose proof (shape_bounds _ _ _ _ _ _ Hs) as Hb. unfold align_block.
  rewrite (proj2 (nz_true off)) by lia. cbn [andb]. unfold SIZEOF_HEADER, SIZEOF_FOOTER.
  rewrite u32_small by lia. replace (off - 8 - 8) with (off - 16) by lia.
  destruct (split_block_spec _ _ _ _ _ _ (off - 16) Hs) as (s1 & u & -> & Hs1 & Ha1 & Hl1);
    [lia | by apply mod8_sub | lia |]. rewrite bind_Ret.
  replace (h + (off - 16) + 16) with (h + off) in * by lia.
  replace (n - (off - 16) - 16) with (n - off) in * by lia.
  destruct (set_type_spec s1 (x ++ [(h, (off - 16, t))]) (h + off) (n - off) u TYPE_USED y)
    as (s2 & -> & Hs2 & Ha2 & Hl2); [by rewrite <- app_assoc |].
  rewrite <- app_assoc in Hs2. rewrite bind_Ret.
  destruct (free_block_spec _ _ _ _ _ _ Hs2) as (h1 & s3 & x1 & sz1 & y1 & -> & Hk & Ha3 & Hx1 & Hy1).
  - done.
  - apply Forall_cons. done.
  - apply free_list_used. by do 2 (eapply free_list_same; [done |]).
  - apply absorbed_right_head_used in Hy1 as ->. rewrite bind_Ret. do 3 eexists. split; [done |].
    split; [exact Hk |]. split.
    + rewrite used_free_middle, app_nil_r. by apply absorbed_left_used.
    + eapply same_area_trans; [exact Ha1 |]. by eapply same_area_trans.
Qed.

(** From the block that was chosen to the address that is returned. *)
Lemma align_block_spec s x h n t y sz align :
  shape s (x ++ (h, (n, t)) :: y) -> Forall typed x -> Forall typed y -> free_list_is s (x ++ y) ->
  8 <= sz -> sz + offset align h <= n ->
  exists p s', ('(header, s) ← align_block s h align (offset align h);
      if header =? 0 then Ret (0, s) else
      s ← set_type s header TYPE_USED;
      Ret (GET_CONTENT header, set_lock s (spinlock_release (km_lock s)))) = Ret (p, s') /\
    allocated s s' (used x ++ used y) sz align p.
Proof.
  intros Hs Hx Hy Hf Hsz Hn. pose proof (shape_bounds _ _ _ _ _ _ Hs) as Hb.
  assert (align = true -> (h + 8 + offset align h) mod PAGE_SIZE = 0 /\ offset align h mod 8 = 0 /\
    (offset align h = 0 \/ 0x100 <= offset align h < 0x1100)) as Hoff.
  { intros ->. apply alignment_offset_spec; lia. }
  destruct (decide (offset align h = 0)) as [Ho | Ho].
  - unfold align_block. rewrite Ho, andb_false_r, bind_Ret.
    destruct (mark_used_spec _ _ _ _ _ _ Hs Hx Hy Hf) as (s1 & -> & Hk & Ha).
    do 2 eexists. split; [done |]. exists (x ++ (h, (n, Some TYPE_USED)) :: y), n. split; [done |].
    replace (h + 8 - 8) with h by lia. rewrite used_middle. split; [by rewrite <- Permutation_middle |].
    split; [lia |]. split; [apply mod8_add; [lia | done] |]. split; [| done].
    intros Hal. destruct (Hoff Hal) as (Hpg & _). by rewrite Ho, Z.add_0_r in Hpg.
  - assert (align = true) as -> by by destruct align. destruct (Hoff eq_refl) as (Hpg & Ho8 & Hr).
    set (off := offset true h) in *.
    destruct (align_block_split s x h n t y off) as (s1 & x1 & f & -> & [Hs1 Hty1 Hf1] & Hu & Ha); [done .. | | done | |].
    1, 2: lia.
    rewrite bind_Ret. rewrite cons_middle, app_assoc in Hs1, Hty1, Hf1.
    apply Forall_app in Hty1 as [Hx1 _]. apply free_list_used in Hf1.
    destruct (mark_used_spec _ _ _ _ _ _ Hs1 Hx1 Hy Hf1) as (s2 & -> & Hk & Hl & E1 & E2 & E3).
    do 2 eexists. split; [done |]. eexists _, (n - off). split; [exact Hk |].
    replace (h + off + 8 - 8) with (h + off) by lia. replace (h + off + 8) with (h + 8 + off) by lia.
    rewrite used_middle, Hu. split; [by rewrite <- Permutation_middle |].
    split; [lia |]. split; [apply mod8_add; [apply mod8_add; [lia | done] | done] |]. split; [done |].
    destruct Ha as (? & ? & ? & ? & ?). repeat split; congruence.
Qed.

(** Blocks of a tiling that are in use do not overlap. *)
Lemma used_bounds H F a bs e h n : tiles H F a bs e -> (h, n) ∈ used bs -> a <= h /\ h + n + 16 <= e.
Proof.
  intros Ht (x & y & ->)%used_split. apply tiles_app in Ht as (m & Hx & -> & _ & _ & _ & _ & Hy).
  apply tiles_le in Hx, Hy. lia.
Qed.

Lemma used_disjoint s bs h n k m :
  kinv s bs -> [(h, n); (k, m)] ⊆+ used bs -> h + n + 16 <= k \/ k + m + 16 <= h.
Proof.
  intros [[Ht _] _ _]. revert Ht. generalize (km_start s) as a. induction bs as [| [b [sz t]] bs IH]; intros a Ht Hsub.
  { apply submseteq_nil_r in Hsub. done. }
  destruct Ht as (-> & _ & _ & Hz & _ & Ht). pose proof (tiles_le _ _ _ _ _ Ht) as Hle.
  change (used ((a, (sz, t)) :: bs)) with (used ([(a, (sz, t))] ++ bs)) in Hsub. rewrite used_app in Hsub.
  unfold used at 1 in Hsub. simpl in Hsub. destruct (is_used _); simpl in Hsub; [| by eapply IH].
  apply submseteq_cons_r in Hsub as [Hsub | (l & E & Hsub)]; [by eapply IH |].
  assert ([(h, n); (k, m)] ≡ₚ (a, sz) :: l) as E2 by done.
  assert (forall q r, (q, r) ∈ l -> a + sz + 16 <= q) as Hl.
  { intros q r Hin. apply (used_bounds _ _ _ _ _ _ _ Ht (elem_of_submseteq _ _ _ Hin Hsub)). }
  apply Permutation_length_2_inv in E2 as [E2 | E2]; injection E2 as -> -> ->; [left | right]; eapply Hl; left.
Qed.

Lemma allocated_disjoint s s' before sz align p q m :
  allocated s s' before sz align p -> (q, m) ∈ before -> p + sz <= q \/ q + 8 + m <= p.
Proof.
  intros (bs' & n & Hk & Hu & Hn & _) (l1 & l2 & ->)%list_elem_of_split.
  destruct (used_disjoint s' bs' (p - 8) n q m Hk); [| lia ..].
  rewrite Hu, <- Permutation_middle. apply submseteq_skip, submseteq_skip, submseteq_nil_l.
Qed.

Lemma kmalloc_cases s bs sz align zero :
  kinv s bs -> km_lock s = 0 -> km_ready s = true ->
  0 <= sz -> km_max s + sz + 0x9000 <= 2 ^ 32 ->
  (_kmalloc s sz align zero = Panic /\ km_max s <= km_end s + Z.max (ALIGN sz 8) 8 /\
   forall x h m y, bs = x ++ (h, (m, Some TYPE_FREE)) :: y -> m < needed (Z.max (ALIGN sz 8) 8) align h) \/
  exists p s', _kmalloc s sz align zero = Ret (p, s') /\ allocated s s' (used bs) sz align p.
Proof.
  intros Hk Hl Hr Hsz Hmax.
  destruct (ALIGN_spec 3 sz) as [Hal Hm]; [lia | lia | |].
  { destruct Hk as [[_ []] _ _]. lia. }
  change (2 ^ 3) with 8 in *. unfold _kmalloc. rewrite Hr, Hl. unfold lock_acquire.
  rewrite MAX_spec, Z.eqb_refl, bind_Ret. cbn [negb]. unfold SIZEOF_FB.
  assert (Z.max (ALIGN sz 8) 8 mod 8 = 0) as Hm8 by (destruct (Z.max_spec (ALIGN sz 8) 8) as [[_ ->] | [_ ->]]; done).
  set (n := Z.max (ALIGN sz 8) 8) in *. apply (set_lock_kinv s 1) in Hk.
  assert (8 <= n /\ sz <= n /\ km_max s + n + 0x8000 <= 2 ^ 32) as (Hn & Hszn & Hmaxn)
    by (destruct (Hk) as [[_ [? ? ? ? ?]] _ _]; simpl in *; lia).
  clearbody n. set (s0 := set_lock s 1) in *.
  destruct (get_free_block_spec s0 bs n align Hk Hn Hm8 Hmaxn) as [[-> Hno] | (h & s1 & -> & Hfound)];
    rewrite bind_Ret.
  - change (if align then _ else 0) with (offset align (km_end s0)).
    destruct (Z_lt_le_dec (km_end s0 + n) (km_max s0)) as [Hlt | Hge].
    + right. destruct (append_block_spec s0 bs n align Hk Hn Hm8 Hmaxn Hlt) as (s1 & t & -> & Hs1 & Hf1 & E).
      rewrite bind_Ret. destruct (align_block_spec s1 bs (km_end s0) (n + offset align (km_end s0)) t [] n align)
        as (p & s2 & -> & (bs' & m & Hk2 & Hu & Hsz2 & Hrest)); [done | apply Hk | done | by rewrite app_nil_r | lia | lia |].
      exists p, s2. split; [done |]. exists bs', m. rewrite app_nil_r in Hu. split; [done |]. split; [done |].
      split; [lia |]. destruct E as (E1 & E2 & E3 & E4). rewrite E1, E2, E4 in Hrest. done.
    + left. split; [| done]. unfold append_block. destruct (Hk) as [[Ht [? ? ? ? ?]] _ _].
      pose proof (tiles_le _ _ _ _ _ Ht). rewrite (u32_small (km_end s0 + n)) by (simpl in *; lia).
      destruct (Z.leb_spec (km_max s0) (km_end s0 + n)); [done | lia].
  - right. change (if align then _ else 0) with (offset align h). rewrite bind_Ret.
    destruct Hfound as (x & m & y & k & t & y' & -> & Hs1 & Hx & Hy & Hf1 & Hk1 & Hu1 & E).
    destruct (align_block_spec s1 x h k t y' n align Hs1 Hx Hy Hf1 Hn Hk1)
        as (p & s2 & -> & (bs' & j & Hk2 & Hu & Hsz2 & Hrest)).
    exists p, s2. split; [done |]. exists bs', j. rewrite used_free_middle, <- Hu1.
    split; [done |]. split; [done |].
    split; [lia |]. destruct E as (E1 & E2 & E3 & E4 & E5). rewrite E1, E3, E5 in Hrest. done.
Qed.

(** C1: kmalloc of any size that fits the address space either panics, and then
    no free block is large enough and the end of the heap is reached; or it
    returns a block of at least that size: the heap keeps its invariant, the
    blocks in use are exactly the old ones, unmoved, and the new one, the
    address is a multiple of 8, and of the page size when that is asked for,
    and the new memory overlaps that of no block in use. *)
Theorem kmalloc_correct s bs sz align zero :
  kinv s bs -> km_lock s = 0 -> km_ready s = true ->
  0 <= sz -> km_max s + sz + 0x9000 <= 2 ^ 32 ->
  (_kmalloc s sz align zero = Panic /\ km_max s <= km_end s + Z.max (ALIGN sz 8) 8 /\
   forall x h m y, bs = x ++ (h, (m, Some TYPE_FREE)) :: y -> m < needed (Z.max (ALIGN sz 8) 8) align h) \/
  exists p s', _kmalloc s sz align zero = Ret (p, s') /\ allocated s s' (used bs) sz align p /\
    forall q m, (q, m) ∈ used bs -> p + sz <= q \/ q + 8 + m <= p.
Proof.
  intros Hk Hl Hr Hsz Hmax.
  destruct (kmalloc_cases s bs sz align zero Hk Hl Hr Hsz Hmax) as [? | (p & s' & E & Ha)]; [by left | right].
  exists p, s'. split; [done |]. split; [done |]. intros q m. by eapply allocated_disjoint.
Qed.

(** * The heap at the start *)

(** [kmalloc_init] gives an empty heap. *)
Lemma kmalloc_init_inv start :
  8 <= start -> start mod 8 = 0 -> start + 0x3200 * PAGE_SIZE + 0x8000 <= 2 ^ 32 ->
  exists s, kmalloc_init start = Ret s /\ kinv s [] /\ km_lock s = 0 /\ km_ready s = true.
Proof.
  unfold PAGE_SIZE. intros H1 H2 H3. unfold kmalloc_init. destruct (Z.eqb_spec start 0); [lia |].
  unfold PAGE_SIZE. rewrite u32_small by lia.
  eexists. split; [done |]. split; [| done]. split; [| constructor | exists []].
  - split; [done |]. split; simpl; lia || done.
  - split; [| done]. split; [apply list_rep_nil |]. done.
Qed.

Definition heap0 : kheap := Kheap ∅ ∅ ∅ 0 0x1000000 0x1000000 0x4200000 0 true.

Definition heap_of {A} (o : outcome (A * kheap)) : kheap :=
  match o with Ret (_, s) => s | _ => heap0 end.

(** One block of 104 bytes. *)
Definition heap1 : kheap := heap_of (_kmalloc heap0 100 false false).

Lemma heap0_inv : kinv heap0 [].
Proof.
  destruct (kmalloc_init_inv 0x1000000) as (s & E & Hk & _); [lia | done | unfold PAGE_SIZE; lia |].
  injection E as <-. exact Hk.
Qed.

Lemma heap1_inv : kinv heap1 [(0x1000000, (104, Some TYPE_USED))].
Proof.
  split; [split | by apply Forall_singleton | exists []; split; [split; [apply list_rep_nil |] |]].
  - repeat split; vm_compute; congruence.
  - split; vm_compute; congruence.
  - intros a _. vm_compute. by destruct a as [| p | p]; [| destruct p |].
  - done.
Qed.

Lemma kmalloc_correct_witness :
  exists p s', _kmalloc heap1 100 true false = Ret (p, s') /\ allocated heap1 s' [(0x1000000, 104)] 100 true p.
Proof.
  destruct (kmalloc_correct heap1 [(0x1000000, (104, Some TYPE_USED))] 100 true false)
    as [[E _] | (p & s' & E & Ha & _)].
  - apply heap1_inv.
  - vm_compute. reflexivity.
  - vm_compute. reflexivity.
  - lia.
  - vm_compute. congruence.
  - vm_compute in E. discriminate.
  - exists p, s'. split; [exact E | exact Ha].
Defined.

Lemma kfree_correct_witness :
  exists s' bs', _kfree heap1 0x1000008 = Ret s' /\ kinv s' bs' /\
    [(0x1000000, 104)] ≡ₚ (0x1000000, 104) :: used bs' /\ same_area heap1 s'.
Proof.
  apply (kfree_correct heap1 [(0x1000000, (104, Some TYPE_USED))] 0x1000000 104).
  - apply heap1_inv.
  - vm_compute. reflexivity.
  - vm_compute. left.
Defined.

(** * Where the allocator falls short *)

(** [krealloc] copies the size of the old block, also when the new one is
    smaller: 104 bytes go to a block of 8. *)
Lemma krealloc_shrink_overflows :
  exists s', _krealloc heap1 0x1000008 8 = Ret (0x1000080, 104, s') /\
    load_header s' (0x1000080 - 8) = Ret (MemBlock 8 (Some TYPE_USED)).
Proof. eexists. split; vm_compute; reflexivity. Qed.

(** The check for room ignores header and footer: the block ends past
    [alloc_max]. *)
Lemma kmalloc_exceeds_area :
  let s := Kheap ∅ ∅ ∅ 0 0x1000000 0x1000000 0x1000010 0 true in
  exists s', _kmalloc s 8 false false = Ret (0x1000008, s') /\ km_max s' < km_end s'.
Proof. eexists. split; vm_compute; reflexivity. Qed.

(** Rounding up wraps: a request of almost 4 GiB gets 8 bytes. *)
Lemma kmalloc_huge_wraps :
  exists s', _kmalloc heap0 0xfffffff9 false false = Ret (0x1000008, s') /\
    load_header s' 0x1000000 = Ret (MemBlock 8 (Some TYPE_USED)).
Proof. eexists. split; vm_compute; reflexivity. Qed.
