(* ===== verification/Vm.v ===== *)
(** Virtual memory: the page tables of src/src/mem/i386-paging.c and the memory
    contexts of src/src/mem/vm.c.

    A context has a bitmap of its virtual pages and a list of ranges, the
    allocations in it; the list is a list of DList.v whose objects live in
    [w_ranges].  A page directory and a page table are maps from the index to
    the entry; an entry that is not in the map has never been set, its memory
    is zero.  Page tables are known by their physical address, which is what a
    directory entry holds; the code writes to them through the kernel's mapping
    of that memory, and faults when there is none.  [w_supply] has the
    addresses [kmalloc] hands out next; the shards of a mapping are a list.  What else is stored in memory is not
    part of the model, neither is the processor's cache of the page tables. *)
From stdpp Require Import base numbers list gmap.
From Stdlib Require Import ZArith Lia Bool.
From S2P Require Import Prelude Spinlock Bitmap PageAlloc DList.

Open Scope Z_scope.

Definition VM_RW : Z := 1.
Definition VM_USER : Z := 2.
Definition VM_FREE : Z := 4.
Definition VM_TFORK : Z := 8.
Definition VM_NOCOW : Z := 16.
Definition VM_ZERO : Z := 32.
Definition VM_MAP_USER_ONLY : Z := 512.
Definition VM_FIXED : Z := 1024.
Definition VM_MAP_LESS_OK : Z := 2048.

Definition CLEANUP_FLAGS (x : Z) : Z :=
  Z.land x (Z.lor VM_RW (Z.lor VM_USER (Z.lor VM_FREE (Z.lor VM_TFORK VM_NOCOW)))).

(** [struct page]; the bits the code does not use are left out. *)
Record page : Type := Page {
  pg_present : bool;
  pg_rw : bool;
  pg_user : bool;
  pg_frame : Z;
}.

Definition zero_page : page := Page false false false 0.

(** [struct vm_alloc_shard] *)
Record vm_alloc_shard : Type := Shard { sh_addr : Z; sh_phys : Z }.

(** [vm_alloc_t]; [self] is the address of the object, [next] and [previous]
    are in its node. *)
Record vm_range : Type := Range {
  vr_ctx : Z;
  vr_addr : Z;
  vr_size : Z;
  vr_flags : Z;
  vr_shards : list vm_alloc_shard;
  vr_phys : Z;
}.

Record vm_ctx : Type := VmCtx {
  vc_lock : Z;
  vc_bitmap : bitmap;
  vc_ranges : Z;
  vc_page_dir : Z;
  vc_page_dir_phys : Z;
}.

Record vmworld : Type := World {
  w_ctxs : gmap Z vm_ctx;
  w_ranges : dheap vm_range;
  w_phys : mem_page_alloc_ctx;
  w_dirs : gmap (Z * Z) page;
  w_tables : gmap (Z * Z) page;
  w_alloc_end : Z;
  w_supply : list Z;
  w_kmalloc_ready : bool;
  w_have_ranges : Z;
}.

Implicit Types w : vmworld.

(** The address of [vm_kernel_ctx]. *)
Definition VM_KERNEL : Z := 0x1000.

Definition set_ctxs w c : vmworld :=
  World c (w_ranges w) (w_phys w) (w_dirs w) (w_tables w) (w_alloc_end w) (w_supply w)
    (w_kmalloc_ready w) (w_have_ranges w).
Definition set_ranges w r : vmworld :=
  World (w_ctxs w) r (w_phys w) (w_dirs w) (w_tables w) (w_alloc_end w) (w_supply w)
    (w_kmalloc_ready w) (w_have_ranges w).
Definition set_phys w p : vmworld :=
  World (w_ctxs w) (w_ranges w) p (w_dirs w) (w_tables w) (w_alloc_end w) (w_supply w)
    (w_kmalloc_ready w) (w_have_ranges w).
Definition set_dirs w d : vmworld :=
  World (w_ctxs w) (w_ranges w) (w_phys w) d (w_tables w) (w_alloc_end w) (w_supply w)
    (w_kmalloc_ready w) (w_have_ranges w).
Definition set_tables w t : vmworld :=
  World (w_ctxs w) (w_ranges w) (w_phys w) (w_dirs w) t (w_alloc_end w) (w_supply w)
    (w_kmalloc_ready w) (w_have_ranges w).
Definition set_supply w l : vmworld :=
  World (w_ctxs w) (w_ranges w) (w_phys w) (w_dirs w) (w_tables w) (w_alloc_end w) l
    (w_kmalloc_ready w) (w_have_ranges w).
Definition set_have_ranges w n : vmworld :=
  World (w_ctxs w) (w_ranges w) (w_phys w) (w_dirs w) (w_tables w) (w_alloc_end w) (w_supply w)
    (w_kmalloc_ready w) n.

Definition load_ctx w (ctx : Z) : outcome vm_ctx :=
  match w_ctxs w !! ctx with Some c => Ret c | None => Fault end.

Definition store_ctx w (ctx : Z) (c : vm_ctx) : vmworld := set_ctxs w (<[ctx := c]> (w_ctxs w)).

Definition set_bitmap (c : vm_ctx) (b : bitmap) : vm_ctx :=
  VmCtx (vc_lock c) b (vc_ranges c) (vc_page_dir c) (vc_page_dir_phys c).
Definition set_head (c : vm_ctx) (r : Z) : vm_ctx :=
  VmCtx (vc_lock c) (vc_bitmap c) r (vc_page_dir c) (vc_page_dir_phys c).
Definition set_ctx_lock (c : vm_ctx) (l : Z) : vm_ctx :=
  VmCtx l (vc_bitmap c) (vc_ranges c) (vc_page_dir c) (vc_page_dir_phys c).

(** [spinlock_get(&ctx->lock, -1)] and [spinlock_release(&ctx->lock)] *)
Definition ctx_acquire w (ctx : Z) : outcome vmworld :=
  c ← load_ctx w ctx;
  l ← lock_acquire (vc_lock c);
  Ret (store_ctx w ctx (set_ctx_lock c l)).

Definition ctx_release w (ctx : Z) : outcome vmworld :=
  c ← load_ctx w ctx;
  Ret (store_ctx w ctx (set_ctx_lock c (spinlock_release (vc_lock c)))).

(** * Ranges *)

(** The address of the array [malloc_ranges] and [sizeof(vm_alloc_t)]. *)
Definition MALLOC_RANGES : Z := 0x110000.
Definition SIZEOF_RANGE : Z := 36.

(** An element of the array while [kmalloc] is not ready; later what [kmalloc]
    gives, 0 when it fails. *)
Definition new_range w : outcome (Z * vmworld) :=
  if negb (w_kmalloc_ready w) then
    if nz (w_have_ranges w) then
      Ret (MALLOC_RANGES + (50 - w_have_ranges w) * SIZEOF_RANGE, set_have_ranges w (w_have_ranges w - 1))
    else Panic
  else
    match w_supply w with
    | a :: l => Ret (a, set_supply w l)
    | [] => Ret (0, w)
    end.

(** The object at [a] with the content [r] is put in front. *)
Definition insert_range w (ctx a : Z) (r : vm_range) : outcome vmworld :=
  c ← load_ctx w ctx;
  '(h, head) ← list_push (w_ranges w) (vc_ranges c) a r;
  Ret (store_ctx (set_ranges w h) ctx (set_head c head)).

Fixpoint get_range_loop (fuel : nat) (h : dheap vm_range) (addr : Z) (phys : bool) (range : Z) : outcome Z :=
  match fuel with
  | O => Spin
  | S fuel =>
    if range =? 0 then Ret 0 else
    n ← load_node h range;
    let start := if phys then vr_phys (nd_data n) else vr_addr (nd_data n) in
    if (start <=? addr) && (addr <? u32 (start + vr_size (nd_data n))) then Ret range
    else get_range_loop fuel h addr phys (nd_next n)
  end.

Definition get_range w (ctx addr : Z) (phys : bool) : outcome Z :=
  c ← load_ctx w ctx;
  unmapped ← (if negb phys then b ← bitmap_get (vc_bitmap c) (addr / PAGE_SIZE); Ret (b =? 0) else Ret false);
  if (unmapped : bool) then Ret 0 else
  get_range_loop (S (base.size (w_ranges w))) (w_ranges w) addr phys (vc_ranges c).

Definition vm_get w (ctx addr : Z) (phys : bool) : outcome (Z * vmworld) :=
  w ← ctx_acquire w ctx;
  range ← get_range w ctx addr phys;
  w ← ctx_release w ctx;
  Ret (range, w).

Definition valloc_translate w (ctx raddress : Z) (phys : bool) : outcome (Z * vmworld) :=
  '(range, w) ← vm_get w ctx raddress phys;
  if range =? 0 then Ret (0, w) else
  n ← load_node (w_ranges w) range;
  let r := nd_data n in
  Ret (u32 ((if phys then vr_addr r else vr_phys r) + (raddress - (if phys then vr_phys r else vr_addr r))), w).

(** The check of a fixed request: is one of the pages taken? *)
Fixpoint fixed_loop (fuel : nat) (b : bitmap) (page_num sz i : Z) : outcome bool :=
  match fuel with
  | O => Spin
  | S fuel =>
    if i <? sz then
      t ← bitmap_get b (u32 (page_num + i));
      if nz t then Ret true else fixed_loop fuel b page_num sz (i + 1)
    else Ret false
  end.

(** The conflicting range is only looked up for the log. *)
Definition alloc_virt w (ctx sz request : Z) (fixed : bool) : outcome (Z * vmworld) :=
  let virt := ALIGN_DOWN request PAGE_SIZE in
  let page_num := virt / PAGE_SIZE in
  c ← load_ctx w ctx;
  if nz request && fixed then
    taken ← fixed_loop (S (Z.to_nat sz)) (vc_bitmap c) page_num sz 0;
    if (taken : bool) then Ret (0, w) else
    b ← bitmap_set (vc_bitmap c) page_num sz;
    Ret (virt, store_ctx w ctx (set_bitmap c b))
  else
    '(page_num, b) ← bitmap_find (vc_bitmap c) page_num sz;
    if page_num =? u32 (-1) then Ret (0, store_ctx w ctx (set_bitmap c b)) else
    b ← bitmap_set b page_num sz;
    Ret (u32 (page_num * PAGE_SIZE), store_ctx w ctx (set_bitmap c b)).

(** * Page tables *)

(** [ctx->dir_entries[i]]; a NULL context is not mapped. *)
Definition load_dir w (pd i : Z) : outcome page :=
  if pd =? 0 then Fault else Ret (default zero_page (w_dirs w !! (pd, i))).

(** The kernel's address of a page table: early tables are mapped one to one,
    the others are looked up. *)
Definition table_addr w (phys_table : Z) : outcome (Z * vmworld) :=
  if phys_table <? w_alloc_end w then Ret (phys_table, w)
  else valloc_translate w VM_KERNEL phys_table true.

(** The entry with index [i] of the table at [phys_table], which is written
    through [page_table]. *)
Definition store_entry w (page_table phys_table i : Z) (p : page) : outcome vmworld :=
  if page_table =? 0 then Fault
  else Ret (set_tables w (<[(phys_table, i) := p]> (w_tables w))).

Section Paging.
(** [vm_alloc(VM_KERNEL, &page_table_alloc, 1, NULL, VM_RW | VM_ZERO)]: the
    virtual and the physical address. *)
Context (alloc_table : vmworld -> outcome (Z * Z * vmworld)).

(** One pass of the loop of [paging_set_range]. *)
Definition set_page w (pd current_virt phys flags : Z) : outcome vmworld :=
  let page_dir_offset := Z.shiftr current_virt 22 in
  let page_table_offset := Z.shiftr current_virt 12 mod 1024 in
  d ← load_dir w pd page_dir_offset;
  '(page_table, phys_table, w) ←
    (if pg_present d then
       let phys_table := u32 (Z.shiftl (pg_frame d) 12) in
       '(t, w) ← table_addr w phys_table; Ret (t, phys_table, w)
     else
       '(page_table, phys_table, w) ← alloc_table w;
       let d := Page true true true (Z.shiftr phys_table 12) in
       Ret (page_table, phys_table, set_dirs w (<[(pd, page_dir_offset) := d]> (w_dirs w))));
  store_entry w page_table phys_table page_table_offset
    (Page true (has_flag flags VM_RW) (has_flag flags VM_USER) (Z.shiftr phys 12)).

Fixpoint set_range_loop (fuel : nat) w (pd virt_addr phys_addr sz flags off : Z) : outcome vmworld :=
  match fuel with
  | O => Spin
  | S fuel =>
    if off <? sz then
      w ← set_page w pd (u32 (virt_addr + off)) (u32 (phys_addr + off)) flags;
      set_range_loop fuel w pd virt_addr phys_addr sz flags (u32 (off + PAGE_SIZE))
    else Ret w
  end.

(** The offset wraps, and the loop does not end, for sizes above 0xfffff000. *)
Definition paging_set_range w (pd virt_addr phys_addr sz flags : Z) : outcome vmworld :=
  set_range_loop (S (Z.to_nat (RDIV sz PAGE_SIZE))) w pd virt_addr phys_addr sz flags 0.

Definition clear_page w (pd current_virt : Z) : outcome vmworld :=
  let page_dir_offset := Z.shiftr current_virt 22 in
  let page_table_offset := Z.shiftr current_virt 12 mod 1024 in
  d ← load_dir w pd page_dir_offset;
  if negb (pg_present d) then Ret w else
  let phys_table := u32 (Z.shiftl (pg_frame d) 12) in
  '(page_table, w) ← table_addr w phys_table;
  let p := default zero_page (w_tables w !! (phys_table, page_table_offset)) in
  store_entry w page_table phys_table page_table_offset (Page false (pg_rw p) (pg_user p) (pg_frame p)).

Fixpoint clear_range_loop (fuel : nat) w (pd virt_addr sz off : Z) : outcome vmworld :=
  match fuel with
  | O => Spin
  | S fuel =>
    if off <? sz then
      w ← clear_page w pd (u32 (virt_addr + off));
      clear_range_loop fuel w pd virt_addr sz (u32 (off + PAGE_SIZE))
    else Ret w
  end.

Definition paging_clear_range w (pd virt_addr sz : Z) : outcome vmworld :=
  clear_range_loop (S (Z.to_nat (RDIV sz PAGE_SIZE))) w pd virt_addr sz 0.

(** [bzero] of [n] pages at [virt] that are mapped to [phys]: page tables and
    directories there become empty. *)
Definition zero_pages w (virt phys n : Z) : vmworld :=
  let w := set_dirs w (filter (fun e => ~ (virt <= e.1.1 < virt + n * PAGE_SIZE)) (w_dirs w)) in
  set_tables w (filter (fun e => ~ (phys <= e.1.1 < phys + n * PAGE_SIZE)) (w_tables w)).

(** [phys] is 0 when memory is to be allocated; the result is 0 on failure. *)
Definition setup_phys w (ctx sz virt phys flags : Z) : outcome (Z * vmworld) :=
  '(phys, w) ←
    (if phys =? 0 then '(p, pa) ← mem_page_alloc (w_phys w) sz; Ret (p, set_phys w pa)
     else Ret (phys, w));
  if phys =? 0 then Ret (0, w) else
  c ← load_ctx w ctx;
  w ← (if nz (vc_page_dir c) then
         paging_set_range w (vc_page_dir c) virt phys (u32 (sz * PAGE_SIZE)) flags
       else Ret w);
  if has_flag flags VM_ZERO then
    if ctx =? VM_KERNEL then Ret (phys, zero_pages w virt phys sz) else
    w ← ctx_acquire w VM_KERNEL;
    '(zero_addr, w) ← alloc_virt w VM_KERNEL sz 0 false;
    w ← ctx_release w VM_KERNEL;
    if zero_addr =? 0 then Ret (0, w) else
    k ← load_ctx w VM_KERNEL;
    w ← paging_set_range w (vc_page_dir k) zero_addr phys (u32 (sz * PAGE_SIZE)) VM_RW;
    let w := zero_pages w zero_addr phys sz in
    w ← paging_clear_range w (vc_page_dir k) zero_addr (u32 (sz * PAGE_SIZE));
    k ← load_ctx w VM_KERNEL;
    b ← bitmap_clear (vc_bitmap k) (zero_addr / PAGE_SIZE) (RDIV sz PAGE_SIZE);
    Ret (phys, store_ctx w VM_KERNEL (set_bitmap k b))
  else Ret (phys, w).

End Paging.

(** * Allocation *)

(** A page table from an allocation: its address and its physical address. *)
Definition table_from (alloc : vmworld -> outcome (Z * Z * vmworld)) w : outcome (Z * Z * vmworld) :=
  '(addr, r, w) ← alloc w;
  n ← load_node (w_ranges w) r;
  Ret (addr, vr_phys (nd_data n), w).

(** The result is the address and the range, which is what [vmem] becomes a
    copy of.  Setting up a page table is a nested allocation; [depth] bounds
    how deep these go. *)
Fixpoint vm_alloc_at (depth : nat) w (ctx sz virt_request phys flags : Z) : outcome (Z * Z * vmworld) :=
  match depth with
  | O => Spin
  | S depth =>
    w ← ctx_acquire w ctx;
    '(virt, w) ← alloc_virt w ctx sz virt_request (has_flag flags VM_FIXED);
    w ← ctx_release w ctx;
    if virt =? 0 then Ret (0, 0, w) else
    let alloc w := vm_alloc_at depth w VM_KERNEL 1 0 0 (Z.lor VM_RW VM_ZERO) in
    '(phys, w) ← setup_phys (table_from alloc) w ctx sz virt phys flags;
    w ← ctx_acquire w ctx;
    '(range, w) ← new_range w;
    if range =? 0 then Ret (0, 0, w) else
    w ← insert_range w ctx range (Range ctx virt (u32 (sz * PAGE_SIZE)) (CLEANUP_FLAGS flags) [] phys);
    w ← ctx_release w ctx;
    Ret (virt, range, w)
  end.

(** A table for the kernel needs no table itself, since paging_init has made
    all of the kernel's: two levels are enough. *)
Definition alloc_table : vmworld -> outcome (Z * Z * vmworld) :=
  table_from (fun w => vm_alloc_at 2 w VM_KERNEL 1 0 0 (Z.lor VM_RW VM_ZERO)).

Definition vm_alloc w (ctx sz phys flags : Z) : outcome (Z * Z * vmworld) :=
  vm_alloc_at 3 w ctx sz 0 phys flags.

Fixpoint acquire_all w (mctx : list Z) : outcome vmworld :=
  match mctx with
  | [] => Ret w
  | ctx :: mctx => w ← ctx_acquire w ctx; acquire_all w mctx
  end.

Fixpoint release_all w (mctx : list Z) : outcome vmworld :=
  match mctx with
  | [] => Ret w
  | ctx :: mctx => w ← ctx_release w ctx; release_all w mctx
  end.

(** Are the pages free in all of the contexts? *)
Fixpoint free_in_all w (mctx : list Z) (page_num sz : Z) : outcome bool :=
  match mctx with
  | [] => Ret true
  | ctx :: mctx =>
    c ← load_ctx w ctx;
    t ← bitmap_get_range (vc_bitmap c) page_num sz;
    if nz t then Ret false else free_in_all w mctx page_num sz
  end.

Fixpoint find_many (fuel : nat) w (ctx : Z) (mctx : list Z) (page_num sz : Z) : outcome (Z * vmworld) :=
  match fuel with
  | O => Spin
  | S fuel =>
    c ← load_ctx w ctx;
    '(page_num, b) ← bitmap_find (vc_bitmap c) page_num sz;
    let w := store_ctx w ctx (set_bitmap c b) in
    if page_num =? u32 (-1) then Ret (page_num, w) else
    all_free ← free_in_all w mctx page_num sz;
    if (all_free : bool) then Ret (page_num, w)
    else find_many fuel w ctx mctx (u32 (page_num + 1)) sz
  end.

(** The last loop: the result is None when a range could not be made. *)
Fixpoint alloc_each w (many : list (Z * Z)) (page_num sz virt phys : Z) (done : list Z)
    : outcome (option (list Z) * vmworld) :=
  match many with
  | [] => Ret (Some done, w)
  | (lctx, flags) :: many =>
    c ← load_ctx w lctx;
    b ← bitmap_set (vc_bitmap c) page_num sz;
    let w := store_ctx w lctx (set_bitmap c b) in
    '(phys, w) ← setup_phys alloc_table w lctx sz virt phys flags;
    '(range, w) ← new_range w;
    if range =? 0 then Ret (None, w) else
    w ← insert_range w lctx range (Range lctx virt (u32 (sz * PAGE_SIZE)) (CLEANUP_FLAGS flags) [] phys);
    w ← ctx_release w lctx;
    alloc_each w many page_num sz virt phys (done ++ [range])
  end.

(** The same address in several contexts, given with their flags. *)
Definition vm_alloc_many w (many : list (Z * Z)) (sz phys : Z) : outcome (Z * list Z * vmworld) :=
  match many with
  | [] => Fault
  | (ctx, _) :: rest =>
    w ← acquire_all w many.*1;
    c ← load_ctx w ctx;
    '(page_num, w) ← find_many (S (Z.to_nat (32 * bitmap_size (Bitmap.size (vc_bitmap c)) + 32))) w ctx rest.*1 0 sz;
    if page_num =? u32 (-1) then w ← release_all w many.*1; Ret (0, [], w) else
    let virt := u32 (page_num * PAGE_SIZE) in
    '(r, w) ← alloc_each w many page_num sz virt phys [];
    match r with
    | Some ranges => Ret (virt, ranges, w)
    | None => w ← release_all w many.*1; Ret (0, [], w)
    end
  end.

(** * Mapping *)

Definition add_shard w (range : Z) (s : vm_alloc_shard) : outcome vmworld :=
  n ← load_node (w_ranges w) range;
  let r := nd_data n in
  Ret (set_ranges w (<[range := Node (nd_prev n) (nd_next n)
    (Range (vr_ctx r) (vr_addr r) (vr_size r) (vr_flags r) (s :: vr_shards r) (vr_phys r))]> (w_ranges w))).

(** The loop over the pages; false when the mapping fails. *)
Fixpoint map_loop (fuel : nat) w (ctx pd src_ctx src_addr src_aligned virt range size_pages flags : Z)
    (pages_offset pages_mapped : Z) : outcome (bool * vmworld) :=
  match fuel with
  | O => Spin
  | S fuel =>
    src_range ← get_range w src_ctx (u32 (src_aligned + pages_offset)) false;
    if src_range =? 0 then
      Ret ((0 <? pages_mapped) && has_flag flags VM_MAP_LESS_OK, w)
    else
      n ← load_node (w_ranges w) src_range;
      let r := nd_data n in
      if vr_phys r =? 0 then Panic else
      if has_flag flags VM_MAP_USER_ONLY && negb (has_flag (vr_flags r) VM_USER) then Ret (false, w) else
      let addr := u32 (virt + pages_offset) in
      let phys := u32 (vr_phys r + ALIGN_DOWN (u32 (src_addr - vr_addr r)) PAGE_SIZE + pages_offset) in
      w ← add_shard w range (Shard addr phys);
      w ← paging_set_range alloc_table w pd addr phys PAGE_SIZE flags;
      if pages_mapped + 1 <? size_pages then
        map_loop fuel w ctx pd src_ctx src_addr src_aligned virt range size_pages flags
          (u32 (pages_offset + PAGE_SIZE)) (pages_mapped + 1)
      else Ret (true, w)
  end.

Definition vm_map w (ctx src_ctx src_addr sz flags : Z) : outcome (Z * Z * vmworld) :=
  let src_aligned := ALIGN_DOWN src_addr PAGE_SIZE in
  if src_aligned =? 0 then Ret (0, 0, w) else
  let src_offset := src_addr mod PAGE_SIZE in
  w ← ctx_acquire w ctx;
  w ← ctx_acquire w src_ctx;
  let size_pages := RDIV (u32 (sz + src_offset)) PAGE_SIZE in
  '(virt, w) ← alloc_virt w ctx size_pages 0 false;
  if virt =? 0 then
    w ← ctx_release w ctx;
    w ← ctx_release w src_ctx;
    Ret (0, 0, w)
  else
  '(range, w) ← new_range w;
  if range =? 0 then Ret (0, 0, w) else
  w ← insert_range w ctx range (Range ctx virt (u32 (size_pages * PAGE_SIZE)) (CLEANUP_FLAGS flags) [] 0);
  w ← ctx_release w ctx;
  w ← ctx_release w src_ctx;
  c ← load_ctx w ctx;
  '(ok, w) ← map_loop (S (Z.to_nat size_pages)) w ctx (vc_page_dir c) src_ctx src_addr src_aligned virt range
               size_pages flags 0 0;
  if (ok : bool) then Ret (u32 (virt + src_offset), range, w) else Ret (0, 0, w).

(** * Release *)

(** [pfree] is defined as nothing, so the physical memory stays allocated. *)
Definition vm_free w (range : Z) : outcome (Z * vmworld) :=
  n ← load_node (w_ranges w) range;
  let r := nd_data n in
  let ctx := vr_ctx r in
  w ← ctx_acquire w ctx;
  c ← load_ctx w ctx;
  '(h, head) ← list_unlink (w_ranges w) (vc_ranges c) range;
  b ← bitmap_clear (vc_bitmap c) (vr_addr r / PAGE_SIZE) (RDIV (vr_size r) PAGE_SIZE);
  let w := store_ctx (set_ranges w h) ctx (set_bitmap (set_head c head) b) in
  w ← ctx_release w ctx;
  w ← paging_clear_range w (vc_page_dir c) (vr_addr r) (vr_size r);
  Ret (0, w).

(** * Contexts *)

(** The bitmap's array is part of the context, and keeps what it holds. *)
Definition vm_new w (ctx page_dir : Z) : outcome vmworld :=
  c ← load_ctx w ctx;
  let b := Bitmap (data (vc_bitmap c)) PAGE_ALLOC_BITMAP_SIZE (first_free (vc_bitmap c)) in
  let b := bitmap_clear_all b in
  b ← bitmap_set b 0 1;
  b ← bitmap_set b 0 1;
  Ret (store_ctx w ctx (VmCtx 0 b 0 page_dir page_dir)).

(** The loop frees the ranges; the context still points to the first. *)
Fixpoint cleanup_loop (fuel : nat) (h : dheap vm_range) (range : Z) : outcome (dheap vm_range) :=
  match fuel with
  | O => Spin
  | S fuel =>
    if range =? 0 then Ret h else
    n ← load_node h range;
    cleanup_loop fuel (delete range h) (nd_next n)
  end.

Definition vm_cleanup w (ctx : Z) : outcome vmworld :=
  c ← load_ctx w ctx;
  h ← cleanup_loop (S (base.size (w_ranges w))) (w_ranges w) (vc_ranges c);
  Ret (set_ranges w h).

Fixpoint pagedir_loop (fuel : nat) w (pd range : Z) : outcome vmworld :=
  match fuel with
  | O => Spin
  | S fuel =>
    if range =? 0 then Ret w else
    n ← load_node (w_ranges w) range;
    let r := nd_data n in
    w ← paging_set_range alloc_table w pd (vr_addr r) (vr_phys r) (vr_size r) (vr_flags r);
    n ← load_node (w_ranges w) range;
    pagedir_loop fuel w pd (nd_next n)
  end.

Definition vm_pagedir w (ctx : Z) : outcome (Z * vmworld) :=
  c ← load_ctx w ctx;
  if vc_page_dir c =? 0 then
    '(addr, range, w) ← vm_alloc w VM_KERNEL 1 0 (Z.lor VM_RW VM_ZERO);
    if addr =? 0 then Ret (0, w) else
    n ← load_node (w_ranges w) range;
    c ← load_ctx w ctx;
    let c := VmCtx (vc_lock c) (vc_bitmap c) (vc_ranges c) addr (vr_phys (nd_data n)) in
    let w := store_ctx w ctx c in
    w ← pagedir_loop (S (base.size (w_ranges w))) w addr (vc_ranges c);
    Ret (vc_page_dir_phys c, w)
  else Ret (vc_page_dir_phys c, w).

(** [total] and [used]. *)
Definition vm_stats w (ctx : Z) : outcome (Z * Z) :=
  c ← load_ctx w ctx;
  used ← bitmap_count (vc_bitmap c);
  Ret (u32 (Bitmap.size (vc_bitmap c) * PAGE_SIZE), u32 (used * PAGE_SIZE)).

(** * Setting up *)

(** The loop of [paging_init]: a page table for each of the entries from [i]
    on, in the memory behind [paging_alloc_end]. *)
Fixpoint init_tables (n : nat) w (pd i : Z) : vmworld :=
  match n with
  | O => w
  | S n =>
    let e := w_alloc_end w in
    let dirs := <[(pd, i) := Page true true false (Z.shiftr e 12)]> (w_dirs w) in
    let tables := filter (fun t => ~ (e <= t.1.1 < e + PAGE_SIZE)) (w_tables w) in
    init_tables n (World (w_ctxs w) (w_ranges w) (w_phys w) dirs tables (u32 (e + PAGE_SIZE)) (w_supply w)
        (w_kmalloc_ready w) (w_have_ranges w)) pd (i + 1)
  end.

(** [sizeof(struct paging_context)] is a page. *)
Definition paging_init w (kernel_start kernel_end : Z) : outcome vmworld :=
  let pd := ALIGN kernel_end PAGE_SIZE in
  let dirs := filter (fun e => e.1.1 <> pd) (w_dirs w) in
  let w := World (w_ctxs w) (w_ranges w) (w_phys w) dirs (w_tables w) (u32 (pd + PAGE_SIZE)) (w_supply w)
    (w_kmalloc_ready w) (w_have_ranges w) in
  let w := init_tables 1024 w pd 0 in
  w ← vm_new w VM_KERNEL pd;
  let kernel_pages := RDIV (u32 (w_alloc_end w - kernel_start)) PAGE_SIZE in
  '(addr, _, w) ← vm_alloc_at 2 w VM_KERNEL kernel_pages kernel_start kernel_start (Z.lor VM_RW VM_FIXED);
  if addr =? 0 then Panic else Ret w.
