(* ===== verification/VmSpec.v ===== *)
(** Correctness of the virtual memory code (Vm.v): what the page tables
    translate to, and what the contexts keep track of. *)
From stdpp Require Import base numbers list gmap.
From Stdlib Require Import ZArith Lia Bool.
From S2P Require Import Prelude Spinlock Bitmap PageAlloc DList Vm.

Open Scope Z_scope.

Implicit Types w : vmworld.

Ltac page_lia := unfold PAGE_SIZE in *; lia.

(** * Translation *)

Definition dir_index (v : Z) : Z := Z.shiftr v 22.
Definition table_index (v : Z) : Z := Z.shiftr v 12 mod 1024.

Definition dir_entry w (pd i : Z) : page := default zero_page (w_dirs w !! (pd, i)).
Definition table_of (d : page) : Z := u32 (Z.shiftl (pg_frame d) 12).

(** How the processor translates the address [v] with the directory [pd]. *)
Definition walk w (pd v : Z) : option page :=
  let d := dir_entry w pd (dir_index v) in
  if pg_present d then
    let p := default zero_page (w_tables w !! (table_of d, table_index v)) in
    if pg_present p then Some p else None
  else None.

(** The tables of a directory for the [n] pages at [virt]: they exist, they are
    mapped one to one, and no two directory entries share one. *)
Record tables_ready w (pd : Z) : Prop := {
  tr_pd : pd <> 0;
  tr_present : forall i, 0 <= i < 1024 -> pg_present (dir_entry w pd i) = true;
  tr_early : forall i, 0 <= i < 1024 -> 0 < table_of (dir_entry w pd i) < w_alloc_end w;
}.

Definition tables_apart w : Prop :=
  forall pd i pd' i', pg_present (dir_entry w pd i) = true -> pg_present (dir_entry w pd' i') = true ->
  table_of (dir_entry w pd i) = table_of (dir_entry w pd' i') -> pd = pd' /\ i = i'.

(** Two addresses are on the same page when their indexes agree. *)
Lemma same_page v v' :
  0 <= v -> 0 <= v' ->
  (dir_index v = dir_index v' /\ table_index v = table_index v') <-> v / PAGE_SIZE = v' / PAGE_SIZE.
Proof.
  intros Hv Hv'. unfold dir_index, table_index, PAGE_SIZE. rewrite !Z.shiftr_div_pow2 by lia.
  change (2 ^ 12) with 4096. replace (2 ^ 22) with (4096 * 1024) by done.
  rewrite <- !Z.div_div by lia.
  pose proof (Z.div_mod (v / 4096) 1024). pose proof (Z.div_mod (v' / 4096) 1024). split.
  - intros [E1 E2]. lia.
  - intros E. by rewrite E.
Qed.

Lemma dir_index_range v : 0 <= v < 2 ^ 32 -> 0 <= dir_index v < 1024.
Proof.
  intros Hv. unfold dir_index. rewrite Z.shiftr_div_pow2 by lia.
  split; [apply Z.div_pos; lia | apply Z.div_lt_upper_bound; lia].
Qed.

Definition entry_for (flags phys : Z) : page :=
  Page true (has_flag flags VM_RW) (has_flag flags VM_USER) (Z.shiftr phys 12).

Section Paging.
Context (alloc : vmworld -> outcome (Z * Z * vmworld)).

(** The worlds a change of the entries of [pd] leads to. *)
Definition same_but_tables w w' : Prop := w' = set_tables w (w_tables w').

Lemma same_but_tables_trans w w1 w2 :
  same_but_tables w w1 -> same_but_tables w1 w2 -> same_but_tables w w2.
Proof. unfold same_but_tables. intros E1 E2. rewrite E2, E1. done. Qed.

Lemma dir_entry_tables w t pd i : dir_entry (set_tables w t) pd i = dir_entry w pd i.
Proof. done. Qed.

Lemma ready_tables w t pd : tables_ready w pd -> tables_ready (set_tables w t) pd.
Proof. intros []. by split. Qed.

(** One entry of a table is written. *)
Lemma walk_insert w pd v p pd' v' :
  tables_apart w -> pg_present (dir_entry w pd (dir_index v)) = true -> 0 <= v -> 0 <= v' ->
  walk (set_tables w (<[(table_of (dir_entry w pd (dir_index v)), table_index v) := p]> (w_tables w))) pd' v' =
  if decide (pd' = pd /\ v' / PAGE_SIZE = v / PAGE_SIZE) then (if pg_present p then Some p else None)
  else walk w pd' v'.
Proof.
  intros Ha Hp Hv Hv'. unfold walk. rewrite dir_entry_tables. cbn [set_tables w_tables].
  destruct (decide (pd' = pd /\ v' / PAGE_SIZE = v / PAGE_SIZE)) as [[-> E] | Hne].
  - apply same_page in E as [E1 E2]; [| done ..]. rewrite E1, E2, Hp, lookup_insert_eq. done.
  - destruct (pg_present (dir_entry w pd' (dir_index v'))) eqn:E'; [| done].
    rewrite lookup_insert_ne; [done |]. intros [= E1 E2]. apply Hne.
    apply Ha in E1 as [-> E1]; [| done ..]. split; [done |]. by apply same_page.
Qed.

Lemma table_addr_early w t : 0 < t < w_alloc_end w -> table_addr w t = Ret (t, w).
Proof. intros Ht. unfold table_addr. destruct (Z.ltb_spec t (w_alloc_end w)); [done | lia]. Qed.

Lemma set_page_spec w pd v phys flags :
  tables_ready w pd -> tables_apart w -> 0 <= v < 2 ^ 32 ->
  exists w', set_page alloc w pd v phys flags = Ret w' /\ same_but_tables w w' /\
    forall pd' v', 0 <= v' -> walk w' pd' v' =
      if decide (pd' = pd /\ v' / PAGE_SIZE = v / PAGE_SIZE) then Some (entry_for flags phys) else walk w pd' v'.
Proof.
  intros [Hpd Hpr He] Ha Hv. unfold set_page, load_dir. destruct (Z.eqb_spec pd 0); [done |].
  rewrite bind_Ret. change (default _ _) with (dir_entry w pd (dir_index v)).
  pose proof (dir_index_range v Hv) as Hi. rewrite (Hpr _ Hi). specialize (He _ Hi).
  change (u32 _) with (table_of (dir_entry w pd (dir_index v))).
  rewrite (table_addr_early _ _ He), !bind_Ret. unfold store_entry.
  destruct (Z.eqb_spec (table_of (dir_entry w pd (dir_index v))) 0); [lia |].
  eexists. split; [done |]. split; [done |]. intros pd' v' Hv'.
  change (Z.shiftr v 12 mod 1024) with (table_index v). rewrite walk_insert by (auto || lia). done.
Qed.

Lemma apart_tables w t : tables_apart w -> tables_apart (set_tables w t).
Proof. done. Qed.

Lemma same_but_tables_ready w w' pd : same_but_tables w w' -> tables_ready w pd -> tables_ready w' pd.
Proof. intros ->. apply ready_tables. Qed.

Lemma same_but_tables_apart w w' : same_but_tables w w' -> tables_apart w -> tables_apart w'.
Proof. intros ->. apply apart_tables. Qed.

(** The pages of [n] pages from [virt] on, without the first [k]. *)
Definition in_pages (virt k n v : Z) : Prop := virt / PAGE_SIZE + k <= v / PAGE_SIZE < virt / PAGE_SIZE + n.

#[global] Instance in_pages_dec virt k n v : Decision (in_pages virt k n v).
Proof. unfold in_pages. apply _. Defined.

(** Page [j] and the pages behind it. *)
Lemma decide_pages {A} (pd pd' virt k j n v : Z) (x x' y : A) :
  virt / PAGE_SIZE = k -> j < n -> (v / PAGE_SIZE = k + j -> x' = x) ->
  (if decide (pd' = pd /\ in_pages virt (j + 1) n v) then x
   else if decide (pd' = pd /\ v / PAGE_SIZE = k + j) then x' else y) =
  if decide (pd' = pd /\ in_pages virt j n v) then x else y.
Proof.
  intros Hk Hj Hx. unfold in_pages.
  repeat case_decide; try done; try (apply Hx; tauto); exfalso; intuition lia.
Qed.

(** Page [j] when it is the last one. *)
Lemma decide_page_last {A} (pd pd' virt k j v : Z) (x x' y : A) :
  virt / PAGE_SIZE = k -> (v / PAGE_SIZE = k + j -> x' = x) ->
  (if decide (pd' = pd /\ v / PAGE_SIZE = k + j) then x' else y) =
  if decide (pd' = pd /\ in_pages virt j (j + 1) v) then x else y.
Proof.
  intros Hk Hx. unfold in_pages.
  repeat case_decide; try done; try (apply Hx; tauto); exfalso; intuition lia.
Qed.

Lemma decide_one_page {A} (pd pd' virt k v : Z) (x x' y : A) :
  virt / PAGE_SIZE = k -> (v / PAGE_SIZE = k -> x' = x) ->
  (if decide (pd' = pd /\ in_pages virt 0 1 v) then x' else y) =
  if decide (pd' = pd /\ v / PAGE_SIZE = k) then x else y.
Proof.
  intros Hk Hx. unfold in_pages.
  repeat case_decide; try done; try (apply Hx; tauto || (intuition lia)); exfalso; intuition lia.
Qed.

Lemma page_step virt k : virt mod PAGE_SIZE = 0 -> (virt + k * PAGE_SIZE) / PAGE_SIZE = virt / PAGE_SIZE + k.
Proof. intros _. unfold PAGE_SIZE. by rewrite Z.div_add. Qed.

Lemma set_range_loop_spec fuel w pd virt phys n flags k :
  tables_ready w pd -> tables_apart w -> 0 <= virt -> virt mod PAGE_SIZE = 0 -> 0 <= phys ->
  0 <= k <= n -> n < 2 ^ 20 -> virt + n * PAGE_SIZE <= 2 ^ 32 -> phys + n * PAGE_SIZE <= 2 ^ 32 ->
  n - k < Z.of_nat fuel ->
  exists w', set_range_loop alloc fuel w pd virt phys (n * PAGE_SIZE) flags (k * PAGE_SIZE) = Ret w' /\
    same_but_tables w w' /\
    forall pd' v', 0 <= v' -> walk w' pd' v' =
      if decide (pd' = pd /\ in_pages virt k n v')
      then Some (entry_for flags (phys + (v' / PAGE_SIZE - virt / PAGE_SIZE) * PAGE_SIZE)) else walk w pd' v'.
Proof.
  revert w k. induction fuel as [| fuel IH]; intros w k Hr Ha Hv Hal Hp Hk Hn Hvn Hpn Hf; [lia |].
  cbn [set_range_loop]. destruct (Z.ltb_spec (k * PAGE_SIZE) (n * PAGE_SIZE)).
  - assert (0 <= virt + k * PAGE_SIZE < 2 ^ 32 /\ 0 <= phys + k * PAGE_SIZE < 2 ^ 32 /\
      0 <= k * PAGE_SIZE + PAGE_SIZE < 2 ^ 32) as (H1 & H2 & H3) by page_lia.
    rewrite (u32_small _ H1), (u32_small _ H2), (u32_small _ H3).
    destruct (set_page_spec w pd (virt + k * PAGE_SIZE) (phys + k * PAGE_SIZE) flags Hr Ha H1) as (w1 & -> & Hs1 & Hw1).
    rewrite bind_Ret. replace (k * PAGE_SIZE + PAGE_SIZE) with ((k + 1) * PAGE_SIZE) by lia.
    destruct (IH w1 (k + 1)) as (w2 & -> & Hs2 & Hw2); try done; try page_lia.
    { by eapply same_but_tables_ready. }
    { by eapply same_but_tables_apart. }
    exists w2. split; [done |]. split; [by eapply same_but_tables_trans |].
    assert (k < n) by page_lia. intros pd' v' Hv'. rewrite Hw2, Hw1, page_step by done.
    apply decide_pages; [done | done |]. intros E. rewrite E. do 3 f_equal. lia.
  - exists w. split; [done |]. split; [by destruct w |]. intros pd' v' Hv'. unfold in_pages.
    case_decide; [page_lia | done].
Qed.

Lemma paging_set_range_spec w pd virt phys n flags :
  tables_ready w pd -> tables_apart w -> 0 <= virt -> virt mod PAGE_SIZE = 0 -> 0 <= phys ->
  0 <= n < 2 ^ 20 -> virt + n * PAGE_SIZE <= 2 ^ 32 -> phys + n * PAGE_SIZE <= 2 ^ 32 ->
  exists w', paging_set_range alloc w pd virt phys (n * PAGE_SIZE) flags = Ret w' /\
    same_but_tables w w' /\
    forall pd' v', 0 <= v' -> walk w' pd' v' =
      if decide (pd' = pd /\ in_pages virt 0 n v')
      then Some (entry_for flags (phys + (v' / PAGE_SIZE - virt / PAGE_SIZE) * PAGE_SIZE)) else walk w pd' v'.
Proof.
  intros Hr Ha Hv Hal Hp Hn Hvn Hpn. unfold paging_set_range.
  apply (set_range_loop_spec _ w pd virt phys n flags 0); try done; try lia.
  destruct (RDIV_spec (n * PAGE_SIZE) PAGE_SIZE); page_lia.
Qed.

End Paging.

Lemma clear_page_spec w pd v :
  tables_ready w pd -> tables_apart w -> 0 <= v < 2 ^ 32 ->
  exists w', clear_page w pd v = Ret w' /\ same_but_tables w w' /\
    forall pd' v', 0 <= v' -> walk w' pd' v' =
      if decide (pd' = pd /\ v' / PAGE_SIZE = v / PAGE_SIZE) then None else walk w pd' v'.
Proof.
  intros [Hpd Hpr He] Ha Hv. unfold clear_page, load_dir. destruct (Z.eqb_spec pd 0); [done |].
  rewrite bind_Ret. change (default zero_page (w_dirs w !! (pd, Z.shiftr v 22))) with (dir_entry w pd (dir_index v)).
  pose proof (dir_index_range v Hv) as Hi. rewrite (Hpr _ Hi). specialize (He _ Hi). cbn [negb].
  change (u32 _) with (table_of (dir_entry w pd (dir_index v))).
  rewrite (table_addr_early _ _ He), !bind_Ret. unfold store_entry.
  destruct (Z.eqb_spec (table_of (dir_entry w pd (dir_index v))) 0); [lia |].
  eexists. split; [done |]. split; [done |]. intros pd' v' Hv'.
  change (Z.shiftr v 12 mod 1024) with (table_index v). rewrite walk_insert by (auto || lia). done.
Qed.

Lemma clear_range_loop_spec fuel w pd virt n k :
  tables_ready w pd -> tables_apart w -> 0 <= virt -> virt mod PAGE_SIZE = 0 ->
  0 <= k <= n -> n < 2 ^ 20 -> virt + n * PAGE_SIZE <= 2 ^ 32 -> n - k < Z.of_nat fuel ->
  exists w', clear_range_loop fuel w pd virt (n * PAGE_SIZE) (k * PAGE_SIZE) = Ret w' /\
    same_but_tables w w' /\
    forall pd' v', 0 <= v' -> walk w' pd' v' =
      if decide (pd' = pd /\ in_pages virt k n v') then None else walk w pd' v'.
Proof.
  revert w k. induction fuel as [| fuel IH]; intros w k Hr Ha Hv Hal Hk Hn Hvn Hf; [lia |].
  cbn [clear_range_loop]. destruct (Z.ltb_spec (k * PAGE_SIZE) (n * PAGE_SIZE)).
  - assert (0 <= virt + k * PAGE_SIZE < 2 ^ 32 /\ 0 <= k * PAGE_SIZE + PAGE_SIZE < 2 ^ 32) as (H1 & H3) by page_lia.
    rewrite (u32_small _ H1), (u32_small _ H3).
    destruct (clear_page_spec w pd (virt + k * PAGE_SIZE) Hr Ha H1) as (w1 & -> & Hs1 & Hw1).
    rewrite bind_Ret. replace (k * PAGE_SIZE + PAGE_SIZE) with ((k + 1) * PAGE_SIZE) by lia.
    destruct (IH w1 (k + 1)) as (w2 & -> & Hs2 & Hw2); try done; try page_lia.
    { by eapply same_but_tables_ready. }
    { by eapply same_but_tables_apart. }
    exists w2. split; [done |]. split; [by eapply same_but_tables_trans |].
    assert (k < n) by page_lia. intros pd' v' Hv'. rewrite Hw2, Hw1, page_step by done.
    by apply decide_pages.
  - exists w. split; [done |]. split; [by destruct w |]. intros pd' v' Hv'. unfold in_pages.
    case_decide; [page_lia | done].
Qed.

Lemma paging_clear_range_spec w pd virt n :
  tables_ready w pd -> tables_apart w -> 0 <= virt -> virt mod PAGE_SIZE = 0 ->
  0 <= n < 2 ^ 20 -> virt + n * PAGE_SIZE <= 2 ^ 32 ->
  exists w', paging_clear_range w pd virt (n * PAGE_SIZE) = Ret w' /\
    same_but_tables w w' /\
    forall pd' v', 0 <= v' -> walk w' pd' v' =
      if decide (pd' = pd /\ in_pages virt 0 n v') then None else walk w pd' v'.
Proof.
  intros Hr Ha Hv Hal Hn Hvn. unfold paging_clear_range.
  apply (clear_range_loop_spec _ w pd virt n 0); try done; try lia.
  destruct (RDIV_spec (n * PAGE_SIZE) PAGE_SIZE); page_lia.
Qed.

(** where the tables of a directory exist, paging_set_range makes page k of
    the range translate to page k of the physical memory, with the rights of
    the flags, and leaves the translation of every other address alone, in
    this and in every other directory; paging_clear_range takes exactly these
    translations away again. *)
Theorem paging_set_clear alloc w pd virt phys n flags :
  tables_ready w pd -> tables_apart w -> 0 <= virt -> virt mod PAGE_SIZE = 0 -> 0 <= phys ->
  0 <= n < 2 ^ 20 -> virt + n * PAGE_SIZE <= 2 ^ 32 -> phys + n * PAGE_SIZE <= 2 ^ 32 ->
  exists w1 w2, paging_set_range alloc w pd virt phys (n * PAGE_SIZE) flags = Ret w1 /\
    paging_clear_range w1 pd virt (n * PAGE_SIZE) = Ret w2 /\
    forall pd' v', 0 <= v' ->
      if decide (pd' = pd /\ in_pages virt 0 n v')
      then walk w1 pd' v' = Some (entry_for flags (phys + (v' / PAGE_SIZE - virt / PAGE_SIZE) * PAGE_SIZE)) /\
        walk w2 pd' v' = None
      else walk w1 pd' v' = walk w pd' v' /\ walk w2 pd' v' = walk w pd' v'.
Proof.
  intros Hr Ha Hv Hal Hp Hn Hvn Hpn.
  destruct (paging_set_range_spec alloc w pd virt phys n flags) as (w1 & E1 & Hs1 & Hw1); [done .. |].
  destruct (paging_clear_range_spec w1 pd virt n) as (w2 & E2 & _ & Hw2); try done.
  { by eapply same_but_tables_ready. }
  { by eapply same_but_tables_apart. }
  exists w1, w2. split; [done |]. split; [done |]. intros pd' v' Hv'. rewrite Hw2, Hw1 by done.
  by case_decide.
Qed.

(** * Contexts *)

Definition pages_of (e : Z * vm_range) : Z * Z := (vr_addr e.2 / PAGE_SIZE, vr_size e.2 / PAGE_SIZE).

(** A range of the context: whole pages, inside the bitmap and marked there. *)
Record range_ok (ctx : Z) (b : bitmap) (e : Z * vm_range) : Prop := {
  ro_ctx : vr_ctx e.2 = ctx;
  ro_addr : vr_addr e.2 = (pages_of e).1 * PAGE_SIZE;
  ro_size : vr_size e.2 = (pages_of e).2 * PAGE_SIZE;
  ro_fits : (pages_of e).1 + (pages_of e).2 <= Bitmap.size b;
  ro_marked : marked (data b) (pages_of e);
}.

(** The ranges of a context are [l]: they are what its list holds, no two of
    them share a page, and page 0 belongs to none. *)
Record ctx_inv w (ctx : Z) (c : vm_ctx) (l : list (Z * vm_range)) : Prop := {
  ci_ctx : w_ctxs w !! ctx = Some c;
  ci_lock : vc_lock c = 0;
  ci_wf : bitmap_wf (vc_bitmap c);
  ci_size : Bitmap.size (vc_bitmap c) < 2 ^ 20;
  ci_zero : bitmap_bit (data (vc_bitmap c)) 0 = true;
  ci_list : list_rep (w_ranges w) (vc_ranges c) l;
  ci_ranges : Forall (range_ok ctx (vc_bitmap c)) l;
  ci_disjoint : pairwise_disjoint (map pages_of l);
}.

(** Where the pages can go: the place that is asked for, or any place the
    search sees. *)
Definition place (b : bitmap) (sz request : Z) (fixed : bool) (q : Z) : Prop :=
  0 < q /\ q + sz <= Bitmap.size b /\ free_run (data b) q sz /\
  if nz request && fixed then q = request / PAGE_SIZE
  else let start := request / PAGE_SIZE in 32 * find_start b start + start mod 32 <= q.

Lemma bitmap_get_spec b k :
  bitmap_wf b -> 0 <= k < nbits (data b) ->
  exists v, bitmap_get b k = Ret v /\ nz v = bitmap_bit (data b) k.
Proof.
  intros Hb Hk. unfold bitmap_get, bitmap_index, bitmap_offset, nbits in *. pose proof (div32_bounds k).
  destruct (aload_in (data b) (k / 32)) as (v & -> & Hl).
  { split; [apply Z.div_pos; lia |]. apply Z.div_lt_upper_bound; lia. }
  rewrite bind_Ret. eexists. split; [done |]. unfold bitmap_bit. rewrite Hl.
  apply bit_get_nz. by apply Z.mod_pos_bound.
Qed.

Lemma fixed_loop_free fuel b n sz i :
  bitmap_wf b -> 0 <= n -> n + sz <= Bitmap.size b -> free_run (data b) n sz ->
  0 <= i <= sz -> sz - i < Z.of_nat fuel -> fixed_loop fuel b n sz i = Ret false.
Proof.
  intros Hb Hn Hs Hf. revert i. pose proof (bitmap_wf_nbits _ Hb).
  induction fuel as [| fuel IH]; intros i Hi Hfu; [lia |]. cbn [fixed_loop].
  destruct (Z.ltb_spec i sz); [| done]. rewrite u32_small by lia.
  destruct (bitmap_get_spec b (n + i) Hb) as (v & -> & Hv); [lia |].
  rewrite bind_Ret, Hv, Hf by lia. apply IH; lia.
Qed.

Lemma ALIGN_DOWN_page v :
  0 <= v < 2 ^ 32 -> ALIGN_DOWN v PAGE_SIZE = v / PAGE_SIZE * PAGE_SIZE /\ ALIGN_DOWN v PAGE_SIZE / PAGE_SIZE = v / PAGE_SIZE.
Proof.
  intros Hv. assert (ALIGN_DOWN v PAGE_SIZE = v / PAGE_SIZE * PAGE_SIZE) as ->.
  { change PAGE_SIZE with (2 ^ 12). rewrite ALIGN_DOWN_spec by lia. pose proof (Z.div_mod v (2 ^ 12)). lia. }
  split; [done |]. apply Z.div_mul. done.
Qed.

Lemma alloc_virt_spec w ctx c sz request fixed q :
  w_ctxs w !! ctx = Some c -> bitmap_wf (vc_bitmap c) -> Bitmap.size (vc_bitmap c) < 2 ^ 20 ->
  bitmap_bit (data (vc_bitmap c)) 0 = true -> 0 < sz -> 0 <= request < 2 ^ 32 ->
  place (vc_bitmap c) sz request fixed q ->
  exists n b, alloc_virt w ctx sz request fixed = Ret (n * PAGE_SIZE, store_ctx w ctx (set_bitmap c b)) /\
    0 < n /\ n + sz <= Bitmap.size (vc_bitmap c) /\ free_run (data (vc_bitmap c)) n sz /\
    marks (vc_bitmap c) b n sz /\ (nz request && fixed = true -> n = request / PAGE_SIZE) /\
    (request = 0 -> forall m, room (vc_bitmap c) m q -> sz <= m -> room b (m - sz) (q + sz)).
Proof.
  intros Hc Hwf Hsz H0 Hn Hr (Hq & Hqs & Hfree & Hpl). pose proof (bitmap_wf_nbits _ Hwf) as Hnb.
  destruct (ALIGN_DOWN_page request Hr) as [Ea Ed]. unfold alloc_virt, load_ctx.
  rewrite Hc, bind_Ret, Ed. assert (0 <= request / PAGE_SIZE) by (apply Z.div_pos; [lia | done]).
  destruct (nz request && fixed) eqn:E.
  - subst q. rewrite fixed_loop_free by (done || lia). rewrite bind_Ret.
    destruct (bitmap_set_spec (vc_bitmap c) (request / PAGE_SIZE) sz) as (b & -> & Hwf' & Hs' & _ & Hl' & Hb); [done || lia .. |].
    rewrite bind_Ret, Ea. do 2 eexists. split; [done |]. do 4 (split; [done |]). split; [done |]. intros ->. done.
  - set (start := request / PAGE_SIZE) in *. cbv zeta in Hpl.
    destruct (bitmap_find_spec (vc_bitmap c) start sz) as (r & ff & Ef & Hff & Ha); [done .. |]. rewrite Ef.
    rewrite bind_Ret. assert (q + sz <= 32 * (bitmap_size (Bitmap.size (vc_bitmap c)) + 1)) as Hlim.
    { destruct Hwf as [_ Hs _ _]. unfold bitmap_size. rewrite u32_small by lia.
      pose proof (div32_bounds (Bitmap.size (vc_bitmap c) + 32 - 1)). lia. }
    destruct Ha as [[[Hge [Hfr Hmin]] Hub] | [_ Hno]]; [| by destruct (Hno q Hpl Hlim)].
    assert (r <= q) as Hrq by (destruct (Z.le_gt_cases r q); [done |]; by destruct (Hmin q)).
    pose proof (find_start_ge (vc_bitmap c) start ltac:(done)).
    assert (0 < r) as Hr0.
    { destruct (decide (r = 0)) as [-> |]; [| lia]. rewrite Hfr in H0 by lia. done. }
    destruct (Z.eqb_spec r (u32 (-1))) as [E' | _]; [rewrite u32_m1 in E'; lia |].
    destruct (bitmap_set_spec (Bitmap (data (vc_bitmap c)) (Bitmap.size (vc_bitmap c)) ff) r sz)
      as (b & -> & Hwf' & Hs' & Hff' & Hl' & Hb); simpl; try lia; [by apply bitmap_wf_first |].
    rewrite u32_small by page_lia. exists r, b. do 2 (split; [done |]). split; [lia |]. do 3 (split; [done |]).
    intros -> m Hm Hsm. eapply room_take; [exact Hwf | exact Hm | lia | exact Hrq | exact Ef | exact Hff' | done].
Qed.

(** * Allocation *)

Lemma marked_marks b b' n sz p : marks b b' n sz -> marked (data b) p -> marked (data b') p.
Proof.
  intros (_ & _ & Hl & Hb). apply marked_bits; [done |]. intros k Hk Hk0 Hm. rewrite Hb by done.
  by destruct ((n <=? k) && (k <? n + sz)).
Qed.

Lemma range_ok_marks ctx b b' n sz e : marks b b' n sz -> range_ok ctx b e -> range_ok ctx b' e.
Proof.
  intros Hm [H1 H2 H3 H4 H5]. split; try done.
  - by rewrite (proj1 (proj2 Hm)).
  - by eapply marked_marks.
Qed.

(** The new range is marked and apart from the others. *)
Lemma new_range_ok ctx b b' n sz a fl sh p :
  0 < n -> 0 < sz -> bitmap_wf b -> n + sz <= Bitmap.size b -> Bitmap.size b < 2 ^ 20 -> marks b b' n sz ->
  range_ok ctx b' (a, Range ctx (n * PAGE_SIZE) (sz * PAGE_SIZE) fl sh p).
Proof.
  intros Hn Hs Hwf Hle Hmax (Hwf' & Hsz & Hl & Hb). pose proof (bitmap_wf_nbits _ Hwf).
  split; unfold pages_of; cbn [fst snd vr_addr vr_size vr_ctx]; rewrite ?Z.div_mul by done; try done.
  - lia.
  - unfold marked, nbits in *. cbn [fst snd]. rewrite Hl. repeat split; try lia. intros k Hk. rewrite Hb by lia. zcases.
Qed.

Lemma pages_of_new ctx a n sz fl sh p :
  pages_of (a, Range ctx (n * PAGE_SIZE) (sz * PAGE_SIZE) fl sh p) = (n, sz).
Proof. unfold pages_of. cbn [snd vr_addr vr_size]. by rewrite !Z.div_mul. Qed.

Lemma free_disjoint_all ctx b n sz l :
  0 < sz -> free_run (data b) n sz -> Forall (range_ok ctx b) l -> Forall (disjoint_alloc (n, sz)) (map pages_of l).
Proof.
  intros Hs Hf Hl. apply Forall_map. eapply Forall_impl; [exact Hl |]. intros e [_ _ _ _ Hm].
  eapply marked_free_disjoint; [exact Hm | done | done].
Qed.

(** The physical memory behind an allocation: given, or allocated. *)
Definition backing w (sz phys p : Z) (pa : mem_page_alloc_ctx) : Prop :=
  0 < p /\ p + sz * PAGE_SIZE <= 2 ^ 32 /\
  if phys =? 0 then mem_page_alloc (w_phys w) sz = Ret (p, pa) else p = phys /\ pa = w_phys w.

Lemma backing_phys w sz phys p pa :
  backing w sz phys p pa ->
  (if phys =? 0 then '(p, pa) ← mem_page_alloc (w_phys w) sz; Ret (p, set_phys w pa) else Ret (phys, w)) =
  Ret (p, set_phys w pa).
Proof.
  intros (_ & _ & Hb). destruct (phys =? 0).
  - by rewrite Hb.
  - destruct Hb as [-> ->]. by destruct w.
Qed.

(** The directory of a context can be used: there is none yet, or its tables
    are ready. *)
Definition pd_ready w (pd : Z) : Prop := pd <> 0 -> tables_ready w pd /\ tables_apart w.

Lemma pd_ready_dirs w w' pd :
  w_dirs w' = w_dirs w -> w_alloc_end w' = w_alloc_end w -> pd_ready w pd -> pd_ready w' pd.
Proof.
  intros E1 E2 H Hpd. destruct (H Hpd) as [[H1 H2 H3] Ha]. split.
  - split; unfold dir_entry in *; rewrite ?E1, ?E2; done.
  - unfold tables_apart, dir_entry in *. by rewrite E1.
Qed.

(** What an allocation does to the translations. *)
Definition maps_pages w w' (pd virt p n flags : Z) : Prop :=
  pd <> 0 -> forall pd' v', 0 <= v' -> walk w' pd' v' =
    if decide (pd' = pd /\ in_pages virt 0 n v')
    then Some (entry_for flags (p + (v' / PAGE_SIZE - virt / PAGE_SIZE) * PAGE_SIZE)) else walk w pd' v'.

Lemma setup_phys_spec alloc w ctx c n sz phys flags p pa :
  w_ctxs w !! ctx = Some c -> pd_ready w (vc_page_dir c) -> has_flag flags VM_ZERO = false ->
  0 < n -> 0 < sz -> n + sz <= 2 ^ 20 -> backing w sz phys p pa ->
  exists w', setup_phys alloc w ctx sz (n * PAGE_SIZE) phys flags = Ret (p, w') /\
    same_but_tables (set_phys w pa) w' /\ maps_pages w w' (vc_page_dir c) (n * PAGE_SIZE) p sz flags.
Proof.
  intros Hc Hpd Hz Hn Hs Hle Hb. pose proof Hb as (Hp & Hpe & _). unfold setup_phys.
  rewrite (backing_phys _ _ _ _ _ Hb), bind_Ret. destruct (Z.eqb_spec p 0); [lia |].
  unfold load_ctx. cbn [set_phys w_ctxs]. rewrite Hc, bind_Ret, Hz.
  destruct (nz (vc_page_dir c)) eqn:E.
  - apply nz_true in E. destruct (Hpd E) as [Hr Ha]. rewrite u32_small by page_lia.
    destruct (paging_set_range_spec alloc (set_phys w pa) (vc_page_dir c) (n * PAGE_SIZE) p sz flags)
      as (w' & -> & Hw' & Hm); try done; try page_lia.
    + destruct Hr. by split.
    + apply Z_mod_mult.
    + rewrite bind_Ret. exists w'. split; [done |]. split; [done |]. intros _. exact Hm.
  - rewrite bind_Ret. eexists. split; [done |]. split; [done |]. intros Hne. apply nz_false in E. done.
Qed.

Lemma store_ctx_lookup w ctx c : w_ctxs (store_ctx w ctx c) !! ctx = Some c.
Proof. apply lookup_insert_eq. Qed.

Lemma store_ctx_twice w ctx c c' : store_ctx (store_ctx w ctx c) ctx c' = store_ctx w ctx c'.
Proof. unfold store_ctx, set_ctxs. cbn. by rewrite insert_insert_eq. Qed.

Lemma ctx_acquire_spec w ctx c :
  w_ctxs w !! ctx = Some c -> vc_lock c = 0 -> ctx_acquire w ctx = Ret (store_ctx w ctx (set_ctx_lock c 1)).
Proof. intros Hc Hl. unfold ctx_acquire, load_ctx, lock_acquire. by rewrite Hc, bind_Ret, Hl. Qed.

Lemma ctx_release_spec w ctx c :
  w_ctxs w !! ctx = Some c -> ctx_release w ctx = Ret (store_ctx w ctx (set_ctx_lock c 0)).
Proof. intros Hc. unfold ctx_release, load_ctx. by rewrite Hc. Qed.

(** Taking the lock, reserving the pages, giving the lock back. *)
Lemma reserve_spec {A} w ctx c l sz request fixed q (k : Z -> vmworld -> outcome A) :
  ctx_inv w ctx c l -> 0 < sz -> 0 <= request < 2 ^ 32 -> place (vc_bitmap c) sz request fixed q ->
  exists n b, (w ← ctx_acquire w ctx;
      '(virt, w) ← alloc_virt w ctx sz request fixed;
      w ← ctx_release w ctx; k virt w) = k (n * PAGE_SIZE) (store_ctx w ctx (set_bitmap c b)) /\
    0 < n /\ n + sz <= Bitmap.size (vc_bitmap c) /\ free_run (data (vc_bitmap c)) n sz /\
    marks (vc_bitmap c) b n sz /\ (nz request && fixed = true -> n = request / PAGE_SIZE) /\
    (request = 0 -> forall m, room (vc_bitmap c) m q -> sz <= m -> room b (m - sz) (q + sz)).
Proof.
  intros [Hc Hl Hwf Hs H0 _ _ _] Hsz Hr Hp. rewrite (ctx_acquire_spec _ _ _ Hc Hl), bind_Ret.
  destruct (alloc_virt_spec (store_ctx w ctx (set_ctx_lock c 1)) ctx (set_ctx_lock c 1) sz request fixed q)
    as (n & b & -> & H1); try done; [apply store_ctx_lookup |].
  rewrite bind_Ret, (ctx_release_spec _ _ _ (store_ctx_lookup _ _ _)), bind_Ret, !store_ctx_twice.
  exists n, b. split; [| exact H1]. destruct c. simpl in Hl. by subst.
Qed.

(** Taking the lock, adding a range, giving the lock back. *)
Lemma add_range_spec w ctx c l a rest r :
  w_ctxs w !! ctx = Some c -> vc_lock c = 0 -> list_rep (w_ranges w) (vc_ranges c) l ->
  w_kmalloc_ready w = true -> w_supply w = a :: rest -> a <> 0 -> w_ranges w !! a = None ->
  exists h, (w ← ctx_acquire w ctx;
      '(range, w) ← new_range w;
      if range =? 0 then Ret (0, 0, w) else
      w ← insert_range w ctx range r;
      w ← ctx_release w ctx;
      Ret (vr_addr r, range, w)) =
    Ret (vr_addr r, a, store_ctx (set_ranges (set_supply w rest) h) ctx (set_head c a)) /\
    list_rep h a ((a, r) :: l) /\ forall b, b <> a -> b ∉ l.*1 -> h !! b = w_ranges w !! b.
Proof.
  intros Hc Hl Hr Hrd Hsup Ha0 Hfree. rewrite (ctx_acquire_spec _ _ _ Hc Hl), bind_Ret.
  unfold new_range. cbn [store_ctx set_ctxs w_supply w_kmalloc_ready]. rewrite Hrd, Hsup. cbn [negb]. rewrite bind_Ret.
  destruct (Z.eqb_spec a 0); [done |].
  destruct (list_push_spec (w_ranges w) (vc_ranges c) l a r Hr Ha0 Hfree) as (h & E & Hl' & Hf).
  exists h. split; [| done]. unfold insert_range, load_ctx. cbn [store_ctx set_ctxs set_supply w_ctxs w_ranges].
  rewrite lookup_insert_eq, bind_Ret. cbn [set_ctx_lock vc_ranges]. rewrite E, !bind_Ret.
  rewrite (ctx_release_spec _ _ _ (store_ctx_lookup _ _ _)), bind_Ret, store_ctx_twice.
  unfold store_ctx, set_ctxs, set_ranges, set_supply. cbn. rewrite insert_insert_eq.
  destruct c. simpl in Hl. by subst.
Qed.

(** What the operations leave alone apart from contexts, ranges and tables. *)
Record rest_same w w' (pa : mem_page_alloc_ctx) (supply : list Z) : Prop := {
  rs_dirs : w_dirs w' = w_dirs w;
  rs_end : w_alloc_end w' = w_alloc_end w;
  rs_ready : w_kmalloc_ready w' = w_kmalloc_ready w;
  rs_phys : w_phys w' = pa;
  rs_supply : w_supply w' = supply;
}.

(** The lemma behind [vm_alloc_at_correct], for the callers of the function:
    [n] is the first page. *)
Lemma vm_alloc_at_full depth w ctx c l sz request phys flags q p pa a rest :
  ctx_inv w ctx c l -> pd_ready w (vc_page_dir c) -> has_flag flags VM_ZERO = false ->
  0 < sz -> 0 <= request < 2 ^ 32 -> place (vc_bitmap c) sz request (has_flag flags VM_FIXED) q ->
  backing w sz phys p pa -> w_kmalloc_ready w = true -> w_supply w = a :: rest -> a <> 0 -> w_ranges w !! a = None ->
  exists n w' c', vm_alloc_at (S depth) w ctx sz request phys flags = Ret (n * PAGE_SIZE, a, w') /\ 0 < n /\
    ctx_inv w' ctx c' ((a, Range ctx (n * PAGE_SIZE) (sz * PAGE_SIZE) (CLEANUP_FLAGS flags) [] p) :: l) /\
    (nz request && has_flag flags VM_FIXED = true -> n = request / PAGE_SIZE) /\
    maps_pages w w' (vc_page_dir c) (n * PAGE_SIZE) p sz flags /\
    (forall ctx', ctx' <> ctx -> w_ctxs w' !! ctx' = w_ctxs w !! ctx') /\
    (forall b, b <> a -> b ∉ l.*1 -> w_ranges w' !! b = w_ranges w !! b) /\
    rest_same w w' pa rest /\ vc_page_dir c' = vc_page_dir c /\ marks (vc_bitmap c) (vc_bitmap c') n sz /\
    free_run (data (vc_bitmap c)) n sz /\
    (request = 0 -> forall m, room (vc_bitmap c) m q -> sz <= m -> room (vc_bitmap c') (m - sz) (q + sz)).
Proof.
  intros Hinv Hpd Hz Hsz Hr Hpl Hb Hrd Hsup Ha0 Hfree. destruct (Hinv) as [Hc Hl Hwf Hs H0 Hlist Hro Hdis].
  cbn [vm_alloc_at].
  set (alloc := table_from (fun w => vm_alloc_at depth w VM_KERNEL 1 0 0 (Z.lor VM_RW VM_ZERO))).
  destruct (reserve_spec w ctx c l sz request (has_flag flags VM_FIXED) q
      (fun virt w => if virt =? 0 then Ret (0, 0, w) else
         '(phys, w) ← setup_phys alloc w ctx sz virt phys flags;
         w ← ctx_acquire w ctx;
         '(range, w) ← new_range w;
         if range =? 0 then Ret (0, 0, w) else
         w ← insert_range w ctx range (Range ctx virt (u32 (sz * PAGE_SIZE)) (CLEANUP_FLAGS flags) [] phys);
         w ← ctx_release w ctx;
         Ret (virt, range, w))) as (n & b & -> & Hn & Hns & Hrun & Hm & Hfix & Hroom); try done.
  destruct (Z.eqb_spec (n * PAGE_SIZE) 0); [page_lia |].
  set (w1 := store_ctx w ctx (set_bitmap c b)).
  destruct (setup_phys_spec alloc w1 ctx (set_bitmap c b) n sz phys flags p pa)
    as (w2 & -> & Hw2 & Hmap); try done; [apply store_ctx_lookup | by apply pd_ready_dirs with w | lia |].
  rewrite bind_Ret, u32_small by page_lia. unfold same_but_tables in Hw2.
  destruct (add_range_spec w2 ctx (set_bitmap c b) l a rest
    (Range ctx (n * PAGE_SIZE) (sz * PAGE_SIZE) (CLEANUP_FLAGS flags) [] p))
    as (h & E & Hrep & Hframe); try done; try (rewrite Hw2; done).
  { rewrite Hw2. exact (store_ctx_lookup w ctx (set_bitmap c b)). }
  cbn [vr_addr] in E. eexists n, _, (set_head (set_bitmap c b) a). split; [exact E |]. split; [page_lia |].
  split; [| split; [| split; [| split; [| split; [| split]]]]].
  - split; cbn [set_head set_bitmap vc_lock vc_bitmap vc_ranges store_ctx set_ctxs set_ranges w_ctxs w_ranges].
    + apply lookup_insert_eq.
    + done.
    + apply Hm.
    + by rewrite (proj1 (proj2 Hm)).
    + destruct Hm as (_ & _ & _ & Hbit). rewrite Hbit, H0 by done. by destruct ((n <=? 0) && (0 <? n + sz)).
    + done.
    + apply Forall_cons. split; [by eapply new_range_ok |].
      eapply Forall_impl; [exact Hro |]. intros e. by apply range_ok_marks with n sz.
    + rewrite map_cons, pages_of_new. split; [by eapply free_disjoint_all | done].
  - exact Hfix.
  - exact Hmap.
  - intros ctx' Hne. rewrite Hw2. cbn. by rewrite !lookup_insert_ne.
  - intros x Hx Hx'. cbn. rewrite Hframe by done. by rewrite Hw2.
  - split; cbn; [by rewrite Hw2 .. | done].
  - done.
Qed.

Lemma vm_alloc_at_spec depth w ctx c l sz request phys flags q p pa a rest :
  ctx_inv w ctx c l -> pd_ready w (vc_page_dir c) -> has_flag flags VM_ZERO = false ->
  0 < sz -> 0 <= request < 2 ^ 32 -> place (vc_bitmap c) sz request (has_flag flags VM_FIXED) q ->
  backing w sz phys p pa -> w_kmalloc_ready w = true -> w_supply w = a :: rest -> a <> 0 -> w_ranges w !! a = None ->
  exists virt w' c', vm_alloc_at (S depth) w ctx sz request phys flags = Ret (virt, a, w') /\ 0 < virt /\
    ctx_inv w' ctx c' ((a, Range ctx virt (sz * PAGE_SIZE) (CLEANUP_FLAGS flags) [] p) :: l) /\
    (nz request && has_flag flags VM_FIXED = true -> virt = ALIGN_DOWN request PAGE_SIZE) /\
    maps_pages w w' (vc_page_dir c) virt p sz flags /\
    (forall ctx', ctx' <> ctx -> w_ctxs w' !! ctx' = w_ctxs w !! ctx') /\
    (forall b, b <> a -> b ∉ l.*1 -> w_ranges w' !! b = w_ranges w !! b).
Proof.
  intros Hi Hpd Hz Hsz Hr Hp Hb Hrd Hsup Ha0 Hfree.
  destruct (vm_alloc_at_full depth w ctx c l sz request phys flags q p pa a rest)
    as (n & w' & c' & E & Hn & Hi' & Hf & Hm & Hc & Hra & _); [done .. |].
  exists (n * PAGE_SIZE), w', c'. split; [done |]. split; [page_lia |]. split; [exact Hi' |]. split; [| by auto].
  intros Hx. rewrite (Hf Hx). by destruct (ALIGN_DOWN_page request Hr).
Qed.

(** C2: an allocation without [VM_ZERO] reserves and maps memory.  The conditions: the
    flags do not ask for zeroed memory (then the call also takes pages of the kernel's
    context, see [zeroing_leaks_pages]); there is room at the place that is asked for,
    or where the search looks; physical memory is given or the page allocator has it
    ([backing]; without it the call succeeds all the same, see [vm_alloc_unbacked]);
    the page directory of the context, if it has one, has its tables, with none shared
    between directories; and the heap is ready and gives a record.  Then the call
    returns the address of a new range; the range shares no page with another range of
    the context, lies where a fixed request wants it, every page of it translates to
    its page of the physical memory with the rights of the flags, and all other
    translations, contexts and ranges stay as they were. *)
Theorem vm_alloc_at_correct depth w ctx c l sz request phys flags q p pa a rest :
  ctx_inv w ctx c l -> pd_ready w (vc_page_dir c) -> has_flag flags VM_ZERO = false ->
  0 < sz -> 0 <= request < 2 ^ 32 -> place (vc_bitmap c) sz request (has_flag flags VM_FIXED) q ->
  backing w sz phys p pa -> w_kmalloc_ready w = true -> w_supply w = a :: rest -> a <> 0 -> w_ranges w !! a = None ->
  exists virt w' c', vm_alloc_at (S depth) w ctx sz request phys flags = Ret (virt, a, w') /\
    ctx_inv w' ctx c' ((a, Range ctx virt (sz * PAGE_SIZE) (CLEANUP_FLAGS flags) [] p) :: l) /\
    (nz request && has_flag flags VM_FIXED = true -> virt = ALIGN_DOWN request PAGE_SIZE) /\
    maps_pages w w' (vc_page_dir c) virt p sz flags /\
    (forall ctx', ctx' <> ctx -> w_ctxs w' !! ctx' = w_ctxs w !! ctx') /\
    (forall b, b <> a -> b ∉ l.*1 -> w_ranges w' !! b = w_ranges w !! b).
Proof.
  intros Hi Hpd Hz Hsz Hr Hp Hb Hrd Hsup Ha0 Hfree.
  destruct (vm_alloc_at_spec depth w ctx c l sz request phys flags q p pa a rest) as (virt & w' & c' & E & _ & H); [done .. |].
  by exists virt, w', c'.
Qed.

(** * Release *)

Lemma RDIV_pages m : 0 <= m < 2 ^ 20 -> RDIV (m * PAGE_SIZE) PAGE_SIZE = m.
Proof.
  intros Hm. unfold RDIV. rewrite u32_small by page_lia.
  rewrite Z.add_comm, Z.div_add by done. by rewrite Z.div_small.
Qed.

(** Giving back the pages of one range does not touch those of the others. *)
Lemma range_ok_clear ctx b b' p e :
  length (data b') = length (data b) -> Bitmap.size b' = Bitmap.size b ->
  (forall k, 0 <= k -> bitmap_bit (data b') k =
     if (p.1 <=? k) && (k <? p.1 + p.2) then false else bitmap_bit (data b) k) ->
  disjoint_alloc p (pages_of e) -> range_ok ctx b e -> range_ok ctx b' e.
Proof.
  intros Hl Hs Hb Hd [H1 H2 H3 H4 H5]. split; try done; [lia |].
  eapply marked_bits; [exact Hl | | exact H5]. intros k Hk Hk0 Hm. rewrite Hb by done.
  unfold disjoint_alloc in Hd. zcases; done.
Qed.

Lemma list_unlink_nodup {A} h head (l1 : list (Z * A)) a d l2 :
  list_rep h head (l1 ++ (a, d) :: l2) -> a ∉ (l1 ++ l2).*1.
Proof.
  intros [Hnd _]. rewrite fmap_app, fmap_cons in Hnd. cbn [fst] in Hnd.
  apply NoDup_app in Hnd as (_ & Hdis & [Hn _]%NoDup_cons). rewrite fmap_app.
  intros [Hin | Hin]%elem_of_app; [| done]. apply (Hdis a Hin). left.
Qed.

(** The lemma behind [vm_free_correct]. *)
Lemma vm_free_full w ctx c l1 a r l2 :
  ctx_inv w ctx c (l1 ++ (a, r) :: l2) -> tables_ready w (vc_page_dir c) -> tables_apart w ->
  exists w' c', vm_free w a = Ret (0, w') /\ ctx_inv w' ctx c' (l1 ++ l2) /\
    (forall k, 0 <= k -> bitmap_bit (data (vc_bitmap c')) k =
       bitmap_bit (data (vc_bitmap c)) k && negb (bool_decide (in_pages (vr_addr r) 0 (vr_size r / PAGE_SIZE) (k * PAGE_SIZE)))) /\
    (forall pd' v', 0 <= v' -> walk w' pd' v' =
       if decide (pd' = vc_page_dir c /\ in_pages (vr_addr r) 0 (vr_size r / PAGE_SIZE) v') then None else walk w pd' v') /\
    (forall ctx', ctx' <> ctx -> w_ctxs w' !! ctx' = w_ctxs w !! ctx') /\
    (forall b, b <> a -> b ∉ (l1 ++ l2).*1 -> w_ranges w' !! b = w_ranges w !! b) /\
    rest_same w w' (w_phys w) (w_supply w) /\ vc_page_dir c' = vc_page_dir c /\
    Bitmap.size (vc_bitmap c') = Bitmap.size (vc_bitmap c) /\ length (data (vc_bitmap c')) = length (data (vc_bitmap c)) /\
    first_free (vc_bitmap c') <= first_free (vc_bitmap c).
Proof.
  intros [Hc Hl Hwf Hs H0 Hlist Hro Hdis] Hr Ha.
  assert (range_ok ctx (vc_bitmap c) (a, r)) as [Hctx Haddr Hsize Hfits Hmark].
  { apply Forall_app in Hro as [_ [Hro _]%Forall_cons]. done. }
  cbn [fst snd pages_of] in *. destruct Hmark as (Hn & Hm & Hnb & Hbits). cbn [fst snd pages_of] in *.
  set (n := vr_addr r / PAGE_SIZE) in *. set (m := vr_size r / PAGE_SIZE) in *.
  destruct (list_rep_lookup _ _ _ a r Hlist) as (Ha0 & nd & Hnode & Hdata); [set_solver |].
  unfold vm_free, load_node. rewrite Hnode, bind_Ret, Hdata, Hctx.
  rewrite (ctx_acquire_spec _ _ _ Hc Hl), bind_Ret. unfold load_ctx. rewrite store_ctx_lookup, bind_Ret.
  destruct (list_unlink_spec _ _ _ _ _ _ Hlist) as (h & head & E & Hlist' & Hdel & Hframe).
  cbn [store_ctx set_ctxs set_ctx_lock w_ranges vc_ranges vc_bitmap]. rewrite E, bind_Ret.
  rewrite Hsize, RDIV_pages by lia. fold n m.
  destruct (bitmap_clear_spec (vc_bitmap c) n m) as (b & -> & Hwf' & Hs' & Hff & Hlen & Hb); [done || lia .. |].
  rewrite bind_Ret, (ctx_release_spec _ _ _ (store_ctx_lookup _ _ _)), bind_Ret, store_ctx_twice.
  match goal with |- context [paging_clear_range ?w1 ?pd] => set (w1' := w1) end.
  change (vc_page_dir (set_ctx_lock c 1)) with (vc_page_dir c).
  destruct (paging_clear_range_spec w1' (vc_page_dir c) (vr_addr r) m) as (w2 & -> & Hw2 & Hwalk).
  - destruct Hr. by split.
  - done.
  - page_lia.
  - rewrite Haddr. apply Z_mod_mult.
  - lia.
  - page_lia.
  - rewrite bind_Ret. unfold same_but_tables in Hw2.
    eexists w2, (set_ctx_lock (set_bitmap (set_head (set_ctx_lock c 1) head) b) 0). split; [done |].
    rewrite map_app, map_cons in Hdis. apply pairwise_disjoint_app in Hdis as [Hdis Hda].
    rewrite <- map_app in Hdis, Hda.
    split; [| split; [| split; [| split; [| split; [| split; [| split; [| split]]]]]]].
    + split; cbn [set_head set_bitmap set_ctx_lock vc_lock vc_bitmap vc_ranges]; try done.
      * rewrite Hw2. cbn. apply lookup_insert_eq.
      * lia.
      * rewrite Hb, H0 by done. zcases.
      * rewrite Hw2. cbn. exact Hlist'.
      * apply Forall_app in Hro as [Hro1 [_ Hro2]%Forall_cons].
        assert (Forall (range_ok ctx (vc_bitmap c)) (l1 ++ l2)) as Hro by by apply Forall_app.
        apply Forall_map in Hda. clear - Hro Hda Hlen Hs' Hb.
        induction Hro as [| e l He Hro IH]; [done |]. apply Forall_cons in Hda as [Hd Hda].
        apply Forall_cons. split; [| by apply IH].
        eapply (range_ok_clear ctx (vc_bitmap c) b (n, m)); done.
    + intros k Hk. cbn [set_head set_bitmap set_ctx_lock vc_bitmap]. rewrite Hb by done.
      case_bool_decide as Hin; unfold in_pages in Hin; rewrite Z.div_mul in Hin by done; fold n in Hin;
        zcases; by rewrite ?andb_true_r, ?andb_false_r.
    + exact Hwalk.
    + intros ctx' Hne. rewrite Hw2. cbn. by rewrite !lookup_insert_ne.
    + intros x Hx Hx'. rewrite Hw2. cbn. apply Hframe. rewrite fmap_app in Hx' |- *. rewrite fmap_cons. set_solver.
    + split; by rewrite Hw2.
    + done.
    + done.
    + split; [done |]. cbn [set_head set_bitmap set_ctx_lock vc_bitmap]. rewrite Hff. lia.
Qed.

(** vm_free takes a range out of its context: the other ranges stay, the
    pages are free in the bitmap and no longer translate to anything, and
    every other translation and context stays as it was. *)
Theorem vm_free_correct w ctx c l1 a r l2 :
  ctx_inv w ctx c (l1 ++ (a, r) :: l2) -> tables_ready w (vc_page_dir c) -> tables_apart w ->
  exists w' c', vm_free w a = Ret (0, w') /\ ctx_inv w' ctx c' (l1 ++ l2) /\
    (forall k, 0 <= k -> bitmap_bit (data (vc_bitmap c')) k =
       bitmap_bit (data (vc_bitmap c)) k && negb (bool_decide (in_pages (vr_addr r) 0 (vr_size r / PAGE_SIZE) (k * PAGE_SIZE)))) /\
    (forall pd' v', 0 <= v' -> walk w' pd' v' =
       if decide (pd' = vc_page_dir c /\ in_pages (vr_addr r) 0 (vr_size r / PAGE_SIZE) v') then None else walk w pd' v') /\
    (forall ctx', ctx' <> ctx -> w_ctxs w' !! ctx' = w_ctxs w !! ctx').
Proof.
  intros Hi Hr Ha. destruct (vm_free_full w ctx c l1 a r l2 Hi Hr Ha) as (w' & c' & E & H1 & H2 & H3 & H4 & _).
  by exists w', c'.
Qed.

(** * Looking up *)

Definition covers (addr : Z) (e : Z * vm_range) : bool :=
  bool_decide (in_pages (vr_addr e.2) 0 (vr_size e.2 / PAGE_SIZE) addr).

Lemma covers_spec ctx b addr e :
  range_ok ctx b e -> Bitmap.size b < 2 ^ 20 -> 0 <= addr ->
  covers addr e = (vr_addr e.2 <=? addr) && (addr <? u32 (vr_addr e.2 + vr_size e.2)).
Proof.
  intros [_ H2 H3 H4 (H5 & H6 & _)] Hs Ha. unfold pages_of in *. cbn [fst snd] in *.
  assert (u32 (vr_addr e.2 + vr_size e.2) = vr_addr e.2 + vr_size e.2) as ->
    by (rewrite H2, H3; apply u32_small; page_lia).
  unfold covers. pose proof (Z.div_mod addr 4096). pose proof (Z.mod_pos_bound addr 4096).
  case_bool_decide as Hin; unfold in_pages, PAGE_SIZE in *; zcases.
Qed.

Lemma get_range_loop_find ctx b addr h :
  Bitmap.size b < 2 ^ 20 -> 0 <= addr ->
  forall l fuel pr p last, lseg h pr p l last 0 -> Forall (range_ok ctx b) l -> (length l < fuel)%nat ->
  get_range_loop fuel h addr false p = Ret (default 0 (fst <$> List.find (covers addr) l)).
Proof.
  intros Hs Ha. induction l as [| [a r] l IH]; intros fuel pr p last Hl Hro Hf;
    (destruct fuel as [| fuel]; [simpl in Hf; lia |]); cbn [get_range_loop].
  - destruct Hl as [-> _]. done.
  - destruct Hl as (-> & Ha0 & nx & Hn & Hl). destruct (Z.eqb_spec a 0); [done |].
    apply Forall_cons in Hro as [Hr Hro]. unfold load_node. rewrite Hn, bind_Ret. cbn [nd_data nd_next].
    pose proof (covers_spec ctx b addr (a, r) Hr Hs Ha) as Ec. cbn [snd] in Ec. rewrite <- Ec.
    cbn [List.find]. destruct (covers addr (a, r)); [done |]. eapply IH; [exact Hl | done | simpl in Hf; lia].
Qed.

Lemma get_range_find w ctx c l addr :
  w_ctxs w !! ctx = Some c -> bitmap_wf (vc_bitmap c) -> Bitmap.size (vc_bitmap c) < 2 ^ 20 ->
  list_rep (w_ranges w) (vc_ranges c) l -> Forall (range_ok ctx (vc_bitmap c)) l ->
  0 <= addr -> addr / PAGE_SIZE < nbits (data (vc_bitmap c)) ->
  get_range w ctx addr false = Ret (default 0 (fst <$> List.find (covers addr) l)).
Proof.
  intros Hc Hwf Hs Hl Hro Ha Hlt. unfold get_range, load_ctx. rewrite Hc, bind_Ret. cbn [negb].
  assert (0 <= addr / PAGE_SIZE) by (apply Z.div_pos; [lia | done]).
  destruct (bitmap_get_spec (vc_bitmap c) (addr / PAGE_SIZE)) as (v & -> & Hv); [done | lia |].
  rewrite !bind_Ret. destruct (v =? 0) eqn:E.
  - destruct (List.find (covers addr) l) as [e |] eqn:Ef; [| done]. exfalso.
    apply find_some in Ef as [Hin Hcov%bool_decide_eq_true_1]. apply list_elem_of_In in Hin.
    rewrite Forall_forall in Hro. destruct (Hro e Hin) as [_ _ _ _ (_ & _ & _ & Hm)].
    rewrite Hm in Hv by (unfold in_pages, pages_of in *; cbn [fst snd]; lia).
    unfold nz in Hv. rewrite E in Hv. done.
  - pose proof (list_rep_length _ _ _ Hl). destruct Hl as [_ [last Hl]].
    eapply get_range_loop_find; [exact Hs | done | exact Hl | exact Hro | lia].
Qed.

(** vm_get answers with the range that covers the address, or NULL when no
    range does: it searches the list the way a linear search over the ranges
    of the context would, and gives back the lock. *)
Theorem vm_get_correct w ctx c l addr :
  ctx_inv w ctx c l -> 0 <= addr -> addr / PAGE_SIZE < nbits (data (vc_bitmap c)) ->
  exists w', vm_get w ctx addr false = Ret (default 0 (fst <$> List.find (covers addr) l), w') /\ ctx_inv w' ctx c l.
Proof.
  intros Hinv Ha Hlt. destruct (Hinv) as [Hc Hl Hwf Hs H0 Hlist Hro Hdis]. unfold vm_get.
  rewrite (ctx_acquire_spec _ _ _ Hc Hl), bind_Ret.
  rewrite (get_range_find _ ctx (set_ctx_lock c 1) l) by (done || apply store_ctx_lookup).
  rewrite bind_Ret, (ctx_release_spec _ _ _ (store_ctx_lookup _ _ _)), bind_Ret, store_ctx_twice.
  eexists. split; [done |]. split; try done. cbn. rewrite lookup_insert_eq. destruct c. simpl in Hl. by subst.
Qed.

(** * Mapping *)

(** The address [v] of the source is backed by the physical address [p]. *)
Definition backed (l : list (Z * vm_range)) (flags v p : Z) : Prop :=
  exists a r, List.find (covers v) l = Some (a, r) /\ 0 < vr_phys r /\ vr_phys r + vr_size r <= 2 ^ 32 /\
    (has_flag flags VM_MAP_USER_ONLY = true -> has_flag (vr_flags r) VM_USER = true) /\
    p = vr_phys r + (v - vr_addr r).

(** The physical address the code computes, for the source page [i]. *)
Lemma map_phys src_addr A phys i :
  0 <= src_addr < 2 ^ 32 -> A mod PAGE_SIZE = 0 ->
  0 <= phys + (src_addr / PAGE_SIZE + i) * PAGE_SIZE - A < 2 ^ 32 ->
  u32 (phys + ALIGN_DOWN (u32 (src_addr - A)) PAGE_SIZE + i * PAGE_SIZE) =
  phys + ((src_addr / PAGE_SIZE + i) * PAGE_SIZE - A).
Proof.
  intros Hs HA Hp. pose proof (u32_range (src_addr - A)).
  destruct (ALIGN_DOWN_page (u32 (src_addr - A))) as [-> _]; [done |].
  assert (u32 (src_addr - A) mod PAGE_SIZE = src_addr mod PAGE_SIZE) as E.
  { unfold u32. rewrite Z.mod_mod_divide by (exists (2 ^ 20); done).
    rewrite Zminus_mod, HA, Z.sub_0_r. by apply Z.mod_mod. }
  pose proof (Z.div_mod (u32 (src_addr - A)) PAGE_SIZE ltac:(done)) as Hd1. rewrite E in Hd1.
  pose proof (Z.div_mod src_addr PAGE_SIZE ltac:(done)) as Hd2.
  pose proof (Z.div_mod (src_addr - A) (2 ^ 32) ltac:(done)) as Hd3. fold (u32 (src_addr - A)) in Hd3.
  set (q := (src_addr - A) / 2 ^ 32) in *. set (t := phys + ((src_addr / PAGE_SIZE + i) * PAGE_SIZE - A)).
  replace (phys + u32 (src_addr - A) / PAGE_SIZE * PAGE_SIZE + i * PAGE_SIZE) with (t + (- q) * 2 ^ 32) by lia.
  unfold u32. rewrite Z_mod_plus_full. apply Z.mod_small. lia.
Qed.

Lemma list_rep_insert {A} h head (l : list (Z * A)) a n :
  a ∉ l.*1 -> list_rep h head l -> list_rep (<[a := n]> h) head l.
Proof. intros Ha [Hnd [last Hl]]. split; [done |]. exists last. by apply lseg_insert. Qed.

Section Map.
Context (ctx pd src : Z) (cs : vm_ctx) (ls : list (Z * vm_range)) (a : Z).
Context (src_addr np n flags : Z) (f : Z -> Z) (lk : list (Z * vm_range)).
Let sp := src_addr / PAGE_SIZE.
Context (Haddr : 0 <= src_addr < 2 ^ 32) (Hsp : sp + np <= 2 ^ 20).
Context (Hn : 0 < n) (Hnp : n + np <= 2 ^ 20).
Context (Hbits : sp + np <= nbits (data (vc_bitmap cs))).
Context (Hback : forall i, 0 <= i < np -> backed ls flags ((sp + i) * PAGE_SIZE) (f i)).
Context (Hwf : bitmap_wf (vc_bitmap cs)) (Hsize : Bitmap.size (vc_bitmap cs) < 2 ^ 20).
Context (Hro : Forall (range_ok src (vc_bitmap cs)) ls) (Hnew : a ∉ ls.*1).

(** What the loop finds in every state. *)
Record map_state w : Prop := {
  ms_ctx : w_ctxs w !! src = Some cs;
  ms_list : list_rep (w_ranges w) (vc_ranges cs) ls;
  ms_node : exists sh, list_rep (w_ranges w) a ((a, Range ctx (n * PAGE_SIZE) (np * PAGE_SIZE) (CLEANUP_FLAGS flags) sh 0) :: lk);
  ms_ready : tables_ready w pd;
  ms_apart : tables_apart w;
}.

Lemma add_shard_state w s :
  map_state w -> exists w', add_shard w a s = Ret w' /\ map_state w' /\ w_ctxs w' = w_ctxs w /\
    (forall pd' v', walk w' pd' v' = walk w pd' v') /\ (forall b, b <> a -> w_ranges w' !! b = w_ranges w !! b) /\
    rest_same w w' (w_phys w) (w_supply w).
Proof.
  intros [Hc Hl [sh Hk] Hr Ha]. destruct (list_rep_lookup _ _ _ a (Range ctx (n * PAGE_SIZE) (np * PAGE_SIZE) (CLEANUP_FLAGS flags) sh 0) Hk)
    as (_ & nd & Hnd & Hdata); [left |].
  unfold add_shard, load_node. rewrite Hnd, bind_Ret, Hdata.
  eexists. split; [done |]. split; [| split; [done |]; split; [done |]; split; [| done]].
  - split; try done; cbn [set_ranges w_ranges vr_ctx vr_addr vr_size vr_flags vr_shards vr_phys].
    + by apply list_rep_insert.
    + exists (s :: sh). destruct Hk as [Hno [last (_ & Ha0 & nx & E & Hs)]]. rewrite Hnd in E. simplify_eq.
      split; [exact Hno |]. exists last. split; [done |]. split; [done |]. exists nx. split; [apply lookup_insert_eq |].
      rewrite fmap_cons in Hno. apply NoDup_cons in Hno as [Hno _]. by apply lseg_insert.
    + destruct Hr. by split.
  - intros b Hb. cbn. by apply lookup_insert_ne.
Qed.

Lemma same_but_tables_state w w' : same_but_tables w w' -> map_state w -> map_state w'.
Proof.
  intros E [Hc Hl Hnd Hr Ha]. split.
  - by rewrite E.
  - by rewrite E.
  - by rewrite E.
  - by eapply same_but_tables_ready.
  - by eapply same_but_tables_apart.
Qed.

(** One page: the source range is found, and the page is mapped to its memory. *)
Lemma backed_page w i :
  map_state w -> 0 <= i < np ->
  exists b r nd, get_range w src (u32 (sp * PAGE_SIZE + i * PAGE_SIZE)) false = Ret b /\ b <> 0 /\
    w_ranges w !! b = Some nd /\ nd_data nd = r /\ vr_phys r <> 0 /\
    (has_flag flags VM_MAP_USER_ONLY && negb (has_flag (vr_flags r) VM_USER)) = false /\
    u32 (vr_phys r + ALIGN_DOWN (u32 (src_addr - vr_addr r)) PAGE_SIZE + i * PAGE_SIZE) = f i /\
    0 <= f i /\ f i + PAGE_SIZE <= 2 ^ 32.
Proof.
  intros [Hc Hl _ _ _] Hi. assert (0 <= sp) by (apply Z.div_pos; [lia | done]).
  destruct (Hback i Hi) as (b & r & Hf & Hp & Hpe & Hu & Hfi).
  pose proof Hf as Hf'. apply find_some in Hf' as [Hin Hcov%bool_decide_eq_true_1].
  apply list_elem_of_In in Hin. destruct (list_rep_lookup _ _ _ _ _ Hl Hin) as (Hb0 & nd & Hnd & Hdata).
  rewrite Forall_forall in Hro. destruct (Hro _ Hin) as [_ Ha Hz _ _]. unfold pages_of, in_pages in *.
  cbn [fst snd] in *. rewrite Z.div_mul in Hcov by done.
  set (m := vr_size r / PAGE_SIZE) in *. set (k := vr_addr r / PAGE_SIZE) in *.
  assert (0 <= f i /\ f i + PAGE_SIZE <= 2 ^ 32) as Hfr by page_lia.
  exists b, r, nd. replace (sp * PAGE_SIZE + i * PAGE_SIZE) with ((sp + i) * PAGE_SIZE) by lia.
  rewrite u32_small by page_lia. split.
  { rewrite (get_range_find _ src cs ls); try done; [by rewrite Hf | apply Forall_forall, Hro | page_lia |].
    rewrite Z.div_mul by done. lia. }
  do 3 (split; [done |]). split; [lia |]. split.
  { destruct (has_flag flags VM_MAP_USER_ONLY); [| done]. by rewrite Hu. }
  split; [| done]. rewrite map_phys; [| done | rewrite Ha; apply Z_mod_mult | fold sp; page_lia].
  fold sp. lia.
Qed.

Lemma map_loop_spec fuel w j :
  map_state w -> 0 <= j < np -> np - j < Z.of_nat fuel ->
  exists w', map_loop fuel w ctx pd src src_addr (sp * PAGE_SIZE) (n * PAGE_SIZE) a np flags (j * PAGE_SIZE) j
      = Ret (true, w') /\ map_state w' /\ w_ctxs w' = w_ctxs w /\
    (forall pd' v', 0 <= v' -> walk w' pd' v' =
      if decide (pd' = pd /\ in_pages (n * PAGE_SIZE) j np v')
      then Some (entry_for flags (f (v' / PAGE_SIZE - n))) else walk w pd' v') /\
    (forall b, b <> a -> w_ranges w' !! b = w_ranges w !! b) /\ rest_same w w' (w_phys w) (w_supply w).
Proof.
  revert w j. induction fuel as [| fuel IH]; intros w j Hms Hj Hf; [lia |]. cbn [map_loop].
  destruct (backed_page w j Hms Hj) as (b & r & nd & -> & Hb0 & Hnd & Hdata & Hp & Hu & Hphys & Hf0 & Hf1).
  rewrite bind_Ret. destruct (Z.eqb_spec b 0); [done |]. unfold load_node. rewrite Hnd, bind_Ret, Hdata.
  destruct (Z.eqb_spec (vr_phys r) 0); [done |]. rewrite Hu, Hphys.
  rewrite (u32_small (n * PAGE_SIZE + j * PAGE_SIZE)) by page_lia.
  destruct (add_shard_state w (Shard (n * PAGE_SIZE + j * PAGE_SIZE) (f j)) Hms) as (w1 & -> & Hms1 & Hc1 & Hw1 & Hf1' & Hrs1).
  rewrite bind_Ret. destruct (paging_set_range_spec alloc_table w1 pd (n * PAGE_SIZE + j * PAGE_SIZE) (f j) 1 flags)
    as (w2 & E & Hs2 & Hw2); try apply Hms1; try page_lia.
  { rewrite <- Z.mul_add_distr_r. apply Z_mod_mult. }
  rewrite Z.mul_1_l in E. rewrite E, bind_Ret.
  assert (map_state w2) as Hms2 by by eapply same_but_tables_state.
  assert ((forall b, b <> a -> w_ranges w2 !! b = w_ranges w !! b) /\ rest_same w w2 (w_phys w) (w_supply w)) as [Hf2 Hrs2].
  { destruct Hrs1 as [? ? ? ? ?]. rewrite Hs2. by split; [| split]. }
  assert (n * PAGE_SIZE / PAGE_SIZE = n /\ (n * PAGE_SIZE + j * PAGE_SIZE) / PAGE_SIZE = n + j) as [E0 E1]
    by (rewrite Z.div_add, Z.div_mul by done; done).
  assert (forall pd' v', 0 <= v' -> walk w2 pd' v' =
    if decide (pd' = pd /\ v' / PAGE_SIZE = n + j) then Some (entry_for flags (f j)) else walk w pd' v') as Hstep.
  { intros pd' v' Hv'. rewrite Hw2, Hw1 by done. apply decide_one_page; [done |]. intros E'.
    rewrite E1, E'. do 2 f_equal. lia. }
  destruct (Z.ltb_spec (j + 1) np) as [Hlt | Hge].
  - rewrite u32_small by page_lia. replace (j * PAGE_SIZE + PAGE_SIZE) with ((j + 1) * PAGE_SIZE) by lia.
    destruct (IH w2 (j + 1)) as (w3 & -> & Hms3 & Hc3 & Hw3 & Hf3 & Hrs3); [done | lia | lia |].
    exists w3. split; [done |]. split; [done |]. split; [rewrite Hc3, Hs2; done |]. split; [| split].
    + intros pd' v' Hv'. rewrite Hw3, Hstep by done.
      apply decide_pages; [done | lia |]. intros E'. do 3 f_equal. lia.
    + intros x Hx. by rewrite Hf3, Hf2.
    + destruct Hrs2, Hrs3. split; congruence.
  - exists w2. split; [done |]. split; [done |]. split; [by rewrite Hs2 |]. split; [| done].
    intros pd' v' Hv'. rewrite Hstep by done. replace np with (j + 1) by lia.
    apply decide_page_last; [done |]. intros E'. do 3 f_equal. lia.
Qed.

End Map.

Lemma store_ctx_lookup_ne w ctx ctx' c :
  ctx <> ctx' -> w_ctxs (store_ctx w ctx c) !! ctx' = w_ctxs w !! ctx'.
Proof. intros Hne. by apply lookup_insert_ne. Qed.

Lemma insert_range_spec w ctx c l a r :
  w_ctxs w !! ctx = Some c -> list_rep (w_ranges w) (vc_ranges c) l -> a <> 0 -> w_ranges w !! a = None ->
  exists h, insert_range w ctx a r = Ret (store_ctx (set_ranges w h) ctx (set_head c a)) /\
    list_rep h a ((a, r) :: l) /\ forall b, b <> a -> b ∉ l.*1 -> h !! b = w_ranges w !! b.
Proof.
  intros Hc Hl Ha Hn. destruct (list_push_spec _ _ _ a r Hl Ha Hn) as (h & E & Hr & Hf).
  exists h. unfold insert_range, load_ctx. rewrite Hc, bind_Ret, E, bind_Ret. done.
Qed.

(** The pages [src_addr] to [src_addr + sz] are on. *)
Definition map_pages (src_addr sz : Z) : Z := RDIV (u32 (sz + src_addr mod PAGE_SIZE)) PAGE_SIZE.

(** The lemma behind [vm_map_correct]. *)
Lemma vm_map_full w ctx src c cs l ls src_addr sz flags a rest q f :
  ctx <> src -> ctx_inv w ctx c l -> ctx_inv w src cs ls -> (forall b, b ∈ l.*1 -> b ∉ ls.*1) ->
  tables_ready w (vc_page_dir c) -> tables_apart w ->
  PAGE_SIZE <= src_addr < 2 ^ 32 -> 0 < sz -> sz + 2 * PAGE_SIZE <= 2 ^ 32 ->
  let np := map_pages src_addr sz in
  place (vc_bitmap c) np 0 false q -> src_addr / PAGE_SIZE + np <= Bitmap.size (vc_bitmap cs) ->
  (forall i, 0 <= i < np -> backed ls flags ((src_addr / PAGE_SIZE + i) * PAGE_SIZE) (f i)) ->
  w_kmalloc_ready w = true -> w_supply w = a :: rest -> a <> 0 -> w_ranges w !! a = None ->
  exists n w' c' sh, vm_map w ctx src src_addr sz flags = Ret (n * PAGE_SIZE + src_addr mod PAGE_SIZE, a, w') /\ 0 < n /\
    ctx_inv w' ctx c' ((a, Range ctx (n * PAGE_SIZE) (np * PAGE_SIZE) (CLEANUP_FLAGS flags) sh 0) :: l) /\
    src_addr mod PAGE_SIZE + sz <= np * PAGE_SIZE /\
    (forall pd' v', 0 <= v' -> walk w' pd' v' =
      if decide (pd' = vc_page_dir c /\ in_pages (n * PAGE_SIZE) 0 np v')
      then Some (entry_for flags (f (v' / PAGE_SIZE - n))) else walk w pd' v') /\
    (forall ctx', ctx' <> ctx -> w_ctxs w' !! ctx' = w_ctxs w !! ctx') /\
    (forall b, b <> a -> b ∉ l.*1 -> w_ranges w' !! b = w_ranges w !! b) /\
    rest_same w w' (w_phys w) rest /\ vc_page_dir c' = vc_page_dir c /\ marks (vc_bitmap c) (vc_bitmap c') n np /\
    free_run (data (vc_bitmap c)) n np /\
    (forall m, room (vc_bitmap c) m q -> np <= m -> room (vc_bitmap c') (m - np) (q + np)).
Proof.
  intros Hne Hi His Hap Hr Ha Hsa Hsz Hmax np Hpl Hsp Hback Hrd Hsup Ha0 Hnone.
  destruct Hi as [Hc Hl Hwf Hs H0 Hlist Hro Hdis]. destruct His as [Hcs Hls Hwfs Hss _ Hlists Hros _].
  pose proof (Z.mod_pos_bound src_addr PAGE_SIZE ltac:(done)) as Ho. pose proof (bitmap_wf_nbits _ Hwfs) as Hnbs.
  assert (0 < np /\ src_addr mod PAGE_SIZE + sz <= np * PAGE_SIZE) as [Hnp Hbytes].
  { unfold np, map_pages. rewrite (u32_small (sz + src_addr mod PAGE_SIZE)) by page_lia.
    destruct (RDIV_spec (sz + src_addr mod PAGE_SIZE) PAGE_SIZE); page_lia. }
  assert (a ∉ ls.*1) as Hnew.
  { intros Hin. destruct (list_rep_elem _ _ _ _ Hlists Hin) as [? ?]. congruence. }
  unfold vm_map. destruct (ALIGN_DOWN_page src_addr) as [-> _]; [page_lia |].
  assert (0 < src_addr / PAGE_SIZE) as Hsp0 by (apply Z.div_str_pos; page_lia).
  destruct (Z.eqb_spec (src_addr / PAGE_SIZE * PAGE_SIZE) 0) as [? | _]; [page_lia |].
  rewrite (ctx_acquire_spec _ _ _ Hc Hl), bind_Ret.
  rewrite (ctx_acquire_spec _ src cs) by (done || by rewrite store_ctx_lookup_ne). rewrite bind_Ret.
  fold (map_pages src_addr sz). fold np. set (w2 := store_ctx _ src _).
  assert (w_ctxs w2 !! ctx = Some (set_ctx_lock c 1)) as Hc2
    by (unfold w2; rewrite store_ctx_lookup_ne by done; apply store_ctx_lookup).
  destruct (alloc_virt_spec w2 ctx (set_ctx_lock c 1) np 0 false q) as (n & b & -> & Hn & Hns & Hrun & Hmk & _ & Hroom); try done.
  cbn [set_ctx_lock vc_bitmap] in Hns. rewrite bind_Ret. destruct (Z.eqb_spec (n * PAGE_SIZE) 0) as [? | _]; [page_lia |].
  unfold new_range. cbn [store_ctx set_ctxs w_supply w_kmalloc_ready w2]. rewrite Hrd, Hsup. cbn [negb]. rewrite bind_Ret. destruct (Z.eqb_spec a 0) as [? | _]; [done |].
  match goal with |- context [insert_range ?w3 ctx a ?r] =>
    destruct (insert_range_spec w3 ctx (set_bitmap (set_ctx_lock c 1) b) l a r) as (h & -> & Hh & Hf);
      [apply lookup_insert_eq | done .. |] end.
  rewrite bind_Ret, (ctx_release_spec _ _ _ (store_ctx_lookup _ _ _)), bind_Ret, store_ctx_twice.
  match goal with |- context [ctx_release ?w4 src] => assert (w_ctxs w4 !! src = Some (set_ctx_lock cs 1)) as Hcs4 end.
  { cbn. rewrite !lookup_insert_ne by done. apply lookup_insert_eq. }
  rewrite (ctx_release_spec _ _ _ Hcs4), bind_Ret. unfold load_ctx. rewrite store_ctx_lookup_ne, store_ctx_lookup by done.
  rewrite bind_Ret. cbn [vc_page_dir set_ctx_lock set_head set_bitmap]. match goal with |- context [map_loop _ ?w5] => set (w5' := w5) end.
  destruct (map_loop_spec ctx (vc_page_dir c) src cs ls a src_addr np n flags f l) with (fuel := S (Z.to_nat np)) (w := w5') (j := 0)
    as (w6 & E & Hms & Hc6 & Hw6 & Hf6 & Hrs6); try done; try lia.
  - split; try done.
    + unfold w5'. rewrite store_ctx_lookup. destruct cs. simpl in Hls. by subst.
    + cbn. destruct Hlists as [Hnd [last Hseg]]. split; [done |]. exists last. eapply lseg_frame; [| exact Hseg].
      intros x Hx. apply Hf; [by intros -> |]. intros Hx'. by apply (Hap x).
    + exists []. cbn. rewrite (u32_small (np * PAGE_SIZE)) in Hh by page_lia. exact Hh.
    + destruct Hr. by split.
  - change (0 * PAGE_SIZE) with 0 in E. rewrite E, bind_Ret, u32_small by page_lia.
    destruct Hms as [_ _ [sh Hrep] _ _]. eexists n, w6, (set_head (set_bitmap c b) a), sh.
    split; [done |]. split; [done |]. cbn [set_ctx_lock vc_bitmap] in Hmk, Hrun, Hroom.
    split; [| split; [done |]; split; [done |]; split; [| split; [| split; [| split; [done |]; split; [done |]; split; [done |]]]]].
    + split; cbn [set_head set_bitmap vc_lock vc_bitmap vc_ranges]; try done.
      * rewrite Hc6. unfold w5'. rewrite store_ctx_lookup_ne, store_ctx_lookup by done. destruct c. simpl in Hl. by subst.
      * apply Hmk.
      * by rewrite (proj1 (proj2 Hmk)).
      * destruct Hmk as (_ & _ & _ & Hbit). rewrite Hbit, H0 by done. by destruct ((n <=? 0) && (0 <? n + np)).
      * apply Forall_cons. split; [by eapply (new_range_ok ctx (vc_bitmap c)) |].
        eapply Forall_impl; [exact Hro |]. intros e. by apply range_ok_marks with n np.
      * rewrite map_cons, pages_of_new. split; [by eapply free_disjoint_all | done].
    + intros ctx' Hne'. rewrite Hc6. unfold w5'. destruct (decide (ctx' = src)) as [-> | Hns'].
      * rewrite store_ctx_lookup, Hcs. destruct cs. simpl in Hls. by subst.
      * rewrite store_ctx_lookup_ne by done. cbn. by rewrite !lookup_insert_ne by done.
    + intros x Hx Hx'. rewrite Hf6 by done. cbn. by apply Hf.
    + destruct Hrs6. by split.
    + intros m Hm Hle. by apply Hroom.
Qed.

(** C9: vm_map makes memory of one context visible in another: when every page
    the bytes are on belongs to a range of the source (and to one of user
    memory if only that may be mapped), the call returns the address of the
    same byte in new pages of the target, page k of these translates to the
    physical memory behind page k of the source, also across several source
    ranges, and no other translation changes. *)
Theorem vm_map_correct w ctx src c cs l ls src_addr sz flags a rest q f :
  ctx <> src -> ctx_inv w ctx c l -> ctx_inv w src cs ls -> (forall b, b ∈ l.*1 -> b ∉ ls.*1) ->
  tables_ready w (vc_page_dir c) -> tables_apart w ->
  PAGE_SIZE <= src_addr < 2 ^ 32 -> 0 < sz -> sz + 2 * PAGE_SIZE <= 2 ^ 32 ->
  let np := map_pages src_addr sz in
  place (vc_bitmap c) np 0 false q -> src_addr / PAGE_SIZE + np <= Bitmap.size (vc_bitmap cs) ->
  (forall i, 0 <= i < np -> backed ls flags ((src_addr / PAGE_SIZE + i) * PAGE_SIZE) (f i)) ->
  w_kmalloc_ready w = true -> w_supply w = a :: rest -> a <> 0 -> w_ranges w !! a = None ->
  exists n w', vm_map w ctx src src_addr sz flags = Ret (n * PAGE_SIZE + src_addr mod PAGE_SIZE, a, w') /\
    w_ctxs w' !! src = Some cs /\ src_addr mod PAGE_SIZE + sz <= np * PAGE_SIZE /\
    forall pd' v', 0 <= v' -> walk w' pd' v' =
      if decide (pd' = vc_page_dir c /\ in_pages (n * PAGE_SIZE) 0 np v')
      then Some (entry_for flags (f (v' / PAGE_SIZE - n))) else walk w pd' v'.
Proof.
  intros Hne Hi His Hap Hr Ha Hsa Hsz Hmax np Hpl Hsp Hback Hrd Hsup Ha0 Hnone.
  destruct (vm_map_full w ctx src c cs l ls src_addr sz flags a rest q f)
    as (n & w' & c' & sh & E & _ & _ & Hb & Hw & Hc & _); [done .. |].
  exists n, w'. split; [done |]. split; [| done]. rewrite Hc by done. apply His.
Qed.

(** * The kernel's page tables *)

Lemma init_tables_spec n w pd i :
  0 <= w_alloc_end w -> w_alloc_end w + Z.of_nat n * PAGE_SIZE < 2 ^ 32 ->
  let w' := init_tables n w pd i in
  w_alloc_end w' = w_alloc_end w + Z.of_nat n * PAGE_SIZE /\
  forall pd' j, dir_entry w' pd' j =
    if decide (pd' = pd /\ i <= j < i + Z.of_nat n)
    then Page true true false (Z.shiftr (w_alloc_end w + (j - i) * PAGE_SIZE) 12) else dir_entry w pd' j.
Proof.
  revert w i. induction n as [| n IH]; intros w i H0 Hmax.
  - split; [cbn; lia |]. intros pd' j. case_decide; [lia | done].
  - cbn [init_tables]. set (w1 := World _ _ _ _ _ _ _ _ _).
    assert (w_alloc_end w1 = w_alloc_end w + PAGE_SIZE) as E1 by (cbn; apply u32_small; page_lia).
    destruct (IH w1 (i + 1)) as [E2 Hd]; [page_lia .. |].
    split; [rewrite E2, E1; lia |]. intros pd' j. rewrite Hd, E1.
    assert (dir_entry w1 pd' j = if decide (pd' = pd /\ j = i) then Page true true false (Z.shiftr (w_alloc_end w) 12)
      else dir_entry w pd' j) as ->.
    { unfold dir_entry. cbn [w1 w_dirs]. case_decide as Hk.
      - destruct Hk as [-> ->]. by rewrite lookup_insert_eq.
      - rewrite lookup_insert_ne; [done |]. intros [= -> ->]. by apply Hk. }
    repeat case_decide; try done; try (exfalso; intuition lia).
    + do 2 f_equal. lia.
    + do 2 f_equal. replace (j - i) with 0 by lia. lia.
Qed.

Lemma table_of_aligned k rw us : 0 <= k < 2 ^ 20 -> table_of (Page true rw us (Z.shiftr (k * PAGE_SIZE) 12)) = k * PAGE_SIZE.
Proof.
  intros Hk. unfold table_of. cbn [pg_frame]. change PAGE_SIZE with (2 ^ 12).
  rewrite Z.shiftr_div_pow2, Z.div_mul, Z.shiftl_mul_pow2 by lia. apply u32_small. lia.
Qed.

(** After [paging_init] every entry of the kernel's directory has a table. *)
Lemma init_tables_ready w k pd :
  w_dirs w = ∅ -> w_alloc_end w = k * PAGE_SIZE -> 0 < k -> k + 1024 < 2 ^ 20 -> pd <> 0 ->
  let w' := init_tables 1024 w pd 0 in tables_ready w' pd /\ tables_apart w'.
Proof.
  intros Hd He Hk Hmax Hpd w'. destruct (init_tables_spec 1024 w pd 0) as [E Hent]; [page_lia .. |]. fold w' in E, Hent.
  assert (forall i, 0 <= i < 1024 -> dir_entry w' pd i = Page true true false (Z.shiftr ((k + i) * PAGE_SIZE) 12)) as Hin.
  { intros i Hi. rewrite Hent. rewrite decide_True by (split; [done | lia]). do 2 f_equal. page_lia. }
  assert (forall pd' i, pg_present (dir_entry w' pd' i) = true -> pd' = pd /\ 0 <= i < 1024) as Honly.
  { intros pd' i Hp. rewrite Hent in Hp. case_decide; [split; [tauto | lia] |].
    unfold dir_entry in Hp. rewrite Hd, lookup_empty in Hp. done. }
  split; [split; [done | |] |].
  - intros i Hi. by rewrite Hin.
  - intros i Hi. rewrite Hin, table_of_aligned, E by lia. page_lia.
  - intros pd1 i1 pd2 i2 H1 H2 Ht. apply Honly in H1 as [-> H1]. apply Honly in H2 as [-> H2].
    rewrite !Hin, !table_of_aligned in Ht by lia. split; [done | page_lia].
Qed.

Lemma init_tables_fields n w pd i :
  let w' := init_tables n w pd i in
  w_ctxs w' = w_ctxs w /\ w_ranges w' = w_ranges w /\ w_phys w' = w_phys w /\ w_supply w' = w_supply w /\
  w_kmalloc_ready w' = w_kmalloc_ready w.
Proof. revert w i. induction n as [| n IH]; intros w i; [done |]. exact (IH _ _). Qed.

(** * A machine with the kernel and a task, a range of two pages in each *)

Definition ex_bitmap : bitmap := Bitmap [7; 0; 0] 64 0.
Definition ex_ctx (head pd : Z) : vm_ctx := VmCtx 0 ex_bitmap head pd pd.
Definition ex_range (ctx phys : Z) : vm_range := Range ctx 0x1000 0x2000 (Z.lor VM_RW VM_USER) [] phys.
Definition EX_TASK : Z := 0x2222.

Definition ex_boot : vmworld :=
  World {[VM_KERNEL := ex_ctx 0x100 0x2000; EX_TASK := ex_ctx 0x200 0]}
    {[0x100 := Node 0 0 (ex_range VM_KERNEL 0x3000); 0x200 := Node 0 0 (ex_range EX_TASK 0x8000)]}
    (PageCtx 0 ex_bitmap) ∅ ∅ (16 * PAGE_SIZE) [0x300; 0x400] true 50.

Definition ex_world : vmworld := init_tables 1024 ex_boot 0x2000 0.

Lemma ex_ready : tables_ready ex_world 0x2000 /\ tables_apart ex_world.
Proof. apply (init_tables_ready ex_boot 16 0x2000); done. Qed.

Lemma ex_bitmap_wf : bitmap_wf ex_bitmap.
Proof.
  split; simpl; try lia.
  - repeat constructor; lia.
  - vm_compute. split; [done | discriminate].
Qed.

Lemma ex_bits k : 3 <= k < 64 -> bitmap_bit (data ex_bitmap) k = false.
Proof.
  intros Hk. destruct (decide (k < 32)) as [H |].
  - replace k with (32 * 0 + k) by lia. rewrite (bitmap_bit_load _ 0 7) by (done || lia).
    apply Z.bits_above_log2; simpl; lia.
  - replace k with (32 * 1 + (k - 32)) by lia. rewrite (bitmap_bit_load _ 1 0) by (done || lia). apply Z.bits_0.
Qed.

Lemma ex_inv w ctx a pd phys :
  w_ctxs w = w_ctxs ex_boot -> w_ranges w = w_ranges ex_boot ->
  w_ctxs ex_boot !! ctx = Some (ex_ctx a pd) -> w_ranges ex_boot !! a = Some (Node 0 0 (ex_range ctx phys)) -> a <> 0 ->
  ctx_inv w ctx (ex_ctx a pd) [(a, ex_range ctx phys)].
Proof.
  intros E1 E2 Hc Hn Ha. split; try done.
  - by rewrite E1.
  - apply ex_bitmap_wf.
  - rewrite E2. split; [by apply NoDup_singleton |]. exists a. simpl. eauto 10.
  - apply Forall_singleton. split; try done. unfold marked, pages_of. simpl. repeat split; try done; try lia.
    intros k Hk. change (0x1000 / PAGE_SIZE) with 1 in Hk. change (0x2000 / PAGE_SIZE) with 2 in Hk.
    assert (k = 1 \/ k = 2) as [-> | ->] by lia; done.
Qed.

Lemma ex_fields :
  w_ctxs ex_world = w_ctxs ex_boot /\ w_ranges ex_world = w_ranges ex_boot /\ w_phys ex_world = w_phys ex_boot /\
  w_supply ex_world = w_supply ex_boot /\ w_kmalloc_ready ex_world = w_kmalloc_ready ex_boot.
Proof. apply init_tables_fields. Qed.

Lemma ex_kernel_inv : ctx_inv ex_world VM_KERNEL (ex_ctx 0x100 0x2000) [(0x100, ex_range VM_KERNEL 0x3000)].
Proof. destruct ex_fields as (E1 & E2 & _). apply ex_inv; [exact E1 | exact E2 | done ..]. Qed.

Lemma ex_task_inv : ctx_inv ex_world EX_TASK (ex_ctx 0x200 0) [(0x200, ex_range EX_TASK 0x8000)].
Proof. destruct ex_fields as (E1 & E2 & _). apply ex_inv; [exact E1 | exact E2 | done ..]. Qed.

Lemma ex_place sz : 0 < sz <= 61 -> place ex_bitmap sz 0 false 3.
Proof.
  intros Hs. split; [lia |]. split; [simpl; lia |]. split; [| vm_compute; discriminate].
  intros k Hk. apply ex_bits. lia.
Qed.

Lemma paging_set_clear_witness :
  exists w1 w2, paging_set_range alloc_table ex_world 0x2000 0x3000 0x9000 (2 * PAGE_SIZE) VM_RW = Ret w1 /\
    paging_clear_range w1 0x2000 0x3000 (2 * PAGE_SIZE) = Ret w2 /\
    walk w1 0x2000 0x4010 = Some (Page true true false 10) /\ walk w2 0x2000 0x4010 = None.
Proof.
  destruct (paging_set_clear alloc_table ex_world 0x2000 0x3000 0x9000 2 VM_RW) as (w1 & w2 & E1 & E2 & Hw);
    [apply ex_ready | apply ex_ready | lia | reflexivity | lia | lia | unfold PAGE_SIZE; lia | unfold PAGE_SIZE; lia |].
  exists w1, w2. split; [exact E1 |]. split; [exact E2 |]. apply (Hw 0x2000 0x4010). lia.
Defined.

Lemma vm_alloc_at_correct_witness :
  exists virt w' c', vm_alloc_at 1 ex_world VM_KERNEL 2 0 0 VM_RW = Ret (virt, 0x300, w') /\
    ctx_inv w' VM_KERNEL c'
      [(0x300, Range VM_KERNEL virt 0x2000 VM_RW [] 0x3000); (0x100, ex_range VM_KERNEL 0x3000)].
Proof.
  destruct ex_fields as (Ec & Er & Ep & Es & Ek).
  destruct (vm_alloc_at_correct 0 ex_world VM_KERNEL (ex_ctx 0x100 0x2000) [(0x100, ex_range VM_KERNEL 0x3000)]
    2 0 0 VM_RW 3 0x3000 (PageCtx 0 (Bitmap [0x1f; 0; 0] 64 0)) 0x300 [0x400])
    as (virt & w' & c' & E & Hinv & _).
  - apply ex_kernel_inv.
  - intros _. apply ex_ready.
  - reflexivity.
  - lia.
  - lia.
  - apply ex_place. lia.
  - split; [lia |]. split; [unfold PAGE_SIZE; lia |]. rewrite Ep. vm_compute. reflexivity.
  - rewrite Ek. reflexivity.
  - rewrite Es. reflexivity.
  - lia.
  - rewrite Er. reflexivity.
  - exists virt, w', c'. split; [exact E | exact Hinv].
Defined.

Lemma vm_free_correct_witness :
  exists w' c', vm_free ex_world 0x100 = Ret (0, w') /\ ctx_inv w' VM_KERNEL c' [].
Proof.
  destruct (vm_free_correct ex_world VM_KERNEL (ex_ctx 0x100 0x2000) [] 0x100 (ex_range VM_KERNEL 0x3000) [])
    as (w' & c' & E & Hinv & _); [apply ex_kernel_inv | apply ex_ready | apply ex_ready |].
  exists w', c'. split; [exact E | exact Hinv].
Defined.

Lemma vm_get_correct_witness :
  exists w', vm_get ex_world EX_TASK 0x2fff false = Ret (0x200, w') /\
    ctx_inv w' EX_TASK (ex_ctx 0x200 0) [(0x200, ex_range EX_TASK 0x8000)].
Proof.
  apply (vm_get_correct ex_world EX_TASK (ex_ctx 0x200 0) [(0x200, ex_range EX_TASK 0x8000)] 0x2fff);
    [apply ex_task_inv | lia | reflexivity].
Defined.

Lemma vm_map_correct_witness :
  exists n w', vm_map ex_world VM_KERNEL EX_TASK 0x1ff0 0x100 VM_RW = Ret (n * PAGE_SIZE + 0xff0, 0x300, w') /\
    w_ctxs w' !! EX_TASK = Some (ex_ctx 0x200 0).
Proof.
  destruct ex_fields as (Ec & Er & Ep & Es & Ek).
  destruct (vm_map_correct ex_world VM_KERNEL EX_TASK (ex_ctx 0x100 0x2000) (ex_ctx 0x200 0)
    [(0x100, ex_range VM_KERNEL 0x3000)] [(0x200, ex_range EX_TASK 0x8000)] 0x1ff0 0x100 VM_RW 0x300 [0x400] 3
    (fun i => 0x8000 + i * PAGE_SIZE)) as (n & w' & E & Hc & _).
  - discriminate.
  - apply ex_kernel_inv.
  - apply ex_task_inv.
  - intros b Hb. vm_compute in Hb. apply list_elem_of_singleton in Hb as ->. by apply (bool_decide_unpack _).
  - apply ex_ready.
  - apply ex_ready.
  - unfold PAGE_SIZE. lia.
  - lia.
  - unfold PAGE_SIZE. lia.
  - apply ex_place. vm_compute. split; [reflexivity | discriminate].
  - vm_compute. discriminate.
  - intros i Hi. change (map_pages 0x1ff0 0x100) with 2 in Hi.
    exists 0x200, (ex_range EX_TASK 0x8000).
    assert (i = 0 \/ i = 1) as [-> | ->] by lia; (split; [reflexivity |]; split; [reflexivity |];
      split; [discriminate |]; split; [discriminate | reflexivity]).
  - rewrite Ek. reflexivity.
  - rewrite Es. reflexivity.
  - lia.
  - rewrite Er. reflexivity.
  - exists n, w'. split; [exact E | exact Hc].
Defined.

(** * Where the code falls short *)

(** The example with the first page table only. *)
Definition ex_small : vmworld := init_tables 1 ex_boot 0x2000 0.

Definition world_of {A} (o : outcome (A * vmworld)) : vmworld := match o with Ret (_, w) => w | _ => ex_boot end.

(** Zeroing memory of a task takes as many pages of the kernel's address space
    as are zeroed and gives one back: page 4 stays marked. *)
Lemma zeroing_leaks_pages :
  let w := world_of (vm_alloc_at 2 ex_small EX_TASK 2 0 0 VM_ZERO) in
  (c ← load_ctx w VM_KERNEL; Ret (data (vc_bitmap c))) = Ret [0x17; 0; 0].
Proof. vm_compute. reflexivity. Qed.

(** A range of a context that has no page directory yet cannot be freed. *)
Lemma vm_free_needs_pagedir : vm_free ex_small 0x200 = Fault.
Proof. vm_compute. reflexivity. Qed.

(** When no physical memory is left the call succeeds all the same, with a
    range that nothing backs. *)
Lemma vm_alloc_unbacked :
  let full := set_phys ex_small (PageCtx 0 (Bitmap [0xffffffff; 0xffffffff; 0xffffffff] 64 0)) in
  exists w n, vm_alloc_at 1 full EX_TASK 1 0 0 VM_RW = Ret (0x3000, 0x300, w) /\
    w_ranges w !! 0x300 = Some n /\ vr_phys (nd_data n) = 0.
Proof.
  intros full. exists (world_of (vm_alloc_at 1 full EX_TASK 1 0 0 VM_RW)),
    (Node 0 0x200 (Range EX_TASK 0x3000 0x1000 VM_RW [] 0)).
  split; [vm_compute; reflexivity |]. split; vm_compute; reflexivity.
Qed.

(** [VM_FREE] does not free the memory: [pfree] is defined as nothing. *)
Lemma vm_free_keeps_memory :
  let w := set_ranges ex_small (<[0x100 := Node 0 0 (Range VM_KERNEL 0x1000 0x2000 VM_FREE [] 0x1000)]> (w_ranges ex_small)) in
  exists w', vm_free w 0x100 = Ret (0, w') /\ data (pa_bitmap (w_phys w')) = data (pa_bitmap (w_phys w)).
Proof.
  intros w. exists (world_of (vm_free w 0x100)). split; vm_compute; reflexivity.
Qed.
