(* ===== verification/VmCopy.v ===== *)
(** Copying memory between contexts: [vm_copy] and [vm_clone] of src/src/mem/vm.c,
    which fork uses.

    Here the contents of physical memory are part of the state, a byte for every
    address; memory that was never written holds 0.  The kernel reads and writes
    through its own page tables, with the translation of the processor ([walk]). *)
From stdpp Require Import base numbers list gmap.
From Stdlib Require Import ZArith Lia Bool.
From S2P Require Import Prelude DList PageAlloc Vm VmSpec.

Open Scope Z_scope.

Record copy_state : Type := Copy { cp_world : vmworld; cp_mem : gmap Z Z }.

Definition byte_at (m : gmap Z Z) (p : Z) : Z := default 0 (m !! p).

(** The physical address behind an address of the kernel. *)
Definition kernel_phys w (v : Z) : outcome Z :=
  k ← load_ctx w VM_KERNEL;
  match walk w (vc_page_dir k) v with
  | Some p => Ret (Z.shiftl (pg_frame p) 12 + v mod PAGE_SIZE)
  | None => Fault
  end.

(** [memcpy(dest, src, n)] and [bzero(dest, n)] on memory of the kernel. *)
Fixpoint copy_virt (n : nat) w (m : gmap Z Z) (dest src : Z) : outcome (gmap Z Z) :=
  match n with
  | O => Ret m
  | S n =>
    s ← kernel_phys w src;
    d ← kernel_phys w dest;
    copy_virt n w (<[d := byte_at m s]> m) (dest + 1) (src + 1)
  end.

Fixpoint zero_virt (n : nat) w (m : gmap Z Z) (dest : Z) : outcome (gmap Z Z) :=
  match n with
  | O => Ret m
  | S n => d ← kernel_phys w dest; zero_virt n w (<[d := 0]> m) (dest + 1)
  end.

(** The first part of [vm_copy]: the contents go to new physical pages, whose
    address is the result; None for a failure.  [src] is what the code reads of
    the range. *)
Definition copy_pages (s : copy_state) (src : vm_range) : outcome (option Z * copy_state) :=
  let w := cp_world s in
  '(dest, kernel_dest, w) ← vm_alloc w VM_KERNEL (RDIV (vr_size src) PAGE_SIZE) 0 VM_RW;
  if dest =? 0 then Ret (None, Copy w (cp_mem s)) else
  kd ← load_node (w_ranges w) kernel_dest;
  let phys := vr_phys (nd_data kd) in
  '(src_ptr, kernel_src, w) ←
    (if vr_ctx src =? VM_KERNEL then Ret (vr_addr src, 0, w)
     else vm_map w VM_KERNEL (vr_ctx src) (vr_addr src) (vr_size src) 0);
  if negb (vr_ctx src =? VM_KERNEL) && (src_ptr =? 0) then Ret (None, Copy w (cp_mem s)) else
  m ← copy_virt (Z.to_nat (vr_size src)) w (cp_mem s) dest src_ptr;
  w ← (if vr_ctx src =? VM_KERNEL then Ret w else '(_, w) ← vm_free w kernel_src; Ret w);
  let mod_ := vr_size src mod PAGE_SIZE in
  m ← (if nz mod_ then zero_virt (Z.to_nat (PAGE_SIZE - mod_)) w m (dest + vr_size src - PAGE_SIZE + mod_) else Ret m);
  '(_, w) ← vm_free w kernel_dest;
  Ret (Some phys, Copy w m).

(** The callers do not ask for [result]. *)
Definition vm_copy (s : copy_state) (dest_ctx dest_addr : Z) (src : vm_range) (flags : Z) : outcome (Z * copy_state) :=
  if negb (bool_decide (vr_shards src = [])) then Panic else
  '(r, s) ← copy_pages s src;
  match r with
  | None => Ret (-1, s)
  | Some phys =>
    let w := cp_world s in
    let pages := RDIV (vr_size src) PAGE_SIZE in
    '(addr, _, w) ←
      (if nz dest_addr then vm_alloc_at 3 w dest_ctx pages dest_addr phys (Z.lor flags VM_FIXED)
       else vm_alloc w dest_ctx pages phys flags);
    Ret (if addr =? 0 then -1 else 0, Copy w (cp_mem s))
  end.

Fixpoint clone_loop (fuel : nat) (s : copy_state) (dest range : Z) : outcome (Z * copy_state) :=
  match fuel with
  | O => Spin
  | S fuel =>
    if range =? 0 then Ret (0, s) else
    n ← load_node (w_ranges (cp_world s)) range;
    let r := nd_data n in
    if negb (has_flag (vr_flags r) VM_TFORK) then clone_loop fuel s dest (nd_next n) else
    '(e, s) ← vm_copy s dest (vr_addr r) r (vr_flags r);
    if nz e then Ret (-1, s) else
    n ← load_node (w_ranges (cp_world s)) range;
    clone_loop fuel s dest (nd_next n)
  end.

Definition vm_clone (s : copy_state) (dest src : Z) : outcome (Z * copy_state) :=
  c ← load_ctx (cp_world s) src;
  clone_loop (S (base.size (w_ranges (cp_world s)))) s dest (vc_ranges c).
