(* ===== verification/VmCopySpec.v ===== *)
(** Copying memory (VmCopy.v): a cloned context has the memory of the original
    at the same addresses, in physical pages of its own. *)
From stdpp Require Import base numbers list gmap.
From Stdlib Require Import ZArith Lia Bool.
From S2P Require Import Prelude DList Bitmap PageAlloc Vm VmSpec VmCopy.

Open Scope Z_scope.

(** * Copying bytes *)

Lemma byte_at_insert m d x p : byte_at (<[d := x]> m) p = if decide (p = d) then x else byte_at m p.
Proof.
  unfold byte_at. destruct (decide (p = d)) as [-> |]; [by rewrite lookup_insert_eq | by rewrite lookup_insert_ne].
Qed.

(** The [n] bytes at [v] are those at the physical address [p]. *)
Definition mapped_to w (v p n : Z) : Prop := forall i, 0 <= i < n -> kernel_phys w (v + i) = Ret (p + i).

Lemma copy_virt_spec n w m dest src d s :
  mapped_to w dest d (Z.of_nat n) -> mapped_to w src s (Z.of_nat n) ->
  d + Z.of_nat n <= s \/ s + Z.of_nat n <= d ->
  exists m', copy_virt n w m dest src = Ret m' /\
    forall p, byte_at m' p = if decide (d <= p < d + Z.of_nat n) then byte_at m (s + (p - d)) else byte_at m p.
Proof.
  revert m dest src d s. induction n as [| n IH]; intros m dest src d s Hd Hs Hap; cbn [copy_virt].
  { exists m. split; [done |]. intros p. by rewrite decide_False by lia. }
  assert (forall v q, mapped_to w v q (Z.of_nat (S n)) -> kernel_phys w v = Ret q /\ mapped_to w (v + 1) (q + 1) (Z.of_nat n)) as Hstep.
  { intros v q Hq. split; [specialize (Hq 0 ltac:(lia)); by rewrite !Z.add_0_r in Hq |].
    intros i Hi. specialize (Hq (i + 1) ltac:(lia)). rewrite <- !Z.add_assoc, (Z.add_comm 1 i). exact Hq. }
  destruct (Hstep _ _ Hd) as [Ed Hd']. destruct (Hstep _ _ Hs) as [Es Hs']. rewrite Es, bind_Ret, Ed, bind_Ret.
  destruct (IH (<[d := byte_at m s]> m) _ _ _ _ Hd' Hs' ltac:(lia)) as (m' & -> & Hm). exists m'. split; [done |].
  intros p. rewrite Hm, !byte_at_insert.
  destruct (decide (d + 1 <= p < d + 1 + Z.of_nat n)).
  - rewrite decide_False, decide_True by lia. f_equal. lia.
  - destruct (decide (p = d)) as [-> |]; [rewrite decide_True by lia; f_equal; lia | by rewrite decide_False by lia].
Qed.

(** Pages the kernel's directory maps one behind the other. *)
Lemma mapped_pages w k n p np flags :
  w_ctxs w !! VM_KERNEL = Some k -> 0 <= n -> p mod PAGE_SIZE = 0 ->
  (forall v, 0 <= v -> in_pages (n * PAGE_SIZE) 0 np v ->
     walk w (vc_page_dir k) v = Some (entry_for flags (p + (v / PAGE_SIZE - n) * PAGE_SIZE))) ->
  mapped_to w (n * PAGE_SIZE) p (np * PAGE_SIZE).
Proof.
  intros Hk Hn Hp Hw i Hi. unfold kernel_phys, load_ctx. rewrite Hk, bind_Ret.
  assert ((n * PAGE_SIZE + i) / PAGE_SIZE = n + i / PAGE_SIZE /\ (n * PAGE_SIZE + i) mod PAGE_SIZE = i mod PAGE_SIZE) as [Ed Em].
  { split; [rewrite Z.add_comm, Z.div_add by done; lia | rewrite Z.add_comm; by apply Z_mod_plus_full]. }
  assert (0 <= i / PAGE_SIZE < np) by (split; [apply Z.div_pos | apply Z.div_lt_upper_bound]; page_lia).
  rewrite Hw; [| page_lia | unfold in_pages; rewrite Ed, Z.div_mul by done; lia].
  unfold entry_for. cbn [pg_frame]. rewrite Ed, Em, Z.shiftr_div_pow2, Z.shiftl_mul_pow2 by lia.
  change (2 ^ 12) with PAGE_SIZE. f_equal. replace (n + i / PAGE_SIZE - n) with (i / PAGE_SIZE) by lia.
  rewrite Z.div_add by done. pose proof (Z.div_mod p PAGE_SIZE ltac:(done)). pose proof (Z.div_mod i PAGE_SIZE ltac:(done)). lia.
Qed.

(** * What copying needs *)

(** Physical memory: the allocator can be used. *)
Record phys_ok (pa : mem_page_alloc_ctx) : Prop := {
  po_lock : pa_lock pa = 0;
  po_wf : bitmap_wf (pa_bitmap pa);
  po_size : Bitmap.size (pa_bitmap pa) <= 2 ^ 20 - 32;
  po_zero : bitmap_bit (data (pa_bitmap pa)) 0 = true;
}.

(** The page of a physical address is in use. *)
Definition used (pa : mem_page_alloc_ctx) (p : Z) : Prop := bitmap_bit (data (pa_bitmap pa)) (p / PAGE_SIZE) = true.

(** A range fork can copy: backed by whole pages that are in use. *)
Record forkable (pa : mem_page_alloc_ctx) (r : vm_range) : Prop := {
  fk_shards : vr_shards r = [];
  fk_flags : vr_flags r = CLEANUP_FLAGS (vr_flags r);
  fk_phys : 0 < vr_phys r;
  fk_end : vr_phys r + vr_size r <= 2 ^ 32;
  fk_aligned : vr_phys r mod PAGE_SIZE = 0;
  fk_used : forall p, vr_phys r <= p < vr_phys r + vr_size r -> used pa p;
}.

(** The objects kmalloc gives next are new. *)
Definition fresh w : Prop := NoDup (w_supply w) /\ forall a, a ∈ w_supply w -> a <> 0 /\ w_ranges w !! a = None.

Lemma flags_no_zero f : f = CLEANUP_FLAGS f -> has_flag (Z.lor f VM_FIXED) VM_ZERO = false /\ CLEANUP_FLAGS (Z.lor f VM_FIXED) = f.
Proof.
  intros E. unfold CLEANUP_FLAGS in *. cbn [Z.lor VM_RW VM_USER VM_FREE VM_TFORK VM_NOCOW Pos.lor] in *. split.
  - rewrite E. unfold has_flag, VM_FIXED, VM_ZERO. rewrite Z.land_lor_distr_l, <- Z.land_assoc. cbn. by rewrite Z.land_0_r.
  - rewrite Z.land_lor_distr_l. cbn [VM_FIXED Z.land Pos.land]. by rewrite Z.lor_0_r.
Qed.

(** The search finds a range of the list. *)
Lemma find_covers ctx b l a r v :
  Forall (range_ok ctx b) l -> pairwise_disjoint (map pages_of l) -> (a, r) ∈ l -> covers v (a, r) = true ->
  List.find (covers v) l = Some (a, r).
Proof.
  induction l as [| e l IH]; intros Hro Hd Hin Hc; [by apply not_elem_of_nil in Hin |].
  apply Forall_cons in Hro as [_ Hro]. rewrite map_cons in Hd. destruct Hd as [Hd Hds]. cbn [List.find].
  apply elem_of_cons in Hin as [<- | Hin]; [by rewrite Hc |].
  destruct (covers v e) eqn:E; [| by apply IH]. exfalso. rewrite Forall_map, Forall_forall in Hd. specialize (Hd _ Hin).
  unfold covers in *. apply bool_decide_eq_true_1 in E, Hc. unfold disjoint_alloc, pages_of, in_pages in *. cbn [fst snd] in *. lia.
Qed.

(** * The contexts *)

Lemma ctx_inv_frame w w' ctx c l :
  ctx_inv w ctx c l -> w_ctxs w' !! ctx = w_ctxs w !! ctx -> (forall b, b ∈ l.*1 -> w_ranges w' !! b = w_ranges w !! b) ->
  ctx_inv w' ctx c l.
Proof.
  intros [Hc Hl Hwf Hs H0 [Hnd [last Hseg]] Hro Hdis] Ec Er. split; try done; [by rewrite Ec |].
  split; [done |]. exists last. eapply lseg_frame; [| exact Hseg]. exact Er.
Qed.

Lemma fresh_not_in w ctx c l a : ctx_inv w ctx c l -> w_ranges w !! a = None -> a ∉ l.*1.
Proof. intros Hi Hn Hin. destruct (list_rep_elem _ _ _ _ (ci_list _ _ _ _ Hi) Hin) as [? ?]. congruence. Qed.

Lemma tables_rest w w' pa sup pd :
  rest_same w w' pa sup -> tables_ready w pd -> tables_apart w -> tables_ready w' pd /\ tables_apart w'.
Proof.
  intros [Ed Ee _ _ _] [H1 H2 H3] Ha. split.
  - split; unfold dir_entry in *; rewrite ?Ed, ?Ee; done.
  - unfold tables_apart, dir_entry in *. by rewrite Ed.
Qed.

(** The bits of the bitmap after marking twice and clearing twice. *)
Lemma room_place b m q sz : room b m q -> 0 < sz <= m -> place b sz 0 false q.
Proof.
  intros [Hp Hf Hfr Hh] Hs. split; [done |]. split; [lia |]. split; [intros k Hk; apply Hfr; lia |].
  cbn [nz andb]. change (0 / PAGE_SIZE) with 0. change (0 mod 32) with 0. unfold find_start. change (0 / 32) with 0. zcases.
Qed.

(** Freed pages are free. *)
Lemma room_same b b' m q :
  room b m q -> Bitmap.size b' = Bitmap.size b -> (forall k, 0 <= k -> bitmap_bit (data b') k = bitmap_bit (data b) k) ->
  32 * first_free b' <= q -> room b' m q.
Proof. intros [Hp Hf Hfr Hh] Hs Hb Hff. split; [done | lia | | done]. intros k Hk. rewrite Hb by lia. by apply Hfr. Qed.

Section Copy.
Context (src : Z) (a : Z) (r : vm_range) (ck cs : vm_ctx) (lk ls : list (Z * vm_range)).
Context (w : vmworld) (a1 a2 : Z) (rest : list Z) (q kroom m qp : Z).
Let np := vr_size r / PAGE_SIZE.
Context (Hne : VM_KERNEL <> src) (Hk : ctx_inv w VM_KERNEL ck lk) (Hs : ctx_inv w src cs ls) (Hin : (a, r) ∈ ls).
Context (Hap : forall b, b ∈ lk.*1 -> b ∉ ls.*1).
Context (Htr : tables_ready w (vc_page_dir ck)) (Hta : tables_apart w).
Context (Hphys : phys_ok (w_phys w)) (Hfork : forkable (w_phys w) r).
Context (Hfresh : fresh w) (Hrd : w_kmalloc_ready w = true) (Hsup : w_supply w = a1 :: a2 :: rest).
Context (Hroom : room (vc_bitmap ck) kroom q) (Hkm : 2 * np <= kroom) (Hrp : room (pa_bitmap (w_phys w)) m qp) (Hm : np <= m).

Lemma src_range : range_ok src (vc_bitmap cs) (a, r).
Proof. pose proof (ci_ranges _ _ _ _ Hs) as Hro. rewrite Forall_forall in Hro. by apply Hro. Qed.

(** Its pages as numbers. *)
Lemma src_numbers : vr_ctx r = src /\ vr_addr r = vr_addr r / PAGE_SIZE * PAGE_SIZE /\ vr_size r = np * PAGE_SIZE /\
  0 < vr_addr r / PAGE_SIZE /\ 0 < np /\ vr_addr r / PAGE_SIZE + np <= Bitmap.size (vc_bitmap cs) < 2 ^ 20.
Proof.
  destruct src_range as [H1 H2 H3 H4 (H5 & H6 & _)]. pose proof (ci_size _ _ _ _ Hs). unfold pages_of in *. cbn [fst snd] in *. done.
Qed.

Lemma src_RDIV : RDIV (vr_size r) PAGE_SIZE = np.
Proof. destruct src_numbers as (_ & _ & -> & ? & ? & ?). apply RDIV_pages. lia. Qed.

(** The source is found for every one of its pages. *)
Lemma src_backed i : 0 <= i < np -> backed ls 0 ((vr_addr r / PAGE_SIZE + i) * PAGE_SIZE) (vr_phys r + i * PAGE_SIZE).
Proof.
  intros Hi. destruct src_numbers as (_ & Ha & Hz & _ & _ & _). exists a, r. split; [| split; [apply Hfork |]; split; [apply Hfork |]; split; [done |]].
  - eapply find_covers; [apply Hs | apply Hs | exact Hin |]. apply bool_decide_eq_true_2. unfold in_pages. cbn [snd].
    rewrite Z.div_mul by done. fold np. lia.
  - lia.
Qed.

Lemma src_map_pages : map_pages (vr_addr r) (vr_size r) = np.
Proof.
  destruct src_numbers as (_ & Ha & Hz & H1 & H2 & H3). unfold map_pages. rewrite Ha, Z_mod_mult, Z.add_0_r, Hz.
  rewrite u32_small by page_lia. apply RDIV_pages. lia.
Qed.

(** What the two allocations in the kernel lead to: the new pages [n1], backed by
    the physical pages [pn], and the pages [n2] that show the source. *)
Record both_mapped (w' : vmworld) (pa : mem_page_alloc_ctx) (c' : vm_ctx) (pn n1 n2 : Z) (sh : list vm_alloc_shard) : Prop := {
  bm_phys : phys_ok pa;
  bm_fresh : 0 < pn <= qp /\ free_run (data (pa_bitmap (w_phys w))) pn np;
  bm_marks : marks (pa_bitmap (w_phys w)) (pa_bitmap pa) pn np;
  bm_room : room (pa_bitmap pa) (m - np) (qp + np);
  bm_pos : 0 < n1 /\ 0 < n2;
  bm_inv : ctx_inv w' VM_KERNEL c' ((a2, Range VM_KERNEL (n2 * PAGE_SIZE) (np * PAGE_SIZE) (CLEANUP_FLAGS 0) sh 0) ::
    (a1, Range VM_KERNEL (n1 * PAGE_SIZE) (np * PAGE_SIZE) (CLEANUP_FLAGS VM_RW) [] (pn * PAGE_SIZE)) :: lk);
  bm_dest : mapped_to w' (n1 * PAGE_SIZE) (pn * PAGE_SIZE) (np * PAGE_SIZE);
  bm_src : mapped_to w' (n2 * PAGE_SIZE) (vr_phys r) (np * PAGE_SIZE);
  bm_ctxs : forall ctx', ctx' <> VM_KERNEL -> w_ctxs w' !! ctx' = w_ctxs w !! ctx';
  bm_ranges : forall b, b <> a1 -> b <> a2 -> b ∉ lk.*1 -> w_ranges w' !! b = w_ranges w !! b;
  bm_rest : rest_same w w' pa rest;
  bm_dir : vc_page_dir c' = vc_page_dir ck;
  bm_size : Bitmap.size (vc_bitmap c') = Bitmap.size (vc_bitmap ck);
  bm_bits : forall k, 0 <= k -> bitmap_bit (data (vc_bitmap c')) k =
    bitmap_bit (data (vc_bitmap ck)) k || ((n1 <=? k) && (k <? n1 + np)) || ((n2 <=? k) && (k <? n2 + np));
  bm_free : free_run (data (vc_bitmap ck)) n1 np /\ free_run (data (vc_bitmap ck)) n2 np;
  bm_hint : 32 * first_free (vc_bitmap c') <= q + 2 * np;
}.

Lemma fresh_objects : a1 <> 0 /\ a2 <> 0 /\ a1 <> a2 /\ w_ranges w !! a1 = None /\ w_ranges w !! a2 = None.
Proof.
  destruct Hfresh as [Hnd Hf]. rewrite Hsup in Hnd, Hf. apply NoDup_cons in Hnd as [Hn _].
  destruct (Hf a1) as [? ?]; [left |]. destruct (Hf a2) as [? ?]; [right; left |]. repeat split; try done. intros ->. apply Hn. left.
Qed.

Lemma map_both :
  exists w1 w2 pa c' pn n1 n2 sh, vm_alloc w VM_KERNEL np 0 VM_RW = Ret (n1 * PAGE_SIZE, a1, w1) /\
    (exists nd, w_ranges w1 !! a1 = Some nd /\ vr_phys (nd_data nd) = pn * PAGE_SIZE) /\
    vm_map w1 VM_KERNEL src (vr_addr r) (vr_size r) 0 = Ret (n2 * PAGE_SIZE, a2, w2) /\ both_mapped w2 pa c' pn n1 n2 sh.
Proof.
  destruct src_numbers as (Hc & Ha & Hz & Hn & Hnp & Hfit). destruct fresh_objects as (Ha1 & Ha2 & Hd & Hf1 & Hf2).
  destruct Hphys as [P1 P2 P3 P4].
  destruct (mem_page_alloc_room (w_phys w) m qp np) as (pn & pa & Ep & Hpn & Hpfree & Hpl & Hpm & Hproom); [done || lia .. |].
  pose proof (po_size _ Hphys). pose proof (rm_fits _ _ _ Hrp).
  destruct (vm_alloc_at_full 2 w VM_KERNEL ck lk np 0 0 VM_RW q (pn * PAGE_SIZE) pa a1 (a2 :: rest))
    as (n1 & w1 & c1 & E1 & Hn1 & Hi1 & _ & Hm1 & Hc1 & Hr1 & Hrs1 & Hd1 & Hk1 & Hfr1 & Hro1); try done; try lia.
  { apply room_place with kroom; [done | lia]. }
  { split; [page_lia |]. split; [page_lia |]. exact Ep. }
  specialize (Hro1 eq_refl kroom Hroom ltac:(lia)). destruct (tables_rest _ _ _ _ _ Hrs1 Htr Hta) as [Htr1 Hta1].
  assert (ctx_inv w1 src cs ls) as Hs1.
  { apply (ctx_inv_frame w); [done | by apply Hc1 |]. intros b Hb. apply Hr1; [| intros Hb'; by apply (Hap b)].
    intros ->. by apply (fresh_not_in w src cs ls a1). }
  destruct (vm_map_full w1 VM_KERNEL src c1 cs _ ls (vr_addr r) (vr_size r) 0 a2 rest (q + np)
    (fun i => vr_phys r + i * PAGE_SIZE) Hne Hi1 Hs1) as (n2 & w2 & c2 & sh & E2 & Hn2 & Hi2 & _ & Hw2 & Hc2 & Hr2 & Hrs2 & Hd2 & Hk2 & Hfr2 & Hro2);
    rewrite ?src_map_pages; try done; try page_lia.
  { intros b Hb. rewrite fmap_cons in Hb. apply elem_of_cons in Hb as [-> | Hb]; [by apply (fresh_not_in w src cs ls a1) | by apply Hap]. }
  { by rewrite Hd1. }
  { apply room_place with (kroom - np); [done | lia]. }
  { apply src_backed. }
  { by destruct Hrs1 as [_ _ -> _ _]. }
  { by destruct Hrs1 as [_ _ _ _ ->]. }
  { rewrite Hr1; [done | done |]. by apply (fresh_not_in w VM_KERNEL ck lk a2). }
  rewrite src_map_pages in *. rewrite Ha, Z_mod_mult, Z.add_0_r, <- Ha in E2.
  exists w1, w2, pa, c2, pn, n1, n2, sh. split; [exact E1 |]. split.
  { destruct (list_rep_lookup _ _ _ a1 (Range VM_KERNEL (n1 * PAGE_SIZE) (np * PAGE_SIZE) (CLEANUP_FLAGS VM_RW) [] (pn * PAGE_SIZE))
      (ci_list _ _ _ _ Hi1)) as (_ & nd & Hnd & Hdata); [left |]. exists nd. split; [done |]. by rewrite Hdata. }
  split; [exact E2 |]. pose proof Hk1 as (Hwf1 & Hsz1 & Hl1 & Hb1). pose proof Hk2 as (Hwf2 & Hsz2 & Hl2 & Hb2).
  specialize (Hro2 (kroom - np) Hro1 ltac:(lia)).
  assert (n1 + np <= n2 \/ n2 + np <= n1) as Hapart.
  { destruct Hi2 as [_ _ _ _ _ _ _ Hdis]. rewrite !map_cons, !pages_of_new in Hdis. destruct Hdis as [[Hd' _]%Forall_cons _].
    unfold disjoint_alloc in Hd'. cbn [fst snd] in Hd'. lia. }
  split.
  - destruct Hpm as (? & ? & ? & Hpb). split; [done | done | lia |]. rewrite Hpb, P4 by done. by destruct ((_ <=? _) && _).
  - done.
  - done.
  - done.
  - done.
  - exact Hi2.
  - eapply (mapped_pages w2 c2 n1 (pn * PAGE_SIZE) np VM_RW); [apply Hi2 | lia | by apply Z_mod_mult |].
    intros v Hv Hin'. rewrite Hw2 by done. rewrite decide_False.
    + rewrite Hd2, Hm1 by (done || apply Htr). rewrite decide_True by done. by rewrite Z.div_mul.
    + unfold in_pages in *. rewrite Z.div_mul in * by done. lia.
  - eapply (mapped_pages w2 c2 n2 (vr_phys r) np 0); [apply Hi2 | lia | apply Hfork |].
    intros v Hv Hin'. rewrite Hw2 by done. by rewrite decide_True by (by rewrite Hd2).
  - intros ctx' Hctx. by rewrite Hc2, Hc1.
  - intros b Hb1' Hb2' Hbk. rewrite Hr2, Hr1; try done. rewrite fmap_cons. set_solver.
  - destruct Hrs1, Hrs2. split; congruence.
  - congruence.
  - congruence.
  - intros k Hk'. rewrite Hb2, Hb1 by done. zcases; by rewrite ?orb_true_r, ?orb_false_r.
  - split; [done |]. intros k Hk'. specialize (Hfr2 k Hk'). rewrite Hb1 in Hfr2 by lia. revert Hfr2. zcases; done.
  - pose proof (rm_hint _ _ _ Hro2). lia.
Qed.
(** What giving back both mappings leads to. *)
Lemma free_both w2 pa c' pn n1 n2 sh :
  both_mapped w2 pa c' pn n1 n2 sh ->
  exists w3 w4 ck', vm_free w2 a2 = Ret (0, w3) /\ vm_free w3 a1 = Ret (0, w4) /\ ctx_inv w4 VM_KERNEL ck' lk /\
    (forall ctx', ctx' <> VM_KERNEL -> w_ctxs w4 !! ctx' = w_ctxs w !! ctx') /\
    (forall b, b <> a1 -> b <> a2 -> b ∉ lk.*1 -> w_ranges w4 !! b = w_ranges w !! b) /\
    rest_same w w4 pa rest /\ vc_page_dir ck' = vc_page_dir ck /\ room (vc_bitmap ck') (kroom - 2 * np) (q + 2 * np).
Proof.
  intros Hb. destruct (tables_rest _ _ _ _ _ (bm_rest _ _ _ _ _ _ _ Hb) Htr Hta) as [Htr2 Hta2].
  destruct src_numbers as (_ & _ & _ & _ & Hnp & _). destruct (bm_pos _ _ _ _ _ _ _ Hb) as [Hn1 Hn2].
  destruct (vm_free_full w2 VM_KERNEL c' [] a2 _ _ (bm_inv _ _ _ _ _ _ _ Hb)) as (w3 & c3 & E3 & Hi3 & Hb3 & _ & Hc3 & Hr3 & Hrs3 & Hd3 & Hs3 & _ & Hff3);
    [by rewrite (bm_dir _ _ _ _ _ _ _ Hb) | done |].
  destruct (tables_rest _ _ _ _ _ Hrs3 Htr2 Hta2) as [Htr3 Hta3].
  destruct (vm_free_full w3 VM_KERNEL c3 [] a1 _ _ Hi3) as (w4 & c4 & E4 & Hi4 & Hb4 & _ & Hc4 & Hr4 & Hrs4 & Hd4 & Hs4 & _ & Hff4);
    [by rewrite Hd3, (bm_dir _ _ _ _ _ _ _ Hb) | done |].
  cbn [app vr_addr vr_size] in *. destruct Hb as [_ _ _ _ _ _ _ _ Bc Br Brs Bd Bs Bb [Bf1 Bf2] Bh].
  exists w3, w4, c4. split; [done |]. split; [done |]. split; [done |]. split; [| split; [| split; [| split]]].
  - intros ctx' Hctx. by rewrite Hc4, Hc3, Bc.
  - intros b H1 H2 H3. rewrite (Hr4 b), (Hr3 b), (Br b); try done. rewrite fmap_cons. set_solver.
  - destruct Brs, Hrs3, Hrs4. split; congruence.
  - congruence.
  - destruct Hroom as [R1 R2 R3 R4]. split; [lia | lia | | lia]. intros k Hk'. rewrite Hb4, Hb3, Bb, R3 by lia.
    repeat case_bool_decide; rewrite ?andb_false_r; try done. unfold in_pages in *. rewrite !Z.div_mul in * by done. zcases.
Qed.

(** New pages are none of those of the source. *)
Lemma new_pages_apart pn :
  free_run (data (pa_bitmap (w_phys w))) pn np ->
  pn * PAGE_SIZE + vr_size r <= vr_phys r \/ vr_phys r + vr_size r <= pn * PAGE_SIZE.
Proof.
  intros Hfree. destruct src_numbers as (_ & _ & Hz & _ & Hnp & _).
  destruct (decide (pn * PAGE_SIZE + vr_size r <= vr_phys r)) as [| H1]; [by left |].
  destruct (decide (vr_phys r + vr_size r <= pn * PAGE_SIZE)) as [| H2]; [by right |]. exfalso.
  set (p := Z.max (pn * PAGE_SIZE) (vr_phys r)). pose proof (fk_used _ _ Hfork p ltac:(lia)) as Hu. unfold used in Hu.
  rewrite Hfree in Hu; [done |]. split; [apply Z.div_le_lower_bound; page_lia | apply Z.div_lt_upper_bound; page_lia].
Qed.

Lemma copy_pages_spec mem :
  exists pn pa ck' w' m', copy_pages (Copy w mem) r = Ret (Some (pn * PAGE_SIZE), Copy w' m') /\
    phys_ok pa /\ (0 < pn <= qp /\ free_run (data (pa_bitmap (w_phys w))) pn np) /\
    marks (pa_bitmap (w_phys w)) (pa_bitmap pa) pn np /\ room (pa_bitmap pa) (m - np) (qp + np) /\
    ctx_inv w' VM_KERNEL ck' lk /\ (forall ctx', ctx' <> VM_KERNEL -> w_ctxs w' !! ctx' = w_ctxs w !! ctx') /\
    (forall b, b <> a1 -> b <> a2 -> b ∉ lk.*1 -> w_ranges w' !! b = w_ranges w !! b) /\
    rest_same w w' pa rest /\ vc_page_dir ck' = vc_page_dir ck /\ room (vc_bitmap ck') (kroom - 2 * np) (q + 2 * np) /\
    (forall p, byte_at m' p =
      if decide (pn * PAGE_SIZE <= p < pn * PAGE_SIZE + vr_size r) then byte_at mem (vr_phys r + (p - pn * PAGE_SIZE)) else byte_at mem p).
Proof.
  destruct src_numbers as (Hc & Ha & Hz & Hn & Hnp & Hfit).
  destruct map_both as (w1 & w2 & pa & c' & pn & n1 & n2 & sh & E1 & (nd & Hnd & Hph) & E2 & Hb).
  destruct (free_both _ _ _ _ _ _ _ Hb) as (w3 & w4 & ck' & E3 & E4 & Hrest).
  destruct (bm_pos _ _ _ _ _ _ _ Hb) as [Hn1 Hn2]. destruct (bm_fresh _ _ _ _ _ _ _ Hb) as [Hpn Hfree].
  destruct (copy_virt_spec (Z.to_nat (vr_size r)) w2 mem (n1 * PAGE_SIZE) (n2 * PAGE_SIZE) (pn * PAGE_SIZE) (vr_phys r)) as (m' & Em & Hm').
  { rewrite Z2Nat.id, Hz by page_lia. apply (bm_dest _ _ _ _ _ _ _ Hb). }
  { rewrite Z2Nat.id, Hz by page_lia. apply (bm_src _ _ _ _ _ _ _ Hb). }
  { rewrite Z2Nat.id by page_lia. by apply new_pages_apart. }
  rewrite Z2Nat.id in Hm' by page_lia.
  exists pn, pa, ck', w4, m'. split; [| split; [apply Hb |]; split; [done |]; split; [apply Hb |]; split; [apply Hb |]; tauto].
  unfold copy_pages. cbn [cp_world cp_mem]. rewrite src_RDIV, E1, bind_Ret. destruct (Z.eqb_spec (n1 * PAGE_SIZE) 0); [page_lia |].
  unfold load_node at 1. rewrite Hnd, bind_Ret, Hph, Hc. destruct (Z.eqb_spec src VM_KERNEL); [done |]. rewrite E2, bind_Ret.
  destruct (Z.eqb_spec (n2 * PAGE_SIZE) 0); [page_lia |]. cbn [negb andb]. rewrite Em, bind_Ret, E3, !bind_Ret.
  rewrite Hz, Z_mod_mult. cbn [nz negb Z.eqb]. by rewrite bind_Ret, E4, bind_Ret.
Qed.
End Copy.

(** * Three contexts: the kernel, the original and the copy *)

Record clone_inv w (src dest : Z) (ck cs cd : vm_ctx) (lk ls ld : list (Z * vm_range)) : Prop := {
  cl_apart : VM_KERNEL <> src /\ VM_KERNEL <> dest /\ src <> dest;
  cl_kernel : ctx_inv w VM_KERNEL ck lk;
  cl_src : ctx_inv w src cs ls;
  cl_dest : ctx_inv w dest cd ld;
  cl_nodir : vc_page_dir cd = 0;
  cl_tables : tables_ready w (vc_page_dir ck) /\ tables_apart w;
  cl_objects : NoDup (lk.*1 ++ ls.*1 ++ ld.*1);
  cl_phys : phys_ok (w_phys w);
  cl_fresh : fresh w;
  cl_ready : w_kmalloc_ready w = true;
}.

Lemma clone_disjoint w src dest ck cs cd lk ls ld :
  clone_inv w src dest ck cs cd lk ls ld ->
  (forall b, b ∈ lk.*1 -> b ∉ ls.*1 /\ b ∉ ld.*1) /\ (forall b, b ∈ ls.*1 -> b ∉ ld.*1).
Proof.
  intros H. pose proof (cl_objects _ _ _ _ _ _ _ _ _ H) as Hn. apply NoDup_app in Hn as (_ & H1 & Hn). apply NoDup_app in Hn as (_ & H2 & _).
  split; [| done]. intros b Hb. specialize (H1 b Hb). set_solver.
Qed.

Lemma clone_not_in w src dest ck cs cd lk ls ld a :
  clone_inv w src dest ck cs cd lk ls ld -> a ∈ w_supply w -> a ∉ lk.*1 /\ a ∉ ls.*1 /\ a ∉ ld.*1.
Proof.
  intros H Ha. destruct (cl_fresh _ _ _ _ _ _ _ _ _ H) as [_ Hf]. destruct (Hf a Ha) as [_ Hn].
  split; [| split]; eapply fresh_not_in; try exact Hn; apply H.
Qed.

(** Room for the copies of [n] pages: in the kernel, for twice as many, and in
    physical memory. *)
Definition resources w (ck : vm_ctx) (n : Z) : Prop :=
  exists k m q qp, room (vc_bitmap ck) k q /\ 2 * n <= k /\ room (pa_bitmap (w_phys w)) m qp /\ n <= m.

(** [r'] is a copy of [r] in the context [dest]: the same addresses and rights,
    the same bytes, in physical memory nobody has used before. *)
Record copy_of (pa pa' : mem_page_alloc_ctx) (mem m' : gmap Z Z) (dest : Z) (r r' : vm_range) : Prop := {
  co_ctx : vr_ctx r' = dest;
  co_addr : vr_addr r' = vr_addr r;
  co_size : vr_size r' = vr_size r;
  co_flags : vr_flags r' = vr_flags r;
  co_shards : vr_shards r' = [];
  co_phys : 0 < vr_phys r' /\ vr_phys r' + vr_size r <= 2 ^ 32 /\ vr_phys r' mod PAGE_SIZE = 0;
  co_new : forall i, 0 <= i < vr_size r -> ~ used pa (vr_phys r' + i) /\ used pa' (vr_phys r' + i);
  co_bytes : forall i, 0 <= i < vr_size r -> byte_at m' (vr_phys r' + i) = byte_at mem (vr_phys r + i);
}.

(** What is in use stays in use, and as it is. *)
Definition keeps (pa pa' : mem_page_alloc_ctx) (mem m' : gmap Z Z) : Prop :=
  forall x, 0 <= x -> used pa x -> used pa' x /\ byte_at m' x = byte_at mem x.

(** Bytes of new pages. *)
Lemma page_of_byte pn np i : 0 <= pn -> 0 <= i < np * PAGE_SIZE -> pn <= (pn * PAGE_SIZE + i) / PAGE_SIZE < pn + np.
Proof. intros Hp Hi. split; [apply Z.div_le_lower_bound; page_lia | apply Z.div_lt_upper_bound; page_lia]. Qed.

Lemma marks_keeps pa pa' mem m' pn np f :
  0 < pn -> free_run (data (pa_bitmap pa)) pn np -> marks (pa_bitmap pa) (pa_bitmap pa') pn np ->
  (forall p, byte_at m' p = if decide (pn * PAGE_SIZE <= p < pn * PAGE_SIZE + np * PAGE_SIZE) then f p else byte_at mem p) ->
  keeps pa pa' mem m'.
Proof.
  intros Hp Hf (_ & _ & _ & Hb) Hm x Hx Hu. unfold used in *. split.
  - rewrite Hb, Hu by (apply Z.div_pos; [lia | done]). by destruct ((_ <=? _) && _).
  - rewrite Hm. rewrite decide_False; [done |]. intros Hin. rewrite Hf in Hu; [done |].
    replace x with (pn * PAGE_SIZE + (x - pn * PAGE_SIZE)) by lia. apply page_of_byte; lia.
Qed.

Lemma fixed_flag f : has_flag (Z.lor f VM_FIXED) VM_FIXED = true.
Proof.
  unfold has_flag. apply nz_true. rewrite Z.land_lor_distr_l. change (Z.land VM_FIXED VM_FIXED) with VM_FIXED.
  intros [_ H]%Z.lor_eq_0_iff. discriminate.
Qed.

(** The last step of a copy: the pages become a range of the new context, which
    has no page directory yet. *)
Lemma dest_alloc w1 dest cd ld sz addr phys f a rest :
  ctx_inv w1 dest cd ld -> vc_page_dir cd = 0 -> f = CLEANUP_FLAGS f -> 0 < addr -> 0 < sz ->
  addr + sz <= Bitmap.size (vc_bitmap cd) -> free_run (data (vc_bitmap cd)) addr sz ->
  0 < phys -> phys + sz * PAGE_SIZE <= 2 ^ 32 -> w_kmalloc_ready w1 = true -> w_supply w1 = a :: rest -> a <> 0 -> w_ranges w1 !! a = None ->
  exists w2 cd', vm_alloc_at 3 w1 dest sz (addr * PAGE_SIZE) phys (Z.lor f VM_FIXED) = Ret (addr * PAGE_SIZE, a, w2) /\
    ctx_inv w2 dest cd' ((a, Range dest (addr * PAGE_SIZE) (sz * PAGE_SIZE) f [] phys) :: ld) /\ vc_page_dir cd' = 0 /\
    (forall ctx', ctx' <> dest -> w_ctxs w2 !! ctx' = w_ctxs w1 !! ctx') /\
    (forall b, b <> a -> b ∉ ld.*1 -> w_ranges w2 !! b = w_ranges w1 !! b) /\
    rest_same w1 w2 (w_phys w1) rest /\ marks (vc_bitmap cd) (vc_bitmap cd') addr sz.
Proof.
  intros Hi Hdir Hf Ha Hs Hfit Hfree Hp Hpe Hrd Hsup Ha0 Hnone. pose proof (ci_size _ _ _ _ Hi).
  destruct (flags_no_zero f Hf) as [Hz Hcl].
  destruct (vm_alloc_at_full 2 w1 dest cd ld sz (addr * PAGE_SIZE) phys (Z.lor f VM_FIXED) addr phys (w_phys w1) a rest)
    as (n & w2 & cd' & E & _ & Hi' & Hfix & _ & Hc & Hr & Hrs & Hd & Hm & _); try done; try page_lia.
  - unfold place. rewrite fixed_flag, andb_true_r, (proj2 (nz_true _)) by page_lia. split; [done |]. split; [done |]. split; [done |]. by rewrite Z.div_mul.
  - split; [done |]. split; [done |]. by destruct (Z.eqb_spec phys 0); [lia |].
  - rewrite fixed_flag, andb_true_r, (proj2 (nz_true _)), Z.div_mul in Hfix by page_lia. rewrite (Hfix eq_refl), Hcl in *.
    exists w2, cd'. do 2 (split; [done |]). split; [congruence | done].
Qed.

Section VmCopy.
Context (w : vmworld) (src dest : Z) (ck cs cd : vm_ctx) (lk ls ld : list (Z * vm_range)).
Context (a : Z) (r : vm_range) (n a1 a2 a3 : Z) (rest : list Z).
Let np := vr_size r / PAGE_SIZE.
Context (Hinv : clone_inv w src dest ck cs cd lk ls ld) (Hin : (a, r) ∈ ls) (Hfork : forkable (w_phys w) r).
Context (Hres : resources w ck n) (Hn : np <= n) (Hsup : w_supply w = a1 :: a2 :: a3 :: rest).
Context (Hfits : vr_addr r / PAGE_SIZE + np <= Bitmap.size (vc_bitmap cd)).
Context (Hplace : free_run (data (vc_bitmap cd)) (vr_addr r / PAGE_SIZE) np).

Lemma vm_copy_spec mem :
  exists w' ck' cd' p m', let r' := Range dest (vr_addr r) (vr_size r) (vr_flags r) [] p in
    vm_copy (Copy w mem) dest (vr_addr r) r (vr_flags r) = Ret (0, Copy w' m') /\
    clone_inv w' src dest ck' cs cd' lk ls ((a3, r') :: ld) /\ resources w' ck' (n - np) /\ w_supply w' = rest /\
    marks (vc_bitmap cd) (vc_bitmap cd') (vr_addr r / PAGE_SIZE) np /\
    keeps (w_phys w) (w_phys w') mem m' /\ copy_of (w_phys w) (w_phys w') mem m' dest r r'.
Proof.
  destruct Hinv as [(Hks & Hkd & Hsd) Hk Hs Hd Hdir [Htr Hta] Hobj Hph Hfr Hrd].
  destruct (clone_disjoint _ _ _ _ _ _ _ _ _ Hinv) as [Hdk Hds]. destruct Hres as (kr & m & q & qp & Hkr & Hkn & Hpr & Hmn).
  destruct (src_numbers src a r cs ls w Hs Hin) as (Hc & Ha & Hz & Ha0 & Hnp & Hfit). fold np in Hz, Hnp, Hfit.
  destruct (copy_pages_spec src a r ck cs lk ls w a1 a2 (a3 :: rest) q kr m qp) with (mem := mem)
    as (pn & pa & ck' & w1 & m' & Ec & Hpa & [Hpn Hpf] & Hpm & Hpr' & Hk1 & Hc1 & Hr1 & Hrs1 & Hd1 & Hkr' & Hbytes);
    try done; try (fold np; lia).
  { intros b Hb. by apply Hdk. }
  fold np in Hpf, Hpm, Hpr', Hkr'. pose proof Hrs1 as [_ _ Erd Eph Esup].
  assert (forall x, x ∈ [a1; a2; a3] -> x <> 0 /\ w_ranges w !! x = None /\ x ∉ lk.*1 /\ x ∉ ls.*1 /\ x ∉ ld.*1) as Hnew.
  { intros x Hx. assert (x ∈ w_supply w) as Hx' by (rewrite Hsup; set_solver). destruct (proj2 Hfr x Hx'). split; [done |]. split; [done |].
    by apply (clone_not_in w src dest ck cs cd). }
  assert (NoDup (a1 :: a2 :: a3 :: rest)) as Hnd by (rewrite <- Hsup; apply Hfr).
  destruct (Hnew a3) as (H30 & H3n & H3k & H3s & H3d); [set_solver |].
  assert (forall b, b ∈ ls.*1 \/ b ∈ ld.*1 -> w_ranges w1 !! b = w_ranges w !! b) as Hrl.
  { intros b Hb. apply Hr1.
    - intros ->. destruct (Hnew a1) as (_ & _ & _ & ? & ?); [set_solver |]. tauto.
    - intros ->. destruct (Hnew a2) as (_ & _ & _ & ? & ?); [set_solver |]. tauto.
    - intros Hbk. destruct (Hdk b Hbk). tauto. }
  destruct (dest_alloc w1 dest cd ld np (vr_addr r / PAGE_SIZE) (pn * PAGE_SIZE) (vr_flags r) a3 rest)
    as (w2 & cd' & Ed & Hi2 & Hdir2 & Hc2 & Hr2 & Hrs2 & Hm2); try done.
  { apply (ctx_inv_frame w); [done | by apply Hc1 | auto]. }
  { apply Hfork. }
  { page_lia. }
  { pose proof (po_size _ Hph). pose proof (rm_fits _ _ _ Hpr). page_lia. }
  { by rewrite Erd. }
  { rewrite Hr1; [done | | | done]; intros ->; rewrite !NoDup_cons in Hnd; set_solver. }
  exists w2, ck', cd', (pn * PAGE_SIZE), m'. cbv zeta. rewrite <- Ha in Hi2, Ed. rewrite <- Hz in Hi2. split.
  { unfold vm_copy. rewrite bool_decide_eq_true_2 by apply Hfork. cbn [negb]. rewrite Ec, bind_Ret. cbn [cp_world cp_mem].
    rewrite (proj2 (nz_true _)) by page_lia. rewrite (src_RDIV src a r cs ls w Hs Hin). fold np. rewrite Ed, bind_Ret.
    destruct (Z.eqb_spec (vr_addr r) 0); [page_lia | done]. }
  destruct Hrs2 as [Ed2 Ee2 Er2 Ep2 Es2]. rewrite Ep2, Eph. split; [split |].
  - done.
  - apply (ctx_inv_frame w1); [done | by apply Hc2 |]. intros b Hb. destruct (Hdk b Hb). apply Hr2; [by intros -> | done].
  - apply (ctx_inv_frame w); [done | by rewrite Hc2, Hc1 |]. intros b Hb. rewrite Hr2; [auto | by intros -> | by apply Hds].
  - done.
  - done.
  - rewrite Hd1. destruct (tables_rest _ _ _ _ _ Hrs1 Htr Hta) as [Htr1 Hta1].
    apply (tables_rest w1 w2 (w_phys w1) rest); [by split | done | done].
  - rewrite fmap_cons. cbn [fst]. rewrite app_assoc, <- Permutation_middle, <- app_assoc. apply NoDup_cons. split; [| done].
    rewrite !elem_of_app. tauto.
  - by rewrite Ep2, Eph.
  - unfold fresh. rewrite Es2, !NoDup_cons in *. split; [tauto |]. intros x Hx. assert (x ∈ w_supply w) as Hx' by (rewrite Hsup; set_solver).
    destruct (proj2 Hfr x Hx') as [? Hxn]. split; [done |]. destruct (clone_not_in _ _ _ _ _ _ _ _ _ x Hinv Hx') as (? & ? & ?).
    rewrite Hr2, Hr1; try done; intros ->; set_solver.
  - congruence.
  - split; [exists (kr - 2 * np), (m - np), (q + 2 * np), (qp + np); split; [done |]; split; [lia |]; rewrite Ep2, Eph; split; [done | lia] |].
    split; [done |]. split; [done |]. rewrite Hz in Hbytes. split; [eapply marks_keeps; [| exact Hpf | exact Hpm | exact Hbytes]; lia |].
    split; try done; cbn [vr_phys].
    + pose proof (po_size _ Hph). pose proof (rm_fits _ _ _ Hpr). rewrite Hz, Z_mod_mult. page_lia.
    + intros i Hi. rewrite Hz in Hi. unfold used. pose proof (page_of_byte pn np i ltac:(lia) Hi). destruct Hpm as (_ & _ & _ & Hpb).
      rewrite Hpf, Hpb by lia. split; [done |]. zcases.
    + intros i Hi. rewrite Hz in Hi. rewrite Hbytes, decide_True by lia. f_equal. lia.
Qed.
End VmCopy.

(** * All ranges *)

(** The ranges fork copies, and their pages. *)
Definition forks (l : list (Z * vm_range)) : list (Z * vm_range) := filter (fun e => has_flag (vr_flags e.2) VM_TFORK = true) l.
Definition fork_pages (l : list (Z * vm_range)) : Z := foldr (fun e n => vr_size e.2 / PAGE_SIZE + n) 0 (forks l).
Definition phys_pages (e : Z * vm_range) : Z * Z := (vr_phys e.2 / PAGE_SIZE, vr_size e.2 / PAGE_SIZE).

(** The copies can be made: the ranges are backed, and their addresses are free
    in the new context. *)
Record copyable w (cd : vm_ctx) (e : Z * vm_range) : Prop := {
  cb_fork : forkable (w_phys w) e.2;
  cb_fits : (pages_of e).1 + (pages_of e).2 <= Bitmap.size (vc_bitmap cd);
  cb_free : free_run (data (vc_bitmap cd)) (pages_of e).1 (pages_of e).2;
}.

Lemma copy_keeps_trans pa pa1 pa' m m1 m' : keeps pa pa1 m m1 -> keeps pa1 pa' m1 m' -> keeps pa pa' m m'.
Proof. intros H1 H2 x Hx Hu. destruct (H1 x Hx Hu) as [Hu1 E1]. destruct (H2 x Hx Hu1) as [Hu2 E2]. split; [done | congruence]. Qed.

Lemma copy_of_later pa pa1 pa' m m1 m' dest r r' :
  0 <= vr_size r -> copy_of pa pa1 m m1 dest r r' -> keeps pa1 pa' m1 m' -> copy_of pa pa' m m' dest r r'.
Proof.
  intros Hs [H1 H2 H3 H4 H4' (H5 & H5') H6 H7] Hk. split; try done.
  - intros i Hi. destruct (H6 i Hi) as [Hn Hu]. split; [done |]. apply Hk; [lia | done].
  - intros i Hi. destruct (H6 i Hi) as [_ Hu]. destruct (Hk (vr_phys r' + i)) as [_ ->]; [lia | done |]. by apply H7.
Qed.

Lemma copy_of_earlier pa pa1 pa' m m1 m' dest r r' :
  forkable pa r -> keeps pa pa1 m m1 -> copy_of pa1 pa' m1 m' dest r r' -> copy_of pa pa' m m' dest r r'.
Proof.
  intros Hf Hk [H1 H2 H3 H4 H4' H5 H6 H7]. split; try done.
  - intros i Hi. destruct (H6 i Hi) as [Hn Hu]. split; [| done]. intros Hu'. apply Hn. apply Hk; [lia | done].
  - intros i Hi. rewrite H7 by done. apply Hk; [pose proof (fk_phys _ _ Hf); lia |]. apply Hf. lia.
Qed.

Lemma forkable_keeps pa pa1 m m1 r : keeps pa pa1 m m1 -> forkable pa r -> forkable pa1 r.
Proof. intros Hk [H1 H2 H3 H4 H5 H6]. split; try done. intros p Hp. apply Hk; [lia | by apply H6]. Qed.

(** Copies made one after the other do not share a page. *)
Lemma copy_of_apart pa pa1 pa' m m1 m' dest r r1 a1 (e e2 : Z * vm_range) :
  copy_of pa pa1 m m1 dest r r1 -> copy_of pa1 pa' m1 m' dest e.2 e2.2 -> 0 < vr_size r -> 0 < vr_size e.2 ->
  vr_size r mod PAGE_SIZE = 0 -> vr_size e.2 mod PAGE_SIZE = 0 -> disjoint_alloc (phys_pages e2) (phys_pages (a1, r1)).
Proof.
  intros [_ _ Es1 _ _ (P1 & _ & A1) N1 _] [_ _ Es2 _ _ (P2 & _ & A2) N2 _] S1 S2 M1 M2. unfold disjoint_alloc, phys_pages. cbn [fst snd].
  rewrite Es1, Es2. set (p1 := vr_phys r1) in *. set (p2 := vr_phys e2.2) in *.
  destruct (decide (p2 + vr_size e.2 <= p1)) as [H |]; [left | destruct (decide (p1 + vr_size r <= p2)) as [H |]; [right |]].
  1, 2: unfold PAGE_SIZE in *; pose proof (Z.div_mod p1 4096); pose proof (Z.div_mod p2 4096);
    pose proof (Z.div_mod (vr_size r) 4096); pose proof (Z.div_mod (vr_size e.2) 4096); lia.
  exfalso. set (x := Z.max p1 p2). destruct (N1 (x - p1)) as [_ Hu]; [lia |]. destruct (N2 (x - p2)) as [Hn _]; [lia |].
  apply Hn. by replace (p2 + (x - p2)) with (p1 + (x - p1)) by lia.
Qed.

Definition first (l : list (Z * vm_range)) : Z := match l with [] => 0 | (a, _) :: _ => a end.

(** The node of a range, and where the list goes on. *)
Lemma next_node h head l1 a r l2 :
  list_rep h head (l1 ++ (a, r) :: l2) -> a <> 0 /\ exists nd, h !! a = Some nd /\ nd_data nd = r /\ nd_next nd = first l2.
Proof.
  intros [_ [last Hl]]. apply lseg_app in Hl as (p & mid & _ & (-> & Ha & nx & Hn & Hl)). split; [done |].
  eexists. split; [exact Hn |]. split; [done |]. cbn [nd_next]. destruct l2 as [| [b r2] l2]; by destruct Hl.
Qed.

Lemma pairwise_disjoint_snoc l x :
  pairwise_disjoint l -> Forall (fun y => disjoint_alloc y x) l -> pairwise_disjoint (l ++ [x]).
Proof.
  induction l as [| y l IH]; intros Hd Hx; cbn [app pairwise_disjoint]; [split; [constructor | done] |].
  destruct Hd as [Hy Hd]. apply Forall_cons in Hx as [Hyx Hx]. split; [| by apply IH].
  apply Forall_app. split; [done |]. by apply Forall_singleton.
Qed.

(** What is left to copy can still be copied. *)
Lemma copyable_step w w1 src cs cd cd1 mem m1 dn a r td e :
  ctx_inv w src cs (dn ++ (a, r) :: td) -> marks (vc_bitmap cd) (vc_bitmap cd1) (vr_addr r / PAGE_SIZE) (vr_size r / PAGE_SIZE) ->
  keeps (w_phys w) (w_phys w1) mem m1 -> e ∈ td -> copyable w cd e -> copyable w1 cd1 e.
Proof.
  intros Hi (_ & Hs & _ & Hb) Hk Hin [H1 H2 H3]. split; [by eapply forkable_keeps | by rewrite Hs |].
  pose proof (ci_disjoint _ _ _ _ Hi) as Hd. rewrite map_app, map_cons in Hd. apply pairwise_disjoint_app in Hd as [_ Hd].
  rewrite <- map_app, Forall_map, Forall_forall in Hd. specialize (Hd e ltac:(set_solver)).
  pose proof (ci_ranges _ _ _ _ Hi) as Hro. rewrite Forall_forall in Hro.
  destruct (Hro e ltac:(set_solver)) as [_ _ _ _ (Hp & _)].
  intros k Hk'. rewrite Hb by lia. rewrite H3 by lia. unfold disjoint_alloc, pages_of in *. cbn [fst snd] in *. zcases.
Qed.

Lemma src_sizes w src cs l e :
  ctx_inv w src cs l -> e ∈ l -> 0 < vr_size e.2 /\ vr_size e.2 mod PAGE_SIZE = 0.
Proof.
  intros Hi He. pose proof (ci_ranges _ _ _ _ Hi) as Hro. rewrite Forall_forall in Hro.
  destruct (Hro e He) as [_ _ -> _ (_ & Hs & _)]. rewrite Z_mod_mult. cbn [snd] in Hs. page_lia.
Qed.

Lemma fork_pages_pos l : Forall (fun e => 0 <= vr_size e.2) l -> 0 <= fork_pages l.
Proof.
  unfold fork_pages, forks. induction 1 as [| e l He Hl IH]; [done |]. rewrite filter_cons.
  destruct (decide _); [| done]. cbn [foldr]. assert (0 <= vr_size e.2 / PAGE_SIZE) by (by apply Z.div_pos). lia.
Qed.

Lemma clone_loop_spec src dest cs lk todo : forall fuel w ck cd ld dn mem,
  clone_inv w src dest ck cs cd lk (dn ++ todo) ld -> (length todo < fuel)%nat ->
  Forall (copyable w cd) (forks todo) -> resources w ck (fork_pages todo) -> (3 * length (forks todo) <= length (w_supply w))%nat ->
  exists w' ck' cd' new m', clone_loop fuel (Copy w mem) dest (first todo) = Ret (0, Copy w' m') /\
    clone_inv w' src dest ck' cs cd' lk (dn ++ todo) (new ++ ld) /\ keeps (w_phys w) (w_phys w') mem m' /\
    Forall2 (fun e e' => copy_of (w_phys w) (w_phys w') mem m' dest e.2 e'.2) (reverse (forks todo)) new /\
    pairwise_disjoint (map phys_pages new).
Proof.
  induction todo as [| [a r] todo IH]; intros fuel w ck cd ld dn mem Hinv Hf Hcp Hres Hsup;
    (destruct fuel as [| fuel]; [simpl in Hf; lia |]); cbn [first clone_loop].
  { cbn [Z.eqb]. exists w, ck, cd, [], mem. split; [done |]. split; [done |]. split; [done |]. by repeat constructor. }
  pose proof (cl_src _ _ _ _ _ _ _ _ _ Hinv) as His. simpl in Hf.
  destruct (next_node _ _ _ _ _ _ (ci_list _ _ _ _ His)) as (Ha & nd & Hnd & Hdata & Hnext).
  destruct (Z.eqb_spec a 0) as [| _]; [done |]. cbn [cp_world]. rewrite (load_node_at _ _ _ Hnd), bind_Ret, Hdata.
  assert (dn ++ (a, r) :: todo = (dn ++ [(a, r)]) ++ todo) as Eapp by by rewrite <- app_assoc.
  unfold fork_pages, forks in *. rewrite filter_cons in *. cbn [snd] in *.
  destruct (decide (has_flag (vr_flags r) VM_TFORK = true)) as [Ht | Ht]; last first.
  { apply not_true_is_false in Ht. rewrite Ht, Hnext. cbn [negb]. rewrite Eapp in Hinv |- *.
    apply (IH fuel w ck cd ld (dn ++ [(a, r)]) mem); [exact Hinv | lia | exact Hcp | exact Hres | exact Hsup]. }
  rewrite Ht. cbn [negb foldr length snd] in *. apply Forall_cons in Hcp as [[Hc1 Hc2 Hc3] Hcp].
  destruct (w_supply w) as [| a1 [| a2 [| a3 rest]]] eqn:Es; simpl in Hsup; try lia.
  set (n := foldr (fun e n => vr_size e.2 / PAGE_SIZE + n) 0 (filter (fun e => has_flag (vr_flags e.2) VM_TFORK = true) todo)) in *.
  assert (0 <= n) as Hn.
  { apply (fork_pages_pos todo). apply Forall_forall. intros e He. destruct (src_sizes _ _ _ _ e His); [set_solver | lia]. }
  destruct (vm_copy_spec w src dest ck cs cd lk _ ld a r _ a1 a2 a3 rest Hinv ltac:(set_solver) Hc1 Hres ltac:(lia) Es Hc2 Hc3 mem)
    as (w1 & ck1 & cd1 & p & m1 & E1 & Hinv1 & Hres1 & Hs1 & Hm1 & Hk1 & Hcopy).
  rewrite E1, bind_Ret. cbn [nz Z.eqb negb cp_world].
  destruct (next_node _ _ _ _ _ _ (ci_list _ _ _ _ (cl_src _ _ _ _ _ _ _ _ _ Hinv1))) as (_ & nd1 & Hnd1 & _ & Hnext1).
  rewrite (load_node_at _ _ _ Hnd1), bind_Ret, Hnext1. rewrite Eapp in Hinv1.
  destruct (IH fuel w1 ck1 cd1 _ (dn ++ [(a, r)]) m1 Hinv1) as (w2 & ck2 & cd2 & new & m2 & E2 & Hinv2 & Hk2 & Hall & Hdis).
  { lia. }
  { rewrite Forall_forall in Hcp |- *. intros e He. pose proof He as [_ He']%list_elem_of_filter.
    eapply copyable_step; [exact His | exact Hm1 | exact Hk1 | exact He' | by apply Hcp]. }
  { unfold fork_pages, forks. fold n. by replace n with (vr_size r / PAGE_SIZE + n - vr_size r / PAGE_SIZE) by lia. }
  { rewrite Hs1. unfold forks. lia. }
  rewrite Eapp. exists w2, ck2, cd2, (new ++ [(a3, Range dest (vr_addr r) (vr_size r) (vr_flags r) [] p)]), m2.
  split; [exact E2 |]. split; [by rewrite <- (app_assoc new) |]. split; [by eapply copy_keeps_trans |].
  destruct (src_sizes _ _ _ _ (a, r) His) as [Hsz Hsm]; [set_solver |]. cbn [snd] in Hsz, Hsm. split.
  - rewrite reverse_cons. apply Forall2_app.
    + apply Forall2_same_length_lookup in Hall as [Hlen Hall]. apply Forall2_same_length_lookup. split; [done |].
      intros i e e' He He'. eapply copy_of_earlier; [| exact Hk1 | by eapply Hall].
      rewrite Forall_forall in Hcp. apply list_elem_of_lookup_2 in He. rewrite elem_of_reverse in He. by apply (cb_fork w cd), Hcp.
    + constructor; [| constructor]. eapply copy_of_later; [cbn [snd]; lia | exact Hcopy | exact Hk2].
  - rewrite map_app. apply pairwise_disjoint_snoc; [done |]. apply Forall_map, Forall_forall. intros e' He'.
    apply list_elem_of_lookup in He' as [i He']. destruct (Forall2_lookup_r _ _ _ _ _ Hall He') as (e & He & Hce).
    apply list_elem_of_lookup_2 in He. rewrite elem_of_reverse in He. apply list_elem_of_filter in He as [_ He].
    destruct (src_sizes _ _ _ _ e His) as [? ?]; [set_solver |]. eapply copy_of_apart; [exact Hcopy | exact Hce | done ..].
Qed.

(** The lemma behind [vm_clone_correct], for the callers of the function. *)
Lemma vm_clone_spec w src dest ck cs cd lk ls ld mem :
  clone_inv w src dest ck cs cd lk ls ld -> Forall (copyable w cd) (forks ls) ->
  resources w ck (fork_pages ls) -> (3 * length (forks ls) <= length (w_supply w))%nat ->
  exists w' ck' cd' new m', vm_clone (Copy w mem) dest src = Ret (0, Copy w' m') /\
    clone_inv w' src dest ck' cs cd' lk ls (new ++ ld) /\
    Forall2 (fun e e' => copy_of (w_phys w) (w_phys w') mem m' dest e.2 e'.2) (reverse (forks ls)) new /\
    pairwise_disjoint (map phys_pages new) /\ keeps (w_phys w) (w_phys w') mem m'.
Proof.
  intros Hinv Hcp Hres Hsup. pose proof (cl_src _ _ _ _ _ _ _ _ _ Hinv) as His. unfold vm_clone, load_ctx. cbn [cp_world].
  rewrite (ci_ctx _ _ _ _ His), bind_Ret. pose proof (list_rep_length _ _ _ (ci_list _ _ _ _ His)).
  assert (vc_ranges cs = first ls) as ->.
  { destruct (ci_list _ _ _ _ His) as [_ [last Hl]]. destruct ls as [| [b rb] ls']; by destruct Hl. }
  destruct (clone_loop_spec src dest cs lk ls (S (base.size (w_ranges w))) w ck cd ld [] mem) as (w' & ck' & cd' & new & m' & E & Hi & Hk & Hall & Hdis);
    [done | lia | done .. |].
  exists w', ck', cd', new, m'. done.
Qed.

(** C7: fork copies memory: vm_clone gives the new context a copy of every range
    of the original that is marked for it, at the same addresses, of the same
    size and with the same rights; every byte of the copy is that of the
    original, in physical pages that were free before and that no two copies
    share; the original, the kernel and all memory in use stay as they were.
    Needed are backed ranges, a new context without a page directory in which
    the addresses are free, room for the pages in physical memory and for twice
    as many in the kernel, and three new objects for each range. *)
Theorem vm_clone_correct w src dest ck cs cd lk ls ld mem :
  clone_inv w src dest ck cs cd lk ls ld -> Forall (copyable w cd) (forks ls) ->
  resources w ck (fork_pages ls) -> (3 * length (forks ls) <= length (w_supply w))%nat ->
  exists w' ck' cd' new m', vm_clone (Copy w mem) dest src = Ret (0, Copy w' m') /\
    clone_inv w' src dest ck' cs cd' lk ls (new ++ ld) /\
    Forall2 (fun e e' => copy_of (w_phys w) (w_phys w') mem m' dest e.2 e'.2) (reverse (forks ls)) new /\
    pairwise_disjoint (map phys_pages new) /\ keeps (w_phys w) (w_phys w') mem m'.
Proof. apply vm_clone_spec. Qed.

(** * An example: a parent with two pages of memory *)

Definition EX_CHILD : Z := 0x3333.
Definition ex_flags : Z := Z.lor VM_RW (Z.lor VM_USER VM_TFORK).
Definition ex_parent : vm_range := Range EX_TASK 0x1000 0x2000 ex_flags [] 0x1000.
Definition ex_child : vm_ctx := VmCtx 0 (Bitmap [1; 0; 0] 64 0) 0 0 0.

Definition ex_fork_boot : vmworld :=
  World {[VM_KERNEL := ex_ctx 0x100 0x2000; EX_TASK := ex_ctx 0x200 0; EX_CHILD := ex_child]}
    {[0x100 := Node 0 0 (ex_range VM_KERNEL 0x3000); 0x200 := Node 0 0 ex_parent]}
    (PageCtx 0 ex_bitmap) ∅ ∅ (16 * PAGE_SIZE) [0x300; 0x400; 0x500] true 50.

Definition ex_fork : vmworld := init_tables 1024 ex_fork_boot 0x2000 0.

Lemma ex_fork_fields :
  w_ctxs ex_fork = w_ctxs ex_fork_boot /\ w_ranges ex_fork = w_ranges ex_fork_boot /\ w_phys ex_fork = w_phys ex_fork_boot /\
  w_supply ex_fork = w_supply ex_fork_boot /\ w_kmalloc_ready ex_fork = w_kmalloc_ready ex_fork_boot.
Proof. apply init_tables_fields. Qed.

(** A context with one range of the pages 1 and 2. *)
Lemma ex_one w ctx a pd r :
  w_ctxs w = w_ctxs ex_fork_boot -> w_ranges w = w_ranges ex_fork_boot -> w_ctxs ex_fork_boot !! ctx = Some (ex_ctx a pd) -> w_ranges ex_fork_boot !! a = Some (Node 0 0 r) -> a <> 0 ->
  vr_ctx r = ctx -> vr_addr r = 0x1000 -> vr_size r = 0x2000 -> ctx_inv w ctx (ex_ctx a pd) [(a, r)].
Proof.
  intros E1 E2 Hc Hn Ha Er Ea Ez. split; try done.
  - by rewrite E1.
  - apply ex_bitmap_wf.
  - rewrite E2. split; [by apply NoDup_singleton |]. exists a. simpl. eauto 10.
  - apply Forall_singleton. unfold pages_of. split; unfold pages_of; cbn [fst snd]; rewrite ?Ea, ?Ez; try done.
    unfold marked. cbn [fst snd]. split; [done |]. split; [done |]. split; [vm_compute; discriminate |].
    intros k Hk. change (0x1000 / PAGE_SIZE) with 1 in Hk. change (0x2000 / PAGE_SIZE) with 2 in Hk.
    assert (k = 1 \/ k = 2) as [-> | ->] by lia; done.
Qed.

Lemma ex_child_inv w : w_ctxs w = w_ctxs ex_fork_boot -> ctx_inv w EX_CHILD ex_child [].
Proof.
  intros E1. split; try done.
  - by rewrite E1.
  - split; simpl; try lia; [repeat constructor; lia | vm_compute; by split].
  - apply list_rep_nil.
Qed.

Lemma ex_fork_objects : NoDup [0x100; 0x200] /\ NoDup [0x300; 0x400; 0x500] /\
  forall a, a ∈ [0x300; 0x400; 0x500] -> a <> 0 /\ w_ranges ex_fork_boot !! a = None.
Proof.
  split; [apply (bool_decide_unpack _); reflexivity |]. split; [apply (bool_decide_unpack _); reflexivity |].
  intros a Ha. repeat (apply elem_of_cons in Ha as [-> | Ha]; [by split |]). by apply not_elem_of_nil in Ha.
Qed.

Lemma ex_phys_ok : phys_ok (PageCtx 0 ex_bitmap).
Proof. split; [done | apply ex_bitmap_wf | simpl; lia | done]. Qed.

Lemma ex_clone_inv :
  clone_inv ex_fork EX_TASK EX_CHILD (ex_ctx 0x100 0x2000) (ex_ctx 0x200 0) ex_child
    [(0x100, ex_range VM_KERNEL 0x3000)] [(0x200, ex_parent)] [].
Proof.
  destruct ex_fork_fields as (E1 & E2 & E3 & E4 & E5). destruct ex_fork_objects as (O1 & O2 & O3). split.
  - split; [| split]; discriminate.
  - apply ex_one; [exact E1 | exact E2 | reflexivity | reflexivity | discriminate | reflexivity ..].
  - apply ex_one; [exact E1 | exact E2 | reflexivity | reflexivity | discriminate | reflexivity ..].
  - apply ex_child_inv. exact E1.
  - reflexivity.
  - apply (init_tables_ready ex_fork_boot 16 0x2000); reflexivity || lia.
  - exact O1.
  - rewrite E3. apply ex_phys_ok.
  - split; rewrite E4; [exact O2 |]. rewrite E2. exact O3.
  - rewrite E5. reflexivity.
Qed.

Lemma ex_copyable : Forall (copyable ex_fork ex_child) (forks [(0x200, ex_parent)]).
Proof.
  destruct ex_fork_fields as (_ & _ & E3 & E4 & _). change (forks [(0x200, ex_parent)]) with [(0x200, ex_parent)]. apply Forall_singleton. split.
  - rewrite E3. split; [reflexivity | reflexivity | reflexivity | discriminate | reflexivity |]. intros p Hp. unfold used. cbn [snd ex_parent vr_phys vr_size] in Hp.
    assert (p / PAGE_SIZE = 1 \/ p / PAGE_SIZE = 2) as [-> | ->]; [| reflexivity | reflexivity].
    pose proof (Z.div_le_lower_bound p PAGE_SIZE 1 ltac:(done) ltac:(page_lia)).
    pose proof (Z.div_lt_upper_bound p PAGE_SIZE 3 ltac:(done) ltac:(page_lia)). lia.
  - vm_compute. discriminate.
  - intros k Hk. change (pages_of (0x200, ex_parent)) with (1, 2) in Hk. cbn [fst snd] in Hk.
    assert (k = 1 \/ k = 2) as [-> | ->] by lia; reflexivity.
Qed.

Lemma ex_resources : resources ex_fork (ex_ctx 0x100 0x2000) (fork_pages [(0x200, ex_parent)]).
Proof.
  destruct ex_fork_fields as (_ & _ & E3 & _). exists 61, 61, 3, 3. rewrite E3. assert (room ex_bitmap 61 3) as Hr.
  { split; [lia | simpl; lia | intros k Hk; apply ex_bits; lia | simpl; lia]. }
  split; [exact Hr |]. split; [vm_compute; discriminate |]. split; [exact Hr | vm_compute; discriminate].
Qed.

Lemma ex_supply : (3 * length (forks [(0x200%Z, ex_parent)]) <= length (w_supply ex_fork))%nat.
Proof. destruct ex_fork_fields as (_ & _ & _ & E4 & _). rewrite E4. simpl. lia. Qed.

(** The only range of the child, and a byte of it. *)
Lemma ex_only_copy pa pa' m m' dest new :
  Forall2 (fun e e' : Z * vm_range => copy_of pa pa' m m' dest e.2 e'.2) (reverse (forks [(0x200, ex_parent)])) new ->
  exists a p, new = [(a, Range dest 0x1000 0x2000 ex_flags [] p)] /\ byte_at m' (p + 4) = byte_at m 0x1004.
Proof.
  change (reverse (forks [(0x200, ex_parent)])) with [(0x200, ex_parent)]. intros Hall.
  apply Forall2_cons_inv_l in Hall as ([a r'] & l & [Hc Ha Hs Hf Hsh _ _ Hb] & Hnil & ->). apply Forall2_nil_inv_l in Hnil as ->.
  destruct r' as [c1 a1 s1 f1 sh1 p1]. cbn [vr_ctx vr_addr vr_size vr_flags vr_shards vr_phys snd ex_parent] in *. subst.
  exists a, p1. split; [done |]. by rewrite (Hb 4) by lia.
Qed.

(** The example runs: the child has a copy of the byte at 0x1004 of its parent. *)
Lemma ex_clones :
  exists w' cd' a p m', vm_clone (Copy ex_fork {[0x1004 := 77]}) EX_CHILD EX_TASK = Ret (0, Copy w' m') /\
    ctx_inv w' EX_CHILD cd' [(a, Range EX_CHILD 0x1000 0x2000 ex_flags [] p)] /\ byte_at m' (p + 4) = 77.
Proof.
  destruct (vm_clone_spec ex_fork EX_TASK EX_CHILD (ex_ctx 0x100 0x2000) (ex_ctx 0x200 0) ex_child
    [(0x100, ex_range VM_KERNEL 0x3000)] [(0x200, ex_parent)] [] {[0x1004 := 77]} ex_clone_inv ex_copyable ex_resources ex_supply)
    as (w' & ck' & cd' & new & m' & E & Hi & Hall & _).
  destruct (ex_only_copy _ _ _ _ _ _ Hall) as (a & p & -> & Hb). exists w', cd', a, p, m'. split; [exact E |].
  split; [apply (cl_dest _ _ _ _ _ _ _ _ _ Hi) | exact Hb].
Qed.

Lemma vm_clone_correct_witness :
  exists w' ck' cd' a p m', vm_clone (Copy ex_fork {[0x1004 := 77]}) EX_CHILD EX_TASK = Ret (0, Copy w' m') /\
    ctx_inv w' EX_CHILD cd' [(a, Range EX_CHILD 0x1000 0x2000 ex_flags [] p)] /\ byte_at m' (p + 4) = 77 /\
    clone_inv w' EX_TASK EX_CHILD ck' (ex_ctx 0x200 0) cd' [(0x100, ex_range VM_KERNEL 0x3000)] [(0x200, ex_parent)]
      [(a, Range EX_CHILD 0x1000 0x2000 ex_flags [] p)].
Proof.
  destruct (vm_clone_correct ex_fork EX_TASK EX_CHILD (ex_ctx 0x100 0x2000) (ex_ctx 0x200 0) ex_child
    [(0x100, ex_range VM_KERNEL 0x3000)] [(0x200, ex_parent)] [] {[0x1004 := 77]} ex_clone_inv ex_copyable ex_resources ex_supply)
    as (w' & ck' & cd' & new & m' & E & Hi & Hall & _).
  destruct (ex_only_copy _ _ _ _ _ _ Hall) as (a & p & -> & Hb).
  exists w', ck', cd', a, p, m'. split; [exact E |]. split; [apply (cl_dest _ _ _ _ _ _ _ _ _ Hi) |]. split; [exact Hb | exact Hi].
Defined.

(** * Where the code falls short *)

(** The kernel with one page table copies [size] bytes of two mapped pages with
    a 7 on the second: the result and the byte of the copy. *)
Definition ex_copy (size : Z) : outcome (Z * Z) :=
  '(v, _, w) ← vm_alloc (set_supply ex_small [0x300; 0x400; 0x500; 0x600]) VM_KERNEL 2 0 VM_RW;
  '(r, s) ← vm_copy (Copy w {[0x4004 := 7]}) EX_TASK 0x7000 (Range VM_KERNEL v size VM_RW [] 0x3000) VM_RW;
  Ret (r, byte_at (cp_mem s) 0x6004).

(** The rest of the last page of a copy is to be zeroed, but the address is a
    page too low: for one and a half pages, the second half of the data is
    zeroed.  No caller has such a size. *)
Lemma vm_copy_zeroes_data : ex_copy 0x2000 = Ret (0, 7) /\ ex_copy 0x1800 = Ret (0, 0).
Proof. split; vm_compute; reflexivity. Qed.
