(* ===== verification/Block.v ===== *)
(** Block devices: src/src/block/block.c and part.c.

    A device is reached through the functions of its driver, which are
    parameters: [drv_read] and [drv_write] stand for the callbacks, by the
    address of the function and the driver's [meta] pointer, on the state [D]
    of the hardware.  [DiskLaws] says what the code above relies on: the driver
    moves whole blocks of an array of bytes.  The files of the devices in /dev
    are Sysfs.v's; here is what lies behind them. *)
From stdpp Require Import base numbers list gmap.
From Stdlib Require Import ZArith Lia Bool.
From S2P Require Import Prelude Str Bytes Path Mount.

Open Scope Z_scope.

(** [vfs_block_dev]; [next] is its place in the list. *)
Record vfs_block_dev : Type := BlockDev {
  bd_name : cstring;
  bd_block_size : Z;
  bd_number : Z;
  bd_start_offset : Z;
  bd_read_cb : Z;
  bd_write_cb : Z;
  bd_meta : Z;
}.

(** The drivers: the number of blocks moved, and for a read the bytes stored. *)
Class BlockDrivers (D : Type) : Type := {
  drv_read : Z -> Z -> D -> Z -> Z -> outcome (Z * list Z * D);
  drv_write : Z -> Z -> D -> Z -> Z -> list Z -> outcome (Z * D);
}.

Section Block.
Context {D : Type} `{BlockDrivers D}.
Implicit Types (dev : vfs_block_dev) (d : D).

(** [num_devs] and [block_devs]. *)
Record block_state : Type := BlockState {
  bs_num_devs : Z;
  bs_devs : list vfs_block_dev;
}.

Definition DEV_PREFIX : cstring := [47; 100; 101; 118; 47].

Fixpoint get_dev_loop (devs : list vfs_block_dev) (path : cstring) : outcome (option vfs_block_dev) :=
  match devs with
  | [] => Ret None
  | dev :: devs =>
    r ← strcmp (buf (bd_name dev)) (buf path) 0 5;
    if r =? 0 then Ret (Some dev) else get_dev_loop devs path
  end.

Definition vfs_block_get_dev (s : block_state) (path : cstring) : outcome (option vfs_block_dev) :=
  l ← strlen (buf path) 0;
  if l <? 6 then Ret None else
  r ← strncmp (buf path) (buf DEV_PREFIX) 0 0 5;
  if nz r then Ret None else get_dev_loop (bs_devs s) path.

Definition vfs_block_read dev d (start_block num_blocks : Z) : outcome (Z * list Z * D) :=
  drv_read (bd_read_cb dev) (bd_meta dev) d (u64 (start_block + bd_start_offset dev)) num_blocks.

Definition vfs_block_write dev d (start_block num_blocks : Z) (b : list Z) : outcome (Z * D) :=
  drv_write (bd_write_cb dev) (bd_meta dev) d (u64 (start_block + bd_start_offset dev)) num_blocks b.

(** The numbers both functions compute: an [int], the rest of the position, and
    an [int]. *)
Definition start_block_of dev (position : Z) : Z := s32 (position / bd_block_size dev).

Definition num_blocks_of dev (position sz : Z) : Z :=
  s32 (u64 (sz + position mod bd_block_size dev + bd_block_size dev - 1) / bd_block_size dev).

Definition aligned dev (position sz : Z) : bool :=
  (position mod bd_block_size dev =? 0) && (sz mod bd_block_size dev =? 0).

(** The result and the bytes stored at [buf]; the buffer in between is assumed
    to be there, as the code does not check for it. *)
Definition vfs_block_sread dev d (position sz : Z) : outcome (Z * list Z * D) :=
  let start_block := start_block_of dev position in
  let offset := position mod bd_block_size dev in
  let num_blocks := num_blocks_of dev position sz in
  if aligned dev position sz then
    '(n, b, d) ← vfs_block_read dev d (u64 start_block) (u64 num_blocks);
    Ret (u64 (n * bd_block_size dev), b, d)
  else
    if u64 (s32 (num_blocks * bd_block_size dev)) <? sz then Panic else
    '(n, int_buf, d) ← vfs_block_read dev d (u64 start_block) (u64 num_blocks);
    if n <? u64 num_blocks then Ret (u64 (-1), [], d) else
    Ret (sz, bytes_at int_buf offset sz, d).

(** [b] has the [sz] bytes to write. *)
Definition vfs_block_swrite dev d (position sz : Z) (b : list Z) : outcome (Z * D) :=
  let start_block := start_block_of dev position in
  let offset := position mod bd_block_size dev in
  let num_blocks := num_blocks_of dev position sz in
  if aligned dev position sz then
    '(n, d) ← vfs_block_write dev d (u64 start_block) (u64 num_blocks) b;
    Ret (u64 (n * bd_block_size dev), d)
  else
    '(n, int_buf, d) ← vfs_block_read dev d (u64 start_block) (u64 num_blocks);
    if n <? u64 num_blocks then Ret (u64 (-1), d) else
    let int_buf := splice int_buf offset (take (Z.to_nat sz) b) in
    '(n, d) ← vfs_block_write dev d (u64 start_block) (u64 num_blocks) int_buf;
    if n <? u64 num_blocks then Ret (u64 (-1), d) else Ret (sz, d).

(** The callbacks of the files in /dev; [dev] is None for a NULL [meta]. *)
Definition sfs_block_read (dev : option vfs_block_dev) d (offset sz : Z) : outcome (Z * list Z * D) :=
  match dev with
  | None => Ret (u32 (-1), [], d)
  | Some dev =>
    '(r, b, d) ← vfs_block_sread dev d offset sz;
    if r =? 0 then Ret (u32 (-1), b, d) else Ret (sz, b, d)
  end.

Definition sfs_block_write (dev : option vfs_block_dev) d (offset sz : Z) (b : list Z) : outcome (Z * D) :=
  match dev with
  | None => Ret (u32 (-1), d)
  | Some dev =>
    '(r, d) ← vfs_block_swrite dev d offset sz b;
    if r =? 0 then Ret (u32 (-1), d) else Ret (sz, d)
  end.

(** * Partitions *)

(** The 32-bit number at [o], least significant byte first. *)
Definition get_u32 (b : list Z) (o : Z) : outcome Z :=
  b0 ← aload b o; b1 ← aload b (o + 1); b2 ← aload b (o + 2); b3 ← aload b (o + 3);
  Ret (b0 + 2 ^ 8 * b1 + 2 ^ 16 * b2 + 2 ^ 24 * b3).

(** An entry of the table in the boot sector: type, start and size. *)
Definition mbr_partition (b : list Z) (i : Z) : outcome (Z * Z * Z) :=
  let part := 0x1be + 16 * (i - 1) in
  type ← aload b (part + 4);
  start ← get_u32 b (part + 8);
  sz ← get_u32 b (part + 12);
  Ret (type, start, sz).

(** The device is put in front of the list. *)
Definition add_dev (s : block_state) (name : cstring) (start_offset read_cb write_cb meta : Z)
    : outcome (vfs_block_dev * block_state) :=
  name ← copy_name 50 name;
  let dev := BlockDev name 512 (s32 (bs_num_devs s + 1)) start_offset read_cb write_cb meta in
  Ret (dev, BlockState (s32 (bs_num_devs s + 1)) (dev :: bs_devs s)).

(** Registering a partition does not look for partitions in it: a start of 0 is
    skipped, and [add_dev] is all that remains. *)
Fixpoint part_loop (idx : list Z) (s : block_state) dev (b : list Z) : outcome block_state :=
  match idx with
  | [] => Ret s
  | i :: idx =>
    '(type, start, sz) ← mbr_partition b i;
    if (type =? 0) || (sz =? 0) || (start =? 0) then part_loop idx s dev b else
    '(_, s) ← add_dev s (bd_name dev ++ [112; 48 + i]) start (bd_read_cb dev) (bd_write_cb dev) (bd_meta dev);
    part_loop idx s dev b
  end.

Definition vfs_part_probe (s : block_state) dev d : outcome (block_state * D) :=
  '(n, b, d) ← drv_read (bd_read_cb dev) (bd_meta dev) d 0 1;
  if n <? 1 then Ret (s, d) else
  s ← part_loop [1; 2; 3; 4] s dev b;
  Ret (s, d).

Definition vfs_block_register_dev (s : block_state) d (name : cstring) (start_offset read_cb write_cb meta : Z)
    : outcome (block_state * D) :=
  '(dev, s) ← add_dev s name start_offset read_cb write_cb meta;
  if bd_start_offset dev =? 0 then vfs_part_probe s dev d else Ret (s, d).

End Block.

(** What the drivers promise: [disk_bytes] is the content of the medium behind
    a [meta] pointer; blocks of 512 bytes inside it can be read and written. *)
Class DiskLaws (D : Type) `{BlockDrivers D} : Type := {
  disk_bytes : Z -> D -> list Z;
  drv_read_ok : forall fn meta d lba n, 0 <= lba -> 0 <= n ->
    (lba + n) * 512 <= Z.of_nat (length (disk_bytes meta d)) ->
    drv_read fn meta d lba n = Ret (n, bytes_at (disk_bytes meta d) (lba * 512) (n * 512), d);
  drv_write_ok : forall fn meta d lba n b, 0 <= lba -> 0 <= n -> Z.of_nat (length b) = n * 512 ->
    (lba + n) * 512 <= Z.of_nat (length (disk_bytes meta d)) ->
    exists d', drv_write fn meta d lba n b = Ret (n, d') /\
      disk_bytes meta d' = splice (disk_bytes meta d) (lba * 512) b;
}.

(** * Slices *)

(** A slice of a slice, and a change of a slice put back. *)
Lemma bytes_at_nested l p n o m :
  0 <= p -> 0 <= o -> 0 <= m -> o + m <= n -> bytes_at (bytes_at l p n) o m = bytes_at l (p + o) m.
Proof.
  intros. apply list_eq. intros i. rewrite !lookup_bytes_at. repeat case_decide; try done; [| lia].
  f_equal. lia.
Qed.

Lemma splice_nested l p n o x :
  0 <= p -> 0 <= o -> o + Z.of_nat (length x) <= n -> p + n <= Z.of_nat (length l) ->
  splice l p (splice (bytes_at l p n) o x) = splice l (p + o) x.
Proof.
  intros Hp Ho Hx Hn. assert (length (bytes_at l p n) = Z.to_nat n) as Hb by (apply length_bytes_at; lia).
  assert (length (splice (bytes_at l p n) o x) = Z.to_nat n) as Hs by (rewrite length_splice; lia).
  apply list_eq. intros i. rewrite !lookup_splice by lia. rewrite Hs, lookup_bytes_at.
  repeat case_decide; try lia; try done; f_equal; lia.
Qed.

(** * The device as an array of bytes *)

Section Device.
Context {D : Type} `{DiskLaws D}.
Implicit Types (dev : vfs_block_dev) (d : D).

(** The bytes of the disk or partition. *)
Definition dev_base dev : Z := bd_start_offset dev * 512.

Record dev_ok dev : Prop := {
  do_size : bd_block_size dev = 512;
  do_start : 0 <= bd_start_offset dev < 2 ^ 32;
}.

(** The blocks the bytes are in exist. *)
Definition in_device dev d (position sz : Z) : Prop :=
  0 <= position < 2 ^ 39 /\ 0 <= sz < 2 ^ 30 /\
  dev_base dev + 512 * ((position + sz + 511) / 512) <= Z.of_nat (length (disk_bytes (bd_meta dev) d)).

(** The first block and the number of blocks, in terms of the medium. *)
Lemma block_numbers dev d position sz :
  dev_ok dev -> in_device dev d position sz ->
  let off := position mod 512 in
  exists lba n, u64 (u64 (start_block_of dev position) + bd_start_offset dev) = lba /\
    u64 (num_blocks_of dev position sz) = n /\ u64 (s32 (num_blocks_of dev position sz * bd_block_size dev)) = n * 512 /\
    0 <= lba /\ 0 <= n < 2 ^ 31 /\ lba * 512 + off = dev_base dev + position /\ off + sz <= n * 512 /\
    (lba + n) * 512 <= Z.of_nat (length (disk_bytes (bd_meta dev) d)) /\
    (aligned dev position sz = true -> off = 0 /\ n * 512 = sz).
Proof.
  intros [Hbs Hst] (Hp & Hsz & Hin) off. unfold start_block_of, num_blocks_of, aligned, dev_base in *. rewrite Hbs.
  pose proof (Z.div_mod position 512). pose proof (Z.mod_pos_bound position 512). fold off in H1, H2.
  pose proof (Z.div_mod (sz + off + 511) 512). pose proof (Z.mod_pos_bound (sz + off + 511) 512).
  pose proof (Z.div_mod (position + sz + 511) 512). pose proof (Z.mod_pos_bound (position + sz + 511) 512).
  exists (position / 512 + bd_start_offset dev), ((sz + off + 511) / 512).
  unfold u64. fold off. replace (sz + off + 512 - 1) with (sz + off + 511) by lia.
  rewrite (Z.mod_small (sz + off + 511)) by lia.
  rewrite !(s32_small (position / 512)), !(s32_small ((sz + off + 511) / 512)) by lia.
  rewrite !(Z.mod_small (position / 512)), !(Z.mod_small ((sz + off + 511) / 512)) by lia.
  rewrite (s32_small (_ * 512)), !Z.mod_small by lia. do 8 (split; [lia |]).
  intros [E1%Z.eqb_eq E2%Z.eqb_eq]%andb_prop. fold off in E1. pose proof (Z.div_mod sz 512). lia.
Qed.

Lemma vfs_block_sread_spec dev d position sz :
  dev_ok dev -> in_device dev d position sz ->
  vfs_block_sread dev d position sz =
    Ret (sz, bytes_at (disk_bytes (bd_meta dev) d) (dev_base dev + position) sz, d).
Proof.
  intros Hd Hin. destruct (block_numbers dev d position sz Hd Hin) as (lba & n & E1 & E2 & E3 & Hl & Hn & Ho & Hs & Hfit & Hal).
  destruct Hin as (Hp & Hsz & _). unfold vfs_block_sread, vfs_block_read. rewrite E1, E2, E3, (do_size dev Hd).
  pose proof (Z.mod_pos_bound position 512). rewrite !drv_read_ok by lia. rewrite !bind_Ret.
  destruct (aligned dev position sz).
  - destruct (Hal eq_refl) as [Ho0 ->]. unfold u64. rewrite Z.mod_small by lia.
    replace (lba * 512) with (dev_base dev + position) by lia. done.
  - destruct (Z.ltb_spec (n * 512) sz); [lia |]. rewrite Z.ltb_irrefl.
    rewrite bytes_at_nested by lia. by rewrite Ho.
Qed.

Lemma vfs_block_swrite_spec dev d position sz b :
  dev_ok dev -> in_device dev d position sz -> Z.of_nat (length b) = sz ->
  exists d', vfs_block_swrite dev d position sz b = Ret (sz, d') /\
    disk_bytes (bd_meta dev) d' = splice (disk_bytes (bd_meta dev) d) (dev_base dev + position) b.
Proof.
  intros Hd Hin Hb. destruct (block_numbers dev d position sz Hd Hin) as (lba & n & E1 & E2 & E3 & Hl & Hn & Ho & Hs & Hfit & Hal).
  destruct Hin as (Hp & Hsz & _). unfold vfs_block_swrite, vfs_block_read, vfs_block_write.
  rewrite E1, E2, (do_size dev Hd). pose proof (Z.mod_pos_bound position 512).
  rewrite drv_read_ok by lia. rewrite bind_Ret, Z.ltb_irrefl. destruct (aligned dev position sz).
  - destruct (Hal eq_refl) as [Ho0 En].
    destruct (drv_write_ok (bd_write_cb dev) (bd_meta dev) d lba n b) as (d' & -> & Hd'); [lia .. |].
    rewrite bind_Ret, En. unfold u64. rewrite Z.mod_small by lia. exists d'. split; [done |].
    rewrite Hd'. f_equal. lia.
  - rewrite take_ge by lia. set (ib := bytes_at _ _ _).
    assert (length ib = Z.to_nat (n * 512)) as Hib by (apply length_bytes_at; lia).
    destruct (drv_write_ok (bd_write_cb dev) (bd_meta dev) d lba n (splice ib (position mod 512) b)) as (d' & -> & Hd');
      [lia | lia | rewrite length_splice; lia | lia |].
    rewrite bind_Ret, Z.ltb_irrefl. exists d'. split; [done |]. rewrite Hd'. unfold ib.
    rewrite splice_nested by lia. f_equal. lia.
Qed.

(** a block device is an array of bytes: a write of any position and length
    inside it, aligned to the blocks or not, succeeds, and every later read
    inside it gives the bytes of the array with exactly the written ones
    replaced. *)
Theorem block_device_array dev d position sz b :
  dev_ok dev -> in_device dev d position sz -> Z.of_nat (length b) = sz ->
  exists d', vfs_block_swrite dev d position sz b = Ret (sz, d') /\
    forall p n, in_device dev d p n -> vfs_block_sread dev d' p n =
      Ret (n, bytes_at (splice (disk_bytes (bd_meta dev) d) (dev_base dev + position) b) (dev_base dev + p) n, d').
Proof.
  intros Hd Hin Hb. destruct (vfs_block_swrite_spec dev d position sz b Hd Hin Hb) as (d' & E & Hd').
  exists d'. split; [done |]. intros p n Hpn. rewrite vfs_block_sread_spec; [by rewrite Hd' | done |].
  destruct Hin as (Hp & Hsz & Hin), Hpn as (Hp' & Hn & Hin'). do 2 (split; [done |]). rewrite Hd'.
  pose proof (Z.div_mod (position + sz + 511) 512). pose proof (Z.mod_pos_bound (position + sz + 511) 512).
  destruct Hd. rewrite length_splice; unfold dev_base in *; lia.
Qed.

End Device.

(** * A disk in memory *)

#[global] Instance ram_drivers : BlockDrivers (list Z) := {
  drv_read _ _ d lba n :=
    if (lba + n) * 512 <=? Z.of_nat (length d) then Ret (n, bytes_at d (lba * 512) (n * 512), d) else Ret (0, [], d);
  drv_write _ _ d lba n b :=
    if (lba + n) * 512 <=? Z.of_nat (length d) then Ret (n, splice d (lba * 512) b) else Ret (0, d);
}.

#[global] Program Instance ram_laws : DiskLaws (list Z) := { disk_bytes _ d := d }.
Next Obligation. intros. cbn. destruct (Z.leb_spec ((lba + n) * 512) (Z.of_nat (length d))); [done | lia]. Qed.
Next Obligation.
  intros. cbn. destruct (Z.leb_spec ((lba + n) * 512) (Z.of_nat (length d))); [by eexists | lia].
Qed.

Definition ram_dev : vfs_block_dev := BlockDev [104; 100] 512 1 1 0 0 0.

Lemma block_device_array_witness :
  exists d', vfs_block_swrite ram_dev (replicate 1536 7) 510 4 [1; 2; 3; 4] = Ret (4, d') /\
    vfs_block_sread ram_dev d' 509 3 = Ret (3, [7; 1; 2], d').
Proof.
  destruct (block_device_array ram_dev (replicate 1536 7) 510 4 [1; 2; 3; 4]) as (d' & E & Hr).
  - split; [reflexivity | simpl; lia].
  - split; [lia |]. split; [lia |]. vm_compute. discriminate.
  - reflexivity.
  - exists d'. split; [exact E |]. rewrite Hr; [reflexivity |].
    split; [lia |]. split; [lia |]. vm_compute. discriminate.
Defined.

(** A failed read is not reported by the file in /dev: [-1] is not 0. *)
Lemma sfs_block_read_hides_error :
  vfs_block_sread ram_dev [] 1 1 = Ret (u64 (-1), [], []) /\ sfs_block_read (Some ram_dev) [] 1 1 = Ret (1, [], []).
Proof. split; vm_compute; reflexivity. Qed.
