(* ===== verification/Ext2.v ===== *)
(** The ext2 file system, lower half: src/src/fs/ext2_misc.c (bitmaps and new
    blocks) and src/src/fs/ext2_inode.c (inodes and the data of files).

    Superblock, blockgroup table and inodes are what they are in memory and on
    the disk, bytes; a field is read at its offset.  The buffers have the size
    the code allocates for them.  Stores past the end of a buffer, reads of
    bytes that were never stored, and accesses outside the blockgroup table are
    [Fault]. *)
From stdpp Require Import base numbers list gmap.
From Stdlib Require Import ZArith Lia Bool.
From S2P Require Import Prelude Str Bytes Path Mount Bitmap Block.

Open Scope Z_scope.

(** * Fields *)

(** [struct superblock] *)
Definition SIZEOF_SUPERBLOCK : Z := 1024.
Definition sb_block_count (sb : list Z) : Z := u32_at sb 4.
Definition sb_free_blocks (sb : list Z) : Z := u32_at sb 12.
Definition sb_free_inodes (sb : list Z) : Z := u32_at sb 16.
Definition sb_block_size (sb : list Z) : Z := u32_at sb 24.
Definition sb_blocks_per_group (sb : list Z) : Z := u32_at sb 32.
Definition sb_inodes_per_group (sb : list Z) : Z := u32_at sb 40.
Definition sb_inode_size (sb : list Z) : Z := u16_at sb 88.

(** [struct inode] *)
Definition SIZEOF_INODE : Z := 130.
Definition in_mode (i : list Z) : Z := u16_at i 0.
Definition in_uid (i : list Z) : Z := u16_at i 2.
Definition in_size (i : list Z) : Z := u32_at i 4.
Definition in_gid (i : list Z) : Z := u16_at i 24.
Definition in_link_count (i : list Z) : Z := u16_at i 26.
Definition in_block_count (i : list Z) : Z := u32_at i 28.
Definition in_block (i : list Z) (k : Z) : Z := u32_at i (40 + 4 * k).

(** [struct blockgroup] *)
Definition SIZEOF_BLOCKGROUP : Z := 32.

Definition INODE_CACHE_MAX : Z := 0x100.
Definition ROOT_INODE : Z := 2.

(** [struct ext2_fs]; the superblock and the tables are the buffers it points
    to, a cache entry is a number and [sizeof(struct inode)] bytes. *)
Record ext2_fs : Type := Ext2 {
  fs_dev : vfs_block_dev;
  fs_superblock : list Z;
  fs_blockgroup_table : list Z;
  fs_root_inode : option (list Z);
  fs_inode_cache : list (Z * list Z);
  fs_inode_cache_end : Z;
}.

Implicit Types fs : ext2_fs.

Definition fs_set_superblock fs b : ext2_fs :=
  Ext2 (fs_dev fs) b (fs_blockgroup_table fs) (fs_root_inode fs) (fs_inode_cache fs) (fs_inode_cache_end fs).
Definition fs_set_blockgroups fs b : ext2_fs :=
  Ext2 (fs_dev fs) (fs_superblock fs) b (fs_root_inode fs) (fs_inode_cache fs) (fs_inode_cache_end fs).
Definition fs_set_root fs r : ext2_fs :=
  Ext2 (fs_dev fs) (fs_superblock fs) (fs_blockgroup_table fs) r (fs_inode_cache fs) (fs_inode_cache_end fs).
Definition fs_set_cache fs c e : ext2_fs :=
  Ext2 (fs_dev fs) (fs_superblock fs) (fs_blockgroup_table fs) (fs_root_inode fs) c e.

(** The macros. *)
Definition block_size fs : Z := Z.shiftl 1024 (sb_block_size (fs_superblock fs)).
Definition bl_off fs (block : Z) : Z := u64 (block * block_size fs).
Definition bl_size fs (block : Z) : Z := block / block_size fs.
Definition bl_mod fs (block : Z) : Z := block mod block_size fs.

Definition inode_to_blockgroup fs (inode : Z) : outcome Z :=
  if sb_inodes_per_group (fs_superblock fs) =? 0 then Fault
  else Ret (u32 (inode - 1) / sb_inodes_per_group (fs_superblock fs)).

Definition blockgroup_table_start fs : Z := if bl_off fs 1 =? 1024 then 2 else 1.

Definition blockgroup_table_size fs : Z :=
  bl_size fs (u32 (sb_block_count (fs_superblock fs) / sb_blocks_per_group (fs_superblock fs) * SIZEOF_BLOCKGROUP)) + 1.

(** A field of the blockgroup with number [g]. *)
Definition bg_offset fs (g o : Z) : outcome Z :=
  let p := SIZEOF_BLOCKGROUP * g + o in
  if p + 4 <=? Z.of_nat (length (fs_blockgroup_table fs)) then Ret p else Fault.

Definition bg_block_bitmap fs (g : Z) : outcome Z := p ← bg_offset fs g 0; Ret (u32_at (fs_blockgroup_table fs) p).
Definition bg_inode_bitmap fs (g : Z) : outcome Z := p ← bg_offset fs g 4; Ret (u32_at (fs_blockgroup_table fs) p).
Definition bg_inode_table fs (g : Z) : outcome Z := p ← bg_offset fs g 8; Ret (u32_at (fs_blockgroup_table fs) p).
Definition bg_free_blocks fs (g : Z) : outcome Z := p ← bg_offset fs g 12; Ret (u16_at (fs_blockgroup_table fs) p).
Definition bg_free_inodes fs (g : Z) : outcome Z := p ← bg_offset fs g 12; Ret (u16_at (fs_blockgroup_table fs) (p + 2)).

Section Ext2.
Context {D : Type} `{BlockDrivers D}.
Implicit Types d : D.

Definition write_superblock fs d : outcome D :=
  '(_, d) ← vfs_block_swrite (fs_dev fs) d 1024 SIZEOF_SUPERBLOCK (fs_superblock fs);
  Ret d.

Definition write_blockgroup_table fs d : outcome D :=
  '(_, d) ← vfs_block_swrite (fs_dev fs) d (bl_off fs (blockgroup_table_start fs))
              (bl_off fs (blockgroup_table_size fs)) (fs_blockgroup_table fs);
  Ret d.

(** * ext2_misc.c *)

(** The inner loop: the first clear bit of a byte that is not 0xff. *)
Fixpoint claim_bit (fuel : nat) (blt j : Z) : Z :=
  match fuel with
  | O => j
  | S fuel => if nz (bit_get blt j) then claim_bit fuel blt (j + 1) else j
  end.

(** The outer loop: the result and the bitmap. *)
Fixpoint claim_loop (fuel : nat) (bitmap : list Z) (n i : Z) : outcome (Z * list Z) :=
  match fuel with
  | O => Spin
  | S fuel =>
    if i <? n then
      blt ← aload bitmap i;
      if blt =? 0xff then claim_loop fuel bitmap n (i + 1) else
      let j := claim_bit 8 blt 0 in
      bitmap ← astore bitmap i (bit_set blt j);
      Ret (i * 8 + j, bitmap)
    else Ret (0, bitmap)
  end.

Definition ext2_bitmap_search_and_claim fs d (bitmap_block : Z) : outcome (Z * D) :=
  '(_, bitmap, d) ← vfs_block_sread (fs_dev fs) d (bl_off fs bitmap_block) (bl_off fs 1);
  '(result, bitmap) ← claim_loop (S (Z.to_nat (bl_off fs 1))) bitmap (bl_off fs 1) 0;
  if nz result then
    '(_, d) ← vfs_block_swrite (fs_dev fs) d (bl_off fs bitmap_block) (bl_off fs 1) bitmap;
    Ret (result, d)
  else Ret (result, d).

Definition ext2_bitmap_free fs d (bitmap_block bit : Z) : outcome D :=
  '(_, bitmap, d) ← vfs_block_sread (fs_dev fs) d (bl_off fs bitmap_block) (bl_off fs 1);
  b ← aload bitmap (bit / 8);
  bitmap ← astore bitmap (bit / 8) (u8 (bit_clear b (bit mod 8)));
  '(_, d) ← vfs_block_swrite (fs_dev fs) d (bl_off fs bitmap_block) (bl_off fs 1) bitmap;
  Ret d.

Definition ext2_block_new fs d (neighbor : Z) : outcome (Z * ext2_fs * D) :=
  g ← inode_to_blockgroup fs neighbor;
  t ← bg_inode_table fs g;
  if t =? 0 then Ret (0, fs, d) else
  bb ← bg_block_bitmap fs g;
  '(block_num, d) ← ext2_bitmap_search_and_claim fs d bb;
  if block_num =? 0 then Ret (0, fs, d) else
  let sb := fs_superblock fs in
  let fs := fs_set_superblock fs (set_u32 sb 12 (u32 (sb_free_blocks sb - 1))) in
  n ← bg_free_blocks fs g;
  p ← bg_offset fs g 12;
  let fs := fs_set_blockgroups fs (set_u16 (fs_blockgroup_table fs) p (u16 (n - 1))) in
  d ← write_superblock fs d;
  d ← write_blockgroup_table fs d;
  Ret (block_num, fs, d).

(** * ext2_inode.c *)

(** The position of the inode on the disk, 0 when there is none. *)
Definition find_inode fs (inode_num : Z) : outcome Z :=
  let sb := fs_superblock fs in
  g ← inode_to_blockgroup fs inode_num;
  if sb_blocks_per_group sb =? 0 then Fault else
  if sb_block_count sb / sb_blocks_per_group sb <? g then Ret 0 else
  t ← bg_inode_table fs g;
  if t =? 0 then Ret 0 else
  Ret (u64 (bl_off fs t + u32 (u32 (inode_num - 1) mod sb_inodes_per_group sb * sb_inode_size sb))).

(** The index of the entry with this number. *)
Fixpoint check_cache (cache : list (Z * list Z)) (inode_num i : Z) : option Z :=
  match cache with
  | [] => None
  | (num, _) :: cache =>
    if num =? 0 then None else
    if num =? inode_num then Some i else check_cache cache inode_num (i + 1)
  end.

(** [memcpy] of the first [n] bytes of [src] to the front of a buffer. *)
Definition copy_front (dst src : list Z) (n : Z) : outcome (list Z) :=
  if (n <=? Z.of_nat (length dst)) && (n <=? Z.of_nat (length src))
  then Ret (splice dst 0 (take (Z.to_nat n) src)) else Fault.

(** [fs->root_inode], when it is the inode that is asked for. *)
Definition cached_root fs (inode_num : Z) : option (list Z) :=
  if inode_num =? ROOT_INODE then fs_root_inode fs else None.

(** [b] is the buffer the inode is read into. *)
Definition ext2_inode_read fs d (b : list Z) (inode_num : Z) : outcome (bool * list Z * ext2_fs * D) :=
  let size := sb_inode_size (fs_superblock fs) in
  match cached_root fs inode_num with
  | Some root => b ← copy_front b root size; Ret (true, b, fs, d)
  | None =>
    match check_cache (fs_inode_cache fs) inode_num 0 with
    | Some i => '(_, c) ← aload (fs_inode_cache fs) i; b ← copy_front b c SIZEOF_INODE; Ret (true, b, fs, d)
    | None =>
      inode_off ← find_inode fs inode_num;
      if inode_off =? 0 then Ret (false, b, fs, d) else
      '(r, bytes, d) ← vfs_block_sread (fs_dev fs) d inode_off size;
      b ← copy_front b bytes (Z.of_nat (length bytes));
      if r <? size then Ret (false, b, fs, d) else
      '(_, c) ← aload (fs_inode_cache fs) (fs_inode_cache_end fs);
      c ← copy_front c b SIZEOF_INODE;
      cache ← astore (fs_inode_cache fs) (fs_inode_cache_end fs) (inode_num, c);
      Ret (true, b, fs_set_cache fs cache (u32 (fs_inode_cache_end fs + 1) mod INODE_CACHE_MAX), d)
    end
  end.

(** The result is the number [vfs_block_swrite] returns, as a truth value. *)
Definition ext2_inode_write fs d (b : list Z) (inode_num : Z) : outcome (bool * ext2_fs * D) :=
  let size := sb_inode_size (fs_superblock fs) in
  fs ← match cached_root fs inode_num with
       | Some root => r ← copy_front root b size; Ret (fs_set_root fs (Some r))
       | None => Ret fs
       end;
  inode_off ← find_inode fs inode_num;
  if inode_off =? 0 then Ret (false, fs, d) else
  fs ← match check_cache (fs_inode_cache fs) inode_num 0 with
       | Some i =>
         '(num, c) ← aload (fs_inode_cache fs) i;
         c ← copy_front c b SIZEOF_INODE;
         cache ← astore (fs_inode_cache fs) i (num, c);
         Ret (fs_set_cache fs cache (fs_inode_cache_end fs))
       | None => Ret fs
       end;
  '(r, d) ← vfs_block_swrite (fs_dev fs) d inode_off size (take (Z.to_nat size) b);
  Ret (nz r, fs, d).

(** [while(!blockgroup->free_inodes) blockgroup++]; the table ends the fuel. *)
Fixpoint free_blockgroup (fuel : nat) fs (g : Z) : outcome Z :=
  match fuel with
  | O => Fault
  | S fuel => n ← bg_free_inodes fs g; if n =? 0 then free_blockgroup fuel fs (g + 1) else Ret g
  end.

(** [t] is the time; the result is the number and the new inode. *)
Definition ext2_inode_new fs d (t mode : Z) : outcome (Z * list Z * ext2_fs * D) :=
  let size := sb_inode_size (fs_superblock fs) in
  g ← free_blockgroup (S (length (fs_blockgroup_table fs))) fs 0;
  ib ← bg_inode_bitmap fs g;
  '(r, d) ← ext2_bitmap_search_and_claim fs d ib;
  let inode_num := u32 (r + 1) in
  let inode := set_u16 (replicate (Z.to_nat size) 0) 0 mode in
  let inode := set_u32 (set_u32 (set_u32 inode 12 t) 16 t) 8 t in
  '(_, fs, d) ← ext2_inode_write fs d inode inode_num;
  let sb := fs_superblock fs in
  let fs := fs_set_superblock fs (set_u32 sb 16 (u32 (sb_free_inodes sb - 1))) in
  n ← bg_free_inodes fs g;
  p ← bg_offset fs g 12;
  let fs := fs_set_blockgroups fs (set_u16 (fs_blockgroup_table fs) (p + 2) (u16 (n - 1))) in
  d ← write_superblock fs d;
  d ← write_blockgroup_table fs d;
  Ret (inode_num, inode, fs, d).

(** [struct ext2_blocknum_resolver_cache] *)
Record resolver_cache : Type := ResolverCache {
  rc_indirect : option (list Z);
  rc_double : option (list Z);
  rc_second_block : Z;
  rc_second : option (list Z);
}.

Definition empty_cache : resolver_cache := ResolverCache None None 0 None.

(** A buffer of a block, with what [vfs_block_sread] stores in it. *)
Definition load_table fs d (table : list Z) (block : Z) : outcome (list Z * D) :=
  '(_, bytes, d) ← vfs_block_sread (fs_dev fs) d (bl_off fs block) (bl_off fs 1);
  b ← copy_front table bytes (Z.of_nat (length bytes));
  Ret (b, d).

Definition zero_table fs : list Z := replicate (Z.to_nat (bl_off fs 1)) 0.

Definition ext2_resolve_blocknum fs d (inode : list Z) (block_num : Z) (cache : resolver_cache)
    : outcome (Z * resolver_cache * D) :=
  let entries := u32 (bl_off fs 1 / 4) in
  if block_num <? 12 then Ret (in_block inode block_num, cache, d) else
  if block_num <? u32 (entries + 12) then
    if in_block inode 12 =? 0 then Ret (0, cache, d) else
    '(t, d) ← match rc_indirect cache with
              | Some t => Ret (t, d)
              | None => load_table fs d (zero_table fs) (in_block inode 12)
              end;
    Ret (u32_at t (4 * (block_num - 12)),
         ResolverCache (Some t) (rc_double cache) (rc_second_block cache) (rc_second cache), d)
  else if block_num <? u32 (entries * entries + 12) then
    if in_block inode 13 =? 0 then Ret (0, cache, d) else
    '(t, d) ← match rc_double cache with
              | Some t => Ret (t, d)
              | None => load_table fs d (zero_table fs) (in_block inode 13)
              end;
    let k := u32 (block_num - entries - 12) in
    let cache := ResolverCache (rc_indirect cache) (Some t) (rc_second_block cache) (rc_second cache) in
    let indir := u32_at t (4 * (k / entries)) in
    if indir =? 0 then Ret (0, cache, d) else
    let t2 := default (zero_table fs) (rc_second cache) in
    '(t2, d) ← (if rc_second_block cache =? indir then Ret (t2, d) else load_table fs d t2 indir);
    Ret (u32_at t2 (4 * (k mod entries)), ResolverCache (rc_indirect cache) (Some t) indir (Some t2), d)
  else Ret (0, cache, d).

(** The number of blocks [ext2_inode_data_rw] goes through. *)
Definition data_blocks fs (offset length : Z) : Z :=
  let n := bl_size fs length in
  let n := if nz (bl_mod fs length) then n + 1 else n in
  if nz (bl_mod fs offset) && (bl_off fs 1 <? bl_mod fs offset + bl_mod fs length) then u32 (n + 1) else u32 n.

(** The block of the file with index [i] of the loop, allocated when it is
    missing and the call writes; None when the call fails. *)
Definition data_block fs d (inode : list Z) (write_inode_num offset i : Z) (cache : resolver_cache)
    : outcome (option Z * list Z * resolver_cache * ext2_fs * D) :=
  '(block_num, cache, d) ← ext2_resolve_blocknum fs d inode (u32 (i + bl_size fs offset)) cache;
  if nz block_num then Ret (Some block_num, inode, cache, fs, d) else
  if write_inode_num =? 0 then Ret (None, inode, cache, fs, d) else
  '(block_num, fs, d) ← ext2_block_new fs d write_inode_num;
  if block_num =? 0 then Ret (None, inode, cache, fs, d) else
  let inode := set_u32 inode 28 (u32 (in_block_count inode + 8)) in
  if i <? 12 then
    let inode := set_u32 inode (40 + 4 * i) block_num in
    '(_, fs, d) ← ext2_inode_write fs d inode write_inode_num;
    Ret (Some block_num, inode, cache, fs, d)
  else Ret (None, inode, cache, fs, d).

(** [int nread = r; if(nread < wr_size)]: the comparison is of 64-bit numbers. *)
Definition too_short (r wr_size : Z) : bool := u64 (s32 r) <? wr_size.

(** [b] is the buffer; it is returned with the inode, None for NULL. *)
Fixpoint data_loop (fuel : nat) fs d (inode : list Z) (write_inode_num offset length num_blocks : Z)
    (b : list Z) (cache : resolver_cache) (i buf_offset : Z)
    : outcome (option (list Z) * list Z * ext2_fs * D) :=
  match fuel with
  | O => Spin
  | S fuel =>
    if i <? num_blocks then
      '(r, inode, cache, fs, d) ← data_block fs d inode write_inode_num offset i cache;
      match r with
      | None => Ret (None, inode, fs, d)
      | Some block_num =>
        let skip := if i =? 0 then bl_mod fs offset else 0 in
        let wr_offset := u64 (bl_off fs block_num + skip) in
        let wr_size := u64 (bl_off fs 1 - skip) in
        let wr_size := if u32 (length - buf_offset) <? wr_size then u32 (length - buf_offset) else wr_size in
        '(r, b, d) ←
          (if nz write_inode_num then
             '(r, d) ← vfs_block_swrite (fs_dev fs) d wr_offset wr_size (bytes_at b buf_offset wr_size);
             Ret (r, b, d)
           else
             '(r, bytes, d) ← vfs_block_sread (fs_dev fs) d wr_offset wr_size;
             if buf_offset + Z.of_nat (List.length bytes) <=? Z.of_nat (List.length b)
             then Ret (r, splice b buf_offset bytes, d) else Fault);
        if too_short r wr_size then Ret (None, inode, fs, d) else
        data_loop fuel fs d inode write_inode_num offset length num_blocks b cache (i + 1)
          (u32 (buf_offset + wr_size))
      end
    else Ret (Some b, inode, fs, d)
  end.

Definition ext2_inode_data_rw fs d (inode : list Z) (write_inode_num offset length : Z) (b : list Z)
    : outcome (option (list Z) * list Z * ext2_fs * D) :=
  let num_blocks := data_blocks fs offset length in
  data_loop (S (Z.to_nat num_blocks)) fs d inode write_inode_num offset length num_blocks b empty_cache 0 0.

End Ext2.

(** [enum inode_check_op] gives the bit: 0 to execute, 1 to write, 2 to read.
    [task] has the effective ids, None for the kernel. *)
Definition ext2_inode_check_perm (op : Z) (inode : list Z) (task : option (Z * Z)) : Z :=
  match task with
  | None => 0
  | Some (euid, egid) =>
    if euid =? 0 then 0 else
    let bit_offset := if euid =? in_uid inode then 6 else if egid =? in_gid inode then 3 else 0 in
    if nz (Z.land (in_mode inode) (Z.shiftl 1 (bit_offset + op))) then 0 else -1
  end.
