(* ===== verification/Ext2Spec.v ===== *)
(** Correctness of the lower half of ext2 (Ext2.v): the blocks of a file, the
    data read from it, and the bitmaps. *)
From stdpp Require Import base numbers list gmap.
From Stdlib Require Import ZArith Lia Bool.
From S2P Require Import Prelude Str Bytes Path Mount Bitmap Block Ext2.

Open Scope Z_scope.

Implicit Types fs : ext2_fs.

Section Ext2Spec.
Context {D : Type} `{DiskLaws D}.
Implicit Types d : D.

(** The bytes of the medium, and the position of the file system on it. *)
Definition media fs d : list Z := disk_bytes (bd_meta (fs_dev fs)) d.
Definition base_of fs : Z := dev_base (fs_dev fs).

(** A device of 512-byte blocks, and a block size of up to 64 KiB. *)
Record fs_ok fs : Prop := {
  fo_dev : dev_ok (fs_dev fs);
  fo_block : 0 <= sb_block_size (fs_superblock fs) <= 6;
}.

(** The block lies on the device. *)
Definition block_ok fs d (k : Z) : Prop :=
  0 < k /\ (k + 1) * block_size fs <= 2 ^ 38 /\
  base_of fs + (k + 1) * block_size fs <= Z.of_nat (length (media fs d)).

Definition block_bytes fs d (k : Z) : list Z :=
  bytes_at (media fs d) (base_of fs + k * block_size fs) (block_size fs).

Lemma block_size_range fs : fs_ok fs ->
  1024 <= block_size fs <= 65536 /\ exists m, block_size fs = 512 * m /\ block_size fs / 4 = 128 * m.
Proof.
  intros [_ Hb]. unfold block_size. rewrite Z.shiftl_mul_pow2 by lia.
  assert (sb_block_size (fs_superblock fs) = 0 \/ sb_block_size (fs_superblock fs) = 1 \/
    sb_block_size (fs_superblock fs) = 2 \/ sb_block_size (fs_superblock fs) = 3 \/
    sb_block_size (fs_superblock fs) = 4 \/ sb_block_size (fs_superblock fs) = 5 \/
    sb_block_size (fs_superblock fs) = 6) as E by lia.
  repeat destruct E as [-> | E]; try rewrite E;
    (split; [lia |]); [exists 2 | exists 4 | exists 8 | exists 16 | exists 32 | exists 64 | exists 128]; done.
Qed.

Lemma bl_off_block fs d k : fs_ok fs -> block_ok fs d k -> bl_off fs k = k * block_size fs.
Proof.
  intros Hf (Hk & Hm & _). destruct (block_size_range fs Hf) as [Hb _]. unfold bl_off, u64. apply Z.mod_small. nia.
Qed.

Lemma bl_off_1 fs : fs_ok fs -> bl_off fs 1 = block_size fs.
Proof.
  intros Hf. destruct (block_size_range fs Hf) as [Hb _]. unfold bl_off, u64. rewrite Z.mod_small; lia.
Qed.

(** Bytes of a block can be read and written. *)
Lemma block_in_device fs d k o n :
  fs_ok fs -> block_ok fs d k -> 0 <= o -> 0 <= n -> o + n <= block_size fs ->
  in_device (fs_dev fs) d (k * block_size fs + o) n.
Proof.
  intros Hf (Hk & Hm & Hl) Ho Hn Hle. destruct (block_size_range fs Hf) as [Hb (m & Em & _)].
  split; [nia |]. split; [lia |]. unfold base_of, media in Hl.
  assert (512 * ((k * block_size fs + o + n + 511) / 512) <= (k + 1) * block_size fs); [| lia].
  assert ((k * block_size fs + o + n + 511) / 512 < (k + 1) * m + 1); [| nia].
  apply Z.div_lt_upper_bound; nia.
Qed.

Lemma sread_block fs d k o n :
  fs_ok fs -> block_ok fs d k -> 0 <= o -> 0 <= n -> o + n <= block_size fs ->
  vfs_block_sread (fs_dev fs) d (k * block_size fs + o) n =
    Ret (n, bytes_at (media fs d) (base_of fs + k * block_size fs + o) n, d).
Proof.
  intros Hf Hk Ho Hn Hle. rewrite vfs_block_sread_spec; [| apply Hf | by apply block_in_device].
  unfold media, base_of. by rewrite Z.add_assoc.
Qed.

Lemma length_block_bytes fs d k :
  fs_ok fs -> block_ok fs d k -> length (block_bytes fs d k) = Z.to_nat (block_size fs).
Proof.
  intros Hf (Hk & Hm & Hl). destruct (block_size_range fs Hf) as [Hb _]. destruct Hf as [[_ Hst] _].
  apply length_bytes_at; unfold base_of, dev_base in *; nia.
Qed.

Lemma copy_front_all t b : length t = length b -> copy_front t b (Z.of_nat (length b)) = Ret b.
Proof.
  intros E. unfold copy_front. rewrite E, Z.leb_refl. simpl. unfold splice.
  rewrite Nat2Z.id, firstn_all, Nat.add_0_l, <- E, drop_all. simpl. by rewrite app_nil_r.
Qed.

Lemma load_table_spec fs d t k :
  fs_ok fs -> block_ok fs d k -> length t = Z.to_nat (block_size fs) ->
  load_table fs d t k = Ret (block_bytes fs d k, d).
Proof.
  intros Hf Hk Ht. destruct (block_size_range fs Hf) as [Hb _]. unfold load_table.
  rewrite (bl_off_block _ _ _ Hf Hk), (bl_off_1 _ Hf). rewrite <- (Z.add_0_r (k * block_size fs)).
  rewrite sread_block by (done || lia). rewrite bind_Ret, Z.add_0_r. fold (block_bytes fs d k).
  rewrite copy_front_all by (rewrite length_block_bytes; done). done.
Qed.

(** * The block map *)

(** Entry [j] of the table in block [b]. *)
Definition table_entry fs d (b j : Z) : Z := u32_at (block_bytes fs d b) (4 * j).

(** The block that holds block [k] of the file, as the format defines it, up to
    the blocks the code supports. *)
Definition bmap fs d (inode : list Z) (k : Z) : Z :=
  let n := block_size fs / 4 in
  if k <? 12 then in_block inode k
  else if k <? n + 12 then
    if in_block inode 12 =? 0 then 0 else table_entry fs d (in_block inode 12) (k - 12)
  else if k <? n * n + 12 then
    if in_block inode 13 =? 0 then 0 else
    let b := table_entry fs d (in_block inode 13) ((k - n - 12) / n) in
    if b =? 0 then 0 else table_entry fs d b ((k - n - 12) mod n)
  else 0.

(** The tables of the inode lie on the device. *)
Record tables_ok fs d (inode : list Z) : Prop := {
  to_single : in_block inode 12 <> 0 -> block_ok fs d (in_block inode 12);
  to_double : in_block inode 13 <> 0 -> block_ok fs d (in_block inode 13);
  to_second : in_block inode 13 <> 0 -> forall j, table_entry fs d (in_block inode 13) j <> 0 ->
    block_ok fs d (table_entry fs d (in_block inode 13) j);
}.

(** What is cached is what is on the disk. *)
Record cache_ok fs d (inode : list Z) (c : resolver_cache) : Prop := {
  co_single : forall t, rc_indirect c = Some t -> t = block_bytes fs d (in_block inode 12);
  co_double : forall t, rc_double c = Some t -> t = block_bytes fs d (in_block inode 13);
  co_length : forall t, rc_second c = Some t -> length t = Z.to_nat (block_size fs);
  co_second : rc_second_block c <> 0 -> rc_second c = Some (block_bytes fs d (rc_second_block c));
}.

Lemma empty_cache_ok fs d inode : cache_ok fs d inode empty_cache.
Proof. by split. Qed.

Lemma zero_table_length fs : fs_ok fs -> length (zero_table fs) = Z.to_nat (block_size fs).
Proof. intros Hf. unfold zero_table. by rewrite length_replicate, bl_off_1. Qed.

Lemma resolve_spec fs d inode k c :
  fs_ok fs -> tables_ok fs d inode -> cache_ok fs d inode c -> 0 <= k ->
  exists c', ext2_resolve_blocknum fs d inode k c = Ret (bmap fs d inode k, c', d) /\ cache_ok fs d inode c'.
Proof.
  intros Hf [Ht1 Ht2 Ht3] [Hc1 Hc2 Hc3 Hc4] Hk. destruct (block_size_range fs Hf) as [Hb (m & Em & E4)].
  unfold ext2_resolve_blocknum, bmap. rewrite (bl_off_1 _ Hf), E4. set (n := 128 * m).
  assert (256 <= n <= 16384) as Hn by lia. rewrite (u32_small n), (u32_small (n + 12)), (u32_small (n * n + 12)) by nia.
  destruct (Z.ltb_spec k 12); [by exists c |]. destruct (Z.ltb_spec k (n + 12)).
  { destruct (Z.eqb_spec (in_block inode 12) 0) as [E | E]; [by exists c |].
    assert (match rc_indirect c with Some t => Ret (t, d) | None => load_table fs d (zero_table fs) (in_block inode 12) end
      = Ret (block_bytes fs d (in_block inode 12), d)) as ->.
    { destruct (rc_indirect c) as [t |] eqn:Et; [by rewrite (Hc1 t) |].
      apply load_table_spec; [done | by apply Ht1 | by apply zero_table_length]. }
    rewrite bind_Ret. eexists. split; [done |]. split; simpl; try done. by intros t [= <-]. }
  destruct (Z.ltb_spec k (n * n + 12)); [| by exists c].
  destruct (Z.eqb_spec (in_block inode 13) 0) as [E | E]; [by exists c |].
  assert (match rc_double c with Some t => Ret (t, d) | None => load_table fs d (zero_table fs) (in_block inode 13) end
    = Ret (block_bytes fs d (in_block inode 13), d)) as ->.
  { destruct (rc_double c) as [t |] eqn:Et; [by rewrite (Hc2 t) |].
    apply load_table_spec; [done | by apply Ht2 | by apply zero_table_length]. }
  rewrite bind_Ret. cbv zeta. cbn [rc_second rc_second_block rc_indirect]. rewrite (u32_small (k - n - 12)) by nia.
  fold (table_entry fs d (in_block inode 13) ((k - n - 12) / n)).
  set (b := table_entry fs d (in_block inode 13) ((k - n - 12) / n)) in *.
  destruct (Z.eqb_spec b 0) as [Eb | Eb].
  { eexists. split; [done |]. split; simpl; try done. by intros t [= <-]. }
  assert ((if rc_second_block c =? b then Ret (default (zero_table fs) (rc_second c), d)
    else load_table fs d (default (zero_table fs) (rc_second c)) b) = Ret (block_bytes fs d b, d)) as ->.
  { destruct (Z.eqb_spec (rc_second_block c) b) as [Es | Es]; [rewrite Hc4 by congruence; by rewrite Es |].
    apply load_table_spec; [done | by apply Ht3 |].
    destruct (rc_second c) as [t |] eqn:Et; [by apply Hc3 | by apply zero_table_length]. }
  rewrite bind_Ret. eexists. split; [done |]. split; simpl; try done.
  - by intros t [= <-].
  - intros t [= <-]. apply length_block_bytes; [done | by apply Ht3].
Qed.

(** One call after the other, with the cache handed on. *)
Fixpoint resolve_all fs d (inode : list Z) (ks : list Z) (c : resolver_cache) : outcome (list Z * resolver_cache * D) :=
  match ks with
  | [] => Ret ([], c, d)
  | k :: ks =>
    '(r, c, d) ← ext2_resolve_blocknum fs d inode k c;
    '(l, c, d) ← resolve_all fs d inode ks c;
    Ret (r :: l, c, d)
  end.

(** resolving block numbers with the cache gives, for any sequence of
    blocks of a file and whatever of the tables has been read before, the
    blocks the format defines: direct, through the indirect and through the
    doubly indirect table. *)
Theorem ext2_resolve_correct fs d inode ks :
  fs_ok fs -> tables_ok fs d inode -> Forall (fun k => 0 <= k) ks ->
  exists c, resolve_all fs d inode ks empty_cache = Ret (map (bmap fs d inode) ks, c, d).
Proof.
  intros Hf Ht Hks. assert (cache_ok fs d inode empty_cache) as Hc by apply empty_cache_ok.
  revert Hc. generalize empty_cache as c. induction Hks as [| k ks Hk Hks IH]; intros c Hc; [by exists c |].
  destruct (resolve_spec fs d inode k c Hf Ht Hc Hk) as (c' & E & Hc'). destruct (IH c' Hc') as (c2 & E2).
  exists c2. cbn [resolve_all map]. by rewrite E, bind_Ret, E2.
Qed.

(** * Reading a file *)

(** The position on the medium of byte [p] of the file. *)
Definition file_pos fs d (inode : list Z) (p : Z) : Z :=
  base_of fs + bmap fs d inode (p / block_size fs) * block_size fs + p mod block_size fs.

(** The blocks needed for [length] bytes from [offset] on. *)
Lemma data_blocks_ceil fs offset length :
  fs_ok fs -> 0 <= offset -> 0 <= length < 2 ^ 30 ->
  offset mod block_size fs = 0 \/ length mod block_size fs <> 0 ->
  let off := offset mod block_size fs in
  let nb := data_blocks fs offset length in
  0 <= nb /\ off + length <= nb * block_size fs /\ (0 < nb -> (nb - 1) * block_size fs < off + length) /\ nb < 2 ^ 21.
Proof.
  intros Hf Ho Hl Hc off nb. destruct (block_size_range fs Hf) as [Hb _].
  unfold nb, data_blocks, bl_size, bl_mod. rewrite (bl_off_1 _ Hf). fold off.
  set (bs := block_size fs) in *. pose proof (Z.div_mod length bs ltac:(lia)).
  pose proof (Z.mod_pos_bound length bs ltac:(lia)). pose proof (Z.mod_pos_bound offset bs ltac:(lia)). fold off in Hc, H3.
  assert (0 <= length / bs < 2 ^ 20) by (split; [apply Z.div_pos; lia | apply Z.div_lt_upper_bound; nia]).
  destruct (nz (length mod bs)) eqn:E1; [apply nz_true in E1 | apply nz_false in E1];
    (destruct (nz off && (bs <? off + length mod bs)) eqn:E2;
      [apply andb_prop in E2 as [E2%nz_true E3%Z.ltb_lt]
      | apply andb_false_iff in E2 as [E2%nz_false | E2%Z.ltb_ge]]); rewrite u32_small by lia; nia.
Qed.

Section Read.
Context (fs : ext2_fs) (d : D) (inode : list Z) (offset len : Z) (b0 : list Z).
Let bs := block_size fs.
Let q := offset / bs.
Let off := offset mod bs.
Let nb := data_blocks fs offset len.
Context (Hf : fs_ok fs) (Ht : tables_ok fs d inode).
Context (Ho : 0 <= offset) (Hl : 0 <= len < 2 ^ 30) (Hsum : offset + len < 2 ^ 32).
Context (Hfit : offset mod bs = 0 \/ len mod bs <> 0).
Context (Hblocks : forall i, 0 <= i < nb -> block_ok fs d (bmap fs d inode (q + i))).

(** The number of bytes in the buffer before pass [i]. *)
Definition filled (i : Z) : Z := Z.max 0 (Z.min len (i * bs - off)).

Lemma read_numbers :
  1024 <= bs <= 65536 /\ 0 <= off < bs /\ 0 <= q /\ offset = q * bs + off /\ 0 <= nb < 2 ^ 21 /\
  off + len <= nb * bs /\ (0 < nb -> (nb - 1) * bs < off + len) /\ q < 2 ^ 22.
Proof.
  destruct (block_size_range fs Hf) as [Hb _]. destruct (data_blocks_ceil fs offset len Hf Ho Hl Hfit) as (H1 & H2 & H3 & H4).
  fold bs in Hb. fold bs nb off in H1, H2, H3, H4. pose proof (Z.div_mod offset bs ltac:(lia)) as Hd.
  pose proof (Z.mod_pos_bound offset bs ltac:(lia)) as Hm. fold off in Hd, Hm. fold q in Hd.
  assert (0 <= q < 2 ^ 22) by (split; [apply Z.div_pos; lia | apply Z.div_lt_upper_bound; nia]). repeat split; lia.
Qed.

(** The part of a block pass [i] reads, and what it adds to the buffer. *)
Definition skip_of (i : Z) : Z := if i =? 0 then off else 0.
Definition size_of (i : Z) : Z := if len - filled i <? bs - skip_of i then len - filled i else bs - skip_of i.

Lemma pass_numbers i :
  0 <= i < nb -> 0 <= filled i <= len /\ filled (i + 1) = filled i + size_of i /\ 0 <= skip_of i < bs /\
  0 <= size_of i /\ skip_of i + size_of i <= bs /\
  forall j, filled i <= j < filled i + size_of i -> offset + j = (q + i) * bs + (skip_of i + (j - filled i)).
Proof.
  intros Hi. destruct read_numbers as (Hb & Hoff & Hq & E & Hn & H1 & H2 & _). unfold filled, size_of, skip_of.
  assert (i * bs < off + len) by nia. unfold filled.
  destruct (Z.eqb_spec i 0) as [-> | Hne].
  - replace (0 * bs - off) with (- off) by lia. destruct (Z.ltb_spec (len - Z.max 0 (Z.min len (- off))) (bs - off));
      (split; [lia |]; split; [lia |]; split; [lia |]; split; [lia |]; split; [lia |]; intros j Hj; nia).
  - assert (bs <= i * bs) by nia. destruct (Z.ltb_spec (len - Z.max 0 (Z.min len (i * bs - off))) (bs - 0));
      (split; [lia |]; split; [lia |]; split; [lia |]; split; [lia |]; split; [lia |]; intros j Hj; nia).
Qed.

Context (Hb0 : len <= Z.of_nat (length b0)).

(** The first [n] bytes in the buffer are those of the file, those behind the
    range are still what they were. *)
Definition file_prefix (b : list Z) (n : Z) : Prop :=
  length b = length b0 /\
  (forall j, 0 <= j < n -> b !! Z.to_nat j = media fs d !! Z.to_nat (file_pos fs d inode (offset + j))) /\
  forall j, (Z.to_nat len <= j)%nat -> b !! j = b0 !! j.

Lemma file_prefix_step b i :
  0 <= i < nb -> file_prefix b (filled i) ->
  file_prefix (splice b (filled i)
    (bytes_at (media fs d) (base_of fs + bmap fs d inode (q + i) * bs + skip_of i) (size_of i))) (filled (i + 1)).
Proof.
  intros Hi (Hlen & Hpre & Hpost). destruct (pass_numbers i Hi) as (Hfi & Hf1 & Hsk & Hsz & Hss & Hoffs).
  destruct read_numbers as (Hb & Hoff & Hq & E & Hn & H1 & H2 & _). destruct (Hblocks i Hi) as (Hk & Hm & Hfitk).
  set (k := bmap fs d inode (q + i)) in *. fold bs in Hm, Hfitk. assert (0 <= base_of fs) as Hbase.
  { destruct (Hf) as [[_ ?] _]. unfold base_of, dev_base. lia. }
  assert (length (bytes_at (media fs d) (base_of fs + k * bs + skip_of i) (size_of i)) = Z.to_nat (size_of i)) as Hbl
    by (apply length_bytes_at; nia).
  assert (filled i + size_of i <= len) by (rewrite <- Hf1; unfold filled; lia).
  split; [rewrite length_splice; lia |]. split.
  2: { intros j Hj. rewrite lookup_splice by lia. rewrite decide_False by lia. by apply Hpost. }
  intros j Hj. rewrite lookup_splice by lia. rewrite Hbl.
  case_decide as Hin; [| apply Hpre; lia].
  rewrite lookup_bytes_at, decide_True by lia. f_equal. unfold file_pos. fold bs.
  rewrite Hoffs by lia. rewrite Z.div_add_l, (Z.div_small (skip_of i + _)), Z.add_0_r by lia. fold k.
  rewrite Z.add_comm, (Z.add_comm ((q + i) * bs)), Z_mod_plus_full, Z.mod_small by lia.
  assert (0 <= k * bs) by nia. lia.
Qed.

Lemma data_loop_read fuel b c i :
  file_prefix b (filled i) -> cache_ok fs d inode c -> 0 <= i <= nb -> nb - i < Z.of_nat fuel ->
  exists b', data_loop fuel fs d inode 0 offset len nb b c i (filled i) = Ret (Some b', inode, fs, d) /\
    file_prefix b' (filled nb).
Proof.
  revert b c i. induction fuel as [| fuel IH]; intros b c i Hp Hc Hi Hfu; [lia |]. cbn [data_loop].
  destruct (Z.ltb_spec i nb) as [Hlt |]; [| assert (i = nb) as -> by lia; by exists b].
  destruct (pass_numbers i ltac:(lia)) as (Hfi & Hf1 & Hsk & Hsz & Hss & _).
  destruct read_numbers as (Hb & Hoff & Hq & E & Hn & H1 & H2 & Hq2). pose proof (Hblocks i ltac:(lia)) as Hk.
  unfold data_block, bl_size. fold bs q. rewrite (u32_small (i + q)), (Z.add_comm i q) by lia.
  destruct (resolve_spec fs d inode (q + i) c Hf Ht Hc ltac:(lia)) as (c' & -> & Hc'). rewrite bind_Ret.
  set (k := bmap fs d inode (q + i)) in *. rewrite (proj2 (nz_true k)) by (destruct Hk; lia). rewrite bind_Ret.
  unfold bl_mod. fold bs off. fold (skip_of i). rewrite (bl_off_block _ _ _ Hf Hk), (bl_off_1 _ Hf). fold bs.
  pose proof Hk as (Hk0 & Hkm & Hkf). fold bs in Hkm, Hkf. assert (0 <= k * bs < 2 ^ 38) as Hkb by nia.
  rewrite (u64_small (k * bs + skip_of i)), !(u64_small (bs - skip_of i)) by lia.
  rewrite (u32_small (len - filled i)) by lia. fold (size_of i). cbn [nz Z.eqb negb].
  unfold bs. rewrite sread_block by (done || lia). fold bs. rewrite bind_Ret.
  pose proof (file_prefix_step b i ltac:(lia) Hp) as Hp'. fold k in Hp'.
  assert (length (bytes_at (media fs d) (base_of fs + k * bs + skip_of i) (size_of i)) = Z.to_nat (size_of i)) as Hbl.
  { destruct (Hf) as [[_ ?] _]. apply length_bytes_at; unfold base_of, dev_base in *; nia. }
  rewrite Hbl. destruct Hp as [Hlen _]. rewrite Hlen, !Z2Nat.id by lia.
  destruct (Z.leb_spec (filled i + size_of i) (Z.of_nat (length b0))); [| unfold filled in *; lia]. rewrite bind_Ret.
  unfold too_short. rewrite s32_small, u64_small, Z.ltb_irrefl by lia.
  rewrite (u32_small (filled i + size_of i)), <- Hf1 by lia. apply IH; [done | done | lia | lia].
Qed.

End Read.

Lemma inode_read_data fs d inode offset len b :
  fs_ok fs -> tables_ok fs d inode -> 0 <= offset -> 0 <= len < 2 ^ 30 -> offset + len < 2 ^ 32 ->
  offset mod block_size fs = 0 \/ len mod block_size fs <> 0 ->
  (forall i, 0 <= i < data_blocks fs offset len -> block_ok fs d (bmap fs d inode (offset / block_size fs + i))) ->
  len <= Z.of_nat (length b) ->
  exists b', ext2_inode_data_rw fs d inode 0 offset len b = Ret (Some b', inode, fs, d) /\
    length b' = length b /\
    (forall j, 0 <= j < len -> b' !! Z.to_nat j = media fs d !! Z.to_nat (file_pos fs d inode (offset + j))) /\
    forall j, (Z.to_nat len <= j)%nat -> b' !! j = b !! j.
Proof.
  intros Hf Ht Ho Hl Hsum Hfit Hblocks Hb.
  destruct (read_numbers fs offset len Hf Ho Hl Hsum Hfit) as (Hbs & Hoff & Hq & E & Hn & H1 & H2 & _).
  destruct (data_loop_read fs d inode offset len b Hf Ht Ho Hl Hsum Hfit Hblocks Hb
    (S (Z.to_nat (data_blocks fs offset len))) b empty_cache 0) as (b' & Eb & Hlen & Hpre & Hpost).
  - split; [done |]. split; [intros j Hj; unfold filled in Hj; lia | done].
  - apply empty_cache_ok.
  - lia.
  - lia.
  - exists b'. split; [| split; [done |]].
    + unfold ext2_inode_data_rw. replace 0 with (filled fs offset len 0) at 3 by (unfold filled; lia). exact Eb.
    + split; [| done]. intros j Hj. apply Hpre. unfold filled. lia.
Qed.

(** C20: reading a file gives its bytes: for a range that starts on a block, or
    whose length is no multiple of the block size, and whose blocks exist, the
    buffer holds for every byte of the range the byte of the medium that the
    block map says, and what it held behind the range; neither the file system
    nor the disk changes. *)
Theorem ext2_read_correct fs d inode offset len b :
  fs_ok fs -> tables_ok fs d inode -> 0 <= offset -> 0 <= len < 2 ^ 30 -> offset + len < 2 ^ 32 ->
  offset mod block_size fs = 0 \/ len mod block_size fs <> 0 ->
  (forall i, 0 <= i < data_blocks fs offset len -> block_ok fs d (bmap fs d inode (offset / block_size fs + i))) ->
  len <= Z.of_nat (length b) ->
  exists b', ext2_inode_data_rw fs d inode 0 offset len b = Ret (Some b', inode, fs, d) /\
    length b' = length b /\
    (forall j, 0 <= j < len -> b' !! Z.to_nat j = media fs d !! Z.to_nat (file_pos fs d inode (offset + j))) /\
    forall j, (Z.to_nat len <= j)%nat -> b' !! j = b !! j.
Proof. apply inode_read_data. Qed.

(** * Bitmaps *)

Definition bytes_ok (b : list Z) : Prop := Forall (fun x => 0 <= x < 256) b.

(** Bit [k] of a bitmap of bytes. *)
Definition bit_of (b : list Z) (k : Z) : bool := Z.testbit (default 0 (b !! Z.to_nat (k / 8))) (k mod 8).

(** The first clear bit of a byte, checked for all of them. *)
Definition claim_bit_check (x : Z) : bool :=
  let j := claim_bit 8 x 0 in
  (0 <=? j) && (j <? 8) && negb (Z.testbit x j) && forallb (fun i => (j <=? i) || Z.testbit x i) (seqZ 0 8) &&
  (0 <=? bit_set x j) && (bit_set x j <? 256).

Lemma claim_bit_spec x :
  0 <= x < 256 -> x <> 0xff ->
  let j := claim_bit 8 x 0 in
  0 <= j < 8 /\ Z.testbit x j = false /\ (forall i, 0 <= i < j -> Z.testbit x i = true) /\ 0 <= bit_set x j < 256.
Proof.
  intros Hx Hne j. assert (claim_bit_check x = true) as Hc.
  { assert (forallb claim_bit_check (seqZ 0 255) = true) as Hall by (vm_compute; reflexivity).
    rewrite forallb_forall in Hall. apply Hall, list_elem_of_In, elem_of_seqZ. lia. }
  unfold claim_bit_check in Hc. fold j in Hc. rewrite !andb_true_iff, forallb_forall in Hc.
  destruct Hc as (((((H1%Z.leb_le & H2%Z.ltb_lt) & H3%negb_true_iff) & H4) & H5%Z.leb_le) & H6%Z.ltb_lt).
  repeat split; try done. intros i Hi. specialize (H4 i). rewrite orb_true_iff in H4.
  destruct H4 as [H4%Z.leb_le | H4]; [| lia | done]. apply list_elem_of_In, elem_of_seqZ. lia.
Qed.

Lemma bit_of_byte (b : list Z) i x k :
  0 <= i -> b !! Z.to_nat i = Some x -> 8 * i <= k < 8 * i + 8 -> bit_of b k = Z.testbit x (k - 8 * i).
Proof.
  intros Hi Hx Hk. unfold bit_of. pose proof (Z.div_mod k 8). pose proof (Z.mod_pos_bound k 8).
  assert (k / 8 = i) as -> by lia. rewrite Hx. simpl. f_equal. lia.
Qed.

Lemma byte_full i : 0 <= i < 8 -> Z.testbit 0xff i = true.
Proof. intros Hi. change 0xff with (Z.ones 8). by apply Z.ones_spec_low. Qed.

(** The loop: bit [r] is the first clear one, and is set; or none is clear. *)
Lemma claim_loop_spec fuel (b : list Z) i :
  bytes_ok b -> 0 <= i <= Z.of_nat (length b) -> Z.of_nat (length b) - i < Z.of_nat fuel ->
  (forall k, 0 <= k < 8 * i -> bit_of b k = true) ->
  (claim_loop fuel b (Z.of_nat (length b)) i = Ret (0, b) /\ forall k, 0 <= k < 8 * Z.of_nat (length b) -> bit_of b k = true) \/
  exists r b', claim_loop fuel b (Z.of_nat (length b)) i = Ret (r, b') /\
    0 <= r < 8 * Z.of_nat (length b) /\ bit_of b r = false /\ (forall k, 0 <= k < r -> bit_of b k = true) /\
    length b' = length b /\ forall k, 0 <= k -> bit_of b' k = bit_of b k || (k =? r).
Proof.
  intros Hb. revert i. induction fuel as [| fuel IH]; intros i Hi Hf Hpre; [lia |]. cbn [claim_loop].
  destruct (Z.ltb_spec i (Z.of_nat (length b))) as [Hlt | Hge].
  2: { left. split; [done |]. intros k Hk. apply Hpre. lia. }
  destruct (aload_in b i) as (x & -> & Hx); [lia |]. rewrite bind_Ret.
  assert (0 <= x < 256) as Hxr by (eapply (Forall_lookup_1 _ _ _ _ Hb Hx)).
  destruct (Z.eqb_spec x 0xff) as [-> | Hne].
  { apply IH; [lia | lia |]. intros k Hk. destruct (decide (k < 8 * i)); [apply Hpre; lia |].
    rewrite (bit_of_byte b i 0xff) by (done || lia). apply byte_full. lia. }
  right. destruct (claim_bit_spec x Hxr Hne) as (Hj & Hc & Hlow & Hset). set (j := claim_bit 8 x 0) in *.
  rewrite astore_in by lia. rewrite bind_Ret. do 2 eexists. split; [done |].
  split; [lia |]. split; [| split; [| split]].
  - rewrite (bit_of_byte b i x) by (done || lia). rewrite <- Hc. f_equal. lia.
  - intros k Hk. destruct (decide (k < 8 * i)); [apply Hpre; lia |].
    rewrite (bit_of_byte b i x) by (done || lia). apply Hlow. lia.
  - apply length_insert.
  - intros k Hk. destruct (decide (8 * i <= k < 8 * i + 8)) as [Hin | Hout].
    + rewrite (bit_of_byte _ i (bit_set x j)), (bit_of_byte b i x) by (done || lia || (apply list_lookup_insert_eq; lia)).
      rewrite bit_set_bit by lia. destruct (Z.eqb_spec (k - 8 * i) j), (Z.eqb_spec k (i * 8 + j)); try lia;
        by rewrite ?orb_true_r, ?orb_false_r.
    + unfold bit_of. pose proof (Z.div_mod k 8). pose proof (Z.mod_pos_bound k 8).
      rewrite list_lookup_insert_ne by lia. destruct (Z.eqb_spec k (i * 8 + j)); [lia |]. by rewrite orb_false_r.
Qed.

(** claiming a bit of an on-disk bitmap finds the first clear bit, sets it
    on the disk and nothing else; the answer 0 means that nothing was changed,
    because no bit is clear, or because the first clear one is bit 0, which
    cannot be told from that. *)
Theorem ext2_claim_correct fs d blk :
  fs_ok fs -> block_ok fs d blk -> bytes_ok (block_bytes fs d blk) ->
  let bits := 8 * block_size fs in
  exists r d', ext2_bitmap_search_and_claim fs d blk = Ret (r, d') /\
    ((r = 0 /\ d' = d /\
      (bit_of (block_bytes fs d blk) 0 = false \/ forall k, 0 <= k < bits -> bit_of (block_bytes fs d blk) k = true)) \/
     (0 < r < bits /\ bit_of (block_bytes fs d blk) r = false /\
      (forall k, 0 <= k < r -> bit_of (block_bytes fs d blk) k = true) /\
      exists b', media fs d' = splice (media fs d) (base_of fs + blk * block_size fs) b' /\
        length b' = Z.to_nat (block_size fs) /\
        forall k, 0 <= k -> bit_of b' k = bit_of (block_bytes fs d blk) k || (k =? r))).
Proof.
  intros Hf Hk Hb bits. destruct (block_size_range fs Hf) as [Hbs _].
  pose proof (length_block_bytes fs d blk Hf Hk) as Hlen. unfold ext2_bitmap_search_and_claim.
  rewrite (bl_off_block _ _ _ Hf Hk), (bl_off_1 _ Hf).
  pose proof (sread_block fs d blk 0 (block_size fs) Hf Hk ltac:(lia) ltac:(lia) ltac:(lia)) as Hrd.
  rewrite !Z.add_0_r in Hrd. rewrite Hrd, bind_Ret. fold (block_bytes fs d blk).
  assert (block_size fs = Z.of_nat (length (block_bytes fs d blk))) as El by lia.
  pose proof (claim_loop_spec (S (Z.to_nat (block_size fs))) (block_bytes fs d blk) 0 Hb ltac:(lia) ltac:(lia) ltac:(lia)) as Hl.
  rewrite <- El in Hl. destruct Hl as [[-> Hall] | (r & b' & -> & Hr & Hc & Hlow & Hlen' & Hbits)]; rewrite bind_Ret.
  { exists 0, d. split; [done |]. left. split; [done |]. split; [done |]. by right. }
  destruct (nz r) eqn:E; [apply nz_true in E | apply nz_false in E].
  - pose proof (block_in_device fs d blk 0 (block_size fs) Hf Hk ltac:(lia) ltac:(lia) ltac:(lia)) as Hin.
    rewrite Z.add_0_r in Hin.
    destruct (vfs_block_swrite_spec (fs_dev fs) d _ _ b' (fo_dev _ Hf) Hin) as (d' & -> & Hd'); [lia |].
    rewrite bind_Ret. exists r, d'. split; [done |]. right. split; [lia |]. split; [done |]. split; [done |].
    exists b'. split; [exact Hd' |]. split; [lia | done].
  - subst r. exists 0, d. split; [done |]. left. split; [done |]. split; [done |]. by left.
Qed.

End Ext2Spec.

(** * An example: blocks of 1 KiB on a disk of ten of them, block [k] filled
    with [k] *)

Definition ex_disk : list Z := concat (map (replicate 1024) (seqZ 0 10)).
Definition ex_dev : vfs_block_dev := BlockDev [104; 100] 512 1 0 0 0 0.
Definition ex_superblock : list Z :=
  set_u16 (set_u32 (set_u32 (set_u32 (replicate 1024 0) 4 16384) 32 8192) 40 8) 88 256.
Definition ex_blockgroup (o : Z) (t : list Z) : list Z := set_u16 (set_u32 (set_u32 (set_u32 t o 3) (o + 4) 4) (o + 8) 5) (o + 14) 1.
Definition ex_blockgroups : list Z := ex_blockgroup 32 (ex_blockgroup 0 (replicate 1024 0)).
Definition ex_fs : ext2_fs := Ext2 ex_dev ex_superblock ex_blockgroups None (replicate 4 (0, replicate 130 0)) 0.
Definition ex_inode : list Z := set_u32 (set_u32 (replicate 256 0) 40 7) 44 8.

Lemma ex_fs_ok : fs_ok ex_fs.
Proof. split; [split |]; vm_compute; split; discriminate || reflexivity. Qed.

Lemma ex_tables_ok : tables_ok ex_fs ex_disk ex_inode.
Proof. split; intros E; exfalso; apply E; vm_compute; reflexivity. Qed.

Lemma ex_block_ok k : 0 < k < 10 -> block_ok ex_fs ex_disk k.
Proof.
  intros Hk. unfold block_ok. change (block_size ex_fs) with 1024. change (base_of ex_fs) with 0.
  assert (Z.of_nat (length (media ex_fs ex_disk)) = 10240) as -> by (vm_compute; reflexivity). lia.
Qed.

Lemma ext2_resolve_correct_witness :
  exists c, resolve_all ex_fs ex_disk ex_inode [1; 0; 12; 1] empty_cache = Ret ([8; 7; 0; 8], c, ex_disk).
Proof.
  destruct (ext2_resolve_correct ex_fs ex_disk ex_inode [1; 0; 12; 1]) as (c & E);
    [apply ex_fs_ok | apply ex_tables_ok | repeat constructor; lia |].
  exists c. exact E.
Defined.

Lemma ext2_read_correct_witness :
  exists b, ext2_inode_data_rw ex_fs ex_disk ex_inode 0 1022 4 (replicate 4 0) = Ret (Some b, ex_inode, ex_fs, ex_disk) /\
    b !! 1%nat = Some 7 /\ b !! 2%nat = Some 8.
Proof.
  destruct (ext2_read_correct ex_fs ex_disk ex_inode 1022 4 (replicate 4 0)) as (b & E & _ & Hb & _).
  - apply ex_fs_ok.
  - apply ex_tables_ok.
  - lia.
  - lia.
  - lia.
  - right. vm_compute. discriminate.
  - intros i Hi. change (data_blocks ex_fs 1022 4) with 2 in Hi. change (1022 / block_size ex_fs) with 0.
    assert (i = 0 \/ i = 1) as [-> | ->] by lia; apply ex_block_ok; vm_compute; split; reflexivity.
  - vm_compute. discriminate.
  - exists b. split; [exact E |]. split; [apply (Hb 1) | apply (Hb 2)]; lia.
Defined.

Lemma ext2_claim_correct_witness :
  exists d', ext2_bitmap_search_and_claim ex_fs ex_disk 3 = Ret (2, d') /\ bit_of (block_bytes ex_fs ex_disk 3) 2 = false.
Proof.
  destruct (ext2_claim_correct ex_fs ex_disk 3) as (r & d' & E & Hcase).
  - apply ex_fs_ok.
  - apply ex_block_ok. lia.
  - apply Forall_forall. intros x Hx. vm_compute in Hx. apply list_elem_of_In in Hx.
    assert (Forall (fun y => y = 3) (block_bytes ex_fs ex_disk 3)) as Hall by (vm_compute; repeat constructor).
    rewrite Forall_forall in Hall. rewrite (Hall x) by (vm_compute; by apply list_elem_of_In). lia.
  - assert (r = 2) as ->.
    { assert (ext2_bitmap_search_and_claim ex_fs ex_disk 3 = Ret (2, splice ex_disk 3072 (7 :: replicate 1023 3))) as E'
        by (vm_compute; reflexivity). rewrite E in E'. by injection E'. }
    destruct Hcase as [[? _] | (_ & Hc & _)]; [discriminate |]. exists d'. split; [exact E | exact Hc].
Defined.

(** * Where the code falls short *)

Definition read_result {D} (o : outcome (option (list Z) * list Z * ext2_fs * D)) (i : nat) : outcome (option Z) :=
  '(b, _, _, _) ← o; Ret (b ≫= (fun b => b !! i)).

(** A length that is a multiple of the block size, from the middle of a block:
    one block too few is read, and the end of the buffer stays as it was. *)
Lemma ext2_read_short :
  read_result (ext2_inode_data_rw ex_fs ex_disk ex_inode 0 1000 1024 (replicate 1024 99)) 23 = Ret (Some 7) /\
  read_result (ext2_inode_data_rw ex_fs ex_disk ex_inode 0 1000 1024 (replicate 1024 99)) 24 = Ret (Some 99).
Proof. split; vm_compute; reflexivity. Qed.

(** A new block for the third block of a file replaces the first one. *)
Lemma ext2_write_misplaces_block :
  ('(_, inode, _, _) ← ext2_inode_data_rw ex_fs ex_disk ex_inode 1 2048 10 (replicate 10 99);
   Ret (in_block inode 0, in_block inode 2)) = Ret (2, 0).
Proof. vm_compute. reflexivity. Qed.

(** An error of the device is not seen: -1 becomes a large unsigned number. *)
Lemma ext2_read_error_ignored :
  let inode := set_u32 ex_inode 40 100 in
  vfs_block_sread ex_dev ex_disk (bl_off ex_fs 100 + 1) 10 = Ret (u64 (-1), [], ex_disk) /\
  read_result (ext2_inode_data_rw ex_fs ex_disk inode 0 1 10 (replicate 10 99)) 0 = Ret (Some 99).
Proof. split; vm_compute; reflexivity. Qed.

(** A new block near an inode of the second group is numbered as if it was in
    the first one: it is the block that holds the blockgroup table. *)
Lemma ext2_block_new_wrong_group :
  ('(r, _, _) ← ext2_block_new ex_fs ex_disk 9; Ret r) = Ret (blockgroup_table_start ex_fs) /\
  inode_to_blockgroup ex_fs 9 = Ret 1.
Proof. split; vm_compute; reflexivity. Qed.

(** A cached inode fills the first 130 bytes of the buffer only; the rest, which
    [ext2_inode_write] stores to the disk, is what was there before. *)
Lemma ext2_cached_inode_partial :
  let fs := fs_set_cache ex_fs ((1, take 130 ex_inode) :: replicate 3 (0, replicate 130 0)) 1 in
  ('(ok, b, _, _) ← ext2_inode_read fs ex_disk (replicate 256 99) 1; Ret (ok, b !! 129%nat, b !! 130%nat)) =
  Ret (true, Some 0, Some 99).
Proof. vm_compute. reflexivity. Qed.
