(* ===== verification/Ext2Dir.v ===== *)
(** Directories of ext2: src/src/fs/ext2_dirent.c.

    A directory is a file of records ([struct dirent]): an inode number, the
    length of the record, the length and type of the name, the name.  The
    functions work on the bytes of the file; a pointer to a record is its offset
    in the buffer.  Memory from [kmalloc] holds whatever [fresh] says. *)
From stdpp Require Import base numbers list gmap.
From Stdlib Require Import ZArith Lia Bool.
From S2P Require Import Prelude Str Bytes Path Mount Block Ext2.

Open Scope Z_scope.

(** What newly allocated memory holds. *)
Class FreshMemory : Type := {
  fresh : Z -> list Z;
  fresh_length : forall n, length (fresh n) = Z.to_nat n;
}.

(** [struct dirent]: its size without the name, and its fields. *)
Definition SIZEOF_DIRENT : Z := 8.

Record dirent : Type := Dirent {
  de_inode : Z;
  de_record_len : Z;
  de_name_len : Z;
  de_type : Z;
}.

Definition dirent_at (b : list Z) (p : Z) : outcome dirent :=
  inode ← load_le 4 b p;
  record_len ← load_le 2 b (p + 4);
  name_len ← aload b (p + 6);
  type ← aload b (p + 7);
  Ret (Dirent inode record_len name_len type).

(** [vfs_dirent_t]: [d_name] starts in the padding of the structure. *)
Definition SIZEOF_VFS_DIRENT : Z := 12.
Definition D_NAME : Z := 11.
Definition d_ino (b : list Z) : Z := u32_at b 0.
Definition d_reclen (b : list Z) : Z := u16_at b 8.
Definition d_type (b : list Z) : Z := le_at 1 b 10.

(** [dirent->inode] and [dirent->type] of the result of [search_dir], a
    [vfs_dirent_t] that is used as a [struct dirent]. *)
Definition found_inode (b : list Z) : Z := u32_at b 0.
Definition found_type (b : list Z) : Z := le_at 1 b 7.

(** [struct rd_r] *)
Record rd_r : Type := Rd {
  rd_buf : list Z;
  rd_read_len : Z;
  rd_read_off : Z;
  rd_last_len : Z;
}.

Definition RD_BUF : Z := 0x200.

(** After [zmalloc]. *)
Definition zero_rd : rd_r := Rd (replicate (Z.to_nat RD_BUF) 0) 0 0 0.

(** The entry in the format of the vfs. *)
Definition vfs_dirent (inode type : Z) (name : list Z) : list Z :=
  let length := SIZEOF_VFS_DIRENT + Z.of_nat (List.length name) + 2 in
  le_bytes 4 inode ++ le_bytes 4 0 ++ le_bytes 2 length ++ [type] ++ name ++ [0; 0; 0].

Section Dir.
Context {D : Type} `{BlockDrivers D} `{FreshMemory}.
Implicit Types (fs : ext2_fs) (d : D).

(** One pass of the loop of [ext2_readdir_r] reads the buffer when the next
    record does not start in it; None when there is nothing more. *)
Definition readdir_fill fs d (inode : list Z) (offset : Z) (r : rd_r)
    : outcome (option rd_r * list Z * ext2_fs * D) :=
  if rd_read_len r <=? u64 (offset - rd_read_off r + SIZEOF_DIRENT) then
    if in_size inode <=? offset then Ret (None, inode, fs, d) else
    let rsize := u32 (MIN RD_BUF (u64 (in_size inode - offset))) in
    '(b, inode, fs, d) ← ext2_inode_data_rw fs d inode 0 offset rsize (rd_buf r);
    match b with
    | None => Ret (None, inode, fs, d)
    | Some b => Ret (Some (Rd b rsize (u32 offset) (rd_last_len r)), inode, fs, d)
    end
  else Ret (Some r, inode, fs, d).

Fixpoint readdir_loop (fuel : nat) fs d (inode : list Z) (offset : Z) (r : rd_r)
    : outcome (option (list Z) * Z * rd_r * list Z * ext2_fs * D) :=
  match fuel with
  | O => Spin
  | S fuel =>
    '(f, inode, fs, d) ← readdir_fill fs d inode offset r;
    match f with
    | None => Ret (None, offset, r, inode, fs, d)
    | Some r =>
      let p := u64 (offset - rd_read_off r) in
      ent ← dirent_at (rd_buf r) p;
      if rd_read_len r <=? u64 (p + SIZEOF_DIRENT + de_name_len ent) then
        readdir_loop fuel fs d inode offset (Rd (rd_buf r) 0 (rd_read_off r) (rd_last_len r))
      else
        let r := Rd (rd_buf r) (rd_read_len r) (rd_read_off r) (de_record_len ent) in
        let offset := u64 (offset + de_record_len ent) in
        if de_inode ent =? 0 then readdir_loop fuel fs d inode offset r else
        name ← load_bytes (rd_buf r) (p + SIZEOF_DIRENT) (de_name_len ent);
        Ret (Some (vfs_dirent (de_inode ent) (de_type ent) name), offset, r, inode, fs, d)
    end
  end.

(** The buffer is read at most twice for a record, and a record takes at least
    one byte, unless the code loops forever. *)
Definition readdir_fuel (inode : list Z) : nat := S (S (2 * Z.to_nat (in_size inode))).

Definition ext2_readdir_r fs d (inode : list Z) (offset : Z) (r : rd_r)
    : outcome (option (list Z) * Z * rd_r * list Z * ext2_fs * D) :=
  readdir_loop (readdir_fuel inode) fs d inode offset r.

(** [search] is at [q] of the buffer [pb]. *)
Fixpoint search_loop (fuel : nat) fs d (inode : list Z) (offset : Z) (r : rd_r) (pb : list Z) (q : Z)
    : outcome (option (list Z) * list Z * ext2_fs * D) :=
  match fuel with
  | O => Spin
  | S fuel =>
    '(ent, offset, r, inode, fs, d) ← ext2_readdir_r fs d inode offset r;
    match ent with
    | None => Ret (None, inode, fs, d)
    | Some ent =>
      c ← strcmp ent pb D_NAME q;
      if c =? 0 then ent ← load_bytes ent 0 (d_reclen ent); Ret (Some ent, inode, fs, d)
      else search_loop fuel fs d inode offset r pb q
    end
  end.

Definition search_dir fs d (inode pb : list Z) (q : Z) : outcome (option (list Z) * list Z * ext2_fs * D) :=
  search_loop (S (Z.to_nat (in_size inode))) fs d inode 0 zero_rd pb q.

Definition PERM_CHECK_EXEC : Z := 0.
Definition PERM_CHECK_WRITE : Z := 1.
Definition PERM_CHECK_READ : Z := 2.

(** The loop over the parts of the path.  [pch] is the part, [sp] where
    [strtok_r] goes on, [dirent] the last entry found; the result is the entry,
    the inode number of the directory it is in (0 when there is none), errno. *)
Fixpoint find_loop (fuel : nat) fs d (path_tmp : list Z) (pch sp : option Z) (inode : list Z)
    (dirent : option (list Z)) (parent errno : Z) (task : option (Z * Z))
    : outcome (option (list Z) * Z * Z * ext2_fs * D) :=
  match fuel with
  | O => Spin
  | S fuel =>
    match pch with
    | None => Ret (dirent, parent, errno, fs, d)
    | Some q =>
      let parent := match dirent with Some e => found_inode e | None => ROOT_INODE end in
      '(dirent, inode, fs, d) ← search_dir fs d inode path_tmp q;
      match dirent with
      | None => Ret (None, parent, ENOENT, fs, d)
      | Some e =>
        '(ok, inode, fs, d) ← ext2_inode_read fs d inode (found_inode e);
        if negb ok then Ret (None, parent, ENOENT, fs, d) else
        if ext2_inode_check_perm PERM_CHECK_EXEC inode task <? 0 then Ret (None, parent, EACCES, fs, d) else
        '(pch, path_tmp, sp) ← strtok_r path_tmp [SLASH] sp;
        find_loop fuel fs d path_tmp pch sp inode (Some e) parent errno task
      end
    end
  end.

Definition ROOT_DOT : cstring := [SLASH; DOT].

Definition ext2_dirent_find fs d (path : cstring) (errno : Z) (task : option (Z * Z))
    : outcome (option (list Z) * Z * Z * ext2_fs * D) :=
  let path := if bool_decide (path = [SLASH]) then ROOT_DOT else path in
  path_tmp ← strndup (fresh 501) (path ++ [0]) 0 500;
  '(pch, path_tmp, sp) ← strtok_r path_tmp [SLASH] (Some 0);
  '(ok, inode, fs, d) ← ext2_inode_read fs d (fresh (sb_inode_size (fs_superblock fs))) ROOT_INODE;
  if negb ok then Ret (None, 0, errno, fs, d) else
  find_loop (S (length path_tmp)) fs d path_tmp pch sp inode None 0 errno task.

(** * Removing and adding entries, on the bytes of the directory *)

(** The offset of the entry with this name and of the one before it. *)
Fixpoint rm_scan (fuel : nat) (b : list Z) (size : Z) (name : cstring) (p : Z) (prev : option Z)
    : outcome (option (Z * option Z)) :=
  match fuel with
  | O => Spin
  | S fuel =>
    if p <? size then
      ent ← dirent_at b p;
      if de_inode ent =? 0 then rm_scan fuel b size name (p + de_record_len ent) (Some p) else
      dirent_name ← strndup (fresh (de_name_len ent + 1)) b (p + SIZEOF_DIRENT) (de_name_len ent);
      c ← strcmp (name ++ [0]) dirent_name 0 0;
      if c =? 0 then Ret (Some (p, prev))
      else rm_scan fuel b size name (p + de_record_len ent) (Some p)
    else Ret None
  end.

Definition rm_bytes (b : list Z) (p : Z) (prev : option Z) : outcome (list Z) :=
  b ← store_bytes b p (le_bytes 4 0);
  match prev with
  | None => Ret b
  | Some q =>
    len ← load_le 2 b (p + 4);
    old ← load_le 2 b (q + 4);
    store_bytes b (q + 4) (le_bytes 2 (u16 (old + len)))
  end.

Definition ext2_dirent_rm fs d (inode_num : Z) (name : cstring) : outcome (ext2_fs * D) :=
  '(ok, inode, fs, d) ← ext2_inode_read fs d (fresh (sb_inode_size (fs_superblock fs))) inode_num;
  if negb ok then Ret (fs, d) else
  let size := in_size inode in
  '(b, inode, fs, d) ← ext2_inode_data_rw fs d inode 0 0 size (fresh size);
  match b with
  | None => Ret (fs, d)
  | Some b =>
    f ← rm_scan (S (Z.to_nat size)) b size name 0 None;
    match f with
    | None => Ret (fs, d)
    | Some (p, prev) =>
      b ← rm_bytes b p prev;
      '(_, _, fs, d) ← ext2_inode_data_rw fs d inode inode_num 0 size b;
      Ret (fs, d)
    end
  end.

Definition align_dirent_len (dlen : Z) : Z :=
  if dlen <=? 12 then 12 else if nz (dlen mod 4) then u32 (Z.land dlen (u32 (-4)) + 4) else dlen.

(** The offset of the record to use, and whether it is an unused one. *)
Fixpoint add_scan (fuel : nat) (b : list Z) (size dlen p : Z) (recycled : bool) : outcome (Z * bool) :=
  match fuel with
  | O => Spin
  | S fuel =>
    if p <? size then
      ent ← dirent_at b p;
      let recycled := de_inode ent =? 0 in
      let free_space :=
        if recycled then de_record_len ent
        else u32 (de_record_len ent - align_dirent_len (SIZEOF_DIRENT + de_name_len ent)) in
      if dlen <? free_space then Ret (p, recycled)
      else add_scan fuel b size dlen (p + de_record_len ent) recycled
    else Ret (p, recycled)
  end.

(** The new entry in [b] at [p]; its record length stays what it is. *)
Definition fill_dirent (b : list Z) (p inode_num : Z) (name : cstring) (type : Z) : outcome (list Z) :=
  len ← strlen (name ++ [0]) 0;
  b ← store_bytes b p (le_bytes 4 inode_num);
  b ← store_bytes b (p + 6) [u8 len];
  b ← store_bytes b (p + 7) [type];
  text ← load_bytes (name ++ [0]) 0 (u8 len);
  store_bytes b (p + SIZEOF_DIRENT) text.

Definition add_bytes (b : list Z) (p dlen : Z) (recycled : bool) (inode_num : Z) (name : cstring) (type : Z)
    : outcome (list Z) :=
  if recycled then fill_dirent b p inode_num name type else
  new_dirent ← fill_dirent (replicate (Z.to_nat dlen) 0) 0 inode_num name type;
  current_ent ← dirent_at b p;
  let old_len := de_record_len current_ent in
  let len := u16 (align_dirent_len (SIZEOF_DIRENT + de_name_len current_ent)) in
  b ← store_bytes b (p + 4) (le_bytes 2 len);
  new_dirent ← store_bytes new_dirent 4 (le_bytes 2 (u16 (old_len - len)));
  store_bytes b (p + len) new_dirent.

Definition in_flags (i : list Z) : Z := u32_at i 32.
Definition EXT2_INDEX_FL : Z := 0x1000.

Definition ext2_dirent_add fs d (dir_num inode_num : Z) (name : cstring) (type : Z) : outcome (ext2_fs * D) :=
  '(ok, dir, fs, d) ← ext2_inode_read fs d (fresh (sb_inode_size (fs_superblock fs))) dir_num;
  if negb ok then Ret (fs, d) else
  if has_flag (in_flags dir) EXT2_INDEX_FL then Ret (fs, d) else
  let size := in_size dir in
  '(b, dir, fs, d) ← ext2_inode_data_rw fs d dir 0 0 size (fresh size);
  match b with
  | None => Ret (fs, d)
  | Some b =>
    len ← strlen (name ++ [0]) 0;
    let dlen := align_dirent_len (SIZEOF_DIRENT + len + 1) in
    '(p, recycled) ← add_scan (S (Z.to_nat size)) b size dlen 0 false;
    b ← add_bytes b p dlen recycled inode_num name type;
    '(_, _, fs, d) ← ext2_inode_data_rw fs d dir dir_num 0 size b;
    '(ok, inode, fs, d) ← ext2_inode_read fs d (fresh (sb_inode_size (fs_superblock fs))) inode_num;
    if negb ok then Ret (fs, d) else
    let inode := set_u16 inode 26 (u16 (in_link_count inode + 1)) in
    '(_, fs, d) ← ext2_inode_write fs d inode inode_num;
    Ret (fs, d)
  end.

End Dir.
