(* ===== verification/Ext2Fs.v ===== *)
(** The ext2 file system, upper half: the callbacks of src/src/fs/ext2.c, with
    [dirname] and [basename] of src/src/lib/libgen.h.

    The functions that do the work take the file system, the disk, the path, the
    task (its effective ids, None for the kernel) and errno, and return them with
    the result; Ext2Vfs.v makes them a file system of the vfs.  A read that fails part of the way may have stored
    the first part in the buffer, which is not modelled. *)
From stdpp Require Import base numbers list gmap.
From Stdlib Require Import ZArith Lia Bool.
From S2P Require Import Prelude DList Str Bytes Path Mount Vfs VfsSpec Block Ext2 Ext2Dir.

Open Scope Z_scope.

Definition EEXIST : Z := 17.
Definition EISDIR : Z := 21.
Definition ENOTEMPTY : Z := 90.

Definition FT_IFLNK : Z := 0xA000.
Definition O_CREAT : Z := 0x200.
Definition O_EXCL : Z := 0x800.
Definition R_OK : Z := 4.
Definition W_OK : Z := 2.
Definition X_OK : Z := 1.

Definition vfs_mode_to_filetype (mode : Z) : Z := Z.land mode 0xf000.

(** * libgen.h *)

(** The index of the last slash. *)
Fixpoint last_slash (p : cstring) : option nat :=
  match p with
  | [] => None
  | c :: p =>
    match last_slash p with
    | Some i => Some (S i)
    | None => if c =? SLASH then Some 0%nat else None
    end
  end.

Definition basename (path : cstring) : cstring :=
  if bool_decide (path = []) then [DOT] else
  if bool_decide (path = [SLASH]) then path else
  match last_slash path with Some i => drop (S i) path | None => path end.

Definition dirname (path : cstring) : cstring :=
  if bool_decide (path = [SLASH]) then path else
  match last_slash path with Some i => take i path | None => [DOT] end.

(** * Loops with early exit *)

(** Up to [p] passes of [body], until it gives a result ([inr]). *)
Fixpoint passes {S R} (body : S -> outcome (S + R)) (p : positive) (s : S) : outcome (S + R) :=
  let again q r := match r with inl s => passes body q s | inr x => Ret (inr x) end in
  match p with
  | xH => body s
  | xO q => r ← passes body q s; again q r
  | xI q => r ← body s; r ← again q r; again q r
  end.

(** Inode fields the callbacks set. *)
Definition set_mode (i : list Z) (x : Z) : list Z := set_u16 i 0 (u16 x).
Definition set_uid (i : list Z) (x : Z) : list Z := set_u16 i 2 (u16 x).
Definition set_size (i : list Z) (x : Z) : list Z := set_u32 i 4 (u32 x).
Definition set_atime (i : list Z) (x : Z) : list Z := set_u32 i 8 (u32 x).
Definition set_ctime (i : list Z) (x : Z) : list Z := set_u32 i 12 (u32 x).
Definition set_mtime (i : list Z) (x : Z) : list Z := set_u32 i 16 (u32 x).
Definition set_dtime (i : list Z) (x : Z) : list Z := set_u32 i 20 (u32 x).
Definition set_gid (i : list Z) (x : Z) : list Z := set_u16 i 24 (u16 x).
Definition set_link_count (i : list Z) (x : Z) : list Z := set_u16 i 26 (u16 x).

Section Ext2Fs.
Context {D : Type} `{BlockDrivers D} `{FreshMemory}.
Implicit Types (fs : ext2_fs) (d : D).

(** What a string in memory that has been given back reads as. *)
Context (stale : cstring -> cstring).

Definition inode_buffer fs : list Z := fresh (sb_inode_size (fs_superblock fs)).

(** A result with errno, file system and disk. *)
Definition result (A : Type) : Type := outcome (A * Z * ext2_fs * D).

(** [*p += x] for the 16-bit field at [o] of blockgroup [g]. *)
Definition bg_add16 fs (g o x : Z) : outcome ext2_fs :=
  p ← bg_offset fs g (o - o mod 4);
  let p := p + o mod 4 in
  let t := fs_blockgroup_table fs in
  Ret (fs_set_blockgroups fs (set_u16 t p (u16 (u16_at t p + x)))).

(** [dirent_find] and [inode_read], as most callbacks start: the entry and the
    inode, or None with errno set to ENOENT. *)
Definition find_and_read fs d (path : cstring) (errno : Z) (task : option (Z * Z))
    : result (option (list Z * list Z * Z)) :=
  '(dirent, dir_ino, errno, fs, d) ← ext2_dirent_find fs d path errno task;
  match dirent with
  | None => Ret (None, ENOENT, fs, d)
  | Some e =>
    '(ok, inode, fs, d) ← ext2_inode_read fs d (inode_buffer fs) (found_inode e);
    if (ok : bool) then Ret (Some (e, inode, dir_ino), errno, fs, d) else Ret (None, ENOENT, fs, d)
  end.

(** The code uses [ctx->task] without a check. *)
Definition get_inode_and_check_owner fs d (path : cstring) (errno : Z) (task : option (Z * Z))
    : result (option (list Z * list Z)) :=
  '(r, errno, fs, d) ← find_and_read fs d path errno task;
  match r with
  | None => Ret (None, errno, fs, d)
  | Some (e, inode, _) =>
    match task with
    | None => Fault
    | Some (euid, _) =>
      if negb (in_uid inode =? euid) then Ret (None, EPERM, fs, d) else Ret (Some (e, inode), errno, fs, d)
    end
  end.

Definition ext2_chmod fs d (path : cstring) (errno : Z) (task : option (Z * Z)) (mode : Z) : result Z :=
  '(r, errno, fs, d) ← get_inode_and_check_owner fs d path errno task;
  match r with
  | None => Ret (-1, errno, fs, d)
  | Some (e, inode) =>
    let inode := set_mode inode (Z.lor (vfs_mode_to_filetype (in_mode inode)) (Z.land mode 0xfff)) in
    '(_, fs, d) ← ext2_inode_write fs d inode (found_inode e);
    Ret (0, errno, fs, d)
  end.

(** [uid] and [gid] are 16-bit numbers, compared with the [int] -1. *)
Definition ext2_chown fs d (path : cstring) (errno : Z) (task : option (Z * Z)) (uid gid : Z) : result Z :=
  '(r, errno, fs, d) ← get_inode_and_check_owner fs d path errno task;
  match r with
  | None => Ret (-1, errno, fs, d)
  | Some (e, inode) =>
    let inode := if negb (u16 uid =? -1) then set_uid inode uid else inode in
    let inode := if negb (u16 gid =? -1) then set_gid inode gid else inode in
    '(_, fs, d) ← ext2_inode_write fs d inode (found_inode e);
    Ret (0, errno, fs, d)
  end.

Definition no_stat : vfs_stat_t := Stat 0 0 0 0 0 0 0 0 0 0 0 0 0.

Definition ext2_stat fs d (path : cstring) (errno : Z) (task : option (Z * Z)) : result (Z * vfs_stat_t) :=
  '(r, errno, fs, d) ← find_and_read fs d path errno task;
  match r with
  | None => Ret (-1, no_stat, errno, fs, d)
  | Some (e, i, _) =>
    Ret (0, Stat (u16 (bd_number (fs_dev fs))) (u16 (found_inode e)) (in_mode i) (in_link_count i) (in_uid i) (in_gid i) 0
      (in_size i) (u32_at i 8) (u32_at i 16) (u32_at i 12) (u32 (bl_off fs 1)) (in_block_count i), errno, fs, d)
  end.

Definition MODE_755 : Z := 0x1ED.
Definition MODE_644 : Z := 0x1A4.

(** [t] is the time; the mode that was asked for is not used. *)
Definition ext2_mkdir fs d (t : Z) (path : cstring) (errno : Z) (task : option (Z * Z)) : result Z :=
  '(r, errno, fs, d) ← find_and_read fs d (dirname path) errno task;
  match r with
  | None => Ret (-1, errno, fs, d)
  | Some (parent, parent_inode, _) =>
    if ext2_inode_check_perm PERM_CHECK_WRITE parent_inode task <? 0 then Ret (-1, EACCES, fs, d) else
    '(check_dirent, _, errno, fs, d) ← ext2_dirent_find fs d path errno task;
    match check_dirent with
    | Some _ => Ret (-1, EEXIST, fs, d)
    | None =>
      '(inode_num, inode, fs, d) ← ext2_inode_new fs d t (Z.lor FT_IFDIR MODE_755);
      let b := le_bytes 4 0 ++ le_bytes 2 (u16 (bl_off fs 1)) ++ [0; 0] in
      '(w, inode, fs, d) ← ext2_inode_data_rw fs d inode inode_num 0 SIZEOF_DIRENT b;
      match w with
      | None => Ret (-1, ENOENT, fs, d)
      | Some _ =>
        let inode := set_size inode (bl_off fs 1) in
        let '(uid, gid) := default (0, 0) task in
        let inode := set_gid (set_uid inode uid) gid in
        '(_, fs, d) ← ext2_inode_write fs d inode inode_num;
        '(fs, d) ← ext2_dirent_add fs d (found_inode parent) inode_num (basename path) 2;
        '(fs, d) ← ext2_dirent_add fs d inode_num inode_num [DOT] 2;
        '(fs, d) ← ext2_dirent_add fs d inode_num (found_inode parent) [DOT; DOT] 2;
        g ← inode_to_blockgroup fs inode_num;
        fs ← bg_add16 fs g 16 1;
        d ← write_blockgroup_table fs d;
        Ret (0, errno, fs, d)
      end
    end
  end.

(** [times] are the seconds of the two times, None for NULL. *)
Definition ext2_utimes fs d (t : Z) (path : cstring) (errno : Z) (task : option (Z * Z)) (times : option (Z * Z)) : result Z :=
  '(r, errno, fs, d) ← find_and_read fs d path errno task;
  match r with
  | None => Ret (-1, errno, fs, d)
  | Some (e, inode, _) =>
    if ext2_inode_check_perm PERM_CHECK_WRITE inode task <? 0 then Ret (-1, EACCES, fs, d) else
    let '(a, m) := default (t, t) times in
    let inode := set_ctime (set_mtime (set_atime inode a) m) m in
    '(_, fs, d) ← ext2_inode_write fs d inode (found_inode e);
    Ret (0, errno, fs, d)
  end.

(** One pass of the loop that frees the blocks of a file. *)
Definition free_block (inode : list Z) (bitmap : Z) (s : Z * resolver_cache * ext2_fs * D)
    : outcome (Z * resolver_cache * ext2_fs * D + D) :=
  let '(i, cache, fs, d) := s in
  '(num, cache, d) ← ext2_resolve_blocknum fs d inode i cache;
  if num =? 0 then Ret (inr d) else
  if sb_blocks_per_group (fs_superblock fs) =? 0 then Fault else
  d ← ext2_bitmap_free fs d bitmap (num mod sb_blocks_per_group (fs_superblock fs));
  Ret (inl (i + 1, cache, fs, d)).

(** More passes than there are blocks in a file. *)
Definition MAX_BLOCKS : positive := 0x20000000%positive.

(** What [do_unlink] does when the last link is gone: the inode, and -1 in
    place of 0 when the directory cannot be read. *)
Definition purge fs d (t : Z) (inode : list Z) (ino dir_ino : Z) (is_dir : bool) : outcome (Z * list Z * ext2_fs * D) :=
  let inode := set_link_count (set_dtime inode t) 0 in
  g ← inode_to_blockgroup fs ino;
  bitmap ← bg_block_bitmap fs g;
  r ← passes (free_block inode bitmap) MAX_BLOCKS (0, empty_cache, fs, d);
  d ← match r with inr d => Ret d | inl _ => Spin end;
  ib ← bg_inode_bitmap fs g;
  d ← ext2_bitmap_free fs d ib (u32 (ino - 1) mod sb_inodes_per_group (fs_superblock fs));
  let sb := fs_superblock fs in
  let n := in_block_count inode / 8 in
  let sb := set_u32 sb 16 (u32 (sb_free_inodes sb + 1)) in
  let fs := fs_set_superblock fs (set_u32 sb 12 (u32 (sb_free_blocks sb + n))) in
  fs ← bg_add16 fs g 14 1;
  fs ← bg_add16 fs g 12 n;
  '(r, fs, d) ←
    (if is_dir then
       fs ← bg_add16 fs g 16 (-1);
       '(ok, dir_inode, fs, d) ← ext2_inode_read fs d (inode_buffer fs) dir_ino;
       if negb ok then Ret (-1, fs, d) else
       '(_, fs, d) ← ext2_inode_write fs d (set_link_count dir_inode (in_link_count dir_inode - 1)) dir_ino;
       Ret (0, fs, d)
     else Ret (0, fs, d));
  if (r : Z) <? 0 then Ret (r, inode, fs, d) else
  d ← write_superblock fs d;
  d ← write_blockgroup_table fs d;
  Ret (0, inode, fs, d).

Definition do_unlink fs d (t : Z) (path : cstring) (is_dir : bool) (errno : Z) (task : option (Z * Z)) : result Z :=
  '(dirent, dir_ino, errno, fs, d) ← ext2_dirent_find fs d path errno task;
  match dirent with
  | None => Ret (-1, ENOENT, fs, d)
  | Some e =>
    if dir_ino =? 0 then Ret (-1, ENOENT, fs, d) else
    let ino := found_inode e in
    if ino =? ROOT_INODE then Ret (-1, EACCES, fs, d) else
    '(ok, inode, fs, d) ← ext2_inode_read fs d (inode_buffer fs) ino;
    if negb ok then Ret (-1, ENOENT, fs, d) else
    if ext2_inode_check_perm PERM_CHECK_WRITE inode task <? 0 then Ret (-1, EACCES, fs, d) else
    let link_count := in_link_count inode in
    let dir := vfs_mode_to_filetype (in_mode inode) =? FT_IFDIR in
    if is_dir && negb dir then Ret (-1, ENOTDIR, fs, d) else
    if is_dir && (2 <? link_count) then Ret (-1, ENOTEMPTY, fs, d) else
    if negb is_dir && dir then Ret (-1, EISDIR, fs, d) else
    let link_count := (if is_dir then link_count - 2 else link_count) - 1 in
    '(fs, d) ← ext2_dirent_rm fs d dir_ino (basename path);
    let inode := set_link_count inode (in_link_count inode - 1) in
    '(r, inode, fs, d) ← (if link_count <? 1 then purge fs d t inode ino dir_ino is_dir else Ret (0, inode, fs, d));
    if r <? 0 then Ret (-1, ENOENT, fs, d) else
    '(_, fs, d) ← ext2_inode_write fs d inode ino;
    Ret (0, errno, fs, d)
  end.

(** [new_name] points into memory that has been given back when it is used. *)
Definition ext2_link fs d (path new_path : cstring) (errno : Z) (task : option (Z * Z)) : result Z :=
  '(dirent, _, errno, fs, d) ← ext2_dirent_find fs d path errno task;
  '(dir_dirent, _, errno, fs, d) ← ext2_dirent_find fs d (dirname new_path) errno task;
  match dirent, dir_dirent with
  | Some e, Some dir =>
    if found_type e =? 2 then Ret (-1, EACCES, fs, d) else
    '(fs, d) ← ext2_dirent_add fs d (found_inode dir) (found_inode e) (stale (basename new_path)) (found_type e);
    Ret (0, errno, fs, d)
  | _, _ => Ret (-1, ENOENT, fs, d)
  end.

Definition ext2_access fs d (path : cstring) (errno : Z) (task : option (Z * Z)) (amode : Z) : result Z :=
  '(r, errno, fs, d) ← find_and_read fs d path errno task;
  match r with
  | None => Ret (-1, errno, fs, d)
  | Some (_, inode, _) =>
    let check (flag op : Z) := if has_flag amode flag then ext2_inode_check_perm op inode task else 0 in
    let perm_check := check R_OK PERM_CHECK_READ + check W_OK PERM_CHECK_WRITE + check X_OK PERM_CHECK_EXEC in
    if perm_check <? 0 then Ret (-1, EACCES, fs, d) else Ret (0, errno, fs, d)
  end.

(** The target of a symbolic link is in the place of the block numbers.  The
    result is the length, and the bytes [strlcpy] stores. *)
Definition ext2_readlink fs d (path : cstring) (errno : Z) (task : option (Z * Z)) (size : Z) : result (Z * list Z) :=
  '(r, errno, fs, d) ← find_and_read fs d path errno task;
  match r with
  | None => Ret (-1, [], errno, fs, d)
  | Some (_, inode, _) =>
    if ext2_inode_check_perm PERM_CHECK_READ inode task <? 0 then Ret (-1, [], EACCES, fs, d) else
    if negb (vfs_mode_to_filetype (in_mode inode) =? FT_IFLNK) then Ret (-1, [], EINVAL, fs, d) else
    let dst := replicate (Z.to_nat (Z.min size (Z.of_nat (length inode) + 1))) 0 in
    '(len, dst) ← strlcpy dst 0 inode 40 size;
    Ret (len, take (Z.to_nat (Z.min (len + 1) size)) dst, errno, fs, d)
  end.

(** The inode of an open file, with the check of read and write. *)
Definition file_inode fs d (ino errno op : Z) (task : option (Z * Z)) : result (option (list Z)) :=
  '(ok, inode, fs, d) ← ext2_inode_read fs d (inode_buffer fs) ino;
  if negb ok then Ret (None, EBADF, fs, d) else
  if ext2_inode_check_perm op inode task <? 0 then Ret (None, EACCES, fs, d) else
  if negb (vfs_mode_to_filetype (in_mode inode) =? FT_IFREG) then Ret (None, EISDIR, fs, d) else
  Ret (Some inode, errno, fs, d).

(** [b] is what is in the buffer; the result has the bytes that are in it. *)
Definition ext2_read fs d (ino offset size errno : Z) (task : option (Z * Z)) (b : list Z) : result (Z * option (list Z)) :=
  if ino =? 0 then Ret (u32 (-1), None, EBADF, fs, d) else
  '(r, errno, fs, d) ← file_inode fs d ino errno PERM_CHECK_READ task;
  match r with
  | None => Ret (u32 (-1), None, errno, fs, d)
  | Some inode =>
    if (in_size inode <? 1) || (in_size inode <=? offset) then Ret (0, None, errno, fs, d) else
    let size := if in_size inode <? u64 (offset + size) then u32 (in_size inode - offset) else size in
    '(read, _, fs, d) ← ext2_inode_data_rw fs d inode 0 offset size b;
    match read with
    | None => Ret (0, None, errno, fs, d)
    | Some b => Ret (size, Some b, errno, fs, d)
    end
  end.

Definition ext2_write fs d (t ino offset size errno : Z) (task : option (Z * Z)) (b : list Z) : result Z :=
  if ino =? 0 then Ret (u32 (-1), EBADF, fs, d) else
  '(r, errno, fs, d) ← file_inode fs d ino errno PERM_CHECK_WRITE task;
  match r with
  | None => Ret (u32 (-1), errno, fs, d)
  | Some inode =>
    '(w, inode, fs, d) ← ext2_inode_data_rw fs d inode ino offset size b;
    match w with
    | None => Ret (u32 (-1), errno, fs, d)
    | Some _ =>
      let inode := set_mtime (set_size inode (offset + size)) t in
      '(_, fs, d) ← ext2_inode_write fs d inode ino;
      Ret (size, errno, fs, d)
    end
  end.

(** The loop of [ext2_getdents]: the bytes stored, their number, the position. *)
Fixpoint getdents_loop (fuel : nat) fs d (inode : list Z) (pos : Z) (r : rd_r) (size offset : Z) (out : list Z)
    : outcome (list Z * Z * Z * ext2_fs * D) :=
  match fuel with
  | O => Spin
  | S fuel =>
    '(ent, pos, r, inode, fs, d) ← ext2_readdir_r fs d inode pos r;
    match ent with
    | None => Ret (out, offset, pos, fs, d)
    | Some ent =>
      if size <=? offset + d_reclen ent then Ret (out, offset, u64 (pos - rd_last_len r), fs, d) else
      let next := offset + d_reclen ent in
      getdents_loop fuel fs d inode pos r size next (out ++ set_u32 ent 4 (u32 next))
    end
  end.

Definition ext2_getdents fs d (ino pos size errno : Z) (task : option (Z * Z)) : result (Z * list Z * Z) :=
  '(ok, inode, fs, d) ← ext2_inode_read fs d (inode_buffer fs) ino;
  if negb ok then Ret (u32 (-1), [], pos, EBADF, fs, d) else
  if ext2_inode_check_perm PERM_CHECK_EXEC inode task <? 0 then Ret (u32 (-1), [], pos, EACCES, fs, d) else
  if negb (vfs_mode_to_filetype (in_mode inode) =? FT_IFDIR) then Ret (u32 (-1), [], pos, ENOTDIR, fs, d) else
  '(out, n, pos, fs, d) ← getdents_loop (S (Z.to_nat (in_size inode))) fs d inode pos zero_rd size 0 [];
  Ret (u32 n, out, pos, errno, fs, d).

Definition ext2_build_path_tree fs d (path : cstring) (errno : Z) (task : option (Z * Z)) : result Z :=
  '(dirent, _, errno, fs, d) ← ext2_dirent_find fs d path errno task;
  match dirent with
  | None => Ret (-1, ENOENT, fs, d)
  | Some _ => Ret (0, errno, fs, d)
  end.

(** * Opening files *)

(** The part of [ext2_open] before the descriptor is allocated.  [OpenFile] has
    the inode number and the type; [OpenLink] is a symbolic link. *)
Inductive open_result : Type :=
  | OpenFile (ino ft : Z)
  | OpenLink (inode : list Z)
  | OpenError.

Definition open_inode fs d (t : Z) (path : cstring) (flags errno : Z) (task : option (Z * Z)) : result open_result :=
  if bool_decide (path = []) then Ret (OpenError, EINVAL, fs, d) else
  '(parent_dirent, _, errno, fs, d) ← ext2_dirent_find fs d (dirname path) errno task;
  let parent_inode := match parent_dirent with Some e => found_inode e | None => 0 end in
  if parent_inode =? 0 then Ret (OpenError, ENOENT, fs, d) else
  '(dirent, _, errno, fs, d) ← ext2_dirent_find fs d path errno task;
  let num := match dirent with Some e => found_inode e | None => 0 end in
  if bool_decide (dirent = None) && (negb (errno =? ENOENT) || negb (has_flag flags O_CREAT)) then Ret (OpenError, ENOENT, fs, d) else
  '(r, errno, fs, d) ←
    (if num =? 0 then
       '(inode_num, inode, fs, d) ← ext2_inode_new fs d t (Z.lor FT_IFREG MODE_644);
       '(fs, d) ← ext2_dirent_add fs d parent_inode inode_num (basename path) 1;
       let inode := match task with Some (uid, gid) => set_gid (set_uid inode uid) gid | None => inode end in
       Ret (Some (inode_num, inode), errno, fs, d)
     else
       if has_flag flags O_CREAT && has_flag flags O_EXCL then Ret (None, EEXIST, fs, d) else
       '(ok, inode, fs, d) ← ext2_inode_read fs d (inode_buffer fs) num;
       if negb ok then Ret (None, ENOENT, fs, d) else
       if (has_flag flags O_WRONLY || has_flag flags O_RDWR) && (ext2_inode_check_perm PERM_CHECK_WRITE inode task <? 0)
       then Ret (None, EACCES, fs, d) else
       Ret (Some (num, inode), errno, fs, d));
  match r with
  | None => Ret (OpenError, errno, fs, d)
  | Some (inode_num, inode) =>
    let ft := vfs_mode_to_filetype (in_mode inode) in
    if (ft =? FT_IFDIR) && (has_flag flags O_WRONLY || has_flag flags O_RDWR) then Ret (OpenError, EISDIR, fs, d) else
    if ft =? FT_IFLNK then Ret (OpenLink inode, errno, fs, d) else
    Ret (OpenFile inode_num ft, errno, fs, d)
  end.

(** [handle_symlink]: the path to go on with, None when the link is too long. *)
Definition symlink_path (path : cstring) (inode : list Z) : outcome (option cstring) :=
  if 60 <? in_size inode then Ret None else
  let sym_path := until0 (drop 40 inode) in
  c ← aload inode 40;
  if negb (c =? SLASH) then p ← vfs_normalize_path sym_path (dirname path); Ret (Some p)
  else Ret (Some sym_path).

(** [depth] bounds the symbolic links that are followed, as the kernel's stack
    does. *)
Fixpoint open_loop (depth : nat) fs d (t : Z) (path : cstring) (flags errno : Z) (task : option (Z * Z))
    : outcome (option (Z * Z) * cstring * Z * ext2_fs * D) :=
  match depth with
  | O => Spin
  | S depth =>
    '(r, errno, fs, d) ← open_inode fs d t path flags errno task;
    match r with
    | OpenError => Ret (None, path, errno, fs, d)
    | OpenFile ino ft => Ret (Some (ino, ft), path, errno, fs, d)
    | OpenLink inode =>
      p ← symlink_path path inode;
      match p with
      | None => Ret (None, path, errno, fs, d)
      | Some path => open_loop depth fs d t path flags errno task
      end
    end
  end.

(** * Mounting *)

Definition SUPERBLOCK_MAGIC : Z := 0xEF53.
Definition SUPERBLOCK_STATE_CLEAN : Z := 1.

(** The file system of a device, None with errno when it cannot be mounted. *)
Definition ext2_load (dev : vfs_block_dev) d (t errno : Z) : outcome (option ext2_fs * Z * D) :=
  '(n, sb, d) ← vfs_block_read dev d 2 2;
  sb ← copy_front (fresh 1024) sb (Z.of_nat (length sb));
  if (n <? 0) || negb (u16_at sb 56 =? SUPERBLOCK_MAGIC) then Ret (None, EINVAL, d) else
  if negb (u32_at sb 76 =? 1) then Ret (None, EINVAL, d) else
  if negb (u16_at sb 58 =? SUPERBLOCK_STATE_CLEAN) then Ret (None, EINVAL, d) else
  let fs := Ext2 dev sb [] None (replicate (Z.to_nat INODE_CACHE_MAX) (0, replicate (Z.to_nat SIZEOF_INODE) 0)) 0 in
  if sb_blocks_per_group sb =? 0 then Fault else
  '(n, t0, d) ← vfs_block_sread dev d (bl_off fs (blockgroup_table_start fs)) (bl_off fs (blockgroup_table_size fs));
  table ← copy_front (fresh (bl_off fs (blockgroup_table_size fs))) t0 (Z.of_nat (length t0));
  let fs := fs_set_blockgroups fs table in
  if n =? 0 then Ret (None, errno, d) else
  '(ok, root, fs, d) ← ext2_inode_read fs d (inode_buffer fs) ROOT_INODE;
  if negb ok then Ret (None, errno, d) else
  let fs := fs_set_root fs (Some root) in
  let sb := fs_superblock fs in
  let sb := set_u16 sb 52 (u16 (u16_at sb 52 + 1)) in
  let fs := fs_set_superblock fs (set_u32 sb 44 (u32 t)) in
  d ← write_superblock fs d;
  Ret (Some fs, errno, d).

End Ext2Fs.
