(* ===== verification/Ext2Vfs.v ===== *)
(** Ext2 as a file system of the vfs: the callbacks of src/src/fs/ext2.c take a
    context, find the instance behind its mount point and change it in place;
    [ext2_open] allocates the descriptor, [ext2_mount] makes an instance.

    [ext2_world] has what they reach: the instances by their address, the block
    devices by theirs, the disks, the clock, the group of the task and the
    memory of the user.  [ext2_backend] puts the functions behind their
    addresses, on top of the file systems that are there already, and
    [ext2_keeps_contract] shows that ext2 keeps the contract of the vfs. *)
From stdpp Require Import base numbers list gmap.
From Stdlib Require Import ZArith Lia Bool.
From S2P Require Import Prelude DList Str Bytes Path Mount Vfs VfsSpec Block Ext2 Ext2Dir Ext2Fs.

Open Scope Z_scope.

Record ext2_world (D : Type) : Type := World {
  ew_instances : gmap Z ext2_fs;
  ew_devs : gmap Z vfs_block_dev;
  ew_disk : D;
  ew_time : Z;
  ew_egid : Z;
  ew_memory : gmap Z Z;
}.

Arguments World {D} ew_instances ew_devs ew_disk ew_time ew_egid ew_memory.
Arguments ew_instances {D} e.
Arguments ew_devs {D} e.
Arguments ew_disk {D} e.
Arguments ew_time {D} e.
Arguments ew_egid {D} e.
Arguments ew_memory {D} e.

(** * User memory *)

(** The bytes that are there from [a] on, at most [n]. *)
Fixpoint mem_bytes (m : gmap Z Z) (a : Z) (n : nat) : list Z :=
  match n with
  | O => []
  | S n => match m !! a with Some x => x :: mem_bytes m (a + 1) n | None => [] end
  end.

Fixpoint mem_store (m : gmap Z Z) (a : Z) (b : list Z) : gmap Z Z :=
  match b with
  | [] => m
  | x :: b => mem_store (<[a := x]> m) (a + 1) b
  end.

(** * The table of callbacks *)

Definition EXT2_OPEN : Z := 0x200.
Definition EXT2_STAT : Z := 0x201.
Definition EXT2_READ : Z := 0x202.
Definition EXT2_WRITE : Z := 0x203.
Definition EXT2_GETDENTS : Z := 0x204.
Definition EXT2_UNLINK : Z := 0x205.
Definition EXT2_CHMOD : Z := 0x206.
Definition EXT2_CHOWN : Z := 0x207.
Definition EXT2_MKDIR : Z := 0x208.
Definition EXT2_UTIMES : Z := 0x209.
Definition EXT2_RMDIR : Z := 0x20a.
Definition EXT2_LINK : Z := 0x20b.
Definition EXT2_READLINK : Z := 0x20c.
Definition EXT2_ACCESS : Z := 0x20d.
Definition EXT2_BUILD_PATH_TREE : Z := 0x20e.

(** [cb] *)
Definition ext2_callbacks : vfs_callbacks := {|
  cb_open := EXT2_OPEN; cb_access := EXT2_ACCESS; cb_read := EXT2_READ; cb_write := EXT2_WRITE;
  cb_getdents := EXT2_GETDENTS; cb_stat := EXT2_STAT; cb_mkdir := EXT2_MKDIR; cb_symlink := 0;
  cb_unlink := EXT2_UNLINK; cb_chmod := EXT2_CHMOD; cb_chown := EXT2_CHOWN; cb_utimes := EXT2_UTIMES;
  cb_link := EXT2_LINK; cb_readlink := EXT2_READLINK; cb_rmdir := EXT2_RMDIR; cb_ioctl := 0; cb_poll := 0;
  cb_build_path_tree := EXT2_BUILD_PATH_TREE |}.

Definition EXT2_NAME : cstring := [101; 120; 116; 50].

Section Ext2Vfs.
Context {D : Type} `{BlockDrivers D} `{FreshMemory}.
Context (stale : cstring -> cstring).
Context (others : VfsBackend (ext2_world D)).
(** The addresses [kmalloc] gives for an instance and its mount point. *)
Context (addresses : ext2_world D -> Z * Z).
(** How many symbolic links the kernel's stack has room for. *)
Context (stack : nat).
Implicit Types st : vfs_state (ext2_world D).

Definition set_world st (w : ext2_world D) : vfs_state (ext2_world D) :=
  State (vs_task st) (vs_files st) (vs_cwd st) (vs_ctty st) (vs_euid st) (vs_errno st) (vs_mounts st) w.

Definition set_mounts st (mt : mounts) : vfs_state (ext2_world D) :=
  State (vs_task st) (vs_files st) (vs_cwd st) (vs_ctty st) (vs_euid st) (vs_errno st) mt (vs_world st).

Definition set_memory st (m : gmap Z Z) : vfs_state (ext2_world D) :=
  let w := vs_world st in set_world st (World (ew_instances w) (ew_devs w) (ew_disk w) (ew_time w) (ew_egid w) m).

(** The instance at [a], the disk and errno after a call. *)
Definition put st (a : Z) (fs : ext2_fs) (d : D) (errno : Z) : vfs_state (ext2_world D) :=
  let w := vs_world st in
  set_errno (set_world st (World (<[a := fs]> (ew_instances w)) (ew_devs w) d (ew_time w) (ew_egid w) (ew_memory w))) errno.

(** [ctx->task] *)
Definition ctx_task st : option (Z * Z) := if vs_task st then Some (vs_euid st, ew_egid (vs_world st)) else None.

(** Calls [f] on the instance of the mount point. *)
Definition on_fs {A} st (ctx : vfs_callback_ctx) (f : ext2_fs -> D -> result (D := D) A) : outcome (A * vfs_state (ext2_world D)) :=
  mp ← ctx_mount st ctx;
  fs ← match ew_instances (vs_world st) !! mp_instance mp with Some fs => Ret fs | None => Fault end;
  '(r, errno, fs, d) ← f fs (ew_disk (vs_world st));
  Ret (r, put st (mp_instance mp) fs d errno).

(** [ctx->fp]: the inode and the offset, zeros without a file. *)
Definition ctx_file st (ctx : vfs_callback_ctx) : outcome (Z * Z) :=
  match ctx_fp ctx with
  | None => Ret (0, 0)
  | Some i => f ← aload (vs_files st) (Z.of_nat i); Ret (f_inode f, f_offset f)
  end.

(** The seconds of [times], None for NULL: [struct timeval] has 12 bytes, the
    first 8 of them the seconds, of which the callback keeps 32 bits. *)
Definition load_times st (times : Z) : outcome (option (Z * Z)) :=
  if times =? 0 then Ret None else
  let b := mem_bytes (ew_memory (vs_world st)) times 24 in
  if Z.of_nat (length b) <? 24 then Fault else Ret (Some (u32_at b 0, u32_at b 12)).

Definition ext2_call (p : Z) (ctx : vfs_callback_ctx) (op : vfs_call) st : outcome (Z * vfs_state (ext2_world D)) :=
  let path := ctx_path ctx in
  let errno := vs_errno st in
  let task := ctx_task st in
  let t := ew_time (vs_world st) in
  let memory := ew_memory (vs_world st) in
  match op with
  | CAccess amode =>
    if p =? EXT2_ACCESS then on_fs st ctx (fun fs d => ext2_access fs d path errno task amode) else call p ctx op st
  | CRead dest size =>
    if p =? EXT2_READ then
      mp ← ctx_mount st ctx;
      if mp_instance mp =? 0 then fail_size st EBADF else
      '(ino, offset) ← ctx_file st ctx;
      '(n, b, st) ← on_fs st ctx (fun fs d => ext2_read fs d ino offset size errno task (mem_bytes memory dest (Z.to_nat size)));
      Ret (n, match b with Some b => set_memory st (mem_store memory dest b) | None => st end)
    else call p ctx op st
  | CWrite source size =>
    if p =? EXT2_WRITE then
      '(ino, offset) ← ctx_file st ctx;
      on_fs st ctx (fun fs d => ext2_write fs d t ino offset size errno task (mem_bytes memory source (Z.to_nat size)))
    else call p ctx op st
  | CGetdents dest size =>
    if p =? EXT2_GETDENTS then
      i ← match ctx_fp ctx with Some i => Ret i | None => Fault end;
      f ← aload (vs_files st) (Z.of_nat i);
      '(n, out, pos, st) ← on_fs st ctx (fun fs d => ext2_getdents fs d (f_inode f) (f_offset f) size errno task);
      st ← update st i (fun f => with_offset f pos);
      Ret (n, set_memory st (mem_store memory dest out))
    else call p ctx op st
  | CMkdir _ => if p =? EXT2_MKDIR then on_fs st ctx (fun fs d => ext2_mkdir fs d t path errno task) else call p ctx op st
  | CUnlink => if p =? EXT2_UNLINK then on_fs st ctx (fun fs d => do_unlink fs d t path false errno task) else call p ctx op st
  | CRmdir => if p =? EXT2_RMDIR then on_fs st ctx (fun fs d => do_unlink fs d t path true errno task) else call p ctx op st
  | CChmod mode => if p =? EXT2_CHMOD then on_fs st ctx (fun fs d => ext2_chmod fs d path errno task mode) else call p ctx op st
  | CChown uid gid =>
    if p =? EXT2_CHOWN then on_fs st ctx (fun fs d => ext2_chown fs d path errno task uid gid) else call p ctx op st
  | CUtimes times =>
    if p =? EXT2_UTIMES then
      times ← load_times st times;
      on_fs st ctx (fun fs d => ext2_utimes fs d t path errno task times)
    else call p ctx op st
  | CLink new_path =>
    if p =? EXT2_LINK then
      match new_path with
      | None => Fault
      | Some new_path => on_fs st ctx (fun fs d => ext2_link stale fs d path new_path errno task)
      end
    else call p ctx op st
  | CReadlink buf size =>
    if p =? EXT2_READLINK then
      '(n, b, st) ← on_fs st ctx (fun fs d => ext2_readlink fs d path errno task size);
      Ret (n, set_memory st (mem_store memory buf b))
    else call p ctx op st
  | CIoctl _ _ => call p ctx op st
  end.

Definition ext2_stat_cb (ctx : vfs_callback_ctx) st : outcome (Z * vfs_stat_t * vfs_state (ext2_world D)) :=
  on_fs st ctx (fun fs d => ext2_stat fs d (ctx_path ctx) (vs_errno st) (ctx_task st)).

(** What [ext2_open] fills in. *)
Definition with_inode (f : vfs_file) (type inode : Z) : vfs_file :=
  File (f_refs f) (f_dup_target f) type (f_num f) (f_path f) (f_mount_path f) (f_mp f) (f_mount_instance f)
    ext2_callbacks (f_flags f) (f_offset f) inode (f_meta f).

Definition ext2_open (ctx : vfs_callback_ctx) (flags : Z) st : outcome (option nat * cstring * vfs_state (ext2_world D)) :=
  '(r, path, st) ← on_fs st ctx (fun fs d =>
    '(r, path, errno, fs, d) ←
      open_loop (S stack) fs d (ew_time (vs_world st)) (ctx_path ctx) flags (vs_errno st) (ctx_task st);
    Ret ((r, path), errno, fs, d));
  match r with
  | None => Ret (None, path, st)
  | Some (ino, ft) =>
    '(i, st) ← vfs_alloc_fileno st 3;
    match i with
    | None => Ret (None, path, st)
    | Some i =>
      st ← update st i (fun f => with_inode f ft ino);
      Ret (Some i, path, set_errno st 0)
    end
  end.

Definition mount_ext2 (dev : Z) (path : cstring) st : outcome (Z * vfs_state (ext2_world D)) :=
  let w := vs_world st in
  bdev ← match ew_devs w !! dev with Some bdev => Ret bdev | None => Fault end;
  '(r, errno, d) ← ext2_load bdev (ew_disk w) (ew_time w) (vs_errno st);
  let set i := set_errno (set_world st (World i (ew_devs w) d (ew_time w) (ew_egid w) (ew_memory w))) errno in
  match r with
  | None => Ret (-1, set (ew_instances w))
  | Some fs =>
    let '(instance, mp) := addresses w in
    '(_, mt) ← vfs_mount_register (vs_mounts st) mp dev path instance EXT2_NAME ext2_callbacks;
    Ret (0, set_mounts (set (<[instance := fs]> (ew_instances w))) mt)
  end.

Definition ext2_backend : VfsBackend (ext2_world D) := {|
  call := ext2_call;
  call_open p ctx flags st := if p =? EXT2_OPEN then ext2_open ctx flags st else call_open p ctx flags st;
  call_stat p ctx st := if p =? EXT2_STAT then ext2_stat_cb ctx st else call_stat p ctx st;
  net_vfs_close_cb := net_vfs_close_cb;
  vm_map_user := vm_map_user;
  task_signal_segv := task_signal_segv;
  store_string := store_string;
  block_get_dev := block_get_dev;
  ext2_mount := mount_ext2;
|}.

(** * The contract of the vfs *)

Lemma on_fs_keeps {A} st ctx (f : ext2_fs -> D -> result A) r st' : on_fs st ctx f = Ret (r, st') -> keeps st st'.
Proof.
  unfold on_fs. intros Hc. unbind Hc as mp Hm. unbind Hc as fs Hf. unbind Hc as [[[r1 e1] fs1] d1] Hr. simplify_eq.
  by apply keeps_files.
Qed.

Lemma ext2_call_keeps `{!VfsBackendLaws (ext2_world D)} p ctx op st r st' : ext2_call p ctx op st = Ret (r, st') -> keeps st st'.
Proof.
  unfold ext2_call. destruct op.
  all: try (apply law_call).
  all: match goal with |- (if ?b then _ else _) = _ -> _ => destruct b; [| apply law_call] end.
  all: try (apply on_fs_keeps); intros Hc.
  - unbind Hc as mp Hm. destruct (mp_instance mp =? 0); [injection Hc as <- <-; apply keeps_errno |].
    unbind Hc as [ino off] Hf. unbind Hc as [[n b] st1] Hr. apply on_fs_keeps in Hr.
    destruct b; simplify_eq; [| done]. eapply keeps_trans; [exact Hr |]. by apply keeps_files.
  - unbind Hc as [ino off] Hf. by apply on_fs_keeps in Hc.
  - unbind Hc as i Hi. unbind Hc as f Hf. unbind Hc as [[[n out] pos] st1] Hr. apply on_fs_keeps in Hr.
    unbind Hc as st2 Hu. simplify_eq. eapply keeps_trans; [exact Hr |].
    eapply keeps_trans; [eapply update_keeps; [| exact Hu]; done | by apply keeps_files].
  - unbind Hc as times' Ht. by apply on_fs_keeps in Hc.
  - destruct new_path; [by apply on_fs_keeps in Hc | done].
  - unbind Hc as [[n b] st1] Hr. apply on_fs_keeps in Hr. simplify_eq. eapply keeps_trans; [exact Hr |]. by apply keeps_files.
Qed.

Lemma ext2_open_allocates ctx flags st r cp st' :
  ext2_open ctx flags st = Ret (r, cp, st') ->
  match r with
  | None => keeps st st'
  | Some i => exists st1 min st2, keeps st st1 /\ 0 <= min /\ vfs_alloc_fileno st1 min = Ret (Some i, st2) /\ keeps st2 st'
  end.
Proof.
  unfold ext2_open. intros Hc. unbind Hc as [[r1 path] st1] Hr. apply on_fs_keeps in Hr.
  destruct r1 as [[ino ft] |]; [| by simplify_eq]. unbind Hc as [[i |] st2] Ha.
  - unbind Hc as st3 Hu. injection Hc as <- <- <-. exists st1, 3, st2. split; [done |]. split; [done |]. split; [done |].
    eapply keeps_trans; [eapply update_keeps; [| exact Hu]; done | apply keeps_errno].
  - injection Hc as <- <- <-. unfold vfs_alloc_fileno in Ha. unbind Ha as k Hk. destruct k; [by unbind Ha as s Hs |].
    simplify_eq. eapply keeps_trans; [exact Hr | apply keeps_errno].
Qed.

Lemma mount_ext2_keeps dev path st r st' : mount_ext2 dev path st = Ret (r, st') -> keeps st st'.
Proof.
  unfold mount_ext2. intros Hc. unbind Hc as bdev Hb. unbind Hc as [[r1 e1] d1] Hl.
  destruct r1 as [fs |]; [| simplify_eq; by apply keeps_files].
  destruct (addresses (vs_world st)) as [a b]. unbind Hc as [x mt] Hm. simplify_eq. by apply keeps_files.
Qed.

End Ext2Vfs.

(** C39: ext2 keeps the contract of the vfs: its callbacks and mounting leave
    the structure of the descriptor table alone, [open] apart, which allocates
    exactly the descriptor it returns, also when it follows symbolic links; so
    all theorems about the vfs hold with ext2 below it. *)
Theorem ext2_keeps_contract {D : Type} `{BlockDrivers D} `{FreshMemory} (stale : cstring -> cstring)
    (others : VfsBackend (ext2_world D)) (addresses : ext2_world D -> Z * Z) (stack : nat) :
  VfsBackendLaws (H := others) (ext2_world D) ->
  VfsBackendLaws (H := ext2_backend stale others addresses stack) (ext2_world D).
Proof.
  intros Hl. split.
  - apply ext2_call_keeps, Hl.
  - intros p ctx st r s st'. simpl. destruct (p =? EXT2_STAT); [| apply law_stat]. apply on_fs_keeps.
  - intros p ctx flags st r cp st'. simpl. destruct (p =? EXT2_OPEN); [apply ext2_open_allocates | apply law_open].
  - apply (law_net (VfsBackendLaws := Hl)).
  - apply (law_map (VfsBackendLaws := Hl)).
  - apply (law_segv (VfsBackendLaws := Hl)).
  - apply (law_store (VfsBackendLaws := Hl)).
  - apply mount_ext2_keeps.
Qed.
