(* ===== verification/Ext2DirSpec.v ===== *)
(** Correctness of the directories of ext2 (Ext2Dir.v).

    The bytes of a directory encode a list of records; [dir_find] looks a name
    up in it.  Searching, adding and removing are shown to do on the bytes, and
    then on the disk, what they should do on the list. *)
From stdpp Require Import base numbers list gmap.
From Stdlib Require Import ZArith Lia Bool.
From S2P Require Import Prelude Str Bytes Path Mount Bitmap Block Ext2 Ext2Spec Ext2Dir.

Open Scope Z_scope.

(** * Records *)

(** A record: its fields, the name, and the bytes behind the name. *)
Record entry : Type := Entry {
  en_inode : Z;
  en_type : Z;
  en_name : list Z;
  en_pad : list Z;
}.

Implicit Types (e : entry) (es : list entry).

Definition en_len e : Z := SIZEOF_DIRENT + Z.of_nat (length (en_name e)) + Z.of_nat (length (en_pad e)).

Definition encode e : list Z :=
  le_bytes 4 (en_inode e) ++ le_bytes 2 (en_len e) ++
  [Z.of_nat (length (en_name e)); en_type e] ++ en_name e ++ en_pad e.

Definition dir_bytes es : list Z := concat (map encode es).

(** The name of a live record is a string. *)
Record entry_ok e : Prop := {
  eo_inode : 0 <= en_inode e < 2 ^ 32;
  eo_len : en_len e < 2 ^ 16;
  eo_name_len : (length (en_name e) < 256)%nat;
  eo_name : en_inode e <> 0 -> Forall (fun c => 0 < c < 256) (en_name e);
}.

Definition live e : bool := nz (en_inode e).

(** The first live record with the name. *)
Fixpoint dir_find es (name : list Z) : option entry :=
  match es with
  | [] => None
  | e :: es => if live e && bool_decide (en_name e = name) then Some e else dir_find es name
  end.

Lemma length_encode e : Z.of_nat (length (encode e)) = en_len e.
Proof. unfold encode, en_len, SIZEOF_DIRENT. rewrite !length_app, !length_le_bytes. simpl. lia. Qed.

Lemma en_len_pos e : 8 <= en_len e.
Proof. unfold en_len, SIZEOF_DIRENT. lia. Qed.

Lemma dir_bytes_app es es' : dir_bytes (es ++ es') = dir_bytes es ++ dir_bytes es'.
Proof. unfold dir_bytes. by rewrite map_app, concat_app. Qed.

Lemma dir_bytes_cons e es : dir_bytes (e :: es) = encode e ++ dir_bytes es.
Proof. done. Qed.

Lemma length_dir_bytes es : (length es <= length (dir_bytes es))%nat.
Proof.
  induction es as [| e es IH]; [done |]. rewrite dir_bytes_cons, length_app. pose proof (length_encode e).
  pose proof (en_len_pos e). simpl. lia.
Qed.

Definition the_dirent e : dirent := Dirent (en_inode e) (en_len e) (Z.of_nat (length (en_name e))) (en_type e).

Lemma dirent_at_encode pre e post p :
  entry_ok e -> p = Z.of_nat (length pre) -> dirent_at (pre ++ encode e ++ post) p = Ret (the_dirent e).
Proof.
  intros [Hi Hl Hn _] ->. pose proof (en_len_pos e). unfold dirent_at, encode.
  set (nm := en_name e ++ en_pad e). rewrite <- !app_assoc.
  rewrite (load_le_mid 4 pre) by done. rewrite bind_Ret.
  rewrite (app_assoc pre), (load_le_mid 2 (pre ++ le_bytes 4 (en_inode e))) by (rewrite ?length_app, ?length_le_bytes; simpl; lia).
  rewrite bind_Ret, (app_assoc (pre ++ _)). set (q := (pre ++ le_bytes 4 (en_inode e)) ++ le_bytes 2 (en_len e)).
  assert (Z.of_nat (length q) = Z.of_nat (length pre) + 6) as Hq by (unfold q; rewrite !length_app, !length_le_bytes; lia).
  set (n := Z.of_nat (length (en_name e))).
  assert (aload (q ++ [n; en_type e] ++ nm ++ post) (Z.of_nat (length pre) + 6) = Ret n) as -> by (by apply (aload_mid q)).
  rewrite bind_Ret. change ([n; en_type e] ++ nm ++ post) with ([n] ++ en_type e :: nm ++ post). rewrite app_assoc.
  rewrite aload_mid by (rewrite length_app; simpl; lia). done.
Qed.

(** The name in the buffer. *)
Lemma name_in_encode pre e post :
  load_bytes (pre ++ encode e ++ post) (Z.of_nat (length pre) + SIZEOF_DIRENT) (Z.of_nat (length (en_name e))) = Ret (en_name e).
Proof.
  unfold encode. replace (pre ++ (le_bytes 4 (en_inode e) ++ le_bytes 2 (en_len e) ++
    [Z.of_nat (length (en_name e)); en_type e] ++ en_name e ++ en_pad e) ++ post)
    with ((pre ++ le_bytes 4 (en_inode e) ++ le_bytes 2 (en_len e) ++ [Z.of_nat (length (en_name e)); en_type e]) ++
      en_name e ++ en_pad e ++ post) by (by rewrite <- !app_assoc).
  apply load_bytes_mid; [| done]. rewrite !length_app, !length_le_bytes. simpl. unfold SIZEOF_DIRENT. lia.
Qed.

(** * A buffer that holds a part of the data *)

Definition window (b data : list Z) (off len : Z) : Prop :=
  0 <= off /\ 0 <= len <= Z.of_nat (length b) /\ off + len <= Z.of_nat (length data) /\
  forall i, 0 <= i < len -> b !! Z.to_nat i = data !! Z.to_nat (off + i).

Lemma window_load b data off len p n :
  window b data off len -> 0 <= p -> 0 <= n -> p + n <= len -> load_bytes b p n = load_bytes data (off + p) n.
Proof.
  intros (Ho & Hl & Hd & Hw) Hp Hn Hle. unfold load_bytes.
  destruct (Z.leb_spec 0 p), (Z.leb_spec (p + n) (Z.of_nat (length b))), (Z.leb_spec 0 (off + p)),
    (Z.leb_spec (off + p + n) (Z.of_nat (length data))); try lia. simpl. f_equal. apply list_eq. intros i.
  rewrite !lookup_bytes_at. case_decide; [| done].
  replace (Z.to_nat p + i)%nat with (Z.to_nat (p + Z.of_nat i)) by lia. rewrite Hw by lia. f_equal. lia.
Qed.

Lemma window_aload b data off len p : window b data off len -> 0 <= p < len -> aload b p = aload data (off + p).
Proof.
  intros (Ho & Hl & Hd & Hw) Hp. unfold aload. destruct (Z.ltb_spec p 0), (Z.ltb_spec (off + p) 0); try lia.
  by rewrite Hw by lia.
Qed.

Lemma window_dirent b data off len p :
  window b data off len -> 0 <= p -> p + SIZEOF_DIRENT <= len -> dirent_at b p = dirent_at data (off + p).
Proof.
  unfold SIZEOF_DIRENT. intros Hw Hp Hle. unfold dirent_at, load_le.
  rewrite !(window_load b data off len), !(window_aload b data off len) by (done || lia).
  by rewrite !Z.add_assoc.
Qed.

(** The records of a directory; the last one does not end with its name. *)
Record dir_ok es : Prop := {
  dk_entries : Forall entry_ok es;
  dk_last : forall e, last es = Some e -> en_pad e <> [];
}.

Lemma dir_ok_tail e es : dir_ok (e :: es) -> dir_ok es.
Proof.
  intros [[_ Hes]%Forall_cons Hl]. split; [done |]. intros e' He'. apply Hl. destruct es; [done |]. exact He'.
Qed.

(** The name of the first record ends before the directory does. *)
Lemma dir_ok_room e es :
  dir_ok (e :: es) -> 8 + Z.of_nat (length (en_name e)) < Z.of_nat (length (dir_bytes (e :: es))).
Proof.
  intros [He Hl]. rewrite dir_bytes_cons, length_app. pose proof (length_encode e) as Hle.
  unfold en_len, SIZEOF_DIRENT in Hle. destruct es as [| e' es].
  - specialize (Hl e eq_refl). destruct (en_pad e); [done |]. simpl in *. lia.
  - rewrite dir_bytes_cons, length_app. pose proof (length_encode e'). pose proof (en_len_pos e'). lia.
Qed.

(** * Adding a record *)

Lemma align_spec n :
  0 <= n < 2 ^ 30 -> Z.max n 12 <= align_dirent_len n < Z.max (n + 4) 13 /\ align_dirent_len n mod 4 = 0.
Proof.
  intros Hn. unfold align_dirent_len. destruct (Z.leb_spec n 12); [by split; [lia |] |].
  assert (Z.land n (u32 (-4)) = n - n mod 4) as ->.
  { change (u32 (-4)) with (u32 (Z.lnot (4 - 1))). fold (ALIGN_DOWN n 4). change 4 with (2 ^ 2). apply ALIGN_DOWN_spec; lia. }
  pose proof (Z.div_mod n 4 ltac:(lia)). pose proof (Z.mod_pos_bound n 4 ltac:(lia)).
  destruct (nz (n mod 4)) eqn:E; [apply nz_true in E | apply nz_false in E; lia].
  rewrite u32_small by lia. split; [lia |]. replace (n - n mod 4 + 4) with ((n / 4 + 1) * 4) by lia. by apply Z_mod_mult.
Qed.

(** The length a record needs, and what is left of it. *)
Definition need (name : list Z) : Z := align_dirent_len (SIZEOF_DIRENT + Z.of_nat (length name)).
Definition room e : Z := if live e then en_len e - need (en_name e) else en_len e.

(** A live record is as long as it needs to be. *)
Definition packed e : Prop := live e = true -> need (en_name e) <= en_len e.

(** The first record with more room than [dlen]. *)
Fixpoint first_room es (dlen : Z) : option (list entry * entry * list entry) :=
  match es with
  | [] => None
  | e :: es =>
    if dlen <? room e then Some ([], e, es)
    else '(pre, e', post) ← first_room es dlen; Some (e :: pre, e', post)
  end.

Lemma first_room_split es dlen pre e post :
  first_room es dlen = Some (pre, e, post) -> es = pre ++ e :: post /\ dlen < room e.
Proof.
  revert pre. induction es as [| e' es IH]; intros pre E; [done |]. cbn [first_room] in E.
  destruct (Z.ltb_spec dlen (room e')); [by simplify_eq |].
  destruct (first_room es dlen) as [[[pre' x] post'] |]; [| done]. simpl in E. simplify_eq.
  destruct (IH pre' eq_refl) as [-> ?]. done.
Qed.

Lemma need_range e : entry_ok e -> 12 <= need (en_name e) < 268 /\ 8 + Z.of_nat (length (en_name e)) <= need (en_name e).
Proof.
  intros He. pose proof (eo_name_len _ He). unfold need, SIZEOF_DIRENT.
  destruct (align_spec (8 + Z.of_nat (length (en_name e))) ltac:(lia)) as [? _]. lia.
Qed.

Lemma add_scan_spec es fuel dlen pre rec rpre e rpost :
  Forall entry_ok es -> Forall packed es -> (length es < fuel)%nat -> first_room es dlen = Some (rpre, e, rpost) ->
  let b := pre ++ dir_bytes es in
  add_scan fuel b (Z.of_nat (length b)) dlen (Z.of_nat (length pre)) rec =
    Ret (Z.of_nat (length pre + length (dir_bytes rpre)), negb (live e)).
Proof.
  revert es pre rec rpre. induction fuel as [| fuel IH]; intros es pre rec rpre Hok Hp Hf Hroom b; [lia |].
  destruct es as [| e' es]; [done |]. apply Forall_cons in Hok as [He Hok]. apply Forall_cons in Hp as [Hpe Hp].
  cbn [first_room] in Hroom. cbn [add_scan].
  pose proof (length_encode e') as Hle. pose proof (en_len_pos e').
  destruct (Z.ltb_spec (Z.of_nat (length pre)) (Z.of_nat (length b))).
  2: { exfalso. unfold b in *. rewrite length_app, dir_bytes_cons, length_app in *. lia. }
  assert (dirent_at b (Z.of_nat (length pre)) = Ret (the_dirent e')) as ->
    by (unfold b; rewrite dir_bytes_cons; by apply dirent_at_encode).
  rewrite bind_Ret. cbn [the_dirent de_inode de_record_len de_name_len].
  assert ((if en_inode e' =? 0 then en_len e'
    else u32 (en_len e' - align_dirent_len (SIZEOF_DIRENT + Z.of_nat (length (en_name e'))))) = room e') as ->.
  { unfold room, packed, live, nz in *. fold (need (en_name e')). destruct (en_inode e' =? 0); [done |]. simpl in *.
    destruct (need_range e' He). pose proof (eo_len _ He). apply u32_small. specialize (Hpe eq_refl). lia. }
  destruct (Z.ltb_spec dlen (room e')) as [Hlt | Hge].
  - simplify_eq. unfold live, nz. rewrite negb_involutive. do 2 f_equal. simpl. lia.
  - destruct (first_room es dlen) as [[[pre' x] post'] |] eqn:E; [| done]. simpl in Hroom. simplify_eq.
    unfold b. rewrite dir_bytes_cons, app_assoc.
    replace (Z.of_nat (length pre) + en_len e') with (Z.of_nat (length (pre ++ encode e'))) by (rewrite length_app; lia).
    rewrite (IH es (pre ++ encode e') _ pre') by (done || simpl in Hf; lia).
    rewrite dir_bytes_cons, !length_app. do 2 f_equal. lia.
Qed.

Lemma path_cstr s : path_ok s -> cstr (s ++ [0]) 0 s.
Proof. intros Hs. apply cstr_of. eapply Forall_impl; [exact Hs |]. simpl. lia. Qed.

Lemma strlen_name s : path_ok s -> strlen (s ++ [0]) 0 = Ret (Z.of_nat (length s)).
Proof.
  intros Hs. apply strlen_spec; [by apply path_cstr |]. intros Hin. unfold path_ok in Hs. rewrite Forall_forall in Hs.
  specialize (Hs _ Hin). simpl in Hs. lia.
Qed.

(** The fields and the name are stored, the length of the record is kept. *)
Lemma fill_dirent_spec pre post ino0 len x y text ino name type :
  path_ok name -> (length name < 256)%nat -> length text = length name ->
  fill_dirent (pre ++ (le_bytes 4 ino0 ++ le_bytes 2 len ++ [x; y] ++ text) ++ post) (Z.of_nat (length pre)) ino name type =
    Ret (pre ++ (le_bytes 4 ino ++ le_bytes 2 len ++ [Z.of_nat (length name); type] ++ name) ++ post).
Proof.
  intros Hn Hl Ht. unfold fill_dirent.
  rewrite strlen_name, bind_Ret by done. unfold u8. rewrite Z.mod_small by lia. rewrite <- !app_assoc.
  rewrite (store_bytes_mid pre (le_bytes 4 ino0)) by (rewrite ?length_le_bytes; done). rewrite bind_Ret.
  replace (pre ++ le_bytes 4 ino ++ le_bytes 2 len ++ [x; y] ++ text ++ post)
    with ((pre ++ le_bytes 4 ino ++ le_bytes 2 len) ++ [x] ++ [y] ++ text ++ post) by (by rewrite <- !app_assoc).
  rewrite store_bytes_mid by (done || rewrite !length_app, !length_le_bytes; lia). rewrite bind_Ret.
  rewrite (app_assoc (_ ++ _)), store_bytes_mid by (done || rewrite !length_app, !length_le_bytes; simpl; lia). rewrite bind_Ret.
  pose proof (load_bytes_mid [] name [0] 0 _ eq_refl eq_refl) as Hlb. cbn [app] in Hlb. rewrite Hlb, bind_Ret.
  rewrite (app_assoc (_ ++ [_])), store_bytes_mid by (done || rewrite !length_app, !length_le_bytes; unfold SIZEOF_DIRENT; simpl; lia).
  by rewrite <- !app_assoc.
Qed.

(** What becomes of the record the new one is put in. *)
Definition add_entry e (ino type : Z) (name : list Z) (dlen : Z) : list entry :=
  if live e then
    let k := Z.to_nat (need (en_name e) - 8 - Z.of_nat (length (en_name e))) in
    [Entry (en_inode e) (en_type e) (en_name e) (take k (en_pad e));
     Entry ino type name (replicate (Z.to_nat dlen - 8 - length name) 0 ++ drop (k + Z.to_nat dlen) (en_pad e))]
  else [Entry ino type name (drop (length name) (en_name e ++ en_pad e))].

Definition dlen_of (name : list Z) : Z := align_dirent_len (SIZEOF_DIRENT + Z.of_nat (length name) + 1).

Lemma dlen_range name :
  (length name < 256)%nat -> 12 <= dlen_of name < 268 /\ 9 + Z.of_nat (length name) <= dlen_of name.
Proof. intros Hl. unfold dlen_of, SIZEOF_DIRENT. destruct (align_spec (8 + Z.of_nat (length name) + 1) ltac:(lia)) as [? _]. lia. Qed.

Lemma add_bytes_recycled pre e post ino name type :
  entry_ok e -> live e = false -> path_ok name -> (length name < 256)%nat -> dlen_of name < room e ->
  add_bytes (pre ++ encode e ++ post) (Z.of_nat (length pre)) (dlen_of name) true ino name type =
    Ret (pre ++ dir_bytes (add_entry e ino type name (dlen_of name)) ++ post).
Proof.
  intros He Hl Hn Hlen Hroom. destruct (dlen_range name Hlen) as [_ Hd]. unfold room in Hroom. rewrite Hl in Hroom.
  unfold en_len, SIZEOF_DIRENT in Hroom. unfold add_bytes, add_entry. rewrite Hl.
  set (rest := en_name e ++ en_pad e). assert (length rest = length (en_name e) + length (en_pad e))%nat as Hr by apply length_app.
  unfold encode at 1. fold rest. rewrite <- (take_drop (length name) rest) at 1.
  pose proof (fill_dirent_spec pre (drop (length name) rest ++ post) (en_inode e) (en_len e)
    (Z.of_nat (length (en_name e))) (en_type e) (take (length name) rest) ino name type Hn Hlen) as Hfill.
  rewrite length_take in Hfill. specialize (Hfill ltac:(lia)). rewrite <- !app_assoc in Hfill |- *. rewrite Hfill.
  cbn [dir_bytes map concat]. unfold encode. cbn [en_inode en_type en_name en_pad].
  assert (en_len (Entry ino type name (drop (length name) rest)) = en_len e) as ->.
  { unfold en_len. cbn [en_name en_pad]. rewrite length_drop. lia. }
  rewrite app_nil_r, <- !app_assoc. done.
Qed.

Lemma replicate_header n (name : list Z) :
  (8 + length name <= n)%nat ->
  replicate n 0 = ((le_bytes 4 0 ++ le_bytes 2 0 ++ [0; 0] ++ replicate (length name) 0) ++ replicate (n - 8 - length name) 0).
Proof.
  intros Hn. change (le_bytes 4 0 ++ le_bytes 2 0 ++ [0; 0] ++ replicate (length name) 0)
    with (replicate 8 0 ++ replicate (length name) 0). rewrite <- !replicate_add. f_equal. lia.
Qed.

Lemma add_bytes_split pre e post ino name type :
  entry_ok e -> packed e -> live e = true -> path_ok name -> (length name < 256)%nat -> dlen_of name < room e ->
  add_bytes (pre ++ encode e ++ post) (Z.of_nat (length pre)) (dlen_of name) false ino name type =
    Ret (pre ++ dir_bytes (add_entry e ino type name (dlen_of name)) ++ post).
Proof.
  intros He Hp Hl Hn Hlen Hroom. destruct (dlen_range name Hlen) as [Hd1 Hd]. destruct (need_range e He) as [Hn1 Hn2].
  specialize (Hp Hl). unfold room in Hroom. rewrite Hl in Hroom. pose proof (eo_len _ He) as Hel.
  unfold add_bytes, add_entry. rewrite Hl. set (dlen := dlen_of name) in *. set (nl := need (en_name e)) in *.
  set (k := Z.to_nat (nl - 8 - Z.of_nat (length (en_name e)))).
  rewrite (replicate_header (Z.to_nat dlen) name) by lia.
  assert (fill_dirent ((le_bytes 4 0 ++ le_bytes 2 0 ++ [0; 0] ++ replicate (length name) 0) ++
      replicate (Z.to_nat dlen - 8 - length name) 0) 0 ino name type =
    Ret ((le_bytes 4 ino ++ le_bytes 2 0 ++ [Z.of_nat (length name); type] ++ name) ++
      replicate (Z.to_nat dlen - 8 - length name) 0)) as ->
    by (apply (fill_dirent_spec []); [done | done | apply length_replicate]).
  rewrite bind_Ret.
  rewrite dirent_at_encode by done. rewrite bind_Ret. cbn [the_dirent de_record_len de_name_len].
  fold (need (en_name e)). fold nl. assert (u16 nl = nl) as -> by (apply Z.mod_small; lia).
  assert (u16 (en_len e - nl) = en_len e - nl) as -> by (apply Z.mod_small; lia).
  unfold encode at 1. rewrite <- (take_drop k (en_pad e)) at 1. rewrite <- (take_drop (Z.to_nat dlen) (drop k (en_pad e))) at 1.
  set (h := [Z.of_nat (length (en_name e)); en_type e]).
  assert (length (en_pad e) = Z.to_nat (en_len e) - 8 - length (en_name e))%nat as Hpad by (unfold en_len, SIZEOF_DIRENT in *; lia).
  replace (pre ++ (le_bytes 4 (en_inode e) ++ le_bytes 2 (en_len e) ++ h ++ en_name e ++
    take k (en_pad e) ++ take (Z.to_nat dlen) (drop k (en_pad e)) ++ drop (Z.to_nat dlen) (drop k (en_pad e))) ++ post)
    with ((pre ++ le_bytes 4 (en_inode e)) ++ le_bytes 2 (en_len e) ++ (h ++ en_name e ++
    take k (en_pad e) ++ take (Z.to_nat dlen) (drop k (en_pad e)) ++ drop (Z.to_nat dlen) (drop k (en_pad e)) ++ post))
    by (by rewrite <- !app_assoc).
  rewrite store_bytes_mid by (rewrite ?length_app, ?length_le_bytes; lia). rewrite bind_Ret, <- !app_assoc.
  pose proof (store_bytes_mid (le_bytes 4 ino) (le_bytes 2 0) ([Z.of_nat (length name); type] ++ name ++
    replicate (Z.to_nat dlen - 8 - length name) 0) (le_bytes 2 (en_len e - nl)) 4 eq_refl ltac:(by rewrite !length_le_bytes)) as Hst.
  rewrite Hst, bind_Ret. clear Hst.
  set (nd := le_bytes 4 ino ++ _). assert (length nd = Z.to_nat dlen) as Hnd.
  { unfold nd. rewrite !length_app, !length_le_bytes, length_replicate. simpl. lia. }
  replace (pre ++ le_bytes 4 (en_inode e) ++ le_bytes 2 nl ++ h ++ en_name e ++ take k (en_pad e) ++
    take (Z.to_nat dlen) (drop k (en_pad e)) ++ drop (Z.to_nat dlen) (drop k (en_pad e)) ++ post)
    with ((pre ++ le_bytes 4 (en_inode e) ++ le_bytes 2 nl ++ h ++ en_name e ++ take k (en_pad e)) ++
    take (Z.to_nat dlen) (drop k (en_pad e)) ++ (drop (Z.to_nat dlen) (drop k (en_pad e)) ++ post)) by (by rewrite <- !app_assoc).
  assert (length (take k (en_pad e)) = k) as Htk by (rewrite length_take; unfold k; lia).
  rewrite store_bytes_mid.
  2: { rewrite !length_app, !length_le_bytes, Htk. simpl. unfold k. lia. }
  2: { rewrite Hnd, length_take, length_drop. unfold k. lia. }
  cbn [dir_bytes map concat]. unfold encode. cbn [en_inode en_type en_name en_pad].
  assert (en_len (Entry (en_inode e) (en_type e) (en_name e) (take k (en_pad e))) = nl) as ->.
  { unfold en_len, SIZEOF_DIRENT. cbn [en_name en_pad]. rewrite Htk. unfold k. lia. }
  assert (en_len (Entry ino type name (replicate (Z.to_nat dlen - 8 - length name) 0 ++ drop (k + Z.to_nat dlen) (en_pad e))) =
    en_len e - nl) as ->.
  { unfold en_len, SIZEOF_DIRENT in *. cbn [en_name en_pad]. rewrite length_app, length_replicate, length_drop. unfold k. lia. }
  rewrite app_nil_r, drop_drop. unfold nd. by rewrite <- !app_assoc.
Qed.

(** * The directory after adding and removing *)

Definition dir_lookup es (name : list Z) : option (Z * Z) := (fun e => (en_inode e, en_type e)) <$> dir_find es name.

Lemma dir_find_app es es' name :
  dir_find (es ++ es') name = match dir_find es name with Some e => Some e | None => dir_find es' name end.
Proof. induction es as [| e es IH]; [done |]. simpl. destruct (live e && _); done. Qed.

Lemma add_lookup pre e post ino type name dlen :
  ino <> 0 -> dir_find (pre ++ e :: post) name = None -> forall n,
  dir_lookup (pre ++ add_entry e ino type name dlen ++ post) n =
    if decide (n = name) then Some (ino, type) else dir_lookup (pre ++ e :: post) n.
Proof.
  intros Hi Hno n. unfold dir_lookup. rewrite !dir_find_app in *. cbn [dir_find] in *.
  assert (nz ino = true) as Hnz by by apply nz_true.
  destruct (dir_find pre name) eqn:Epre; [done |]. unfold add_entry.
  destruct (live e) eqn:El; cbn [dir_find]; unfold live in *; cbn [en_inode en_name]; rewrite ?El, ?Hnz in *; cbn [andb] in *;
    (destruct (decide (n = name)) as [-> | Hn]).
  - rewrite Epre. destruct (bool_decide (en_name e = name)); [done |]. by rewrite bool_decide_eq_true_2.
  - destruct (dir_find pre n); [done |]. destruct (bool_decide (en_name e = n)); [done |].
    by rewrite bool_decide_eq_false_2.
  - by rewrite Epre, bool_decide_eq_true_2.
  - destruct (dir_find pre n); [done |]. by rewrite bool_decide_eq_false_2.
Qed.

(** A name that can be stored. *)
Definition name_ok (name : list Z) : Prop := path_ok name /\ (length name < 256)%nat.

Lemma need_le_dlen name : (length name < 256)%nat -> need name <= dlen_of name.
Proof.
  intros Hl. unfold need, dlen_of, SIZEOF_DIRENT. set (n := 8 + Z.of_nat (length name)).
  destruct (align_spec n ltac:(lia)) as [H1 H1']. destruct (align_spec (n + 1) ltac:(lia)) as [H2 H2'].
  pose proof (Z.div_mod (align_dirent_len n) 4). pose proof (Z.div_mod (align_dirent_len (n + 1)) 4). lia.
Qed.

Lemma add_entries_ok e ino type name :
  entry_ok e -> packed e -> 0 < ino < 2 ^ 32 -> name_ok name -> dlen_of name < room e ->
  let l := add_entry e ino type name (dlen_of name) in
  Forall entry_ok l /\ Forall packed l /\ (forall x, last l = Some x -> en_pad x <> []) /\
  Z.of_nat (length (dir_bytes l)) = en_len e.
Proof.
  intros He Hp Hi [Hn Hl] Hr l. destruct (dlen_range name Hl) as [Hd1 Hd2]. pose proof (need_le_dlen name Hl) as Hnd.
  destruct (need_range e He) as [Hn1 Hn2]. pose proof (eo_len _ He) as Hel. pose proof (eo_inode _ He). pose proof (eo_name_len _ He).
  assert (Forall (fun c => 0 < c < 256) name) as Hstr by (eapply Forall_impl; [exact Hn |]; simpl; lia).
  unfold l, add_entry. unfold room in Hr. set (dlen := dlen_of name) in *. set (nl := need (en_name e)) in *.
  destruct (live e) eqn:El.
  - specialize (Hp El). fold nl in Hp. set (k := Z.to_nat (nl - 8 - Z.of_nat (length (en_name e)))).
    assert (length (en_pad e) = Z.to_nat (en_len e) - 8 - length (en_name e))%nat as Hpad by (unfold en_len, SIZEOF_DIRENT in *; lia).
    set (e1 := Entry (en_inode e) (en_type e) (en_name e) (take k (en_pad e))).
    set (e2 := Entry ino type name (replicate (Z.to_nat dlen - 8 - length name) 0 ++ drop (k + Z.to_nat dlen) (en_pad e))).
    assert (en_len e1 = nl) as E1 by (unfold en_len, SIZEOF_DIRENT; cbn [en_name en_pad e1]; rewrite length_take; unfold k; lia).
    assert (en_len e2 = en_len e - nl) as E2.
    { unfold en_len at 1, SIZEOF_DIRENT. cbn [en_name en_pad e2]. rewrite length_app, length_replicate, length_drop. unfold k. lia. }
    split; [| split; [| split]].
    + assert (entry_ok e1) by (split; [done | lia | done | intros _; apply He; by apply nz_true in El]).
      assert (entry_ok e2) by (split; [cbn [en_inode e2]; lia | lia | done | done]).
      by apply Forall_cons_2, Forall_cons_2, Forall_nil_2.
    + assert (packed e1) by (intros _; rewrite E1; done). assert (packed e2) by (intros _; rewrite E2; cbn [en_name e2]; lia).
      by apply Forall_cons_2, Forall_cons_2, Forall_nil_2.
    + intros x [= <-]. cbn [en_pad e2]. destruct (Z.to_nat dlen - 8 - length name)%nat eqn:E; [lia | done].
    + rewrite !dir_bytes_cons, !length_app. pose proof (length_encode e1). pose proof (length_encode e2).
      change (dir_bytes []) with (@nil Z). cbn [length]. lia.
  - set (e2 := Entry ino type name (drop (length name) (en_name e ++ en_pad e))).
    assert (en_len e = 8 + Z.of_nat (length (en_name e ++ en_pad e))) as Ee by (unfold en_len, SIZEOF_DIRENT; rewrite length_app; lia).
    assert (en_len e2 = en_len e) as E2.
    { unfold en_len at 1, SIZEOF_DIRENT. cbn [en_name en_pad e2]. rewrite length_drop. lia. }
    split; [| split; [| split]].
    + assert (entry_ok e2) by (split; [cbn [en_inode e2]; lia | lia | done | done]). by apply Forall_cons_2, Forall_nil_2.
    + assert (packed e2) by (intros _; rewrite E2; cbn [en_name e2]; lia). by apply Forall_cons_2, Forall_nil_2.
    + intros x [= <-]. cbn [en_pad e2]. intros E%(f_equal length). rewrite length_drop in E. simpl in E. lia.
    + rewrite !dir_bytes_cons, !length_app. pose proof (length_encode e2). change (dir_bytes []) with (@nil Z).
      cbn [length]. lia.
Qed.

Lemma add_dir es ino type name pre e post :
  dir_ok es -> Forall packed es -> 0 < ino < 2 ^ 32 -> name_ok name ->
  first_room es (dlen_of name) = Some (pre, e, post) ->
  let es' := pre ++ add_entry e ino type name (dlen_of name) ++ post in
  dir_ok es' /\ Forall packed es' /\ length (dir_bytes es') = length (dir_bytes es) /\
  ('(p, recycled) ← add_scan (S (length (dir_bytes es))) (dir_bytes es) (Z.of_nat (length (dir_bytes es))) (dlen_of name) 0 false;
   add_bytes (dir_bytes es) p (dlen_of name) recycled ino name type) = Ret (dir_bytes es').
Proof.
  intros [Hok Hlast] Hp Hi Hn Hroom es'. destruct (first_room_split _ _ _ _ _ Hroom) as [Ees Hr].
  pose proof (add_scan_spec es (S (length (dir_bytes es))) (dlen_of name) [] false pre e post Hok Hp) as Hscan.
  pose proof (length_dir_bytes es). specialize (Hscan ltac:(lia) Hroom). cbn [app length Nat.add] in Hscan.
  change (Z.of_nat 0) with 0 in Hscan. rewrite Hscan, bind_Ret. clear Hscan.
  rewrite Ees in Hok, Hp, Hlast |- *. apply Forall_app in Hok as [Hok1 [He Hok2]%Forall_cons].
  apply Forall_app in Hp as [Hp1 [Hpe Hp2]%Forall_cons].
  destruct (add_entries_ok e ino type name He Hpe Hi Hn Hr) as (Ha1 & Ha2 & Ha3 & Ha4).
  split; [| split; [| split]].
  - split; [by apply Forall_app; split; [| apply Forall_app] |]. intros x. unfold es'.
    destruct post as [| x' post] using rev_ind.
    + rewrite app_nil_r. rewrite last_app. destruct (last (add_entry _ _ _ _ _)) as [y |] eqn:Ey; [intros [= <-]; by apply Ha3 |].
      apply last_None in Ey. unfold add_entry in Ey. by destruct (live e).
    + rewrite !app_assoc, last_snoc. intros [= <-]. apply Hlast. by rewrite app_comm_cons, !app_assoc, last_snoc.
  - by apply Forall_app; split; [| apply Forall_app].
  - unfold es'. rewrite !dir_bytes_app, dir_bytes_cons, !length_app. pose proof (length_encode e). lia.
  - rewrite dir_bytes_app, dir_bytes_cons. unfold es'. rewrite !dir_bytes_app. destruct Hn as [Hn Hl].
    destruct (live e) eqn:El; [by apply add_bytes_split | by apply add_bytes_recycled].
Qed.

(** * Removing a record *)

Lemma load_len pre e post p :
  entry_ok e -> p = Z.of_nat (length pre) + 4 -> load_le 2 (pre ++ encode e ++ post) p = Ret (en_len e).
Proof.
  intros He ->. unfold encode. rewrite <- !app_assoc, (app_assoc pre). pose proof (en_len_pos e). pose proof (eo_len _ He).
  apply load_le_mid; [rewrite length_app, length_le_bytes; lia |]. change (8 * Z.of_nat 2) with 16. lia.
Qed.

(** [e] with the inode number 0. *)
Definition erase e : entry := Entry 0 (en_type e) (en_name e) (en_pad e).

(** [e] takes over the record behind it. *)
Definition absorb e e' : entry := Entry (en_inode e) (en_type e) (en_name e) (en_pad e ++ encode e').

Definition rm_entry (pre : list entry) e (post : list entry) : list entry :=
  match last pre with
  | None => erase e :: post
  | Some p => removelast pre ++ absorb p (erase e) :: post
  end.

Lemma erase_ok e : entry_ok e -> entry_ok (erase e) /\ en_len (erase e) = en_len e.
Proof. intros [? ? ? ?]. split; [| done]. split; [simpl; lia | done | done | done]. Qed.

Lemma erase_store pre e post :
  store_bytes (pre ++ encode e ++ post) (Z.of_nat (length pre)) (le_bytes 4 0) = Ret (pre ++ encode (erase e) ++ post).
Proof.
  unfold encode. rewrite <- !app_assoc. rewrite store_bytes_mid by (rewrite ?length_le_bytes; done). done.
Qed.

(** The offset of the record before. *)
Definition prev_of (pre : list entry) : option Z :=
  match last pre with None => None | Some _ => Some (Z.of_nat (length (dir_bytes (removelast pre)))) end.

Lemma rm_bytes_spec pre e post :
  Forall entry_ok pre -> entry_ok e -> Z.of_nat (length (dir_bytes (pre ++ e :: post))) < 2 ^ 16 ->
  rm_bytes (dir_bytes (pre ++ e :: post)) (Z.of_nat (length (dir_bytes pre))) (prev_of pre) = Ret (dir_bytes (rm_entry pre e post)).
Proof.
  intros Hpre He Hsz. rewrite dir_bytes_app, dir_bytes_cons in *. unfold rm_bytes. rewrite erase_store, bind_Ret.
  destruct (erase_ok e He) as [He0 El]. unfold prev_of, rm_entry.
  destruct (last pre) as [p |] eqn:Ep.
  2: { apply last_None in Ep as ->. done. }
  apply last_Some in Ep as [pre0 ->]. rewrite removelast_last. apply Forall_app in Hpre as [_ [Hp _]%Forall_cons].
  rewrite dir_bytes_app in *. change (dir_bytes [p]) with (encode p ++ []) in *. rewrite app_nil_r in *.
  rewrite (load_len _ _ _ (Z.of_nat (length (dir_bytes pre0 ++ encode p)) + 4) He0 eq_refl).
  rewrite bind_Ret, <- app_assoc, load_len by done. rewrite bind_Ret, El.
  rewrite !length_app in Hsz. pose proof (length_encode p). pose proof (length_encode e). pose proof (en_len_pos p). pose proof (en_len_pos e).
  assert (u16 (en_len p + en_len e) = en_len p + en_len e) as -> by (apply Z.mod_small; lia).
  unfold encode at 1. rewrite <- !app_assoc, (app_assoc (dir_bytes pre0)).
  rewrite store_bytes_mid by (rewrite ?length_app, ?length_le_bytes; lia).
  rewrite dir_bytes_app, dir_bytes_cons. unfold encode at 2. cbn [absorb en_inode en_type en_name en_pad].
  assert (en_len (absorb p (erase e)) = en_len p + en_len e) as ->.
  { unfold en_len at 1. cbn [absorb en_name en_pad]. rewrite length_app, Nat2Z.inj_add, length_encode, El. unfold en_len. lia. }
  by rewrite <- !app_assoc.
Qed.

(** No two live records have the same name. *)
Definition names_unique es : Prop := NoDup (en_name <$> filter (fun x => live x = true) es).

Lemma dir_find_None es name : name ∉ (en_name <$> filter (fun x => live x = true) es) <-> dir_find es name = None.
Proof.
  induction es as [| e es IH]; [split; [done | intros _ []%not_elem_of_nil] |]. rewrite filter_cons. cbn [dir_find].
  destruct (live e) eqn:El.
  - rewrite decide_True, fmap_cons, not_elem_of_cons by done. case_bool_decide as En; simpl; [| naive_solver].
    split; [by intros [[] _] | done].
  - by rewrite decide_False.
Qed.

Lemma dir_find_erase e es name : dir_find (erase e :: es) name = dir_find es name.
Proof. done. Qed.

Lemma dir_lookup_absorb pre e e' es name :
  dir_lookup (pre ++ absorb e e' :: es) name = dir_lookup (pre ++ e :: es) name.
Proof.
  unfold dir_lookup. rewrite !dir_find_app. destruct (dir_find pre name); [done |]. cbn [dir_find].
  change (live (absorb e e')) with (live e). cbn [absorb en_name]. by destruct (live e && _).
Qed.

Lemma rm_lookup pre e post n :
  names_unique (pre ++ e :: post) -> live e = true ->
  dir_lookup (rm_entry pre e post) n = if decide (n = en_name e) then None else dir_lookup (pre ++ e :: post) n.
Proof.
  intros Hu Hl. unfold names_unique in Hu. rewrite filter_app, filter_cons, decide_True, fmap_app, fmap_cons in Hu by done.
  apply NoDup_app in Hu as (_ & Hd & [Hpost _]%NoDup_cons). apply dir_find_None in Hpost.
  assert (dir_find pre (en_name e) = None) as Hpre.
  { apply dir_find_None. intros Hin. apply (Hd _ Hin). by left. }
  assert (dir_lookup (rm_entry pre e post) n = dir_lookup (pre ++ post) n) as ->.
  { unfold rm_entry. destruct (last pre) as [p |] eqn:Ep; [| by apply last_None in Ep as ->].
    apply last_Some in Ep as [pre0 ->]. by rewrite removelast_last, dir_lookup_absorb, <- app_assoc. }
  unfold dir_lookup. rewrite !dir_find_app. cbn [dir_find]. rewrite Hl. cbn [andb].
  destruct (decide (n = en_name e)) as [-> | Hn]; [by rewrite Hpre, Hpost |].
  destruct (dir_find pre n); [done |]. by rewrite bool_decide_eq_false_2.
Qed.

(** A record found is somewhere in the directory, and none before it matches. *)
Lemma dir_find_split es name e :
  dir_find es name = Some e -> exists pre post, es = pre ++ e :: post /\ live e = true /\ en_name e = name /\ dir_find pre name = None.
Proof.
  induction es as [| x es IH]; [done |]. cbn [dir_find]. destruct (live x && bool_decide (en_name x = name)) eqn:E.
  - intros [= <-]. apply andb_prop in E as [? ?%bool_decide_eq_true_1]. by exists [], es.
  - intros Hf. destruct (IH Hf) as (pre & post & -> & ? & ? & ?). exists (x :: pre), post. cbn [dir_find]. by rewrite E.
Qed.

(** The bytes are bytes, and the last one is a NUL: [strndup] reads up to the
    next one. *)
Definition terminated (b : list Z) : Prop := bytes_ok b /\ last b = Some 0.

Lemma first_nul (l : list Z) : 0 ∈ l -> exists l1 l2, l = l1 ++ 0 :: l2 /\ Forall (fun c => c <> 0) l1.
Proof.
  induction l as [| c l IH]; intros Hin; [by apply not_elem_of_nil in Hin |].
  destruct (decide (c = 0)) as [-> | Hc]; [by exists [], l |].
  apply elem_of_cons in Hin as [? | Hin]; [done |]. destruct (IH Hin) as (l1 & l2 & -> & Hl). exists (c :: l1), l2. split; [done |]. by constructor.
Qed.

Lemma strndup_name `{FreshMemory} (b : list Z) p name rest :
  terminated b -> 0 <= p -> drop (Z.to_nat p) b = name ++ rest -> rest <> [] -> Forall (fun c => 0 < c < 256) name ->
  exists new, strndup (fresh (Z.of_nat (length name) + 1)) b p (Z.of_nat (length name)) = Ret new /\ cstr new 0 name.
Proof.
  intros [Hb Hlast] Hp Hd Hr Hn. assert (0 ∈ rest) as Hin.
  { apply last_Some in Hlast as [b0 ->]. destruct rest as [| x rest] using rev_ind; [done |].
    rewrite app_assoc in Hd. destruct (decide (Z.to_nat p <= length b0)%nat) as [Hle | Hgt].
    - rewrite drop_app_le in Hd by done. apply app_inj_tail in Hd as [_ <-]. apply elem_of_app. right. by left.
    - rewrite drop_ge in Hd by (rewrite length_app; simpl; lia). by destruct (app_cons_not_nil (name ++ rest) [] x). }
  destruct (first_nul rest Hin) as (l1 & l2 & -> & Hl1).
  assert (cstr b p (name ++ l1)) as Hc.
  { split; [done |]. split; [| exists l2; by rewrite Hd, <- app_assoc].
    apply Forall_app. split; [done |]. assert (Forall (fun c => 0 <= c < 256) l1) as Hl1b.
    { apply (Forall_drop _ (Z.to_nat p)) in Hb. rewrite Hd in Hb. apply Forall_app in Hb as [_ Hb]. by apply Forall_app in Hb as [? _]. }
    rewrite Forall_forall in *. intros x Hx. specialize (Hl1 x Hx). specialize (Hl1b x Hx). simpl in *. lia. }
  destruct (strlcpy_copies (fresh (Z.of_nat (length name) + 1)) 0 b p (Z.of_nat (length name) + 1) _ Hc) as (dst & E & _ & Hdst & _);
    [lia | done | rewrite fresh_length; lia |].
  unfold strndup. rewrite E, bind_Ret. exists dst. split; [done |].
  replace (Z.to_nat (Z.of_nat (length name) + 1 - 1)) with (length name) in Hdst by lia. by rewrite take_app_length in Hdst.
Qed.

Lemma name_drop pre e post :
  drop (Z.to_nat (Z.of_nat (length pre) + SIZEOF_DIRENT)) (pre ++ encode e ++ post) = en_name e ++ en_pad e ++ post.
Proof.
  unfold encode, SIZEOF_DIRENT.
  replace (pre ++ (le_bytes 4 (en_inode e) ++ le_bytes 2 (en_len e) ++
    [Z.of_nat (length (en_name e)); en_type e] ++ en_name e ++ en_pad e) ++ post)
    with ((pre ++ le_bytes 4 (en_inode e) ++ le_bytes 2 (en_len e) ++ [Z.of_nat (length (en_name e)); en_type e]) ++
      en_name e ++ en_pad e ++ post) by (by rewrite <- !app_assoc).
  rewrite drop_app_length'; [done |]. rewrite !length_app, !length_le_bytes. simpl. lia.
Qed.

Lemma rm_scan_step `{FreshMemory} fuel pre x post name prev :
  let b := dir_bytes (pre ++ x :: post) in
  let p := Z.of_nat (length (dir_bytes pre)) in
  dir_ok (pre ++ x :: post) -> terminated b -> path_ok name ->
  rm_scan (S fuel) b (Z.of_nat (length b)) name p prev =
    if live x && bool_decide (en_name x = name) then Ret (Some (p, prev))
    else rm_scan fuel b (Z.of_nat (length b)) name (Z.of_nat (length (dir_bytes (pre ++ [x])))) (Some p).
Proof.
  intros b p Hok Ht Hn. pose proof (dk_entries _ Hok) as [_ [Hx _]%Forall_cons]%Forall_app. pose proof (length_encode x) as Hlx.
  pose proof (en_len_pos x). assert (b = dir_bytes pre ++ encode x ++ dir_bytes post) as Eb
    by (unfold b; by rewrite dir_bytes_app, dir_bytes_cons).
  assert (Z.of_nat (length (dir_bytes (pre ++ [x]))) = p + en_len x) as ->.
  { rewrite dir_bytes_app, length_app, dir_bytes_cons, length_app. change (dir_bytes []) with (@nil Z). cbn [length]. lia. }
  cbn [rm_scan]. destruct (Z.ltb_spec p (Z.of_nat (length b))).
  2: { exfalso. rewrite Eb, !length_app in *. lia. }
  assert (dirent_at b p = Ret (the_dirent x)) as -> by (rewrite Eb; by apply dirent_at_encode).
  rewrite bind_Ret. cbn [the_dirent de_inode de_record_len de_name_len]. unfold live, nz.
  destruct (Z.eqb_spec (en_inode x) 0) as [E | E]; [done |]. simpl negb. cbn [andb].
  destruct (strndup_name b (p + SIZEOF_DIRENT) (en_name x) (en_pad x ++ dir_bytes post)) as (new & -> & Hnew).
  - done.
  - unfold SIZEOF_DIRENT. lia.
  - rewrite Eb. apply name_drop.
  - destruct post as [| y post].
    + assert (en_pad x <> []) by (apply Hok, last_snoc). by destruct (en_pad x).
    + intros [_ E']%app_nil. rewrite dir_bytes_cons in E'. apply app_nil in E' as [E' _]. by apply (f_equal length) in E'.
  - by apply Hx.
  - rewrite bind_Ret, (strcmp_spec _ _ _ _ name (en_name x)) by (done || by apply path_cstr). rewrite bind_Ret.
    case_bool_decide as En.
    + subst name. by rewrite (proj2 (cmp_str_0 _ _) eq_refl).
    + destruct (Z.eqb_spec (cmp_str name (en_name x)) 0) as [E' | E']; [by apply cmp_str_0 in E' | done].
Qed.

Lemma rm_scan_spec `{FreshMemory} es1 fuel pre prev e post :
  let b := dir_bytes (pre ++ es1 ++ e :: post) in
  dir_ok (pre ++ es1 ++ e :: post) -> terminated b -> live e = true -> path_ok (en_name e) ->
  dir_find es1 (en_name e) = None -> (length es1 < fuel)%nat -> prev = prev_of pre ->
  rm_scan fuel b (Z.of_nat (length b)) (en_name e) (Z.of_nat (length (dir_bytes pre))) prev =
    Ret (Some (Z.of_nat (length (dir_bytes (pre ++ es1))), prev_of (pre ++ es1))).
Proof.
  revert fuel pre prev. induction es1 as [| x es1 IH]; intros fuel pre prev b Hok Ht Hl Hp Hno Hf ->;
    (destruct fuel as [| fuel]; [simpl in Hf; lia |]); unfold b; cbn [app] in *.
  - rewrite rm_scan_step by done. by rewrite Hl, bool_decide_eq_true_2, app_nil_r.
  - rewrite rm_scan_step by done. cbn [dir_find] in Hno. destruct (live x && _); [done |].
    assert (prev_of (pre ++ [x]) = Some (Z.of_nat (length (dir_bytes pre)))) as <-
      by (unfold prev_of; by rewrite last_snoc, removelast_last).
    specialize (IH fuel (pre ++ [x]) (prev_of (pre ++ [x]))). rewrite <- !app_assoc in IH. cbn [app] in IH.
    apply IH; try done. simpl in Hf. lia.
Qed.

Lemma absorb_ok p e :
  entry_ok p -> packed p -> en_len p + en_len e < 2 ^ 16 ->
  entry_ok (absorb p e) /\ packed (absorb p e) /\ en_len (absorb p e) = en_len p + en_len e /\ en_pad (absorb p e) <> [].
Proof.
  intros [Hi Hl Hn Hs] Hp Hsum. assert (en_len (absorb p e) = en_len p + en_len e) as E.
  { unfold en_len at 1. cbn [absorb en_name en_pad]. rewrite length_app, Nat2Z.inj_add, length_encode. unfold en_len. lia. }
  split; [by split; [| rewrite E | |] |]. split; [| split; [done |]].
  - intros Hlv. rewrite E. pose proof (en_len_pos e). specialize (Hp Hlv). cbn [absorb en_name]. lia.
  - intros [_ E2]%app_nil. by apply (f_equal length) in E2.
Qed.

Lemma rm_entry_ok pre e post :
  dir_ok (pre ++ e :: post) -> Forall packed (pre ++ e :: post) -> Z.of_nat (length (dir_bytes (pre ++ e :: post))) < 2 ^ 16 ->
  dir_ok (rm_entry pre e post) /\ Forall packed (rm_entry pre e post) /\
  length (dir_bytes (rm_entry pre e post)) = length (dir_bytes (pre ++ e :: post)).
Proof.
  intros [Hok Hlast] Hpk Hsz. apply Forall_app in Hok as [Hpre [He Hpost]%Forall_cons]. apply Forall_app in Hpk as [Hk1 [Hk2 Hk3]%Forall_cons].
  destruct (erase_ok e He) as [He0 El]. pose proof (length_encode e). pose proof (length_encode (erase e)).
  unfold rm_entry. destruct (last pre) as [p |] eqn:Ep.
  - apply last_Some in Ep as [pre0 ->]. rewrite removelast_last. apply Forall_app in Hpre as [Hpre [Hp _]%Forall_cons].
    apply Forall_app in Hk1 as [Hk0 [Hk1 _]%Forall_cons]. rewrite <- app_assoc in *. cbn [app] in *.
    rewrite !dir_bytes_app, !dir_bytes_cons, !length_app in *. pose proof (length_encode p).
    destruct (absorb_ok p (erase e) Hp Hk1 ltac:(lia)) as (Ha1 & Ha2 & Ha3 & Ha4). pose proof (length_encode (absorb p (erase e))).
    split; [split |].
    + apply Forall_app. split; [done |]. by constructor.
    + intros x Hx. destruct post as [| y post] using rev_ind; [rewrite last_snoc in Hx; by simplify_eq |].
      rewrite app_comm_cons, app_assoc, last_snoc in Hx. simplify_eq. apply Hlast. by rewrite !app_comm_cons, app_assoc, last_snoc.
    + split; [apply Forall_app; split; [done |]; by constructor | lia].
  - apply last_None in Ep as ->. cbn [app] in *. rewrite !dir_bytes_cons, !length_app in *. split; [split |].
    + by constructor.
    + intros x Hx. destruct post as [| y post]; [cbn in Hx; simplify_eq; by apply (Hlast e) |]. by apply Hlast.
    + split; [by constructor | lia].
Qed.

Lemma rm_dir `{FreshMemory} es name e :
  dir_ok es -> terminated (dir_bytes es) -> path_ok name -> names_unique es -> Z.of_nat (length (dir_bytes es)) < 2 ^ 16 ->
  Forall packed es -> dir_find es name = Some e ->
  exists es', dir_ok es' /\ Forall packed es' /\ length (dir_bytes es') = length (dir_bytes es) /\
    (forall n, dir_lookup es' n = if decide (n = name) then None else dir_lookup es n) /\
    (f ← rm_scan (S (length (dir_bytes es))) (dir_bytes es) (Z.of_nat (length (dir_bytes es))) name 0 None;
     match f with None => Fault | Some (p, prev) => rm_bytes (dir_bytes es) p prev end) = Ret (dir_bytes es').
Proof.
  intros Hok Ht Hp Hu Hsz Hpk Hfind. destruct (dir_find_split es name e Hfind) as (pre & post & -> & Hl & <- & Hno).
  pose proof (dk_entries _ Hok) as [Hpre [He Hpost]%Forall_cons]%Forall_app.
  exists (rm_entry pre e post). pose proof (rm_scan_spec pre (S (length (dir_bytes (pre ++ e :: post)))) [] None e post) as Hscan.
  cbn [app] in Hscan. pose proof (length_dir_bytes (pre ++ e :: post)) as Hlen. rewrite length_app in Hlen.
  specialize (Hscan Hok Ht Hl Hp Hno ltac:(lia) eq_refl). change (Z.of_nat (length (dir_bytes []))) with 0 in Hscan.
  rewrite Hscan, bind_Ret. destruct (rm_entry_ok pre e post Hok Hpk Hsz) as (H1 & H2 & H3).
  split; [done |]. split; [done |]. split; [done |]. split; [intros n; by apply rm_lookup | by apply rm_bytes_spec].
Qed.

Section DirSpec.
Context {D : Type} `{DiskLaws D} `{FreshMemory}.
Implicit Types (fs : ext2_fs) (d : D).

(** The file with this inode holds [data]: its blocks are on the device and have
    these bytes. *)
Record holds fs d (inode data : list Z) : Prop := {
  ho_fs : fs_ok fs;
  ho_tables : tables_ok fs d inode;
  ho_size : in_size inode = Z.of_nat (length data);
  ho_max : Z.of_nat (length data) < 2 ^ 30;
  ho_blocks : forall k, 0 <= k -> k * block_size fs < Z.of_nat (length data) -> block_ok fs d (bmap fs d inode k);
  ho_bytes : forall p, 0 <= p < Z.of_nat (length data) ->
    media fs d !! Z.to_nat (file_pos fs d inode p) = data !! Z.to_nat p;
}.

Lemma holds_read fs d inode data off len b :
  holds fs d inode data -> 0 <= off -> 0 <= len -> off + len <= Z.of_nat (length data) ->
  off mod block_size fs = 0 \/ len mod block_size fs <> 0 -> len <= Z.of_nat (length b) ->
  ext2_inode_data_rw fs d inode 0 off len b = Ret (Some (splice b 0 (bytes_at data off len)), inode, fs, d).
Proof.
  intros [Hf Ht Hs Hm Hb Hd] Ho Hl Hle Hfit Hlen. destruct (block_size_range fs Hf) as [Hbs _].
  destruct (inode_read_data fs d inode off len b Hf Ht Ho ltac:(lia) ltac:(lia) Hfit) as (b' & -> & Hl' & Hin & Hout).
  - intros i Hi. destruct (data_blocks_ceil fs off len Hf Ho ltac:(lia) Hfit) as (_ & _ & Hc & _).
    pose proof (Z.div_mod off (block_size fs) ltac:(lia)) as Hdm. pose proof (Z.div_pos off (block_size fs)).
    apply Hb; [lia |]. specialize (Hc ltac:(lia)).
    assert (i * block_size fs <= (data_blocks fs off len - 1) * block_size fs) by nia. nia.
  - done.
  - assert (length (bytes_at data off len) = Z.to_nat len) as Hlb by (apply length_bytes_at; lia).
    do 5 f_equal. apply list_eq. intros j. rewrite lookup_splice by lia. rewrite Hlb.
    case_decide as Hj.
    + rewrite lookup_bytes_at, decide_True by lia. replace j with (Z.to_nat (Z.of_nat j)) at 1 by lia.
      rewrite Hin by lia. rewrite Hd by lia. f_equal. lia.
    + apply Hout. lia.
Qed.

(** * Reading a directory *)

Section Readdir.
Context (fs : ext2_fs) (d : D) (inode data : list Z) (Hd : holds fs d inode data).

(** The buffer holds a part of the directory that starts before [offset]. *)
Definition rd_ok (r : rd_r) (offset : Z) : Prop :=
  length (rd_buf r) = Z.to_nat RD_BUF /\ 0 <= rd_read_len r <= RD_BUF /\
  (rd_read_len r <> 0 -> 0 <= rd_read_off r <= offset /\ window (rd_buf r) data (rd_read_off r) (rd_read_len r)).

(** The buffer has just been read from [offset] on. *)
Definition rd_fresh (r : rd_r) (offset : Z) : Prop :=
  rd_read_off r = offset /\ rd_read_len r = Z.min RD_BUF (Z.of_nat (length data) - offset).

Lemma readdir_fill_spec r offset :
  rd_ok r offset -> 0 <= offset < Z.of_nat (length data) ->
  exists r', readdir_fill fs d inode offset r = Ret (Some r', inode, fs, d) /\ rd_ok r' offset /\
    rd_read_len r' <> 0 /\
    (rd_fresh r' offset \/ offset - rd_read_off r' + SIZEOF_DIRENT < rd_read_len r') /\ (rd_read_len r = 0 -> rd_fresh r' offset).
Proof.
  intros (Hl & Hr & Hw) Ho. unfold readdir_fill. pose proof Hd as [Hf _ Hs Hm _ _].
  destruct (block_size_range fs Hf) as [Hbs _]. unfold RD_BUF in *. rewrite Hs.
  destruct (Z.leb_spec (rd_read_len r) (u64 (offset - rd_read_off r + SIZEOF_DIRENT))) as [Hge | Hlt].
  - destruct (Z.leb_spec (Z.of_nat (length data)) offset); [lia |].
    rewrite u64_small, MIN_spec, u32_small by lia. set (n := Z.min 512 (Z.of_nat (length data) - offset)).
    rewrite (holds_read fs d inode data) by (done || lia || (right; rewrite Z.mod_small; lia)).
    rewrite bind_Ret. eexists. split; [done |].
    assert (length (bytes_at data offset n) = Z.to_nat n) as Hlb by (apply length_bytes_at; lia).
    assert (rd_fresh (Rd (splice (rd_buf r) 0 (bytes_at data offset n)) n (u32 offset) (rd_last_len r)) offset) as Hfr.
    { split; simpl; [apply u32_small; lia |]. unfold RD_BUF. lia. }
    split; [| split; [simpl; lia | split; [by left | done]]].
    unfold rd_ok, RD_BUF. split; [simpl; rewrite length_splice; lia |]. split; [simpl; lia |]. intros _. simpl. rewrite u32_small by lia.
    split; [lia |]. split; [lia |]. split; [rewrite length_splice; lia |]. split; [lia |]. intros i Hi.
    rewrite lookup_splice by lia. rewrite decide_True by lia. rewrite lookup_bytes_at, decide_True by lia. f_equal. lia.
  - assert (rd_read_len r <> 0) as Hne.
    { intros E. rewrite E in Hlt. unfold u64 in Hlt. pose proof (Z.mod_pos_bound (offset - rd_read_off r + SIZEOF_DIRENT) (2 ^ 64)). lia. }
    destruct (Hw Hne) as [Hro Hwi]. unfold SIZEOF_DIRENT in *. rewrite u64_small in Hlt by lia.
    exists r. split; [done |]. split; [done |]. split; [done |]. split; [by right | done].
Qed.

Definition vfs_entry e : list Z := vfs_dirent (en_inode e) (en_type e) (en_name e).

(** Whether the loop goes on or returns after a record. *)
Definition after_entry (fuel : nat) e (offset : Z) (r : rd_r) : outcome (option (list Z) * Z * rd_r * list Z * ext2_fs * D) :=
  if live e then Ret (Some (vfs_entry e), offset, r, inode, fs, d) else readdir_loop fuel fs d inode offset r.

(** A pass that has the whole record in the buffer. *)
Lemma readdir_pass fuel r r' pre e es :
  data = pre ++ dir_bytes (e :: es) -> dir_ok (e :: es) ->
  readdir_fill fs d inode (Z.of_nat (length pre)) r = Ret (Some r', inode, fs, d) ->
  rd_ok r' (Z.of_nat (length pre)) -> rd_read_len r' <> 0 ->
  Z.of_nat (length pre) - rd_read_off r' + SIZEOF_DIRENT + Z.of_nat (length (en_name e)) < rd_read_len r' ->
  exists r2, rd_ok r2 (Z.of_nat (length pre) + en_len e) /\ rd_last_len r2 = en_len e /\
    readdir_loop (S fuel) fs d inode (Z.of_nat (length pre)) r = after_entry fuel e (Z.of_nat (length pre) + en_len e) r2.
Proof.
  intros Edata Hok Hfill (Hl & Hr & Hw) Hne Hfit. destruct (Hw Hne) as [Hro Hwi]. unfold SIZEOF_DIRENT, RD_BUF in *.
  set (o := Z.of_nat (length pre)) in *. pose proof (dk_entries _ Hok) as [He _]%Forall_cons. pose proof (en_len_pos e) as Hpos.
  assert (Z.of_nat (length data) < 2 ^ 30) as Hmax by apply Hd.
  assert (o + en_len e <= Z.of_nat (length data)) as Hend.
  { rewrite Edata, dir_bytes_cons, !length_app. pose proof (length_encode e). unfold o. lia. }
  cbn [readdir_loop]. rewrite Hfill, bind_Ret. rewrite (u64_small (o - rd_read_off r')) by lia.
  rewrite (window_dirent _ data (rd_read_off r') (rd_read_len r')) by (done || unfold SIZEOF_DIRENT; lia).
  replace (rd_read_off r' + (o - rd_read_off r')) with o by lia.
  assert (dirent_at data o = Ret (the_dirent e)) as -> by (rewrite Edata, dir_bytes_cons; by apply dirent_at_encode).
  rewrite bind_Ret. cbn [the_dirent de_name_len de_record_len de_inode de_type]. unfold SIZEOF_DIRENT. rewrite (u64_small (_ + 8 + _)) by lia.
  destruct (Z.leb_spec (rd_read_len r') (o - rd_read_off r' + 8 + Z.of_nat (length (en_name e)))); [lia |].
  rewrite (u64_small (o + en_len e)) by lia.
  eexists (Rd (rd_buf r') (rd_read_len r') (rd_read_off r') (en_len e)). split; [| split; [done |]].
  { split; [done |]. split; [done |]. intros _. simpl. split; [lia | done]. }
  unfold after_entry, live, nz. destruct (en_inode e =? 0); [done |]. simpl negb. cbn match.
  cbn [rd_buf]. rewrite (window_load _ data (rd_read_off r') (rd_read_len r')) by (done || lia).
  replace (rd_read_off r' + (o - rd_read_off r' + 8)) with (o + SIZEOF_DIRENT) by (unfold SIZEOF_DIRENT; lia).
  assert (load_bytes data (o + SIZEOF_DIRENT) (Z.of_nat (length (en_name e))) = Ret (en_name e)) as ->; [| done].
  rewrite Edata, dir_bytes_cons. apply name_in_encode.
Qed.

(** A record takes one pass, or two when the buffer ends in its name. *)
Lemma readdir_entry fuel r pre e es :
  data = pre ++ dir_bytes (e :: es) -> dir_ok (e :: es) -> rd_ok r (Z.of_nat (length pre)) ->
  exists r2 k, rd_ok r2 (Z.of_nat (length pre) + en_len e) /\ rd_last_len r2 = en_len e /\ (fuel <= k)%nat /\
    readdir_loop (S (S fuel)) fs d inode (Z.of_nat (length pre)) r = after_entry k e (Z.of_nat (length pre) + en_len e) r2.
Proof.
  intros Edata Hok Hr. set (o := Z.of_nat (length pre)) in *.
  pose proof (dir_ok_room e es Hok) as Hroom. pose proof (dk_entries _ Hok) as [He _]%Forall_cons.
  pose proof (eo_name_len _ He) as Hnl.
  assert (0 <= o < Z.of_nat (length data)) as Ho by (rewrite Edata, length_app; unfold o; lia).
  assert (forall r', rd_fresh r' o -> o - rd_read_off r' + SIZEOF_DIRENT + Z.of_nat (length (en_name e)) < rd_read_len r') as Hfresh.
  { intros r' [-> ->]. unfold SIZEOF_DIRENT, RD_BUF. rewrite Edata, length_app. fold o. unfold o in *. lia. }
  destruct (readdir_fill_spec r o Hr Ho) as (r1 & Hfill & Hr1 & Hne & Hcase & _).
  destruct (decide (o - rd_read_off r1 + SIZEOF_DIRENT + Z.of_nat (length (en_name e)) < rd_read_len r1)) as [Hfit | Hnofit].
  { destruct (readdir_pass (S fuel) r r1 pre e es Edata Hok Hfill Hr1 Hne Hfit) as (r2 & A1 & A2 & A3).
    exists r2, (S fuel). split; [done |]. split; [done |]. split; [lia | exact A3]. }
  destruct Hcase as [Hf | Hhead]; [by apply Hfresh in Hf |]. destruct Hr1 as (Hl1 & Hr1 & Hw1). destruct (Hw1 Hne) as [Hro Hwi].
  set (rz := Rd (rd_buf r1) 0 (rd_read_off r1) (rd_last_len r1)).
  assert (rd_ok rz o) as Hrz by (split; [done |]; split; [simpl; unfold RD_BUF; lia | done]).
  destruct (readdir_fill_spec rz o Hrz Ho) as (r3 & Hfill3 & Hr3 & Hne3 & _ & Hfr3). specialize (Hfr3 eq_refl).
  destruct (readdir_pass fuel rz r3 pre e es Edata Hok Hfill3 Hr3 Hne3 (Hfresh _ Hfr3)) as (r2 & A1 & A2 & A3).
  exists r2, fuel. split; [done |]. split; [done |]. split; [lia |]. fold o in A3. rewrite <- A3.
  assert (Z.of_nat (length data) < 2 ^ 30) as Hmax by apply Hd. unfold SIZEOF_DIRENT, RD_BUF in *.
  remember (S fuel) as n. cbn [readdir_loop]. rewrite Hfill, bind_Ret. rewrite (u64_small (o - rd_read_off r1)) by lia.
  rewrite (window_dirent _ data (rd_read_off r1) (rd_read_len r1)) by (done || unfold SIZEOF_DIRENT; lia).
  replace (rd_read_off r1 + (o - rd_read_off r1)) with o by lia.
  assert (dirent_at data o = Ret (the_dirent e)) as -> by (rewrite Edata, dir_bytes_cons; by apply dirent_at_encode).
  rewrite bind_Ret. cbn [the_dirent de_name_len de_record_len de_inode de_type]. unfold SIZEOF_DIRENT. rewrite (u64_small (_ + 8 + _)) by lia.
  destruct (Z.leb_spec (rd_read_len r1) (o - rd_read_off r1 + 8 + Z.of_nat (length (en_name e)))); [| lia]. done.
Qed.

(** The first live record and those behind it. *)
Fixpoint next_live es : option (entry * list entry) :=
  match es with
  | [] => None
  | e :: es => if live e then Some (e, es) else next_live es
  end.

Lemma readdir_end fuel r : rd_ok r (Z.of_nat (length data)) ->
  readdir_loop (S fuel) fs d inode (Z.of_nat (length data)) r = Ret (None, Z.of_nat (length data), r, inode, fs, d).
Proof.
  intros (Hl & Hr & Hw). cbn [readdir_loop]. unfold readdir_fill. pose proof Hd as [_ _ Hs Hm _ _].
  destruct (Z.leb_spec (rd_read_len r) (u64 (Z.of_nat (length data) - rd_read_off r + SIZEOF_DIRENT))) as [Hge | Hlt].
  - rewrite Hs, Z.leb_refl, bind_Ret. done.
  - exfalso. assert (rd_read_len r <> 0) as Hne.
    { intros E. rewrite E in Hlt. unfold u64 in Hlt.
      pose proof (Z.mod_pos_bound (Z.of_nat (length data) - rd_read_off r + SIZEOF_DIRENT) (2 ^ 64)). lia. }
    destruct (Hw Hne) as [Hro (_ & _ & Hwi & _)]. unfold SIZEOF_DIRENT in *. rewrite u64_small in Hlt by lia. lia.
Qed.

(** The next live record, or the end. *)
Lemma readdir_spec es fuel r pre :
  data = pre ++ dir_bytes es -> dir_ok es -> rd_ok r (Z.of_nat (length pre)) -> (2 * length es < fuel)%nat ->
  match next_live es with
  | None => exists r', readdir_loop fuel fs d inode (Z.of_nat (length pre)) r =
      Ret (None, Z.of_nat (length data), r', inode, fs, d)
  | Some (e, es') => exists r' pre', data = pre' ++ dir_bytes es' /\ rd_ok r' (Z.of_nat (length pre')) /\
      rd_last_len r' = en_len e /\ 
      readdir_loop fuel fs d inode (Z.of_nat (length pre)) r =
      Ret (Some (vfs_entry e), Z.of_nat (length pre'), r', inode, fs, d)
  end.
Proof.
  revert fuel r pre. induction es as [| e es IH]; intros fuel r pre Edata Hok Hr Hfuel.
  - cbn [next_live dir_bytes map concat] in *. rewrite app_nil_r in Edata. rewrite <- Edata in *.
    destruct fuel; [simpl in Hfuel; lia |]. exists r. by apply readdir_end.
  - destruct fuel as [| [| fuel]]; [simpl in Hfuel; lia | simpl in Hfuel; lia |].
    destruct (readdir_entry fuel r pre e es Edata Hok Hr) as (r2 & k & Hr2 & Hlast & Hk & ->). unfold after_entry.
    replace (Z.of_nat (length pre) + en_len e) with (Z.of_nat (length (pre ++ encode e))) in *
      by (rewrite length_app, <- length_encode; lia).
    rewrite dir_bytes_cons, app_assoc in Edata. cbn [next_live]. destruct (live e).
    + by exists r2, (pre ++ encode e).
    + apply IH; [done | by apply dir_ok_tail in Hok | done | simpl in Hfuel; lia].
Qed.

Lemma next_live_spec es :
  match next_live es with
  | None => forall name, dir_find es name = None
  | Some (e, es') => live e = true /\ (length es' < length es)%nat /\ (dir_ok es -> dir_ok es' /\ entry_ok e) /\
      forall name, dir_find es name = if bool_decide (en_name e = name) then Some e else dir_find es' name
  end.
Proof.
  induction es as [| e es IH]; [done |]. cbn [next_live dir_find]. destruct (live e) eqn:El.
  - split; [done |]. split; [simpl; lia |]. split; [| done]. intros Hok. split; [by apply dir_ok_tail in Hok |].
    apply dk_entries, Forall_cons in Hok. tauto.
  - destruct (next_live es) as [[e' es'] |]; [| done]. destruct IH as (? & ? & Hok & ?).
    split; [done |]. split; [simpl; lia |]. split; [| done]. intros Hok'. by apply Hok, (dir_ok_tail e).
Qed.

Lemma length_vfs_entry e : Z.of_nat (length (vfs_entry e)) = 14 + Z.of_nat (length (en_name e)).
Proof. unfold vfs_entry, vfs_dirent. rewrite !length_app, !length_le_bytes. simpl. lia. Qed.

Lemma vfs_entry_name e : Forall (fun c => 0 < c < 256) (en_name e) -> cstr (vfs_entry e) D_NAME (en_name e).
Proof.
  intros Hn. split; [done |]. split; [done |]. exists [0; 0]. unfold vfs_entry, vfs_dirent.
  rewrite !app_assoc. rewrite <- (app_assoc (_ ++ _) (en_name e)).
  assert (Z.to_nat D_NAME = length (((le_bytes 4 (en_inode e) ++ le_bytes 4 0) ++
    le_bytes 2 (SIZEOF_VFS_DIRENT + Z.of_nat (length (en_name e)) + 2)) ++ [en_type e])) as ->
    by (rewrite !length_app, !length_le_bytes; done).
  by rewrite drop_app_length.
Qed.

Lemma vfs_entry_reclen e : (length (en_name e) < 256)%nat -> d_reclen (vfs_entry e) = 14 + Z.of_nat (length (en_name e)).
Proof.
  intros Hn. unfold d_reclen, u16_at, vfs_entry, vfs_dirent, SIZEOF_VFS_DIRENT.
  set (n := 12 + Z.of_nat (length (en_name e)) + 2). cbn [le_bytes app le_at].
  change (Z.to_nat 8) with 8%nat. change (Z.to_nat (8 + 1)) with 9%nat. simpl lookup. unfold default. simpl.
  rewrite (Z.mod_small (n / 256)).
  - change (2 ^ 8) with 256. pose proof (Z.div_mod n 256). lia.
  - change (2 ^ 8) with 256. split; [apply Z.div_pos; lia | apply Z.div_lt_upper_bound; lia].
Qed.

(** Searching gives the first live record with the name. *)
Lemma search_loop_spec es fuel r pre pb q name :
  data = pre ++ dir_bytes es -> dir_ok es -> rd_ok r (Z.of_nat (length pre)) -> (length es < fuel)%nat ->
  cstr pb q name ->
  search_loop fuel fs d inode (Z.of_nat (length pre)) r pb q = Ret (vfs_entry <$> dir_find es name, inode, fs, d).
Proof.
  revert es r pre. induction fuel as [| fuel IH]; intros es r pre Edata Hok Hr Hfuel Hname; [lia |].
  cbn [search_loop]. unfold ext2_readdir_r.
  assert (2 * length es < readdir_fuel inode)%nat as Hrf.
  { unfold readdir_fuel. rewrite (ho_size _ _ _ _ Hd), Edata, length_app.
    pose proof (length_dir_bytes es). lia. }
  pose proof (readdir_spec es (readdir_fuel inode) r pre Edata Hok Hr Hrf) as Hs. pose proof (next_live_spec es) as Hn.
  destruct (next_live es) as [[e es'] |].
  - destruct Hs as (r' & pre' & Edata' & Hr' & _ & ->). destruct Hn as (Hl & Hlen & Hok' & Hfind).
    destruct (Hok' Hok) as [Hok1 He]. apply nz_true in Hl. pose proof (eo_name _ He Hl) as Hstr. rewrite bind_Ret.
    rewrite (strcmp_spec _ _ _ _ (en_name e) name) by (done || by apply vfs_entry_name). rewrite bind_Ret, Hfind.
    destruct (Z.eqb_spec (cmp_str (en_name e) name) 0) as [E | E].
    + apply cmp_str_0 in E. rewrite bool_decide_eq_true_2 by done.
      rewrite vfs_entry_reclen by apply He. rewrite <- length_vfs_entry.
      by rewrite load_bytes_all.
    + rewrite bool_decide_eq_false_2; [| intros E'; by apply cmp_str_0 in E']. apply IH; try done. lia.
  - destruct Hs as (r' & ->). rewrite bind_Ret, Hn. done.
Qed.

Lemma search_dir_spec es pb q name :
  data = dir_bytes es -> dir_ok es -> cstr pb q name ->
  search_dir fs d inode pb q = Ret (vfs_entry <$> dir_find es name, inode, fs, d).
Proof.
  intros Edata Hok Hname. unfold search_dir. apply (search_loop_spec es _ _ []); try done.
  rewrite (ho_size _ _ _ _ Hd), Edata. pose proof (length_dir_bytes es). lia.
Qed.

End Readdir.

(** * Writing a file of direct blocks *)

Lemma base_nonneg fs : fs_ok fs -> 0 <= base_of fs.
Proof. intros [[_ ?] _]. unfold base_of, dev_base. lia. Qed.

Lemma blocks_apart k k' s : 0 < s -> k <> k' -> k * s + s <= k' * s \/ k' * s + s <= k * s.
Proof. intros Hs Hk. destruct (Z.lt_total k k') as [? | [? | ?]]; nia. Qed.

Section Write.
Context (fs : ext2_fs) (d : D) (inode : list Z) (ino : Z) (b : list Z).
Let bs := block_size fs.
Let size := Z.of_nat (length b).
Let nb := data_blocks fs 0 size.
Context (Hf : fs_ok fs) (Hino : ino <> 0) (Hsize : size <= 12 * bs).
Context (Hblocks : forall k, 0 <= k < nb -> block_ok fs d (in_block inode k)).
Context (Hdist : forall k k', 0 <= k < nb -> 0 <= k' < nb -> in_block inode k = in_block inode k' -> k = k').

Lemma write_numbers : 1024 <= bs <= 65536 /\ 0 <= size /\ 0 <= nb <= 12 /\ size <= nb * bs /\ (0 < nb -> (nb - 1) * bs < size).
Proof.
  destruct (block_size_range fs Hf) as [Hb _]. fold bs in Hb.
  destruct (data_blocks_ceil fs 0 size Hf) as (H1' & H2' & H3' & _);
    [lia | lia | left; apply Zmod_0_l |]. rewrite Zmod_0_l in H2', H3'. fold nb bs in H1', H2', H3'. nia.
Qed.

(** The first [n] bytes have been written, and nothing outside the blocks. *)
Record written (d' : D) (n : Z) : Prop := {
  wr_length : length (media fs d') = length (media fs d);
  wr_bytes : forall p, 0 <= p < n -> p < size ->
    media fs d' !! Z.to_nat (base_of fs + in_block inode (p / bs) * bs + p mod bs) = b !! Z.to_nat p;
  wr_other : forall q, (forall k, 0 <= k < nb -> ~ (base_of fs + in_block inode k * bs <= Z.of_nat q < base_of fs + (in_block inode k + 1) * bs)) ->
    media fs d' !! q = media fs d !! q;
}.

Lemma written_block_ok d' n k : written d' n -> 0 <= k < nb -> block_ok fs d' (in_block inode k).
Proof. intros [Hl _ _] Hk. destruct (Hblocks k Hk) as (? & ? & ?). unfold block_ok. by rewrite Hl. Qed.

(** One pass: block [i] gets its part of the buffer. *)
Lemma written_step d1 d2 i :
  written d1 (i * bs) -> 0 <= i < nb ->
  let n := Z.min bs (size - i * bs) in
  media fs d2 = splice (media fs d1) (base_of fs + in_block inode i * bs) (bytes_at b (i * bs) n) ->
  written d2 ((i + 1) * bs).
Proof.
  intros Hw Hi n E. destruct write_numbers as (Hb & Hs & Hn & Hn1 & Hn2). pose proof (base_nonneg fs Hf) as Hbase.
  assert (i * bs < size) as His by nia. destruct (written_block_ok _ _ _ Hw Hi) as (Hk & Hm & Hfit). fold bs in Hm, Hfit.
  destruct Hw as [Hlen Hbytes Hother]. set (kb := in_block inode i) in *.
  assert (length (bytes_at b (i * bs) n) = Z.to_nat n) as Hlb by (apply length_bytes_at; unfold size in *; lia).
  assert (0 <= kb * bs) by nia. split.
  - rewrite E, length_splice by nia. done.
  - intros p Hp Hps. rewrite E, lookup_splice by nia. rewrite Hlb.
    pose proof (Z.div_mod p bs ltac:(lia)) as Hdm. pose proof (Z.mod_pos_bound p bs ltac:(lia)) as Hmod.
    destruct (decide (i * bs <= p)) as [Hge | Hlt].
    + assert (p / bs = i) as Hq by (symmetry; apply (Z.div_unique_pos _ _ _ (p - i * bs)); lia). rewrite Hq in *. fold kb.
      rewrite decide_True by lia. rewrite lookup_bytes_at, decide_True by lia. f_equal. lia.
    + assert (0 <= p / bs < i) as Hq by (split; [apply Z.div_pos; lia | apply Z.div_lt_upper_bound; lia]).
      destruct (Hblocks (p / bs) ltac:(lia)) as (Hk' & _).
      assert (in_block inode (p / bs) <> kb) as Hne by (intros Ek; apply Hdist in Ek; lia).
      rewrite decide_False.
      * apply Hbytes; lia.
      * pose proof (blocks_apart _ _ bs ltac:(lia) Hne). assert (0 <= in_block inode (p / bs) * bs) by (apply Z.mul_nonneg_nonneg; lia). lia.
  - intros q Hq. rewrite E, lookup_splice by nia. rewrite Hlb. specialize (Hq i Hi) as Hqi. fold kb in Hqi.
    rewrite decide_False by nia. by apply Hother.
Qed.

Lemma write_loop fuel d1 i c :
  written d1 (i * bs) -> 0 <= i <= nb -> nb - i < Z.of_nat fuel ->
  exists d2, data_loop fuel fs d1 inode ino 0 size nb b c i (Z.min size (i * bs)) = Ret (Some b, inode, fs, d2) /\ written d2 (nb * bs).
Proof.
  revert d1 i. induction fuel as [| fuel IH]; intros d1 i Hw Hi Hfu; [lia |]. cbn [data_loop].
  destruct (Z.ltb_spec i nb) as [Hlt |]; [| assert (i = nb) as -> by lia; by exists d1].
  destruct write_numbers as (Hb & Hs & Hn & Hn1 & Hn2). assert (i * bs < size) as His by nia.
  pose proof (written_block_ok _ _ i Hw ltac:(lia)) as Hk. pose proof Hk as (Hk0 & Hkm & Hkf). fold bs in Hkm, Hkf.
  set (kb := in_block inode i) in *. unfold data_block, bl_size, bl_mod. rewrite Zdiv_0_l, Z.add_0_r, (u32_small i) by lia.
  unfold ext2_resolve_blocknum at 1. destruct (Z.ltb_spec i 12); [| lia]. rewrite bind_Ret. fold kb.
  rewrite (proj2 (nz_true kb)) by lia. rewrite bind_Ret, Zmod_0_l.
  assert ((if i =? 0 then 0 else 0) = 0) as -> by (by destruct (i =? 0)).
  rewrite (bl_off_block _ _ _ Hf Hk), (bl_off_1 _ Hf). fold bs. rewrite Z.add_0_r, Z.sub_0_r.
  assert (0 <= kb * bs < 2 ^ 38) as Hkb by nia. rewrite (u64_small (kb * bs)), (u64_small bs) by lia.
  rewrite Z.min_r, (u32_small (size - i * bs)) by lia.
  assert ((if size - i * bs <? bs then size - i * bs else bs) = Z.min bs (size - i * bs)) as ->
    by (destruct (Z.ltb_spec (size - i * bs) bs); lia).
  set (n := Z.min bs (size - i * bs)). rewrite (proj2 (nz_true ino) Hino).
  assert (length (bytes_at b (i * bs) n) = Z.to_nat n) as Hlb by (apply length_bytes_at; unfold size in *; lia).
  pose proof (block_in_device fs d1 kb 0 n Hf Hk ltac:(lia) ltac:(lia)) as Hin. fold bs in Hin. specialize (Hin ltac:(lia)).
  rewrite Z.add_0_r in Hin.
  destruct (vfs_block_swrite_spec (fs_dev fs) d1 (kb * bs) n (bytes_at b (i * bs) n) (fo_dev _ Hf) Hin) as (d2 & -> & Hd2); [lia |].
  rewrite !bind_Ret. unfold too_short. rewrite s32_small, u64_small, Z.ltb_irrefl by lia.
  rewrite (u32_small (i * bs + n)) by nia. replace (i * bs + n) with (Z.min size ((i + 1) * bs)) by nia.
  apply IH; [| lia | lia]. apply (written_step d1 d2 i Hw); [lia | exact Hd2].
Qed.

Lemma write_direct :
  exists d', ext2_inode_data_rw fs d inode ino 0 size b = Ret (Some b, inode, fs, d') /\ written d' size.
Proof.
  destruct write_numbers as (Hb & Hs & Hn & Hn1 & Hn2).
  destruct (write_loop (S (Z.to_nat nb)) d 0 empty_cache) as (d' & E & Hw).
  - split; [done | lia | done].
  - lia.
  - lia.
  - exists d'. split.
    + unfold ext2_inode_data_rw. fold nb. rewrite Z.mul_0_l, Z.min_r in E by lia. exact E.
    + destruct Hw as [? Hby ?]. split; [done | | done]. intros p Hp Hps. apply Hby; lia.
Qed.

End Write.

(** * Inodes *)

(** The buffers of the inode cache and of the root inode have their size. *)
Record cache_wf fs : Prop := {
  cw_size : SIZEOF_INODE <= sb_inode_size (fs_superblock fs) < 2 ^ 16;
  cw_root : forall r, fs_root_inode fs = Some r -> Z.of_nat (length r) = sb_inode_size (fs_superblock fs);
  cw_entries : Forall (fun x => length (snd x) = Z.to_nat SIZEOF_INODE) (fs_inode_cache fs);
  cw_length : Z.of_nat (length (fs_inode_cache fs)) = INODE_CACHE_MAX;
  cw_end : 0 <= fs_inode_cache_end fs < INODE_CACHE_MAX;
}.

(** The same file system, up to what is cached. *)
Definition same_fs fs fs' : Prop :=
  fs_dev fs' = fs_dev fs /\ fs_superblock fs' = fs_superblock fs /\ fs_blockgroup_table fs' = fs_blockgroup_table fs.

(** The inode is at [off] of the device. *)
Definition inode_place fs d (num off : Z) : Prop :=
  find_inode fs num = Ret off /\ off <> 0 /\ in_device (fs_dev fs) d off (sb_inode_size (fs_superblock fs)).

Lemma same_fs_refl fs : same_fs fs fs.
Proof. done. Qed.

Lemma same_fs_trans fs fs1 fs2 : same_fs fs fs1 -> same_fs fs1 fs2 -> same_fs fs fs2.
Proof. unfold same_fs. intros (-> & -> & ->). done. Qed.

Lemma same_fs_holds fs fs' d inode data : same_fs fs fs' -> holds fs d inode data -> holds fs' d inode data.
Proof.
  destruct fs as [dev sb bg r c e], fs' as [dev' sb' bg' r' c' e']. intros (E1 & E2 & E3). simpl in *. subst.
  intros [H1' H2' H3' H4' H5' H6']. split; [by destruct H1' | by destruct H2' | done | done | exact H5' | exact H6'].
Qed.

Lemma same_fs_place fs fs' d num off : same_fs fs fs' -> inode_place fs d num off -> inode_place fs' d num off.
Proof.
  destruct fs as [dev sb bg r c e], fs' as [dev' sb' bg' r' c' e']. intros (E1 & E2 & E3). simpl in *. subst. done.
Qed.

Lemma copy_front_spec (dst src : list Z) n :
  0 <= n -> n <= Z.of_nat (length dst) -> n <= Z.of_nat (length src) ->
  exists r, copy_front dst src n = Ret r /\ length r = length dst.
Proof.
  intros Hn Hd Hs. unfold copy_front. destruct (Z.leb_spec n (Z.of_nat (length dst))); [| lia].
  destruct (Z.leb_spec n (Z.of_nat (length src))); [| lia]. eexists. split; [done |].
  apply length_splice; [done |]. rewrite length_take. lia.
Qed.

Lemma check_cache_in (cache : list (Z * list Z)) num k i :
  check_cache cache num k = Some i -> k <= i < k + Z.of_nat (length cache).
Proof.
  revert k. induction cache as [| [n c] cache IH]; intros k E; [done |]. simpl in E |- *.
  destruct (n =? 0); [done |]. destruct (n =? num); [simplify_eq; lia |]. apply IH in E. lia.
Qed.

(** An entry of the cache that is in use. *)
Lemma cache_entry fs num i :
  cache_wf fs -> check_cache (fs_inode_cache fs) num 0 = Some i ->
  exists n c, aload (fs_inode_cache fs) i = Ret (n, c) /\ length c = Z.to_nat SIZEOF_INODE /\ 0 <= i < INODE_CACHE_MAX.
Proof.
  intros [? ? He Hl ?] Hc. apply check_cache_in in Hc. destruct (aload_in (fs_inode_cache fs) i) as ([n c] & E & Hlk); [lia |].
  exists n, c. split; [done |]. split; [| lia]. rewrite Forall_forall in He. apply (He (n, c)). by eapply list_elem_of_lookup_2.
Qed.

Lemma inode_read_ok fs d num off (b : list Z) :
  fs_ok fs -> cache_wf fs -> inode_place fs d num off -> Z.of_nat (length b) = sb_inode_size (fs_superblock fs) ->
  exists i fs', ext2_inode_read fs d b num = Ret (true, i, fs', d) /\ length i = length b /\ same_fs fs fs' /\ cache_wf fs'.
Proof.
  intros Hf Hc (Ep & Hne & Hdev) Hb. pose proof Hc as [Hs Hr He Hl Hend]. unfold ext2_inode_read, SIZEOF_INODE, INODE_CACHE_MAX in *.
  destruct (cached_root fs num) as [root |] eqn:Er.
  { unfold cached_root in Er. destruct (num =? ROOT_INODE); [| done]. specialize (Hr root Er).
    destruct (copy_front_spec b root (sb_inode_size (fs_superblock fs))) as (i & -> & Hi); [lia | lia | lia |]. by exists i, fs. }
  destruct (check_cache (fs_inode_cache fs) num 0) as [k |] eqn:Ek.
  { destruct (cache_entry fs num k Hc Ek) as (n & c & -> & Hlc & _). rewrite bind_Ret. unfold SIZEOF_INODE in *.
    destruct (copy_front_spec b c 130) as (i & -> & Hi); [lia | lia | lia |]. by exists i, fs. }
  rewrite Ep, bind_Ret. destruct (Z.eqb_spec off 0); [done |].
  rewrite (vfs_block_sread_spec _ _ _ _ (fo_dev _ Hf) Hdev), bind_Ret.
  set (bytes := bytes_at _ _ _). assert (Z.of_nat (length bytes) = sb_inode_size (fs_superblock fs)) as Hlb.
  { unfold bytes. destruct Hdev as (? & ? & Hin). destruct (fo_dev _ Hf) as [_ ?].
    pose proof (Z.div_mod (off + sb_inode_size (fs_superblock fs) + 511) 512).
    pose proof (Z.mod_pos_bound (off + sb_inode_size (fs_superblock fs) + 511) 512).
    rewrite length_bytes_at; unfold dev_base in *; lia. }
  destruct (copy_front_spec b bytes (Z.of_nat (length bytes))) as (i & -> & Hi); [lia | lia | lia |]. rewrite bind_Ret, Z.ltb_irrefl.
  destruct (aload_in (fs_inode_cache fs) (fs_inode_cache_end fs)) as ([m c] & -> & Hlk); [lia |]. rewrite bind_Ret.
  assert (length c = 130%nat) as Hlc by (rewrite Forall_forall in He; apply (He (m, c)); by eapply list_elem_of_lookup_2).
  destruct (copy_front_spec c i 130) as (c' & -> & Hc'); [lia | lia | lia |]. rewrite bind_Ret, astore_in, bind_Ret by lia.
  do 2 eexists. split; [done |]. split; [done |]. split; [done |].
  split; simpl; [done | done | apply Forall_insert; [done | unfold SIZEOF_INODE in *; simpl; lia] | by rewrite length_insert | ].
  unfold INODE_CACHE_MAX. apply Z.mod_pos_bound. lia.
Qed.

Lemma inode_write_ok fs d num off (b : list Z) :
  fs_ok fs -> cache_wf fs -> inode_place fs d num off -> Z.of_nat (length b) = sb_inode_size (fs_superblock fs) ->
  exists fs' d', ext2_inode_write fs d b num = Ret (true, fs', d') /\ same_fs fs fs' /\ cache_wf fs' /\
    media fs d' = splice (media fs d) (base_of fs + off) b.
Proof.
  intros Hf Hc (Ep & Hne & Hdev) Hb. pose proof Hc as [Hs Hr He Hl Hend]. unfold ext2_inode_write.
  assert (exists fs1, match cached_root fs num with
      | Some root => r ← copy_front root b (sb_inode_size (fs_superblock fs)); Ret (fs_set_root fs (Some r))
      | None => Ret fs end = Ret fs1 /\ same_fs fs fs1 /\ cache_wf fs1 /\ fs_inode_cache fs1 = fs_inode_cache fs) as (fs1 & -> & Hs1 & Hc1 & Ec).
  { destruct (cached_root fs num) as [root |] eqn:Er; [| by exists fs].
    unfold cached_root in Er. destruct (num =? ROOT_INODE); [| done]. specialize (Hr root Er).
    destruct (copy_front_spec root b (sb_inode_size (fs_superblock fs))) as (r & -> & Hlr); [unfold SIZEOF_INODE in *; lia | lia | lia |].
    rewrite bind_Ret. eexists. split; [done |]. split; [done |]. split; [| done]. split; simpl; try done. intros x [= <-]. lia. }
  rewrite bind_Ret. destruct (same_fs_place _ _ _ _ _ Hs1 (conj Ep (conj Hne Hdev))) as (Ep1 & _ & _). rewrite Ep1, bind_Ret.
  destruct (Z.eqb_spec off 0); [done |]. rewrite Ec.
  assert (exists fs2, match check_cache (fs_inode_cache fs) num 0 with
      | Some i => '(num, c) ← aload (fs_inode_cache fs) i; c ← copy_front c b SIZEOF_INODE;
        cache ← astore (fs_inode_cache fs) i (num, c); Ret (fs_set_cache fs1 cache (fs_inode_cache_end fs1))
      | None => Ret fs1 end = Ret fs2 /\ same_fs fs fs2 /\ cache_wf fs2) as (fs2 & -> & Hs2 & Hc2).
  { destruct (check_cache (fs_inode_cache fs) num 0) as [k |] eqn:Ek; [| by exists fs1].
    destruct (cache_entry fs num k Hc Ek) as (n' & c & -> & Hlc & Hk). rewrite bind_Ret.
    destruct (copy_front_spec c b SIZEOF_INODE) as (c' & -> & Hc'); [done | lia | unfold SIZEOF_INODE in *; lia |].
    rewrite bind_Ret, astore_in, bind_Ret by lia. eexists. split; [done |]. split; [done |].
    destruct Hc1 as [? ? He1 Hl1 ?]. split; simpl; try done.
    - rewrite <- Ec in *. apply Forall_insert; [done | unfold SIZEOF_INODE in *; simpl; lia].
    - by rewrite length_insert. }
  rewrite bind_Ret. destruct Hs2 as (E1 & E2 & E3). rewrite E1. rewrite take_ge by lia.
  destruct (vfs_block_swrite_spec (fs_dev fs) d off (sb_inode_size (fs_superblock fs)) b (fo_dev _ Hf) Hdev) as (d' & -> & Hd'); [lia |].
  rewrite bind_Ret. rewrite (proj2 (nz_true _)) by (unfold SIZEOF_INODE in *; lia). exists fs2, d'. split; [done |].
  split; [done |]. split; [done |]. exact Hd'.
Qed.

(** * Directories on the disk *)

(** The file has direct blocks only, and no block twice. *)
Record direct_file fs (inode : list Z) : Prop := {
  df_single : in_block inode 12 = 0;
  df_double : in_block inode 13 = 0;
  df_size : in_size inode <= 12 * block_size fs;
  df_distinct : forall k k', 0 <= k < 12 -> 0 <= k' < 12 -> k * block_size fs < in_size inode -> k' * block_size fs < in_size inode ->
    in_block inode k = in_block inode k' -> k = k';
}.

(** [n] bytes at [off] of the device are none of the file. *)
Definition outside_file fs (inode : list Z) (off n : Z) : Prop :=
  forall k, 0 <= k < 12 -> k * block_size fs < in_size inode ->
    off + n <= in_block inode k * block_size fs \/ (in_block inode k + 1) * block_size fs <= off.

Lemma direct_bmap fs d inode k : k < 12 -> bmap fs d inode k = in_block inode k.
Proof. intros Hk. unfold bmap. destruct (Z.ltb_spec k 12); [done | lia]. Qed.

Lemma direct_pos fs d inode data p :
  holds fs d inode data -> direct_file fs inode -> 0 <= p < Z.of_nat (length data) ->
  let k := p / block_size fs in
  0 <= k < 12 /\ k * block_size fs < in_size inode /\ block_ok fs d (in_block inode k) /\
  file_pos fs d inode p = base_of fs + in_block inode k * block_size fs + p mod block_size fs /\
  0 <= p mod block_size fs < block_size fs.
Proof.
  intros [Hf _ Hs _ Hb _] Hdf Hp k. destruct (block_size_range fs Hf) as [Hbs _]. pose proof (df_size _ _ Hdf).
  pose proof (Z.div_mod p (block_size fs) ltac:(lia)) as Hdm. pose proof (Z.mod_pos_bound p (block_size fs) ltac:(lia)) as Hm. fold k in Hdm.
  assert (0 <= k < 12) as Hk by (split; [apply Z.div_pos; lia | apply Z.div_lt_upper_bound; lia]).
  assert (k * block_size fs < Z.of_nat (length data)) by lia. split; [done |]. split; [lia |].
  unfold file_pos. fold k. rewrite <- (direct_bmap fs d inode k) by lia. split; [apply Hb; lia | done].
Qed.

(** Writing the blocks of a file, and writing elsewhere. *)
Lemma holds_written fs d inode data ino data' :
  holds fs d inode data -> direct_file fs inode -> length data' = length data -> ino <> 0 ->
  exists d', ext2_inode_data_rw fs d inode ino 0 (in_size inode) data' = Ret (Some data', inode, fs, d') /\
    holds fs d' inode data' /\ length (media fs d') = length (media fs d).
Proof.
  intros Hh Hdf Hl Hi. pose proof Hh as [Hf Ht Hs Hmx Hb _]. pose proof Hdf as [H12 H13 Hsz Hdist].
  destruct (block_size_range fs Hf) as [Hbs _].
  destruct (data_blocks_ceil fs 0 (Z.of_nat (length data')) Hf) as (Hn0 & Hn1 & Hn2 & _); [lia | lia | left; apply Zmod_0_l |].
  rewrite Zmod_0_l in Hn1, Hn2. set (nb := data_blocks fs 0 (Z.of_nat (length data'))) in *.
  assert (forall k, 0 <= k < nb -> k * block_size fs < in_size inode /\ k < 12) as Hin.
  { intros k Hk. specialize (Hn2 ltac:(lia)). assert (k * block_size fs <= (nb - 1) * block_size fs) by nia. split; [lia | nia]. }
  destruct (write_direct fs d inode ino data' Hf Hi) as (d' & E & Hw).
  - lia.
  - fold nb. intros k Hk. destruct (Hin k Hk). rewrite <- (direct_bmap fs d inode k) by lia. apply Hb; lia.
  - fold nb. intros k k' Hk Hk'. destruct (Hin k Hk), (Hin k' Hk'). apply Hdist; lia.
  - rewrite Hs, <- Hl. exists d'. split; [exact E |]. destruct Hw as [Hlen Hby _]. split; [| done].
    split; [done | split; lia | by rewrite Hs, Hl | lia | |].
    + intros k Hk Hlt. destruct (Hb k Hk ltac:(lia)) as (B1 & B2 & B3). assert (k < 12) by nia.
      rewrite direct_bmap in * by done. unfold block_ok. by rewrite Hlen.
    + intros p Hp. destruct (direct_pos fs d inode data p Hh Hdf ltac:(lia)) as (Hk & _ & _ & _ & _).
      unfold file_pos. rewrite direct_bmap by lia. apply Hby; lia.
Qed.

Lemma holds_elsewhere fs d d' inode data off x :
  holds fs d inode data -> direct_file fs inode -> outside_file fs inode off (Z.of_nat (length x)) -> 0 <= off ->
  base_of fs + off + Z.of_nat (length x) <= Z.of_nat (length (media fs d)) ->
  media fs d' = splice (media fs d) (base_of fs + off) x -> holds fs d' inode data.
Proof.
  intros Hh Hdf Hout Ho Hle E. pose proof Hh as [Hf _ Hs Hmx Hb Hby]. pose proof Hdf as [H12 H13 Hsz _].
  pose proof (base_nonneg fs Hf) as Hbase. destruct (block_size_range fs Hf) as [Hbs _].
  assert (length (media fs d') = length (media fs d)) as Hlen by (rewrite E, length_splice; lia).
  split; [done | split; lia | done | done | |].
  - intros k Hk Hlt. destruct (Hb k Hk Hlt) as (B1 & B2 & B3). assert (k < 12) by nia.
    rewrite direct_bmap in * by done. unfold block_ok. by rewrite Hlen.
  - intros p Hp. destruct (direct_pos fs d inode data p Hh Hdf Hp) as (Hk & Hlt & (B1 & _) & Epos & Hm).
    assert (file_pos fs d' inode p = file_pos fs d inode p) as -> by (unfold file_pos; by rewrite !direct_bmap by lia).
    rewrite <- (Hby p Hp), E, lookup_splice by lia. rewrite decide_False; [done |]. rewrite Epos.
    pose proof (Hout _ Hk Hlt). assert (0 <= in_block inode (p / block_size fs) * block_size fs) by (apply Z.mul_nonneg_nonneg; lia). lia.
Qed.

Lemma same_fs_direct fs fs' inode : same_fs fs fs' -> direct_file fs inode -> direct_file fs' inode.
Proof.
  destruct fs as [dev sb bg r c e], fs' as [dev' sb' bg' r' c' e']. intros (E1 & E2 & E3). simpl in *. subst.
  intros [? ? ? Hd]. by split.
Qed.

Lemma read_dir_inode fs d num off dir fs1 :
  fs_ok fs -> cache_wf fs -> inode_place fs d num off ->
  ext2_inode_read fs d (fresh (sb_inode_size (fs_superblock fs))) num = Ret (true, dir, fs1, d) -> same_fs fs fs1 /\ cache_wf fs1.
Proof.
  intros Hf Hc Hp E. destruct (inode_read_ok fs d num off (fresh (sb_inode_size (fs_superblock fs))) Hf Hc Hp) as (i & fs' & E' & _ & ? & ?).
  { rewrite fresh_length. destruct Hc as [? _ _ _ _]. unfold SIZEOF_INODE in *. lia. }
  rewrite E in E'. by simplify_eq.
Qed.

Lemma read_all fs d inode data :
  holds fs d inode data ->
  ext2_inode_data_rw fs d inode 0 0 (in_size inode) (fresh (in_size inode)) = Ret (Some data, inode, fs, d).
Proof.
  intros Hh. rewrite (ho_size _ _ _ _ Hh).
  rewrite (holds_read fs d inode data 0 _ _ Hh) by (lia || (left; apply Zmod_0_l) || (rewrite fresh_length; lia)).
  do 5 f_equal. unfold splice, bytes_at. rewrite Nat2Z.id, drop_0, firstn_all, drop_ge by (rewrite fresh_length; lia).
  simpl. apply app_nil_r.
Qed.

Lemma place_length fs d d' num off :
  inode_place fs d num off -> length (media fs d') = length (media fs d) -> inode_place fs d' num off.
Proof.
  intros (E & Hne & H1' & H2' & H3') Hl. split; [done |]. split; [done |]. split; [done |]. split; [done |].
  unfold media in Hl. by rewrite Hl.
Qed.

Lemma in_device_end fs d off n :
  in_device (fs_dev fs) d off n -> base_of fs + off + n <= Z.of_nat (length (media fs d)).
Proof.
  intros (H1' & H2' & H3'). unfold base_of, media.
  pose proof (Z.div_mod (off + n + 511) 512). pose proof (Z.mod_pos_bound (off + n + 511) 512). lia.
Qed.

(** What a search finds depends on inode number and type only. *)
Lemma vfs_find es name : (vfs_entry <$> dir_find es name) = (fun '(i, t) => vfs_dirent i t name) <$> dir_lookup es name.
Proof.
  unfold dir_lookup. destruct (dir_find es name) as [e |] eqn:E; [| done].
  destruct (dir_find_split es name e E) as (_ & _ & _ & _ & <- & _). done.
Qed.

Lemma search_agrees fs d inode es fs' d' es' pb q n :
  holds fs d inode (dir_bytes es) -> dir_ok es -> holds fs' d' inode (dir_bytes es') -> dir_ok es' -> cstr pb q n ->
  exists r r', search_dir fs d inode pb q = Ret (r, inode, fs, d) /\ search_dir fs' d' inode pb q = Ret (r', inode, fs', d') /\
    r = (fun '(i, t) => vfs_dirent i t n) <$> dir_lookup es n /\ r' = (fun '(i, t) => vfs_dirent i t n) <$> dir_lookup es' n.
Proof.
  intros Hh Hok Hh' Hok' Hn. do 2 eexists.
  rewrite (search_dir_spec fs d inode _ Hh es pb q n eq_refl Hok Hn).
  rewrite (search_dir_spec fs' d' inode _ Hh' es' pb q n eq_refl Hok' Hn).
  by rewrite !vfs_find.
Qed.

(** C19: [ext2_dirent_add] enters a name in a directory: afterwards, on the disk,
    a search for the name finds the inode number and the type, and a search for
    any other name finds what it found before; the directory stays well formed.
    The directory has direct blocks, no hash index, a record with room for the new
    one, and no entry with the name. *)
Theorem ext2_dirent_add_correct fs d dir_num ino name type dir fs1 es doff off :
  fs_ok fs -> cache_wf fs -> dir_num <> 0 -> inode_place fs d dir_num doff ->
  ext2_inode_read fs d (fresh (sb_inode_size (fs_superblock fs))) dir_num = Ret (true, dir, fs1, d) ->
  has_flag (in_flags dir) EXT2_INDEX_FL = false ->
  holds fs d dir (dir_bytes es) -> direct_file fs dir -> dir_ok es -> Forall packed es ->
  name_ok name -> 0 < ino < 2 ^ 32 -> dir_find es name = None -> first_room es (dlen_of name) <> None ->
  inode_place fs d ino off -> outside_file fs dir off (sb_inode_size (fs_superblock fs)) ->
  exists fs' d' es', ext2_dirent_add fs d dir_num ino name type = Ret (fs', d') /\
    holds fs' d' dir (dir_bytes es') /\ dir_ok es' /\ Forall packed es' /\
    forall n pb q, cstr pb q n -> exists r, search_dir fs d dir pb q = Ret (r, dir, fs, d) /\
      search_dir fs' d' dir pb q = Ret (if decide (n = name) then Some (vfs_dirent ino type name) else r, dir, fs', d').
Proof.
  intros Hf Hc Hdn Hdp Hrd Hflag Hh Hdf Hok Hpk Hn Hi Hno Hroom Hpl Hout.
  destruct (read_dir_inode fs d dir_num doff dir fs1 Hf Hc Hdp Hrd) as [Hs1 Hc1].
  destruct (first_room es (dlen_of name)) as [[[pre e] post] |] eqn:Er; [| done].
  destruct (add_dir es ino type name pre e post Hok Hpk Hi Hn Er) as (Hok' & Hpk' & Hlen & Hadd).
  destruct (first_room_split _ _ _ _ _ Er) as [Ees _]. set (es' := pre ++ _ ++ post) in *.
  unfold ext2_dirent_add. rewrite Hrd, bind_Ret. cbn [negb]. rewrite Hflag.
  pose proof (same_fs_holds _ _ _ _ _ Hs1 Hh) as Hh1. rewrite (read_all _ _ _ _ Hh1), bind_Ret.
  rewrite strlen_name, bind_Ret by apply Hn. fold (dlen_of name). rewrite (ho_size _ _ _ _ Hh), Nat2Z.id.
  revert Hadd. destruct (add_scan _ _ _ _ _ _) as [[p rc] | | |]; [| done | done | done]. rewrite !bind_Ret. intros Hadd.
  rewrite Hadd, bind_Ret. clear Hadd. rewrite <- (ho_size _ _ _ _ Hh).
  destruct (holds_written fs1 d dir _ dir_num _ Hh1 (same_fs_direct _ _ _ Hs1 Hdf) Hlen Hdn) as (d2 & -> & Hh2 & Hlm). rewrite bind_Ret.
  pose proof (ho_fs _ _ _ _ Hh1) as Hf1. destruct Hs1 as (E1 & E2 & E3).
  assert (inode_place fs1 d2 ino off) as Hpl2 by (apply (place_length fs1 d); [apply (same_fs_place fs); done | done]).
  destruct (inode_read_ok fs1 d2 ino off (fresh (sb_inode_size (fs_superblock fs1))) Hf1 Hc1 Hpl2) as (i & fs2 & -> & Hli & Hs2 & Hc2).
  { rewrite fresh_length, E2. destruct Hc as [? _ _ _ _]. unfold SIZEOF_INODE in *. lia. }
  rewrite bind_Ret. cbn [negb]. pose proof (same_fs_holds _ _ _ _ _ Hs2 Hh2) as Hh3. set (i' := set_u16 i 26 _).
  rewrite fresh_length in Hli.
  assert (Z.of_nat (length i') = sb_inode_size (fs_superblock fs2)) as Hli'.
  { destruct Hs2 as (_ & -> & _). unfold i', set_u16. rewrite E2 in Hli |- *. destruct Hc as [? _ _ _ _]. unfold SIZEOF_INODE in *.
    rewrite length_splice; rewrite ?length_le_bytes; lia. }
  destruct (inode_write_ok fs2 d2 ino off i' (ho_fs _ _ _ _ Hh3) Hc2 (same_fs_place _ _ _ _ _ Hs2 Hpl2) Hli')
    as (fs3 & d3 & -> & Hs3 & Hc3 & Hm3). rewrite bind_Ret.
  assert (same_fs fs fs2) as Hs02 by (apply (same_fs_trans _ fs1); done).
  exists fs3, d3, es'. split; [done |]. 
  assert (holds fs3 d3 dir (dir_bytes es')) as Hh4.
  { apply (same_fs_holds fs2); [done |].
    apply (holds_elsewhere fs2 d2 d3 dir _ off i' Hh3 (same_fs_direct _ _ _ Hs02 Hdf)).
    - rewrite Hli'. destruct Hs02 as (Ea & Eb & Ec). rewrite Eb. unfold outside_file, block_size in *. by rewrite Eb.
    - by destruct Hpl as (_ & _ & ? & _); lia.
    - destruct (same_fs_place _ _ _ _ _ Hs2 Hpl2) as (_ & _ & Hdev). rewrite Hli'. by apply in_device_end.
    - done. }
  split; [done |]. split; [done |]. split; [done |]. intros n pb q Hcs.
  destruct (search_agrees fs d dir es fs3 d3 es' pb q n Hh Hok Hh4 Hok' Hcs) as (r & r' & -> & -> & -> & ->).
  eexists. split; [done |]. unfold es'. rewrite add_lookup by (lia || by rewrite <- Ees). rewrite <- Ees.
  by destruct (decide (n = name)) as [-> |].
Qed.

(** C36: [ext2_dirent_rm] takes a name out of a directory: afterwards, on the
    disk, a search for the name finds nothing and a search for any other name
    finds what it found before; the directory stays well formed.  Conditions: the
    directory is smaller than 64 KB, has direct blocks, no name twice, names packed
    into their records, and ends with a NUL; its inode can be read; and it has the
    name. *)
Theorem ext2_dirent_rm_correct fs d dir_num name dir fs1 es doff :
  fs_ok fs -> cache_wf fs -> dir_num <> 0 -> inode_place fs d dir_num doff ->
  ext2_inode_read fs d (fresh (sb_inode_size (fs_superblock fs))) dir_num = Ret (true, dir, fs1, d) ->
  holds fs d dir (dir_bytes es) -> direct_file fs dir -> dir_ok es -> Forall packed es ->
  terminated (dir_bytes es) -> names_unique es -> in_size dir < 2 ^ 16 -> path_ok name -> dir_find es name <> None ->
  exists fs' d' es', ext2_dirent_rm fs d dir_num name = Ret (fs', d') /\
    holds fs' d' dir (dir_bytes es') /\ dir_ok es' /\ Forall packed es' /\
    forall n pb q, cstr pb q n -> exists r, search_dir fs d dir pb q = Ret (r, dir, fs, d) /\
      search_dir fs' d' dir pb q = Ret (if decide (n = name) then None else r, dir, fs', d').
Proof.
  intros Hf Hc Hdn Hdp Hrd Hh Hdf Hok Hpk Ht Hu Hsz Hp Hfind.
  destruct (read_dir_inode fs d dir_num doff dir fs1 Hf Hc Hdp Hrd) as [Hs1 Hc1].
  destruct (dir_find es name) as [e |] eqn:Ef; [| done]. rewrite (ho_size _ _ _ _ Hh) in Hsz.
  destruct (rm_dir es name e Hok Ht Hp Hu Hsz Hpk Ef) as (es' & Hok' & Hpk' & Hlen & Hlook & Hrm).
  unfold ext2_dirent_rm. rewrite Hrd, bind_Ret. cbn [negb]. pose proof (same_fs_holds _ _ _ _ _ Hs1 Hh) as Hh1.
  rewrite (read_all _ _ _ _ Hh1), bind_Ret, (ho_size _ _ _ _ Hh), Nat2Z.id.
  revert Hrm. destruct (rm_scan _ _ _ _ _ _) as [[[q prev] |] | | |]; try done. rewrite !bind_Ret. intros Hrm.
  rewrite Hrm, bind_Ret. clear Hrm. rewrite <- (ho_size _ _ _ _ Hh).
  destruct (holds_written fs1 d dir _ dir_num _ Hh1 (same_fs_direct _ _ _ Hs1 Hdf) Hlen Hdn) as (d2 & -> & Hh2 & _). rewrite bind_Ret.
  exists fs1, d2, es'. split; [done |]. split; [done |]. split; [done |]. split; [done |]. intros n pb q' Hcs.
  destruct (search_agrees fs d dir es fs1 d2 es' pb q' n Hh Hok Hh2 Hok' Hcs) as (r & r' & -> & -> & -> & ->).
  eexists. split; [done |]. rewrite Hlook. by destruct (decide (n = name)) as [-> |].
Qed.

End DirSpec.
