(* ===== verification/Ext2Lookup.v ===== *)
(** The inode cache of ext2 and the lookup of paths (Ext2.v, Ext2Dir.v): what is
    read through the cache is what is on the disk, and [ext2_dirent_find] walks
    from the root to the entry a path names. *)
From stdpp Require Import base numbers list gmap.
From Stdlib Require Import ZArith Lia Bool.
From S2P Require Import Prelude Str Bytes Path Mount Bitmap Block Ext2 Ext2Spec Ext2Dir Ext2DirSpec.

Open Scope Z_scope.

(** * Inodes that agree in their fields *)

(** The bytes of [struct inode]; those behind are not kept in the cache. *)
Definition fields (i : list Z) : list Z := take (Z.to_nat SIZEOF_INODE) i.

Lemma fields_u32 i i' o : fields i = fields i' -> 0 <= o -> o + 4 <= 130 -> u32_at i o = u32_at i' o.
Proof. intros E Ho Hm. unfold u32_at. rewrite <- (le_at_take 4 i 130), <- (le_at_take 4 i' 130) by (simpl; lia). unfold fields, SIZEOF_INODE in E. by rewrite E. Qed.

Lemma fields_u16 i i' o : fields i = fields i' -> 0 <= o -> o + 2 <= 130 -> u16_at i o = u16_at i' o.
Proof. intros E Ho Hm. unfold u16_at. rewrite <- (le_at_take 2 i 130), <- (le_at_take 2 i' 130) by (simpl; lia). unfold fields, SIZEOF_INODE in E. by rewrite E. Qed.

Lemma fields_size i i' : fields i = fields i' -> in_size i = in_size i'.
Proof. intros E. by apply fields_u32. Qed.

Lemma fields_block i i' k : fields i = fields i' -> 0 <= k < 15 -> in_block i k = in_block i' k.
Proof. intros E Hk. apply fields_u32; [done | lia | lia]. Qed.

Lemma fields_perm op i i' task : fields i = fields i' -> ext2_inode_check_perm op i task = ext2_inode_check_perm op i' task.
Proof.
  intros E. unfold ext2_inode_check_perm, in_uid, in_gid, in_mode. by rewrite !(fields_u16 i i' _ E).
Qed.

(** * The parts of a path *)

(** The non-empty segments between the slashes. *)
Definition tokens (p : cstring) : list cstring := filter (fun seg => seg <> []) (split_path p).

Lemma split_path_seg tok p :
  Forall (fun c => c <> SLASH) tok -> split_path (tok ++ SLASH :: p) = tok :: split_path p.
Proof.
  induction 1 as [| c tok Hc Htok IH]; [done |]. cbn [app split_path] in *. destruct (Z.eqb_spec c SLASH); [done |].
  by rewrite IH.
Qed.

Lemma split_path_last tok : Forall (fun c => c <> SLASH) tok -> split_path tok = [tok].
Proof.
  induction 1 as [| c tok Hc Htok IH]; [done |]. cbn [split_path]. destruct (Z.eqb_spec c SLASH); [done |]. by rewrite IH.
Qed.

Lemma tokens_slash p : tokens (SLASH :: p) = tokens p.
Proof. done. Qed.

Lemma tokens_seg tok p : tok <> [] -> Forall (fun c => c <> SLASH) tok -> tokens (tok ++ SLASH :: p) = tok :: tokens p.
Proof. intros Hne Ht. unfold tokens. by rewrite split_path_seg, filter_cons_True by done. Qed.

Lemma tokens_last tok : tok <> [] -> Forall (fun c => c <> SLASH) tok -> tokens tok = [tok].
Proof. intros Hne Ht. unfold tokens. by rewrite split_path_last, filter_cons_True by done. Qed.

Lemma length_tokens p : (length (tokens p) <= S (length p))%nat.
Proof.
  unfold tokens. transitivity (length (split_path p)); [apply length_filter |].
  induction p as [| c p IH]; [done |]. simpl. destruct (c =? SLASH); [simpl; lia |].
  destruct (split_path p); simpl in *; lia.
Qed.

(** * strtok_r *)

Lemma cstr_parts a p s : cstr a p s -> exists pre post, a = pre ++ s ++ 0 :: post /\ p = Z.of_nat (length pre) /\ Forall (fun c => 0 < c < 256) s.
Proof.
  intros Hc. pose proof (cstr_length _ _ _ Hc). destruct Hc as (Hp & Hs & rest & Hd). exists (take (Z.to_nat p) a), rest.
  split; [by rewrite <- Hd, take_drop |]. split; [rewrite length_take; lia | done].
Qed.

Lemma cstr_of_parts pre s post : Forall (fun c => 0 < c < 256) s -> cstr (pre ++ s ++ 0 :: post) (Z.of_nat (length pre)) s.
Proof. intros Hs. split; [lia |]. split; [done |]. exists post. by rewrite Nat2Z.id, drop_app_length. Qed.

(** A string is its leading slashes, a token and the rest. *)
Fixpoint lskip (s : cstring) : cstring :=
  match s with
  | [] => []
  | c :: t => if c =? SLASH then lskip t else s
  end.

Fixpoint span_token (s : cstring) : cstring * cstring :=
  match s with
  | [] => ([], [])
  | c :: t => if c =? SLASH then ([], s) else let '(tok, rest) := span_token t in (c :: tok, rest)
  end.

Lemma span_token_spec s :
  let '(tok, rest) := span_token s in
  s = tok ++ rest /\ Forall (fun c => c <> SLASH) tok /\ (rest = [] \/ exists r, rest = SLASH :: r).
Proof.
  induction s as [| c s IH]; simpl; [by repeat constructor; left |]. destruct (Z.eqb_spec c SLASH) as [-> | Hc].
  - split; [done |]. split; [constructor |]. right. by exists s.
  - destruct (span_token s) as [tok rest]. destruct IH as (-> & Ht & Hr). split; [done |]. split; [by constructor | done].
Qed.

Lemma lskip_spec s : exists k, s = replicate k SLASH ++ lskip s /\ tokens s = tokens (lskip s) /\ head (lskip s) <> Some SLASH.
Proof.
  induction s as [| c s IH]; [by exists 0%nat |]. simpl. destruct (Z.eqb_spec c SLASH) as [-> | Hc].
  - destruct IH as (k & E & Ht & Hh). exists (S k). simpl. rewrite <- E, tokens_slash. done.
  - exists 0%nat. split; [done |]. split; [done |]. simpl. congruence.
Qed.

Lemma is_delim_slash c : is_delim [SLASH] c = (c =? SLASH).
Proof. unfold is_delim. simpl. by rewrite orb_false_r. Qed.

Lemma strtok_skip_spec fuel a p s :
  cstr a p s -> (length s < fuel)%nat ->
  strtok_skip fuel a [SLASH] p = Ret (p + Z.of_nat (length s - length (lskip s)), default 0 (head (lskip s))).
Proof.
  revert p s. induction fuel as [| fuel IH]; intros p s Hc Hf; [lia |]. cbn [strtok_skip].
  destruct s as [| c s].
  - rewrite (cstr_nil _ _ Hc), bind_Ret, is_delim_slash. simpl. by rewrite Z.add_0_r.
  - destruct (cstr_cons _ _ _ _ Hc) as (-> & Hcr & Hc'). rewrite bind_Ret, is_delim_slash. cbn [lskip].
    destruct (Z.eqb_spec c SLASH) as [-> | Hne].
    + rewrite (IH (p + 1) s Hc') by (simpl in Hf; lia). do 2 f_equal. assert (length (lskip s) <= length s)%nat.
      { destruct (lskip_spec s) as (k & E & _). rewrite E at 2. rewrite length_app. lia. }
      simpl length. lia.
    + rewrite Nat.sub_diag. simpl. by rewrite Z.add_0_r.
Qed.

Lemma strtok_scan_spec fuel pre tok rest post :
  Forall (fun c => 0 < c < 256) tok -> Forall (fun c => c <> SLASH) tok -> (length tok < fuel)%nat ->
  (rest = [] \/ exists r, rest = SLASH :: r) ->
  strtok_scan fuel (pre ++ tok ++ rest ++ 0 :: post) [SLASH] (Z.of_nat (length pre)) =
    Ret (match rest with
         | [] => (pre ++ tok ++ rest ++ 0 :: post, None)
         | _ :: r => (pre ++ tok ++ 0 :: r ++ 0 :: post, Some (Z.of_nat (length pre + length tok) + 1))
         end).
Proof.
  revert pre tok. induction fuel as [| fuel IH]; intros pre tok Hb Hs Hf Hr; [lia |]. cbn [strtok_scan].
  destruct tok as [| c tok].
  - cbn [app]. destruct Hr as [-> | (r & ->)].
    + cbn [app]. rewrite aload_mid by done. by rewrite bind_Ret.
    + cbn [app]. rewrite aload_mid by done. rewrite bind_Ret, is_delim_slash, Z.eqb_refl.
      cbn [orb]. change (SLASH =? 0) with false. cbn match. rewrite astore_in by (rewrite length_app; simpl; lia).
      rewrite bind_Ret, Nat2Z.id, insert_app_r_alt, Nat.sub_diag by done. cbn. do 3 f_equal. lia.
  - apply Forall_cons in Hb as [Hc Hb]. apply Forall_cons in Hs as [Hcs Hs].
    rewrite <- app_comm_cons. rewrite aload_mid by done. rewrite bind_Ret, is_delim_slash.
    destruct (Z.eqb_spec c SLASH); [done |]. destruct (Z.eqb_spec c 0); [lia |]. cbn [orb].
    replace (pre ++ c :: tok ++ rest ++ 0 :: post) with ((pre ++ [c]) ++ tok ++ rest ++ 0 :: post) by (by rewrite <- app_assoc).
    replace (Z.of_nat (length pre) + 1) with (Z.of_nat (length (pre ++ [c]))) by (rewrite length_app; simpl; lia).
    rewrite IH by (done || simpl in Hf; lia). destruct rest; [done |]. rewrite <- app_assoc, length_app. cbn. do 3 f_equal. lia.
Qed.

(** One call gives the next part of the path. *)
Lemma strtok_r_spec a p s :
  cstr a p s ->
  match tokens s with
  | [] => strtok_r a [SLASH] (Some p) = Ret (None, a, None)
  | tok :: toks => exists q a' last, strtok_r a [SLASH] (Some p) = Ret (Some q, a', last) /\ cstr a' q tok /\ length a' = length a /\
      match last with None => toks = [] | Some p' => exists s', cstr a' p' s' /\ toks = tokens s' end
  end.
Proof.
  intros Hc. destruct (lskip_spec s) as (k & Es & Et & Hh). rewrite Et. cbn [strtok_r].
  rewrite (strtok_skip_spec _ a p s Hc) by (pose proof (cstr_length _ _ _ Hc); destruct Hc as [? _]; lia). rewrite bind_Ret.
  assert (length s - length (lskip s) = k)%nat as -> by (rewrite Es at 1; rewrite length_app, length_replicate; lia).
  destruct (cstr_parts a p s Hc) as (pre & post & -> & -> & Hb). rewrite Es in Hb |- *. apply Forall_app in Hb as [_ Hb].
  assert (lskip (replicate k SLASH ++ lskip s) = lskip s) as -> by (by rewrite <- Es).
  destruct (lskip s) as [| c t]; [done |]. apply Forall_cons in Hb as [Hcb Hb]. simpl in Hh. change (default 0 (head (c :: t))) with c.
  destruct (Z.eqb_spec c 0); [lia |].
  pose proof (span_token_spec t) as Hsp. destruct (span_token t) as [tok rest]. destruct Hsp as (-> & Htok & Hrest).
  apply Forall_app in Hb as [Hb1 Hb2]. assert (c <> SLASH) as Hcs by congruence.
  set (pre' := pre ++ replicate k SLASH).
  assert (Z.of_nat (length pre) + Z.of_nat k = Z.of_nat (length pre')) as -> by (unfold pre'; rewrite length_app, length_replicate; lia).
  replace (pre ++ (replicate k SLASH ++ c :: tok ++ rest) ++ 0 :: post) with ((pre' ++ [c]) ++ tok ++ rest ++ 0 :: post)
    by (unfold pre'; rewrite <- !app_assoc; cbn [app]; by rewrite <- ?app_assoc).
  replace (Z.of_nat (length pre') + 1) with (Z.of_nat (length (pre' ++ [c]))) by (rewrite length_app; simpl; lia).
  rewrite (strtok_scan_spec _ (pre' ++ [c])) by (done || (rewrite !length_app; simpl; lia)). 
  destruct Hrest as [-> | (r & ->)].
  - rewrite app_nil_r, tokens_last by (done || by constructor). rewrite bind_Ret. do 3 eexists. split; [done |].
    split; [| done]. rewrite <- app_assoc. cbn [app]. apply (cstr_of_parts pre' (c :: tok)). by constructor.
  - rewrite app_comm_cons, tokens_seg by (done || by constructor). rewrite bind_Ret. do 3 eexists. split; [done |].
    apply Forall_cons in Hb2 as [_ Hb2]. split; [| split].
    + rewrite <- app_assoc. cbn [app]. apply (cstr_of_parts pre' (c :: tok)). by constructor.
    + rewrite !length_app. simpl. rewrite !length_app. simpl. lia.
    + exists r. split; [| done].
      replace ((pre' ++ [c]) ++ tok ++ 0 :: r ++ 0 :: post) with (((pre' ++ [c]) ++ tok ++ [0]) ++ r ++ 0 :: post) by (by rewrite <- !app_assoc).
      replace (Z.of_nat (length (pre' ++ [c]) + length tok) + 1) with (Z.of_nat (length ((pre' ++ [c]) ++ tok ++ [0])))
        by (rewrite !length_app; simpl; lia). by apply cstr_of_parts.
Qed.

Section Lookup.
Context {D : Type} `{DiskLaws D} `{FreshMemory}.
Implicit Types (fs : ext2_fs) (d : D).

Lemma fields_bmap fs d i i' k : fields i = fields i' -> 0 <= k -> bmap fs d i k = bmap fs d i' k.
Proof.
  intros E Hk. unfold bmap. rewrite (fields_block i i' 12 E), (fields_block i i' 13 E) by lia. destruct (Z.ltb_spec k 12); [| done].
  apply fields_block; [done | lia].
Qed.

Lemma fields_holds fs d i i' data : fields i = fields i' -> holds fs d i data -> holds fs d i' data.
Proof.
  intros E [Hf [Ht1 Ht2 Ht3] Hs Hm Hb Hd].
  assert (in_block i 12 = in_block i' 12) as E12 by (by apply fields_block).
  assert (in_block i 13 = in_block i' 13) as E13 by (by apply fields_block).
  split; [done | split; rewrite <- ?E12, <- ?E13; done | by rewrite <- (fields_size i i' E) | done | |].
  - intros k Hk Hlt. rewrite <- (fields_bmap fs d i i' k E Hk). by apply Hb.
  - intros p Hp. rewrite <- Hd by done. unfold file_pos. rewrite (fields_bmap fs d i i' _ E); [done |].
    destruct (block_size_range fs Hf). apply Z.div_pos; lia.
Qed.

(** * The cache *)

(** The inode on the disk. *)
Definition disk_inode fs d (num : Z) : list Z :=
  match find_inode fs num with
  | Ret off => bytes_at (media fs d) (base_of fs + off) (sb_inode_size (fs_superblock fs))
  | _ => []
  end.

(** A number of an inode that has a place on the disk. *)
Definition has_place fs d (num : Z) : Prop := 0 < num < 2 ^ 32 /\ exists off, inode_place fs d num off.

(** The entries in use come first, and [fs_inode_cache_end] is behind them as
    long as there are others; no number stands in the cache twice. *)
Record cache_order (cache : list (Z * list Z)) (e : Z) (m : nat) : Prop := {
  cd_used : forall k num c, cache !! k = Some (num, c) -> (k < m)%nat <-> num <> 0;
  cd_end : (m < length cache)%nat -> e = Z.of_nat m;
  cd_unique : forall i j num c c', cache !! i = Some (num, c) -> cache !! j = Some (num, c') -> num <> 0 -> i = j;
}.

(** What is cached is what is on the disk. *)
Record coherent fs d : Prop := {
  ch_fs : fs_ok fs;
  ch_wf : cache_wf fs;
  ch_order : exists m, cache_order (fs_inode_cache fs) (fs_inode_cache_end fs) m;
  ch_root : forall r, fs_root_inode fs = Some r -> has_place fs d ROOT_INODE -> fields r = fields (disk_inode fs d ROOT_INODE);
  ch_cache : forall k num c, fs_inode_cache fs !! k = Some (num, c) -> num <> 0 -> has_place fs d num ->
    c = fields (disk_inode fs d num);
}.

Lemma length_disk_inode fs d num : fs_ok fs -> cache_wf fs -> has_place fs d num ->
  Z.of_nat (length (disk_inode fs d num)) = sb_inode_size (fs_superblock fs).
Proof.
  intros Hf Hc (_ & off & E & _ & Hdev). unfold disk_inode. rewrite E. pose proof (in_device_end fs d off _ Hdev).
  pose proof (base_nonneg fs Hf). destruct Hdev as (? & ? & _). destruct Hc as [? _ _ _ _]. rewrite length_bytes_at; lia.
Qed.

Lemma fields_splice (b src : list Z) n :
  SIZEOF_INODE <= n -> n <= Z.of_nat (length src) -> fields (splice b 0 (take (Z.to_nat n) src)) = fields src.
Proof.
  unfold SIZEOF_INODE. intros Hn Hs. unfold fields, splice, SIZEOF_INODE. change (take (Z.to_nat 0) b) with (@nil Z). cbn [app].
  rewrite take_app_le by (rewrite length_take; lia). rewrite take_take. f_equal. lia.
Qed.

Lemma check_cache_entry (cache : list (Z * list Z)) num k i :
  check_cache cache num k = Some i -> num <> 0 /\ exists c, k <= i /\ cache !! Z.to_nat (i - k) = Some (num, c).
Proof.
  revert k. induction cache as [| [n c] cache IH]; intros k E; [done |]. simpl in E.
  destruct (Z.eqb_spec n 0); [done |]. destruct (Z.eqb_spec n num) as [-> | Hne].
  - simplify_eq. rewrite Z.sub_diag. split; [done |]. by exists c.
  - destruct (IH _ E) as (Hn & c' & Hi & Hc'). split; [done |]. exists c'. split; [lia |].
    replace (Z.to_nat (i - k)) with (S (Z.to_nat (i - (k + 1)))) by lia. done.
Qed.

(** A number that is not found is not there. *)
Lemma check_cache_none (cache : list (Z * list Z)) num k j c m :
  check_cache cache num k = None -> num <> 0 ->
  (forall i n x, cache !! i = Some (n, x) -> (i < m)%nat <-> n <> 0) -> cache !! j = Some (num, c) -> False.
Proof.
  revert k j m. induction cache as [| [n x] cache IH]; intros k j m E Hn Hu Hj; [done |]. simpl in E.
  destruct (Z.eqb_spec n 0) as [-> | Hn0].
  - pose proof (proj1 (Hu 0%nat 0 x eq_refl)) as H0'. assert (m = 0%nat) as -> by (destruct m; [done |]; exfalso; apply H0'; lia || done).
    apply (proj2 (Hu j num c Hj)) in Hn. lia.
  - destruct (Z.eqb_spec n num) as [-> | Hne]; [done |]. destruct j as [| j]; [simpl in Hj; congruence |].
    apply (IH (k + 1) j (m - 1)%nat E Hn); [| done]. intros i n' x' Hi. rewrite <- (Hu (S i) n' x' Hi).
    assert (0 < m)%nat by (apply (Hu 0%nat n x eq_refl); done). lia.
Qed.

(** Entering a new number keeps the order. *)
Lemma cache_order_insert (cache : list (Z * list Z)) e m num c :
  cache_order cache e m -> Z.of_nat (length cache) = INODE_CACHE_MAX -> 0 <= e < INODE_CACHE_MAX -> num <> 0 ->
  (forall j c', cache !! j <> Some (num, c')) ->
  exists m', cache_order (<[Z.to_nat e := (num, c)]> cache) (u32 (e + 1) mod INODE_CACHE_MAX) m'.
Proof.
  unfold INODE_CACHE_MAX. intros [Hu He Hq] Hl Hr Hn Hno. rewrite u32_small by lia.
  set (m' := if decide (m < length cache)%nat then S m else m). exists m'.
  assert (m <= length cache \/ length cache < m)%nat as Hm by lia.
  split.
  - intros k n x Hk. destruct (decide (k = Z.to_nat e)) as [-> | Hke].
    + rewrite list_lookup_insert_eq in Hk by lia. simplify_eq. split; [done |]. intros _. unfold m'.
      case_decide as Hc; [rewrite (He Hc); lia | lia].
    + rewrite list_lookup_insert_ne in Hk by done. rewrite <- (Hu k n x Hk). apply lookup_lt_Some in Hk. unfold m'.
      case_decide as Hc; [rewrite (He Hc) in Hke; lia | lia].
  - rewrite length_insert. unfold m'. case_decide as Hc; [| lia]. intros Hlt. rewrite (He Hc), Z.mod_small; lia.
  - intros i j n x y Hi Hj Hn'.
    destruct (decide (i = Z.to_nat e)) as [-> | Hie], (decide (j = Z.to_nat e)) as [-> | Hje]; [done | | |].
    + rewrite list_lookup_insert_eq in Hi by lia. rewrite list_lookup_insert_ne in Hj by done. simplify_eq. by apply Hno in Hj.
    + rewrite list_lookup_insert_eq in Hj by lia. rewrite list_lookup_insert_ne in Hi by done. simplify_eq. by apply Hno in Hi.
    + rewrite list_lookup_insert_ne in Hi, Hj by done. by apply (Hq i j n x y).
Qed.

Lemma read_coherent fs d num (b : list Z) :
  coherent fs d -> has_place fs d num -> Z.of_nat (length b) = sb_inode_size (fs_superblock fs) ->
  exists i fs', ext2_inode_read fs d b num = Ret (true, i, fs', d) /\ length i = length b /\
    fields i = fields (disk_inode fs d num) /\ same_fs fs fs' /\ coherent fs' d.
Proof.
  intros Hch Hp Hb. pose proof Hch as [Hf Hc (mo & Hord) Hr Hca]. assert (num <> 0) as Hnum by (destruct Hp; lia). pose proof (length_disk_inode fs d num Hf Hc Hp) as Hld.
  destruct Hp as (Hnr & off & Hp). destruct (inode_read_ok fs d num off b Hf Hc Hp Hb) as (i & fs' & E & Hl & Hs & Hc').
  exists i, fs'. split; [done |]. split; [done |]. revert E. pose proof Hc as [Hsz Hrl He Hlen Hend].
  destruct Hp as (Ep & Hne & Hdev). unfold ext2_inode_read.
  destruct (cached_root fs num) as [root |] eqn:Er.
  { unfold cached_root in Er. destruct (Z.eqb_spec num ROOT_INODE) as [-> |]; [| done]. unfold copy_front.
    destruct ((_ <=? _) && (_ <=? _)); [| done]. rewrite bind_Ret. intros [= <- <-]. rewrite fields_splice by (specialize (Hrl _ Er); lia).
    split; [| done]. apply Hr; [done |]. split; [done |]. by exists off. }
  destruct (check_cache (fs_inode_cache fs) num 0) as [k |] eqn:Ek.
  { destruct (check_cache_entry _ _ _ _ Ek) as (Hnz & c & Hk & Hlk). rewrite Z.sub_0_r in Hlk.
    assert (aload (fs_inode_cache fs) k = Ret (num, c)) as -> by (by apply aload_Ret). rewrite bind_Ret. unfold copy_front.
    assert (length c = Z.to_nat SIZEOF_INODE) as Hlc by (rewrite Forall_forall in He; apply (He (num, c)); by eapply list_elem_of_lookup_2).
    destruct ((_ <=? _) && (_ <=? _)); [| done]. rewrite bind_Ret. intros [= <- <-]. unfold SIZEOF_INODE in Hlc.
    rewrite fields_splice by (unfold SIZEOF_INODE; lia). split; [| done].
    rewrite (Hca _ _ _ Hlk Hnz ltac:(split; [done | by exists off])). unfold fields. by rewrite take_take, Nat.min_id. }
  rewrite Ep, bind_Ret. destruct (Z.eqb_spec off 0); [done |].
  rewrite (vfs_block_sread_spec _ _ _ _ (fo_dev _ Hf) Hdev), bind_Ret.
  fold (media fs d). fold (base_of fs). assert (disk_inode fs d num = bytes_at (media fs d) (base_of fs + off) (sb_inode_size (fs_superblock fs))) as Edi
    by (unfold disk_inode; by rewrite Ep).
  rewrite <- Edi. unfold SIZEOF_INODE in *. rewrite copy_front_all by lia. rewrite bind_Ret, Z.ltb_irrefl.
  destruct (aload_in (fs_inode_cache fs) (fs_inode_cache_end fs)) as ([m c] & -> & Hlk); [lia |]. rewrite bind_Ret.
  assert (length c = 130%nat) as Hlc by (rewrite Forall_forall in He; apply (He (m, c)); by eapply list_elem_of_lookup_2).
  unfold copy_front, SIZEOF_INODE. destruct ((_ <=? _) && (_ <=? _)); [| done]. rewrite bind_Ret, astore_in, bind_Ret by lia.
  intros [= <- <-]. split; [done |]. split; [done |]. split; [by destruct Hf | exact Hc' | | exact Hr |].
  { apply (cache_order_insert _ _ mo); try done. intros j c' Hj. by apply (check_cache_none _ _ _ _ _ mo Ek Hnum (cd_used _ _ _ Hord) Hj). }
  intros j n' c' Hj Hn' Hp'. cbn [fs_inode_cache fs_set_cache] in Hj.
  destruct (decide (j = Z.to_nat (fs_inode_cache_end fs))) as [-> | Hj'].
  - rewrite list_lookup_insert_eq in Hj by lia. simplify_eq. unfold splice, fields, SIZEOF_INODE.
    change (take (Z.to_nat 0) c) with (@nil Z). rewrite drop_ge by (rewrite length_take; lia). cbn [app]. rewrite app_nil_r. done.
  - rewrite list_lookup_insert_ne in Hj by done. by apply (Hca _ _ _ Hj Hn').
Qed.

(** The inode has its bytes on the disk for itself. *)
Definition own_place fs d (num off : Z) : Prop :=
  inode_place fs d num off /\
  0 < num < 2 ^ 32 /\ forall n o, 0 < n < 2 ^ 32 -> inode_place fs d n o -> n <> num ->
    o + sb_inode_size (fs_superblock fs) <= off \/ off + sb_inode_size (fs_superblock fs) <= o.

Lemma same_disk_inode fs fs' d num : same_fs fs fs' -> disk_inode fs' d num = disk_inode fs d num.
Proof.
  destruct fs as [dev sb bg r c e], fs' as [dev' sb' bg' r' c' e']. intros (E1 & E2 & E3). simpl in *. subst. done.
Qed.

Lemma same_fs_sym fs fs' : same_fs fs fs' -> same_fs fs' fs.
Proof. unfold same_fs. intros (-> & -> & ->). done. Qed.

Lemma same_fs_ok fs fs' : same_fs fs fs' -> fs_ok fs -> fs_ok fs'.
Proof.
  destruct fs as [dev sb bg r c e], fs' as [dev' sb' bg' r' c' e']. intros (E1 & E2 & E3). simpl in *. subst.
  by intros [? ?].
Qed.

(** A write changes this inode on the disk and no other. *)
Lemma splice_disk_inode fs d d' num off (b : list Z) n :
  fs_ok fs -> cache_wf fs -> own_place fs d num off -> Z.of_nat (length b) = sb_inode_size (fs_superblock fs) ->
  media fs d' = splice (media fs d) (base_of fs + off) b -> has_place fs d n ->
  disk_inode fs d' n = if decide (n = num) then b else disk_inode fs d n.
Proof.
  intros Hf Hc [(Ep & Hne & Hdev) [_ Hown]] Hb Em Hn. pose proof (base_nonneg fs Hf). destruct Hc as [Hsz _ _ _ _].
  pose proof (in_device_end fs d off _ Hdev) as Hend. destruct Hdev as (Ho & _ & _). unfold SIZEOF_INODE in *.
  destruct Hn as (Hnr & o & Hn). destruct (Hn) as (En & _ & Hdn). pose proof (in_device_end fs d o _ Hdn). destruct Hdn as (? & _ & _).
  unfold disk_inode. rewrite En. destruct (decide (n = num)) as [-> | Hne'].
  - assert (o = off) as -> by (rewrite Ep in En; by simplify_eq). rewrite Em. apply list_eq. intros i.
    rewrite lookup_bytes_at, lookup_splice by lia.
    destruct (decide (i < Z.to_nat (sb_inode_size (fs_superblock fs)))%nat); [rewrite decide_True by lia; f_equal; lia |].
    symmetry. apply lookup_ge_None_2. lia.
  - pose proof (Hown _ _ Hnr Hn Hne'). rewrite Em. apply list_eq. intros i. rewrite !lookup_bytes_at.
    destruct (decide (i < _)%nat); [| done]. rewrite lookup_splice by lia. by rewrite decide_False by lia.
Qed.

Lemma fields_fields i : fields (fields i) = fields i.
Proof. unfold fields. by rewrite take_take, Nat.min_id. Qed.

Lemma fields_copy (c b : list Z) :
  length c = Z.to_nat SIZEOF_INODE -> SIZEOF_INODE <= Z.of_nat (length b) ->
  copy_front c b SIZEOF_INODE = Ret (fields b).
Proof.
  unfold SIZEOF_INODE. intros Hc Hb. unfold copy_front.
  destruct (Z.leb_spec 130 (Z.of_nat (length c))); [| lia]. destruct (Z.leb_spec 130 (Z.of_nat (length b))); [| lia].
  simpl andb. cbn match. unfold splice. change (take (Z.to_nat 0) c) with (@nil Z).
  rewrite (drop_ge c) by (rewrite length_take; lia). by rewrite app_nil_r.
Qed.

(** What a write does to what is cached. *)
Lemma inode_write_caches fs d num off (b : list Z) r0 fs' d' :
  cache_wf fs -> find_inode fs num = Ret off -> off <> 0 -> Z.of_nat (length b) = sb_inode_size (fs_superblock fs) ->
  ext2_inode_write fs d b num = Ret (r0, fs', d') ->
  (forall r', fs_root_inode fs' = Some r' -> exists r, fs_root_inode fs = Some r /\
    ((num = ROOT_INODE /\ fields r' = fields b) \/ (num <> ROOT_INODE /\ r' = r))) /\
  fs_inode_cache_end fs' = fs_inode_cache_end fs /\
  fs_inode_cache fs' = match check_cache (fs_inode_cache fs) num 0 with
                       | Some k => <[Z.to_nat k := (num, fields b)]> (fs_inode_cache fs)
                       | None => fs_inode_cache fs end.
Proof.
  intros [Hsz Hrl He Hlen Hend] Ep Hne Hb. unfold ext2_inode_write.
  assert (exists fs1, match cached_root fs num with
      | Some root => r ← copy_front root b (sb_inode_size (fs_superblock fs)); Ret (fs_set_root fs (Some r))
      | None => Ret fs end = Ret fs1 /\ find_inode fs1 num = Ret off /\ fs_inode_cache fs1 = fs_inode_cache fs /\
      fs_inode_cache_end fs1 = fs_inode_cache_end fs /\
      (forall r', fs_root_inode fs1 = Some r' -> exists r, fs_root_inode fs = Some r /\
        ((num = ROOT_INODE /\ fields r' = fields b) \/ (num <> ROOT_INODE /\ r' = r)))) as (fs1 & -> & Ep1 & Ec & Ee & Hroot).
  { unfold cached_root. destruct (Z.eqb_spec num ROOT_INODE) as [E | E].
    - destruct (fs_root_inode fs) as [r |] eqn:Er; [| exists fs; repeat split; try done; by rewrite Er].
      specialize (Hrl r eq_refl). unfold copy_front. destruct (Z.leb_spec (sb_inode_size (fs_superblock fs)) (Z.of_nat (length r))); [| lia].
      destruct (Z.leb_spec (sb_inode_size (fs_superblock fs)) (Z.of_nat (length b))); [| lia]. eexists.
      split; [reflexivity |]. split; [done |]. split; [done |]. split; [done |]. intros r' [= <-]. exists r. split; [done |]. left.
      split; [done |]. by rewrite fields_splice by lia.
    - exists fs. repeat split; try done. intros r' Er. exists r'. split; [done |]. by right. }
  rewrite bind_Ret, Ep1, bind_Ret. destruct (Z.eqb_spec off 0); [done |]. rewrite Ec.
  destruct (check_cache (fs_inode_cache fs) num 0) as [k |] eqn:Ek.
  - destruct (check_cache_entry _ _ _ _ Ek) as (Hnz & c & Hk & Hlk). rewrite Z.sub_0_r in Hlk.
    assert (aload (fs_inode_cache fs) k = Ret (num, c)) as -> by (by apply aload_Ret). rewrite bind_Ret.
    rewrite fields_copy by (lia || (rewrite Forall_forall in He; apply (He (num, c)); by eapply list_elem_of_lookup_2)). rewrite bind_Ret.
    apply lookup_lt_Some in Hlk as Hlt. rewrite astore_in by lia. rewrite !bind_Ret.
    destruct (vfs_block_swrite _ _ _ _ _) as [[r d1] | | |]; try done. rewrite bind_Ret. intros [= <- <- <-]. done.
  - rewrite bind_Ret. destruct (vfs_block_swrite _ _ _ _ _) as [[r d1] | | |]; try done. rewrite bind_Ret. intros [= <- <- <-]. done.
Qed.

Lemma write_coherent fs d num off (b : list Z) :
  coherent fs d -> own_place fs d num off -> Z.of_nat (length b) = sb_inode_size (fs_superblock fs) ->
  exists fs' d', ext2_inode_write fs d b num = Ret (true, fs', d') /\ same_fs fs fs' /\ coherent fs' d' /\
    length (media fs d') = length (media fs d) /\
    forall n, has_place fs d n -> disk_inode fs d' n = if decide (n = num) then b else disk_inode fs d n.
Proof.
  intros Hch Hown Hb. pose proof Hch as [Hf Hc (mo & Hord) Hr Hca]. pose proof Hown as [Hp [Hnr _]]. assert (num <> 0) as Hnum by lia.
  destruct (inode_write_ok fs d num off b Hf Hc Hp Hb) as (fs' & d' & E & Hs & Hc' & Hm).
  assert (length (media fs d') = length (media fs d)) as Hlm.
  { destruct Hp as (_ & _ & Hdev). pose proof (in_device_end fs d off _ Hdev). pose proof (base_nonneg fs Hf).
    destruct Hdev as (? & _ & _). rewrite Hm, length_splice; lia. }
  assert (forall n, has_place fs d n -> disk_inode fs d' n = if decide (n = num) then b else disk_inode fs d n) as Hdisk
    by (intros n Hn; by apply (splice_disk_inode fs d d' num off)).
  exists fs', d'. split; [done |]. split; [done |]. split; [| done].
  assert (forall n, has_place fs' d' n -> has_place fs d n) as Hback.
  { intros n (Hnr' & o & Hn). split; [done |]. exists o. apply (same_fs_place fs'); [by apply same_fs_sym |]. apply (place_length fs' d'); [done |].
    unfold media in *. destruct Hs as (-> & _). done. }
  destruct (inode_write_caches fs d num off b _ _ _ Hc (proj1 Hp) (proj1 (proj2 Hp)) Hb E) as (Hroot & Hend & Hcache).
  split; [by apply (same_fs_ok fs) | done | | |].
  - exists mo. rewrite Hend, Hcache. destruct (check_cache (fs_inode_cache fs) num 0) as [k |] eqn:Ek; [| done].
    destruct (check_cache_entry _ _ _ _ Ek) as (_ & c & Hk & Hlk). rewrite Z.sub_0_r in Hlk.
    destruct Hord as [Hu He Hq]. apply lookup_lt_Some in Hlk as Hlt. 
    assert (forall j n x, <[Z.to_nat k := (num, fields b)]> (fs_inode_cache fs) !! j = Some (n, x) ->
      exists y, fs_inode_cache fs !! j = Some (n, y)) as Hold.
    { intros j n x Hj. destruct (decide (j = Z.to_nat k)) as [-> | Hne].
      - rewrite list_lookup_insert_eq in Hj by lia. simplify_eq. by exists c.
      - rewrite list_lookup_insert_ne in Hj by done. by exists x. }
    split.
    + intros j n x Hj. destruct (Hold _ _ _ Hj) as (y & Hy). by apply (Hu j n y).
    + by rewrite length_insert.
    + intros i j n x x' Hi Hj Hn. destruct (Hold _ _ _ Hi) as (y & Hy), (Hold _ _ _ Hj) as (y' & Hy'). by apply (Hq i j n y y').
  - intros r' Er' Hpl. rewrite (same_disk_inode fs fs') by done. rewrite Hdisk by by apply Hback.
    destruct (Hroot r' Er') as (r & Er & [[-> Efr] | [Hne ->]]); [by rewrite decide_True |].
    rewrite decide_False by done. apply Hr; [done | by apply Hback].
  - intros j n c Hj Hn Hpl. rewrite (same_disk_inode fs fs') by done. rewrite Hdisk by by apply Hback. rewrite Hcache in Hj.
    destruct (check_cache (fs_inode_cache fs) num 0) as [k |] eqn:Ek.
    + destruct (check_cache_entry _ _ _ _ Ek) as (_ & c0 & Hk & Hlk). rewrite Z.sub_0_r in Hlk. apply lookup_lt_Some in Hlk as Hlt.
      destruct (decide (j = Z.to_nat k)) as [-> | Hne].
      * rewrite list_lookup_insert_eq in Hj by lia. simplify_eq. by rewrite decide_True.
      * rewrite list_lookup_insert_ne in Hj by done. rewrite decide_False; [apply (Hca j n c); [done | done | by apply Hback] |].
        intros ->. by apply Hne, (cd_unique _ _ _ Hord _ _ num c c0).
    + rewrite decide_False; [apply (Hca j n c); [done | done | by apply Hback] |].
      intros ->. by apply (check_cache_none _ _ _ _ _ mo Ek Hnum (cd_used _ _ _ Hord) Hj).
Qed.

(** C38: the inode cache is transparent: after [ext2_inode_write], reading the
    inode, through the cache or not, gives the fields that were written, reading
    any other inode gives what the disk held before, and both leave the cache
    coherent with the disk. *)
Theorem ext2_inode_roundtrip fs d num off (b : list Z) :
  coherent fs d -> own_place fs d num off -> Z.of_nat (length b) = sb_inode_size (fs_superblock fs) ->
  exists fs' d', ext2_inode_write fs d b num = Ret (true, fs', d') /\ coherent fs' d' /\
    forall n buf, has_place fs d n -> Z.of_nat (length buf) = sb_inode_size (fs_superblock fs) ->
      exists i fs'', ext2_inode_read fs' d' buf n = Ret (true, i, fs'', d') /\ coherent fs'' d' /\
        fields i = fields (if decide (n = num) then b else disk_inode fs d n).
Proof.
  intros Hch Hown Hb. destruct (write_coherent fs d num off b Hch Hown Hb) as (fs' & d' & E & Hs & Hch' & Hlm & Hdisk).
  exists fs', d'. split; [done |]. split; [done |]. intros n buf Hn Hl.
  destruct (read_coherent fs' d' n buf Hch') as (i & fs'' & Er & _ & Ef & _ & Hch'').
  - destruct Hn as (Hnr & o & Hn). split; [done |]. exists o. apply (same_fs_place fs); [done |]. by apply (place_length fs d).
  - destruct Hs as (_ & -> & _). done.
  - exists i, fs''. split; [done |]. split; [done |]. rewrite Ef, (same_disk_inode fs fs') by done. by rewrite Hdisk.
Qed.

(** * Paths *)

(** The directories of the file system by inode number. *)
Definition dir_tree : Type := Z -> option (list entry).

Record tree_ok fs d (tree : dir_tree) : Prop := {
  tk_place : forall n es, tree n = Some es -> has_place fs d n;
  tk_dir : forall n es, tree n = Some es -> dir_ok es /\ holds fs d (disk_inode fs d n) (dir_bytes es);
  tk_entries : forall n es e, tree n = Some es -> e ∈ es -> live e = true -> has_place fs d (en_inode e);
}.

(** From directory [cur] through the segments: the last entry, the directory it
    is in and errno; None when a file is used as a directory. *)
Fixpoint walk (tree : dir_tree) (allowed : Z -> bool) (cur : Z) (segs : list cstring) (entry : option (list Z)) (parent errno : Z)
    : option (option (list Z) * Z * Z) :=
  match segs with
  | [] => Some (entry, parent, errno)
  | seg :: segs =>
    match tree cur with
    | None => None
    | Some es =>
      match dir_lookup es seg with
      | None => Some (None, cur, ENOENT)
      | Some (ino, type) =>
        if allowed ino then walk tree allowed ino segs (Some (vfs_dirent ino type seg)) cur errno
        else Some (None, cur, EACCES)
      end
    end
  end.

Lemma walk_ext tree f g cur segs entry parent errno :
  (forall n, f n = g n) -> walk tree f cur segs entry parent errno = walk tree g cur segs entry parent errno.
Proof.
  intros E. revert cur entry parent. induction segs as [| seg segs IH]; intros cur entry parent; [done |]. cbn [walk].
  destruct (tree cur); [| done]. destruct (dir_lookup _ seg) as [[ino ty] |]; [| done]. rewrite E, IH. done.
Qed.

(** The inode may be searched. *)
Definition may_exec fs d (task : option (Z * Z)) (num : Z) : bool :=
  negb (ext2_inode_check_perm PERM_CHECK_EXEC (disk_inode fs d num) task <? 0).

Lemma found_inode_vfs i t name : 0 <= i < 2 ^ 32 -> found_inode (vfs_dirent i t name) = i.
Proof. intros Hi. unfold found_inode, u32_at, vfs_dirent. by apply le_at_le_bytes. Qed.

Lemma tree_same fs fs' d tree : same_fs fs fs' -> tree_ok fs d tree -> tree_ok fs' d tree.
Proof.
  intros Hs [Hp Hd He]. split.
  - intros n es Hn. destruct (Hp n es Hn) as (Hnr & off & Ho). split; [done |]. exists off. by apply (same_fs_place fs).
  - intros n es Hn. destruct (Hd n es Hn) as [? Hh]. split; [done |]. rewrite (same_disk_inode fs fs') by done. by apply (same_fs_holds fs).
  - intros n es e Hn Hin Hl. destruct (He n es e Hn Hin Hl) as (Hnr & off & Ho). split; [done |]. exists off. by apply (same_fs_place fs).
Qed.

Lemma find_loop_spec fuel fs d tree path_tmp pch sp toks inode cur entry parent errno task r :
  coherent fs d -> tree_ok fs d tree -> (length toks < fuel)%nat ->
  match toks with
  | [] => pch = None
  | tok :: toks' => exists q, pch = Some q /\ cstr path_tmp q tok /\
      match sp with None => toks' = [] | Some p => exists s, cstr path_tmp p s /\ toks' = tokens s end
  end ->
  Z.of_nat (length inode) = sb_inode_size (fs_superblock fs) -> fields inode = fields (disk_inode fs d cur) ->
  cur = match entry with Some e => found_inode e | None => ROOT_INODE end ->
  walk tree (may_exec fs d task) cur toks entry parent errno = Some r ->
  exists fs', find_loop fuel fs d path_tmp pch sp inode entry parent errno task = Ret (r, fs', d) /\ same_fs fs fs' /\ coherent fs' d.
Proof.
  revert fs path_tmp pch sp toks inode cur entry parent.
  induction fuel as [| fuel IH]; intros fs path_tmp pch sp toks inode cur entry parent Hch Htree Hf Hpch Hli Hfi Hcur Hwalk; [lia |].
  destruct toks as [| tok toks].
  { subst pch. cbn [walk] in Hwalk. injection Hwalk as <-. by exists fs. }
  destruct Hpch as (q & -> & Hq & Hsp). cbn [walk find_loop] in *. rewrite <- Hcur.
  destruct (tree cur) as [es |] eqn:Ec; [| done]. destruct (tk_dir _ _ _ Htree _ _ Ec) as [Hok Hh].
  pose proof (fields_holds fs d (disk_inode fs d cur) inode _ (eq_sym Hfi) Hh) as Hhi.
  rewrite (search_dir_spec fs d inode _ Hhi es path_tmp q tok eq_refl Hok Hq), bind_Ret, vfs_find.
  unfold dir_lookup in *. destruct (dir_find es tok) as [e |] eqn:Ef; cbn [fmap option_fmap option_map] in *.
  2: { simplify_eq. by exists fs. }
  destruct (dir_find_split es tok e Ef) as (es1 & es2 & Ees & Hlive & <- & _).
  assert (e ∈ es) as Hin by (rewrite Ees; apply elem_of_app; right; by left).
  pose proof (tk_entries _ _ _ Htree _ _ e Ec Hin Hlive) as Hpl.
  assert (0 <= en_inode e < 2 ^ 32) as Hir by (pose proof (dk_entries _ Hok) as Hall; rewrite Forall_forall in Hall; by apply (Hall e Hin)).
  rewrite found_inode_vfs by done.
  destruct (read_coherent fs d (en_inode e) inode Hch Hpl Hli) as (i & fs' & -> & Hl' & Ef' & Hs & Hch').
  rewrite bind_Ret. cbn [negb]. rewrite (fields_perm _ i (disk_inode fs d (en_inode e))) by done.
  unfold may_exec in Hwalk at 1. destruct (ext2_inode_check_perm _ _ _ <? 0); cbn [negb] in Hwalk.
  { simplify_eq. by exists fs'. }
  pose proof Hs as (_ & Esb & _).
  assert (forall pch' path' sp', match toks with
      | [] => pch' = None
      | tok' :: toks' => exists q', pch' = Some q' /\ cstr path' q' tok' /\
          match sp' with None => toks' = [] | Some p => exists s, cstr path' p s /\ toks' = tokens s end
      end -> exists fs'', find_loop fuel fs' d path' pch' sp' i (Some (vfs_dirent (en_inode e) (en_type e) (en_name e))) cur errno task
        = Ret (r, fs'', d) /\ same_fs fs fs'' /\ coherent fs'' d) as Hnext.
  { intros pch' path' sp' Hp'. destruct (IH fs' path' pch' sp' toks i (en_inode e) (Some (vfs_dirent (en_inode e) (en_type e) (en_name e))) cur)
      as (fs'' & E & Hs'' & Hch''); try done.
    - by apply (tree_same fs).
    - simpl in Hf. lia.
    - rewrite Esb. lia.
    - by rewrite (same_disk_inode fs fs').
    - by rewrite found_inode_vfs.
    - rewrite <- Hwalk. apply walk_ext. intros n. unfold may_exec. by rewrite (same_disk_inode fs fs').
    - exists fs''. split; [done |]. split; [by apply (same_fs_trans _ fs') | done]. }
  destruct sp as [p |].
  - destruct Hsp as (s & Hs' & ->). pose proof (strtok_r_spec path_tmp p s Hs') as Hst. destruct (tokens s) as [| tok' toks'] eqn:Etok.
    + rewrite Hst, bind_Ret. by apply Hnext.
    + destruct Hst as (q' & a' & last & -> & Hq' & _ & Hlast). rewrite bind_Ret. apply Hnext. by exists q'.
  - subst toks. cbn [strtok_r]. rewrite bind_Ret. by apply Hnext.
Qed.

Lemma find_resolves fs d tree path errno task r :
  coherent fs d -> tree_ok fs d tree -> has_place fs d ROOT_INODE -> Forall (fun c => 0 < c < 256) path ->
  let path' := if bool_decide (path = [SLASH]) then ROOT_DOT else path in
  walk tree (may_exec fs d task) ROOT_INODE (tokens (take 500 path')) None 0 errno = Some r ->
  exists fs', ext2_dirent_find fs d path errno task = Ret (r, fs', d) /\ same_fs fs fs' /\ coherent fs' d.
Proof.
  intros Hch Htree Hroot Hpath path' Hwalk. unfold ext2_dirent_find. fold path'.
  assert (cstr (path' ++ [0]) 0 path') as Hc.
  { apply cstr_of. unfold path'. case_bool_decide; [| done]. repeat constructor. }
  destruct (strlcpy_copies (fresh 501) 0 (path' ++ [0]) 0 501 path' Hc) as (tmp & E & Hlt & Htmp & _); [lia | done | rewrite fresh_length; lia |].
  unfold strndup. change (500 + 1) with 501. rewrite E, !bind_Ret. change (Z.to_nat (501 - 1)) with 500%nat in Htmp.
  set (p := take 500 path') in *. rewrite fresh_length in Hlt.
  assert (length (tokens p) < S (length tmp))%nat as Hfuel.
  { pose proof (length_tokens p). unfold p in *. rewrite length_take in *. lia. }
  assert (exists pch tmp' sp, strtok_r tmp [SLASH] (Some 0) = Ret (pch, tmp', sp) /\ length tmp' = length tmp /\
    match tokens p with
    | [] => pch = None
    | tok :: toks => exists q, pch = Some q /\ cstr tmp' q tok /\
        match sp with None => toks = [] | Some p => exists s, cstr tmp' p s /\ toks = tokens s end
    end) as (pch & tmp' & sp & -> & Hl' & Hp).
  { pose proof (strtok_r_spec tmp 0 p Htmp) as Hst. destruct (tokens p) as [| tok toks]; [by do 3 eexists |].
    destruct Hst as (q & a' & last & -> & Hq & Hla & Hlast). do 3 eexists. split; [done |]. split; [done |]. by exists q. }
  rewrite bind_Ret. pose proof (cw_size _ (ch_wf _ _ Hch)) as Hsz. unfold SIZEOF_INODE in Hsz.
  destruct (read_coherent fs d ROOT_INODE (fresh (sb_inode_size (fs_superblock fs))) Hch Hroot) as (i & fs' & -> & Hli & Hfi & Hs & Hch');
    [rewrite fresh_length; lia |].
  rewrite bind_Ret. cbn [negb]. rewrite fresh_length in Hli. pose proof Hs as (_ & Esb & _).
  destruct (find_loop_spec (S (length tmp')) fs' d tree tmp' pch sp (tokens p) i ROOT_INODE None 0 errno task r)
    as (fs'' & -> & Hs'' & Hch''); try done.
  - by apply (tree_same fs).
  - by rewrite Hl'.
  - rewrite Esb. lia.
  - by rewrite (same_disk_inode fs fs').
  - rewrite <- Hwalk. apply walk_ext. intros n. unfold may_exec. by rewrite (same_disk_inode fs fs').
  - exists fs''. split; [done |]. split; [by apply (same_fs_trans _ fs') | done].
Qed.

(** C18: [ext2_dirent_find] resolves a path as walking from the root directory
    through its segments does: it gives the entry of the last segment and the
    directory that entry is in, ENOENT when a segment does not exist and EACCES
    when the task may not search what it names; the disk does not change and the
    cache stays coherent.  Of the path the first 500 characters count. *)
Theorem ext2_dirent_find_correct fs d tree path errno task r :
  coherent fs d -> tree_ok fs d tree -> has_place fs d ROOT_INODE -> Forall (fun c => 0 < c < 256) path ->
  let path' := if bool_decide (path = [SLASH]) then ROOT_DOT else path in
  walk tree (may_exec fs d task) ROOT_INODE (tokens (take 500 path')) None 0 errno = Some r ->
  exists fs', ext2_dirent_find fs d path errno task = Ret (r, fs', d) /\ same_fs fs fs' /\ coherent fs' d.
Proof. apply find_resolves. Qed.

End Lookup.
