(* ===== verification/Ext2FsSpec.v ===== *)
(** The callbacks of ext2 (Ext2Fs.v): which error a call gives and that it then
    leaves the disk alone, and what changing the mode of a file does. *)
From stdpp Require Import base numbers list gmap.
From Stdlib Require Import ZArith Lia Bool.
From S2P Require Import Prelude Str Bytes Path Mount Vfs Bitmap Block Ext2 Ext2Spec Ext2Dir Ext2Fs Ext2DirSpec Ext2Lookup.

Open Scope Z_scope.

Section Ext2FsSpec.
Context {D : Type} `{DiskLaws D} `{FreshMemory}.
Implicit Types (fs : ext2_fs) (d : D).

(** What a path names: its entry, the directory that is in, and errno. *)
Definition resolve fs d (tree : dir_tree) (path : cstring) (errno : Z) (task : option (Z * Z)) : option (option (list Z) * Z * Z) :=
  walk tree (may_exec fs d task) ROOT_INODE (tokens (take 500 (if bool_decide (path = [SLASH]) then ROOT_DOT else path))) None 0 errno.

(** A file system with the directories of [tree]. *)
Record mounted fs d (tree : dir_tree) : Prop := {
  mo_coherent : coherent fs d;
  mo_tree : tree_ok fs d tree;
  mo_root : has_place fs d ROOT_INODE;
}.

Definition is_path (path : cstring) : Prop := Forall (fun c => 0 < c < 256) path.

Lemma walk_place fs d tree allowed cur segs entry parent errno e p er :
  tree_ok fs d tree -> (forall x, entry = Some x -> has_place fs d (found_inode x)) ->
  walk tree allowed cur segs entry parent errno = Some (Some e, p, er) -> has_place fs d (found_inode e).
Proof.
  intros Ht. revert cur entry parent. induction segs as [| seg segs IH]; intros cur entry parent He E; cbn [walk] in E.
  { simplify_eq. by apply He. }
  destruct (tree cur) as [es |] eqn:Ec; [| done]. unfold dir_lookup in E. destruct (dir_find es seg) as [x |] eqn:Ef; [| done].
  cbn [fmap option_fmap option_map] in E. destruct (allowed (en_inode x)); [| done]. eapply IH; [| exact E]. intros y [= <-].
  destruct (dir_find_split es seg x Ef) as (es1 & es2 & -> & Hlive & _ & _).
  assert (has_place fs d (en_inode x)) as Hx by (eapply (tk_entries _ _ _ Ht _ _ x Ec); [apply elem_of_app; right; by left | done]).
  rewrite found_inode_vfs; [done |]. destruct Hx. lia.
Qed.

(** The start of most callbacks. *)
Lemma find_and_read_spec fs d tree path errno task r p er :
  mounted fs d tree -> is_path path -> resolve fs d tree path errno task = Some (r, p, er) ->
  exists fs', same_fs fs fs' /\ coherent fs' d /\
    match r with
    | None => find_and_read fs d path errno task = Ret (None, ENOENT, fs', d)
    | Some e => has_place fs d (found_inode e) /\ exists i, find_and_read fs d path errno task = Ret (Some (e, i, p), er, fs', d) /\
        fields i = fields (disk_inode fs d (found_inode e)) /\ Z.of_nat (length i) = sb_inode_size (fs_superblock fs)
    end.
Proof.
  intros [Hch Ht Hr] Hp Hres. destruct (find_resolves fs d tree path errno task _ Hch Ht Hr Hp Hres) as (fs1 & E & Hs & Hch1).
  unfold find_and_read. rewrite E, bind_Ret. destruct r as [e |]; [| by exists fs1].
  assert (has_place fs d (found_inode e)) as Hpl by (by eapply walk_place; [exact Ht | | exact Hres]).
  assert (has_place fs1 d (found_inode e)) as Hpl1 by (destruct Hpl as (? & o & Ho); split; [done |]; exists o; by apply (same_fs_place fs)).
  assert (0 <= sb_inode_size (fs_superblock fs1)) as Hsz by (pose proof (cw_size _ (ch_wf _ _ Hch1)); unfold SIZEOF_INODE in *; lia).
  destruct (read_coherent fs1 d (found_inode e) (inode_buffer fs1) Hch1 Hpl1) as (i & fs2 & -> & Hl & Ef & Hs2 & Hch2);
    [unfold inode_buffer; rewrite fresh_length; lia |].
  rewrite bind_Ret. exists fs2. split; [by apply (same_fs_trans _ fs1) |]. split; [done |]. split; [done |]. exists i.
  split; [done |]. rewrite Ef, (same_disk_inode fs fs1) by done. split; [done |]. rewrite Hl. unfold inode_buffer.
  rewrite fresh_length. destruct Hs as (_ & <- & _). lia.
Qed.

(** * Errors *)

(** Why [do_unlink] refuses to remove an entry, in the order of the checks. *)
Definition unlink_refusal (is_dir : bool) (inode : list Z) (num : Z) (task : option (Z * Z)) : option Z :=
  let dir := vfs_mode_to_filetype (in_mode inode) =? FT_IFDIR in
  if num =? ROOT_INODE then Some EACCES
  else if ext2_inode_check_perm PERM_CHECK_WRITE inode task <? 0 then Some EACCES
  else if is_dir && negb dir then Some ENOTDIR
  else if is_dir && (2 <? in_link_count inode) then Some ENOTEMPTY
  else if negb is_dir && dir then Some EISDIR else None.

(** The error of changing the owner or the mode. *)
Definition owner_refusal fs d (r : option (list Z)) (euid : Z) : option Z :=
  match r with
  | None => Some ENOENT
  | Some e => if in_uid (disk_inode fs d (found_inode e)) =? euid then None else Some EPERM
  end.

Lemma get_owner_spec fs d tree path errno euid egid r p er :
  mounted fs d tree -> is_path path -> resolve fs d tree path errno (Some (euid, egid)) = Some (r, p, er) ->
  exists fs', same_fs fs fs' /\ coherent fs' d /\
    match owner_refusal fs d r euid with
    | Some err => get_inode_and_check_owner fs d path errno (Some (euid, egid)) = Ret (None, err, fs', d)
    | None => exists e i, r = Some e /\ get_inode_and_check_owner fs d path errno (Some (euid, egid)) = Ret (Some (e, i), er, fs', d) /\
        fields i = fields (disk_inode fs d (found_inode e)) /\ Z.of_nat (length i) = sb_inode_size (fs_superblock fs)
    end.
Proof.
  intros Hm Hp Hres. destruct (find_and_read_spec fs d tree path errno _ r p er Hm Hp Hres) as (fs' & Hs & Hch & Hr).
  exists fs'. split; [done |]. split; [done |]. unfold get_inode_and_check_owner, owner_refusal. destruct r as [e |].
  - destruct Hr as (_ & i & -> & Ef & Hl). rewrite bind_Ret. unfold in_uid. rewrite (fields_u16 i _ 2 Ef) by lia.
    destruct (Z.eqb_spec (u16_at (disk_inode fs d (found_inode e)) 2) euid); cbn [negb]; [| done]. by exists e, i.
  - by rewrite Hr, bind_Ret.
Qed.

(** chmod and chown are refused, with ENOENT for a path that names nothing
    and EPERM for a file of another user, root included; a call that is refused
    leaves the disk as it is. *)
Theorem ext2_owner_refused fs d tree path errno euid egid r p er err mode uid gid :
  mounted fs d tree -> is_path path -> resolve fs d tree path errno (Some (euid, egid)) = Some (r, p, er) ->
  owner_refusal fs d r euid = Some err ->
  exists fs', ext2_chmod fs d path errno (Some (euid, egid)) mode = Ret (-1, err, fs', d) /\
    ext2_chown fs d path errno (Some (euid, egid)) uid gid = Ret (-1, err, fs', d) /\ same_fs fs fs' /\ coherent fs' d.
Proof.
  intros Hm Hp Hres Herr. destruct (get_owner_spec fs d tree path errno euid egid r p er Hm Hp Hres) as (fs' & Hs & Hch & Hr).
  rewrite Herr in Hr. exists fs'. unfold ext2_chmod, ext2_chown. by rewrite Hr, !bind_Ret.
Qed.

(** C33: [unlink] and [rmdir] give the error of the first check that fails, and
    then leave the disk as it is: ENOENT for a path that names nothing, EACCES for
    the root directory or without write permission, ENOTDIR, ENOTEMPTY by the
    number of links, EISDIR. *)
Theorem ext2_unlink_refused fs d tree t path is_dir errno task r p er err :
  mounted fs d tree -> is_path path -> resolve fs d tree path errno task = Some (r, p, er) ->
  match r with
  | None => Some ENOENT
  | Some e => if p =? 0 then Some ENOENT else unlink_refusal is_dir (disk_inode fs d (found_inode e)) (found_inode e) task
  end = Some err ->
  exists fs', do_unlink fs d t path is_dir errno task = Ret (-1, err, fs', d) /\ same_fs fs fs' /\ coherent fs' d.
Proof.
  intros [Hch Ht Hr] Hp Hres Herr. destruct (find_resolves fs d tree path errno task _ Hch Ht Hr Hp Hres) as (fs1 & E & Hs & Hch1).
  unfold do_unlink. rewrite E, bind_Ret. destruct r as [e |]; [| simplify_eq; by exists fs1].
  destruct (p =? 0); [simplify_eq; by exists fs1 |]. unfold unlink_refusal in Herr.
  destruct (found_inode e =? ROOT_INODE); [simplify_eq; by exists fs1 |].
  assert (has_place fs1 d (found_inode e)) as Hpl1.
  { assert (has_place fs d (found_inode e)) as (? & o & Ho) by (by eapply walk_place; [exact Ht | | exact Hres]).
    split; [done |]. exists o. by apply (same_fs_place fs). }
  assert (0 <= sb_inode_size (fs_superblock fs1)) as Hsz by (pose proof (cw_size _ (ch_wf _ _ Hch1)); unfold SIZEOF_INODE in *; lia).
  destruct (read_coherent fs1 d (found_inode e) (inode_buffer fs1) Hch1 Hpl1) as (i & fs2 & -> & Hl & Ef & Hs2 & Hch2);
    [unfold inode_buffer; rewrite fresh_length; lia |].
  rewrite bind_Ret. cbn [negb]. rewrite (same_disk_inode fs fs1) in Ef by done.
  rewrite (fields_perm _ i _ task Ef). unfold in_link_count, in_mode. rewrite (fields_u16 i _ 26 Ef), (fields_u16 i _ 0 Ef) by lia.
  fold (in_mode (disk_inode fs d (found_inode e))) (in_link_count (disk_inode fs d (found_inode e))).
  pose proof (same_fs_trans _ _ _ Hs Hs2) as Hs'.
  repeat match goal with
    | H : (if ?b then _ else _) = Some _ |- context [if ?b then _ else _] => destruct b; [simplify_eq; by exists fs2 |]
    end.
  done.
Qed.

(** * Changing the mode *)

Lemma set_mode_fields i i' x : fields i = fields i' -> fields (set_mode i x) = fields (set_mode i' x).
Proof.
  intros E. assert (forall l : list Z, fields (set_mode l x) = le_bytes 2 (u16 x) ++ drop 2 (fields l)) as Hl.
  { intros l. unfold fields, set_mode, set_u16, splice. change (take (Z.to_nat 0) l) with (@nil Z).
    change (Z.to_nat 0 + length (le_bytes 2 (u16 x)))%nat with 2%nat. change (Z.to_nat SIZEOF_INODE) with 130%nat. cbn [app].
    rewrite skipn_firstn_comm. by rewrite take_app_ge by (cbn; lia). }
  by rewrite !Hl, E.
Qed.

Lemma length_set_mode i x : (2 <= length i)%nat -> length (set_mode i x) = length i.
Proof. intros Hl. unfold set_mode, set_u16. apply length_splice; [lia | cbn; lia]. Qed.

Lemma in_mode_set i x : 0 <= x < 2 ^ 16 -> in_mode (set_mode i x) = x.
Proof.
  intros Hx. unfold in_mode, set_mode, set_u16, u16_at, splice. change (take (Z.to_nat 0) i) with (@nil Z). cbn [app].
  unfold u16. rewrite Z.mod_small by done. by apply le_at_le_bytes.
Qed.

(** The mode [chmod] gives a file: the type stays. *)
Definition new_mode (old mode : Z) : Z := Z.lor (Z.land old 0xf000) (Z.land mode 0xfff).

Lemma new_mode_range old mode : 0 <= new_mode old mode < 2 ^ 16.
Proof.
  assert (0 <= new_mode old mode) as Hn by (apply Z.lor_nonneg; split; apply Z.land_nonneg; right; lia).
  split; [done |]. assert (new_mode old mode = Z.land (new_mode old mode) (Z.ones 16)) as ->.
  { unfold new_mode. rewrite Z.land_lor_distr_l, <- !Z.land_assoc. done. }
  rewrite Z.land_ones by lia. apply Z.mod_pos_bound. lia.
Qed.

(** the owner changes the permissions of a file: the twelve permission bits
    of its inode on the disk become those asked for, its type and every other
    field stay, and no other inode changes. *)
Theorem ext2_chmod_correct fs d tree path errno euid egid e p er mode off :
  mounted fs d tree -> is_path path -> resolve fs d tree path errno (Some (euid, egid)) = Some (Some e, p, er) ->
  in_uid (disk_inode fs d (found_inode e)) = euid -> own_place fs d (found_inode e) off ->
  exists fs' d', ext2_chmod fs d path errno (Some (euid, egid)) mode = Ret (0, er, fs', d') /\ coherent fs' d' /\
    let old := disk_inode fs d (found_inode e) in
    fields (disk_inode fs' d' (found_inode e)) = fields (set_mode old (new_mode (in_mode old) mode)) /\
    (forall n, has_place fs d n -> n <> found_inode e -> disk_inode fs' d' n = disk_inode fs d n) /\
    in_mode (disk_inode fs' d' (found_inode e)) = new_mode (in_mode old) mode.
Proof.
  intros Hm Hp Hres Hu Hown. destruct (get_owner_spec fs d tree path errno euid egid _ p er Hm Hp Hres) as (fs1 & Hs & Hch & Hr).
  unfold owner_refusal in Hr. rewrite Hu, Z.eqb_refl in Hr. destruct Hr as (e' & i & [= <-] & Ei & Ef & Hl).
  unfold ext2_chmod. rewrite Ei, bind_Ret. unfold vfs_mode_to_filetype. fold (new_mode (in_mode i) mode).
  assert (in_mode i = in_mode (disk_inode fs d (found_inode e))) as Em by (by apply fields_u16). rewrite Em.
  set (m := new_mode _ mode). pose proof (new_mode_range (in_mode (disk_inode fs d (found_inode e))) mode) as Hmr. fold m in Hmr.
  assert (own_place fs1 d (found_inode e) off) as Hown1.
  { destruct Hown as (Hpl & Hn & Ho). split; [by apply (same_fs_place fs) |]. split; [done |]. intros n o Hn' Hpo Hne.
    destruct Hs as (E1 & E2 & E3). rewrite E2. apply (Ho n); [done | | done]. by apply (same_fs_place fs1); [apply same_fs_sym |]. }
  pose proof (cw_size _ (ch_wf _ _ Hch)) as Hsz. unfold SIZEOF_INODE in Hsz. pose proof Hs as (_ & Esb & _).
  destruct (write_coherent fs1 d (found_inode e) off (set_mode i m) Hch Hown1) as (fs2 & d2 & -> & Hs2 & Hch2 & Hlm & Hd2).
  { rewrite Esb in Hsz |- *. rewrite length_set_mode; lia. }
  rewrite bind_Ret. exists fs2, d2. split; [done |]. split; [done |]. cbv zeta.
  assert (forall n, has_place fs d n -> disk_inode fs2 d2 n = if decide (n = found_inode e) then set_mode i m else disk_inode fs d n) as Hdi.
  { intros n (Hnr & o & Ho). rewrite (same_disk_inode fs1 fs2) by done.
    rewrite Hd2 by (split; [done |]; exists o; by apply (same_fs_place fs)). by rewrite (same_disk_inode fs fs1). }
  destruct Hown as (Hpl & Hnr & _). rewrite Hdi, decide_True; [| done | split; [done | by exists off]].
  split; [by apply set_mode_fields |]. split; [| by apply in_mode_set].
  intros n Hn Hne. by rewrite Hdi, decide_False.
Qed.

End Ext2FsSpec.
