(* ===== verification/Ext2Example.v ===== *)
(** A small ext2 file system, on which the theorems about ext2 directories are
    used and on which the code is shown to fall short: ten blocks of 1 KiB, eight
    inodes in block 5, the root directory in block 8 with the directory [a] in
    it, which is in block 9 and has a file [f]. *)
From stdpp Require Import base numbers list gmap.
From Stdlib Require Import ZArith Lia Bool.
From S2P Require Import Prelude Str Bytes Path Mount Vfs VfsSpec Bitmap Block Ext2 Ext2Spec Ext2Dir Ext2Fs Ext2Vfs Ext2DirSpec Ext2Lookup Ext2FsSpec.

Open Scope Z_scope.

#[global] Instance some_memory : FreshMemory := {
  fresh n := replicate (Z.to_nat n) 170;
  fresh_length n := length_replicate (Z.to_nat n) 170;
}.

Definition root_dir : list entry :=
  [Entry 2 2 [DOT] (replicate 3 0); Entry 2 2 [DOT; DOT] (replicate 2 0); Entry 3 2 [97] (replicate 991 0)].

Definition a_dir : list entry :=
  [Entry 3 2 [DOT] (replicate 3 0); Entry 2 2 [DOT; DOT] (replicate 2 0); Entry 4 1 [102] (replicate 991 0)].

(** An inode with one block. *)
Definition small_inode (mode size block : Z) : list Z :=
  set_u32 (set_u32 (set_u16 (replicate 256 0) 0 mode) 4 size) 40 block.

Definition small_disk : list Z :=
  replicate 5120 0 ++ replicate 256 0 ++ small_inode 0x41ed 1024 8 ++ small_inode 0x41c0 1024 9 ++ small_inode 0x81a4 3 7 ++
  replicate 2048 0 ++ dir_bytes root_dir ++ dir_bytes a_dir.

Definition small_superblock : list Z :=
  set_u16 (set_u32 (set_u32 (set_u32 (replicate 1024 0) 4 10) 32 8192) 40 8) 88 256.

Definition small_groups : list Z := set_u32 (set_u32 (set_u32 (replicate 1024 0) 0 3) 4 4) 8 5.

Definition small_fs : ext2_fs :=
  Ext2 ex_dev small_superblock small_groups None (replicate 256 (0, replicate 130 0)) 0.

Lemma small_length : Z.of_nat (length small_disk) = 10240.
Proof. vm_compute. reflexivity. Qed.

Lemma small_fs_ok : fs_ok small_fs.
Proof. split; [split |]; vm_compute; split; discriminate || reflexivity. Qed.

Lemma small_cache_wf : cache_wf small_fs.
Proof.
  split.
  - vm_compute. split; [discriminate | reflexivity].
  - discriminate.
  - apply Forall_forall. intros x Hx. apply elem_of_replicate in Hx as [-> _]. reflexivity.
  - reflexivity.
  - vm_compute. split; [discriminate | reflexivity].
Qed.

Lemma small_find n : 0 < n < 2 ^ 32 -> find_inode small_fs n = Ret (if n <=? 8 then 5120 + 256 * (n - 1) else 0).
Proof.
  intros Hn. unfold find_inode, inode_to_blockgroup.
  change (sb_inodes_per_group (fs_superblock small_fs)) with 8. change (sb_blocks_per_group (fs_superblock small_fs)) with 8192.
  change (sb_block_count (fs_superblock small_fs)) with 10. change (sb_inode_size (fs_superblock small_fs)) with 256.
  rewrite (u32_small (n - 1)) by lia. cbn [Z.eqb]. rewrite bind_Ret. change (10 / 8192) with 0.
  destruct (Z.leb_spec n 8).
  - rewrite (Z.div_small (n - 1) 8), (Z.mod_small (n - 1) 8) by lia. cbn [Z.ltb Z.compare].
    change (bg_inode_table small_fs 0) with (Ret 5 : outcome Z). rewrite bind_Ret. cbn [Z.eqb].
    change (bl_off small_fs 5) with 5120. rewrite u32_small, u64_small by lia. f_equal. lia.
  - assert (1 <= (n - 1) / 8) by (apply Z.div_le_lower_bound; lia). destruct (Z.ltb_spec 0 ((n - 1) / 8)); [done | lia].
Qed.

Lemma small_place n : 0 < n <= 8 -> inode_place small_fs small_disk n (5120 + 256 * (n - 1)).
Proof.
  intros Hn. split; [rewrite small_find by lia; by rewrite (proj2 (Z.leb_le n 8)) by lia |]. split; [lia |].
  change (sb_inode_size (fs_superblock small_fs)) with 256. split; [lia |]. split; [lia |].
  change (dev_base (fs_dev small_fs)) with 0. change (disk_bytes (bd_meta (fs_dev small_fs)) small_disk) with small_disk.
  rewrite small_length. assert ((5120 + 256 * (n - 1) + 256 + 511) / 512 < 16); [apply Z.div_lt_upper_bound; lia | lia].
Qed.

Lemma small_has n : 0 < n <= 8 -> has_place small_fs small_disk n.
Proof. intros Hn. split; [lia |]. eexists. by apply small_place. Qed.

Lemma small_own n : 0 < n <= 8 -> own_place small_fs small_disk n (5120 + 256 * (n - 1)).
Proof.
  intros Hn. split; [by apply small_place |]. split; [lia |]. intros k o Hk (E & Ho & _) Hne.
  rewrite small_find in E by lia. injection E as <-. change (sb_inode_size (fs_superblock small_fs)) with 256.
  destruct (Z.leb_spec k 8); lia.
Qed.

Lemma small_coherent : coherent small_fs small_disk.
Proof.
  assert (forall k num c, fs_inode_cache small_fs !! k = Some (num, c) -> num = 0) as Hz.
  { intros k num c Hk. apply lookup_replicate in Hk as [E _]. by injection E. }
  split; [apply small_fs_ok | apply small_cache_wf | | discriminate |].
  - exists 0%nat. split; [| done |].
    + intros k num c Hk. apply Hz in Hk. lia.
    + intros i j num c c' Hi _ Hn. by apply Hz in Hi.
  - intros k num c Hk Hn. by apply Hz in Hk.
Qed.

(** The inode of a directory. *)
Definition dir_inode (block : Z) : list Z := disk_inode small_fs small_disk (block - 6).

Definition holds_check (inode data : list Z) : bool :=
  forallb (fun p => bool_decide (media small_fs small_disk !! Z.to_nat (file_pos small_fs small_disk inode p) = data !! Z.to_nat p))
    (seqZ 0 1024).

Lemma small_holds k es :
  k = 8 \/ k = 9 -> Z.of_nat (length (dir_bytes es)) = 1024 -> holds_check (dir_inode k) (dir_bytes es) = true ->
  holds small_fs small_disk (dir_inode k) (dir_bytes es).
Proof.
  intros Hk Hl Hc. unfold holds_check in Hc. rewrite forallb_forall in Hc.
  assert (in_size (dir_inode k) = 1024 /\ in_block (dir_inode k) 0 = k /\ in_block (dir_inode k) 12 = 0 /\ in_block (dir_inode k) 13 = 0)
    as (Es & E0 & E12 & E13) by (destruct Hk as [-> | ->]; vm_compute; done).
  split; [apply small_fs_ok | | by rewrite Es, Hl | rewrite Hl; lia | |].
  - split; congruence.
  - intros j Hj Hlt. rewrite Hl in Hlt. change (block_size small_fs) with 1024 in Hlt. assert (j = 0) as -> by lia.
    change (bmap small_fs small_disk (dir_inode k) 0) with (in_block (dir_inode k) 0). rewrite E0.
    unfold block_ok. change (block_size small_fs) with 1024. change (base_of small_fs) with 0.
    change (media small_fs small_disk) with small_disk. rewrite small_length. lia.
  - intros p Hp. specialize (Hc p). apply bool_decide_eq_true_1 in Hc; [done |]. apply list_elem_of_In, elem_of_seqZ. lia.
Qed.

Lemma root_holds : holds small_fs small_disk (dir_inode 8) (dir_bytes root_dir).
Proof. apply small_holds; [by left | vm_compute; reflexivity | vm_compute; reflexivity]. Qed.

Lemma a_holds : holds small_fs small_disk (dir_inode 9) (dir_bytes a_dir).
Proof. apply small_holds; [by right | vm_compute; reflexivity | vm_compute; reflexivity]. Qed.

Lemma small_direct k : k = 8 \/ k = 9 -> direct_file small_fs (dir_inode k).
Proof.
  intros Hk. assert (in_size (dir_inode k) = 1024 /\ in_block (dir_inode k) 12 = 0 /\ in_block (dir_inode k) 13 = 0)
    as (Es & E12 & E13) by (destruct Hk as [-> | ->]; vm_compute; done).
  split; [done | done | rewrite Es; change (block_size small_fs) with 1024; lia |].
  rewrite Es. change (block_size small_fs) with 1024. intros. lia.
Qed.

Definition entry_check (e : entry) : bool :=
  (0 <=? en_inode e) && (en_inode e <? 2 ^ 32) && (en_len e <? 2 ^ 16) && (Z.of_nat (length (en_name e)) <? 256) &&
  forallb (fun c => (0 <? c) && (c <? 256)) (en_name e) && (need (en_name e) <=? en_len e).

Lemma entry_check_ok es : forallb entry_check es = true -> Forall entry_ok es /\ Forall packed es.
Proof.
  intros Hc. rewrite forallb_forall in Hc.
  assert (forall e, e ∈ es -> entry_ok e /\ packed e) as Hall.
  { intros e He. apply list_elem_of_In, Hc in He. unfold entry_check in He. rewrite !andb_true_iff, forallb_forall in He.
    destruct He as (((((H1%Z.leb_le & H2%Z.ltb_lt) & H3%Z.ltb_lt) & H4%Z.ltb_lt) & H5) & H6%Z.leb_le).
    split; [| by intros _]. split; [done | done | lia |]. intros _. apply Forall_forall. intros c Hin.
    specialize (H5 c). rewrite andb_true_iff, !Z.ltb_lt in H5. apply H5. by apply list_elem_of_In. }
  split; apply Forall_forall; apply Hall.
Qed.

Lemma root_entries : Forall entry_ok root_dir /\ Forall packed root_dir.
Proof. apply entry_check_ok. vm_compute. reflexivity. Qed.

Lemma a_entries : Forall entry_ok a_dir /\ Forall packed a_dir.
Proof. apply entry_check_ok. vm_compute. reflexivity. Qed.

Lemma root_dir_ok : dir_ok root_dir.
Proof. split; [apply root_entries | intros e [= <-]; discriminate]. Qed.

Lemma a_dir_ok : dir_ok a_dir.
Proof. split; [apply a_entries | intros e [= <-]; discriminate]. Qed.

(** The file system after an inode was read. *)
Definition fs_after (num : Z) : ext2_fs :=
  match ext2_inode_read small_fs small_disk (fresh 256) num with Ret (_, _, fs, _) => fs | _ => small_fs end.

Lemma read_dir k : k = 8 \/ k = 9 ->
  ext2_inode_read small_fs small_disk (fresh 256) (k - 6) = Ret (true, dir_inode k, fs_after (k - 6), small_disk).
Proof. intros [-> | ->]; vm_compute; reflexivity. Qed.

Lemma ext2_dirent_add_correct_witness :
  exists fs' d', ext2_dirent_add small_fs small_disk 2 4 [98] 1 = Ret (fs', d') /\
    search_dir fs' d' (dir_inode 8) [98; 0] 0 = Ret (Some (vfs_dirent 4 1 [98]), dir_inode 8, fs', d').
Proof.
  destruct (ext2_dirent_add_correct small_fs small_disk 2 4 [98] 1 (dir_inode 8) (fs_after 2) root_dir 5376 5888)
    as (fs' & d' & es' & E & _ & _ & _ & Hs).
  - apply small_fs_ok.
  - apply small_cache_wf.
  - discriminate.
  - by apply (small_place 2).
  - apply (read_dir 8). by left.
  - vm_compute. reflexivity.
  - apply root_holds.
  - apply small_direct. by left.
  - apply root_dir_ok.
  - apply root_entries.
  - split; [repeat constructor | simpl; lia].
  - lia.
  - reflexivity.
  - vm_compute. discriminate.
  - by apply (small_place 4).
  - intros k Hk Hlt. change (in_size (dir_inode 8)) with 1024 in Hlt. change (block_size small_fs) with 1024 in *.
    assert (k = 0) as -> by lia. left. change (in_block (dir_inode 8) 0) with 8.
    change (sb_inode_size (fs_superblock small_fs)) with 256. lia.
  - exists fs', d'. split; [exact E |]. destruct (Hs [98] [98; 0] 0) as (r & _ & Hr); [| by rewrite decide_True in Hr by done].
    apply (cstr_of [98]). repeat constructor.
Defined.

Lemma ext2_dirent_rm_correct_witness :
  exists fs' d', ext2_dirent_rm small_fs small_disk 3 [102] = Ret (fs', d') /\
    search_dir fs' d' (dir_inode 9) [102; 0] 0 = Ret (None, dir_inode 9, fs', d').
Proof.
  destruct (ext2_dirent_rm_correct small_fs small_disk 3 [102] (dir_inode 9) (fs_after 3) a_dir 5632)
    as (fs' & d' & es' & E & _ & _ & _ & Hs).
  - apply small_fs_ok.
  - apply small_cache_wf.
  - discriminate.
  - by apply (small_place 3).
  - apply (read_dir 9). by right.
  - apply a_holds.
  - apply small_direct. by right.
  - apply a_dir_ok.
  - apply a_entries.
  - split; [| vm_compute; reflexivity]. unfold bytes_ok. apply Forall_forall. intros x Hx.
    assert (forallb (fun x => (0 <=? x) && (x <? 256)) (dir_bytes a_dir) = true) as Hall by (vm_compute; reflexivity).
    rewrite forallb_forall in Hall. specialize (Hall x). rewrite andb_true_iff, Z.leb_le, Z.ltb_lt in Hall.
    apply Hall. by apply list_elem_of_In.
  - unfold names_unique. vm_compute. repeat constructor; rewrite ?elem_of_cons, ?elem_of_nil; intuition discriminate.
  - vm_compute. reflexivity.
  - repeat constructor.
  - vm_compute. discriminate.
  - exists fs', d'. split; [exact E |]. destruct (Hs [102] [102; 0] 0) as (r & _ & Hr); [| by rewrite decide_True in Hr by done].
    apply (cstr_of [102]). repeat constructor.
Defined.

Lemma ext2_inode_roundtrip_witness :
  exists fs' d' i fs'', ext2_inode_write small_fs small_disk (small_inode 1 2 3) 4 = Ret (true, fs', d') /\
    ext2_inode_read fs' d' (fresh 256) 4 = Ret (true, i, fs'', d') /\ fields i = fields (small_inode 1 2 3).
Proof.
  destruct (ext2_inode_roundtrip small_fs small_disk 4 5888 (small_inode 1 2 3)) as (fs' & d' & E & _ & Hr).
  - apply small_coherent.
  - by apply (small_own 4).
  - vm_compute. reflexivity.
  - destruct (Hr 4 (fresh 256)) as (i & fs'' & Er & _ & Ef); [apply small_has; lia | vm_compute; reflexivity |].
    exists fs', d', i, fs''. split; [exact E |]. split; [exact Er |]. exact Ef.
Defined.

Definition small_tree : dir_tree := fun n => if n =? 2 then Some root_dir else if n =? 3 then Some a_dir else None.

Lemma small_tree_ok : tree_ok small_fs small_disk small_tree.
Proof.
  assert (forall n es, small_tree n = Some es -> (n = 2 /\ es = root_dir) \/ (n = 3 /\ es = a_dir)) as Hc.
  { unfold small_tree. intros n es E. destruct (Z.eqb_spec n 2); [left; by simplify_eq |].
    destruct (Z.eqb_spec n 3); [right; by simplify_eq | done]. }
  split.
  - intros n es [[-> _] | [-> _]]%Hc; by apply small_has.
  - intros n es [[-> ->] | [-> ->]]%Hc; [split; [apply root_dir_ok | apply root_holds] | split; [apply a_dir_ok | apply a_holds]].
  - intros n es e [[-> ->] | [-> ->]]%Hc Hin _; apply small_has; repeat (apply elem_of_cons in Hin as [-> | Hin]; [simpl; lia |]);
      by apply not_elem_of_nil in Hin.
Qed.

(** The path /a/f. *)
Lemma ext2_dirent_find_correct_witness :
  exists fs', ext2_dirent_find small_fs small_disk [SLASH; 97; SLASH; 102] 0 None = Ret (Some (vfs_dirent 4 1 [102]), 3, 0, fs', small_disk).
Proof.
  destruct (ext2_dirent_find_correct small_fs small_disk small_tree [SLASH; 97; SLASH; 102] 0 None (Some (vfs_dirent 4 1 [102]), 3, 0))
    as (fs' & E & _ & _).
  - apply small_coherent.
  - apply small_tree_ok.
  - by apply small_has.
  - repeat constructor.
  - reflexivity.
  - exists fs'. exact E.
Defined.

(** * The callbacks *)

Lemma ext2_keeps_contract_witness :
  VfsBackendLaws (H := ext2_backend (fun s => s) (null_backend (ext2_world (list Z))) (fun _ => (0x100, 0x200)) 8) (ext2_world (list Z)).
Proof. apply (ext2_keeps_contract (fun s => s) (null_backend (ext2_world (list Z)))), null_backend_laws. Defined.

Lemma small_mounted : mounted small_fs small_disk small_tree.
Proof. split; [apply small_coherent | apply small_tree_ok | apply small_has; unfold ROOT_INODE; lia]. Qed.

Definition path_f : cstring := [SLASH; 97; SLASH; 102].

Lemma path_f_ok : is_path path_f.
Proof. repeat constructor. Qed.

(** The root directory belongs to root. *)
Lemma ext2_owner_refused_witness :
  exists fs', ext2_chmod small_fs small_disk [SLASH] 0 (Some (5, 5)) 0x1ff = Ret (-1, EPERM, fs', small_disk).
Proof.
  destruct (ext2_owner_refused small_fs small_disk small_tree [SLASH] 0 5 5 (Some (vfs_dirent 2 2 [DOT])) 2 0 EPERM 0x1ff 0 0)
    as (fs' & E & _ & _ & _).
  - apply small_mounted.
  - repeat constructor.
  - vm_compute. reflexivity.
  - vm_compute. reflexivity.
  - exists fs'. exact E.
Defined.

(** The file is no directory. *)
Lemma ext2_unlink_refused_witness :
  exists fs', do_unlink small_fs small_disk 7 path_f true 0 None = Ret (-1, ENOTDIR, fs', small_disk).
Proof.
  destruct (ext2_unlink_refused small_fs small_disk small_tree 7 path_f true 0 None (Some (vfs_dirent 4 1 [102])) 3 0 ENOTDIR)
    as (fs' & E & _ & _).
  - apply small_mounted.
  - apply path_f_ok.
  - vm_compute. reflexivity.
  - vm_compute. reflexivity.
  - exists fs'. exact E.
Defined.

Lemma ext2_chmod_correct_witness :
  exists fs' d', ext2_chmod small_fs small_disk path_f 0 (Some (0, 0)) 0x1ff = Ret (0, 0, fs', d') /\
    in_mode (disk_inode fs' d' 4) = 0x81ff.
Proof.
  destruct (ext2_chmod_correct small_fs small_disk small_tree path_f 0 0 0 (vfs_dirent 4 1 [102]) 3 0 0x1ff 5888)
    as (fs' & d' & E & _ & _ & _ & Em).
  - apply small_mounted.
  - apply path_f_ok.
  - vm_compute. reflexivity.
  - vm_compute. reflexivity.
  - by apply (small_own 4).
  - exists fs', d'. split; [exact E |]. exact Em.
Defined.

(** * Where the code falls short *)

(** A directory whose last name ends with the directory: looking for a name that
    is not there never ends. *)
Definition full_dir : list entry :=
  [Entry 2 2 [DOT] (replicate 3 0); Entry 3 1 [97] (replicate 991 0); Entry 4 1 (replicate 4 99) []].

Definition full_disk : list Z := splice small_disk 8192 (dir_bytes full_dir).

Lemma readdir_hangs : search_dir small_fs full_disk (dir_inode 8) [98; 0] 0 = Spin.
Proof. vm_compute. reflexivity. Qed.

(** Without a record that has room the new entry is stored behind the buffer. *)
Lemma dirent_add_overflows :
  let disk := splice small_disk 8192 (dir_bytes [Entry 2 2 [DOT] (replicate 3 0); Entry 3 1 (replicate 252 97) (replicate 752 0)]) in
  let full := [Entry 2 2 [DOT] (replicate 3 0); Entry 3 2 (replicate 255 97) (replicate 1 0); Entry 4 2 (replicate 255 98) (replicate 1 0);
    Entry 4 2 (replicate 255 99) (replicate 1 0); Entry 4 2 (replicate 205 99) (replicate 7 0)] in
  length (dir_bytes full) = 1024%nat /\
  (exists fs' d', ext2_dirent_add small_fs disk 2 4 [98] 1 = Ret (fs', d')) /\
  ext2_dirent_add small_fs (splice small_disk 8192 (dir_bytes full)) 2 4 [98] 1 = Fault.
Proof. split; [vm_compute; reflexivity |]. split; [do 2 eexists; vm_compute; reflexivity | vm_compute; reflexivity]. Qed.

(** A file in the middle of a path is read as a directory. *)
Lemma dirent_find_through_file :
  let disk := splice small_disk 5888 (small_inode 0x81a4 1024 9) in
  ('(r, _, _, _, _) ← ext2_dirent_find small_fs disk [SLASH; 97; SLASH; 102; SLASH; 102] 0 None; Ret (option_map found_inode r)) = Ret (Some 4).
Proof. vm_compute. reflexivity. Qed.

(** The type of an entry is not where the callers look for it. *)
Lemma found_type_lost i t name : found_type (vfs_dirent i t name) = 0.
Proof. reflexivity. Qed.

(** An owner of -1 is to leave the owner as it is; the 16-bit number never
    equals it. *)
Lemma chown_unset_changes :
  ('(r, _, fs, d) ← ext2_chown small_fs small_disk path_f 0 (Some (0, 0)) (-1) (-1);
   Ret (r, in_uid (disk_inode fs d 4), in_gid (disk_inode fs d 4))) = Ret (0, 65535, 65535).
Proof. vm_compute. reflexivity. Qed.

(** Writing the first byte of a file cuts the rest off. *)
Lemma write_shrinks_file :
  in_size (disk_inode small_fs small_disk 4) = 3 /\
  ('(r, _, fs, d) ← ext2_write small_fs small_disk 7 4 0 1 0 None [65]; Ret (r, in_size (disk_inode fs d 4))) = Ret (1, 1).
Proof. split; vm_compute; reflexivity. Qed.

(** Below a mount point other than / the path of a file in the top directory is
    a slash and its name; that file cannot be opened. *)
Lemma open_top_level_fails :
  ('(r, _, _, _, _) ← ext2_dirent_find small_fs small_disk [SLASH; 97] 0 None; Ret (option_map found_inode r)) = Ret (Some 3) /\
  ('(r, errno, _, _) ← open_inode small_fs small_disk 7 [SLASH; 97] 0 0 None; Ret (r, errno)) = Ret (OpenError, ENOENT).
Proof. split; vm_compute; reflexivity. Qed.

(** A symbolic link to itself is followed until the stack ends. *)
Definition link_inode : list Z := splice (small_inode 0xa1ff 4 0) 40 path_f.

Definition link_disk : list Z := splice small_disk 5888 link_inode.

Definition link_fs : ext2_fs :=
  match open_inode small_fs link_disk 7 path_f 0 0 None with Ret (_, _, fs, _) => fs | _ => small_fs end.

Lemma symlink_loop stack : open_loop stack link_fs link_disk 7 path_f 0 0 None = Spin.
Proof.
  assert (exists i, open_inode link_fs link_disk 7 path_f 0 0 None = Ret (OpenLink i, 0, link_fs, link_disk) /\
    symlink_path path_f i = Ret (Some path_f)) as (i & Eo & Es) by (eexists; split; vm_compute; reflexivity).
  induction stack as [| stack IH]; [done |]. cbn [open_loop]. by rewrite Eo, bind_Ret, Es, bind_Ret.
Qed.
