(* ===== verification/Syscall.v ===== *)
(** System calls: src/src/tasks/syscall.c with the table of src/src/tasks/syscalls.h.

    [int_handler] looks the call up in [syscall_table], maps the pointers among
    the arguments into the kernel, calls the handler and takes the mappings away
    again.  What it calls is the class [SyscallEnv]: mapping user memory
    (mem/vm.c, Vm.v), reading through such a mapping, the signal of a task, the
    handlers themselves and the file strace data goes to. *)
From stdpp Require Import base numbers list.
From Stdlib Require Import ZArith Lia Bool.
From S2P Require Import Prelude Task Vm.

Open Scope Z_scope.

Definition SCF_STATE : Z := 1.
Definition SCA_INT : Z := 1.
Definition SCA_POINTER : Z := 2.
Definition SCA_STRING : Z := 4.
Definition SCA_NULLOK : Z := 8.
Definition SCA_SIZE_IN_0 : Z := 16.
Definition SCA_SIZE_IN_1 : Z := 32.
Definition SCA_SIZE_IN_2 : Z := 64.
Definition SCA_FLEX_SIZE : Z := 128.

(** The functions the table names. *)
Inductive syscall_cb : Type :=
  | cb_task_exit | cb_vfs_read | cb_vfs_write | cb_vfs_access | cb_vfs_close
  | cb_vfs_mkdir | cb_task_sbrk | cb_task_mmap | cb_vfs_poll | cb_vfs_unlink
  | cb_vfs_chmod | cb_vfs_link | cb_vfs_open | cb_vfs_fstat | cb_vfs_seek
  | cb_vfs_getdents | cb_vfs_chown | cb_task_signal_syscall | cb_time_get_timeval | cb_task_chdir
  | cb_vfs_utimes | cb_task_fork | cb_vfs_rmdir | cb_net_socket | cb_net_bind
  | cb_vfs_ioctl | cb_vfs_pipe | cb_task_waitpid | cb_vfs_readlink | cb_task_execve
  | cb_task_sigaction | cb_task_sigprocmask | cb_vfs_fcntl | cb_net_listen | cb_net_accept
  | cb_net_getpeername | cb_net_getsockname | cb_task_setid | cb_vfs_stat | cb_vfs_dup2
  | cb_task_strace | cb_net_getaddr | cb_net_getname | cb_net_connect | cb_net_recvfrom
  | cb_vfs_mount | cb_vfs_umount | cb_vfs_realpath | cb_task_sleep.

(** [struct syscall_definition]; the name is for messages only. *)
Record syscall_definition : Type := Def {
  sd_handler : option syscall_cb;
  sd_flags : Z;
  sd_arg0_flags : Z;
  sd_arg1_flags : Z;
  sd_arg2_flags : Z;
  sd_ptr_size : Z;
}.

Definition no_call : syscall_definition := Def None 0 0 0 0 0.

(** The sizes of the structures are those of i386; [picotcp] is
    CONFIG_ENABLE_PICOTCP.  The table is written in two parts. *)
Definition syscalls_0_25 (picotcp : bool) : list syscall_definition := [
  (* 0 *) Def None 0 0 0 0 0;
  (* 1 exit *) Def (Some cb_task_exit) 0 SCA_INT 0 0 0;
  (* 2 read *) Def (Some cb_vfs_read) 0 SCA_INT (Z.lor SCA_POINTER (Z.lor SCA_SIZE_IN_2 SCA_NULLOK)) SCA_INT 0;
  (* 3 write *) Def (Some cb_vfs_write) 0 SCA_INT (Z.lor SCA_POINTER (Z.lor SCA_SIZE_IN_2 SCA_NULLOK)) SCA_INT 0;
  (* 4 access *) Def (Some cb_vfs_access) 0 SCA_STRING SCA_INT 0 0;
  (* 5 close *) Def (Some cb_vfs_close) 0 SCA_INT 0 0 0;
  (* 6 mkdir *) Def (Some cb_vfs_mkdir) 0 SCA_STRING SCA_INT 0 0;
  (* 7 sbrk *) Def (Some cb_task_sbrk) 0 SCA_INT 0 0 0;
  (* 8 mmap *) Def (Some cb_task_mmap) 0 SCA_POINTER 0 0 24;
  (* 9 poll *) Def (Some cb_vfs_poll) 0 (Z.lor SCA_POINTER SCA_SIZE_IN_1) SCA_INT SCA_INT 8;
  (* 10 unlink *) Def (Some cb_vfs_unlink) 0 SCA_STRING 0 0 0;
  (* 11 chmod *) Def (Some cb_vfs_chmod) 0 SCA_STRING SCA_INT 0 0;
  (* 12 link *) Def (Some cb_vfs_link) 0 SCA_STRING SCA_STRING 0 0;
  (* 13 open *) Def (Some cb_vfs_open) 0 SCA_STRING SCA_INT 0 0;
  (* 14 fstat *) Def (Some cb_vfs_fstat) 0 SCA_INT SCA_POINTER 0 72;
  (* 15 seek *) Def (Some cb_vfs_seek) 0 SCA_INT SCA_INT SCA_INT 0;
  (* 16 getdents *) Def (Some cb_vfs_getdents) 0 SCA_INT (Z.lor SCA_POINTER SCA_SIZE_IN_2) SCA_INT 0;
  (* 17 chown *) Def (Some cb_vfs_chown) 0 SCA_STRING SCA_INT SCA_INT 0;
  (* 18 signal *) Def (Some cb_task_signal_syscall) 0 SCA_INT SCA_INT 0 0;
  (* 19 time *) Def (Some cb_time_get_timeval) 0 SCA_POINTER 0 0 12;
  (* 20 chdir *) Def (Some cb_task_chdir) 0 SCA_STRING 0 0 0;
  (* 21 utimes *) Def (Some cb_vfs_utimes) 0 SCA_STRING SCA_POINTER 0 24;
  (* 22 fork *) Def (Some cb_task_fork) SCF_STATE 0 0 0 0;
  (* 23 rmdir *) Def (Some cb_vfs_rmdir) 0 SCA_STRING 0 0 0;
  (* 24 socket *) (if picotcp then Def (Some cb_net_socket) 0 SCA_INT SCA_INT SCA_INT 0 else no_call);
  (* 25 bind *) (if picotcp then Def (Some cb_net_bind) 0 SCA_INT (Z.lor SCA_POINTER SCA_SIZE_IN_2) SCA_INT 0 else no_call)].

Definition syscalls_26_53 (picotcp : bool) : list syscall_definition := [
  (* 26 ioctl *) Def (Some cb_vfs_ioctl) 0 SCA_INT SCA_INT SCA_INT 1;
  (* 27 *) Def None 0 0 0 0 0;
  (* 28 pipe *) Def (Some cb_vfs_pipe) 0 SCA_POINTER 0 0 8;
  (* 29 waitpid *) Def (Some cb_task_waitpid) 0 SCA_INT (Z.lor SCA_POINTER SCA_NULLOK) SCA_INT 4;
  (* 30 *) Def None 0 0 0 0 0;
  (* 31 readlink *) Def (Some cb_vfs_readlink) 0 SCA_STRING (Z.lor SCA_POINTER SCA_SIZE_IN_2) SCA_INT 0;
  (* 32 execve *) Def (Some cb_task_execve) 0 SCA_STRING (Z.lor SCA_POINTER SCA_FLEX_SIZE) (Z.lor SCA_POINTER SCA_FLEX_SIZE) 0;
  (* 33 sigaction *) Def (Some cb_task_sigaction) 0 SCA_INT (Z.lor SCA_POINTER SCA_NULLOK) (Z.lor SCA_POINTER SCA_NULLOK) 12;
  (* 34 sigprocmask *) Def (Some cb_task_sigprocmask) 0 SCA_INT (Z.lor SCA_POINTER SCA_NULLOK) (Z.lor SCA_POINTER SCA_NULLOK) 4;
  (* 35 sigsuspend *) Def None 0 0 0 0 0;
  (* 36 fcntl *) Def (Some cb_vfs_fcntl) 0 SCA_INT SCA_INT SCA_INT 0;
  (* 37 listen *) (if picotcp then Def (Some cb_net_listen) 0 SCA_INT SCA_INT 0 0 else no_call);
  (* 38 accept *) (if picotcp then Def (Some cb_net_accept) 0 SCA_INT SCA_INT (Z.lor SCA_POINTER SCA_NULLOK) 4 else no_call);
  (* 39 *) Def None 0 0 0 0 0;
  (* 40 getpeername *) (if picotcp then Def (Some cb_net_getpeername) 0 SCA_INT SCA_INT SCA_POINTER 4 else no_call);
  (* 41 getsockname *) (if picotcp then Def (Some cb_net_getsockname) 0 SCA_INT SCA_INT SCA_POINTER 4 else no_call);
  (* 42 setid *) Def (Some cb_task_setid) 0 SCA_INT SCA_INT 0 0;
  (* 43 stat *) Def (Some cb_vfs_stat) 0 SCA_STRING SCA_POINTER 0 72;
  (* 44 dup2 *) Def (Some cb_vfs_dup2) 0 SCA_INT SCA_INT 0 0;
  (* 45 strace *) Def (Some cb_task_strace) SCF_STATE 0 0 0 0;
  (* 46 getaddr *) (if picotcp then Def (Some cb_net_getaddr) 0 SCA_STRING (Z.lor SCA_POINTER SCA_SIZE_IN_2) SCA_INT 0 else no_call);
  (* 47 getname *) (if picotcp then Def (Some cb_net_getname) 0 SCA_STRING (Z.lor SCA_POINTER SCA_SIZE_IN_2) SCA_INT 0 else no_call);
  (* 48 connect *) (if picotcp then Def (Some cb_net_connect) 0 SCA_INT (Z.lor SCA_POINTER SCA_SIZE_IN_2) SCA_INT 0 else no_call);
  (* 49 recvfrom *) (if picotcp then Def (Some cb_net_recvfrom) 0 (Z.lor SCA_POINTER SCA_SIZE_IN_1) SCA_INT 0 0 else no_call);
  (* 50 mount *) Def (Some cb_vfs_mount) 0 SCA_STRING SCA_STRING SCA_INT 0;
  (* 51 umount *) Def (Some cb_vfs_umount) 0 SCA_STRING SCA_INT 0 0;
  (* 52 realpath *) Def (Some cb_vfs_realpath) 0 SCA_STRING SCA_POINTER 0 1024;
  (* 53 sleep *) Def (Some cb_task_sleep) 0 SCA_POINTER 0 0 12].

Definition syscall_table (picotcp : bool) : list syscall_definition := syscalls_0_25 picotcp ++ syscalls_26_53 picotcp.

(** The registers of [isf_t] that carry a call. *)
Record sc_regs : Type := ScRegs { r_eax : Z; r_ebx : Z; r_ecx : Z; r_edx : Z }.

(** What the handler works on: the fields of the task it uses ([observed] is
    [task->strace_observer && task->strace_fd]), the registers, and the rest. *)
Record sys_state (E : Type) : Type := Sys {
  sy_task_state : task_state;
  sy_errno : Z;
  sy_observed : bool;
  sy_regs : sc_regs;
  sy_env : E;
}.

Arguments Sys {E} sy_task_state sy_errno sy_observed sy_regs sy_env.
Arguments sy_task_state {E} s.
Arguments sy_errno {E} s.
Arguments sy_observed {E} s.
Arguments sy_regs {E} s.
Arguments sy_env {E} s.

(** [struct strace] *)
Record strace : Type := Strace {
  st_call : Z;
  st_result : Z;
  st_errno : Z;
  st_args : list Z;
  st_ptrdata : list (list Z);
}.

Class SyscallEnv (E : Type) : Type := {
  (* [vm_map(VM_KERNEL, &vmem, &task->vmem, addr, size, flags)]: the address in
     the kernel, 0 when it fails, and [vmem.self] *)
  user_map : E -> Z -> Z -> Z -> outcome (Z * Z * E);
  user_free : E -> Z -> outcome E;
  (* a byte of the kernel's memory *)
  kernel_load : E -> Z -> outcome Z;
  (* [task_signal(task, NULL, SIGSEGV)] *)
  signal_segv : sys_state E -> outcome (sys_state E);
  (* a handler, with its arguments in the order of its declaration *)
  call_handler : syscall_cb -> list Z -> sys_state E -> outcome (Z * sys_state E);
  (* [vfs_get_from_id] and [vfs_write] on the observer's file *)
  strace_file : sys_state E -> outcome (option Z);
  strace_write : sys_state E -> Z -> strace -> outcome (sys_state E);
}.

Section Syscall.
Context {E : Type} `{SyscallEnv E}.
Context (picotcp : bool).
(** The addresses of the task and of the interrupt state. *)
Context (task isf : Z).
Implicit Types s : sys_state E.

Definition sy_set_state s (t : task_state) : sys_state E := Sys t (sy_errno s) (sy_observed s) (sy_regs s) (sy_env s).
Definition sy_set_errno s (e : Z) : sys_state E := Sys (sy_task_state s) e (sy_observed s) (sy_regs s) (sy_env s).
Definition sy_set_env s (e : E) : sys_state E := Sys (sy_task_state s) (sy_errno s) (sy_observed s) (sy_regs s) e.
Definition set_result s (x : Z) : sys_state E :=
  Sys (sy_task_state s) (sy_errno s) (sy_observed s) (ScRegs x (r_ebx (sy_regs s)) (r_ecx (sy_regs s)) (r_edx (sy_regs s))) (sy_env s).
Definition set_reg_errno s (x : Z) : sys_state E :=
  Sys (sy_task_state s) (sy_errno s) (sy_observed s) (ScRegs (r_eax (sy_regs s)) x (r_ecx (sy_regs s)) (r_edx (sy_regs s))) (sy_env s).

Definition call_fail s : sys_state E := set_reg_errno (set_result s (u32 (-1))) EFAULT.

(** [strnlen] on the kernel's memory. *)
Fixpoint kernel_strnlen (e : E) (a : Z) (n : nat) : outcome Z :=
  match n with
  | O => Ret 0
  | S n => c ← kernel_load e a; if c =? 0 then Ret 0 else l ← kernel_strnlen e (a + 1) n; Ret (l + 1)
  end.

Fixpoint kernel_bytes (e : E) (a : Z) (n : nat) : outcome (list Z) :=
  match n with
  | O => Ret []
  | S n => c ← kernel_load e a; l ← kernel_bytes e (a + 1) n; Ret (c :: l)
  end.

(** The size of the memory behind argument [i], and the flags to map it with. *)
Definition arg_size (def : syscall_definition) (flags : Z) (args : list Z) : outcome (Z * Z) :=
  let map_flags := Z.lor VM_RW VM_MAP_USER_ONLY in
  let multiplicator := MAX 1 (sd_ptr_size def) in
  let sized k := a ← aload args k; Ret (u32 (multiplicator * a), map_flags) in
  if has_flag flags SCA_SIZE_IN_0 then sized 0
  else if has_flag flags SCA_SIZE_IN_1 then sized 1
  else if has_flag flags SCA_SIZE_IN_2 then sized 2
  else if has_flag flags (Z.lor SCA_STRING SCA_FLEX_SIZE) then Ret (PAGE_SIZE * 2, Z.lor map_flags VM_MAP_LESS_OK)
  else Ret (sd_ptr_size def, map_flags).

(** The loop that translates the arguments: their number, the arguments and the
    mappings; None when the call fails. *)
Fixpoint map_args (def : syscall_definition) (flags : list Z) (i : Z) (args vmem : list Z) s
    : outcome (option (Z * list Z * list Z) * sys_state E) :=
  match flags with
  | [] => Ret (Some (i, args, vmem), s)
  | f :: flags =>
    if f =? 0 then Ret (Some (i, args, vmem), s) else
    if negb (has_flag f (Z.lor SCA_POINTER SCA_STRING)) then map_args def flags (i + 1) args vmem s else
    '(size, map_flags) ← arg_size def f args;
    if has_flag f SCA_POINTER && (size =? 0) && negb (has_flag f SCA_NULLOK) then Ret (None, call_fail s) else
    arg ← aload args i;
    if has_flag f SCA_NULLOK && (arg =? 0) then map_args def flags (i + 1) args vmem s else
    if size =? 0 then Ret (None, call_fail s) else
    '(a, self, e) ← user_map (sy_env s) arg size map_flags;
    let s := sy_set_env s e in
    args ← astore args i a;
    vmem ← astore vmem i self;
    if a =? 0 then s ← signal_segv s; Ret (None, call_fail s) else
    slen ← (if has_flag f SCA_STRING then kernel_strnlen (sy_env s) a (Z.to_nat size) else Ret 0);
    if has_flag f SCA_STRING && (slen =? size) then s ← signal_segv s; Ret (None, call_fail s) else
    map_args def flags (i + 1) args vmem s
  end.

(** Puts the arguments into [cb_args]: the array and how many there are. *)
Fixpoint put_args (cb_args args : list Z) (num_args aoff i : Z) (n : nat) : outcome (list Z) :=
  match n with
  | O => Ret cb_args
  | S n =>
    a ← aload args i;
    cb_args ← astore cb_args (num_args - aoff - i) a;
    put_args cb_args args num_args aoff (i + 1) n
  end.

Definition shuffle_args (def : syscall_definition) (num_args : Z) (args : list Z) : outcome (list Z * Z) :=
  let cb_args := replicate 5 0 in
  '(cb_args, aoff) ←
    (if has_flag (sd_flags def) SCF_STATE then c ← astore cb_args num_args isf; Ret (c, 1) else Ret (cb_args, 0));
  cb_args ← astore cb_args (num_args + aoff) task;
  let aoff := aoff + 1 in
  cb_args ← put_args cb_args args num_args aoff 0 (Z.to_nat num_args);
  Ret (cb_args, num_args + aoff).

(** [variadic_call] pushes the arguments in the order of the array, so that the
    last one is the handler's first. *)
Definition variadic_call (handler : syscall_cb) (num_args : Z) (cb_args : list Z) s : outcome (Z * sys_state E) :=
  call_handler handler (reverse (take (Z.to_nat num_args) cb_args)) s.

Fixpoint free_maps (vmem : list Z) s : outcome (sys_state E) :=
  match vmem with
  | [] => Ret s
  | self :: vmem =>
    s ← (if nz self then e ← user_free (sy_env s) self; Ret (sy_set_env s e) else Ret s);
    free_maps vmem s
  end.

(** The data of the pointers among the arguments, zeros for the others. *)
Fixpoint strace_data (e : E) (flags args : list Z) : outcome (list (list Z)) :=
  match flags, args with
  | f :: flags, a :: args =>
    b ← (if has_flag f (Z.lor SCA_STRING SCA_POINTER) && nz a then kernel_bytes e a 0x50 else Ret (replicate 0x50 0));
    l ← strace_data e flags args;
    Ret (b :: l)
  | _, _ => Ret []
  end.

Definition send_strace (scnum : Z) (args oargs flags : list Z) s : outcome (sys_state E) :=
  file ← strace_file s;
  match file with
  | None => Ret s
  | Some fd =>
    data ← strace_data (sy_env s) flags args;
    strace_write s fd (Strace scnum (r_eax (sy_regs s)) (r_ebx (sy_regs s)) oargs data)
  end.

Definition def_flags (def : syscall_definition) : list Z := [sd_arg0_flags def; sd_arg1_flags def; sd_arg2_flags def].

(** The table is read before the number is checked.  [has_task] is false for an
    interrupt without a current task, which uses nothing but the registers. *)
Definition int_handler (has_task : bool) s : outcome (sys_state E) :=
  if negb has_task then Ret (call_fail s) else
  let s := sy_set_state s SYSCALL in
  let scnum := r_eax (sy_regs s) in
  def ← aload (syscall_table picotcp) scnum;
  match sd_handler def with
  | None => Ret (call_fail s)
  | Some handler =>
    if Z.of_nat (length (syscall_table picotcp)) <=? scnum then Ret (call_fail s) else
    let flags := def_flags def in
    let oargs := [r_ebx (sy_regs s); r_ecx (sy_regs s); r_edx (sy_regs s)] in
    '(r, s) ← map_args def flags 0 oargs [0; 0; 0] s;
    match r with
    | None => Ret s
    | Some (num_args, args, vmem) =>
      '(cb_args, n) ← shuffle_args def num_args args;
      let s := sy_set_errno s 0 in
      '(result, s) ← variadic_call handler n cb_args s;
      let s := set_reg_errno (set_result s result) (sy_errno s) in
      s ← free_maps vmem s;
      let s := if bool_decide (sy_task_state s = SYSCALL) then sy_set_state s RUNNING else s in
      if sy_observed s then send_strace scnum args oargs flags s else Ret s
    end
  end.

End Syscall.
