(* ===== verification/SyscallSpec.v ===== *)
(** System calls (Syscall.v): every entry of the table is well formed, a handler
    runs with the arguments of its declaration, in their order and with every
    pointer checked and mapped, and a call that completes leaves no mapping. *)
From stdpp Require Import base numbers list gmap.
From Stdlib Require Import ZArith Lia Bool.
From S2P Require Import Prelude DList Bitmap PageAlloc Task Vm VfsSpec VmSpec Syscall.

Open Scope Z_scope.

Definition is_pointer (f : Z) : bool := has_flag f (Z.lor SCA_POINTER SCA_STRING).

(** What the code relies on: the mapping of user memory gives a new mapping,
    which can be taken away again, and a handler leaves it in place. *)
Class SyscallLaws (E : Type) `{SyscallEnv E} : Type := {
  live : E -> gset Z;
  law_user_map e arg size mf a self e' : user_map e arg size mf = Ret (a, self, e') -> a <> 0 ->
    self <> 0 /\ self ∉ live e /\ live e' = {[self]} ∪ live e;
  law_user_free e self : self ∈ live e -> exists e', user_free e self = Ret e' /\ live e' = live e ∖ {[self]};
  law_call_handler cb args s r s' : call_handler cb args s = Ret (r, s') -> live (sy_env s) ⊆ live (sy_env s');
}.

(** * The table *)

(** How many arguments a call has: those before the first without flags. *)
Fixpoint arity (flags : list Z) : nat :=
  match flags with
  | [] => 0
  | f :: flags => if f =? 0 then 0 else S (arity flags)
  end.

(** The argument that has the size of a pointer. *)
Definition size_in (f : Z) : option nat :=
  if has_flag f SCA_SIZE_IN_0 then Some 0%nat
  else if has_flag f SCA_SIZE_IN_1 then Some 1%nat
  else if has_flag f SCA_SIZE_IN_2 then Some 2%nat else None.

Definition flag_ok (def : syscall_definition) (f : Z) : Prop :=
  f = 0 \/ f = SCA_INT \/
  is_pointer f = true /\
    match size_in f with
    | Some k => def_flags def !! k = Some SCA_INT
    | None => has_flag f (Z.lor SCA_STRING SCA_FLEX_SIZE) = true \/ 0 < sd_ptr_size def < 2 ^ 32
    end.

(** An entry of the table: arguments without gaps, the interrupt state only for
    calls without arguments, a known size for every pointer. *)
Record def_ok (def : syscall_definition) : Prop := {
  dk_gaps : Forall (fun f => f = 0) (drop (arity (def_flags def)) (def_flags def));
  dk_state : has_flag (sd_flags def) SCF_STATE = true -> arity (def_flags def) = 0%nat;
  dk_flags : Forall (flag_ok def) (def_flags def);
}.

#[global] Instance flag_ok_dec def f : Decision (flag_ok def f).
Proof. unfold flag_ok. destruct (size_in f); apply _. Defined.

Definition def_check (def : syscall_definition) : bool :=
  bool_decide (Forall (fun f => f = 0) (drop (arity (def_flags def)) (def_flags def))) &&
  (negb (has_flag (sd_flags def) SCF_STATE) || (arity (def_flags def) =? 0)%nat) &&
  bool_decide (Forall (flag_ok def) (def_flags def)).

Lemma def_check_ok def : def_check def = true -> def_ok def.
Proof.
  unfold def_check. rewrite !andb_true_iff, orb_true_iff, negb_true_iff, Nat.eqb_eq.
  intros [[H1%bool_decide_eq_true_1 H2] H3%bool_decide_eq_true_1]. split; [done | | done].
  intros E. destruct H2; congruence.
Qed.

Lemma table_defs_ok picotcp def : def ∈ syscall_table picotcp -> def_ok def.
Proof.
  intros Hin. apply def_check_ok.
  assert (forallb def_check (syscall_table picotcp) = true) as Hall by (by destruct picotcp; vm_compute).
  rewrite forallb_forall in Hall. apply Hall. by apply list_elem_of_In.
Qed.

(** every entry of the table of system calls is well formed, with and
    without the network: no argument follows one that is not there, the interrupt
    state is passed only to calls without arguments, every argument is either a
    number or a pointer, and the size of what a pointer points to is given, by
    the table or by an argument that is a number. *)
Theorem syscall_table_wf picotcp : Forall def_ok (syscall_table picotcp).
Proof. apply Forall_forall. apply table_defs_ok. Qed.

(** * Arguments *)

(** The arguments of the C function, in the order of its declaration. *)
Definition c_args (task isf : Z) (def : syscall_definition) (args : list Z) : list Z :=
  task :: (if has_flag (sd_flags def) SCF_STATE then [isf] else []) ++ take (arity (def_flags def)) args.

Lemma shuffle_spec task isf def args :
  def_ok def -> length args = 3%nat ->
  exists cb n, shuffle_args task isf def (Z.of_nat (arity (def_flags def))) args = Ret (cb, n) /\
    reverse (take (Z.to_nat n) cb) = c_args task isf def args.
Proof.
  intros Hok Hl. destruct args as [| a [| b [| c [|]]]]; try done. unfold shuffle_args, c_args.
  assert (arity (def_flags def) <= 3)%nat as Ha.
  { unfold def_flags. simpl. by repeat destruct (_ =? 0); lia. }
  destruct (has_flag (sd_flags def) SCF_STATE) eqn:Es.
  - rewrite (dk_state _ Hok Es). do 2 eexists. by split.
  - destruct (arity (def_flags def)) as [| [| [| [| k]]]]; [.. | lia]; do 2 eexists; by split.
Qed.

Section SyscallSpec.
Context {E : Type} `{SyscallEnv E}.
Context (picotcp : bool) (task isf : Z).
Implicit Types s : sys_state E.

(** The string at [a] ends within [n] bytes. *)
Definition terminated (e : E) (a n : Z) : Prop :=
  exists l, kernel_strnlen e a (Z.to_nat n) = Ret l /\ l <> n.

(** What becomes of an argument: a number is passed as it is, NULL where the
    call allows it, any other pointer is mapped with the size the call needs, and
    a string has an end. *)
Inductive passed (def : syscall_definition) (oargs : list Z) (f arg : Z) s : Z -> Z -> sys_state E -> Prop :=
  | passed_int : is_pointer f = false -> passed def oargs f arg s arg 0 s
  | passed_null size mf : is_pointer f = true -> arg_size def f oargs = Ret (size, mf) ->
      has_flag f SCA_NULLOK = true -> arg = 0 -> passed def oargs f arg s arg 0 s
  | passed_mapped size mf a self e : is_pointer f = true -> arg_size def f oargs = Ret (size, mf) -> size <> 0 ->
      (has_flag f SCA_NULLOK = true -> arg <> 0) ->
      user_map (sy_env s) arg size mf = Ret (a, self, e) -> a <> 0 ->
      (has_flag f SCA_STRING = true -> terminated e a size) ->
      passed def oargs f arg s a self (sy_set_env s e).

(** The arguments from the [i]-th on. *)
Inductive translated (def : syscall_definition) (oargs : list Z) : list Z -> nat -> sys_state E -> list Z -> list Z -> sys_state E -> Prop :=
  | tr_nil i s : translated def oargs [] i s [] [] s
  | tr_end flags i s : translated def oargs (0 :: flags) i s [] [] s
  | tr_arg f flags i s arg a self s1 l vmem s2 : f <> 0 -> oargs !! i = Some arg ->
      passed def oargs f arg s a self s1 -> translated def oargs flags (S i) s1 l vmem s2 ->
      translated def oargs (f :: flags) i s (a :: l) (self :: vmem) s2.

(** The sizes come from arguments that stay as they are. *)
Lemma arg_size_ext def f args args' :
  (forall k, size_in f = Some k -> args !! k = args' !! k) -> arg_size def f args = arg_size def f args'.
Proof.
  intros Hk. unfold arg_size, size_in in *.
  assert (forall (k : nat) z, z = Z.of_nat k -> args !! k = args' !! k -> aload args z = aload args' z) as Ha.
  { intros k z -> Ek. unfold aload. destruct (Z.ltb_spec (Z.of_nat k) 0); [done |]. by rewrite Nat2Z.id, Ek. }
  destruct (has_flag f SCA_SIZE_IN_0); [by rewrite (Ha 0%nat 0 eq_refl (Hk 0%nat eq_refl)) |].
  destruct (has_flag f SCA_SIZE_IN_1); [by rewrite (Ha 1%nat 1 eq_refl (Hk 1%nat eq_refl)) |].
  destruct (has_flag f SCA_SIZE_IN_2); [by rewrite (Ha 2%nat 2 eq_refl (Hk 2%nat eq_refl)) | done].
Qed.

(** The arguments while the loop is at the [i]-th. *)
Record at_arg (def : syscall_definition) (oargs flags args vmem : list Z) (i : nat) : Prop := {
  aa_flags : drop i (def_flags def) = flags;
  aa_args : length args = 3%nat;
  aa_vmem : length vmem = 3%nat;
  aa_rest : forall k, (i <= k)%nat -> args !! k = oargs !! k;
  aa_ints : forall k, def_flags def !! k = Some SCA_INT -> args !! k = oargs !! k;
  aa_free : forall k, (i <= k < 3)%nat -> vmem !! k = Some 0;
}.

Lemma at_arg_flag def oargs f flags args vmem i :
  at_arg def oargs (f :: flags) args vmem i -> (i < 3)%nat /\ def_flags def !! i = Some f.
Proof.
  intros [Ef _ _ _ _ _]. assert (def_flags def !! i = Some f) as El by (by rewrite <- (Nat.add_0_r i), <- lookup_drop, Ef).
  split; [| done]. by apply lookup_lt_Some in El.
Qed.

Lemma at_arg_next def oargs f flags args vmem i a self :
  at_arg def oargs (f :: flags) args vmem i -> (is_pointer f = false -> oargs !! i = Some a) ->
  at_arg def oargs flags (<[i := a]> args) (<[i := self]> vmem) (S i).
Proof.
  intros Hat Ha. destruct (at_arg_flag _ _ _ _ _ _ _ Hat) as [Hi Hf]. destruct Hat as [Ef Hl Hv Hr Hin Hfr].
  split.
  - replace (S i) with (i + 1)%nat by lia. rewrite <- drop_drop, Ef. done.
  - by rewrite length_insert.
  - by rewrite length_insert.
  - intros k Hk. rewrite list_lookup_insert_ne by lia. apply Hr. lia.
  - intros k Hk. destruct (decide (k = i)) as [-> | Hne]; [| rewrite list_lookup_insert_ne by done; by apply Hin].
    rewrite list_lookup_insert_eq by lia. rewrite Hf in Hk. injection Hk as ->. by rewrite Ha.
  - intros k Hk. rewrite list_lookup_insert_ne by lia. apply Hfr. lia.
Qed.

Lemma at_arg_same def oargs f flags args vmem i arg :
  at_arg def oargs (f :: flags) args vmem i -> oargs !! i = Some arg ->
  <[i := arg]> args = args /\ <[i := 0]> vmem = vmem.
Proof.
  intros Hat Ha. destruct (at_arg_flag _ _ _ _ _ _ _ Hat) as [Hi _]. destruct Hat as [_ _ _ Hr _ Hfr].
  split; apply list_insert_id; [by rewrite Hr | apply Hfr; lia].
Qed.

Lemma at_arg_size def oargs f flags args vmem i :
  def_ok def -> at_arg def oargs (f :: flags) args vmem i -> arg_size def f args = arg_size def f oargs.
Proof.
  intros Hok Hat. destruct (at_arg_flag _ _ _ _ _ _ _ Hat) as [_ Hf]. apply arg_size_ext. intros k Hk.
  apply (aa_ints _ _ _ _ _ _ Hat). pose proof (dk_flags _ Hok) as Hall. rewrite Forall_lookup in Hall.
  destruct (Hall _ _ Hf) as [-> | [-> | [_ Hs]]]; [done | done |]. by rewrite Hk in Hs.
Qed.

Lemma at_arg_load def oargs f flags args vmem i arg :
  at_arg def oargs (f :: flags) args vmem i -> oargs !! i = Some arg -> aload args (Z.of_nat i) = Ret arg.
Proof. intros Hat Ha. apply aload_Ret. rewrite Nat2Z.id. split; [lia |]. rewrite <- Ha. by apply (aa_rest _ _ _ _ _ _ Hat). Qed.

(** The lists when the arguments from the [i]-th on are replaced. *)
Definition from (i : nat) (l new : list Z) : list Z := take i l ++ new ++ drop (i + length new) l.

Lemma from_cons i l a new : (i < length l)%nat -> from (S i) (<[i := a]> l) new = from i l (a :: new).
Proof.
  intros Hi. unfold from. rewrite (take_S_r _ _ a) by (by apply list_lookup_insert_eq). rewrite take_insert_ge by done.
  rewrite drop_insert_lt by lia. rewrite <- app_assoc. simpl. do 4 f_equal. lia.
Qed.

Lemma from_nil i l : from i l [] = l.
Proof. unfold from. simpl. rewrite Nat.add_0_r. apply take_drop. Qed.

Lemma map_args_step def oargs f flags args vmem i s arg a self s1 :
  def_ok def -> at_arg def oargs (f :: flags) args vmem i -> f <> 0 -> oargs !! i = Some arg -> passed def oargs f arg s a self s1 ->
  map_args def (f :: flags) (Z.of_nat i) args vmem s =
    map_args def flags (Z.of_nat (S i)) (<[i := a]> args) (<[i := self]> vmem) s1.
Proof.
  intros Hok Hat Hf Ha Hp. pose proof (at_arg_load _ _ _ _ _ _ _ _ Hat Ha) as Hload.
  pose proof (at_arg_size _ _ _ _ _ _ _ Hok Hat) as Hsize. destruct (at_arg_same _ _ _ _ _ _ _ _ Hat Ha) as [Eargs Evmem].
  cbn [map_args]. destruct (Z.eqb_spec f 0); [done |]. fold (is_pointer f).
  replace (Z.of_nat i + 1) with (Z.of_nat (S i)) by lia.
  destruct Hp as [Hp | size mf Hp Es Hn H0 | size mf a self e Hp Es Hs Hn Hm Ha0 Ht]; rewrite Hp; cbn [negb].
  - by rewrite Eargs, Evmem.
  - rewrite Hsize, Es, bind_Ret, Hn, andb_false_r, Hload, bind_Ret. rewrite (proj2 (Z.eqb_eq arg 0) H0). cbn [andb].
    by rewrite Eargs, Evmem.
  - rewrite Hsize, Es, bind_Ret, (proj2 (Z.eqb_neq size 0) Hs), andb_false_r. cbn [andb]. rewrite Hload, bind_Ret.
    assert (has_flag f SCA_NULLOK && (arg =? 0) = false) as ->.
    { destruct (has_flag f SCA_NULLOK); [| done]. apply Z.eqb_neq. by apply Hn. }
    rewrite Hm, bind_Ret. destruct (at_arg_flag _ _ _ _ _ _ _ Hat) as [Hi _]. pose proof (aa_args _ _ _ _ _ _ Hat). pose proof (aa_vmem _ _ _ _ _ _ Hat).
    rewrite !astore_in, !bind_Ret, !Nat2Z.id by lia. rewrite (proj2 (Z.eqb_neq a 0) Ha0).
    destruct (has_flag f SCA_STRING) eqn:Estr; [| done].
    change (sy_env (sy_set_env s e)) with e. destruct (Ht eq_refl) as (k & -> & Hne). rewrite bind_Ret. by rewrite (proj2 (Z.eqb_neq k size) Hne).
Qed.

Lemma map_args_forward def oargs flags i s args vmem l hs s' :
  def_ok def -> at_arg def oargs flags args vmem i -> translated def oargs flags i s l hs s' ->
  map_args def flags (Z.of_nat i) args vmem s = Ret (Some (Z.of_nat (i + length l), from i args l, from i vmem hs), s').
Proof.
  intros Hok Hat Ht. revert args vmem Hat.
  induction Ht as [i s | flags i s | f flags i s arg a self s1 l vm s2 Hf Ha Hp Ht IH]; intros args vmem Hat.
  - cbn [map_args]. by rewrite !from_nil, Nat.add_0_r.
  - cbn [map_args Z.eqb]. by rewrite !from_nil, Nat.add_0_r.
  - rewrite (map_args_step def oargs f flags args vmem i s arg a self s1) by done.
    destruct (at_arg_flag _ _ _ _ _ _ _ Hat) as [Hi _]. pose proof (aa_args _ _ _ _ _ _ Hat). pose proof (aa_vmem _ _ _ _ _ _ Hat).
    rewrite IH.
    + rewrite !from_cons by lia. simpl length. do 5 f_equal. lia.
    + eapply at_arg_next; [exact Hat |]. intros Hnp. destruct Hp as [_ | ? ? Hp | ? ? ? ? ? Hp]; [done | congruence | congruence].
Qed.

Lemma map_args_backward def oargs flags i s args vmem n args' vmem' s' :
  def_ok def -> length oargs = 3%nat -> at_arg def oargs flags args vmem i ->
  map_args def flags (Z.of_nat i) args vmem s = Ret (Some (n, args', vmem'), s') ->
  exists l hs, translated def oargs flags i s l hs s' /\ n = Z.of_nat (i + length l) /\ args' = from i args l /\ vmem' = from i vmem hs.
Proof.
  intros Hok Hlo. revert i s args vmem. induction flags as [| f flags IH]; intros i s args vmem Hat Hm.
  { cbn [map_args] in Hm. simplify_eq. exists [], []. rewrite !from_nil, Nat.add_0_r. split; [constructor | done]. }
  destruct (Z.eqb_spec f 0) as [-> | Hf].
  { cbn [map_args Z.eqb] in Hm. simplify_eq. exists [], []. rewrite !from_nil, Nat.add_0_r. split; [constructor | done]. }
  destruct (at_arg_flag _ _ _ _ _ _ _ Hat) as [Hi _]. destruct (lookup_lt_is_Some_2 oargs i ltac:(lia)) as [arg Ha].
  assert (exists a self s1, passed def oargs f arg s a self s1) as (a & self & s1 & Hp).
  { pose proof (at_arg_load _ _ _ _ _ _ _ _ Hat Ha) as Hload. pose proof (at_arg_size _ _ _ _ _ _ _ Hok Hat) as Hsize.
    cbn [map_args] in Hm. destruct (Z.eqb_spec f 0); [done |]. fold (is_pointer f) in Hm. destruct (is_pointer f) eqn:Hp; cbn [negb] in Hm.
    2: { do 3 eexists. by apply passed_int. }
    rewrite Hsize in Hm. unbind Hm as [size mf] Es. destruct (has_flag f SCA_POINTER && (size =? 0) && negb (has_flag f SCA_NULLOK)); [done |].
    rewrite Hload, bind_Ret in Hm. destruct (has_flag f SCA_NULLOK && (arg =? 0)) eqn:En.
    { apply andb_true_iff in En as [? ?%Z.eqb_eq]. do 3 eexists. by eapply passed_null. }
    destruct (Z.eqb_spec size 0); [done |]. unbind Hm as [[a self] e] Em. unbind Hm as args1 Ea. unbind Hm as vmem1 Ev.
    destruct (Z.eqb_spec a 0); [by unbind Hm as x Hx |].
    do 3 eexists. eapply (passed_mapped _ _ _ _ _ size mf a self e); try done.
    - intros Hn ->. by rewrite Hn in En.
    - intros Hs. rewrite Hs in Hm. unbind Hm as slen El. exists slen. split; [done |]. intros ->. rewrite Z.eqb_refl in Hm.
      cbn [andb] in Hm. by unbind Hm as x Hx. }
  rewrite (map_args_step def oargs f flags args vmem i s arg a self s1) in Hm by done.
  pose proof (aa_args _ _ _ _ _ _ Hat). pose proof (aa_vmem _ _ _ _ _ _ Hat).
  apply IH in Hm as (l & hs & Ht & -> & -> & ->).
  - exists (a :: l), (self :: hs). split; [by eapply tr_arg |]. rewrite !from_cons by lia. split; [simpl; lia | done].
  - eapply at_arg_next; [exact Hat |]. intros Hnp. destruct Hp as [_ | ? ? Hp | ? ? ? ? ? Hp]; [done | congruence | congruence].
Qed.

Lemma translated_arity def oargs flags i s l hs s' :
  translated def oargs flags i s l hs s' -> length l = arity flags /\ length hs = arity flags.
Proof.
  induction 1 as [| | f flags i s arg a self s1 l vm s2 Hf Ha Hp Ht [IH1 IH2]]; [done | done |]. cbn [arity length].
  destruct (Z.eqb_spec f 0); [done |]. by rewrite IH1, IH2.
Qed.

(** The state the arguments are translated from. *)
Definition started s : sys_state E := sy_set_state s SYSCALL.
Definition user_args s : list Z := [r_ebx (sy_regs s); r_ecx (sy_regs s); r_edx (sy_regs s)].

Lemma at_first def s : at_arg def (user_args s) (def_flags def) (user_args s) [0; 0; 0] 0.
Proof. split; try done. intros k Hk. by destruct k as [| [| [| k]]]; [| | | lia]. Qed.

Lemma c_args_from def s l hs s1 :
  translated def (user_args s) (def_flags def) 0 (started s) l hs s1 ->
  c_args task isf def (from 0 (user_args s) l) = task :: (if has_flag (sd_flags def) SCF_STATE then [isf] else []) ++ l /\
  length (from 0 (user_args s) l) = 3%nat.
Proof.
  intros Ht. destruct (translated_arity _ _ _ _ _ _ _ _ Ht) as [Hl _]. unfold c_args, from. rewrite <- Hl.
  split; [by rewrite take_0, app_nil_l, take_app_length |]. rewrite length_app, length_app, length_drop, length_take.
  assert (arity (def_flags def) <= 3)%nat by (unfold def_flags; simpl; repeat destruct (_ =? 0); lia). simpl. lia.
Qed.

Lemma translated_at def s l hs s1 :
  def_ok def -> translated def (user_args s) (def_flags def) 0 (started s) l hs s1 ->
  exists cb n, map_args def (def_flags def) 0 (user_args s) [0; 0; 0] (started s) =
      Ret (Some (Z.of_nat (arity (def_flags def)), from 0 (user_args s) l, from 0 [0; 0; 0] hs), s1) /\
    shuffle_args task isf def (Z.of_nat (arity (def_flags def))) (from 0 (user_args s) l) = Ret (cb, n) /\
    reverse (take (Z.to_nat n) cb) = task :: (if has_flag (sd_flags def) SCF_STATE then [isf] else []) ++ l.
Proof.
  intros Hok Ht. destruct (translated_arity _ _ _ _ _ _ _ _ Ht) as [Hl _]. destruct (c_args_from _ _ _ _ _ Ht) as [Ec Hlen].
  destruct (shuffle_spec task isf def _ Hok Hlen) as (cb & n & Es & Er). exists cb, n.
  pose proof (map_args_forward def _ _ 0%nat _ _ _ _ _ _ Hok (at_first def s) Ht) as Hm. rewrite Hl in Hm.
  split; [exact Hm |]. split; [done |]. by rewrite Er.
Qed.

Lemma free_maps_regs hs s s' : free_maps hs s = Ret s' -> sy_regs s' = sy_regs s /\ sy_observed s' = sy_observed s.
Proof.
  revert s. induction hs as [| h hs IH]; intros s Hf; cbn [free_maps] in Hf; [by simplify_eq |].
  unbind Hf as s1 H1. destruct (IH _ Hf) as [-> ->]. destruct (nz h); [unbind H1 as e He |]; by simplify_eq.
Qed.

(** What a call that returns has done. *)
Lemma int_handler_inv s s' :
  int_handler picotcp task isf true s = Ret s' ->
  (r_eax (sy_regs s') = u32 (-1) /\ r_ebx (sy_regs s') = EFAULT) \/
  exists def cb l hs s1 r s2, syscall_table picotcp !! Z.to_nat (r_eax (sy_regs s)) = Some def /\ sd_handler def = Some cb /\
    translated def (user_args s) (def_flags def) 0 (started s) l hs s1 /\
    call_handler cb (task :: (if has_flag (sd_flags def) SCF_STATE then [isf] else []) ++ l) (sy_set_errno s1 0) = Ret (r, s2) /\
    (sy_observed s2 = false -> r_eax (sy_regs s') = r /\ r_ebx (sy_regs s') = sy_errno s2).
Proof.
  unfold int_handler. cbn [negb]. change (r_eax (sy_regs (sy_set_state s SYSCALL))) with (r_eax (sy_regs s)). intros Hc.
  unbind Hc as def Hd. apply aload_Ret in Hd as [Hn Hd]. pose proof (table_defs_ok _ _ (list_elem_of_lookup_2 _ _ _ Hd)) as Hok.
  destruct (sd_handler def) as [cb |] eqn:Eh; [| simplify_eq; by left].
  destruct (Z.leb_spec (Z.of_nat (length (syscall_table picotcp))) (r_eax (sy_regs s))); [simplify_eq; by left |].
  unbind Hc as [r s1] Hm. destruct r as [[[n args] vmem] |].
  - right. destruct (map_args_backward def (user_args s) _ 0%nat _ _ _ _ _ _ _ Hok eq_refl (at_first def s) Hm) as (l & hs & Ht & -> & -> & ->).
    destruct (translated_at def s l hs s1 Hok Ht) as (cba & k & _ & Es & Er).
    destruct (translated_arity _ _ _ _ _ _ _ _ Ht) as [Hl _]. rewrite Hl in Hc. cbn [Nat.add] in Hc. rewrite Es, bind_Ret in Hc.
    unbind Hc as [r s2] Hcall. unfold variadic_call in Hcall. rewrite Er in Hcall. exists def, cb, l, hs, s1, r, s2.
    repeat (split; [done |]). unbind Hc as s3 Hf. destruct (free_maps_regs _ _ _ Hf) as [Er3 Eo3]. cbn in Er3, Eo3.
    intros Ho. rewrite Ho in Eo3. revert Hc. case_bool_decide; cbn; rewrite Eo3; intros [= <-]; cbn; by rewrite Er3.
  - left. assert (forall flags i args vmem st st', map_args def flags i args vmem st = Ret (None, st') ->
      r_eax (sy_regs st') = u32 (-1) /\ r_ebx (sy_regs st') = EFAULT) as Hfail; [| simplify_eq; by eapply Hfail].
    clear. induction flags as [| f flags IH]; intros i args vmem st st' Hm; cbn [map_args] in Hm; [done |].
    destruct (f =? 0); [done |]. destruct (negb _); [by eapply IH |]. unbind Hm as [size mf] Es.
    destruct (_ && _ && _); [by simplify_eq |]. unbind Hm as arg Ha. destruct (_ && _); [by eapply IH |].
    destruct (size =? 0); [by simplify_eq |]. unbind Hm as [[a self] e] Em. unbind Hm as args1 E1. unbind Hm as vmem1 E2.
    destruct (a =? 0); [unbind Hm as s2 Hs; by simplify_eq |]. unbind Hm as slen El.
    destruct (_ && _); [unbind Hm as s2 Hs; by simplify_eq |]. by eapply IH.
Qed.

(** C10: a handler only ever runs with checked arguments: a system call that
    returns has either failed with EFAULT, or its handler was called, with the
    task, the interrupt state if the call takes it, and the arguments in the order
    of the declaration, where a number is what the task passed and a pointer is
    NULL where that is allowed or mapped with the size the call needs, and a
    string has an end. *)
Theorem syscall_arguments_safe s s' :
  int_handler picotcp task isf true s = Ret s' ->
  (r_eax (sy_regs s') = u32 (-1) /\ r_ebx (sy_regs s') = EFAULT) \/
  exists def cb l hs s1 r s2, syscall_table picotcp !! Z.to_nat (r_eax (sy_regs s)) = Some def /\ sd_handler def = Some cb /\
    translated def (user_args s) (def_flags def) 0 (started s) l hs s1 /\
    call_handler cb (task :: (if has_flag (sd_flags def) SCF_STATE then [isf] else []) ++ l) (sy_set_errno s1 0) = Ret (r, s2).
Proof.
  intros Hc. destruct (int_handler_inv _ _ Hc) as [Hf | (def & cb & l & hs & s1 & r & s2 & Hd & Hcb & Ht & Hcall & _)]; [by left |].
  right. by exists def, cb, l, hs, s1, r, s2.
Qed.

Context `{!SyscallLaws E}.

(** The mappings in a list with zeros. *)
Definition maps_of (hs : list Z) : gset Z := list_to_set (filter (fun h => h <> 0) hs).

Lemma maps_of_cons h hs : maps_of (h :: hs) = (if decide (h <> 0) then {[h]} else ∅) ∪ maps_of hs.
Proof. unfold maps_of. rewrite filter_cons. case_decide; [done |]. by rewrite (left_id_L ∅ (∪)). Qed.

Lemma passed_live def oargs f arg s a self s1 :
  passed def oargs f arg s a self s1 ->
  (self = 0 /\ sy_env s1 = sy_env s) \/ (self <> 0 /\ self ∉ live (sy_env s) /\ live (sy_env s1) = {[self]} ∪ live (sy_env s)).
Proof.
  destruct 1 as [Hp | size mf Hp Es Hn H0 | size mf a self e Hp Es Hs Hn Hm Ha0 Ht]; [by left | by left |].
  right. exact (law_user_map _ _ _ _ _ _ _ Hm Ha0).
Qed.

Lemma translated_live def oargs flags i s l hs s' :
  translated def oargs flags i s l hs s' ->
  NoDup (filter (fun h => h <> 0) hs) /\ maps_of hs ## live (sy_env s) /\ live (sy_env s') = maps_of hs ∪ live (sy_env s).
Proof.
  induction 1 as [i s | flags i s | f flags i s arg a self s1 l hs s2 Hf Ha Hp Ht (IHn & IHd & IHl)].
  1, 2: (split; [constructor |]; split; [set_solver | set_solver]).
  rewrite filter_cons, maps_of_cons. destruct (passed_live _ _ _ _ _ _ _ _ Hp) as [[-> El] | (Hn & Hnew & El)].
  - rewrite !decide_False by (intros Hx; by apply Hx). rewrite El in *. split; [done |]. set_solver.
  - rewrite !decide_True by done. rewrite El in *. split; [| set_solver].
    apply NoDup_cons. split; [| done]. intros Hin. apply (IHd self); [| set_solver]. by apply elem_of_list_to_set.
Qed.

Lemma free_maps_spec hs s :
  NoDup (filter (fun h => h <> 0) hs) -> maps_of hs ⊆ live (sy_env s) ->
  exists e, free_maps hs s = Ret (sy_set_env s e) /\ live e = live (sy_env s) ∖ maps_of hs.
Proof.
  revert s. induction hs as [| h hs IH]; intros s Hn Hs.
  { exists (sy_env s). split; [by destruct s |]. unfold maps_of. set_solver. }
  rewrite filter_cons in Hn. rewrite maps_of_cons in *. cbn [free_maps]. destruct (decide (h <> 0)) as [Hh | Hh].
  - rewrite (proj2 (nz_true h) Hh). apply NoDup_cons in Hn as [Hnot Hn].
    assert (h ∉ maps_of hs) as Hnot' by (unfold maps_of; by rewrite elem_of_list_to_set).
    destruct (law_user_free (sy_env s) h) as (e & -> & El); [set_solver |]. rewrite !bind_Ret.
    destruct (IH (sy_set_env s e) Hn) as (e' & -> & El'); [cbn [sy_env sy_set_env]; set_solver |].
    exists e'. split; [done |]. cbn [sy_env sy_set_env] in El'. rewrite El', El. set_solver.
  - assert (h = 0) as -> by lia. change (nz 0) with false. cbn match. rewrite bind_Ret.
    destruct (IH s Hn) as (e' & -> & El'); [set_solver |]. exists e'. split; [done |]. rewrite El'. set_solver.
Qed.

Lemma maps_of_from hs : (length hs <= 3)%nat -> filter (fun h => h <> 0) (from 0 [0; 0; 0] hs) = filter (fun h => h <> 0) hs.
Proof.
  intros Hl. unfold from. rewrite take_0, app_nil_l, filter_app.
  assert (filter (fun h => h <> 0) (drop (0 + length hs) [0; 0; 0]) = []) as ->; [| apply app_nil_r].
  by destruct (length hs) as [| [| [| [| k]]]]; [| | | | lia].
Qed.

(** a system call whose arguments can be translated runs its handler and
    hands the result and errno back in eax and ebx; afterwards every mapping made
    for the call is gone, and the task is running again unless the handler has
    put it into another state. *)
Theorem syscall_dispatch s def cb l hs s1 r s2 :
  0 <= r_eax (sy_regs s) -> syscall_table picotcp !! Z.to_nat (r_eax (sy_regs s)) = Some def -> sd_handler def = Some cb ->
  translated def (user_args s) (def_flags def) 0 (started s) l hs s1 ->
  call_handler cb (task :: (if has_flag (sd_flags def) SCF_STATE then [isf] else []) ++ l) (sy_set_errno s1 0) = Ret (r, s2) ->
  sy_observed s2 = false ->
  exists s', int_handler picotcp task isf true s = Ret s' /\ r_eax (sy_regs s') = r /\ r_ebx (sy_regs s') = sy_errno s2 /\
    live (sy_env s') = live (sy_env s2) ∖ maps_of hs /\ maps_of hs ## live (sy_env s) /\
    sy_task_state s' = (if decide (sy_task_state s2 = SYSCALL) then RUNNING else sy_task_state s2).
Proof.
  intros H0' Hd Hcb Ht Hcall Hobs. pose proof (table_defs_ok _ _ (list_elem_of_lookup_2 _ _ _ Hd)) as Hok.
  destruct (translated_at def s l hs s1 Hok Ht) as (cba & n & Em & Es & Er).
  destruct (translated_live _ _ _ _ _ _ _ _ Ht) as (Hnd & Hdis & El). destruct (translated_arity _ _ _ _ _ _ _ _ Ht) as [_ Hlh].
  assert (length hs <= 3)%nat as Hl3 by (rewrite Hlh; unfold def_flags; simpl; repeat destruct (_ =? 0); lia).
  unfold int_handler. cbn [negb]. change (r_eax (sy_regs (sy_set_state s SYSCALL))) with (r_eax (sy_regs s)).
  assert (aload (syscall_table picotcp) (r_eax (sy_regs s)) = Ret def) as -> by (by apply aload_Ret). rewrite bind_Ret, Hcb.
  apply lookup_lt_Some in Hd. destruct (Z.leb_spec (Z.of_nat (length (syscall_table picotcp))) (r_eax (sy_regs s))); [lia |].
  change [r_ebx (sy_regs (sy_set_state s SYSCALL)); r_ecx (sy_regs (sy_set_state s SYSCALL)); r_edx (sy_regs (sy_set_state s SYSCALL))] with (user_args s).
  fold (started s). rewrite Em, bind_Ret, Es, bind_Ret. unfold variadic_call. rewrite Er, Hcall, bind_Ret.
  pose proof (law_call_handler _ _ _ _ _ Hcall) as Hsub. cbn [sy_env sy_set_errno] in Hsub.
  destruct (free_maps_spec (from 0 [0; 0; 0] hs) (set_reg_errno (set_result s2 r) (sy_errno s2))) as (e & -> & Ee).
  - by rewrite maps_of_from.
  - unfold maps_of. rewrite maps_of_from by done. fold (maps_of hs). cbn [sy_env set_reg_errno set_result]. set_solver.
  - rewrite bind_Ret. cbn [sy_task_state sy_set_env set_reg_errno set_result].
    assert (live e = live (sy_env s2) ∖ maps_of hs) as Ee'
      by (rewrite Ee; unfold maps_of; rewrite maps_of_from by done; done).
    case_bool_decide as Est; cbn; rewrite Hobs; eexists; (split; [done |]); cbn;
      [rewrite decide_True by done | rewrite decide_False by done]; done.
Qed.

End SyscallSpec.

(** * An environment that keeps the set of mappings *)

Definition toy : Type := gset Z.

#[global] Instance toy_env : SyscallEnv toy := {
  user_map maps arg size mf :=
    if arg =? 0 then Ret (0, 0, maps) else
    let self := fresh ({[0]} ∪ maps) in Ret (if arg + 0x1000 =? 0 then 1 else arg + 0x1000, self, {[self]} ∪ maps);
  user_free maps self := if bool_decide (self ∈ maps) then Ret (maps ∖ {[self]}) else Fault;
  kernel_load maps a := Ret (if a mod 8 =? 0 then 0 else 65);
  signal_segv s := Ret s;
  call_handler cb args s := Ret (Z.of_nat (length args), s);
  strace_file s := Ret None;
  strace_write s fd x := Ret s;
}.

#[global] Program Instance toy_laws : SyscallLaws toy := { live maps := maps }.
Next Obligation.
  simpl. intros e arg size mf a self e'. pose proof (is_fresh ({[0]} ∪ e)) as Hf. destruct (arg =? 0); intros [= <- <- <-]; set_solver.
Qed.
Next Obligation. simpl. intros e self Hs. rewrite bool_decide_true by done. by eexists. Qed.
Next Obligation. simpl. intros cb args s r s'. by intros [= <- <-]. Qed.

(** link with two strings. *)
Definition link_call : sys_state toy := Sys RUNNING 0 false (ScRegs 12 0x5001 0x6003 0) ∅.

Definition link_result : sys_state toy :=
  match int_handler true 7 8 true link_call with Ret s => s | _ => link_call end.

Lemma link_returns : int_handler true 7 8 true link_call = Ret link_result.
Proof. vm_compute. reflexivity. Qed.

Lemma syscall_arguments_safe_witness :
  exists def cb l hs s1 r s2, sd_handler def = Some cb /\ translated def (user_args link_call) (def_flags def) 0 (started link_call) l hs s1 /\
    call_handler cb (7 :: (if has_flag (sd_flags def) SCF_STATE then [8] else []) ++ l) (sy_set_errno s1 0) = Ret (r, s2).
Proof.
  destruct (syscall_arguments_safe true 7 8 link_call link_result) as [[Hf _] | Hs].
  - apply link_returns.
  - vm_compute in Hf. discriminate.
  - destruct Hs as (def & cb & l & hs & s1 & r & s2 & _ & Hs). exists def, cb, l, hs, s1, r, s2. exact Hs.
Defined.

(** The task in the call, with the mappings that are there. *)
Definition link_mid (maps : toy) : sys_state toy := Sys SYSCALL 0 false (ScRegs 12 0x5001 0x6003 0) maps.

Lemma link_translated :
  translated (Def (Some cb_vfs_link) 0 SCA_STRING SCA_STRING 0 0) (user_args link_call) [SCA_STRING; SCA_STRING; 0] 0
    (started link_call) [0x6001; 0x7003] [1; 2] (link_mid {[1; 2]}).
Proof.
  apply (tr_arg _ _ SCA_STRING _ 0%nat _ 0x5001 0x6001 1 (link_mid {[1]})); [discriminate | reflexivity | |].
  { change (link_mid {[1]}) with (sy_set_env (started link_call) ({[1]} : toy)).
    apply (passed_mapped _ _ _ _ _ 8192 (Z.lor (Z.lor VM_RW VM_MAP_USER_ONLY) VM_MAP_LESS_OK) 0x6001 1 {[1]});
      [reflexivity | reflexivity | discriminate | discriminate | vm_compute; reflexivity | discriminate |].
    intros _. exists 7. split; [vm_compute; reflexivity | discriminate]. }
  apply (tr_arg _ _ SCA_STRING _ 1%nat _ 0x6003 0x7003 2 (link_mid {[1; 2]})); [discriminate | reflexivity | | apply tr_end].
  change (link_mid {[1; 2]}) with (sy_set_env (link_mid {[1]}) ({[1; 2]} : toy)).
  apply (passed_mapped _ _ _ _ (link_mid {[1]}) 8192 (Z.lor (Z.lor VM_RW VM_MAP_USER_ONLY) VM_MAP_LESS_OK) 0x7003 2 {[1; 2]});
    [reflexivity | reflexivity | discriminate | discriminate | vm_compute; reflexivity | discriminate |].
  intros _. exists 5. split; [vm_compute; reflexivity | discriminate].
Qed.

Lemma syscall_dispatch_witness :
  exists s', int_handler true 7 8 true link_call = Ret s' /\ r_eax (sy_regs s') = 3 /\ sy_task_state s' = RUNNING.
Proof.
  destruct (syscall_dispatch true 7 8 link_call (Def (Some cb_vfs_link) 0 SCA_STRING SCA_STRING 0 0) cb_vfs_link [0x6001; 0x7003] [1; 2]
    (link_mid {[1; 2]}) 3 (link_mid {[1; 2]})) as (s' & E & Er & _ & _ & _ & Es).
  - discriminate.
  - reflexivity.
  - reflexivity.
  - apply link_translated.
  - reflexivity.
  - reflexivity.
  - exists s'. split; [exact E |]. split; [exact Er | exact Es].
Defined.
