(* ===== verification/SyscallExample.v ===== *)
(** System calls on the memory of Vm.v: the environment of Syscall.v with
    [vm_map] and [vm_free] and with the page tables of the kernel, and where the
    code falls short. *)
From stdpp Require Import base numbers list gmap.
From Stdlib Require Import ZArith Lia Bool.
From S2P Require Import Prelude DList Task Vm VmSpec Syscall SyscallSpec.

Open Scope Z_scope.

(** The kernel's memory management and the bytes of the physical memory. *)
Definition machine : Type := vmworld * gmap Z Z.

(** A byte through the page tables of the kernel; nothing is there without an
    entry. *)
Definition load_virt (m : machine) (a : Z) : outcome Z :=
  match walk m.1 0x2000 a with
  | Some p => if pg_present p then Ret (default 0 (m.2 !! (pg_frame p * PAGE_SIZE + a mod PAGE_SIZE))) else Fault
  | None => Fault
  end.

(** A handler that does nothing, and an observer. *)
#[global] Instance machine_env : SyscallEnv machine := {
  user_map m arg size mf := '(a, self, w) ← vm_map m.1 VM_KERNEL EX_TASK arg size mf; Ret (a, self, (w, m.2));
  user_free m self := '(_, w) ← vm_free m.1 self; Ret (w, m.2);
  kernel_load := load_virt;
  signal_segv s := Ret s;
  call_handler cb args s := Ret (0, s);
  strace_file s := Ret (Some 5);
  strace_write s fd x := Ret s;
}.

(** The task of VmSpec.v has the pages at 0x1000 and 0x2000, which are at 0x8000
    and 0x9000 of the physical memory; the string at 0x1000 has eight letters. *)
Definition text : gmap Z Z := list_to_map ((fun i => (i, 97)) <$> seqZ 0x8000 8).

Definition call (observed : bool) (nr a b c : Z) : sys_state machine := Sys RUNNING 0 observed (ScRegs nr a b c) (ex_world, text).

Definition summary (r : outcome (sys_state machine)) : outcome (Z * Z * task_state * Z) :=
  s ← r; Ret (r_eax (sy_regs s), r_ebx (sy_regs s), sy_task_state s,
    match w_ctxs (sy_env s).1 !! VM_KERNEL with Some c => vc_ranges c | None => 0 end).

(** access with the string at 0x1000: the mapping is gone afterwards. *)
Lemma access_returns : summary (int_handler true 7 8 true (call false 4 0x1000 0 0)) = Ret (0, 0, RUNNING, 0x100).
Proof. vm_compute. reflexivity. Qed.

(** The data for strace is read from mappings that have been taken away. *)
Lemma strace_after_free : int_handler true 7 8 true (call true 4 0x1000 0 0) = Fault.
Proof. vm_compute. reflexivity. Qed.

(** A string without an end in the last page of the task: its end is looked for
    behind what could be mapped. *)
Definition no_end : gmap Z Z := list_to_map ((fun i => (i, 97)) <$> seqZ 0x9ff0 16).

Lemma string_scan_leaves_mapping :
  int_handler true 7 8 true (Sys RUNNING 0 false (ScRegs 4 0x2ff0 0 0) (ex_world, no_end) : sys_state machine) = Fault.
Proof. vm_compute. reflexivity. Qed.

(** link with a valid and an invalid string: the first stays mapped, and the
    task stays in the state of a call. *)
Lemma failed_call_leaks : summary (int_handler true 7 8 true (call false 12 0x1000 0 0)) = Ret (u32 (-1), EFAULT, SYSCALL, 0x300).
Proof. vm_compute. reflexivity. Qed.

(** The table is read for a number behind its end. *)
Lemma number_out_of_table : int_handler true 7 8 true (call false 54 0 0 0) = Fault.
Proof. vm_compute. reflexivity. Qed.

(** Reading 0 bytes into a valid buffer is an error. *)
Lemma read_nothing_fails : summary (int_handler true 7 8 true (call false 2 0 0x1000 0)) = Ret (u32 (-1), EFAULT, SYSCALL, 0x100).
Proof. vm_compute. reflexivity. Qed.

(** The number of bytes poll needs is computed in 32 bits: for 2^29 + 1 entries 8
    bytes are mapped. *)
Lemma poll_size_wraps def : syscall_table true !! 9%nat = Some def ->
  arg_size def (sd_arg0_flags def) [0x1000; 2 ^ 29 + 1; 0] = Ret (8, Z.lor VM_RW VM_MAP_USER_ONLY).
Proof. intros [= <-]. reflexivity. Qed.
