(* ===== verification/LibC.v ===== *)
(** The C library's side of the system calls: src/land/newlib/xelix/syscalls.c with
    [__syscall] of src/land/newlib/xelix/sys/xelix.h, src/land/newlib/xelix/openpty.c and
    [_isatty] and [STUB] of src/land/newlib/xelix/stubs.c.

    A wrapper puts the number of the call and its arguments into the registers
    and raises interrupt 0x80.  The arguments keep the kind of their C type here
    ([carg]); only their values reach the registers.  [trap] is the interrupt, so
    that the wrappers can be run with the kernel of Syscall.v or with one that
    checks the arguments.  The rest of newlib (fcntl, fork, malloc, ...) is the
    class [Newlib]. *)
From stdpp Require Import base numbers list.
From Stdlib Require Import ZArith Lia Bool.
From S2P Require Import Prelude Task Vfs Syscall.

Open Scope Z_scope.

(** The value of an argument with the kind of its type: a number, a pointer, a
    pointer to a string. *)
Inductive carg : Type :=
  | Num (x : Z)
  | Ptr (x : Z)
  | Str (x : Z).

Definition value (a : carg) : Z := match a with Num x | Ptr x | Str x => x end.

(** A program: [errno] is the plain variable, [reent_errno] the one [__errno()]
    points to and programs see; then what [_xelix_execdata] says of it. *)
Record proc (K : Type) : Type := Proc {
  errno : Z;
  reent_errno : Z;
  x_pid : Z;
  x_ppid : Z;
  x_uid : Z;
  x_gid : Z;
  x_euid : Z;
  x_egid : Z;
  p_kernel : K;
}.

Arguments Proc {K} errno reent_errno x_pid x_ppid x_uid x_gid x_euid x_egid p_kernel.
Arguments errno {K} p.
Arguments reent_errno {K} p.
Arguments x_pid {K} p.
Arguments x_ppid {K} p.
Arguments x_uid {K} p.
Arguments x_gid {K} p.
Arguments x_euid {K} p.
Arguments x_egid {K} p.
Arguments p_kernel {K} p.

(** What the wrappers use of newlib. *)
Inductive newlib_function : Type :=
  | n_fcntl | n_stat | n_wait | n_fork | n_open | n_close | n_malloc | n_calloc | n_free.

Class Newlib (K : Type) : Type := {
  newlib : newlib_function -> list Z -> proc K -> outcome (Z * proc K);
  (* a 32-bit word of the program's memory *)
  user_load : Z -> K -> outcome Z;
  user_store : Z -> Z -> K -> outcome K;
  (* int 0x31 *)
  yield_interrupt : K -> outcome K;
  (* where the linker puts a string of the library *)
  dev_tty : Z;
  dev_ptmx : Z;
}.

Definition ENOTTY : Z := 25.
Definition O_NOCTTY : Z := 0x8000.

Definition TCGETS : Z := 0x4000.
Definition TCSETS : Z := 0x4001.
Definition TCSETSW : Z := 0x4002.
Definition TCSETSF : Z := 0x4003.
Definition TCSBRK : Z := 0x4004.
Definition TCXONC : Z := 0x4005.
Definition TCFLSH : Z := 0x4006.
Definition TIOCGPGRP : Z := 0x400A.
Definition TIOCSPGRP : Z := 0x400B.
Definition TIOCSWINSZ : Z := 0x400F.
Definition TIOCGPTN : Z := 0x4016.
Definition TCSANOW : Z := 0.
Definition TCSADRAIN : Z := 1.
Definition TCSAFLUSH : Z := 2.

Section LibC.
Context {K : Type} `{Newlib K}.

(** The interrupt with [eax] and the arguments: [eax], [ebx] and the kernel
    afterwards. *)
Variable trap : Z -> list carg -> K -> outcome (Z * Z * K).

Implicit Types p : proc K.

Definition set_errno p (e : Z) : proc K :=
  Proc e (reent_errno p) (x_pid p) (x_ppid p) (x_uid p) (x_gid p) (x_euid p) (x_egid p) (p_kernel p).
Definition set_reent_errno p (e : Z) : proc K :=
  Proc (errno p) e (x_pid p) (x_ppid p) (x_uid p) (x_gid p) (x_euid p) (x_egid p) (p_kernel p).
Definition set_kernel p (k : K) : proc K :=
  Proc (errno p) (reent_errno p) (x_pid p) (x_ppid p) (x_uid p) (x_gid p) (x_euid p) (x_egid p) k.
Definition set_ids p (uid gid : Z) : proc K :=
  Proc (errno p) (reent_errno p) (x_pid p) (x_ppid p) uid gid (x_euid p) (x_egid p) (p_kernel p).

(** [__syscall]; [errp] says how to write the error number. *)
Definition __syscall (errp : proc K -> Z -> proc K) p (call : Z) (args : list carg) : outcome (Z * proc K) :=
  '(result, sce, k) ← trap call args (p_kernel p);
  Ret (u32 result, errp (set_kernel p k) (s32 sce)).

Definition syscall_pf := __syscall set_errno.

Definition syscall := __syscall set_reent_errno.

(** The result as an [int]. *)
Definition int_of (m : outcome (Z * proc K)) : outcome (Z * proc K) := '(r, p) ← m; Ret (s32 r, p).

(** Local variables on the stack: words stored from an address on. *)
Fixpoint store_words (a : Z) (l : list Z) p : outcome (proc K) :=
  match l with
  | [] => Ret p
  | x :: l => k ← user_store a x (p_kernel p); store_words (a + 4) l (set_kernel p k)
  end.

Definition _exit p (return_code : Z) := '(_, p) ← syscall_pf p 1 [Num return_code]; Ret p.

Definition _fork p := int_of (syscall_pf p 22 []).

Definition vfork p := int_of (syscall p 22 []).

Definition _getpid p : Z := s32 (x_pid p).

Definition getppid p : Z := s32 (x_ppid p).

Definition _kill p (pid sig : Z) := int_of (syscall_pf p 18 [Num pid; Num sig]).

Definition _lseek p (file ptr dir : Z) := int_of (syscall_pf p 15 [Num file; Num ptr; Num dir]).

Definition _open p (name flags : Z) := int_of (syscall_pf p 13 [Str name; Num flags]).

Definition _close p (file : Z) := int_of (syscall_pf p 5 [Num file]).

Definition _read p (file buf len : Z) := int_of (syscall_pf p 2 [Num file; Ptr buf; Num len]).

Definition _sbrk p (incr : Z) := syscall_pf p 7 [Num incr].

(** [frame] is where the locals are. *)
Definition mmap p (frame addr len prot flags fildes off : Z) :=
  p ← store_words frame [addr; len; prot; flags; fildes; off] p;
  syscall p 8 [Ptr frame].

Definition munmap p (addr len : Z) : Z * proc K := (0, p).

Definition poll p (fds nfds timeout : Z) := int_of (syscall p 9 [Ptr fds; Num nfds; Num timeout]).

Definition waitpid p (pid stat_loc options : Z) := int_of (syscall p 29 [Num pid; Ptr stat_loc; Num options]).

Definition _wait p (status : Z) := int_of (syscall_pf p 29 [Num (-1); Ptr status; Num 0]).

Definition wait3 p (status : Z) := newlib n_wait [status] p.

Definition _write p (file buf len : Z) := int_of (syscall_pf p 3 [Num file; Ptr buf; Num len]).

Definition chdir p (path : Z) := int_of (syscall p 20 [Str path]).

(** [char path[PATH_MAX]; if(fcntl(fd, F_GETPATH, path) == -1) return -1;] and
    then a call with the path. *)
Definition with_path p (frame fd : Z) (f : proc K -> outcome (Z * proc K)) : outcome (Z * proc K) :=
  '(r, p) ← newlib n_fcntl [fd; F_GETPATH; frame] p;
  if r =? -1 then Ret (-1, p) else f p.

Definition fchdir p (frame fd : Z) := with_path p frame fd (fun p => chdir p frame).

Definition socket p (domain type protocol : Z) := int_of (syscall p 24 [Num domain; Num type; Num protocol]).

Definition bind p (socket address address_len : Z) := int_of (syscall p 25 [Num socket; Ptr address; Num address_len]).

Definition recvfrom p (frame socket buffer length flags address address_len : Z) :=
  p ← store_words frame [socket; buffer; length; flags; address; address_len] p;
  int_of (syscall p 49 [Ptr frame; Num 24]).

Definition recv p (frame socket buffer length flags : Z) := recvfrom p frame socket buffer length flags 0 0.

Definition sendto p (socket message length flags dest_addr dest_len : Z) :=
  int_of (syscall p 3 [Num socket; Ptr message; Num length]).

Definition send p (socket buffer length flags : Z) := int_of (syscall p 3 [Num socket; Ptr buffer; Num length]).

Definition _execve p (name argv env : Z) := int_of (syscall p 32 [Str name; Ptr argv; Ptr env]).

Definition fexecve p (frame fd argv envp : Z) := with_path p frame fd (fun p => _execve p frame argv envp).

Definition getdents p (fd dirp count : Z) := int_of (syscall p 16 [Num fd; Ptr dirp; Num count]).

Definition _fstat p (file st : Z) := int_of (syscall_pf p 14 [Num file; Ptr st]).

Definition _stat p (name st : Z) := int_of (syscall_pf p 43 [Str name; Ptr st]).

Definition lstat p (name st : Z) := newlib n_stat [name; st] p.

Definition _mkdir p (dir_path mode : Z) := int_of (syscall_pf p 6 [Str dir_path; Num mode]).

Definition mkdir p (dir_path mode : Z) := int_of (syscall p 6 [Str dir_path; Num mode]).

Definition _unlink p (name : Z) := int_of (syscall_pf p 10 [Str name]).

Definition chmod p (path mode : Z) := int_of (syscall p 11 [Str path; Num mode]).

Definition fchmod p (frame fd mode : Z) := with_path p frame fd (fun p => chmod p frame mode).

Definition chown p (path owner group : Z) := int_of (syscall p 17 [Str path; Num owner; Num group]).

Definition fchown p (frame fd owner group : Z) := with_path p frame fd (fun p => chown p frame owner group).

Definition access p (pathname mode : Z) := int_of (syscall p 4 [Str pathname; Num mode]).

Definition _gettimeofday p (tv tz : Z) := int_of (syscall_pf p 19 [Ptr tv; Ptr tz]).

Definition utimes p (path times : Z) := int_of (syscall p 21 [Str path; Ptr times]).

(** [time_t] has 64 bits and [tv_usec] is a [long], so [struct timeval] has 12
    bytes, of which [calloc] has zeroed the others. *)
Definition utime p (path times : Z) :=
  '(arr, p) ←
    (if nz times then
       '(arr, p) ← newlib n_calloc [2; 12] p;
       if arr =? 0 then Ret (None, p) else
       a0 ← user_load times (p_kernel p);
       a1 ← user_load (times + 4) (p_kernel p);
       p ← store_words arr [a0; a1] p;
       m0 ← user_load (times + 8) (p_kernel p);
       m1 ← user_load (times + 12) (p_kernel p);
       p ← store_words (arr + 12) [m0; m1] p;
       Ret (Some arr, p)
     else Ret (Some 0, p));
  match arr with
  | None => Ret (-1, p)
  | Some arr =>
    '(r, p) ← utimes p path arr;
    let utimes_errno := errno p in
    p ← (if nz arr then '(_, p) ← newlib n_free [arr] p; Ret p else Ret p);
    Ret (r, set_errno p utimes_errno)
  end.

Definition rmdir p (path : Z) := int_of (syscall p 23 [Str path]).

Definition _link p (old new : Z) := int_of (syscall_pf p 12 [Str old; Str new]).

Definition readlink p (path buf bufsize : Z) := int_of (syscall p 31 [Str path; Ptr buf; Num bufsize]).

Definition sigaction p (sig act oact : Z) := int_of (syscall p 33 [Num sig; Ptr act; Ptr oact]).

Definition sigprocmask p (how set oset : Z) := int_of (syscall p 34 [Num how; Ptr set; Ptr oset]).

Definition sigsuspend p (sigmask : Z) := int_of (syscall p 35 [Ptr sigmask]).

Definition getpagesize : Z := 0x1000.

Definition pipe p (fildes : Z) := int_of (syscall p 28 [Ptr fildes]).

Definition _fcntl p (fildes cmd arg : Z) := int_of (syscall_pf p 36 [Num fildes; Num cmd; Num arg]).

Definition dup p (fildes : Z) := newlib n_fcntl [fildes; F_DUPFD; 0] p.

Definition dup2 p (fildes fildes2 : Z) := int_of (syscall p 44 [Num fildes; Num fildes2]).

Definition listen p (socket backlog : Z) := int_of (syscall p 37 [Num socket; Num backlog]).

Definition accept p (socket address address_len : Z) := int_of (syscall p 38 [Num socket; Ptr address; Ptr address_len]).

Definition getpeername p (socket address address_len : Z) := int_of (syscall p 40 [Num socket; Ptr address; Ptr address_len]).

Definition getsockname p (socket address address_len : Z) := int_of (syscall p 41 [Num socket; Ptr address; Ptr address_len]).

Definition _strace p := int_of (syscall p 45 []).

Definition connect p (socket address address_len : Z) := int_of (syscall p 48 [Num socket; Ptr address; Num address_len]).

Definition mount p (source target filesystemtype mountflags data : Z) :=
  int_of (syscall p 50 [Str source; Str target; Num mountflags]).

Definition umount2 p (target flags : Z) := int_of (syscall p 51 [Str target; Num flags]).

Definition sched_yield p := k ← yield_interrupt (p_kernel p); Ret (0, set_kernel p k).

(** There is no [return]: the value is whatever is left in [eax]. *)
Definition umount p (target : Z) := '(_, p) ← umount2 p target 0; Ret p.

(** [NULL] of [malloc] is not checked. *)
Definition realpath p (file_name resolved_name : Z) :=
  '(buf, p) ← (if nz resolved_name then Ret (resolved_name, p) else newlib n_malloc [1024] p);
  '(r, p) ← syscall p 52 [Str file_name; Ptr buf];
  (* the result is unsigned *)
  if r <? 0 then
    p ← (if nz resolved_name then Ret p else
           let sc_err := errno p in
           '(_, p) ← newlib n_free [buf] p; Ret (set_errno p sc_err));
    Ret (0, p)
  else Ret (buf, p).

Definition ioctl p (fd request arg : Z) := int_of (syscall p 26 [Num fd; Num request; Num arg]).

Definition tcgetattr p (fd termios_p : Z) := ioctl p fd TCGETS termios_p.

(** [errno] is the plain variable here. *)
Definition tcsetattr p (fd optional_actions termios_p : Z) :=
  if optional_actions =? TCSANOW then ioctl p fd TCSETS termios_p
  else if optional_actions =? TCSADRAIN then ioctl p fd TCSETSW termios_p
  else if optional_actions =? TCSAFLUSH then ioctl p fd TCSETSF termios_p
  else Ret (-1, set_errno p EINVAL).

Definition tcgetpgrp p (frame fd : Z) :=
  '(r, p) ← ioctl p fd TIOCGPGRP frame;
  if r <? 0 then Ret (-1, p) else res ← user_load frame (p_kernel p); Ret (s32 res, p).

Definition tcsetpgrp p (frame fd pgid_id : Z) := p ← store_words frame [pgid_id] p; ioctl p fd TIOCSPGRP frame.

Definition tcflush p (fd queue_selector : Z) := ioctl p fd TCFLSH queue_selector.

Definition tcsendbreak p (fd duration : Z) := ioctl p fd TCSBRK duration.

Definition tcflow p (fd action : Z) := ioctl p fd TCXONC action.

Definition getuid p : Z := x_uid p.

Definition geteuid p : Z := x_euid p.

Definition getgid p : Z := x_gid p.

Definition getegid p : Z := x_egid p.

(** [uid_t] and [gid_t] have 16 bits. *)
Definition setuid p (uid : Z) :=
  '(r, p) ← int_of (syscall p 42 [Num 0; Num uid]);
  Ret (r, if r >=? 0 then set_ids p (u16 uid) (x_gid p) else p).

Definition setgid p (gid : Z) :=
  '(r, p) ← int_of (syscall p 42 [Num 1; Num gid]);
  Ret (r, if r >=? 0 then set_ids p (x_uid p) (u16 gid) else p).

Definition ttyname_r p (fd buf buflen : Z) :=
  '(r, p) ← readlink p dev_tty buf buflen;
  Ret (if nz r then 0 else EBADF, p).

(** [time_t] has 64 bits. *)
Definition usleep p (frame useconds : Z) := p ← store_words frame [0; 0; useconds] p; int_of (syscall p 53 [Ptr frame]).

Definition sleep p (frame seconds : Z) := p ← store_words frame [seconds; 0; 0] p; syscall p 53 [Ptr frame].

(** * openpty.c *)

(** [ioctl] on the descriptor at an address, with what to close when it fails. *)
Definition pty_ioctl p (fd request arg ptm : Z) : outcome (bool * proc K) :=
  fd ← user_load fd (p_kernel p);
  '(r, p) ← ioctl p (s32 fd) request arg;
  if r <? 0 then '(_, p) ← newlib n_close [ptm] p; Ret (false, p) else Ret (true, p).

(** [ptm] and [pts] are the addresses of the variables. *)
Definition openpty p (ptm pts name termios winsize : Z) : outcome (Z * proc K) :=
  '(fd, p) ← newlib n_open [dev_ptmx; Z.lor O_RDWR O_NOCTTY] p;
  p ← store_words ptm [u32 fd] p;
  if fd <? 0 then Ret (-1, p) else
  '(ok, p) ← pty_ioctl p ptm TIOCGPTN pts ptm;
  if negb ok then Ret (-1, p) else
  '(ok, p) ← (if nz termios then pty_ioctl p pts TCSETS termios ptm else Ret (true, p));
  if negb ok then Ret (-1, p) else
  '(ok, p) ← (if nz winsize then pty_ioctl p pts TIOCSWINSZ winsize ptm else Ret (true, p));
  if negb ok then Ret (-1, p) else
  p ← (if nz name then fd ← user_load pts (p_kernel p); '(_, p) ← ttyname_r p (s32 fd) name 1024; Ret p else Ret p);
  Ret (0, p).

Definition close_quietly p (fd : Z) : outcome (proc K) := '(_, p) ← newlib n_close [fd] p; Ret p.

Definition dup2_quietly p (fd fd2 : Z) : outcome (proc K) := '(_, p) ← dup2 p fd fd2; Ret p.

(** [frame] is the address of [pts]. *)
Definition forkpty p (frame ptm name termios winsize : Z) : outcome (Z * proc K) :=
  '(r, p) ← openpty p ptm frame name termios winsize;
  if r <? 0 then Ret (-1, p) else
  '(pid, p) ← newlib n_fork [] p;
  if pid <? 0 then Ret (-1, p) else
  pts ← user_load frame (p_kernel p);
  let pts := s32 pts in
  if nz pid then p ← close_quietly p pts; Ret (pid, p) else
  p ← close_quietly p ptm;
  p ← close_quietly p 1;
  p ← close_quietly p 2;
  p ← close_quietly p 0;
  p ← dup2_quietly p pts 1;
  p ← dup2_quietly p pts 2;
  p ← dup2_quietly p pts 0;
  Ret (0, p).

(** * stubs.c *)

Definition STUB (ret : Z) p : Z * proc K := (ret, set_reent_errno p ENOSYS).

Definition _isatty p (fd : Z) : Z * proc K := if fd <? 3 then (1, p) else (0, set_reent_errno p ENOTTY).

End LibC.
