(* ===== verification/LibCSpec.v ===== *)
(** The wrappers of the C library (LibC.v) agree with the table of the kernel
    (Syscall.v), and a call made through them reaches its handler. *)
From stdpp Require Import base numbers list gmap.
From Stdlib Require Import ZArith Lia Bool.
From S2P Require Import Prelude Task Vfs Syscall SyscallSpec LibC.

Open Scope Z_scope.

(** * Agreement with the table *)

(** An argument is passed as what the table expects. *)
Definition kind_ok (f : Z) (a : carg) : bool :=
  match a with
  | Num _ => f =? SCA_INT
  | Ptr _ => has_flag f SCA_POINTER && negb (has_flag f SCA_STRING)
  | Str _ => has_flag f SCA_STRING
  end.

(** The call exists, and has these arguments and no other. *)
Definition agrees (call : Z) (args : list carg) : bool :=
  match syscall_table true !! Z.to_nat call with
  | Some def =>
    bool_decide (is_Some (sd_handler def)) && (length args =? arity (def_flags def))%nat &&
    forallb (fun x => kind_ok x.1 x.2) (zip (def_flags def) args)
  | None => false
  end.

(** A kernel that refuses any other call. *)
Definition checked {K} (trap : Z -> list carg -> K -> outcome (Z * Z * K)) (call : Z) (args : list carg) (k : K)
    : outcome (Z * Z * K) :=
  if agrees call args then trap call args k else Fault.

Lemma bind_ext {A B} (m : outcome A) (f g : A -> outcome B) : (forall x, f x = g x) -> (m ≫= f) = (m ≫= g).
Proof. intros Hx. destruct m; [apply Hx | done..]. Qed.

Lemma syscall_checked {K} (trap : Z -> list carg -> K -> outcome (Z * Z * K)) errp p call args :
  agrees call args = true -> __syscall (checked trap) errp p call args = __syscall trap errp p call args.
Proof. intros Ha. unfold __syscall, checked. by rewrite Ha. Qed.

(** A wrapper with its arguments. *)
Definition wrapper (K : Type) : Type := (Z -> list carg -> K -> outcome (Z * Z * K)) -> proc K -> outcome (Z * proc K).

Definition consistent {K} (w : wrapper K) : Prop := forall trap p, w (checked trap) p = w trap p.

Definition no_result {K} (m : outcome (proc K)) : outcome (Z * proc K) := p ← m; Ret (0, p).

Section Wrappers.
Context {K : Type} `{Newlib K}.

(** The wrappers of one system call, for any arguments. *)
Definition simple_wrappers (a b c d e f g : Z) : list (wrapper K) := [
  (fun t p => no_result (_exit t p a)); (fun t p => _fork t p); (fun t p => vfork t p);
  (fun t p => _kill t p a b); (fun t p => _lseek t p a b c); (fun t p => _open t p a b); (fun t p => _close t p a);
  (fun t p => _read t p a b c); (fun t p => _sbrk t p a); (fun t p => poll t p a b c); (fun t p => waitpid t p a b c);
  (fun t p => _wait t p a); (fun t p => _write t p a b c); (fun t p => chdir t p a); (fun t p => socket t p a b c);
  (fun t p => bind t p a b c); (fun t p => sendto t p a b c d e f); (fun t p => send t p a b c d);
  (fun t p => _execve t p a b c); (fun t p => getdents t p a b c); (fun t p => _fstat t p a b); (fun t p => _stat t p a b);
  (fun t p => _mkdir t p a b); (fun t p => mkdir t p a b); (fun t p => _unlink t p a); (fun t p => chmod t p a b);
  (fun t p => chown t p a b c); (fun t p => access t p a b); (fun t p => utimes t p a b); (fun t p => rmdir t p a);
  (fun t p => _link t p a b); (fun t p => readlink t p a b c); (fun t p => sigaction t p a b c);
  (fun t p => sigprocmask t p a b c); (fun t p => pipe t p a); (fun t p => _fcntl t p a b c); (fun t p => dup2 t p a b);
  (fun t p => listen t p a b); (fun t p => _strace t p); (fun t p => connect t p a b c); (fun t p => mount t p a b c d e);
  (fun t p => umount2 t p a b); (fun t p => no_result (umount t p a)); (fun t p => ioctl t p a b c);
  (fun t p => tcgetattr t p a b); (fun t p => tcsetattr t p a b c); (fun t p => tcflush t p a b);
  (fun t p => tcsendbreak t p a b); (fun t p => tcflow t p a b); (fun t p => setuid t p a); (fun t p => setgid t p a);
  (fun t p => ttyname_r t p a b c)].

(** Those that do more than a system call. *)
Definition compound_wrappers (a b c d e f g : Z) : list (wrapper K) := [
  (fun t p => mmap t p a b c d e f g); (fun t p => fchdir t p a b); (fun t p => recvfrom t p a b c d e f g);
  (fun t p => recv t p a b c d e); (fun t p => fexecve t p a b c d); (fun t p => fchmod t p a b c);
  (fun t p => fchown t p a b c d); (fun t p => utime t p a b); (fun t p => realpath t p a b);
  (fun t p => tcgetpgrp t p a b); (fun t p => tcsetpgrp t p a b c); (fun t p => usleep t p a b);
  (fun t p => sleep t p a b); (fun t p => openpty t p a b c d e); (fun t p => forkpty t p a b c d e)].

Lemma simple_consistent a b c d e f g : Forall consistent (simple_wrappers a b c d e f g).
Proof.
  repeat (apply List.Forall_cons; [intros trap p |]); [.. | apply List.Forall_nil].
  all: cbv delta [_exit _fork vfork _kill _lseek _open _close _read _sbrk poll waitpid _wait _write chdir socket bind sendto
    send _execve getdents _fstat _stat _mkdir mkdir _unlink chmod chown access utimes rmdir _link readlink sigaction
    sigprocmask pipe _fcntl dup2 listen _strace connect mount umount umount2 tcgetattr tcsetattr tcflush tcsendbreak tcflow
    ioctl setuid setgid ttyname_r syscall syscall_pf] beta.
  all: by rewrite ?syscall_checked.
Qed.

(** Follows the two runs of a wrapper side by side. *)
Ltac side_by_side :=
  repeat first
    [ reflexivity
    | rewrite syscall_checked by reflexivity
    | progress autorewrite with consistent
    | apply bind_ext; intros ?
    | case_match
    | match goal with x : _ * _ |- _ => destruct x end ].

Lemma pty_ioctl_consistent fd request arg ptm trap p :
  pty_ioctl (checked trap) p fd request arg ptm = pty_ioctl trap p fd request arg ptm.
Proof. unfold pty_ioctl, ioctl, int_of, syscall. side_by_side. Qed.

#[local] Hint Rewrite pty_ioctl_consistent : consistent.

Lemma openpty_consistent a b c d e trap p : openpty (checked trap) p a b c d e = openpty trap p a b c d e.
Proof. unfold openpty, ttyname_r, readlink, int_of, syscall. side_by_side. Qed.

#[local] Hint Rewrite openpty_consistent : consistent.

Lemma compound_consistent a b c d e f g : Forall consistent (compound_wrappers a b c d e f g).
Proof.
  repeat (apply List.Forall_cons; [intros trap p |]); [.. | apply List.Forall_nil].
  all: unfold mmap, fchdir, recvfrom, recv, recvfrom, fexecve, fchmod, fchown, with_path, chdir, _execve, chmod, chown, utime,
    utimes, realpath, tcgetpgrp, tcsetpgrp, ioctl, usleep, sleep, forkpty, dup2_quietly, dup2, int_of, syscall.
  all: side_by_side.
Qed.

(** The wrappers that pass something else than the table declares: three pass the
    address of a [struct sockaddr] that the table declares a number, so that it is not
    mapped; one passes a time zone that has no place; one call has no handler. *)
Definition wrong_wrappers (a b c : Z) : list (wrapper K) := [
  (fun t p => accept t p a b c); (fun t p => getpeername t p a b c); (fun t p => getsockname t p a b c);
  (fun t p => _gettimeofday t p a b); (fun t p => sigsuspend t p a)].

(** With a kernel that refuses calls which do not agree the wrapper never returns. *)
Definition refused (w : wrapper K) : Prop := forall trap p, w (checked trap) p = Fault.

Lemma wrong_refused a b c : Forall refused (wrong_wrappers a b c).
Proof. repeat (apply List.Forall_cons; [done |]). apply List.Forall_nil. Qed.

End Wrappers.


(** * Through the kernel *)

Section Through.
Context {E : Type} `{SyscallEnv E} (task isf : Z).

(** Interrupt 0x80 with the kernel of Syscall.v. *)
Definition kernel_trap (call : Z) (args : list carg) (s : sys_state E) : outcome (Z * Z * sys_state E) :=
  let r i := default 0 (map (fun a => u32 (value a)) args !! i) in
  let regs := ScRegs call (r 0%nat) (r 1%nat) (r 2%nat) in
  s ← int_handler true task isf true (Sys (sy_task_state s) (sy_errno s) (sy_observed s) regs (sy_env s));
  Ret (r_eax (sy_regs s), r_ebx (sy_regs s), s).

(** How an argument arrives: a number as it is, a pointer as NULL or as the
    address of a mapping of what it points to. *)
Definition arrives (a : carg) (x : Z) : Prop :=
  match a with
  | Num y => x = u32 y
  | Ptr y | Str y => x = 0 /\ u32 y = 0 \/ x <> 0 /\ exists e size mf self e', user_map e (u32 y) size mf = Ret (x, self, e')
  end.

Lemma translated_arrives def oargs flags i s l hs s' args :
  translated def oargs flags i s l hs s' -> length args = arity flags ->
  forallb (fun x => kind_ok x.1 x.2) (zip flags args) = true ->
  (forall k a, args !! k = Some a -> oargs !! (i + k)%nat = Some (u32 (value a))) -> Forall2 arrives args l.
Proof.
  intros Ht. revert args.
  induction Ht as [i s | flags i s | f flags i s arg x self s1 l hs s2 Hf Ha Hp Ht IH]; intros args Hl Hk Ho.
  1, 2: destruct args; [constructor | done].
  cbn [arity] in Hl. destruct (Z.eqb_spec f 0); [done |]. destruct args as [| a args]; [done |].
  cbn [zip zip_with forallb] in Hk. apply andb_true_iff in Hk as [Hk1 Hk]. constructor.
  - pose proof (Ho 0%nat a eq_refl) as Ho0. rewrite Nat.add_0_r, Ha in Ho0. injection Ho0 as ->.
    destruct Hp as [Hp | size mf Hp Es Hn H0 | size mf x self e Hp Es Hs Hn Hm Ha0 Ht'].
    + destruct a; cbn in Hk1 |- *; [done | |]; unfold is_pointer in Hp; exfalso; revert Hp Hk1; clear; cbn [fst snd].
      all: unfold has_flag; rewrite Z.land_lor_distr_r; intros H1%nz_false H2; apply Z.lor_eq_0_iff in H1 as [H1 H3];
        rewrite ?H1, ?H3 in H2; done.
    + destruct a; cbn in Hk1 |- *; [| left; split; exact H0 | left; split; exact H0]. apply Z.eqb_eq in Hk1. by subst f.
    + destruct a; cbn in Hk1 |- *; [apply Z.eqb_eq in Hk1; by subst f | right | right]; (split; [done |]); eauto 10.
  - apply IH; [simpl in Hl; lia | done |]. intros k y Hy. rewrite <- (Ho (S k) y Hy). f_equal. lia.
Qed.

End Through.

(** C13: a system call made through the C library, with the kernel of Syscall.v,
    when it returns, has either failed with EFAULT or called the handler of its number,
    with the arguments of the call in their order: every number as the program passed
    it and every pointer, unless NULL, as the address of a mapping of the program's
    memory.  If the task is not traced, what the handler returns and its error number
    are what the call returns and writes (the records of a traced task go through a
    pipe of another one, whose effect is a parameter here).  Condition: the arguments
    are passed as the table declares them ([agrees]).  This is so for every call of the
    C library but those of accept, getpeername, getsockname, gettimeofday and
    sigsuspend ([wrong_wrappers]), to which the theorem does not apply. *)
Theorem libc_call_safe {E} `{SyscallEnv E} (task isf : Z) errp (p p' : proc (sys_state E)) call args r :
  0 <= call -> agrees call args = true ->
  __syscall (kernel_trap task isf) errp p call args = Ret (r, p') ->
  (r = u32 (-1) /\ exists k, p' = errp (set_kernel p k) EFAULT) \/
  exists def cb l s1 res s2, syscall_table true !! Z.to_nat call = Some def /\ sd_handler def = Some cb /\
    Forall2 arrives args l /\
    call_handler cb (task :: (if has_flag (sd_flags def) SCF_STATE then [isf] else []) ++ l) s1 = Ret (res, s2) /\
    (sy_observed s2 = false -> r = u32 res /\ exists k, p' = errp (set_kernel p k) (s32 (sy_errno s2))).
Proof.
  intros Hn Ha Hc. unfold __syscall, kernel_trap in Hc. unbind Hc as [[eax ebx] k] Ht. unbind Ht as s' Hi.
  injection Ht as <- <- <-. injection Hc as <- <-.
  destruct (int_handler_inv _ _ _ _ _ Hi) as [[-> ->] | (def & cb & l & hs & s1 & res & s2 & Hd & Hcb & Htr & Hcall & Hr)].
  { left. split; [done |]. by eexists. }
  right. cbn [sy_regs r_eax] in Hd. exists def, cb, l, (sy_set_errno s1 0), res, s2. split; [done |]. split; [done |].
  unfold agrees in Ha. rewrite Hd, !andb_true_iff, Nat.eqb_eq in Ha. destruct Ha as [[_ Hl] Hk].
  split; [| split; [done |]].
  - eapply translated_arrives; [exact Htr | done | done |]. intros i a Hi'. cbn [Nat.add user_args sy_regs r_ebx r_ecx r_edx].
    assert (map (fun a => u32 (value a)) args !! i = Some (u32 (value a))) as Hm
      by (pose proof (list_lookup_fmap (fun a => u32 (value a)) args i) as Hm; rewrite Hi' in Hm; exact Hm).
    assert (arity (def_flags def) <= 3)%nat by (unfold def_flags; simpl; repeat destruct (_ =? 0); lia).
    apply lookup_lt_Some in Hi'. destruct i as [| [| [| i]]]; [.. | lia]; cbn [lookup list_lookup]; by rewrite Hm.
  - intros Ho. destruct (Hr Ho) as [-> ->]. split; [done |]. by eexists.
Qed.

(** link with two strings. *)
Lemma libc_call_safe_witness :
  exists def cb l s1 res s2, syscall_table true !! 12%nat = Some def /\ sd_handler def = Some cb /\
    Forall2 arrives [Str 0x5001; Str 0x6003] l /\
    call_handler cb (7 :: (if has_flag (sd_flags def) SCF_STATE then [8] else []) ++ l) s1 = Ret (res, s2 : sys_state toy).
Proof.
  destruct (libc_call_safe 7 8 set_errno (Proc 0 0 1 1 0 0 0 0 link_call)
    (set_errno (set_kernel (Proc 0 0 1 1 0 0 0 0 link_call) link_result) 0) 12 [Str 0x5001; Str 0x6003] 3) as [[Hf _] | Hs].
  - lia.
  - reflexivity.
  - vm_compute. reflexivity.
  - vm_compute in Hf. discriminate.
  - destruct Hs as (def & cb & l & s1 & res & s2 & Hd & Hcb & Hl & Hc & _). exists def, cb, l, s1, res, s2.
    split; [exact Hd |]. split; [exact Hcb |]. split; [exact Hl | exact Hc].
Defined.

(** * Where the wrappers fall short *)

Section Shortcomings.
Context {K : Type} `{Newlib K} (trap : Z -> list carg -> K -> outcome (Z * Z * K)) (p : proc K).

(** The result of the call is unsigned and never less than 0: realpath does not
    notice that the call has failed. *)
Lemma realpath_ignores_error file_name resolved_name e k :
  trap 52 [Str file_name; Ptr resolved_name] (p_kernel p) = Ret (u32 (-1), e, k) -> resolved_name <> 0 ->
  exists p', realpath trap p file_name resolved_name = Ret (resolved_name, p').
Proof.
  intros Ht Hn. unfold realpath. rewrite (proj2 (nz_true _) Hn), bind_Ret. unfold syscall, __syscall. rewrite Ht, bind_Ret.
  eexists. done.
Qed.

(** The error of a wrong action is written to the plain variable, not to the one
    programs see. *)
Lemma tcsetattr_hides_error fd termios_p :
  exists p', tcsetattr trap p fd 3 termios_p = Ret (-1, p') /\ reent_errno p' = reent_errno p /\ errno p' = EINVAL.
Proof. by eexists. Qed.

(** A failure of readlink is taken for success. *)
Lemma ttyname_ignores_error fd buf buflen e k :
  trap 31 [Str dev_tty; Ptr buf; Num buflen] (p_kernel p) = Ret (u32 (-1), e, k) ->
  exists p', ttyname_r trap p fd buf buflen = Ret (0, p').
Proof. intros Ht. unfold ttyname_r, readlink, syscall, __syscall. rewrite Ht, bind_Ret. eexists. done. Qed.

(** The kernel changes the effective user as well ([task_setid]), but geteuid goes
    on returning the old one. *)
Lemma setuid_stale_euid uid e k :
  trap 42 [Num 0; Num uid] (p_kernel p) = Ret (0, e, k) ->
  exists p', setuid trap p uid = Ret (0, p') /\ getuid p' = u16 uid /\ geteuid p' = geteuid p.
Proof. intros Ht. unfold setuid, syscall, __syscall. rewrite Ht, bind_Ret. eexists. done. Qed.

(** When the slave can not be had, the descriptor closed is the address of the
    variable for the master; the master stays open. *)
Lemma openpty_closes_address ptm pts name termios winsize fd p1 k e k' :
  newlib n_open [dev_ptmx; Z.lor O_RDWR O_NOCTTY] p = Ret (fd, p1) -> 0 <= fd < 2 ^ 31 ->
  user_store ptm fd (p_kernel p1) = Ret k -> user_load ptm k = Ret fd ->
  trap 26 [Num fd; Num TIOCGPTN; Num pts] k = Ret (u32 (-1), e, k') ->
  openpty trap p ptm pts name termios winsize =
    ('(_, p) ← newlib n_close [ptm] (set_reent_errno (set_kernel (set_kernel p1 k) k') (s32 e)); Ret (-1, p)).
Proof.
  intros Ho Hfd Hst Hld Ht. unfold openpty. rewrite Ho, bind_Ret. cbn [store_words]. rewrite u32_small by lia.
  rewrite Hst, !bind_Ret. destruct (Z.ltb_spec fd 0); [lia |]. unfold pty_ioctl. cbn [p_kernel set_kernel].
  rewrite Hld, bind_Ret, s32_small by lia. unfold ioctl, syscall, __syscall. cbn [p_kernel set_kernel].
  rewrite Ht, !bind_Ret. cbn [int_of]. change (s32 (u32 (u32 (-1))) <? 0) with true. cbn match. unfold int_of. rewrite !bind_Ret.
  destruct (newlib n_close _ _) as [[r q] | | |]; done.
Qed.

End Shortcomings.

(** utime without times asks for the present time, but the table does not allow
    NULL there: the call fails (and the task is sent SIGSEGV). *)
Lemma utimes_null_fails :
  match utimes (kernel_trap 7 8) (Proc 0 0 1 1 0 0 0 0 (link_call : sys_state toy)) 0x5001 0 with
  | Ret (r, p) => r = -1 /\ reent_errno p = EFAULT
  | _ => False
  end.
Proof. vm_compute. done. Qed.
