(* ===== verification/Term.v ===== *)
(** Terminals: src/src/tty/term.c and the pseudo terminals of src/src/tty/pty.c.

    A terminal has an input buffer, which is filled by [term_input] (the keyboard
    or the master of a pseudo terminal) and emptied by reads, and a function its
    output goes to ([write_cb]).  For a pseudo terminal that is a second buffer,
    which the master reads.  While a reader waits, other tasks run: [env i] is
    what they do to the terminal during the [i]-th [scheduler_yield], and
    [patience] bounds how often it waits. *)
From stdpp Require Import base numbers list.
From Stdlib Require Import ZArith Lia Bool.
From S2P Require Import Prelude Spinlock Str Bytes Buffer DList Path Mount Vfs.

Open Scope Z_scope.

Definition VEOF : Z := 1.
Definition VEOL : Z := 2.
Definition VERASE : Z := 3.
Definition VINTR : Z := 4.

Definition BRKINT : Z := 1.
Definition ICRNL : Z := 2.
Definition IGNBRK : Z := 4.
Definition OPOST : Z := 1.
Definition ONLCR : Z := 4.
Definition ISIG : Z := 1.
Definition ICANON : Z := 2.
Definition ECHO : Z := 0x8.
Definition ECHOE : Z := 0x10.
Definition ECHOK : Z := 0x20.
Definition IEXTEN : Z := 0x200.
Definition CREAD : Z := 0x80.
Definition B38400 : Z := 0xf.
Definition NCCS : nat := 32.

Definition TCGETS : Z := 0x4000.
Definition TCSETS : Z := 0x4001.
Definition TCSETSW : Z := 0x4002.
Definition TIOCGWINSZ : Z := 0x400E.
Definition TIOCSWINSZ : Z := 0x400F.
Definition TIOCGPTN : Z := 0x4016.
Definition TCSLOGLEVEL : Z := 0x5000.
Definition POLLIN : Z := 1.

Definition NL : Z := 10.
Definition CR : Z := 13.

(** [struct termios] *)
Record termios : Type := Termios {
  c_iflag : Z;
  c_oflag : Z;
  c_cflag : Z;
  c_lflag : Z;
  c_cc : list Z;
}.

(** [struct term]; [path] is in the device's name. *)
Record term : Type := Term {
  tm_fg_task : Z;
  tm_pts_fd : Z;
  tm_termios : termios;
  tm_winsize : list Z;
  tm_input : buffer;
  tm_read_done : bool;
  tm_num : Z;
  tm_ptm : buffer;
  tm_ptm_fd : Z;
}.

(** The terminal, the memory buffers grow into, errno, the tasks that got a
    SIGINT (the last first) and the log level of the console. *)
Record tty (S : Type) : Type := Tty {
  ty_term : term;
  ty_pages : S;
  ty_errno : Z;
  ty_sigints : list Z;
  ty_log_level : Z;
}.

Arguments Tty {S} ty_term ty_pages ty_errno ty_sigints ty_log_level.
Arguments ty_term {S} t.
Arguments ty_pages {S} t.
Arguments ty_errno {S} t.
Arguments ty_sigints {S} t.
Arguments ty_log_level {S} t.

Definition with_input (m : term) (b : buffer) : term :=
  Term (tm_fg_task m) (tm_pts_fd m) (tm_termios m) (tm_winsize m) b (tm_read_done m) (tm_num m) (tm_ptm m) (tm_ptm_fd m).
Definition with_done (m : term) (d : bool) : term :=
  Term (tm_fg_task m) (tm_pts_fd m) (tm_termios m) (tm_winsize m) (tm_input m) d (tm_num m) (tm_ptm m) (tm_ptm_fd m).
Definition with_ptm (m : term) (b : buffer) : term :=
  Term (tm_fg_task m) (tm_pts_fd m) (tm_termios m) (tm_winsize m) (tm_input m) (tm_read_done m) (tm_num m) b (tm_ptm_fd m).
Definition with_termios (m : term) (x : termios) : term :=
  Term (tm_fg_task m) (tm_pts_fd m) x (tm_winsize m) (tm_input m) (tm_read_done m) (tm_num m) (tm_ptm m) (tm_ptm_fd m).
Definition with_winsize (m : term) (x : list Z) : term :=
  Term (tm_fg_task m) (tm_pts_fd m) (tm_termios m) x (tm_input m) (tm_read_done m) (tm_num m) (tm_ptm m) (tm_ptm_fd m).

(** A byte as a [char], which is signed. *)
Definition s8 (x : Z) : Z := if x <? 128 then x else x - 256.

(** ESC [ D ESC [ K and ^C *)
Definition ERASE_SEQ : list Z := [27; 91; 68; 27; 91; 75].
Definition INTR_SEQ : list Z := [94; 67; 10].

Section Term.
Context {S : Type} `{PageSource S}.
Implicit Types t : tty S.

Definition ty_set_term t (m : term) : tty S := Tty m (ty_pages t) (ty_errno t) (ty_sigints t) (ty_log_level t).
Definition ty_set_errno t (e : Z) : tty S := Tty (ty_term t) (ty_pages t) e (ty_sigints t) (ty_log_level t).

(** The operations on the input buffer. *)
Definition input_size t : outcome (Z * tty S) :=
  '(n, b) ← buffer_size (tm_input (ty_term t)); Ret (n, ty_set_term t (with_input (ty_term t) b)).
Definition input_pop t (dest : list Z) (size : Z) : outcome (Z * list Z * tty S) :=
  '(n, dest, b) ← buffer_pop (tm_input (ty_term t)) dest size; Ret (n, dest, ty_set_term t (with_input (ty_term t) b)).
Definition input_write t (src : list Z) : outcome (tty S) :=
  '(_, b, pages, e) ← buffer_write (ty_pages t) (ty_errno t) (tm_input (ty_term t)) src (Z.of_nat (length src));
  Ret (Tty (with_input (ty_term t) b) pages e (ty_sigints t) (ty_log_level t)).

Definition lflag t (f : Z) : bool := has_flag (c_lflag (tm_termios (ty_term t))) f.
Definition cc t (k : Z) : outcome Z := aload (c_cc (tm_termios (ty_term t))) k.

(** [term->write_cb] *)
Context (write_cb : tty S -> list Z -> outcome (Z * tty S)).

(** The loop with ONLCR: how many bytes were written. *)
Fixpoint write_loop t (source : list Z) (i : Z) : outcome (Z * tty S) :=
  match source with
  | [] => Ret (i, t)
  | c :: source =>
    if c =? NL then '(n, t) ← write_cb t [CR; NL]; if negb (n =? 2) then Ret (i, t) else write_loop t source (i + 1)
    else '(n, t) ← write_cb t [c]; if n =? 0 then Ret (i, t) else write_loop t source (i + 1)
  end.

Definition term_write t (source : list Z) : outcome (Z * tty S) :=
  if has_flag (c_oflag (tm_termios (ty_term t))) ONLCR then write_loop t source 0 else write_cb t source.

Definition handle_canon t (chr : Z) : outcome (tty S) :=
  veof ← cc t VEOF;
  if s8 chr =? veof then Ret (ty_set_term t (with_done (ty_term t) true)) else
  veol ← cc t VEOL;
  let t := if s8 chr =? veol then ty_set_term t (with_done (ty_term t) true) else t in
  verase ← cc t VERASE;
  if s8 chr =? verase then
    '(n, t) ← input_size t;
    t ← (if nz n then '(_, t) ← term_write t ERASE_SEQ; Ret t else Ret t);
    '(_, _, t) ← input_pop t [0] 1;
    Ret t
  else
    t ← input_write t [chr];
    if lflag t ECHO then '(_, t) ← term_write t [chr]; Ret t else Ret t.

Fixpoint input_loop t (source : list Z) : outcome (tty S) :=
  match source with
  | [] => Ret t
  | chr :: source =>
    vintr ← cc t VINTR;
    if (s8 chr =? vintr) && nz (tm_fg_task (ty_term t)) && lflag t ISIG then
      '(_, t) ← term_write t INTR_SEQ;
      input_loop (Tty (ty_term t) (ty_pages t) (ty_errno t) (tm_fg_task (ty_term t) :: ty_sigints t) (ty_log_level t)) source
    else
      let chr := if (chr =? CR) && has_flag (c_iflag (tm_termios (ty_term t))) ICRNL then NL else chr in
      t ← (if lflag t ICANON then handle_canon t chr
           else
             t ← (if lflag t ECHO then '(_, t) ← term_write t [chr]; Ret t else Ret t);
             input_write t [chr]);
      input_loop t source
  end.

Definition term_input t (source : list Z) : outcome (Z * tty S) :=
  t ← input_loop t source; Ret (Z.of_nat (length source), t).

Definition term_vfs_write t (source : list Z) : outcome (Z * tty S) := term_write t source.

(** [while(!ready) scheduler_yield();] *)
Fixpoint wait_for (ready : tty S -> outcome (bool * tty S)) (env : nat -> tty S -> tty S) (patience i : nat) t : outcome (nat * tty S) :=
  '(r, t) ← ready t;
  if (r : bool) then Ret (i, t) else
  match patience with
  | O => Spin
  | Datatypes.S patience => wait_for ready env patience (Datatypes.S i) (env i t)
  end.

Definition has_input t : outcome (bool * tty S) := '(n, t) ← input_size t; Ret (nz n, t).
Definition line_done t : outcome (bool * tty S) := Ret (tm_read_done (ty_term t), t).

(** [flags] are those of the open file. *)
Definition term_vfs_read (patience : nat) (env : nat -> tty S -> tty S) (flags : Z) t (dest : list Z) (size : Z)
    : outcome (Z * list Z * tty S) :=
  '(n, t) ← input_size t;
  if (n =? 0) && has_flag flags O_NONBLOCK then Ret (u32 (-1), dest, ty_set_errno t EAGAIN) else
  '(i, t) ← wait_for has_input env patience 0 t;
  if lflag t ICANON then
    if negb (tm_read_done (ty_term t)) && has_flag flags O_NONBLOCK then Ret (u32 (-1), dest, ty_set_errno t EAGAIN) else
    '(_, t) ← wait_for line_done env patience i t;
    input_pop (ty_set_term t (with_done (ty_term t) false)) dest size
  else input_pop t dest size.

Definition term_vfs_poll t (events : Z) : outcome (Z * tty S) :=
  if has_flag (u32 events) POLLIN then '(n, t) ← input_size t; Ret (if nz n then POLLIN else 0, t) else Ret (0, t).

(** The path of the controlling terminal, None without one: the length and what
    is stored. *)
Definition term_vfs_readlink (ctty : option cstring) (size errno : Z) : Z * list Z * Z :=
  match ctty with
  | None => (-1, [], ENOENT)
  | Some path => let len := MIN (Z.of_nat (length path)) size in (len, take (Z.to_nat len) path, errno)
  end.

(** * ioctl *)

Definition termios_bytes (x : termios) : list Z :=
  le_bytes 4 (c_iflag x) ++ le_bytes 4 (c_oflag x) ++ le_bytes 4 (c_cflag x) ++ le_bytes 4 (c_lflag x) ++ c_cc x.

Definition termios_of (b : list Z) : termios :=
  Termios (u32_at b 0) (u32_at b 4) (u32_at b 8) (u32_at b 12) (take NCCS (drop 16 b)).

Definition arg_size (request : Z) : option Z :=
  if (request =? TIOCGPTN) || (request =? TCSLOGLEVEL) then Some 4
  else if (request =? TIOCGWINSZ) || (request =? TIOCSWINSZ) then Some 8
  else if (request =? TCGETS) || (request =? TCSETS) || (request =? TCSETSW) then Some 48 else None.

(** The flags that can be set. *)
Definition allowed (x : termios) : termios :=
  Termios (Z.land (c_iflag x) (Z.lor ICRNL (Z.lor BRKINT (Z.lor IGNBRK IEXTEN)))) (Z.land (c_oflag x) (Z.lor OPOST ONLCR)) (c_cflag x)
    (Z.land (c_lflag x) (Z.lor ICANON (Z.lor ISIG (Z.lor IEXTEN (Z.lor ECHO (Z.lor ECHOE ECHOK)))))) (c_cc x).

(** [arg] has the bytes of the argument when it can be mapped; the result has
    what they are afterwards.  [segv] is SIGSEGV to the task. *)
Definition term_vfs_ioctl (segv : tty S -> tty S) t (request : Z) (arg : option (list Z)) : outcome (Z * option (list Z) * tty S) :=
  match arg_size request with
  | None => Ret (-1, arg, ty_set_errno t ENOSYS)
  | Some n =>
    match arg with
    | None => Ret (-1, None, ty_set_errno (segv t) EFAULT)
    | Some b =>
      if negb (Z.of_nat (length b) =? n) then Fault else
      if request =? TIOCGPTN then Ret (0, Some (le_bytes 4 (u32 (tm_pts_fd (ty_term t)))), t)
      else if request =? TCSLOGLEVEL then
        if nz (tm_num (ty_term t)) then Ret (-1, Some b, ty_set_errno t EINVAL)
        else Ret (0, Some b, Tty (ty_term t) (ty_pages t) (ty_errno t) (ty_sigints t) (s32 (u32_at b 0)))
      else if request =? TCGETS then Ret (0, Some (termios_bytes (tm_termios (ty_term t))), t)
      else if request =? TIOCGWINSZ then Ret (0, Some (tm_winsize (ty_term t)), t)
      else if request =? TIOCSWINSZ then Ret (0, Some b, ty_set_term t (with_winsize (ty_term t) b))
      else Ret (0, Some b, ty_set_term t (with_termios (ty_term t) (allowed (termios_of b))))
    end
  end.

End Term.

(** * New terminals *)

Definition default_c_cc : list Z := [0; 4; 10; 127; 3; 21; 0; 28; 17; 19; 26; 0] ++ replicate 20 0.

Definition default_termios : termios :=
  Termios ICRNL (Z.lor OPOST ONLCR) (Z.lor CREAD B38400)
    (Z.lor ICANON (Z.lor ISIG (Z.lor IEXTEN (Z.lor ECHO (Z.lor ECHOE ECHOK))))) default_c_cc.

Section Pty.
Context {S : Type} `{PageSource S}.
Implicit Types t : tty S.

(** The terminal without the buffer of the master; the entry in /dev is made by
    [sysfs_add_dev]. *)
Definition term_new (pages : S) (no_buffer : buffer) : option term * S :=
  match buffer_new pages 150 with
  | (None, pages) => (None, pages)
  | (Some b, pages) => (Some (Term 0 0 default_termios (replicate 8 0) b false 0 no_buffer 0), pages)
  end.

(** [term_write_cb] of pty.c: the output goes to the master's buffer. *)
Definition pty_write_cb t (source : list Z) : outcome (Z * tty S) :=
  '(n, b, pages, e) ← buffer_write (ty_pages t) (ty_errno t) (tm_ptm (ty_term t)) source (Z.of_nat (length source));
  Ret (n, Tty (with_ptm (ty_term t) b) pages e (ty_sigints t) (ty_log_level t)).

Definition ptm_size t : outcome (Z * tty S) :=
  '(n, b) ← buffer_size (tm_ptm (ty_term t)); Ret (n, ty_set_term t (with_ptm (ty_term t) b)).

Definition has_output t : outcome (bool * tty S) := '(n, t) ← ptm_size t; Ret (nz n, t).

Definition ptm_read (patience : nat) (env : nat -> tty S -> tty S) (flags : Z) t (dest : list Z) (size : Z) : outcome (Z * list Z * tty S) :=
  '(n, t) ← ptm_size t;
  if (n =? 0) && has_flag flags O_NONBLOCK then Ret (u32 (-1), dest, ty_set_errno t EAGAIN) else
  '(_, t) ← wait_for has_output env patience 0 t;
  '(n, dest, b) ← buffer_pop (tm_ptm (ty_term t)) dest size;
  Ret (n, dest, ty_set_term t (with_ptm (ty_term t) b)).

Definition ptm_write t (source : list Z) : outcome (Z * tty S) := term_input pty_write_cb t source.

Definition ptm_poll t (events : Z) : outcome (Z * tty S) :=
  if has_flag (u32 events) POLLIN then '(n, t) ← ptm_size t; Ret (if nz n then POLLIN else 0, t) else Ret (0, t).

End Pty.

(** * /dev/ptmx *)

(** [snprintf] of a number below 1000. *)
Definition decimal (n : Z) : cstring :=
  (if n <? 100 then [] else [48 + n / 100]) ++ (if n <? 10 then [] else [48 + n / 10 mod 10]) ++ [48 + n mod 10].

Definition PTM_READ : Z := 0x300.
Definition PTM_WRITE : Z := 0x301.
Definition PTM_POLL : Z := 0x302.
Definition TERM_READ : Z := 0x303.
Definition TERM_WRITE : Z := 0x304.
Definition TERM_POLL : Z := 0x305.
Definition TERM_IOCTL : Z := 0x306.
Definition TERM_STAT : Z := 0x307.
Definition SYSFS_ACCESS_FN : Z := 0x102.

Definition end_callbacks (read write poll : Z) : vfs_callbacks :=
  Callbacks 0 SYSFS_ACCESS_FN read write 0 TERM_STAT 0 0 0 0 0 0 0 0 0 TERM_IOCTL poll 0.

(** What [ptmx_open] sets on the two files. *)
Definition ptm_end (f : vfs_file) (path : cstring) (meta : Z) : vfs_file :=
  File (f_refs f) (f_dup_target f) FT_IFCHR (f_num f) path (f_mount_path f) (f_mp f) (f_mount_instance f)
    (end_callbacks PTM_READ PTM_WRITE PTM_POLL) (f_flags f) (f_offset f) 1 meta.

Definition pts_end (f : vfs_file) (path : cstring) (mp flags meta : Z) : vfs_file :=
  File (f_refs f) (f_dup_target f) FT_IFCHR (f_num f) path (f_mount_path f) mp (f_mount_instance f)
    (end_callbacks TERM_READ TERM_WRITE TERM_POLL) flags (f_offset f) 2 meta.

Definition DEV_PTM : cstring := [47; 100; 101; 118; 47; 112; 116; 109].
Definition PTS : cstring := [112; 116; 115].

Definition TERM_READLINK : Z := 0x308.
Definition TERM_OPEN : Z := 0x309.

Definition term_cb : vfs_callbacks :=
  Callbacks TERM_OPEN SYSFS_ACCESS_FN TERM_READ TERM_WRITE 0 TERM_STAT 0 0 0 0 0 0 0 TERM_READLINK 0 TERM_IOCTL TERM_POLL 0.

Definition term_vfs_stat (time : Z) : vfs_stat_t :=
  let t := u32 time in Stat 2 3 (Z.lor FT_IFCHR 0x1b6) 1 0 0 0 0 t t t 0x1000 0.

Section Ptmx.
Context {S W : Type} `{PageSource S} `{VfsBackend W}.
Implicit Types st : vfs_state W.

(** [term_console] is the address of the console's terminal, 0 without one. *)
Definition term_vfs_open st (term_console : Z) : outcome (option nat * vfs_state W) :=
  if negb (vs_task st) || (term_console =? 0) then Ret (None, set_errno st ENOENT) else
  '(r, st) ← vfs_alloc_fileno st 0;
  match r with
  | None => Ret (None, st)
  | Some i =>
    st ← update st i (fun f => File (f_refs f) (f_dup_target f) FT_IFCHR (f_num f) (f_path f) (f_mount_path f) (f_mp f)
      term_console term_cb (f_flags f) (f_offset f) 1 term_console);
    Ret (Some i, st)
  end.

(** [pty] is the address of the new terminal, [max_pty] the counter.  The result
    is the master's file, the terminal with the name of its device, the pages, the
    counter and the state.  A NULL of [term_new] is not checked. *)
Definition ptmx_open st (ctx : vfs_callback_ctx) (flags pty max_pty : Z) (pages : S) (no_buffer : buffer)
    : outcome (option nat * option (cstring * term) * S * Z * vfs_state W) :=
  '(r1, st) ← vfs_alloc_fileno st 3;
  match r1 with
  | None => Ret (None, None, pages, max_pty, set_errno st EMFILE)
  | Some i =>
    fd1 ← aload (vs_files st) (Z.of_nat i);
    '(r2, st) ← vfs_alloc_fileno st (s32 (f_num fd1));
    match r2 with
    | None =>
      '(_, st) ← vfs_close st (s32 (f_num fd1));
      Ret (None, None, pages, max_pty, set_errno st EMFILE)
    | Some j =>
      let max_pty := u32 (max_pty + 1) in
      let name := take 5 (PTS ++ decimal (max_pty + 1)) in
      match term_new pages no_buffer with
      | (None, _) => Fault
      | (Some m, pages) =>
        fd2 ← aload (vs_files st) (Z.of_nat j);
        st ← update st i (fun f => ptm_end f (take 29 (DEV_PTM ++ decimal (max_pty + 1))) (f_meta f));
        st ← update st j (fun f => pts_end f (take 29 (DEV_PTS ++ decimal (max_pty + 1))) (ctx_mp ctx) flags (f_meta f));
        match buffer_new pages 150 with
        | (None, pages) => Ret (None, None, pages, max_pty, st)
        | (Some b, pages) =>
          st ← update st i (fun f => ptm_end f (f_path f) pty);
          st ← update st j (fun f => pts_end f (f_path f) (f_mp f) (f_flags f) pty);
          Ret (Some i, Some (name, Term (tm_fg_task m) (s32 (f_num fd2)) (tm_termios m) (tm_winsize m) (tm_input m) (tm_read_done m)
            max_pty b (s32 (f_num fd1))), pages, max_pty, st)
        end
      end
    end
  end.

End Ptmx.
