(* ===== verification/TermSpec.v ===== *)
(** Terminals (Term.v): the line discipline on the buffers of a pseudo terminal
    does what it should do on lists of bytes, and bytes pass through a terminal in
    raw mode as they are. *)
From stdpp Require Import base numbers list.
From Stdlib Require Import ZArith Lia Bool.
From S2P Require Import Prelude Spinlock Str Bytes Buffer DList Path Mount Vfs Term.

Open Scope Z_scope.

(** * The line discipline on lists *)

(** The bytes a reader has not read, the output the master has not read, whether
    a line is complete, and how often the foreground task was interrupted. *)
Record line : Type := Line {
  ln_queue : list Z;
  ln_out : list Z;
  ln_done : bool;
  ln_sigs : nat;
}.

(** What is written for a string: with ONLCR a newline becomes two bytes. *)
Definition cooked (x : termios) (src : list Z) : list Z :=
  if has_flag (c_oflag x) ONLCR then concat ((fun c => if c =? NL then [CR; NL] else [c]) <$> src) else src.

Definition cc_of (x : termios) (k : Z) : Z := default 0 (c_cc x !! Z.to_nat k).

Definition echo (x : termios) (chr : Z) : list Z := if has_flag (c_lflag x) ECHO then cooked x [chr] else [].

(** What the erase character should do: the last character of the line is taken away,
    and with echo also from the screen. *)
Definition erase_last (x : termios) (l : line) : line :=
  Line (removelast (ln_queue l)) (ln_out l ++ if has_flag (c_lflag x) ECHO && negb (bool_decide (ln_queue l = [])) then cooked x ERASE_SEQ else [])
    (ln_done l) (ln_sigs l).

(** What the code does instead: the first one is taken away, and the screen is changed
    also without echo. *)
Definition erase_first (x : termios) (l : line) : line :=
  Line (drop 1 (ln_queue l)) (ln_out l ++ if ln_queue l then [] else cooked x ERASE_SEQ) (ln_done l) (ln_sigs l).

Section Discipline.
Context (erase : termios -> line -> line).

(** A character in canonical mode: end of file, end of line, erase, or any other. *)
Definition line_canon (x : termios) (chr : Z) (l : line) : line :=
  if s8 chr =? cc_of x VEOF then Line (ln_queue l) (ln_out l) true (ln_sigs l) else
  let l := Line (ln_queue l) (ln_out l) ((s8 chr =? cc_of x VEOL) || ln_done l) (ln_sigs l) in
  if s8 chr =? cc_of x VERASE then erase x l
  else Line (ln_queue l ++ [chr]) (ln_out l ++ echo x chr) (ln_done l) (ln_sigs l).

(** Any character: the interrupt character of a foreground task keeps the queue, as with
    NOFLSH. *)
Definition line_char (x : termios) (fg : Z) (l : line) (chr : Z) : line :=
  if (s8 chr =? cc_of x VINTR) && nz fg && has_flag (c_lflag x) ISIG
  then Line (ln_queue l) (ln_out l ++ cooked x INTR_SEQ) (ln_done l) (S (ln_sigs l))
  else
    let chr := if (chr =? CR) && has_flag (c_iflag x) ICRNL then NL else chr in
    if has_flag (c_lflag x) ICANON then line_canon x chr l
    else Line (ln_queue l ++ [chr]) (ln_out l ++ echo x chr) (ln_done l) (ln_sigs l).

Definition line_input (x : termios) (fg : Z) (l : line) (source : list Z) : line := foldl (line_char x fg) l source.

End Discipline.

(** The line discipline, on lists. *)
Definition discipline : termios -> Z -> line -> list Z -> line := line_input erase_last.

(** The erase character is typed only where the code agrees: at nothing, or at one
    character of a line that is not complete, with echo. *)
Definition erase_ok (x : termios) (l : line) (chr : Z) : Prop :=
  let chr := if (chr =? CR) && has_flag (c_iflag x) ICRNL then NL else chr in
  has_flag (c_lflag x) ICANON = true -> s8 chr = cc_of x VERASE ->
  ln_queue l = [] \/ length (ln_queue l) = 1%nat /\ ln_done l = false /\ has_flag (c_lflag x) ECHO = true.

Fixpoint erases_ok (x : termios) (fg : Z) (l : line) (source : list Z) : Prop :=
  match source with
  | [] => True
  | chr :: source => erase_ok x l chr /\ erases_ok x fg (line_char erase_last x fg l chr) source
  end.

Lemma erase_agrees x l : ln_queue l = [] \/ length (ln_queue l) = 1%nat /\ has_flag (c_lflag x) ECHO = true -> erase_first x l = erase_last x l.
Proof.
  unfold erase_first, erase_last. intros [-> | [Hl ->]].
  - by rewrite andb_false_r.
  - by destruct (ln_queue l) as [| c [| d q]].
Qed.

Lemma char_agrees x fg l chr : erase_ok x l chr -> line_char erase_first x fg l chr = line_char erase_last x fg l chr.
Proof.
  intros He. unfold line_char, line_canon. unfold erase_ok in He. set (c := if (chr =? CR) && _ then NL else chr) in *.
  destruct (_ && _ && _); [done |]. destruct (has_flag (c_lflag x) ICANON); [| done]. destruct (s8 c =? cc_of x VEOF); [done |].
  destruct (Z.eqb_spec (s8 c) (cc_of x VERASE)) as [E |]; [| done]. apply erase_agrees. cbn [ln_queue].
  destruct (He eq_refl E) as [? | (? & _ & ?)]; [by left | by right].
Qed.

(** There the code implements the discipline. *)
Lemma input_agrees x fg l source : erases_ok x fg l source -> line_input erase_first x fg l source = discipline x fg l source.
Proof.
  revert l. induction source as [| chr source IH]; intros l He; [done |]. destruct He as [He Hs].
  change (line_input erase_first x fg (line_char erase_first x fg l chr) source = discipline x fg (line_char erase_last x fg l chr) source).
  rewrite (char_agrees x fg l chr He). by apply IH.
Qed.

(** * The buffers *)

(** The buffer has the bytes [q], and room for [n] more. *)
Record holds_bytes (b : buffer) (q : list Z) (n : Z) : Prop := {
  hb_wf : buffer_wf b;
  hb_bytes : contents b = q;
  hb_room : has_room b n;
}.

Section TermSpec.
Context {S : Type} `{PageSource S}.
Implicit Types t : tty S.

(** The terminal [t] with the settings [x] is the line [l]; its buffers have room
    for [ni] and [no] bytes. *)
Record tty_rep t (x : termios) (fg : Z) (l : line) (ni no : Z) : Prop := {
  tr_termios : tm_termios (ty_term t) = x;
  tr_fg : tm_fg_task (ty_term t) = fg;
  tr_input : holds_bytes (tm_input (ty_term t)) (ln_queue l) ni;
  tr_ptm : holds_bytes (tm_ptm (ty_term t)) (ln_out l) no;
  tr_done : tm_read_done (ty_term t) = ln_done l;
  tr_sigs : length (ty_sigints t) = ln_sigs l;
}.

Lemma write_holds (s : S) e b q n src :
  holds_bytes b q n -> Z.of_nat (length src) <= n ->
  exists b', buffer_write s e b src (Z.of_nat (length src)) = Ret (Z.of_nat (length src), b', s, e) /\
    holds_bytes b' (q ++ src) (n - Z.of_nat (length src)).
Proof.
  intros [Hwf <- Hr] Hn. unfold has_room in *. destruct (buffer_write_room s e b src Hwf) as (b' & E & Hwf' & Hc & Hp & Hs); [unfold has_room; lia |].
  exists b'. split; [done |]. split; [done | done |]. unfold has_room. rewrite Hp, Hs. lia.
Qed.

Lemma size_holds b q n : holds_bytes b q n -> buffer_size b = Ret (Z.of_nat (length q), b).
Proof.
  intros [Hwf <- _]. rewrite (contents_length b Hwf). destruct Hwf as [Hk _ _ _ _]. unfold buffer_size, lock_acquire.
  rewrite Hk, Z.eqb_refl, bind_Ret. destruct b. simpl in *. by subst.
Qed.

Lemma pop_holds b q n dest size :
  holds_bytes b q n -> 0 <= n -> 0 <= size <= Z.of_nat (length dest) -> size < 2 ^ 31 ->
  exists dest' b', buffer_pop b dest size = Ret (Z.min size (Z.of_nat (length q)), dest', b') /\ length dest' = length dest /\
    take (Z.to_nat (Z.min size (Z.of_nat (length q)))) dest' = take (Z.to_nat size) q /\ holds_bytes b' (drop (Z.to_nat size) q) n.
Proof.
  intros [Hwf <- Hr] Hn Hs Hs31. destruct (buffer_pop_spec b dest size Hwf Hs Hs31) as (k & dest' & b' & E & Hk & Hwf' & Hl & Ht & Hc).
  rewrite (contents_length b Hwf). subst k. exists dest', b'. split; [done |]. split; [done |]. split; [done |]. split; [done | done |].
  pose proof (contents_length b' Hwf') as Hcl. rewrite Hc, length_drop in Hcl. pose proof (contents_length b Hwf).
  assert (buf_pages b' = buf_pages b) as Hp.
  { revert E. clear. unfold buffer_pop. destruct (lock_acquire (buf_lock b)); try done. rewrite bind_Ret. destruct (do_read b dest size 0) as [[? ?] | | |]; try done.
    rewrite bind_Ret. destruct (if nz _ then _ else _); try done. rewrite bind_Ret. by intros [= _ _ <-]. }
  unfold has_room in *. rewrite Hp. lia.
Qed.

(** * Output *)

Lemma pty_write_spec t x fg l ni no src :
  tty_rep t x fg l ni no -> Z.of_nat (length src) <= no ->
  exists t', pty_write_cb t src = Ret (Z.of_nat (length src), t') /\
    tty_rep t' x fg (Line (ln_queue l) (ln_out l ++ src) (ln_done l) (ln_sigs l)) ni (no - Z.of_nat (length src)).
Proof.
  intros [Hx Hfg Hi Hp Hd Hs] Hn. unfold pty_write_cb.
  destruct (write_holds (ty_pages t) (ty_errno t) _ _ _ src Hp Hn) as (b' & -> & Hb'). rewrite bind_Ret. eexists. split; [done |]. by split.
Qed.

Lemma write_loop_spec t x fg l ni no src i :
  tty_rep t x fg l ni no -> 2 * Z.of_nat (length src) <= no ->
  let out := concat ((fun c => if c =? NL then [CR; NL] else [c]) <$> src) in
  exists t', write_loop pty_write_cb t src i = Ret (i + Z.of_nat (length src), t') /\
    tty_rep t' x fg (Line (ln_queue l) (ln_out l ++ out) (ln_done l) (ln_sigs l)) ni (no - Z.of_nat (length out)).
Proof.
  revert t l no i. induction src as [| c src IH]; intros t l no i Hr Hn; cbn [write_loop fmap list_fmap concat].
  { exists t. rewrite Z.add_0_r. split; [done |]. simpl. rewrite app_nil_r, Z.sub_0_r. by destruct l. }
  set (o := if c =? NL then [CR; NL] else [c]).
  assert (Z.of_nat (length o) <= 2 /\ 0 < Z.of_nat (length o)) as Ho by (unfold o; destruct (c =? NL); simpl; lia).
  destruct (pty_write_spec t x fg l ni no o Hr) as (t1 & E & Hr1); [simpl in Hn; lia |].
  destruct (IH t1 _ _ (i + 1) Hr1) as (t2 & E2 & Hr2); [cbn [length] in Hn; lia |].
  exists t2. split.
  - transitivity (write_loop pty_write_cb t1 src (i + 1)); [| rewrite E2; f_equal; f_equal; simpl; lia].
    unfold o in E. destruct (c =? NL); rewrite E, bind_Ret; done.
  - cbn [ln_queue ln_out ln_done ln_sigs] in Hr2. rewrite <- app_assoc in Hr2. rewrite length_app, Nat2Z.inj_add, Z.sub_add_distr. exact Hr2.
Qed.

Lemma length_cooked x src : (length (cooked x src) <= 2 * length src)%nat.
Proof.
  unfold cooked. destruct (has_flag _ _); [| lia]. induction src as [| c src IH]; [simpl; lia |].
  rewrite fmap_cons. cbn [concat]. rewrite length_app. cbn [length]. destruct (c =? NL); cbn [length]; lia.
Qed.

Lemma term_write_spec t x fg l ni no src :
  tty_rep t x fg l ni no -> 2 * Z.of_nat (length src) <= no ->
  exists t', term_write pty_write_cb t src = Ret (Z.of_nat (length src), t') /\
    tty_rep t' x fg (Line (ln_queue l) (ln_out l ++ cooked x src) (ln_done l) (ln_sigs l)) ni (no - Z.of_nat (length (cooked x src))).
Proof.
  intros Hr Hn. unfold term_write, cooked. rewrite (tr_termios _ _ _ _ _ _ Hr). destruct (has_flag _ _).
  - destruct (write_loop_spec t x fg l ni no src 0 Hr Hn) as (t' & E & Hr'). by exists t'.
  - apply pty_write_spec; [done | lia].
Qed.

(** * Input *)

Lemma rep_weaken t x fg l ni no ni' no' : tty_rep t x fg l ni no -> ni' <= ni -> no' <= no -> tty_rep t x fg l ni' no'.
Proof.
  intros [Hx Hfg [? ? Hi] [? ? Hp] Hd Hs] H1 H2. unfold has_room in *. split; try done; (split; [done | done |]; unfold has_room; lia).
Qed.

Lemma input_write_spec t x fg l ni no chr :
  tty_rep t x fg l ni no -> 1 <= ni ->
  exists t', input_write t [chr] = Ret t' /\
    tty_rep t' x fg (Line (ln_queue l ++ [chr]) (ln_out l) (ln_done l) (ln_sigs l)) (ni - 1) no.
Proof.
  intros [Hx Hfg Hi Hp Hd Hs] Hn. unfold input_write.
  destruct (write_holds (ty_pages t) (ty_errno t) _ _ _ [chr] Hi) as (b' & -> & Hb'); [simpl; lia |]. rewrite bind_Ret. eexists. split; [done |]. by split.
Qed.

Lemma echo_spec t x fg l ni no chr :
  tty_rep t x fg l ni no -> 2 <= no ->
  exists t', (if lflag t ECHO then '(_, t) ← term_write pty_write_cb t [chr]; Ret t else Ret t) = Ret t' /\
    tty_rep t' x fg (Line (ln_queue l) (ln_out l ++ echo x chr) (ln_done l) (ln_sigs l)) ni (no - 2).
Proof.
  intros Hr Hn. unfold lflag, echo. rewrite (tr_termios _ _ _ _ _ _ Hr). destruct (has_flag _ _).
  - destruct (term_write_spec t x fg l ni no [chr] Hr) as (t' & -> & Hr'); [simpl; lia |]. rewrite bind_Ret. exists t'. split; [done |].
    pose proof (length_cooked x [chr]). simpl in *. eapply rep_weaken; [exact Hr' | lia | lia].
  - exists t. split; [done |]. rewrite app_nil_r. destruct l. by eapply rep_weaken; [exact Hr | lia | lia].
Qed.

Lemma cc_spec t x fg l ni no k :
  tty_rep t x fg l ni no -> length (c_cc x) = NCCS -> 0 <= k < 32 -> cc t k = Ret (cc_of x k).
Proof.
  intros Hr Hl Hk. unfold cc, cc_of, NCCS in *. rewrite (tr_termios _ _ _ _ _ _ Hr).
  destruct (aload_in (c_cc x) k) as (v & -> & ->); [lia | done].
Qed.

Lemma set_done_spec t x fg l ni no :
  tty_rep t x fg l ni no -> tty_rep (ty_set_term t (with_done (ty_term t) true)) x fg (Line (ln_queue l) (ln_out l) true (ln_sigs l)) ni no.
Proof. intros [Hx Hfg Hi Hp Hd Hs]. by split. Qed.

Lemma erase_spec t x fg l ni no :
  tty_rep t x fg l ni no -> 0 <= ni -> 12 <= no ->
  exists t', ('(n, t) ← input_size t;
      t ← (if nz n then '(_, t) ← term_write pty_write_cb t ERASE_SEQ; Ret t else Ret t);
      '(_, _, t) ← input_pop t [0] 1;
      Ret t) = Ret t' /\
    tty_rep t' x fg (Line (drop 1 (ln_queue l)) (ln_out l ++ if ln_queue l then [] else cooked x ERASE_SEQ) (ln_done l) (ln_sigs l)) ni (no - 12).
Proof.
  intros Hr Hni Hn. unfold input_size. rewrite (size_holds _ _ _ (tr_input _ _ _ _ _ _ Hr)), !bind_Ret.
  assert (ty_set_term t (with_input (ty_term t) (tm_input (ty_term t))) = t) as -> by (by destruct t as [[] ? ? ? ?]).
  assert (exists t1, (if nz (Z.of_nat (length (ln_queue l))) then '(_, t) ← term_write pty_write_cb t ERASE_SEQ; Ret t else Ret t) = Ret t1 /\
    tty_rep t1 x fg (Line (ln_queue l) (ln_out l ++ if ln_queue l then [] else cooked x ERASE_SEQ) (ln_done l) (ln_sigs l)) ni (no - 12))
    as (t1 & -> & Hr1).
  { destruct (ln_queue l) as [| q0 q] eqn:Eq.
    - exists t. split; [done |]. rewrite app_nil_r. destruct l. simpl in Eq. subst. eapply rep_weaken; [exact Hr | lia | lia].
    - rewrite (proj2 (nz_true _)) by (simpl; lia). destruct (term_write_spec t x fg l ni no ERASE_SEQ Hr) as (t1 & -> & Hr1); [simpl; lia |].
      exists t1. split; [done |]. pose proof (length_cooked x ERASE_SEQ) as Hc. change (2 * length ERASE_SEQ)%nat with 12%nat in Hc.
      rewrite <- Eq. eapply rep_weaken; [exact Hr1 | lia | lia]. }
  rewrite bind_Ret. unfold input_pop. destruct Hr1 as [Hx Hfg Hi Hp Hd Hs].
  destruct (pop_holds _ _ _ [0] 1 Hi) as (dest & b & -> & _ & _ & Hb); [lia | simpl; lia | lia |].
  rewrite !bind_Ret. eexists. split; [done |]. by split.
Qed.

Lemma canon_spec t x fg l ni no chr :
  tty_rep t x fg l ni no -> length (c_cc x) = NCCS -> 1 <= ni -> 12 <= no ->
  exists t', handle_canon pty_write_cb t chr = Ret t' /\ tty_rep t' x fg (line_canon erase_first x chr l) (ni - 1) (no - 12).
Proof.
  intros Hr Hl Hni Hno. unfold handle_canon, line_canon.
  rewrite (cc_spec t x fg l ni no VEOF Hr Hl), bind_Ret by (unfold VEOF; lia). destruct (s8 chr =? cc_of x VEOF).
  { eexists. split; [done |]. eapply rep_weaken; [by apply set_done_spec | lia | lia]. }
  rewrite (cc_spec t x fg l ni no VEOL Hr Hl), bind_Ret by (unfold VEOL; lia).
  assert (exists t1, (if s8 chr =? cc_of x VEOL then ty_set_term t (with_done (ty_term t) true) else t) = t1 /\
    tty_rep t1 x fg (Line (ln_queue l) (ln_out l) ((s8 chr =? cc_of x VEOL) || ln_done l) (ln_sigs l)) ni no) as (t1 & -> & Hr1).
  { eexists. split; [done |]. destruct (s8 chr =? cc_of x VEOL); [by apply set_done_spec | by destruct l]. }
  rewrite (cc_spec t1 x fg _ ni no VERASE Hr1 Hl), bind_Ret by (unfold VERASE; lia). destruct (s8 chr =? cc_of x VERASE).
  - destruct (erase_spec t1 x fg _ ni no Hr1) as (t2 & E & Hr2); [lia | lia |]. exists t2. split; [exact E |].
    eapply rep_weaken; [exact Hr2 | lia | lia].
  - destruct (input_write_spec t1 x fg _ ni no chr Hr1 Hni) as (t2 & -> & Hr2). rewrite bind_Ret.
    destruct (echo_spec t2 x fg _ _ no chr Hr2) as (t3 & -> & Hr3); [lia |]. exists t3. split; [done |].
    eapply rep_weaken; [exact Hr3 | lia | lia].
Qed.

Lemma input_loop_spec source t x fg l ni no :
  tty_rep t x fg l ni no -> length (c_cc x) = NCCS -> Z.of_nat (length source) <= ni -> 12 * Z.of_nat (length source) <= no ->
  exists t', input_loop pty_write_cb t source = Ret t' /\
    tty_rep t' x fg (line_input erase_first x fg l source) (ni - Z.of_nat (length source)) (no - 12 * Z.of_nat (length source)).
Proof.
  revert t l ni no. induction source as [| chr source IH]; intros t l ni no Hr Hl Hni Hno.
  { exists t. split; [done |]. eapply rep_weaken; [exact Hr | simpl; lia | simpl; lia]. }
  cbn [length] in Hni, Hno. cbn [input_loop].
  change (line_input erase_first x fg l (chr :: source)) with (line_input erase_first x fg (line_char erase_first x fg l chr) source).
  assert (forall t1 l1, tty_rep t1 x fg l1 (ni - 1) (no - 12) -> exists t', input_loop pty_write_cb t1 source = Ret t' /\
    tty_rep t' x fg (line_input erase_first x fg l1 source) (ni - Z.of_nat (Datatypes.S (length source))) (no - 12 * Z.of_nat (Datatypes.S (length source)))) as Hrest.
  { intros t1 l1 Hr1. destruct (IH t1 l1 (ni - 1) (no - 12) Hr1 Hl) as (t' & E & Hr'); [lia | lia |]. exists t'. split; [done |].
    eapply rep_weaken; [exact Hr' | lia | lia]. }
  rewrite (cc_spec t x fg l ni no VINTR Hr Hl), bind_Ret by (unfold VINTR; lia).
  unfold line_char, lflag. rewrite (tr_termios _ _ _ _ _ _ Hr), (tr_fg _ _ _ _ _ _ Hr).
  destruct ((s8 chr =? cc_of x VINTR) && nz fg && has_flag (c_lflag x) ISIG).
  { destruct (term_write_spec t x fg l ni no INTR_SEQ Hr) as (t1 & -> & Hr1); [simpl; lia |]. rewrite bind_Ret. apply Hrest.
    pose proof (length_cooked x INTR_SEQ) as Hc. change (2 * length INTR_SEQ)%nat with 6%nat in Hc.
    apply (rep_weaken _ _ _ _ _ _ (ni - 1) (no - 12)) in Hr1; [| lia | lia]. destruct Hr1 as [Hx Hfg Hi Hp Hd Hs].
    split; try done. cbn. by rewrite Hs. }
  set (c := if (chr =? CR) && has_flag (c_iflag x) ICRNL then NL else chr). destruct (has_flag (c_lflag x) ICANON).
  - destruct (canon_spec t x fg l ni no c Hr Hl) as (t1 & -> & Hr1); [lia | lia |]. rewrite bind_Ret. by apply Hrest.
  - destruct (echo_spec t x fg l ni no c Hr) as (t1 & Ee & Hr1); [lia |]. unfold lflag in Ee. rewrite (tr_termios _ _ _ _ _ _ Hr) in Ee.
    rewrite Ee, bind_Ret. destruct (input_write_spec t1 x fg _ ni _ c Hr1) as (t2 & -> & Hr2); [lia |]. rewrite bind_Ret. apply Hrest.
    eapply rep_weaken; [exact Hr2 | lia | lia].
Qed.

(** C12: a pseudo terminal implements the line discipline: whatever the settings, what
    is typed at the master changes the input queue, the output with its echo, the
    end-of-line flag and the signals as the line discipline on lists does.  Conditions:
    the input buffer has room for a byte and the output buffer for 12 bytes per
    character, and the erase character is typed at an empty queue, or at a single
    character of an incomplete line with echo on ([erases_ok]): with more, the code
    takes away the first character and not the last ([erase_removes_oldest]). *)
Theorem term_input_refines source t x fg l ni no :
  tty_rep t x fg l ni no -> length (c_cc x) = NCCS -> Z.of_nat (length source) <= ni -> 12 * Z.of_nat (length source) <= no ->
  erases_ok x fg l source ->
  exists t', ptm_write t source = Ret (Z.of_nat (length source), t') /\
    tty_rep t' x fg (discipline x fg l source) (ni - Z.of_nat (length source)) (no - 12 * Z.of_nat (length source)).
Proof.
  intros Hr Hl Hni Hno He. destruct (input_loop_spec source t x fg l ni no Hr Hl Hni Hno) as (t' & E & Hr').
  rewrite (input_agrees x fg l source He) in Hr'. exists t'. split; [| done]. unfold ptm_write, term_input. by rewrite E, bind_Ret.
Qed.

(** * Reading *)

(** A reader that need not wait gets the oldest bytes. *)
Lemma term_read_spec patience env flags t x fg l ni no dest size :
  tty_rep t x fg l ni no -> 0 <= ni -> ln_queue l <> [] -> (has_flag (c_lflag x) ICANON = true -> ln_done l = true) ->
  0 <= size <= Z.of_nat (length dest) -> size < 2 ^ 31 ->
  let n := Z.min size (Z.of_nat (length (ln_queue l))) in
  exists dest' t', term_vfs_read patience env flags t dest size = Ret (n, dest', t') /\
    take (Z.to_nat n) dest' = take (Z.to_nat size) (ln_queue l) /\
    tty_rep t' x fg (Line (drop (Z.to_nat size) (ln_queue l)) (ln_out l) (if has_flag (c_lflag x) ICANON then false else ln_done l) (ln_sigs l)) ni no.
Proof.
  intros Hr Hni Hq Hdone Hs Hs31 n. pose proof (size_holds _ _ _ (tr_input _ _ _ _ _ _ Hr)) as Hsz.
  assert (input_size t = Ret (Z.of_nat (length (ln_queue l)), t)) as Hin.
  { unfold input_size. rewrite Hsz, bind_Ret. do 2 f_equal. by destruct t as [[] ? ? ? ?]. }
  assert (Z.of_nat (length (ln_queue l)) <> 0) as Hnz by (destruct (ln_queue l); [done | simpl; lia]).
  unfold term_vfs_read. rewrite Hin, bind_Ret, (proj2 (Z.eqb_neq _ 0) Hnz). cbn [andb].
  assert (wait_for has_input env patience 0 t = Ret (0%nat, t)) as ->.
  { assert (has_input t = Ret (true, t)) as E by (unfold has_input; by rewrite Hin, bind_Ret, (proj2 (nz_true _) Hnz)).
    by destruct patience; cbn [wait_for]; rewrite E, bind_Ret. }
  rewrite bind_Ret. unfold lflag. rewrite (tr_termios _ _ _ _ _ _ Hr). destruct Hr as [Hx Hfg Hi Hp Hd Hsg].
  destruct (pop_holds _ _ _ dest size Hi) as (dest' & b & E & _ & Ht & Hb); [lia | lia | lia |]. fold n in E, Ht.
  destruct (has_flag (c_lflag x) ICANON).
  - rewrite Hd, (Hdone eq_refl). cbn [negb andb].
    assert (wait_for line_done env patience 0 t = Ret (0%nat, t)) as ->.
    { assert (line_done t = Ret (true, t)) as E' by (unfold line_done; by rewrite Hd, (Hdone eq_refl)).
      by destruct patience; cbn [wait_for]; rewrite E', bind_Ret. }
    rewrite bind_Ret. unfold input_pop. cbn [ty_term ty_set_term with_done tm_input]. rewrite E, bind_Ret.
    do 2 eexists. split; [done |]. split; [done |]. by split.
  - unfold input_pop. rewrite E, bind_Ret. do 2 eexists. split; [done |]. split; [done |]. by split.
Qed.

Lemma ptm_read_spec patience env flags t x fg l ni no dest size :
  tty_rep t x fg l ni no -> 0 <= no -> ln_out l <> [] -> 0 <= size <= Z.of_nat (length dest) -> size < 2 ^ 31 ->
  let n := Z.min size (Z.of_nat (length (ln_out l))) in
  exists dest' t', ptm_read patience env flags t dest size = Ret (n, dest', t') /\
    take (Z.to_nat n) dest' = take (Z.to_nat size) (ln_out l) /\
    tty_rep t' x fg (Line (ln_queue l) (drop (Z.to_nat size) (ln_out l)) (ln_done l) (ln_sigs l)) ni no.
Proof.
  intros Hr Hno Hq Hs Hs31 n. pose proof (size_holds _ _ _ (tr_ptm _ _ _ _ _ _ Hr)) as Hsz.
  assert (ptm_size t = Ret (Z.of_nat (length (ln_out l)), t)) as Hin.
  { unfold ptm_size. rewrite Hsz, bind_Ret. do 2 f_equal. by destruct t as [[] ? ? ? ?]. }
  assert (Z.of_nat (length (ln_out l)) <> 0) as Hnz by (destruct (ln_out l); [done | simpl; lia]).
  unfold ptm_read. rewrite Hin, bind_Ret, (proj2 (Z.eqb_neq _ 0) Hnz). cbn [andb].
  assert (wait_for has_output env patience 0 t = Ret (0%nat, t)) as ->.
  { assert (has_output t = Ret (true, t)) as E by (unfold has_output; by rewrite Hin, bind_Ret, (proj2 (nz_true _) Hnz)).
    by destruct patience; cbn [wait_for]; rewrite E, bind_Ret. }
  rewrite bind_Ret. destruct Hr as [Hx Hfg Hi Hp Hd Hsg].
  destruct (pop_holds _ _ _ dest size Hp) as (dest' & b & E & _ & Ht & Hb); [lia | lia | lia |].
  rewrite E, bind_Ret. do 2 eexists. split; [done |]. split; [done |]. by split.
Qed.

Lemma line_input_app x fg l a b : line_input erase_first x fg l (a ++ b) = line_input erase_first x fg (line_input erase_first x fg l a) b.
Proof. apply foldl_app. Qed.

(** A character without a meaning of its own for the default settings. *)
Definition plain (chr : Z) : Prop := 0 <= chr < 256 /\ chr <> 3 /\ chr <> 4 /\ chr <> NL /\ chr <> CR /\ chr <> 127.

Lemma plain_line fg l text :
  Forall plain text ->
  line_input erase_first default_termios fg l text = Line (ln_queue l ++ text) (ln_out l ++ text) (ln_done l) (ln_sigs l).
Proof.
  revert l. induction text as [| chr text IH]; intros l Hp; [rewrite !app_nil_r; by destruct l |].
  apply Forall_cons in Hp as [(Hr & H3 & H4 & Hnl & Hcr & H127) Hp]. unfold NL, CR in *.
  change (line_input erase_first default_termios fg l (chr :: text)) with (line_input erase_first default_termios fg (line_char erase_first default_termios fg l chr) text).
  assert (forall k, k <> chr -> 0 <= k < 128 -> (s8 chr =? k) = false) as Hs8.
  { intros k Hk Hkr. apply Z.eqb_neq. unfold s8. destruct (Z.ltb_spec chr 128); lia. }
  assert (line_char erase_first default_termios fg l chr = Line (ln_queue l ++ [chr]) (ln_out l ++ [chr]) (ln_done l) (ln_sigs l)) as ->.
  { unfold line_char, line_canon. change (cc_of default_termios VINTR) with 3. change (cc_of default_termios VEOF) with 4.
    change (cc_of default_termios VEOL) with 10. change (cc_of default_termios VERASE) with 127.
    rewrite (proj2 (Z.eqb_neq chr CR)) by done. cbn [andb].
    rewrite !Hs8 by lia. cbn [andb orb]. change (has_flag (c_lflag default_termios) ICANON) with true. cbn match. f_equal. f_equal.
    unfold echo, cooked. change (has_flag (c_lflag default_termios) ECHO) with true. change (has_flag (c_oflag default_termios) ONLCR) with true.
    cbn. by rewrite (proj2 (Z.eqb_neq chr NL)). }
  rewrite IH by done. cbn [ln_queue ln_out ln_done ln_sigs]. by rewrite <- !app_assoc.
Qed.

(** a line typed at a terminal with the default settings arrives: the text
    and a carriage return written to the master are read by the other side as the
    text and a newline, and the master reads the text and a carriage return and a
    newline as its echo. *)
Theorem pty_line_roundtrip patience env flags t fg sigs text dest dest2 size ni no :
  tty_rep t default_termios fg (Line [] [] false sigs) ni no -> Forall plain text ->
  let n := Z.of_nat (length text) + 1 in
  n <= ni -> 12 * n <= no -> n < size < 2 ^ 31 -> size = Z.of_nat (length dest) -> size = Z.of_nat (length dest2) ->
  exists t1 d1 t2 d2 t3, ptm_write t (text ++ [CR]) = Ret (n, t1) /\
    term_vfs_read patience env flags t1 dest size = Ret (n, d1, t2) /\ take (Z.to_nat n) d1 = text ++ [NL] /\
    ptm_read patience env flags t2 dest2 size = Ret (n + 1, d2, t3) /\ take (Z.to_nat (n + 1)) d2 = text ++ [CR; NL] /\
    tty_rep t3 default_termios fg (Line [] [] false sigs) (ni - n) (no - 12 * n).
Proof.
  intros Hr Hp n Hni Hno Hsz Hd1 Hd2. assert (Z.of_nat (length (text ++ [CR])) = n) as Hl by (rewrite length_app; unfold n; simpl; lia).
  destruct (input_loop_spec (text ++ [CR]) t default_termios fg _ ni no Hr) as (t1 & E & Hr1); [done | lia | lia |].
  rewrite line_input_app, (plain_line _ _ text Hp) in Hr1.
  cbn [ln_queue ln_out ln_done ln_sigs app] in Hr1. rewrite Hl in Hr1.
  change (line_input erase_first default_termios fg (Line text text false sigs) [CR])
    with (line_char erase_first default_termios fg (Line text text false sigs) CR) in Hr1.
  assert (line_char erase_first default_termios fg (Line text text false sigs) CR = Line (text ++ [NL]) (text ++ [CR; NL]) true sigs) as El
    by (unfold line_char; by destruct (nz fg)).
  rewrite El in Hr1. clear El.
  destruct (term_read_spec patience env flags t1 default_termios fg _ _ _ dest size Hr1) as (d1 & t2 & E2 & Ht2 & Hr2);
    [lia | by destruct text | done | lia | lia |].
  destruct (ptm_read_spec patience env flags t2 default_termios fg _ _ _ dest2 size Hr2) as (d2 & t3 & E3 & Ht3 & Hr3);
    [lia | by destruct text | lia | lia |].
  cbn [ln_queue ln_out ln_done ln_sigs] in *.
  assert (Z.min size (Z.of_nat (length (text ++ [NL]))) = n) as Em by (rewrite length_app; unfold n in *; simpl; lia).
  assert (Z.min size (Z.of_nat (length (text ++ [CR; NL]))) = n + 1) as Em2 by (rewrite length_app; unfold n in *; simpl; lia).
  rewrite Em in E2, Ht2. rewrite Em2 in E3, Ht3. rewrite (take_ge (text ++ [NL])) in Ht2 by (rewrite length_app; unfold n in *; simpl; lia).
  rewrite (take_ge (text ++ [CR; NL])) in Ht3 by (rewrite length_app; unfold n in *; simpl; lia).
  rewrite !drop_ge in Hr3 by (rewrite length_app; unfold n in *; simpl; lia).
  exists t1, d1, t2, d2, t3. split; [unfold ptm_write, term_input; rewrite E, bind_Ret, Hl; done |].
  split; [exact E2 |]. split; [done |]. split; [exact E3 |]. split; [done | exact Hr3].
Qed.

End TermSpec.

(** * A pseudo terminal *)

Definition ex_buffer : buffer := Buffer (replicate (Z.to_nat (1 * PAGE_SIZE)) 0) 0 0 1 150.
Definition ex_tty : tty unit := Tty (Term 9 4 default_termios (replicate 8 0) ex_buffer false 0 ex_buffer 3) tt 0 [] 0.

Lemma ex_buffer_holds n : n <= 4096 -> holds_bytes ex_buffer [] n.
Proof.
  intros Hn. split; [| done | unfold has_room; simpl; change PAGE_SIZE with 4096; lia].
  constructor; simpl; change PAGE_SIZE with 4096; try done; lia.
Qed.

Lemma ex_tty_rep : tty_rep ex_tty default_termios 9 (Line [] [] false 0) 100 1200.
Proof. split; try done; apply ex_buffer_holds; lia. Qed.

(** A character is typed and erased, another is typed, then the interrupt character and
    return. *)
Lemma term_input_refines_witness :
  exists t', ptm_write ex_tty [98; 127; 97; 3; 13] = Ret (5, t') /\
    tty_rep t' default_termios 9 (Line [97; 10] ([98] ++ ERASE_SEQ ++ [97; 94; 67; 13; 10; 13; 10]) true 1) 95 1140.
Proof.
  apply (term_input_refines [98; 127; 97; 3; 13] ex_tty default_termios 9 (Line [] [] false 0) 100 1200);
    [apply ex_tty_rep | done | simpl; lia | simpl; lia |].
  cbn [erases_ok]. unfold erase_ok. split; [by left |]. split; [right; done |]. split; [by left |].
  split; [intros _ E; discriminate E |]. split; [intros _ E; discriminate E | exact I].
Defined.

Lemma pty_line_roundtrip_witness :
  exists t1 d1 t2 d2 t3, ptm_write ex_tty [97; 98; 13] = Ret (3, t1) /\
    term_vfs_read 0 (fun _ t => t) 0 t1 (replicate 8 0) 8 = Ret (3, d1, t2) /\ take 3 d1 = [97; 98; 10] /\
    ptm_read 0 (fun _ t => t) 0 t2 (replicate 8 0) 8 = Ret (4, d2, t3) /\ take 4 d2 = [97; 98; 13; 10].
Proof.
  destruct (pty_line_roundtrip 0 (fun _ t => t) 0 ex_tty 9 0 [97; 98] (replicate 8 0) (replicate 8 0) 8 100 1200)
    as (t1 & d1 & t2 & d2 & t3 & E1 & E2 & E3 & E4 & E5 & _).
  - apply ex_tty_rep.
  - repeat constructor; unfold NL, CR; lia.
  - simpl. lia.
  - simpl. lia.
  - simpl. lia.
  - reflexivity.
  - reflexivity.
  - exists t1, d1, t2, d2, t3. split; [exact E1 |]. split; [exact E2 |]. split; [exact E3 |]. split; [exact E4 | exact E5].
Defined.

(** * Where the code falls short *)

(** The erase character removes the oldest character of the line, not the last: "ab",
    erase, return leaves "b". *)
Lemma erase_removes_oldest :
  exists t, ptm_write ex_tty [97; 98; 127; 13] = Ret (4, t) /\ contents (tm_input (ty_term t)) = [98; 10].
Proof.
  destruct (input_loop_spec [97; 98; 127; 13] ex_tty default_termios 9 _ 100 1200 ex_tty_rep) as (t & E & Hr); [done | simpl; lia | simpl; lia |].
  exists t. split; [unfold ptm_write, term_input; by rewrite E, bind_Ret | exact (hb_bytes _ _ _ (tr_input _ _ _ _ _ _ Hr))].
Qed.

(** The end-of-file character on an empty line does not wake the reader. *)
Lemma eof_does_not_wake patience :
  exists t, ptm_write ex_tty [4] = Ret (1, t) /\ tm_read_done (ty_term t) = true /\
    term_vfs_read patience (fun _ t => t) 0 t (replicate 8 0) 8 = Spin.
Proof.
  destruct (input_loop_spec [4] ex_tty default_termios 9 _ 100 1200 ex_tty_rep) as (t & E & Hr); [done | simpl; lia | simpl; lia |].
  exists t. split; [unfold ptm_write, term_input; by rewrite E, bind_Ret |]. split; [exact (tr_done _ _ _ _ _ _ Hr) |].
  assert (input_size t = Ret (0, t)) as Hin.
  { unfold input_size. rewrite (size_holds _ _ _ (tr_input _ _ _ _ _ _ Hr)), bind_Ret. cbn. do 2 f_equal. by destruct t as [[] ? ? ? ?]. }
  unfold term_vfs_read. rewrite Hin, bind_Ret. cbn [Z.eqb andb]. change (has_flag 0 O_NONBLOCK) with false. cbn match.
  assert (has_input t = Ret (false, t)) as Hh by (unfold has_input; by rewrite Hin, bind_Ret).
  assert (forall i, wait_for has_input (fun _ t => t) patience i t = Spin) as Hw; [| by rewrite Hw].
  induction patience as [| patience IH]; intros i; cbn [wait_for]; rewrite Hh, bind_Ret; [done | apply IH].
Qed.

(** Setting the attributes also sets the control flags. *)
Lemma tcsets_sets_cflag :
  exists t b, term_vfs_ioctl (fun t => t) ex_tty TCSETS (Some (termios_bytes (Termios 0 0 77 0 (replicate 32 0)))) = Ret (0, Some b, t) /\
    c_cflag (tm_termios (ty_term t)) = 77.
Proof. do 2 eexists. split; [reflexivity |]. reflexivity. Qed.

(** The name of the hundredth terminal is cut off: it is that of the tenth. *)
Lemma pts_name_cut : take 5 (PTS ++ decimal 100) = take 5 (PTS ++ decimal 10).
Proof. reflexivity. Qed.
