(* ===== verification/TaskMem.v ===== *)
(** The memory of a task: src/src/tasks/mem.c, on the virtual memory of Vm.v.

    The stack grows when the task faults below it, [task_sbrk] moves the end of
    the heap, [task_mmap] allocates anywhere.  [task_copy_strings] copies the
    arrays of execve; it reads the task's memory the way system calls do, so it
    is written on the class [SyscallEnv]. *)
From stdpp Require Import base numbers list gmap.
From Stdlib Require Import ZArith Lia Bool.
From S2P Require Import Prelude Bytes Vfs Task Vm Syscall.

Open Scope Z_scope.

Definition PROT_NONE : Z := 1.
Definition PROT_READ : Z := 2.
Definition PROT_WRITE : Z := 4.
Definition MAP_SHARED : Z := 2.
Definition MAP_ANONYMOUS : Z := 4.
Definition MAP_FIXED : Z := 8.

Definition TASK_STACK_LOCATION : Z := 0xc0000000.
(** CONFIG_MMAP_BASE, with its default. *)
Definition MMAP_BASE : Z := 0xa000000.

(** What these functions use of the task ([tm_vmem] is the address of its
    memory context), [sc_errno], and virtual memory. *)
Record task_mem : Type := TaskMem {
  tm_vmem : Z;
  tm_stack_size : Z;
  tm_sbrk : Z;
  tm_errno : Z;
  tm_world : vmworld;
}.

Implicit Types s : task_mem.

Definition tm_set_stack s x : task_mem := TaskMem (tm_vmem s) x (tm_sbrk s) (tm_errno s) (tm_world s).
Definition tm_set_sbrk s x : task_mem := TaskMem (tm_vmem s) (tm_stack_size s) x (tm_errno s) (tm_world s).
Definition tm_set_errno s x : task_mem := TaskMem (tm_vmem s) (tm_stack_size s) (tm_sbrk s) x (tm_world s).
Definition tm_set_world s w : task_mem := TaskMem (tm_vmem s) (tm_stack_size s) (tm_sbrk s) (tm_errno s) w.

(** [vm_alloc_at] on the task's context; the third level is for the page tables
    of the kernel, as in [vm_alloc]. *)
Definition task_alloc s (sz request flags : Z) : outcome (Z * task_mem) :=
  '(addr, _, w) ← vm_alloc_at 3 (tm_world s) (tm_vmem s) sz request 0 flags;
  Ret (addr, tm_set_world s w).

Definition STACK_FLAGS : Z :=
  Z.lor VM_USER (Z.lor VM_RW (Z.lor VM_FREE (Z.lor VM_NOCOW (Z.lor VM_TFORK (Z.lor VM_ZERO VM_FIXED))))).

Definition task_stack_grow s (alloc_size : Z) : outcome (Z * task_mem) :=
  if PAGE_SIZE * 512 <? u32 (tm_stack_size s + alloc_size) then Ret (-1, tm_set_errno s ENOMEM) else
  let stack_lower := u32 (TASK_STACK_LOCATION - tm_stack_size s) in
  '(addr, s) ← task_alloc s (RDIV alloc_size PAGE_SIZE) (u32 (stack_lower - alloc_size)) STACK_FLAGS;
  if addr =? 0 then Ret (-1, s) else
  Ret (0, tm_set_stack s (u32 (tm_stack_size s + alloc_size))).

(** [alloc_size] is an int that becomes a size_t again. *)
Definition task_page_fault_cb s (addr : Z) : outcome (Z * task_mem) :=
  let addr := ALIGN_DOWN addr PAGE_SIZE in
  let stack_lower := u32 (TASK_STACK_LOCATION - tm_stack_size s) in
  if stack_lower <=? addr then Ret (-1, s) else
  let alloc_size := s32 (u32 (stack_lower - addr + PAGE_SIZE)) in
  task_stack_grow s (u32 alloc_size).

Definition SBRK_FLAGS : Z :=
  Z.lor VM_USER (Z.lor VM_RW (Z.lor VM_NOCOW (Z.lor VM_TFORK (Z.lor VM_FREE VM_FIXED)))).

(** [length] is an int32_t, its division is signed. *)
Definition task_sbrk s (length : Z) : outcome (Z * task_mem) :=
  if length <=? 0 then Ret (tm_sbrk s, s) else
  let length := s32 (ALIGN length PAGE_SIZE) in
  let virt_addr := tm_sbrk s in
  let s := tm_set_sbrk s (u32 (tm_sbrk s + length)) in
  '(addr, s) ← task_alloc s (u32 (Z.quot (length + (PAGE_SIZE - 1)) PAGE_SIZE)) virt_addr SBRK_FLAGS;
  if addr =? 0 then Ret (u32 (-1), s) else Ret (virt_addr, s).

(** [struct task_mmap_ctx], as far as it is used. *)
Record task_mmap_ctx : Type := MmapCtx { mm_addr : Z; mm_len : Z; mm_prot : Z; mm_flags : Z }.

Definition task_mmap s (ctx : task_mmap_ctx) : outcome (Z * task_mem) :=
  if mm_len ctx =? 0 then Ret (0, tm_set_errno s EINVAL) else
  if negb (has_flag (mm_flags ctx) MAP_ANONYMOUS) then Ret (0, tm_set_errno s ENOSYS) else
  if has_flag (mm_flags ctx) MAP_SHARED then Ret (0, tm_set_errno s ENOTSUP) else
  if has_flag (mm_prot ctx) PROT_NONE || negb (has_flag (mm_prot ctx) PROT_READ) then Ret (0, tm_set_errno s ENOTSUP) else
  let vaflags := Z.lor VM_USER (Z.lor VM_NOCOW (Z.lor VM_TFORK VM_FREE)) in
  let vaflags := if has_flag (mm_prot ctx) PROT_WRITE then Z.lor vaflags VM_RW else vaflags in
  let req := mm_addr ctx in
  if has_flag (mm_flags ctx) MAP_FIXED && (req =? 0) then Ret (0, tm_set_errno s EINVAL) else
  let vaflags := if has_flag (mm_flags ctx) MAP_FIXED then Z.lor vaflags VM_FIXED else vaflags in
  let req := if req =? 0 then MMAP_BASE else req in
  '(addr, s) ← task_alloc s (RDIV (mm_len ctx) PAGE_SIZE) req vaflags;
  if addr =? 0 then Ret (u32 (-1), s) else Ret (addr, s).

(** * Copying the arrays of execve *)

Section CopyStrings.
Context {E : Type} `{SyscallEnv E}.
Implicit Types t : sys_state E.

(** A word of the kernel's memory: [array[i]]. *)
Definition kernel_word (e : E) (a : Z) : outcome Z :=
  b ← kernel_bytes e a 4; Ret (u32_at b 0).

(** The first loop: how many entries there are before NULL, 200 at most. *)
Fixpoint count_strings (n : nat) (e : E) (array size : Z) : outcome Z :=
  match n with
  | O => Ret size
  | S n =>
    p ← kernel_word e (array + 4 * size);
    if p =? 0 then Ret size else count_strings n e array (size + 1)
  end.

(** [strndup(old_string, max_length)]: what the new string holds before its
    NUL.  strlcpy reads on to the end of the old string. *)
Fixpoint kernel_dup (fuel : nat) (e : E) (a n : Z) : outcome (list Z) :=
  match fuel with
  | O => Spin
  | S fuel =>
    c ← kernel_load e a;
    if c =? 0 then Ret [] else
    l ← kernel_dup fuel e (a + 1) (n - 1);
    Ret (if n <=? 0 then [] else c :: l)
  end.

(** Maps the string at [p]: the kernel's address and the handle of the mapping,
    None when it is not there, and the new [max_length]. *)
Definition map_string (e : E) (p max_length : Z) : outcome (option (Z * Z) * Z * E) :=
  '(a, self, e) ← user_map e p VFS_PATH_MAX 0;
  if nz a then Ret (Some (a, self), max_length, e) else
  let max_length := u32 (ALIGN p PAGE_SIZE - p - 1) in
  '(a, self, e) ← user_map e p max_length 0;
  if nz a then Ret (Some (a, self), max_length, e) else Ret (None, max_length, e).

(** The second loop; [memory] is how far reading a string may go.  With a
    [max_length] of -1 the copy would get no memory. *)
Fixpoint copy_loop (n : nat) (memory : nat) t (array i max_length : Z) (acc : list (list Z))
    : outcome (option (list (list Z)) * sys_state E) :=
  match n with
  | O => Ret (Some acc, t)
  | S n =>
    p ← kernel_word (sy_env t) (array + 4 * i);
    '(m, max_length, e) ← map_string (sy_env t) p max_length;
    let t := sy_set_env t e in
    match m with
    | None => Ret (None, t)
    | Some (a, self) =>
      if max_length =? u32 (-1) then Fault else
      str ← kernel_dup memory (sy_env t) a max_length;
      e ← user_free (sy_env t) self;
      let t := sy_set_env t e in
      if Z.of_nat (length str) =? max_length then t ← signal_segv t; Ret (None, t)
      else copy_loop n memory t array (i + 1) max_length (acc ++ [str])
    end
  end.

(** The copies; their number is [*count]. *)
Definition task_copy_strings (memory : nat) t (array : Z) : outcome (option (list (list Z)) * sys_state E) :=
  size ← count_strings 200 (sy_env t) array 0;
  if 200 <=? size then Ret (None, t) else
  copy_loop (Z.to_nat size) memory t array 0 VFS_PATH_MAX [].

End CopyStrings.
