(* ===== verification/TaskMemSpec.v ===== *)
(** Correctness of the memory of tasks (TaskMem.v): the stack stays within its
    512 pages, the heap grows without gaps, what mmap refuses, and the strings
    execve copies. *)
From stdpp Require Import base numbers list gmap.
From Stdlib Require Import ZArith Lia Bool.
From S2P Require Import Prelude Bitmap PageAlloc DList Bytes Vfs Task Vm VmSpec Syscall TaskMem.

Open Scope Z_scope.

Implicit Types s : task_mem.

(** * The stack *)

(** Whole pages, 512 at most. *)
Definition stack_ok s : Prop := 0 <= tm_stack_size s <= 512 * PAGE_SIZE /\ tm_stack_size s mod PAGE_SIZE = 0.

(** The addresses of the stack. *)
Definition stack_lower s : Z := TASK_STACK_LOCATION - tm_stack_size s.

Ltac stack_lia := unfold stack_lower, TASK_STACK_LOCATION in *; page_lia.

Lemma stack_lower_u32 s : stack_ok s -> u32 (TASK_STACK_LOCATION - tm_stack_size s) = stack_lower s.
Proof. intros [Hs _]. apply u32_small. stack_lia. Qed.

(** A size of the stack as a number of pages. *)
Lemma stack_pages s : stack_ok s -> exists k, 0 <= k <= 512 /\ tm_stack_size s = k * PAGE_SIZE.
Proof.
  intros [Hs Hm]. exists (tm_stack_size s / PAGE_SIZE). pose proof (Z.div_mod (tm_stack_size s) PAGE_SIZE). page_lia.
Qed.

(** What a fault below the stack asks for: one page more than what is missing. *)
Lemma task_page_fault_cb_below s addr :
  stack_ok s -> 0 <= addr < stack_lower s ->
  task_page_fault_cb s addr = task_stack_grow s (stack_lower s - addr / PAGE_SIZE * PAGE_SIZE + PAGE_SIZE).
Proof.
  intros Hs Ha. destruct (stack_pages s Hs) as (k & Hk & Ek). unfold task_page_fault_cb. rewrite (stack_lower_u32 _ Hs).
  assert (0 <= addr < 2 ^ 32) as Hr by stack_lia.
  rewrite (proj1 (ALIGN_DOWN_page addr Hr)). pose proof (Z.div_mod addr PAGE_SIZE). pose proof (Z.mod_pos_bound addr PAGE_SIZE).
  destruct (Z.leb_spec (stack_lower s) (addr / PAGE_SIZE * PAGE_SIZE)); [page_lia |].
  by rewrite u32_s32, u32_u32, u32_small by stack_lia.
Qed.

Lemma task_alloc_fields s sz req flags addr s' :
  task_alloc s sz req flags = Ret (addr, s') -> tm_stack_size s' = tm_stack_size s /\ tm_sbrk s' = tm_sbrk s /\ tm_vmem s' = tm_vmem s.
Proof.
  unfold task_alloc. destruct (vm_alloc_at _ _ _ _ _ _ _) as [[[a r] w] | | |]; [| done ..]. rewrite bind_Ret. intros [= <- <-]. done.
Qed.

(** The requests [task_stack_grow] refuses, and what it returns otherwise. *)
Lemma task_stack_grow_result s n r s' :
  stack_ok s -> 0 <= n < 2 ^ 20 - 512 -> task_stack_grow s (n * PAGE_SIZE) = Ret (r, s') ->
  (r = -1 /\ tm_stack_size s' = tm_stack_size s) \/
  (r = 0 /\ tm_stack_size s' = tm_stack_size s + n * PAGE_SIZE /\ tm_stack_size s' <= 512 * PAGE_SIZE).
Proof.
  intros Hs Hn. destruct (stack_pages s Hs) as (k & Hk & Ek). unfold task_stack_grow. rewrite u32_small by page_lia.
  destruct (Z.ltb_spec (PAGE_SIZE * 512) (tm_stack_size s + n * PAGE_SIZE)); [intros [= <- <-]; by left |].
  destruct (task_alloc s _ _ _) as [[addr s1] | | |] eqn:E; [| done ..]. rewrite bind_Ret.
  apply task_alloc_fields in E as (E1 & _). destruct (addr =? 0); intros [= <- <-]; [by left |].
  right. cbn. rewrite E1, u32_small by page_lia. split; [done |]. page_lia.
Qed.

(** Faults one after the other. *)
Inductive faults : task_mem -> task_mem -> Prop :=
  | faults_none s : faults s s
  | faults_next s addr r s1 s2 : 0 <= addr < 2 ^ 32 -> task_page_fault_cb s addr = Ret (r, s1) -> faults s1 s2 -> faults s s2.

(** One fault: the stack stays as it is, or it grows to where the address is
    part of it and a page is left below. *)
Lemma page_fault_step s addr r s' :
  stack_ok s -> 0 <= addr < 2 ^ 32 -> task_page_fault_cb s addr = Ret (r, s') ->
  stack_ok s' /\
  ((r = -1 /\ stack_lower s' = stack_lower s) \/
   (r = 0 /\ addr < stack_lower s /\ stack_lower s' + PAGE_SIZE <= addr < stack_lower s' + 2 * PAGE_SIZE)).
Proof.
  intros Hs Ha E. destruct (stack_pages s Hs) as (k & Hk & Ek). destruct (Z.lt_ge_cases addr (stack_lower s)) as [Hl | Hl].
  - rewrite task_page_fault_cb_below in E by (done || lia).
    pose proof (Z.div_mod addr PAGE_SIZE ltac:(done)) as Hd. pose proof (Z.mod_pos_bound addr PAGE_SIZE ltac:(done)).
    replace (stack_lower s - addr / PAGE_SIZE * PAGE_SIZE + PAGE_SIZE) with ((0xc0000 - k - addr / PAGE_SIZE + 1) * PAGE_SIZE) in E by stack_lia.
    apply task_stack_grow_result in E as [(-> & E) | (-> & E & Hmax)]; [.. | done | stack_lia].
    + split; [by unfold stack_ok; rewrite E |]. left. split; [done |]. unfold stack_lower. by rewrite E.
    + split.
      * split; [| rewrite E, Ek, <- Z.mul_add_distr_r; apply Z_mod_mult]. stack_lia.
      * right. split; [done |]. split; [done |]. stack_lia.
  - unfold task_page_fault_cb in E. rewrite (stack_lower_u32 _ Hs), (proj1 (ALIGN_DOWN_page addr Ha)) in E.
    destruct (Z.leb_spec (stack_lower s) (addr / PAGE_SIZE * PAGE_SIZE)) as [_ | Hlt].
    + injection E as <- <-. split; [done |]. by left.
    + exfalso. assert (stack_lower s = (0xc0000 - k) * PAGE_SIZE) as El by stack_lia.
      assert (0xc0000 - k <= addr / PAGE_SIZE) by (apply Z.div_le_lower_bound; [done | page_lia]). page_lia.
Qed.

(** A fault outside the pages the stack may still get changes the error number at
    most. *)
Lemma page_fault_refused s addr :
  stack_ok s -> 0 <= addr < 2 ^ 32 -> stack_lower s <= addr \/ addr < TASK_STACK_LOCATION - 511 * PAGE_SIZE ->
  exists e, task_page_fault_cb s addr = Ret (-1, tm_set_errno s e).
Proof.
  intros Hs Ha Ho. destruct (stack_pages s Hs) as (k & Hk & Ek). destruct (Z.lt_ge_cases addr (stack_lower s)) as [Hl | Hl].
  - rewrite task_page_fault_cb_below by (done || lia). unfold task_stack_grow.
    pose proof (Z.div_mod addr PAGE_SIZE ltac:(done)) as Hd. pose proof (Z.mod_pos_bound addr PAGE_SIZE ltac:(done)).
    rewrite u32_small by stack_lia. destruct (Z.ltb_spec (PAGE_SIZE * 512)
      (tm_stack_size s + (stack_lower s - addr / PAGE_SIZE * PAGE_SIZE + PAGE_SIZE))); [by eexists |].
    assert (addr / PAGE_SIZE < 0xc0000 - 511) by (apply Z.div_lt_upper_bound; stack_lia). stack_lia.
  - unfold task_page_fault_cb. rewrite (stack_lower_u32 _ Hs), (proj1 (ALIGN_DOWN_page addr Ha)).
    assert (stack_lower s = (0xc0000 - k) * PAGE_SIZE) as El by stack_lia.
    assert (0xc0000 - k <= addr / PAGE_SIZE) by (apply Z.div_le_lower_bound; [done | page_lia]).
    destruct (Z.leb_spec (stack_lower s) (addr / PAGE_SIZE * PAGE_SIZE)); [exists (tm_errno s); by destruct s | page_lia].
Qed.

Lemma faults_ok s s' : stack_ok s -> faults s s' -> stack_ok s'.
Proof.
  intros Hs Hf. induction Hf as [s | s addr r s1 s2 Ha E _ IH]; [done |].
  apply IH. by destruct (page_fault_step _ _ _ _ Hs Ha E).
Qed.

(** C32: whatever addresses a task faults at, its stack is a whole number of
    pages and never more than 512; a fault that is handled was below the stack and
    ends with the address in the stack and a page below it; one that is not handled
    leaves the size of the stack as it was; a fault at the stack or above, or below
    the 511th page from the top, is never taken for growth and leaves virtual memory
    as it was.  (Nothing is said about virtual memory after a fault between the two
    for which the allocation fails.) *)
Theorem stack_growth_bounded s s1 addr :
  stack_ok s -> faults s s1 -> 0 <= addr < 2 ^ 32 ->
  (forall r s2, task_page_fault_cb s1 addr = Ret (r, s2) -> stack_ok s2 /\
    ((r = -1 /\ stack_lower s2 = stack_lower s1) \/
     (r = 0 /\ addr < stack_lower s1 /\ stack_lower s2 + PAGE_SIZE <= addr < stack_lower s2 + 2 * PAGE_SIZE))) /\
  (stack_lower s1 <= addr \/ addr < TASK_STACK_LOCATION - 511 * PAGE_SIZE ->
   exists s2, task_page_fault_cb s1 addr = Ret (-1, s2) /\ tm_world s2 = tm_world s1).
Proof.
  intros Hs Hf Ha. pose proof (faults_ok _ _ Hs Hf) as H1. split.
  - intros r s2. by apply page_fault_step.
  - intros Ho. destruct (page_fault_refused s1 addr H1 Ha Ho) as (e & E). by eexists.
Qed.

(** * The heap *)

Lemma ALIGN_pages x : 0 < x <= 2 ^ 32 - PAGE_SIZE -> ALIGN x PAGE_SIZE = (x + PAGE_SIZE - 1) / PAGE_SIZE * PAGE_SIZE.
Proof.
  intros Hx. unfold ALIGN. rewrite (proj1 (ALIGN_DOWN_page x ltac:(page_lia))).
  pose proof (Z.div_mod x PAGE_SIZE ltac:(done)). pose proof (Z.mod_pos_bound x PAGE_SIZE ltac:(done)).
  destruct (nz (x mod PAGE_SIZE)) eqn:E.
  - apply nz_true in E. rewrite u32_small by page_lia.
    replace ((x + PAGE_SIZE - 1) / PAGE_SIZE) with (x / PAGE_SIZE + 1); [lia |].
    apply Z.div_unique with (x mod PAGE_SIZE - 1); page_lia.
  - apply nz_false in E. replace ((x + PAGE_SIZE - 1) / PAGE_SIZE) with (x / PAGE_SIZE); [page_lia |].
    apply Z.div_unique with (PAGE_SIZE - 1); page_lia.
Qed.

(** The number of pages of a request. *)
Definition pages (n : Z) : Z := (n + PAGE_SIZE - 1) / PAGE_SIZE.

Lemma pages_bounds n : 0 < n -> 0 < pages n /\ n <= pages n * PAGE_SIZE < n + PAGE_SIZE.
Proof.
  intros Hn. unfold pages. pose proof (Z.div_mod (n + PAGE_SIZE - 1) PAGE_SIZE ltac:(done)).
  pose proof (Z.mod_pos_bound (n + PAGE_SIZE - 1) PAGE_SIZE ltac:(done)). split; [| page_lia].
  apply Z.div_str_pos. page_lia.
Qed.

Section Heap.
(** The context of the task, in order and with memory to allocate from. *)
Context (s : task_mem) (c : vm_ctx) (l : list (Z * vm_range)) (sz p : Z) (pa : mem_page_alloc_ctx) (a : Z) (rest : list Z).
Context (Hinv : ctx_inv (tm_world s) (tm_vmem s) c l) (Hpd : pd_ready (tm_world s) (vc_page_dir c)).
Context (Hb : backing (tm_world s) sz 0 p pa).
Context (Hready : w_kmalloc_ready (tm_world s) = true) (Hsup : w_supply (tm_world s) = a :: rest).
Context (Ha0 : a <> 0) (Hfree : w_ranges (tm_world s) !! a = None).

Lemma task_alloc_spec s0 req flags q :
  tm_world s0 = tm_world s -> tm_vmem s0 = tm_vmem s -> has_flag flags VM_ZERO = false -> 0 < sz -> 0 <= req < 2 ^ 32 ->
  place (vc_bitmap c) sz req (has_flag flags VM_FIXED) q ->
  exists virt w' c', task_alloc s0 sz req flags = Ret (virt, tm_set_world s0 w') /\ virt <> 0 /\
    ctx_inv w' (tm_vmem s) c' ((a, Range (tm_vmem s) virt (sz * PAGE_SIZE) (CLEANUP_FLAGS flags) [] p) :: l) /\
    (nz req && has_flag flags VM_FIXED = true -> virt = ALIGN_DOWN req PAGE_SIZE) /\
    maps_pages (tm_world s) w' (vc_page_dir c) virt p sz flags.
Proof.
  intros Ew Ev Hz Hsz Hr Hp. unfold task_alloc. rewrite Ew, Ev.
  destruct (vm_alloc_at_spec 2 (tm_world s) (tm_vmem s) c l sz req 0 flags q p pa a rest)
    as (virt & w' & c' & -> & Hv & Hi & Hf & Hm & _); [done .. |]. rewrite bind_Ret.
  exists virt, w', c'. split; [done |]. split; [lia | done].
Qed.

End Heap.

(** task_sbrk with a positive length that ends below 2 GiB returns the old
    end of the heap and moves it up by the pages asked for; these pages become
    one range of the task's memory that starts at the old end, belongs to no
    other range, and translates to the new physical memory, writable and open to
    the task. *)
Theorem sbrk_extends_heap s c l n p pa a rest :
  ctx_inv (tm_world s) (tm_vmem s) c l -> pd_ready (tm_world s) (vc_page_dir c) ->
  0 < n <= 2 ^ 31 - PAGE_SIZE -> backing (tm_world s) (pages n) 0 p pa ->
  w_kmalloc_ready (tm_world s) = true -> w_supply (tm_world s) = a :: rest -> a <> 0 -> w_ranges (tm_world s) !! a = None ->
  0 < tm_sbrk s < 2 ^ 31 -> tm_sbrk s mod PAGE_SIZE = 0 ->
  tm_sbrk s / PAGE_SIZE + pages n <= Bitmap.size (vc_bitmap c) -> free_run (data (vc_bitmap c)) (tm_sbrk s / PAGE_SIZE) (pages n) ->
  exists s' c', task_sbrk s n = Ret (tm_sbrk s, s') /\ tm_sbrk s' = tm_sbrk s + pages n * PAGE_SIZE /\
    ctx_inv (tm_world s') (tm_vmem s) c'
      ((a, Range (tm_vmem s) (tm_sbrk s) (tm_sbrk s' - tm_sbrk s) (CLEANUP_FLAGS SBRK_FLAGS) [] p) :: l) /\
    maps_pages (tm_world s) (tm_world s') (vc_page_dir c) (tm_sbrk s) p (pages n) (Z.lor VM_USER VM_RW).
Proof.
  intros Hi Hpd Hn Hb Hrd Hsup Ha0 Hfree Hbrk Hal Hfit Hrun. destruct (pages_bounds n) as [Hp1 Hp2]; [lia |].
  unfold task_sbrk. destruct (Z.leb_spec n 0); [lia |]. rewrite ALIGN_pages by page_lia. fold (pages n).
  rewrite s32_small by page_lia. rewrite (u32_small (tm_sbrk s + _)) by page_lia.
  replace (Z.quot (pages n * PAGE_SIZE + (PAGE_SIZE - 1)) PAGE_SIZE) with (pages n).
  2: { rewrite Z.quot_div_nonneg by page_lia. apply Z.div_unique with (PAGE_SIZE - 1); page_lia. }
  rewrite (u32_small (pages n)) by page_lia.
  assert (nz (tm_sbrk s) = true) as Hnz by (unfold nz; destruct (Z.eqb_spec (tm_sbrk s) 0); [lia | done]).
  assert (place (vc_bitmap c) (pages n) (tm_sbrk s) (has_flag SBRK_FLAGS VM_FIXED) (tm_sbrk s / PAGE_SIZE)) as Hpl.
  { split; [pose proof (Z.div_mod (tm_sbrk s) PAGE_SIZE ltac:(done)); page_lia |].
    split; [done |]. split; [done |]. by rewrite Hnz. }
  destruct (task_alloc_spec s c l (pages n) p pa a rest Hi Hpd Hb Hrd Hsup Ha0 Hfree
    (tm_set_sbrk s (tm_sbrk s + pages n * PAGE_SIZE)) (tm_sbrk s) SBRK_FLAGS (tm_sbrk s / PAGE_SIZE))
    as (virt & w' & c' & -> & Hv & Hi' & Hf & Hm); try done; [lia |].
  rewrite bind_Ret. destruct (Z.eqb_spec virt 0); [done |]. eexists _, c'. split; [done |]. split; [done |].
  assert (virt = tm_sbrk s) as ->.
  { rewrite Hf by (by rewrite Hnz). rewrite (proj1 (ALIGN_DOWN_page (tm_sbrk s) ltac:(lia))).
    pose proof (Z.div_mod (tm_sbrk s) PAGE_SIZE ltac:(done)). lia. }
  split; [| exact Hm]. cbn. by replace (tm_sbrk s + pages n * PAGE_SIZE - tm_sbrk s) with (pages n * PAGE_SIZE) by lia.
Qed.

(** * mmap *)

(** The requests that are served: anonymous, private, readable memory, and at an
    address when the address is to be fixed. *)
Record mmap_ok (ctx : task_mmap_ctx) : Prop := {
  mo_len : 0 < mm_len ctx;
  mo_anonymous : has_flag (mm_flags ctx) MAP_ANONYMOUS = true;
  mo_private : has_flag (mm_flags ctx) MAP_SHARED = false;
  mo_some : has_flag (mm_prot ctx) PROT_NONE = false;
  mo_readable : has_flag (mm_prot ctx) PROT_READ = true;
  mo_fixed : has_flag (mm_flags ctx) MAP_FIXED = true -> mm_addr ctx <> 0;
}.

(** The flags of the allocation. *)
Definition mmap_flags (ctx : task_mmap_ctx) : Z :=
  Z.lor (Z.lor (Z.lor VM_USER (Z.lor VM_NOCOW (Z.lor VM_TFORK VM_FREE)))
    (if has_flag (mm_prot ctx) PROT_WRITE then VM_RW else 0)) (if has_flag (mm_flags ctx) MAP_FIXED then VM_FIXED else 0).

Lemma mmap_flags_bits ctx :
  has_flag (mmap_flags ctx) VM_ZERO = false /\ has_flag (mmap_flags ctx) VM_USER = true /\
  has_flag (mmap_flags ctx) VM_RW = has_flag (mm_prot ctx) PROT_WRITE /\
  has_flag (mmap_flags ctx) VM_FIXED = has_flag (mm_flags ctx) MAP_FIXED.
Proof. unfold mmap_flags. by destruct (has_flag (mm_prot ctx) PROT_WRITE), (has_flag (mm_flags ctx) MAP_FIXED). Qed.

Lemma task_mmap_ok s ctx :
  mmap_ok ctx -> task_mmap s ctx =
    ('(addr, s) ← task_alloc s (RDIV (mm_len ctx) PAGE_SIZE) (if mm_addr ctx =? 0 then MMAP_BASE else mm_addr ctx) (mmap_flags ctx);
     if addr =? 0 then Ret (u32 (-1), s) else Ret (addr, s)).
Proof.
  intros [Hl Ha Hp Hn Hr Hf]. unfold task_mmap. destruct (Z.eqb_spec (mm_len ctx) 0); [lia |].
  rewrite Ha, Hp, Hn, Hr. cbn [negb orb]. unfold mmap_flags.
  destruct (has_flag (mm_flags ctx) MAP_FIXED); cbn [andb].
  - destruct (Z.eqb_spec (mm_addr ctx) 0); [by destruct (Hf eq_refl) |]. by destruct (has_flag (mm_prot ctx) PROT_WRITE).
  - by destruct (has_flag (mm_prot ctx) PROT_WRITE).
Qed.

Ltac refuse e := exists e; split; [done |]; unfold EINVAL, ENOSYS, ENOTSUP; naive_solver lia.

(** a request mmap does not serve (nothing to map, a file, shared memory,
    memory that cannot be read, a fixed address of NULL) is answered with NULL and
    EINVAL, ENOSYS or ENOTSUP, and nothing else changes. *)
Theorem mmap_refuses s ctx :
  0 <= mm_len ctx -> ~ mmap_ok ctx ->
  exists e, task_mmap s ctx = Ret (0, tm_set_errno s e) /\
    (e = EINVAL <-> mm_len ctx = 0 \/ (has_flag (mm_flags ctx) MAP_ANONYMOUS = true /\ has_flag (mm_flags ctx) MAP_SHARED = false /\
       has_flag (mm_prot ctx) PROT_NONE = false /\ has_flag (mm_prot ctx) PROT_READ = true)) /\
    (e = ENOSYS <-> mm_len ctx <> 0 /\ has_flag (mm_flags ctx) MAP_ANONYMOUS = false) /\
    (e = EINVAL \/ e = ENOSYS \/ e = ENOTSUP).
Proof.
  intros Hl Hno. unfold task_mmap. destruct (Z.eqb_spec (mm_len ctx) 0) as [-> | Hne]; [refuse EINVAL |].
  destruct (has_flag (mm_flags ctx) MAP_ANONYMOUS) eqn:Ea; cbn [negb]; [| refuse ENOSYS].
  destruct (has_flag (mm_flags ctx) MAP_SHARED) eqn:Es; [refuse ENOTSUP |].
  destruct (has_flag (mm_prot ctx) PROT_NONE) eqn:En; cbn [orb]; [refuse ENOTSUP |].
  destruct (has_flag (mm_prot ctx) PROT_READ) eqn:Er; cbn [negb]; [| refuse ENOTSUP].
  destruct (has_flag (mm_flags ctx) MAP_FIXED && (mm_addr ctx =? 0)) eqn:Ef; [refuse EINVAL |].
  destruct Hno. split; try done; [lia |]. intros Hf. rewrite Hf in Ef. by apply Z.eqb_neq in Ef.
Qed.

(** A request that is served, with memory to serve it: a new range of the task's
    memory, where it was asked for when that was fixed, and writable when that was
    asked for. *)
Theorem mmap_allocates s ctx c l q p pa a rest :
  mmap_ok ctx -> mm_len ctx <= 2 ^ 32 - PAGE_SIZE -> 0 <= mm_addr ctx < 2 ^ 32 ->
  ctx_inv (tm_world s) (tm_vmem s) c l -> pd_ready (tm_world s) (vc_page_dir c) ->
  backing (tm_world s) (pages (mm_len ctx)) 0 p pa ->
  w_kmalloc_ready (tm_world s) = true -> w_supply (tm_world s) = a :: rest -> a <> 0 -> w_ranges (tm_world s) !! a = None ->
  place (vc_bitmap c) (pages (mm_len ctx)) (if mm_addr ctx =? 0 then MMAP_BASE else mm_addr ctx) (has_flag (mm_flags ctx) MAP_FIXED) q ->
  exists virt w' c', task_mmap s ctx = Ret (virt, tm_set_world s w') /\ virt <> 0 /\
    ctx_inv w' (tm_vmem s) c' ((a, Range (tm_vmem s) virt (pages (mm_len ctx) * PAGE_SIZE) (CLEANUP_FLAGS (mmap_flags ctx)) [] p) :: l) /\
    (has_flag (mm_flags ctx) MAP_FIXED = true -> virt = ALIGN_DOWN (mm_addr ctx) PAGE_SIZE) /\
    maps_pages (tm_world s) w' (vc_page_dir c) virt p (pages (mm_len ctx)) (mmap_flags ctx).
Proof.
  intros Hok Hlen Haddr Hi Hpd Hb Hrd Hsup Ha0 Hfree Hpl. pose proof (mo_len _ Hok) as Hl. destruct (pages_bounds (mm_len ctx) Hl) as [Hp1 Hp2].
  destruct (mmap_flags_bits ctx) as (Fz & _ & _ & Ff). rewrite (task_mmap_ok s ctx Hok).
  replace (RDIV (mm_len ctx) PAGE_SIZE) with (pages (mm_len ctx)).
  2: { unfold RDIV, pages. rewrite u32_small by page_lia. f_equal. lia. }
  assert (0 <= (if mm_addr ctx =? 0 then MMAP_BASE else mm_addr ctx) < 2 ^ 32) as Hreq.
  { destruct (mm_addr ctx =? 0); [by vm_compute | done]. }
  destruct (task_alloc_spec s c l (pages (mm_len ctx)) p pa a rest Hi Hpd Hb Hrd Hsup Ha0 Hfree s
    (if mm_addr ctx =? 0 then MMAP_BASE else mm_addr ctx) (mmap_flags ctx) q)
    as (virt & w' & c' & -> & Hv & Hi' & Hf & Hm); try done; [by rewrite Ff |].
  rewrite bind_Ret. destruct (Z.eqb_spec virt 0); [done |]. exists virt, w', c'. repeat (split; [done |]). split; [| done].
  intros Hfix. pose proof (mo_fixed _ Hok Hfix). destruct (Z.eqb_spec (mm_addr ctx) 0); [done |].
  apply Hf. rewrite Ff, Hfix. unfold nz. by destruct (Z.eqb_spec (mm_addr ctx) 0).
Qed.

(** * The strings of execve *)

(** What the copying relies on: where the task has memory it can be mapped, a
    mapping shows it, and taking the mapping away leaves the rest as it was. *)
Class UserMemory (E : Type) `{SyscallEnv E} : Type := {
  user_byte : E -> Z -> option Z;
  law_map_there e p n mf : 0 < n -> (forall i, 0 <= i < n -> is_Some (user_byte e (p + i))) ->
    exists a self e', user_map e p n mf = Ret (a, self, e') /\ a <> 0;
  law_map_shows e p n mf a self e' i b : user_map e p n mf = Ret (a, self, e') -> a <> 0 -> 0 <= i < n ->
    user_byte e (p + i) = Some b -> kernel_load e' (a + i) = Ret b;
  law_map_undone e p n mf a self e' : user_map e p n mf = Ret (a, self, e') -> a <> 0 ->
    exists e2, user_free e' self = Ret e2 /\ user_byte e2 = user_byte e /\
      forall x b, kernel_load e x = Ret b -> kernel_load e2 x = Ret b;
}.

Section Strings.
Context {E : Type} `{UserMemory E}.
Implicit Types (e : E) (t : sys_state E).

(** The task has the string [str] at [p]. *)
Definition user_string e (p : Z) (str : list Z) : Prop :=
  Forall (fun c => c <> 0) str /\ forall i b, (str ++ [0]) !! i = Some b -> user_byte e (p + Z.of_nat i) = Some b.

(** The kernel has the words [l] at [a]. *)
Definition kernel_array e (a : Z) (l : list Z) : Prop :=
  forall i x, l !! i = Some x -> 0 <= x < 2 ^ 32 /\
    forall k b, le_bytes 4 x !! k = Some b -> kernel_load e (a + 4 * Z.of_nat i + Z.of_nat k) = Ret b.

Lemma kernel_bytes_spec e a n l :
  length l = n -> (forall k b, l !! k = Some b -> kernel_load e (a + Z.of_nat k) = Ret b) -> kernel_bytes e a n = Ret l.
Proof.
  revert a n. induction l as [| b l IH]; intros a n <- Hl; [done |]. simpl.
  pose proof (Hl 0%nat b eq_refl) as Hb. rewrite Z.add_0_r in Hb. rewrite Hb, bind_Ret.
  rewrite (IH (a + 1)) by (done || (intros k c Hk; replace (a + 1 + Z.of_nat k) with (a + Z.of_nat (S k)) by lia; by apply Hl)). done.
Qed.

Lemma kernel_word_spec e a l i x :
  kernel_array e a l -> l !! i = Some x -> kernel_word e (a + 4 * Z.of_nat i) = Ret x.
Proof.
  intros Ha Hi. destruct (Ha i x Hi) as [Hx Hb]. unfold kernel_word.
  rewrite (kernel_bytes_spec e _ 4 (le_bytes 4 x)) by (rewrite ?length_le_bytes; done). rewrite bind_Ret. f_equal.
  unfold u32_at. rewrite <- (app_nil_r (le_bytes 4 x)). by apply le_at_le_bytes.
Qed.

Lemma count_strings_spec e a ps n i :
  kernel_array e a (ps ++ [0]) -> Forall (fun p => p <> 0) ps -> (i <= length ps)%nat -> (length ps - i < n)%nat ->
  count_strings n e a (Z.of_nat i) = Ret (Z.of_nat (length ps)).
Proof.
  intros Ha Hps. revert i. induction n as [| n IH]; intros i Hi Hn; [lia |]. cbn [count_strings].
  destruct (decide (i = length ps)) as [-> |].
  - rewrite (kernel_word_spec e a _ _ 0 Ha) by (by rewrite list_lookup_middle). by rewrite bind_Ret.
  - destruct (lookup_lt_is_Some_2 ps i) as [x Hx]; [lia |].
    rewrite (kernel_word_spec e a _ i x Ha) by (by rewrite lookup_app_l by lia). rewrite bind_Ret.
    rewrite Forall_lookup in Hps. destruct (Z.eqb_spec x 0); [by destruct (Hps _ _ Hx) |].
    replace (Z.of_nat i + 1) with (Z.of_nat (S i)) by lia. apply IH; lia.
Qed.

Lemma kernel_dup_spec e fuel a n str :
  Forall (fun c => c <> 0) str -> (forall k b, (str ++ [0]) !! k = Some b -> kernel_load e (a + Z.of_nat k) = Ret b) ->
  (length str < fuel)%nat -> Z.of_nat (length str) <= n -> kernel_dup fuel e a n = Ret str.
Proof.
  revert fuel a n. induction str as [| c str IH]; intros fuel a n Hc Hl Hf Hn; (destruct fuel as [| fuel]; [simpl in Hf; lia |]).
  - cbn [kernel_dup]. pose proof (Hl 0%nat 0 eq_refl) as H0'. rewrite Z.add_0_r in H0'. by rewrite H0'.
  - cbn [kernel_dup]. pose proof (Hl 0%nat c eq_refl) as Hc0. rewrite Z.add_0_r in Hc0. rewrite Hc0, bind_Ret.
    apply Forall_cons in Hc as [Hne Hc]. destruct (Z.eqb_spec c 0); [done |]. simpl in Hf, Hn.
    rewrite IH; [| done | | lia | lia].
    + rewrite bind_Ret. destruct (Z.leb_spec n 0); [lia | done].
    + intros k b Hk. replace (a + 1 + Z.of_nat k) with (a + Z.of_nat (S k)) by lia. by apply Hl.
Qed.

(** Where a string of execve may be: VFS_PATH_MAX bytes of the task's memory
    from its start on. *)
Definition string_there e (p : Z) (str : list Z) : Prop :=
  user_string e p str /\ Z.of_nat (length str) < VFS_PATH_MAX /\ forall i, 0 <= i < VFS_PATH_MAX -> is_Some (user_byte e (p + i)).

Lemma copy_step memory t array i acc n l p str :
  kernel_array (sy_env t) array l -> l !! i = Some p -> string_there (sy_env t) p str -> (Z.to_nat VFS_PATH_MAX <= memory)%nat ->
  exists e', copy_loop (S n) memory t array (Z.of_nat i) VFS_PATH_MAX acc =
      copy_loop n memory (sy_set_env t e') array (Z.of_nat (S i)) VFS_PATH_MAX (acc ++ [str]) /\
    kernel_array e' array l /\ user_byte e' = user_byte (sy_env t).
Proof.
  intros Ha Hi ((Hc & Hu) & Hlen & Hthere) Hmem. cbn [copy_loop]. rewrite (kernel_word_spec _ _ _ _ _ Ha Hi), bind_Ret.
  destruct (law_map_there (sy_env t) p VFS_PATH_MAX 0) as (a & self & e1 & E1 & Hne); [done | done |].
  unfold map_string. rewrite E1, bind_Ret. assert (nz a = true) as -> by (unfold nz; by destruct (Z.eqb_spec a 0)).
  rewrite bind_Ret. change (VFS_PATH_MAX =? u32 (-1)) with false.
  change (sy_env (sy_set_env t e1)) with e1. rewrite (kernel_dup_spec e1 memory a VFS_PATH_MAX str); [| done | | lia | lia].
  2: { intros k b Hk. apply (law_map_shows (sy_env t) p VFS_PATH_MAX 0 a self); [done | done | | by apply Hu].
       apply lookup_lt_Some in Hk. rewrite length_app in Hk. simpl in Hk. lia. }
  rewrite bind_Ret. destruct (law_map_undone _ _ _ _ _ _ _ E1 Hne) as (e2 & -> & Hub & Hkl). rewrite bind_Ret.
  destruct (Z.eqb_spec (Z.of_nat (length str)) VFS_PATH_MAX); [lia |].
  exists e2. split; [by replace (Z.of_nat i + 1) with (Z.of_nat (S i)) by lia |]. split; [| done].
  intros j x Hj. destruct (Ha j x Hj) as [Hx Hb]. split; [done |]. intros k b Hk. by apply Hkl, Hb.
Qed.

Lemma copy_loop_spec memory array l ps strs t i acc :
  kernel_array (sy_env t) array l -> (forall k p, ps !! k = Some p -> l !! (i + k)%nat = Some p) ->
  Forall2 (string_there (sy_env t)) ps strs -> (Z.to_nat VFS_PATH_MAX <= memory)%nat ->
  exists e', copy_loop (length ps) memory t array (Z.of_nat i) VFS_PATH_MAX acc = Ret (Some (acc ++ strs), sy_set_env t e') /\
    user_byte e' = user_byte (sy_env t).
Proof.
  intros Ha Hl Hs Hm. revert t i acc Ha Hl Hs. revert strs. induction ps as [| p ps IH]; intros strs t i acc Ha Hl Hs.
  - apply Forall2_nil_inv_l in Hs as ->. exists (sy_env t). split; [| done]. simpl. rewrite app_nil_r. by destruct t.
  - apply Forall2_cons_inv_l in Hs as (str & strs' & Hp & Hs & ->). simpl length.
    pose proof (Hl 0%nat p eq_refl) as Hi. rewrite Nat.add_0_r in Hi.
    destruct (copy_step memory t array i acc (length ps) l p str) as (e1 & -> & Ha1 & Hu1); [done .. |].
    destruct (IH strs' (sy_set_env t e1) (S i) (acc ++ [str])) as (e2 & -> & Hu2); [done | | |].
    + intros k q Hk. replace (S i + k)%nat with (i + S k)%nat by lia. by apply Hl.
    + eapply Forall2_impl; [exact Hs |]. intros q y ((Hc & Hb) & Hlen & Hin). unfold string_there, user_string.
      cbn [sy_env sy_set_env]. by rewrite Hu1.
    + exists e2. rewrite <- app_assoc. split; [done |]. by rewrite Hu2.
Qed.

(** task_copy_strings returns exactly the strings a NULL-terminated array of
    fewer than 200 pointers points to, in their order, when each is shorter than
    VFS_PATH_MAX and has that much memory of the task from its start on; the
    task's memory is as before. *)
Theorem copy_strings_correct memory t array ps strs :
  kernel_array (sy_env t) array (ps ++ [0]) -> Forall (fun p => p <> 0) ps -> (length ps < 200)%nat ->
  Forall2 (string_there (sy_env t)) ps strs -> (Z.to_nat VFS_PATH_MAX <= memory)%nat ->
  exists e', task_copy_strings memory t array = Ret (Some strs, sy_set_env t e') /\ user_byte e' = user_byte (sy_env t).
Proof.
  intros Ha Hps Hlen Hs Hm. unfold task_copy_strings.
  rewrite (count_strings_spec _ _ ps 200 0) by (done || lia). rewrite bind_Ret. destruct (Z.leb_spec 200 (Z.of_nat (length ps))); [lia |].
  rewrite Nat2Z.id. destruct (copy_loop_spec memory array (ps ++ [0]) ps strs t 0 []) as (e' & Hc & Hu); [done | | done | done |].
  - intros k p Hk. by rewrite lookup_app_l by (by eapply lookup_lt_Some).
  - change (Z.of_nat 0) with 0 in Hc. rewrite Hc. by exists e'.
Qed.

End Strings.
