(* ===== verification/TaskMemExample.v ===== *)
(** The memory of tasks on concrete machines: inputs for the theorems of
    TaskMemSpec.v, and where the code falls short. *)
From stdpp Require Import base numbers list gmap.
From Stdlib Require Import ZArith Lia Bool.
From S2P Require Import Prelude Bitmap PageAlloc DList Bytes Vfs Task Vm VmSpec Syscall SyscallExample TaskMem TaskMemSpec.

Open Scope Z_scope.

(** * Stack and heap on the machine of VmSpec.v *)

(** A task with a stack of two pages and a heap that ends at 0x5000. *)
Definition ex_task (w : vmworld) : task_mem := TaskMem EX_TASK 0x2000 0x5000 0 w.

(** The same, with a bitmap that reaches to the stack, whose two pages are
    taken. *)
Definition tall_bitmap : bitmap := Bitmap (7 :: replicate 24574 0 ++ [0xc0000000; 0]) 0xc0000 0.
Definition tall_world : vmworld := store_ctx ex_small EX_TASK (VmCtx 0 tall_bitmap 0x200 0 0).

Definition sizes (r : outcome (Z * task_mem)) : outcome (Z * Z * Z * Z) :=
  '(x, s) ← r; Ret (x, tm_stack_size s, tm_sbrk s, tm_errno s).

(** Faults just below the stack, far below it, and in it. *)
Lemma stack_faults :
  sizes (task_page_fault_cb (ex_task tall_world) 0xbfffdabc) = Ret (0, 0x4000, 0x5000, 0) /\
  sizes (task_page_fault_cb (ex_task tall_world) 0xb0000000) = Ret (-1, 0x2000, 0x5000, ENOMEM) /\
  sizes (task_page_fault_cb (ex_task tall_world) 0xbffff000) = Ret (-1, 0x2000, 0x5000, 0).
Proof. vm_compute. done. Qed.

Lemma sizes_inv r x a b c : sizes r = Ret (x, a, b, c) -> exists s, r = Ret (x, s) /\ tm_stack_size s = a.
Proof. unfold sizes. intros ([y s] & -> & H)%bind_Ret_inv. injection H as <- <- _ _. by exists s. Qed.

(** A fault just below the stack makes it grow so that the address is in it; after
    that, a fault at an address like that of a null pointer is refused. *)
Lemma stack_growth_bounded_witness :
  exists s1, task_page_fault_cb (ex_task tall_world) 0xbfffdabc = Ret (0, s1) /\
    stack_lower s1 + PAGE_SIZE <= 0xbfffdabc < stack_lower s1 + 2 * PAGE_SIZE /\
    exists s2, task_page_fault_cb s1 0x1234 = Ret (-1, s2) /\ tm_world s2 = tm_world s1.
Proof.
  assert (stack_ok (ex_task tall_world)) as Hok by (split; [unfold PAGE_SIZE; cbn [ex_task tm_stack_size]; lia | reflexivity]).
  destruct (sizes_inv _ _ _ _ _ (proj1 stack_faults)) as (s1 & E & _). exists s1. split; [exact E |].
  destruct (stack_growth_bounded (ex_task tall_world) (ex_task tall_world) 0xbfffdabc Hok (faults_none _) ltac:(lia)) as [H _].
  destruct (H 0 s1 E) as [_ [[H0 _] | (_ & _ & Hin)]]; [discriminate H0 |]. split; [exact Hin |].
  destruct (stack_growth_bounded (ex_task tall_world) s1 0x1234 Hok
    (faults_next _ 0xbfffdabc 0 s1 s1 ltac:(lia) E (faults_none s1)) ltac:(lia)) as [_ H'].
  apply H'. right. reflexivity.
Defined.

Lemma sbrk_extends_heap_witness :
  exists s' c', task_sbrk (ex_task ex_world) 0x1001 = Ret (0x5000, s') /\ tm_sbrk s' = 0x7000 /\
    ctx_inv (tm_world s') EX_TASK c'
      [(0x300, Range EX_TASK 0x5000 0x2000 (CLEANUP_FLAGS SBRK_FLAGS) [] 0x3000); (0x200, ex_range EX_TASK 0x8000)].
Proof.
  destruct ex_fields as (Ec & Er & Ep & Es & Ek).
  destruct (sbrk_extends_heap (ex_task ex_world) (ex_ctx 0x200 0) [(0x200, ex_range EX_TASK 0x8000)] 0x1001
    0x3000 (PageCtx 0 (Bitmap [0x1f; 0; 0] 64 0)) 0x300 [0x400]) as (s' & c' & E & Hb & Hi & _).
  - apply ex_task_inv.
  - intros H. by destruct H.
  - unfold PAGE_SIZE. lia.
  - split; [lia |]. split; [vm_compute; discriminate |]. cbn [ex_task tm_world]. rewrite Ep. vm_compute. reflexivity.
  - cbn [ex_task tm_world]. rewrite Ek. reflexivity.
  - cbn [ex_task tm_world]. rewrite Es. reflexivity.
  - lia.
  - cbn [ex_task tm_world]. rewrite Er. reflexivity.
  - cbn. lia.
  - reflexivity.
  - vm_compute. discriminate.
  - intros k Hk. apply ex_bits. change (tm_sbrk (ex_task ex_world) / PAGE_SIZE) with 5 in Hk. change (pages 0x1001) with 2 in Hk. lia.
  - exists s', c'. split; [exact E |]. split; [exact Hb |]. rewrite Hb in Hi. exact Hi.
Defined.

Lemma mmap_refuses_witness :
  exists e, task_mmap (ex_task ex_world) (MmapCtx 0 4096 PROT_READ MAP_SHARED) = Ret (0, tm_set_errno (ex_task ex_world) e) /\ e = ENOSYS.
Proof.
  destruct (mmap_refuses (ex_task ex_world) (MmapCtx 0 4096 PROT_READ MAP_SHARED)) as (e & E & _ & He & _).
  - cbn. lia.
  - intros [_ H _ _ _ _]. vm_compute in H. discriminate.
  - exists e. split; [exact E |]. apply He. split; [cbn; lia | reflexivity].
Defined.

(** The end of the heap moves even when there is no memory behind it. *)
Lemma sbrk_failure_moves_break :
  sizes (task_sbrk (TaskMem EX_TASK 0x2000 0x1000 0 ex_small) 0x1000) = Ret (u32 (-1), 0x2000, 0x2000, 0).
Proof. vm_compute. reflexivity. Qed.

(** A length that does not fit in pages any more: mmap succeeds and maps
    nothing. *)
Lemma mmap_length_wraps :
  exists s', task_mmap (ex_task ex_small) (MmapCtx 0x5000 (2 ^ 32 - 1) PROT_READ (Z.lor MAP_ANONYMOUS MAP_FIXED)) = Ret (0x5000, s') /\
    (n ← load_node (w_ranges (tm_world s')) 0x300; Ret (vr_size (nd_data n))) = Ret 0.
Proof. eexists. split; [vm_compute; reflexivity |]. vm_compute. reflexivity. Qed.

(** * Strings of execve *)

(** A kernel that sees the task's memory 2 GiB higher, beside its own. *)
Definition flat : Type := gmap Z Z * gmap Z Z.
Definition HIGH : Z := 2 ^ 31.

Definition all_there (m : gmap Z Z) (p n : Z) : bool := forallb (fun i => bool_decide (is_Some (m !! (p + i)))) (seqZ 0 n).

#[global] Instance flat_env : SyscallEnv flat := {
  user_map e p n mf := Ret (if (0 <=? p) && all_there e.1 p n then (HIGH + p, 1, e) else (0, 0, e));
  user_free e self := Ret e;
  kernel_load e a := match (if HIGH <=? a then e.1 !! (a - HIGH) else e.2 !! a) with Some b => Ret b | None => Fault end;
  signal_segv s := Ret s;
  call_handler cb args s := Ret (0, s);
  strace_file s := Ret None;
  strace_write s fd x := Ret s;
}.

#[global] Program Instance flat_memory : UserMemory flat := { user_byte e p := if 0 <=? p then e.1 !! p else None }.
Next Obligation.
  intros e p n mf Hn Hall. simpl. assert (0 <= p) as Hp.
  { pose proof (Hall 0 ltac:(lia)) as [b Hb]. rewrite Z.add_0_r in Hb. by destruct (Z.leb_spec 0 p). }
  destruct (Z.leb_spec 0 p); [| lia]. assert (all_there e.1 p n = true) as ->.
  { apply forallb_forall. intros i Hi. apply list_elem_of_In, elem_of_seqZ in Hi. apply bool_decide_eq_true_2.
    pose proof (Hall i ltac:(lia)) as Hb. simpl in Hb. destruct (Z.leb_spec 0 (p + i)); [exact Hb | lia]. }
  exists (HIGH + p), 1, e. split; [done |]. unfold HIGH. lia.
Qed.
Next Obligation.
  intros e p n mf a self e' i b E Ha Hi Hb. simpl in *. destruct (Z.leb_spec 0 p); [| by simplify_eq]. simpl in E.
  destruct (all_there e.1 p n); [| by simplify_eq]. injection E as <- <- <-.
  destruct (Z.leb_spec HIGH (HIGH + p + i)); [| lia]. replace (HIGH + p + i - HIGH) with (p + i) by lia.
  destruct (Z.leb_spec 0 (p + i)); [| lia]. by rewrite Hb.
Qed.
Next Obligation.
  intros e p n mf a self e' E Ha. simpl in *. exists e. destruct ((0 <=? p) && all_there e.1 p n); by simplify_eq.
Qed.

Definition put (l : list Z) (a : Z) (m : gmap Z Z) : gmap Z Z := list_to_map (zip (seqZ a (Z.of_nat (length l))) l) ∪ m.

(** A task with two strings, in memory that is long enough. *)
Definition two_strings : flat :=
  (put [108; 115; 0; 45; 108; 0] 0x1000 (put (replicate 2048 0) 0x1000 ∅), put (le_bytes 4 0x1000 ++ le_bytes 4 0x1003 ++ le_bytes 4 0) 0x100 ∅).

Definition in_call {E} (e : E) : sys_state E := Sys SYSCALL 0 false (ScRegs 32 0 0 0) e.

Lemma string_there_dec (e : flat) p str :
  forallb (fun c => nz c) str && forallb (fun '(i, b) => bool_decide (user_byte e (p + Z.of_nat i) = Some b)) (imap (fun i b => (i, b)) (str ++ [0])) &&
    (Z.of_nat (length str) <? VFS_PATH_MAX) && forallb (fun i => bool_decide (is_Some (user_byte e (p + i)))) (seqZ 0 VFS_PATH_MAX) = true ->
  string_there e p str.
Proof.
  rewrite !andb_true_iff. intros [[[H1 H2] H3] H4]. rewrite forallb_forall in H1, H2, H4. split; [| split].
  - split.
    + apply Forall_forall. intros c Hc. apply list_elem_of_In in Hc. by apply nz_true, H1.
    + intros i b Hi. assert (In (i, b) (imap (fun i b => (i, b)) (str ++ [0]))) as Hin.
      { apply list_elem_of_In, list_elem_of_lookup_2 with i. by rewrite list_lookup_imap, Hi. }
      apply H2 in Hin. by apply bool_decide_eq_true_1 in Hin.
  - by apply Z.ltb_lt.
  - intros i Hi. apply (bool_decide_eq_true_1 (is_Some (user_byte e (p + i)))), H4, list_elem_of_In, elem_of_seqZ. lia.
Qed.

Lemma copy_strings_correct_witness :
  exists e', task_copy_strings 1024 (in_call two_strings) 0x100 = Ret (Some [[108; 115]; [45; 108]], sy_set_env (in_call two_strings) e') /\
    user_byte e' = user_byte two_strings.
Proof.
  apply (copy_strings_correct 1024 (in_call two_strings) 0x100 [0x1000; 0x1003]).
  - intros i x Hi. destruct i as [| [| [| i]]]; simpl in Hi; simplify_eq; (split; [lia |]); intros k b Hk;
      (destruct k as [| [| [| [| k]]]]; simpl in Hk; simplify_eq; vm_compute; reflexivity).
  - repeat constructor; lia.
  - simpl. lia.
  - constructor; [apply string_there_dec; vm_compute; reflexivity |].
    constructor; [apply string_there_dec; vm_compute; reflexivity | constructor].
  - vm_compute. lia.
Defined.

(** A string near the end of the task's memory: the limit that is found for it
    stays for the strings behind it, which are refused although they are short
    enough. *)
Definition ends (a : Z) (str : list Z) : flat :=
  (put (str ++ [0]) 0x1000 (put (replicate 4096 0) 0x1000 ∅),
   put (le_bytes 4 a ++ le_bytes 4 0x1000 ++ le_bytes 4 0) 0x100 ∅).

Lemma copy_limit_sticks :
  (r ← task_copy_strings 4096 (in_call (ends 0x1800 (replicate 8 45))) 0x100; Ret r.1) = Ret (Some [[]; replicate 8 45]) /\
  (r ← task_copy_strings 4096 (in_call (ends 0x1ff8 (replicate 8 45))) 0x100; Ret r.1) = Ret None.
Proof. vm_compute. done. Qed.

(** The strings are mapped without VM_MAP_USER_ONLY: what the task's tables hold
    for the kernel only is copied as well.  Here the range of the task has no
    VM_USER. *)
Definition kernel_only : vmworld :=
  set_ranges ex_world (<[0x200 := Node 0 0 (Range EX_TASK 0x1000 0x2000 0 [] 0x8000)]> (w_ranges ex_world)).

Definition secret : machine := (kernel_only, put [83; 0] 0x8000 (∅)).

Lemma kernel_only_string :
  (let '(m, _, e) := match map_string secret 0x1000 VFS_PATH_MAX with Ret r => r | _ => (None, 0, secret) end in
   match m with Some (a, _) => kernel_dup 100 e a VFS_PATH_MAX | None => Fault end) = Ret [83].
Proof. vm_compute. reflexivity. Qed.

(** A string without an end in the last page of the task: the copy reads on
    behind the mapping. *)
Lemma copy_leaves_mapping :
  (let '(m, n, e) := match map_string (ex_world, no_end : gmap Z Z) 0x2ff0 VFS_PATH_MAX with Ret r => r | _ => (None, 0, secret) end in
   match m with Some (a, _) => kernel_dup 100 e a n | None => Ret [] end) = Fault.
Proof. vm_compute. reflexivity. Qed.
