(* ===== verification/Execdata.v ===== *)
(** What the kernel hands to a new program: src/src/tasks/execdata.c, and the
    functions of the C library that read it (src/land/newlib/xelix/crt0.c and
    syscalls.c).

    The data is four pages of bytes, mapped to the same place in every task.
    The theorem is the round trip: the program finds its arguments, environment
    and numbers. *)
From stdpp Require Import base numbers list gmap.
From Stdlib Require Import ZArith Lia Bool.
From S2P Require Import Prelude Str Bytes Vfs Vm DList.

Open Scope Z_scope.

(** CONFIG_EXECDATA_LOCATION, with its default. *)
Definition EXECDATA_LOCATION : Z := 0x5000.
Definition EXECDATA_SIZE : Z := 4 * PAGE_SIZE.

(** [sizeof(struct execdata)]; its fields are at 0 (pid), 4 (ppid), 8 (argc), 12
    (envc), 16 (argv), 20 (env), 24 (old_binary_path), 280 to 286 (uid, gid, euid,
    egid) and 288 (binary_path). *)
Definition SIZEOF_EXECDATA : Z := 288 + VFS_PATH_MAX.

(** What is used of the task: the strings are the buffers they are in, the path
    is the array in the task; no parent is a parent of 0. *)
Record exec_task : Type := ExecTask {
  et_pid : Z;
  et_ppid : Z;
  et_uid : Z;
  et_gid : Z;
  et_euid : Z;
  et_egid : Z;
  et_argv : list (list Z);
  et_environ : list (list Z);
  et_binary_path : list Z;
}.

Implicit Types t : exec_task.

(** The loops over argv and environ: [table] is the offset of the array of
    pointers; the new offset. *)
Fixpoint write_strings (mem : list Z) (table offset i : Z) (l : list (list Z)) : outcome (list Z * Z) :=
  match l with
  | [] => Ret (mem, offset)
  | s :: l =>
    mem ← store_bytes mem (table + 4 * i) (le_bytes 4 (u32 (EXECDATA_LOCATION + offset)));
    '(_, mem) ← strlcpy mem offset s 0 200;
    n ← strlen s 0;
    write_strings mem table (u32 (offset + n + 1)) (i + 1) l
  end.

(** The fields that are written last. *)
Definition number_fields t : list (Z * list Z) :=
  [(0, le_bytes 4 (et_pid t)); (280, le_bytes 2 (et_uid t)); (282, le_bytes 2 (et_gid t));
   (284, le_bytes 2 (et_euid t)); (286, le_bytes 2 (et_egid t)); (4, le_bytes 4 (et_ppid t));
   (8, le_bytes 4 (Z.of_nat (length (et_argv t)))); (12, le_bytes 4 (Z.of_nat (length (et_environ t))));
   (288, bytes_at (et_binary_path t) 0 VFS_PATH_MAX); (24, bytes_at (et_binary_path t) 0 256)].

(** The part of [task_setup_execdata] that fills the pages: first the arrays and
    their strings. *)
Definition write_tables t (mem : list Z) : outcome (list Z) :=
  let offset := SIZEOF_EXECDATA in
  let argv := offset in
  mem ← store_bytes mem 16 (le_bytes 4 (u32 (EXECDATA_LOCATION + offset)));
  let offset := u32 (offset + 4 * (Z.of_nat (length (et_argv t)) + 1)) in
  '(mem, offset) ← write_strings mem argv offset 0 (et_argv t);
  let environ := offset in
  mem ← store_bytes mem 20 (le_bytes 4 (u32 (EXECDATA_LOCATION + offset)));
  let offset := u32 (offset + 4 * (Z.of_nat (length (et_environ t)) + 1)) in
  '(mem, _) ← write_strings mem environ offset 0 (et_environ t);
  Ret mem.

Definition write_execdata t (mem : list Z) : outcome (list Z) :=
  mem ← write_tables t mem;
  store_fields mem (number_fields t).

(** The pages are allocated in the kernel, mapped into the task, filled, and
    taken away from the kernel again; what the calls return is not checked. *)
Definition task_setup_execdata (w : vmworld) (ctx : Z) t : outcome (list Z * vmworld) :=
  '(addr, r, w) ← vm_alloc w VM_KERNEL 4 0 (Z.lor VM_RW VM_ZERO);
  n ← load_node (w_ranges w) r;
  '(_, _, w) ← vm_alloc_at 3 w ctx 4 EXECDATA_LOCATION (vr_phys (nd_data n))
    (Z.lor VM_USER (Z.lor VM_RW (Z.lor VM_FREE VM_FIXED)));
  mem ← write_execdata t (replicate (Z.to_nat EXECDATA_SIZE) 0);
  '(_, w) ← vm_free w r;
  Ret (mem, w).

(** * The C library *)

(** [_xelix_execdata] is the pages; an address in them. *)
Definition in_execdata (a : Z) : Z := a - EXECDATA_LOCATION.

(** [_start]: what main is called with, and environ. *)
Definition _start (mem : list Z) : outcome (Z * Z * Z) :=
  environ ← load_le 4 mem 20;
  argc ← load_le 4 mem 8;
  argv ← load_le 4 mem 16;
  Ret (argc, argv, environ).

Definition _getpid (mem : list Z) : outcome Z := load_le 4 mem 0.
Definition getppid (mem : list Z) : outcome Z := load_le 4 mem 4.
Definition getuid (mem : list Z) : outcome Z := load_le 2 mem 280.
Definition geteuid (mem : list Z) : outcome Z := load_le 2 mem 284.
Definition getgid (mem : list Z) : outcome Z := load_le 2 mem 282.
Definition getegid (mem : list Z) : outcome Z := load_le 2 mem 286.

(** setuid and setgid, where [r] is what the system call returned. *)
Definition setuid (mem : list Z) (r uid : Z) : outcome (Z * list Z) :=
  if 0 <=? r then mem ← store_bytes mem 280 (le_bytes 2 (u16 uid)); Ret (r, mem) else Ret (r, mem).
Definition setgid (mem : list Z) (r gid : Z) : outcome (Z * list Z) :=
  if 0 <=? r then mem ← store_bytes mem 282 (le_bytes 2 (u16 gid)); Ret (r, mem) else Ret (r, mem).

(** A program's [argv[i]] or [environ[i]]. *)
Definition user_entry (mem : list Z) (array i : Z) : outcome Z := load_le 4 mem (in_execdata array + 4 * i).

(** * Strings *)

(** The bytes strings take. *)
Fixpoint total (l : list (list Z)) : Z :=
  match l with [] => 0 | s :: l => Z.of_nat (length s) + 1 + total l end.

Lemma total_nonneg l : 0 <= total l.
Proof. induction l as [| s l IH]; simpl; lia. Qed.

(** [b] is a buffer with the string [s], which is short and has no byte 255 (for
    [strlen] that is an end, too). *)
Record string_in (b s : list Z) : Prop := {
  si_cstr : cstr b 0 s;
  si_len : Z.of_nat (length s) < 200;
  si_255 : 255 ∉ s;
}.

(** The array at [array] has the strings [l] and NULL behind them. *)
Definition strings_at (mem : list Z) (array : Z) (l : list (list Z)) : Prop :=
  forall i s, l !! i = Some s -> exists p, user_entry mem array (Z.of_nat i) = Ret p /\ cstr mem (in_execdata p) s.

(** One string and the pointer to it. *)
Lemma write_string_spec mem at_ offset b s :
  string_in b s -> 0 <= at_ -> at_ + 4 <= offset -> offset + Z.of_nat (length s) + 1 <= Z.of_nat (length mem) ->
  Z.of_nat (length mem) <= EXECDATA_SIZE ->
  exists m1 m2, store_bytes mem at_ (le_bytes 4 (u32 (EXECDATA_LOCATION + offset))) = Ret m1 /\
    strlcpy m1 offset b 0 200 = Ret (Z.of_nat (length s), m2) /\ length m2 = length mem /\
    load_le 4 m2 at_ = Ret (EXECDATA_LOCATION + offset) /\ cstr m2 offset s /\
    forall k, Z.of_nat k < at_ \/ at_ + 4 <= Z.of_nat k < offset \/ offset + Z.of_nat (length s) + 1 <= Z.of_nat k -> m2 !! k = mem !! k.
Proof.
  intros [Hc Hl _] Ha Ho Hfit Hmax. unfold EXECDATA_SIZE, PAGE_SIZE in Hmax.
  assert (0 <= EXECDATA_LOCATION + offset < 2 ^ 32) as Hr by (unfold EXECDATA_LOCATION; lia). rewrite (u32_small _ Hr).
  destruct (store_bytes_spec mem at_ (le_bytes 4 (EXECDATA_LOCATION + offset))) as (m1 & E1 & Hl1 & Hb1 & Hs1);
    [done | rewrite length_le_bytes; lia |]. rewrite length_le_bytes in Hb1, Hs1.
  destruct (strlcpy_copies m1 offset b 0 200 s Hc) as (m2 & E2 & Hl2 & Hc2 & Hs2); [lia | lia | lia |].
  rewrite take_ge in Hc2, Hs2 by lia. exists m1, m2. split; [done |]. split; [done |]. split; [congruence |]. split.
  { rewrite (same_on_load_le 4 m1 m2) by (done || (intros k Hk; apply Hs2; lia)). apply load_le_bytes_at; [done | lia | lia | done]. }
  split; [done |]. intros k Hk. rewrite Hs2 by lia. apply Hs1. lia.
Qed.

Lemma write_strings_spec mem table offset i bs l :
  Forall2 string_in bs l -> 0 <= table -> 0 <= i -> table + 4 * (i + Z.of_nat (length l)) <= offset ->
  offset + total l <= Z.of_nat (length mem) -> Z.of_nat (length mem) <= EXECDATA_SIZE ->
  exists m', write_strings mem table offset i bs = Ret (m', offset + total l) /\ length m' = length mem /\
    (forall j s, l !! j = Some s -> exists p, load_le 4 m' (table + 4 * (i + Z.of_nat j)) = Ret p /\ cstr m' (in_execdata p) s /\
       offset <= in_execdata p /\ in_execdata p + Z.of_nat (length s) + 1 <= offset + total l) /\
    forall k, Z.of_nat k < table + 4 * i \/ table + 4 * (i + Z.of_nat (length l)) <= Z.of_nat k < offset \/
      offset + total l <= Z.of_nat k -> m' !! k = mem !! k.
Proof.
  intros Hf. revert mem offset i. induction Hf as [| b s bs l Hs Hf IH]; intros mem offset i Ht Hi Ho Hfit Hmax.
  { exists mem. simpl in *. rewrite Z.add_0_r. split; [done |]. split; [done |]. split; [intros j s Hj; by rewrite lookup_nil in Hj | done]. }
  simpl in Ho, Hfit. pose proof (total_nonneg l) as Hpos. cbn [write_strings].
  destruct (write_string_spec mem (table + 4 * i) offset b s Hs) as (m1 & m2 & -> & E2 & Hl2 & Hld & Hc2 & Hs2); [lia .. |].
  rewrite bind_Ret, E2, bind_Ret, (strlen_spec b 0 s) by apply Hs. rewrite bind_Ret.
  assert (0 <= offset + Z.of_nat (length s) + 1 < 2 ^ 32) as Hr by (unfold EXECDATA_SIZE, PAGE_SIZE in Hmax; lia). rewrite (u32_small _ Hr).
  destruct (IH m2 (offset + Z.of_nat (length s) + 1) (i + 1)) as (m3 & -> & Hl3 & Hst & Hs3); [lia .. |].
  exists m3. split; [do 2 f_equal; simpl; lia |]. split; [congruence |]. split.
  - intros [| j] x Hx; simpl in Hx.
    + simplify_eq. exists (EXECDATA_LOCATION + offset). split.
      * replace (table + 4 * (i + Z.of_nat 0)) with (table + 4 * i) by lia.
        rewrite (same_on_load_le 4 m2 m3) by (done || lia || (intros k Hk; apply Hs3; lia)). done.
      * unfold in_execdata. replace (EXECDATA_LOCATION + offset - EXECDATA_LOCATION) with offset by lia.
        split; [| simpl; lia]. apply (same_on_cstr m2 m3); [done | | done]. intros k Hk. apply Hs3. lia.
    + replace (table + 4 * (i + Z.of_nat (S j))) with (table + 4 * (i + 1 + Z.of_nat j)) by lia.
      destruct (Hst j x Hx) as (p & Hp & Hc & H1 & H2). exists p. repeat (split; [done || lia |]). simpl. lia.
  - intros k Hk. simpl in Hk. rewrite Hs3 by lia. apply Hs2. lia.
Qed.

(** * The round trip *)

(** Where the pointers to the environment begin, and where all ends. *)
Definition env_offset (argv : list (list Z)) : Z := SIZEOF_EXECDATA + 4 * (Z.of_nat (length argv) + 1) + total argv.
Definition end_offset (argv env : list (list Z)) : Z := env_offset argv + 4 * (Z.of_nat (length env) + 1) + total env.

Record exec_ok t (argv env : list (list Z)) : Prop := {
  eo_argv : Forall2 string_in (et_argv t) argv;
  eo_env : Forall2 string_in (et_environ t) env;
  eo_path : length (et_binary_path t) = Z.to_nat VFS_PATH_MAX;
  eo_fits : end_offset argv env <= EXECDATA_SIZE;
  eo_pid : 0 <= et_pid t < 2 ^ 32;
  eo_ppid : 0 <= et_ppid t < 2 ^ 32;
  eo_uid : 0 <= et_uid t < 2 ^ 16;
  eo_gid : 0 <= et_gid t < 2 ^ 16;
  eo_euid : 0 <= et_euid t < 2 ^ 16;
  eo_egid : 0 <= et_egid t < 2 ^ 16;
}.

Lemma load_le_zeros n m p : 0 <= p -> (forall k, p <= Z.of_nat k < p + Z.of_nat n -> m !! k = Some 0) ->
  p + Z.of_nat n <= Z.of_nat (length m) -> load_le n m p = Ret 0.
Proof.
  intros Hp Hz Hl. apply load_le_bytes_at; [done | done | lia |]. apply list_eq. intros i. rewrite lookup_bytes_at, Nat2Z.id.
  assert (le_bytes n 0 = replicate n 0) as ->.
  { clear. induction n as [| n IH]; [done |]. cbn [le_bytes replicate]. change (0 / 2 ^ 8) with 0. by rewrite IH. }
  case_decide; [| by rewrite lookup_ge_None_2 by (rewrite length_replicate; lia)]. rewrite lookup_replicate_2 by done. apply Hz. lia.
Qed.

Lemma path_lengths t :
  length (et_binary_path t) = Z.to_nat VFS_PATH_MAX ->
  length (bytes_at (et_binary_path t) 0 VFS_PATH_MAX) = 1024%nat /\ length (bytes_at (et_binary_path t) 0 256) = 256%nat.
Proof. intros Hp. unfold VFS_PATH_MAX in *. split; by rewrite length_bytes_at by lia. Qed.

Lemma number_fields_ok t (mem : list Z) :
  length (et_binary_path t) = Z.to_nat VFS_PATH_MAX -> SIZEOF_EXECDATA <= Z.of_nat (length mem) ->
  Forall (fun f => 0 <= f.1 /\ f.1 + Z.of_nat (length f.2) <= Z.of_nat (length mem)) (number_fields t) /\ ForallOrdPairs apart (number_fields t).
Proof.
  intros Hp Hl. destruct (path_lengths t Hp) as [E1 E2]. change SIZEOF_EXECDATA with 1312 in Hl. unfold number_fields. split.
  - repeat (apply Forall_cons; split; [cbn [fst snd]; rewrite ?length_le_bytes, ?E1, ?E2; lia |]). apply Forall_nil_2.
  - repeat (apply FOP_cons; [repeat (apply Forall_cons; split; [unfold apart; cbn [fst snd]; rewrite ?length_le_bytes, ?E1, ?E2; lia |]); apply Forall_nil_2 |]).
    apply FOP_nil.
Qed.

Lemma fields_outside t k :
  length (et_binary_path t) = Z.to_nat VFS_PATH_MAX -> 16 <= k < 24 \/ SIZEOF_EXECDATA <= k ->
  Forall (fun f => k < f.1 \/ f.1 + Z.of_nat (length f.2) <= k) (number_fields t).
Proof.
  intros Hp Hk. destruct (path_lengths t Hp) as [E1 E2]. change SIZEOF_EXECDATA with 1312 in Hk. unfold number_fields.
  repeat (apply Forall_cons; split; [cbn [fst snd]; rewrite ?length_le_bytes, ?E1, ?E2; lia |]). apply Forall_nil_2.
Qed.

(** The array with the offset [table] has the strings [l], their bytes end at
    [hi], and NULL follows the pointers. *)
Record table_at (m : list Z) (table hi : Z) (l : list (list Z)) : Prop := {
  ta_strings : forall j s, l !! j = Some s -> exists p, load_le 4 m (table + 4 * Z.of_nat j) = Ret p /\ cstr m (in_execdata p) s /\
    table <= in_execdata p /\ in_execdata p + Z.of_nat (length s) + 1 <= hi;
  ta_end : load_le 4 m (table + 4 * Z.of_nat (length l)) = Ret 0;
}.

Lemma table_kept m m' table hi l :
  length m' = length m -> 0 <= table -> table + 4 * (Z.of_nat (length l) + 1) <= hi -> same_on m m' table hi ->
  table_at m table hi l -> table_at m' table hi l.
Proof.
  intros Hl Ht Hhi Hs [Hst He]. split.
  - intros j s Hj. destruct (Hst j s Hj) as (p & Hp & Hc & H1 & H2). apply lookup_lt_Some in Hj. exists p. split; [| split; [| done]].
    + rewrite (same_on_load_le 4 m m') by (done || lia || (intros k Hk; apply Hs; lia)). done.
    + apply (same_on_cstr m m'); [done | | done]. intros k Hk. apply Hs. lia.
  - rewrite (same_on_load_le 4 m m') by (done || lia || (intros k Hk; apply Hs; lia)). done.
Qed.

(** One array: its pointers from [table] on, then its strings. *)
Lemma write_table_spec mem table bs l :
  Forall2 string_in bs l -> 0 <= table -> table + 4 * (Z.of_nat (length l) + 1) + total l <= Z.of_nat (length mem) ->
  Z.of_nat (length mem) <= EXECDATA_SIZE -> (forall k, table <= Z.of_nat k < Z.of_nat (length mem) -> mem !! k = Some 0) ->
  exists m', write_strings mem table (table + 4 * (Z.of_nat (length l) + 1)) 0 bs = Ret (m', table + 4 * (Z.of_nat (length l) + 1) + total l) /\
    length m' = length mem /\ table_at m' table (table + 4 * (Z.of_nat (length l) + 1) + total l) l /\
    forall k, Z.of_nat k < table \/ table + 4 * (Z.of_nat (length l) + 1) + total l <= Z.of_nat k -> m' !! k = mem !! k.
Proof.
  intros Hf Ht Hfit Hmax Hz. pose proof (total_nonneg l).
  destruct (write_strings_spec mem table (table + 4 * (Z.of_nat (length l) + 1)) 0 bs l) as (m' & E & Hl & Hst & Hs); [done || lia .. |].
  exists m'. split; [done |]. split; [done |]. split; [split | intros k Hk; apply Hs; lia].
  - intros j s Hj. destruct (Hst j s Hj) as (p & Hp & Hc & H1 & H2). exists p. rewrite Z.add_0_l in Hp.
    repeat (split; [done || lia |]). done.
  - apply load_le_zeros; [lia | | lia]. intros k Hk. rewrite Hs by lia. apply Hz. lia.
Qed.

Lemma write_tables_spec t argv env :
  exec_ok t argv env ->
  exists m, write_tables t (replicate (Z.to_nat EXECDATA_SIZE) 0) = Ret m /\ length m = Z.to_nat EXECDATA_SIZE /\
    load_le 4 m 16 = Ret (EXECDATA_LOCATION + SIZEOF_EXECDATA) /\ load_le 4 m 20 = Ret (EXECDATA_LOCATION + env_offset argv) /\
    table_at m SIZEOF_EXECDATA (env_offset argv) argv /\ table_at m (env_offset argv) (end_offset argv env) env.
Proof.
  intros [Ha He _ Hfit _ _ _ _ _ _]. pose proof (total_nonneg argv) as Ta. pose proof (total_nonneg env) as Te.
  pose proof (Forall2_length _ _ _ Ha) as La. pose proof (Forall2_length _ _ _ He) as Le.
  assert (SIZEOF_EXECDATA = 1312 /\ EXECDATA_SIZE = 16384 /\ EXECDATA_LOCATION = 0x5000) as (Es & Ez & El) by done.
  unfold end_offset in *. set (zeros := replicate (Z.to_nat EXECDATA_SIZE) 0).
  assert (Z.of_nat (length zeros) = 16384) as Lz by (unfold zeros; rewrite length_replicate, Ez; done).
  assert (env_offset argv = 1312 + 4 * (Z.of_nat (length argv) + 1) + total argv) as Eo by (unfold env_offset; lia).
  unfold write_tables. rewrite La, Le, !u32_small by lia.
  destruct (store_bytes_spec zeros 16 (le_bytes 4 (EXECDATA_LOCATION + SIZEOF_EXECDATA))) as (m1 & -> & Hl1 & Hb1 & Hs1);
    [done | rewrite length_le_bytes; lia |]. rewrite bind_Ret. rewrite length_le_bytes in Hb1, Hs1.
  destruct (write_table_spec m1 SIZEOF_EXECDATA (et_argv t) argv Ha) as (m2 & -> & Hl2 & Ht2 & Hs2); [lia .. | |].
  { intros k Hk. rewrite Hs1 by lia. apply lookup_replicate_2. lia. }
  rewrite bind_Ret. fold (env_offset argv) in *. rewrite !u32_small by lia.
  destruct (store_bytes_spec m2 20 (le_bytes 4 (EXECDATA_LOCATION + env_offset argv))) as (m3 & -> & Hl3 & Hb3 & Hs3);
    [done | rewrite length_le_bytes; lia |]. rewrite bind_Ret. rewrite length_le_bytes in Hb3, Hs3.
  destruct (write_table_spec m3 (env_offset argv) (et_environ t) env He) as (m4 & -> & Hl4 & Ht4 & Hs4); [lia .. | |].
  { intros k Hk. rewrite Hs3, Hs2, Hs1 by lia. apply lookup_replicate_2. lia. }
  rewrite bind_Ret. exists m4. split; [done |]. split; [lia |].
  assert (same_on m2 m4 SIZEOF_EXECDATA (env_offset argv)) as H24 by (intros k Hk; rewrite Hs4, Hs3 by lia; done).
  split; [| split; [| split; [apply (table_kept m2 m4); done || lia | done]]].
  - rewrite (same_on_load_le 4 m1 m4) by (lia || (intros k Hk; rewrite Hs4, Hs3, Hs2 by lia; done)).
    apply load_le_bytes_at; [lia .. | done].
  - rewrite (same_on_load_le 4 m3 m4) by (lia || (intros k Hk; apply Hs4; lia)). apply load_le_bytes_at; [lia .. | done].
Qed.

(** C16: what the kernel writes for a new program is what the program reads: when
    arguments and environment fit into the four pages and no string is longer than
    199 bytes, the start code of the C library calls main with argc and an array of
    exactly the arguments, ended by NULL, sets environ likewise, and the functions
    of the library return the pids and the ids of the task; the path is there. *)
Theorem execdata_roundtrip t argv env :
  exec_ok t argv env ->
  exists mem pa pe, write_execdata t (replicate (Z.to_nat EXECDATA_SIZE) 0) = Ret mem /\
    _start mem = Ret (Z.of_nat (length argv), pa, pe) /\
    strings_at mem pa argv /\ user_entry mem pa (Z.of_nat (length argv)) = Ret 0 /\
    strings_at mem pe env /\ user_entry mem pe (Z.of_nat (length env)) = Ret 0 /\
    _getpid mem = Ret (et_pid t) /\ getppid mem = Ret (et_ppid t) /\ getuid mem = Ret (et_uid t) /\
    getgid mem = Ret (et_gid t) /\ geteuid mem = Ret (et_euid t) /\ getegid mem = Ret (et_egid t) /\
    bytes_at mem 288 VFS_PATH_MAX = et_binary_path t.
Proof.
  intros Hok. destruct (write_tables_spec t argv env Hok) as (m & E & Hl & Hpa & Hpe & Hta & Hte).
  destruct Hok as [Ha He Hp Hfit Hpid Hppid Huid Hgid Heuid Hegid]. unfold end_offset in *.
  pose proof (total_nonneg argv) as Ta. pose proof (total_nonneg env) as Te.
  pose proof (Forall2_length _ _ _ Ha) as La. pose proof (Forall2_length _ _ _ He) as Le.
  assert (SIZEOF_EXECDATA = 1312 /\ EXECDATA_SIZE = 16384) as (Es & Ez) by done.
  assert (env_offset argv = 1312 + 4 * (Z.of_nat (length argv) + 1) + total argv) as Eo by (unfold env_offset; lia).
  destruct (number_fields_ok t m Hp) as [Hin Hap]; [lia |].
  destruct (store_fields_spec m (number_fields t) Hin Hap) as (m' & E' & Hl' & Hb & Hs).
  assert (forall lo hi, 16 <= lo /\ hi <= 24 \/ 1312 <= lo -> same_on m m' lo hi) as Hsame.
  { intros lo hi Hlh k Hk. apply Hs, fields_outside; [done | lia]. }
  exists m', (EXECDATA_LOCATION + SIZEOF_EXECDATA), (EXECDATA_LOCATION + env_offset argv).
  unfold write_execdata. rewrite E, bind_Ret. split; [done |].
  unfold number_fields in Hb. rewrite !Forall_cons in Hb. destruct Hb as (B0 & B1 & B2 & B3 & B4 & B5 & B6 & B7 & B8 & _ & _).
  cbn [fst snd] in *. rewrite ?length_le_bytes in *.
  assert (table_at m' SIZEOF_EXECDATA (env_offset argv) argv) as [Hsa Hea] by (apply (table_kept m m'); try done; try lia; apply Hsame; lia).
  assert (table_at m' (env_offset argv) (end_offset argv env) env) as [Hse Hee]
    by (unfold end_offset; apply (table_kept m m'); try done; try lia; apply Hsame; lia).
  assert (forall x, in_execdata (EXECDATA_LOCATION + x) = x) as Hin' by (intros x; unfold in_execdata; lia).
  split.
  { unfold _start. rewrite (same_on_load_le 4 m m' 20), (same_on_load_le 4 m m' 16) by (done || lia || (apply Hsame; lia)). rewrite Hpe, bind_Ret.
    rewrite (load_le_bytes_at 4 m' 8 (Z.of_nat (length (et_argv t)))) by (done || lia). by rewrite bind_Ret, Hpa, bind_Ret, La. }
  unfold strings_at, user_entry. rewrite !Hin'.
  split; [intros i s Hi; destruct (Hsa i s Hi) as (p & ? & ? & _); by exists p |]. split; [done |].
  split; [intros i s Hi; destruct (Hse i s Hi) as (p & ? & ? & _); by exists p |]. split; [done |].
  repeat (split; [apply load_le_bytes_at; [lia | lia | assumption | assumption] |]).
  rewrite (proj1 (path_lengths t Hp)) in B8. change VFS_PATH_MAX with (Z.of_nat 1024). rewrite B8.
  unfold bytes_at. change (Z.to_nat 0) with 0%nat. rewrite drop_0, take_ge by lia. done.
Qed.

(** * Examples *)

Definition ex_path : list Z := 47 :: 108 :: 115 :: replicate 1021 0.
Definition ex_program (argv env : list (list Z)) : exec_task := ExecTask 7 1 100 101 0 101 (map (fun s => s ++ [0]) argv) (map (fun s => s ++ [0]) env) ex_path.

Lemma string_in_of s : Forall (fun c => 0 < c < 255) s -> Z.of_nat (length s) < 200 -> string_in (s ++ [0]) s.
Proof.
  intros Hs Hl. split; [| done |].
  - apply cstr_of. eapply Forall_impl; [exact Hs |]. simpl. lia.
  - intros Hin. rewrite Forall_forall in Hs. apply Hs in Hin. lia.
Qed.

(** ls -l with A=b in the environment. *)
Definition ls_l : list (list Z) := [[108; 115]; [45; 108]].
Definition a_is_b : list (list Z) := [[65; 61; 98]].

Lemma execdata_roundtrip_witness :
  exists mem pa pe, write_execdata (ex_program ls_l a_is_b) (replicate (Z.to_nat EXECDATA_SIZE) 0) = Ret mem /\
    _start mem = Ret (2, pa, pe) /\ strings_at mem pa ls_l /\ strings_at mem pe a_is_b /\ _getpid mem = Ret 7.
Proof.
  destruct (execdata_roundtrip (ex_program ls_l a_is_b) ls_l a_is_b) as (mem & pa & pe & E & Es & Ha & _ & He & _ & Hp & _).
  - split; try (cbn; lia).
    + repeat (constructor; [apply string_in_of; [repeat constructor; lia | simpl; lia] |]). constructor.
    + repeat (constructor; [apply string_in_of; [repeat constructor; lia | simpl; lia] |]). constructor.
    + reflexivity.
    + vm_compute. discriminate.
  - exists mem, pa, pe. repeat (split; [assumption |]). exact Hp.
Defined.

(** Nothing checks the size: with five thousand empty arguments the strings start
    behind the pages. *)
Lemma execdata_overflow :
  write_execdata (ex_program (replicate 5000 []) []) (replicate (Z.to_nat EXECDATA_SIZE) 0) = Fault.
Proof. vm_compute. reflexivity. Qed.

(** An argument of 250 bytes arrives with 199. *)
Lemma execdata_cuts :
  exists mem, write_execdata (ex_program [replicate 250 97] []) (replicate (Z.to_nat EXECDATA_SIZE) 0) = Ret mem /\
    strlen mem (SIZEOF_EXECDATA + 8) = Ret 199.
Proof. eexists. split; [vm_compute; reflexivity |]. vm_compute. reflexivity. Qed.

(** A byte 255 ends a string for [strlen], but not for [strlcpy]: the next
    argument is written over the rest. *)
Lemma execdata_overlaps :
  exists mem, write_execdata (ex_program [[97; 255; 98; 99]; [120]] []) (replicate (Z.to_nat EXECDATA_SIZE) 0) = Ret mem /\
    bytes_at mem (SIZEOF_EXECDATA + 12) 6 = [97; 255; 120; 0; 0; 0].
Proof. eexists. split; [vm_compute; reflexivity |]. vm_compute. reflexivity. Qed.

(** The system call sets both user ids; the library keeps the old effective
    one. *)
Lemma setuid_keeps_euid :
  exists mem mem', write_execdata (ex_program ls_l []) (replicate (Z.to_nat EXECDATA_SIZE) 0) = Ret mem /\
    setuid mem 0 1000 = Ret (0, mem') /\ getuid mem' = Ret 1000 /\ geteuid mem' = Ret 0.
Proof. do 2 eexists. split; [vm_compute; reflexivity |]. split; [vm_compute; reflexivity |]. split; vm_compute; reflexivity. Qed.
