(* ===== verification/Loader.v ===== *)
(** The dynamic loader: src/land/xelix-utils/src/xelix-loader.c.

    The loader runs in the new task (Execdata.v, Fork.v): it reads the executable
    and the libraries it needs, maps them into memory, puts the addresses of the
    symbols where the code expects them and calls the entry point.  Its state is
    the memory of the task, byte by byte, the [struct elf_object]s by address and
    the files it has open.  [Exit] is [exit(1)] after a message.  Code that is
    called (init functions, the entry point, fini functions) is recorded in
    [l_calls] and does nothing else.  What the loader uses of the C library and
    the kernel is the class [LoaderEnv]. *)
From stdpp Require Import base numbers list gmap.
From Stdlib Require Import ZArith Lia Bool.
From S2P Require Import Prelude Str Bytes DList Path.

Open Scope Z_scope.

(** * Constants of elf.h *)

Definition ET_EXEC : Z := 2.
Definition ET_DYN : Z := 3.
Definition EM_386 : Z := 3.
Definition PT_LOAD : Z := 1.
Definition PT_DYNAMIC : Z := 2.
Definition DT_NEEDED : Z := 1.
Definition DT_PLTRELSZ : Z := 2.
Definition DT_PLTGOT : Z := 3.
Definition DT_STRTAB : Z := 5.
Definition DT_SYMTAB : Z := 6.
Definition DT_SYMENT : Z := 11.
Definition DT_INIT : Z := 12.
Definition DT_FINI : Z := 13.
Definition DT_REL : Z := 17.
Definition DT_RELSZ : Z := 18.
Definition DT_RELENT : Z := 19.
Definition DT_JMPREL : Z := 23.
Definition DT_INIT_ARRAY : Z := 25.
Definition DT_FINI_ARRAY : Z := 26.
Definition DT_INIT_ARRAYSZ : Z := 27.
Definition DT_FINI_ARRAYSZ : Z := 28.
Definition STB_LOCAL : Z := 0.
Definition STB_WEAK : Z := 2.
Definition R_386_32 : Z := 1.
Definition R_386_PC32 : Z := 2.
Definition R_386_COPY : Z := 5.
Definition R_386_GLOB_DAT : Z := 6.
Definition R_386_JMP_SLOT : Z := 7.
Definition R_386_RELATIVE : Z := 8.

Definition elf_magic : list Z := [0x7f; 69; 76; 70; 1; 1; 1; 0; 0; 0; 0; 0; 0; 0; 0; 0].

Definition SIZEOF_EHDR : Z := 52.
Definition SIZEOF_DYN : Z := 8.
Definition SIZEOF_REL : Z := 8.

(** * Data *)

(** The fields of [Elf32_Ehdr] that are used. *)
Record ehdr : Type := Ehdr {
  e_ident : list Z;
  e_type : Z;
  e_machine : Z;
  e_version : Z;
  e_entry : Z;
  e_phoff : Z;
  e_phentsize : Z;
  e_phnum : Z;
}.

Definition no_header : ehdr := Ehdr [] 0 0 0 0 0 0 0.

Definition parse_ehdr (b : list Z) : ehdr :=
  Ehdr (take 16 b) (u16_at b 16) (u16_at b 18) (u32_at b 20) (u32_at b 24) (u32_at b 28) (u16_at b 42) (u16_at b 44).

(** [Elf32_Phdr] *)
Record phdr : Type := Phdr { p_type : Z; p_offset : Z; p_vaddr : Z; p_filesz : Z; p_memsz : Z }.

Definition parse_phdr (b : list Z) (o : Z) : phdr :=
  Phdr (u32_at b o) (u32_at b (o + 4)) (u32_at b (o + 8)) (u32_at b (o + 16)) (u32_at b (o + 20)).

(** [Elf32_Sym] *)
Record elf_sym : Type := Sym { st_name : Z; st_value : Z; st_size : Z; st_info : Z }.

Definition ELF32_ST_BIND (info : Z) : Z := Z.shiftr info 4.
Definition ELF32_R_SYM (info : Z) : Z := Z.shiftr info 8.
Definition ELF32_R_TYPE (info : Z) : Z := Z.land info 0xff.

(** [struct elf_object].  The fields that [load_dyn] fills from the dynamic
    section are in [o_info], by the tag of the entry they come from. *)
Record elf_object : Type := Obj {
  o_path : cstring;
  o_base_addr : Z;
  o_fd : Z;
  o_seek_offset : Z;
  o_header : ehdr;
  o_dyn : list (Z * Z);
  o_info : gmap Z Z;
  o_deps : list Z;
}.

Definition new_object : elf_object := Obj [] 0 0 0 no_header [] ∅ [].

Definition o_set_base (o : elf_object) (x : Z) : elf_object :=
  Obj (o_path o) x (o_fd o) (o_seek_offset o) (o_header o) (o_dyn o) (o_info o) (o_deps o).
Definition o_set_seek (o : elf_object) (x : Z) : elf_object :=
  Obj (o_path o) (o_base_addr o) (o_fd o) x (o_header o) (o_dyn o) (o_info o) (o_deps o).
Definition o_set_header (o : elf_object) (x : ehdr) : elf_object :=
  Obj (o_path o) (o_base_addr o) (o_fd o) (o_seek_offset o) x (o_dyn o) (o_info o) (o_deps o).
Definition o_set_dyn (o : elf_object) (x : list (Z * Z)) : elf_object :=
  Obj (o_path o) (o_base_addr o) (o_fd o) (o_seek_offset o) (o_header o) x (o_info o) (o_deps o).
Definition o_set_info (o : elf_object) (x : gmap Z Z) : elf_object :=
  Obj (o_path o) (o_base_addr o) (o_fd o) (o_seek_offset o) (o_header o) (o_dyn o) x (o_deps o).
Definition o_set_deps (o : elf_object) (x : list Z) : elf_object :=
  Obj (o_path o) (o_base_addr o) (o_fd o) (o_seek_offset o) (o_header o) (o_dyn o) (o_info o) x.

Definition info (o : elf_object) (tag : Z) : Z := default 0 (o_info o !! tag).

Definition o_symbols (o : elf_object) : Z := info o DT_SYMTAB.
Definition o_strtab (o : elf_object) : Z := info o DT_STRTAB.
Definition o_syment (o : elf_object) : Z := info o DT_SYMENT.
Definition is_dyn (o : elf_object) : bool := e_type (o_header o) =? ET_DYN.

(** The loader: the memory, the objects, [loaded_objs], the files that are open
    with their positions, and what has been called. *)
Record loader : Type := Ld {
  l_mem : gmap Z Z;
  l_objs : gmap Z elf_object;
  l_loaded : list Z;
  l_root : Z;
  l_fds : gmap Z (list Z * Z);
  l_calls : list Z;
}.

Definition l_set_mem (l : loader) (m : gmap Z Z) : loader := Ld m (l_objs l) (l_loaded l) (l_root l) (l_fds l) (l_calls l).
Definition l_set_obj (l : loader) (a : Z) (o : elf_object) : loader :=
  Ld (l_mem l) (<[a := o]> (l_objs l)) (l_loaded l) (l_root l) (l_fds l) (l_calls l).
Definition l_set_fds (l : loader) (f : gmap Z (list Z * Z)) : loader := Ld (l_mem l) (l_objs l) (l_loaded l) (l_root l) f (l_calls l).
Definition l_add_loaded (l : loader) (a : Z) : loader := Ld (l_mem l) (l_objs l) (a :: l_loaded l) (l_root l) (l_fds l) (l_calls l).
Definition l_set_root (l : loader) (a : Z) : loader := Ld (l_mem l) (l_objs l) (l_loaded l) a (l_fds l) (l_calls l).
Definition l_add_call (l : loader) (a : Z) : loader := Ld (l_mem l) (l_objs l) (l_loaded l) (l_root l) (l_fds l) (l_calls l ++ [a]).

(** * A monad with the state and [exit] *)

Definition ldm (A : Type) : Type := loader -> outcome (option A * loader).

#[global] Instance ldm_ret : MRet ldm := fun A x l => Ret (Some x, l).

#[global] Instance ldm_bind : MBind ldm := fun A B f m l =>
  '(r, l) ← m l; match r with Some x => f x l | None => Ret (None, l) end.

Definition Exit {A} : ldm A := fun l => Ret (None, l).
Definition lift {A} (m : outcome A) : ldm A := fun l => x ← m; Ret (Some x, l).
Definition get : ldm loader := fun l => Ret (Some l, l).
Definition put (l : loader) : ldm unit := fun _ => Ret (Some tt, l).
Definition LD_ASSERT (cond : bool) : ldm unit := if cond then mret tt else Exit.

(** * Memory *)

Definition mload (m : gmap Z Z) (a : Z) : outcome Z := match m !! a with Some b => Ret b | None => Fault end.

Fixpoint mload_le (n : nat) (m : gmap Z Z) (a : Z) : outcome Z :=
  match n with
  | O => Ret 0
  | S n => b ← mload m a; x ← mload_le n m (a + 1); Ret (b + 2 ^ 8 * x)
  end.

Fixpoint mstore (m : gmap Z Z) (a : Z) (l : list Z) : outcome (gmap Z Z) :=
  match l with
  | [] => Ret m
  | b :: l => _ ← mload m a; mstore (<[a := b]> m) (a + 1) l
  end.

Definition mload32 : gmap Z Z -> Z -> outcome Z := mload_le 4.
Definition mstore32 (m : gmap Z Z) (a x : Z) : outcome (gmap Z Z) := mstore m a (le_bytes 4 (u32 x)).

Fixpoint mbytes (n : nat) (m : gmap Z Z) (a : Z) : outcome (list Z) :=
  match n with
  | O => Ret []
  | S n => b ← mload m a; l ← mbytes n m (a + 1); Ret (b :: l)
  end.

(** The string at an address. *)
Fixpoint mstring (fuel : nat) (m : gmap Z Z) (a : Z) : outcome cstring :=
  match fuel with
  | O => Spin
  | S fuel => b ← mload m a; if b =? 0 then Ret [] else s ← mstring fuel m (a + 1); Ret (b :: s)
  end.

Definition string_at (m : gmap Z Z) (a : Z) : outcome cstring := mstring (S (size m)) m a.

(** [!strcmp(a, s)] *)
Fixpoint mstreq (m : gmap Z Z) (a : Z) (s : cstring) : outcome bool :=
  b ← mload m a;
  match s with
  | [] => Ret (b =? 0)
  | x :: s => if b =? x then mstreq m (a + 1) s else Ret false
  end.

Definition sym_at (m : gmap Z Z) (a : Z) : outcome elf_sym :=
  name ← mload32 m a;
  value ← mload32 m (a + 4);
  size ← mload32 m (a + 8);
  info ← mload m (a + 12);
  Ret (Sym name value size info).

(** * Symbols *)

(** [while(sym < obj->strtab)] *)
Fixpoint find_sym_loop (fuel : nat) (m : gmap Z Z) (o : elf_object) (name : cstring) (allow_local : bool) (sym : Z)
    : outcome (option elf_sym) :=
  match fuel with
  | O => Spin
  | S fuel =>
    if sym <? o_strtab o then
      s ← sym_at m sym;
      eq ← (if (allow_local || negb (ELF32_ST_BIND (st_info s) =? STB_LOCAL)) && nz (st_value s)
            then mstreq m (u32 (o_strtab o + st_name s)) name else Ret false);
      if (eq : bool) then Ret (Some s) else find_sym_loop fuel m o name allow_local (u32 (sym + o_syment o))
    else Ret None
  end.

Definition find_sym (m : gmap Z Z) (o : elf_object) (name : cstring) (allow_local : bool) : outcome (option elf_sym) :=
  find_sym_loop (S (Z.to_nat (o_strtab o - o_symbols o))) m o name allow_local (o_symbols o).

(** [result = sym->st_value; if(obj->header.e_type == ET_DYN) result += obj->base_addr;] *)
Definition sym_address (o : elf_object) (s : elf_sym) : Z :=
  if is_dyn o then u32 (st_value s + o_base_addr o) else st_value s.

(** The loop over the dependencies: the value to return at once, or [result]. *)
Fixpoint dep_loop (l : loader) (deps : list Z) (name : cstring) (result : Z) : outcome (Z + Z) :=
  match deps with
  | [] => Ret (inr result)
  | a :: deps =>
    o ← match l_objs l !! a with Some o => Ret o | None => Fault end;
    if (o_symbols o =? 0) || (o_strtab o =? 0) then dep_loop l deps name result else
    r ← find_sym (l_mem l) o name false;
    match r with
    | Some s =>
      let bind := ELF32_ST_BIND (st_info s) in
      if bind =? STB_LOCAL then dep_loop l deps name result
      else if negb (bind =? STB_WEAK) then Ret (inl (sym_address o s))
      else dep_loop l deps name (sym_address o s)
    | None => dep_loop l deps name result
    end
  end.

(** [req_obj] is an address; 0 is NULL. *)
Definition resolve_dep_sym (l : loader) (req_obj : Z) (name : cstring) : outcome Z :=
  req ← match l_objs l !! req_obj with Some o => Ret o | None => Fault end;
  r ← dep_loop l (o_deps req) name 0;
  match r with
  | inl v => Ret v
  | inr result =>
    s ← find_sym (l_mem l) req name true;
    let result := match s with Some s => sym_address req s | None => result end in
    let weak := match s with Some s => ELF32_ST_BIND (st_info s) =? STB_WEAK | None => true end in
    if negb weak then Ret result else
    if negb (req_obj =? l_root l) then
      root ← match l_objs l !! l_root l with Some o => Ret o | None => Fault end;
      s ← find_sym (l_mem l) root name true;
      Ret (match s with
           | Some s => if negb (ELF32_ST_BIND (st_info s) =? STB_LOCAL) then sym_address root s else result
           | None => result
           end)
    else Ret result
  end.

(** * Relocation *)

(** [Elf32_Rel] *)
Definition rel_at (m : gmap Z Z) (a : Z) : outcome (Z * Z) := r_offset ← mload32 m a; r_info ← mload32 m (a + 4); Ret (r_offset, r_info).

Definition load_obj_at (a : Z) : ldm elf_object := fun l =>
  match l_objs l !! a with Some o => Ret (Some o, l) | None => Fault end.

(** The name of the symbol with an index, and the symbol. *)
Definition sym_of (m : gmap Z Z) (o : elf_object) (symidx : Z) : outcome (elf_sym * cstring) :=
  s ← sym_at m (u32 (o_symbols o + symidx * o_syment o));
  name ← string_at m (u32 (o_strtab o + st_name s));
  Ret (s, name).

Definition relptr (o : elf_object) (r_offset : Z) : Z := if is_dyn o then u32 (r_offset + o_base_addr o) else r_offset.

(** A relocation with a symbol: None when it exits. *)
Definition apply_rel (m : gmap Z Z) (reltype p target : Z) (s : elf_sym) : outcome (option (gmap Z Z)) :=
  if reltype =? R_386_GLOB_DAT then m ← mstore32 m p target; Ret (Some m)
  else if (reltype =? R_386_32) || (reltype =? R_386_PC32) then
    x ← mload32 m p; m ← mstore32 m p (x + target); Ret (Some m)
  else if reltype =? R_386_COPY then b ← mbytes (Z.to_nat (st_size s)) m target; m ← mstore m p b; Ret (Some m)
  else Ret None.

(** One entry of [obj->rel]. *)
Definition relocate_entry (l : loader) (a : Z) (o : elf_object) (crel : Z) : outcome (option (gmap Z Z)) :=
  let m := l_mem l in
  '(r_offset, r_info) ← rel_at m crel;
  let reltype := ELF32_R_TYPE r_info in
  let p := relptr o r_offset in
  if reltype =? R_386_RELATIVE then
    x ← mload32 m p; m ← mstore32 m p (x + o_base_addr o); Ret (Some m)
  else
    let symidx := ELF32_R_SYM r_info in
    if symidx =? 0 then Ret None else
    '(s, name) ← sym_of m o symidx;
    target ← resolve_dep_sym l a name;
    if target =? 0 then
      if ELF32_ST_BIND (st_info s) =? STB_WEAK then Ret (Some m) else Ret None
    else apply_rel m reltype p target s.

(** The loops; [n] entries are left. *)
Fixpoint rel_loop (n : nat) (a : Z) (o : elf_object) (crel : Z) : ldm unit :=
  match n with
  | O => mret tt
  | S n =>
    l ← get;
    r ← lift (relocate_entry l a o crel);
    match r with
    | None => Exit
    | Some m => put (l_set_mem l m) ≫= fun _ => rel_loop n a o (crel + SIZEOF_REL)
    end
  end.

Fixpoint jmprel_loop (n : nat) (o : elf_object) (crel : Z) : ldm unit :=
  match n with
  | O => mret tt
  | S n =>
    l ← get;
    '(r_offset, r_info) ← lift (rel_at (l_mem l) crel);
    if ELF32_R_TYPE r_info =? R_386_JMP_SLOT then
      let p := u32 (r_offset + o_base_addr o) in
      x ← lift (mload32 (l_mem l) p);
      m ← lift (mstore32 (l_mem l) p (x + o_base_addr o));
      put (l_set_mem l m) ≫= fun _ => jmprel_loop n o (crel + SIZEOF_REL)
    else Exit
  end.

(** How many steps of 8 bytes start below [size]. *)
Definition entries (size : Z) : nat := Z.to_nat ((size + (SIZEOF_REL - 1)) / SIZEOF_REL).

Definition relocate (a : Z) : ldm unit :=
  o ← load_obj_at a;
  (if nz (info o DT_REL) && nz (info o DT_RELSZ) then rel_loop (entries (info o DT_RELSZ)) a o (info o DT_REL) else mret tt) ≫= fun _ =>
  if nz (info o DT_JMPREL) && is_dyn o then jmprel_loop (entries (info o DT_PLTRELSZ)) o (info o DT_JMPREL) else mret tt.

(** Lazy binding, from the trampoline: the target. *)
Definition resolve_callback (offset req_obj : Z) : ldm Z :=
  o ← load_obj_at req_obj;
  l ← get;
  '(r_offset, r_info) ← lift (rel_at (l_mem l) (u32 (info o DT_JMPREL + offset)));
  '(s, name) ← lift (sym_of (l_mem l) o (ELF32_R_SYM r_info));
  target ← lift (resolve_dep_sym l req_obj name);
  if target =? 0 then Exit else
  m ← lift (mstore32 (l_mem l) (relptr o r_offset) target);
  put (l_set_mem l m) ≫= fun _ => mret target.

(** * Loading *)

Class LoaderEnv : Type := {
  (* the contents of a file *)
  ld_file : cstring -> option (list Z);
  (* [open]: a new descriptor *)
  ld_fd : loader -> Z;
  (* [calloc] of an object *)
  ld_calloc : loader -> Z;
  (* [mmap] of anonymous memory: the address, -1 when it fails, and the memory *)
  ld_mmap : Z -> Z -> bool -> gmap Z Z -> Z * gmap Z Z;
  plt_trampoline : Z;
}.

Section Load.
Context `{LoaderEnv}.

Definition upd_obj (a : Z) (f : elf_object -> elf_object) : ldm unit := fun l =>
  match l_objs l !! a with Some o => Ret (Some tt, l_set_obj l a (f o)) | None => Fault end.

(** The bytes; [exit] when they can not be read. *)
Definition read_data (a offset size : Z) : ldm (list Z) :=
  o ← load_obj_at a;
  l ← get;
  '(f, pos) ← lift (match l_fds l !! o_fd o with Some x => Ret x | None => Fault end);
  let pos := if offset =? o_seek_offset o then pos else offset in
  let b := bytes_at f pos size in
  if negb (Z.of_nat (length b) =? size) then Exit else
  put (l_set_fds l (<[o_fd o := (f, pos + size)]> (l_fds l))) ≫= fun _ =>
  upd_obj a (fun o => o_set_seek o (s32 (offset + size))) ≫= fun _ =>
  mret b.

(** Where a segment is to be mapped, and whether exactly there. *)
Definition map_request (o : elf_object) (ph : phdr) : Z * bool :=
  if negb (is_dyn o) then (p_vaddr ph, true)
  else if nz (o_base_addr o) then (u32 (o_base_addr o + p_vaddr ph), true)
  else (0x6000000, false).

Definition map_phead (a : Z) (ph : phdr) : ldm unit :=
  LD_ASSERT (p_filesz ph <=? p_memsz ph) ≫= fun _ =>
  o ← load_obj_at a;
  let '(addr_request, fixed) := map_request o ph in
  l ← get;
  let '(addr, m) := ld_mmap addr_request (p_memsz ph) fixed (l_mem l) in
  if addr =? -1 then Exit else
  put (l_set_mem l m) ≫= fun _ =>
  upd_obj a (fun o => if nz (o_base_addr o) then o else o_set_base o addr) ≫= fun _ =>
  b ← read_data a (p_offset ph) (p_filesz ph);
  l ← get;
  m ← lift (mstore (l_mem l) (addr + p_vaddr ph mod 0x1000) b);
  put (l_set_mem l m).

(** The first loop of [load_dyn]. *)
Definition dyn_pointers : list Z :=
  [DT_STRTAB; DT_SYMTAB; DT_JMPREL; DT_PLTGOT; DT_REL; DT_INIT; DT_FINI; DT_INIT_ARRAY; DT_FINI_ARRAY].

Definition dyn_values : list Z :=
  [DT_PLTRELSZ; DT_SYMENT; DT_RELENT; DT_RELSZ; DT_INIT_ARRAYSZ; DT_FINI_ARRAYSZ].

Definition dyn_entry (o : elf_object) (e : Z * Z) : elf_object :=
  let '(tag, val) := e in
  let p := if nz val && is_dyn o then u32 (val + o_base_addr o) else val in
  if bool_decide (tag ∈ dyn_pointers) then o_set_info o (<[tag := p]> (o_info o))
  else if bool_decide (tag ∈ dyn_values) then o_set_info o (<[tag := val]> (o_info o))
  else o.

(** [/usr/lib/] *)
Definition usr_lib : cstring := [47; 117; 115; 114; 47; 108; 105; 98; 47].

(** The last loaded object with a path: the loop does not stop at the first. *)
Definition find_loaded (l : loader) (path : cstring) : Z :=
  foldl (fun dep a => match l_objs l !! a with
                      | Some o => if bool_decide (o_path o = path) then a else dep
                      | None => dep
                      end) 0 (l_loaded l).

(** The loop that loads what is needed: [i] is where [dyn] is, which only moves
    past entries for libraries. *)
Fixpoint needed_loop (n : nat) (i : nat) (a : Z) (load_obj : Z -> cstring -> ldm unit) : ldm unit :=
  match n with
  | O => mret tt
  | S n =>
    o ← load_obj_at a;
    match o_dyn o !! i with
    | None => lift Fault
    | Some (tag, val) =>
      if negb (tag =? DT_NEEDED) then needed_loop n i a load_obj else
      l ← get;
      name ← lift (string_at (l_mem l) (u32 (o_strtab o + val)));
      let path := usr_lib ++ name in
      let dep := find_loaded l path in
      (if dep =? 0 then
         let dep := ld_calloc l in
         put (l_set_obj l dep new_object) ≫= fun _ => load_obj dep path ≫= fun _ => mret dep
       else mret dep) ≫= fun dep =>
      upd_obj a (fun o => o_set_deps o (dep :: o_deps o)) ≫= fun _ =>
      needed_loop n (S i) a load_obj
    end
  end.

Definition load_dyn (a : Z) (load_obj : Z -> cstring -> ldm unit) : ldm unit :=
  upd_obj a (fun o => foldl dyn_entry o (o_dyn o)) ≫= fun _ =>
  o ← load_obj_at a;
  let pltgot := info o DT_PLTGOT in
  (if nz pltgot then
     l ← get;
     m ← lift (mstore32 (l_mem l) (pltgot + 4) a);
     m ← lift (mstore32 m (pltgot + 8) plt_trampoline);
     put (l_set_mem l m)
   else mret tt) ≫= fun _ =>
  needed_loop (length (o_dyn o)) 0 a load_obj.

(** The loop over the program headers. *)
Fixpoint phead_loop (n : nat) (a : Z) (pheads : list Z) (o entsize : Z) : ldm unit :=
  match n with
  | O => mret tt
  | S n =>
    let ph := parse_phdr pheads o in
    (if p_type ph =? PT_LOAD then map_phead a ph else mret tt) ≫= fun _ =>
    (if p_type ph =? PT_DYNAMIC then
       b ← read_data a (p_offset ph) (p_memsz ph);
       upd_obj a (fun ob => o_set_dyn ob (map (fun i => (u32_at b (8 * Z.of_nat i), u32_at b (8 * Z.of_nat i + 4)))
                                         (seq 0 (Z.to_nat (p_memsz ph / SIZEOF_DYN)))))
     else mret tt) ≫= fun _ =>
    phead_loop n a pheads (o + entsize) entsize
  end.

(** [depth] bounds how far libraries need libraries; [required] is true for a
    library. *)
Fixpoint load_obj (depth : nat) (required : bool) (a : Z) (path : cstring) : ldm unit :=
  match depth with
  | O => lift Spin
  | S depth =>
    match ld_file path with
    | None => Exit
    | Some f =>
      l ← get;
      let fd := ld_fd l in
      put (l_set_fds l (<[fd := (f, 0)]> (l_fds l))) ≫= fun _ =>
      upd_obj a (fun o => Obj path (o_base_addr o) fd (o_seek_offset o) (o_header o) (o_dyn o) (o_info o) []) ≫= fun _ =>
      b ← read_data a 0 SIZEOF_EHDR;
      let h := parse_ehdr b in
      upd_obj a (fun o => o_set_header o h) ≫= fun _ =>
      LD_ASSERT (bool_decide (e_ident h = elf_magic)) ≫= fun _ =>
      LD_ASSERT (e_version h =? 1) ≫= fun _ =>
      LD_ASSERT (e_machine h =? EM_386) ≫= fun _ =>
      LD_ASSERT (e_phnum h >? 0) ≫= fun _ =>
      LD_ASSERT ((e_type h =? ET_EXEC) || (e_type h =? ET_DYN)) ≫= fun _ =>
      LD_ASSERT (required || nz (e_entry h)) ≫= fun _ =>
      upd_obj a (fun o => o_set_base (o_set_seek o 0) 0) ≫= fun _ =>
      pheads ← read_data a (e_phoff h) (e_phnum h * e_phentsize h);
      phead_loop (Z.to_nat (e_phnum h)) a pheads 0 (e_phentsize h) ≫= fun _ =>
      load_dyn a (load_obj depth true) ≫= fun _ =>
      l ← get;
      put (l_add_loaded (l_set_fds l (delete fd (l_fds l))) a)
    end
  end.

(** A call of each function that is there, in the order of [loaded_objs]. *)
Fixpoint call_each (tag : Z) (objs : list Z) : ldm unit :=
  match objs with
  | [] => mret tt
  | a :: objs =>
    o ← load_obj_at a;
    l ← get;
    (if nz (info o tag) then put (l_add_call l (info o tag)) else mret tt) ≫= fun _ => call_each tag objs
  end.

Fixpoint relocate_each (objs : list Z) : ldm unit :=
  match objs with
  | [] => mret tt
  | a :: objs => relocate a ≫= fun _ => relocate_each objs
  end.

(** [/usr/libexec/system/xelix-loader] *)
Definition own_path : cstring :=
  [47; 117; 115; 114; 47; 108; 105; 98; 101; 120; 101; 99; 47; 115; 121; 115; 116; 101; 109; 47;
   120; 101; 108; 105; 120; 45; 108; 111; 97; 100; 101; 114].

(** The executable is the first argument when the loader itself has been started. *)
Definition exec_path (binary_path : cstring) (argv : list cstring) : ldm cstring :=
  if bool_decide (binary_path = own_path) then
    match argv with
    | _ :: path :: _ => mret path
    | _ => Exit
    end
  else mret binary_path.

(** [main]; [binary_path] is that of [_xelix_execdata]. *)
Definition loader_main (depth : nat) (binary_path : cstring) (argv : list cstring) : ldm unit :=
  execpath ← exec_path binary_path argv;
  LD_ASSERT (negb (bool_decide (execpath = []))) ≫= fun _ =>
  l ← get;
  let root := ld_calloc l in
  put (l_set_root (l_set_obj l root new_object) root) ≫= fun _ =>
  load_obj depth false root execpath ≫= fun _ =>
  l ← get;
  relocate_each (l_loaded l) ≫= fun _ =>
  call_each DT_INIT (l_loaded l) ≫= fun _ =>
  o ← load_obj_at root;
  l ← get;
  put (l_add_call l (e_entry (o_header o))) ≫= fun _ =>
  call_each DT_FINI (l_loaded l).

End Load.
