(* ===== verification/LoaderSpec.v ===== *)
(** Theorems on the dynamic loader (Loader.v). *)
From stdpp Require Import base numbers list gmap.
From Stdlib Require Import ZArith Lia Bool.
From S2P Require Import Prelude Str Bytes DList Path Loader.

Open Scope Z_scope.

(** * Which definition of a symbol counts *)

(** What an object has for a name: the binding and the address. *)
Definition defined (o : elf_object) (s : option elf_sym) : option (Z * Z) :=
  s ← s; Some (ELF32_ST_BIND (st_info s), sym_address o s).

Definition is_strong (d : option (Z * Z)) : option Z :=
  match d with Some (b, v) => if (b =? STB_LOCAL) || (b =? STB_WEAK) then None else Some v | None => None end.

Definition is_weak (d : option (Z * Z)) : option Z :=
  match d with Some (b, v) => if b =? STB_WEAK then Some v else None | None => None end.

Fixpoint first_some {A} (l : list (option A)) : option A :=
  match l with [] => None | Some x :: _ => Some x | None :: l => first_some l end.

(** The definitions in the order of preference: the first library that has a
    strong one, the object itself if it has one that is not weak, the executable
    if it has one that is not local, a weak one of the object, and the last library
    with a weak one. *)
Definition preference (deps : list (option (Z * Z))) (own root : option (Z * Z)) : list (option Z) :=
  map is_strong deps ++
  [ match own with Some (b, v) => if b =? STB_WEAK then None else Some v | None => None end;
    match root with Some (b, v) => if b =? STB_LOCAL then None else Some v | None => None end;
    is_weak own ] ++
  map is_weak (reverse deps).

(** What the dependencies have. *)
Definition dep_defined (l : loader) (name : cstring) (a : Z) (d : option (Z * Z)) : Prop :=
  exists o, l_objs l !! a = Some o /\
    if (o_symbols o =? 0) || (o_strtab o =? 0) then d = None
    else exists s, find_sym (l_mem l) o name false = Ret s /\ d = defined o s.

Lemma first_some_app {A} (l l' : list (option A)) :
  first_some (l ++ l') = match first_some l with Some x => Some x | None => first_some l' end.
Proof. induction l as [| [x |] l IH]; [done | done |]. exact IH. Qed.

Lemma dep_loop_spec l name deps ds result :
  Forall2 (dep_defined l name) deps ds ->
  dep_loop l deps name result =
    Ret (match first_some (map is_strong ds) with
         | Some v => inl v
         | None => inr (default result (first_some (map is_weak (reverse ds))))
         end).
Proof.
  intros Hd. revert result. induction Hd as [| a d deps ds (o & Ho & Hod) _ IH]; intros result; [done |].
  cbn [dep_loop map first_some]. rewrite Ho, bind_Ret, reverse_cons, map_app, first_some_app.
  destruct ((o_symbols o =? 0) || (o_strtab o =? 0)).
  - subst d. cbn [is_strong is_weak map first_some]. rewrite IH. by repeat case_match.
  - destruct Hod as (s & -> & ->). rewrite bind_Ret. destruct s as [s |]; cbn [defined mbind option_bind is_strong is_weak map].
    2: { rewrite IH. cbn [first_some]. by repeat case_match. }
    destruct (Z.eqb_spec (ELF32_ST_BIND (st_info s)) STB_LOCAL) as [El | Hl]; cbn [orb negb].
    + rewrite IH, El. cbn [first_some]. by repeat case_match.
    + destruct (Z.eqb_spec (ELF32_ST_BIND (st_info s)) STB_WEAK) as [Ew | Hw]; cbn [negb first_some]; [| done].
      rewrite IH. by repeat case_match.
Qed.

(** C28: [resolve_dep_sym] gives the address of the first definition in the order
    of [preference]: strong definitions of the libraries in their order, then the
    object's own, then the executable's, then weak ones; and NULL if there is none.
    The executable is only asked on behalf of a library. *)
Theorem resolve_preference l a o name ds s root r :
  l_objs l !! a = Some o -> Forall2 (dep_defined l name) (o_deps o) ds ->
  find_sym (l_mem l) o name true = Ret s ->
  l_objs l !! l_root l = Some root -> find_sym (l_mem l) root name true = Ret r ->
  resolve_dep_sym l a name =
    Ret (default 0 (first_some (preference ds (defined o s) (if a =? l_root l then None else defined root r)))).
Proof.
  intros Ho Hd Hs Hroot Hr. unfold resolve_dep_sym, preference. rewrite Ho, bind_Ret, (dep_loop_spec _ _ _ _ _ Hd), bind_Ret.
  rewrite !first_some_app. destruct (first_some (map is_strong ds)); [done |].
  rewrite Hs, bind_Ret. destruct s as [s |]; cbn [defined mbind option_bind].
  - destruct (Z.eqb_spec (ELF32_ST_BIND (st_info s)) STB_WEAK) as [E | E]; cbn [negb first_some is_weak]; [| done].
    destruct (a =? l_root l); cbn [negb].
    + cbn [is_weak]. rewrite E, Z.eqb_refl. done.
    + rewrite Hroot, bind_Ret, Hr, bind_Ret. cbn [is_weak]. rewrite E, Z.eqb_refl. destruct r as [r |]; cbn [defined mbind option_bind]; [| done].
      by destruct (ELF32_ST_BIND (st_info r) =? STB_LOCAL).
  - cbn [negb first_some is_weak]. destruct (a =? l_root l); cbn [negb]; [done |].
    rewrite Hroot, bind_Ret, Hr, bind_Ret. destruct r as [r |]; cbn [defined mbind option_bind]; [| done].
    by destruct (ELF32_ST_BIND (st_info r) =? STB_LOCAL).
Qed.

(** * Reading memory that does not change *)

(** What can be read in a part of the memory is read in the whole. *)
Section Monotone.
Context (m m' : gmap Z Z).
Hypothesis sub : m ⊆ m'.

Lemma mload_mono a b : mload m a = Ret b -> mload m' a = Ret b.
Proof. unfold mload. destruct (m !! a) as [x |] eqn:E; [| done]. intros [= <-]. by rewrite (lookup_weaken _ _ _ _ E sub). Qed.

Lemma mload_le_mono n a x : mload_le n m a = Ret x -> mload_le n m' a = Ret x.
Proof.
  revert a x. induction n as [| n IH]; intros a x Hx; cbn [mload_le] in *; [done |]. unbind Hx as b Hb. unbind Hx as y Hy.
  rewrite (mload_mono _ _ Hb), bind_Ret, (IH _ _ Hy), bind_Ret. done.
Qed.

Lemma mstring_mono fuel fuel' a s : mstring fuel m a = Ret s -> (fuel <= fuel')%nat -> mstring fuel' m' a = Ret s.
Proof.
  revert fuel' a s. induction fuel as [| fuel IH]; intros fuel' a s Hs Hf; cbn [mstring] in Hs; [done |].
  destruct fuel' as [| fuel']; [lia |]. cbn [mstring]. unbind Hs as b Hb. rewrite (mload_mono _ _ Hb), bind_Ret.
  destruct (b =? 0); [done |]. unbind Hs as t Ht. rewrite (IH fuel' _ _ Ht), bind_Ret by lia. done.
Qed.

Lemma string_at_mono a s : string_at m a = Ret s -> string_at m' a = Ret s.
Proof. intros Hs. eapply mstring_mono; [exact Hs |]. apply le_n_S, map_subseteq_size, sub. Qed.

Lemma mstreq_mono a s b : mstreq m a s = Ret b -> mstreq m' a s = Ret b.
Proof.
  revert a. induction s as [| x s IH]; intros a Hs; cbn [mstreq] in *; unbind Hs as c Hc; rewrite (mload_mono _ _ Hc), bind_Ret; [done |].
  destruct (c =? x); [by apply IH | done].
Qed.

Lemma sym_at_mono a s : sym_at m a = Ret s -> sym_at m' a = Ret s.
Proof.
  intros Hs. unfold sym_at, mload32 in *. unbind Hs as x1 H1. unbind Hs as x2 H2. unbind Hs as x3 H3. unbind Hs as x4 H4.
  rewrite (mload_le_mono _ _ _ H1), bind_Ret, (mload_le_mono _ _ _ H2), bind_Ret, (mload_le_mono _ _ _ H3), bind_Ret, (mload_mono _ _ H4), bind_Ret.
  done.
Qed.

Lemma find_sym_mono o name local r : find_sym m o name local = Ret r -> find_sym m' o name local = Ret r.
Proof.
  unfold find_sym. generalize (S (Z.to_nat (o_strtab o - o_symbols o))) as fuel. generalize (o_symbols o) as sym. intros sym fuel.
  revert sym.
  induction fuel as [| fuel IH]; intros sym Hs; cbn [find_sym_loop] in *; [done |].
  destruct (sym <? o_strtab o); [| done]. unbind Hs as s Hsym. rewrite (sym_at_mono _ _ Hsym), bind_Ret. unbind Hs as eq Heq.
  assert ((if (local || negb (ELF32_ST_BIND (st_info s) =? STB_LOCAL)) && nz (st_value s)
    then mstreq m' (u32 (o_strtab o + st_name s)) name else Ret false) = Ret eq) as ->.
  { destruct (_ && _); [by apply mstreq_mono | done]. }
  rewrite bind_Ret. destruct eq; [done | by apply IH].
Qed.

Lemma sym_of_mono o i r : sym_of m o i = Ret r -> sym_of m' o i = Ret r.
Proof.
  intros Hs. unfold sym_of in *. unbind Hs as s H1. unbind Hs as name H2.
  by rewrite (sym_at_mono _ _ H1), bind_Ret, (string_at_mono _ _ H2), bind_Ret.
Qed.

Lemma rel_at_mono a r : rel_at m a = Ret r -> rel_at m' a = Ret r.
Proof.
  intros Hs. unfold rel_at, mload32 in *. unbind Hs as x1 H1. unbind Hs as x2 H2.
  by rewrite (mload_le_mono _ _ _ H1), bind_Ret, (mload_le_mono _ _ _ H2), bind_Ret.
Qed.

Lemma dep_loop_mono l deps name result r :
  dep_loop (l_set_mem l m) deps name result = Ret r -> dep_loop (l_set_mem l m') deps name result = Ret r.
Proof.
  revert result. induction deps as [| a deps IH]; intros result Hd; cbn [dep_loop l_set_mem l_objs l_mem] in *; [done |].
  unbind Hd as o Ho. rewrite Ho, bind_Ret. destruct (_ || _); [by apply IH |]. unbind Hd as s Hs.
  rewrite (find_sym_mono _ _ _ _ Hs), bind_Ret. destruct s; [| by apply IH]. repeat case_match; try done; by apply IH.
Qed.

Lemma resolve_mono l a name r :
  resolve_dep_sym (l_set_mem l m) a name = Ret r -> resolve_dep_sym (l_set_mem l m') a name = Ret r.
Proof.
  intros Hr. unfold resolve_dep_sym in *. unbind Hr as o Ho. cbn [l_set_mem l_objs] in *. rewrite Ho, bind_Ret.
  unbind Hr as d Hd. rewrite (dep_loop_mono _ _ _ _ _ Hd), bind_Ret. destruct d; [done |].
  cbn [l_set_mem l_mem l_root] in *. unbind Hr as s Hs. rewrite (find_sym_mono _ _ _ _ Hs), bind_Ret.
  destruct (negb (match s with Some _ => _ | None => _ end)); [done |]. destruct (negb _); [| done].
  unbind Hr as root Hroot. rewrite Hroot, bind_Ret. unbind Hr as t Ht. by rewrite (find_sym_mono _ _ _ _ Ht), bind_Ret.
Qed.

End Monotone.

(** * Words *)

Lemma mload_le_stored n m a x :
  (forall i, (i < n)%nat -> m !! (a + Z.of_nat i) = le_bytes n x !! i) -> 0 <= x < 2 ^ (8 * Z.of_nat n) -> mload_le n m a = Ret x.
Proof.
  revert a x. induction n as [| n IH]; intros a x Hm Hx; cbn [mload_le].
  { f_equal. change (2 ^ (8 * Z.of_nat 0)) with 1 in Hx. lia. }
  unfold mload. pose proof (Hm 0%nat ltac:(lia)) as H0. rewrite Z.add_0_r in H0. cbn [le_bytes lookup list_lookup] in H0.
  rewrite H0, bind_Ret, (IH (a + 1) (x / 2 ^ 8)), bind_Ret.
  - f_equal. rewrite Z.add_comm, <- Z.div_mod; [done | lia].
  - intros i Hi. replace (a + 1 + Z.of_nat i) with (a + Z.of_nat (S i)) by lia. exact (Hm (S i) ltac:(lia)).
  - assert (2 ^ (8 * Z.of_nat (S n)) = 2 ^ 8 * 2 ^ (8 * Z.of_nat n)) as E by (rewrite <- Z.pow_add_r by lia; f_equal; lia).
    split; [apply Z.div_pos; lia |]. apply Z.div_lt_upper_bound; lia.
Qed.

Lemma mstore_spec m a (l : list Z) :
  (forall i, (i < length l)%nat -> is_Some (m !! (a + Z.of_nat i))) ->
  exists m', mstore m a l = Ret m' /\ (forall i, (i < length l)%nat -> m' !! (a + Z.of_nat i) = l !! i) /\
    (forall k, k < a \/ a + Z.of_nat (length l) <= k -> m' !! k = m !! k).
Proof.
  revert m a. induction l as [| b l IH]; intros m a Hm; cbn [mstore].
  { exists m. split; [done |]. split; [simpl; lia | done]. }
  destruct (Hm 0%nat ltac:(simpl; lia)) as [x Hx]. rewrite Z.add_0_r in Hx. unfold mload. rewrite Hx, bind_Ret.
  destruct (IH (<[a := b]> m) (a + 1)) as (m' & Hs & Hin & Hout).
  { intros i Hi. rewrite lookup_insert_ne by lia. replace (a + 1 + Z.of_nat i) with (a + Z.of_nat (S i)) by lia. apply Hm. simpl. lia. }
  exists m'. split; [done |]. split.
  - intros [| i] Hi.
    + rewrite Z.add_0_r, Hout, lookup_insert_eq by lia. done.
    + replace (a + Z.of_nat (S i)) with (a + 1 + Z.of_nat i) by lia. rewrite Hin by (simpl in Hi; lia). done.
  - intros k Hk. simpl length in Hk. rewrite Hout, lookup_insert_ne by lia. done.
Qed.

(** Storing a word where there is one: it is there afterwards, and nothing else
    has changed. *)
Definition stores (m : gmap Z Z) (p x : Z) (m' : gmap Z Z) : Prop :=
  mload32 m' p = Ret (u32 x) /\ forall k, k < p \/ p + 4 <= k -> m' !! k = m !! k.

Lemma mload_le_some n m a x : mload_le n m a = Ret x -> forall i, (i < n)%nat -> is_Some (m !! (a + Z.of_nat i)).
Proof.
  revert a x. induction n as [| n IH]; intros a x Hx [| i] Hi; [lia | lia | |]; cbn [mload_le] in Hx; unbind Hx as b Hb; unbind Hx as y Hy.
  - rewrite Z.add_0_r. unfold mload in Hb. by destruct (m !! a).
  - replace (a + Z.of_nat (S i)) with (a + 1 + Z.of_nat i) by lia. eapply IH; [exact Hy | lia].
Qed.

Lemma mstore32_spec m p x old : mload32 m p = Ret old -> exists m', mstore32 m p x = Ret m' /\ stores m p x m'.
Proof.
  intros Ho. unfold mstore32. destruct (mstore_spec m p (le_bytes 4 (u32 x))) as (m' & Hs & Hin & Hout).
  { intros i Hi. rewrite length_le_bytes in Hi. by eapply mload_le_some. }
  exists m'. split; [done |]. rewrite length_le_bytes in Hin, Hout. split; [| exact Hout].
  apply mload_le_stored; [exact Hin | exact (u32_range x)].
Qed.

(** * Relocation *)

(** A word to change, and how. *)
Definition patch : Type := Z * (Z -> Z).

Definition outside (k : Z) (t : patch) : Prop := k < t.1 \/ t.1 + 4 <= k.

Definition separate (t u : patch) : Prop := t.1 + 4 <= u.1 \/ u.1 + 4 <= t.1.

(** The patches one after the other. *)
Fixpoint patched (ts : list patch) (m m' : gmap Z Z) : Prop :=
  match ts with
  | [] => m' = m
  | (p, f) :: ts => exists old m1, mload32 m p = Ret old /\ stores m p (f old) m1 /\ patched ts m1 m'
  end.

Lemma mload_le_ext n m m' a : (forall i, (i < n)%nat -> m' !! (a + Z.of_nat i) = m !! (a + Z.of_nat i)) -> mload_le n m' a = mload_le n m a.
Proof.
  revert a. induction n as [| n IH]; intros a Hm; cbn [mload_le]; [done |].
  unfold mload. pose proof (Hm 0%nat ltac:(lia)) as H0. rewrite Z.add_0_r in H0. rewrite H0.
  rewrite (IH (a + 1)); [done |]. intros i Hi. replace (a + 1 + Z.of_nat i) with (a + Z.of_nat (S i)) by lia. apply Hm. lia.
Qed.

Lemma stores_other m p x m' q : stores m p x m' -> q + 4 <= p \/ p + 4 <= q -> mload32 m' q = mload32 m q.
Proof. intros [_ Ho] Hq. apply mload_le_ext. intros i Hi. apply Ho. lia. Qed.

(** Patches of different words are independent of each other. *)
Lemma patched_spec ts m m' :
  patched ts m m' -> ForallOrdPairs separate ts ->
  Forall (fun t => exists old, mload32 m t.1 = Ret old /\ mload32 m' t.1 = Ret (u32 (t.2 old))) ts /\
  (forall k, Forall (outside k) ts -> m' !! k = m !! k).
Proof.
  revert m. induction ts as [| [p f] ts IH]; intros m Hp Hs; cbn [patched] in Hp.
  { subst m'. split; [constructor | done]. }
  destruct Hp as (old & m1 & Ho & Hst & Hp). inversion_clear Hs as [| ? ? Hsep Hs']. destruct (IH _ Hp Hs') as [Hin Hout]. split.
  - constructor.
    + exists old. split; [exact Ho |]. cbn [fst snd]. rewrite <- (proj1 Hst). apply mload_le_ext. intros i Hi. apply Hout.
      eapply Forall_impl; [exact Hsep |]. intros t Ht. unfold separate, outside in *. cbn [fst] in Ht. lia.
    + apply Forall_forall. intros t Ht. rewrite Forall_forall in Hin, Hsep. destruct (Hin _ Ht) as (o & Ho1 & Ho2).
      exists o. split; [| exact Ho2]. rewrite <- Ho1. symmetry. eapply stores_other; [exact Hst |].
      specialize (Hsep _ Ht). unfold separate in Hsep. cbn [fst] in Hsep. lia.
  - intros k Hk. inversion_clear Hk as [| ? ? Hk1 Hk2]. rewrite Hout by done. apply (proj2 Hst). exact Hk1.
Qed.

Section Relocate.
Context (l : loader) (a : Z) (o : elf_object).

(** The part of the memory the loader only reads: the tables. *)
Context (F : gmap Z Z).

(** What an entry of [obj->rel] at an address means, for the types of the i386 ABI that
    the loader handles as the ABI says: a patch, or nothing for a weak symbol that is
    not defined.  [R_386_PC32] and [R_386_COPY] have no meaning here: the loader does
    not subtract the place for the first, and the second is not for a word. *)
Inductive rel_means (crel : Z) : option patch -> Prop :=
  | rel_relative off inf : rel_at F crel = Ret (off, inf) -> ELF32_R_TYPE inf = R_386_RELATIVE ->
      rel_means crel (Some (relptr o off, fun x => x + o_base_addr o))
  | rel_symbol off inf s name t f : rel_at F crel = Ret (off, inf) -> ELF32_R_SYM inf <> 0 ->
      sym_of F o (ELF32_R_SYM inf) = Ret (s, name) -> resolve_dep_sym (l_set_mem l F) a name = Ret t -> t <> 0 ->
      (ELF32_R_TYPE inf = R_386_GLOB_DAT /\ f = (fun _ => t) \/
       ELF32_R_TYPE inf = R_386_32 /\ f = (fun x => x + t)) ->
      rel_means crel (Some (relptr o off, f))
  | rel_undefined off inf s name : rel_at F crel = Ret (off, inf) -> ELF32_R_SYM inf <> 0 ->
      ELF32_R_TYPE inf <> R_386_RELATIVE -> sym_of F o (ELF32_R_SYM inf) = Ret (s, name) ->
      resolve_dep_sym (l_set_mem l F) a name = Ret 0 -> ELF32_ST_BIND (st_info s) = STB_WEAK -> rel_means crel None.

(** An entry of [obj->jmprel]. *)
Definition jmprel_means (crel : Z) (t : patch) : Prop :=
  exists off inf, rel_at F crel = Ret (off, inf) /\ ELF32_R_TYPE inf = R_386_JMP_SLOT /\
    t = (u32 (off + o_base_addr o), fun x => x + o_base_addr o).

(** The word is in memory, outside of the tables. *)
Definition free_word (m : gmap Z Z) (t : patch) : Prop :=
  (exists old, mload32 m t.1 = Ret old) /\ forall k, is_Some (F !! k) -> outside k t.

Lemma stores_keeps m p x m' t : F ⊆ m -> stores m p x m' -> free_word m (p, t) -> F ⊆ m'.
Proof.
  intros HF [_ Ho] [_ Hout]. apply map_subseteq_spec. intros k b Hk. rewrite Ho by (apply (Hout k); eauto). by eapply lookup_weaken.
Qed.

Lemma stores_free m p x m' t u : stores m p x m' -> separate (p, t) u -> free_word m u -> free_word m' u.
Proof.
  intros Hst Hs [[old Ho] Hout]. split; [| done]. exists old. rewrite <- Ho. eapply stores_other; [exact Hst |].
  unfold separate in Hs. cbn [fst] in Hs. lia.
Qed.

Lemma relocate_entry_spec m crel e :
  F ⊆ m -> rel_means crel e -> (forall t, e = Some t -> free_word m t) ->
  exists m', relocate_entry (l_set_mem l m) a o crel = Ret (Some m') /\ patched (option_list e) m m'.
Proof.
  intros HF Hr Hfree. unfold relocate_entry. cbn [l_set_mem l_mem].
  destruct Hr as [off inf Hat Hty | off inf s name t f Hat Hidx Hsym Hres Ht Hf | off inf s name Hat Hidx Hty Hsym Hres Hw];
    rewrite (rel_at_mono _ _ HF _ _ Hat), bind_Ret.
  - rewrite Hty, Z.eqb_refl. destruct (Hfree _ eq_refl) as [[old Ho] _]. cbn [fst] in Ho. rewrite Ho, bind_Ret.
    destruct (mstore32_spec m (relptr o off) (old + o_base_addr o) old Ho) as (m' & -> & Hst). rewrite bind_Ret.
    exists m'. split; [done |]. exists old, m'. done.
  - destruct (Hfree _ eq_refl) as [[old Ho] _]. cbn [fst] in Ho.
    destruct (Z.eqb_spec (ELF32_R_TYPE inf) R_386_RELATIVE) as [E | _].
    { exfalso. rewrite E in Hf. unfold R_386_RELATIVE, R_386_GLOB_DAT, R_386_32, R_386_PC32 in Hf. lia. }
    rewrite (proj2 (Z.eqb_neq _ _) Hidx), (sym_of_mono _ _ HF _ _ _ Hsym), bind_Ret.
    rewrite (resolve_mono _ _ HF _ _ _ _ Hres : resolve_dep_sym (l_set_mem l m) a name = Ret t), bind_Ret.
    rewrite (proj2 (Z.eqb_neq _ _) Ht). unfold apply_rel.
    destruct Hf as [[-> ->] | [-> ->]]; cbn [Z.eqb orb R_386_GLOB_DAT R_386_32 R_386_PC32 Pos.eqb]; rewrite ?Ho, ?bind_Ret;
      (match goal with |- context [mstore32 m ?p ?x] => destruct (mstore32_spec m p x old Ho) as (m' & -> & Hst) end);
      rewrite bind_Ret; (exists m'; split; [done |]; exists old, m'; done).
  - rewrite (proj2 (Z.eqb_neq _ _) Hty), (proj2 (Z.eqb_neq _ _) Hidx), (sym_of_mono _ _ HF _ _ _ Hsym), bind_Ret.
    rewrite (resolve_mono _ _ HF _ _ _ _ Hres : resolve_dep_sym (l_set_mem l m) a name = Ret 0), bind_Ret.
    cbn [Z.eqb]. rewrite Hw, Z.eqb_refl. exists m. done.
Qed.

(** The patches of a list of meanings. *)
Definition patches (es : list (option patch)) : list patch := omap id es.

Lemma ldm_lift {A B} (x : A) (k : A -> ldm B) st : (lift (Ret x) ≫= k) st = k x st.
Proof. done. Qed.

Lemma rel_loop_spec es m crel :
  F ⊆ m -> (forall i e, es !! i = Some e -> rel_means (crel + 8 * Z.of_nat i) e) ->
  ForallOrdPairs separate (patches es) -> Forall (free_word m) (patches es) ->
  exists m', rel_loop (length es) a o crel (l_set_mem l m) = Ret (Some tt, l_set_mem l m') /\ patched (patches es) m m' /\ F ⊆ m'.
Proof.
  revert m crel. induction es as [| e es IH]; intros m crel HF Hm Hsep Hfree.
  { exists m. done. }
  cbn [length rel_loop]. destruct (relocate_entry_spec m crel e HF) as (m1 & He & Hp).
  { pose proof (Hm 0%nat e eq_refl) as H0. by rewrite Z.add_0_r in H0. }
  { intros t ->. by inversion_clear Hfree. }
  assert (F ⊆ m1 /\ Forall (free_word m1) (patches es) /\ ForallOrdPairs separate (patches es)) as (HF1 & Hfree1 & Hsep1).
  { destruct e as [[p f] |]; cbn in Hp.
    - destruct Hp as (old & m2 & _ & Hst & ->). inversion_clear Hfree as [| ? ? Hf1 Hf2]. inversion_clear Hsep as [| ? ? Hs1 Hs2].
      split; [by eapply stores_keeps |]. split; [| done]. apply Forall_forall. intros u Hu. rewrite Forall_forall in Hf2, Hs1.
      eapply stores_free; [exact Hst | by apply Hs1 | by apply Hf2].
    - subst m1. done. }
  destruct (IH m1 (crel + 8) HF1) as (m' & Hr & Hp' & HF'); [| done | done |].
  { intros i x Hx. pose proof (Hm (S i) x Hx) as Hi. by replace (crel + 8 + 8 * Z.of_nat i) with (crel + 8 * Z.of_nat (S i)) by lia. }
  exists m'. split; [| split; [| done]].
  - unfold mbind at 1, ldm_bind at 1, get. rewrite bind_Ret. rewrite He, ldm_lift. exact Hr.
  - unfold patches. cbn [omap list_omap]. destruct e as [[p f] |]; cbn in Hp |- *.
    + destruct Hp as (old & m2 & Ho & Hst & ->). by exists old, m2.
    + by subst m1.
Qed.

Lemma jmprel_loop_spec ts m crel :
  F ⊆ m -> (forall i t, ts !! i = Some t -> jmprel_means (crel + 8 * Z.of_nat i) t) ->
  ForallOrdPairs separate ts -> Forall (free_word m) ts ->
  exists m', jmprel_loop (length ts) o crel (l_set_mem l m) = Ret (Some tt, l_set_mem l m') /\ patched ts m m' /\ F ⊆ m'.
Proof.
  revert m crel. induction ts as [| t ts IH]; intros m crel HF Hm Hsep Hfree.
  { exists m. done. }
  cbn [length jmprel_loop]. destruct (Hm 0%nat t eq_refl) as (off & inf & Hat & Hty & ->). rewrite Z.add_0_r in Hat.
  inversion_clear Hfree as [| ? ? Hf1 Hf2]. inversion_clear Hsep as [| ? ? Hs1 Hs2].
  destruct Hf1 as [[old Ho] Hout]. cbn [fst] in Ho.
  destruct (mstore32_spec m _ (old + o_base_addr o) old Ho) as (m1 & Hst1 & Hst).
  destruct (IH m1 (crel + 8)) as (m' & Hr & Hp' & HF').
  - eapply stores_keeps; [exact HF | exact Hst |]. split; [by exists old | exact Hout].
  - intros i x Hx. pose proof (Hm (S i) x Hx) as Hi. by replace (crel + 8 + 8 * Z.of_nat i) with (crel + 8 * Z.of_nat (S i)) by lia.
  - done.
  - apply Forall_forall. intros u Hu. rewrite Forall_forall in Hf2, Hs1. eapply stores_free; [exact Hst | by apply Hs1 | by apply Hf2].
  - exists m'. split; [| split; [by exists old, m1 | done]].
    unfold mbind at 1, ldm_bind at 1, get. rewrite bind_Ret. cbn [l_set_mem l_mem].
    rewrite (rel_at_mono _ _ HF _ _ Hat), ldm_lift, Hty, Z.eqb_refl, Ho, ldm_lift, Hst1, ldm_lift. exact Hr.
Qed.

End Relocate.

Lemma pairs_app (ts us : list patch) :
  ForallOrdPairs separate (ts ++ us) ->
  ForallOrdPairs separate ts /\ ForallOrdPairs separate us /\ forall t u, t ∈ ts -> u ∈ us -> separate t u.
Proof.
  induction ts as [| t ts IH]; cbn [app]; intros Hs.
  { split; [constructor |]. split; [done |]. intros t u Ht. by apply elem_of_nil in Ht. }
  inversion_clear Hs as [| ? ? H1 H2]. apply Forall_app in H1 as [H1 H3]. destruct (IH H2) as (I1 & I2 & I3).
  split; [by constructor |]. split; [done |]. intros x u Hx Hu. apply elem_of_cons in Hx as [-> | Hx]; [| by apply I3].
  rewrite Forall_forall in H3. by apply H3.
Qed.

Lemma patched_app ts us m m1 m' : patched ts m m1 -> patched us m1 m' -> patched (ts ++ us) m m'.
Proof.
  revert m. induction ts as [| [p f] ts IH]; intros m H1 H2; cbn [patched app] in *; [by subst m1 |].
  destruct H1 as (old & m2 & Ho & Hst & H1). exists old, m2. eauto.
Qed.

Lemma patched_free F ts m m' u : patched ts m m' -> (forall t, t ∈ ts -> separate t u) -> free_word F m u -> free_word F m' u.
Proof.
  revert m. induction ts as [| [p f] ts IH]; intros m Hp Hs Hu; cbn [patched] in Hp; [by subst m' |].
  destruct Hp as (old & m1 & _ & Hst & Hp). apply (IH m1 Hp).
  - intros t Ht. apply Hs. by apply elem_of_cons; right.
  - eapply stores_free; [exact Hst | | exact Hu]. apply Hs. apply elem_of_cons. by left.
Qed.

Lemma entries_exact n : entries (8 * Z.of_nat n) = n.
Proof.
  unfold entries, SIZEOF_REL. replace (8 * Z.of_nat n + (8 - 1)) with (7 + Z.of_nat n * 8) by lia.
  rewrite Z.div_add by lia. change (7 / 8) with 0. lia.
Qed.

Lemma l_set_mem_id l : l_set_mem l (l_mem l) = l.
Proof. by destruct l. Qed.

(** C17: relocating an object whose relocations with symbols are global or direct ones
    ([R_386_GLOB_DAT], [R_386_32]) succeeds and changes exactly the words its
    relocations are for: a relative one gains the address the object is loaded at,
    a global one becomes the address of its symbol, a direct one gains that address,
    a slot of a library for lazy binding gains the address it is loaded at, and the
    words of weak symbols that are not defined stay.  The tables may be anywhere
    as long as no relocation is for a word in them, and the words are separate.
    Objects with [R_386_PC32] relocations, which the loader gets wrong (see
    [pc32_not_relative]), and with [R_386_COPY] ones are not covered. *)
Theorem relocate_correct l a o F es js :
  l_objs l !! a = Some o -> F ⊆ l_mem l ->
  info o DT_RELSZ = 8 * Z.of_nat (length es) -> (es <> [] -> info o DT_REL <> 0) ->
  (forall i e, es !! i = Some e -> rel_means l a o F (info o DT_REL + 8 * Z.of_nat i) e) ->
  (if nz (info o DT_JMPREL) && is_dyn o then info o DT_PLTRELSZ = 8 * Z.of_nat (length js) else js = []) ->
  (forall i t, js !! i = Some t -> jmprel_means o F (info o DT_JMPREL + 8 * Z.of_nat i) t) ->
  let ts := patches es ++ js in
  ForallOrdPairs separate ts -> Forall (free_word F (l_mem l)) ts ->
  exists m', relocate a l = Ret (Some tt, l_set_mem l m') /\
    Forall (fun t => exists old, mload32 (l_mem l) t.1 = Ret old /\ mload32 m' t.1 = Ret (u32 (t.2 old))) ts /\
    (forall k, Forall (outside k) ts -> m' !! k = l_mem l !! k).
Proof.
  intros Ho HF Hsz Hnz Hes Hjs Hjm ts Hsep Hfree. destruct (pairs_app _ _ Hsep) as (Hs1 & Hs2 & Hs3).
  apply Forall_app in Hfree as [Hf1 Hf2].
  destruct (rel_loop_spec l a o F es (l_mem l) (info o DT_REL) HF Hes Hs1 Hf1) as (m1 & Hr & Hp1 & HF1). rewrite l_set_mem_id in Hr.
  destruct (jmprel_loop_spec l o F js m1 (info o DT_JMPREL) HF1 Hjm Hs2) as (m2 & Hj & Hp2 & _).
  { apply Forall_forall. intros u Hu. rewrite Forall_forall in Hf2. eapply patched_free; [exact Hp1 | | by apply Hf2].
    intros t Ht. by apply Hs3. }
  exists m2. split; [| apply patched_spec; [by eapply patched_app | done]].
  unfold relocate, load_obj_at. unfold mbind at 1, ldm_bind at 1. rewrite Ho, bind_Ret.
  assert ((if nz (info o DT_REL) && nz (info o DT_RELSZ) then rel_loop (entries (info o DT_RELSZ)) a o (info o DT_REL)
           else mret tt) l = Ret (Some tt, l_set_mem l m1)) as E1.
  { rewrite Hsz, entries_exact. destruct es as [| e es].
    - rewrite andb_false_r. exact Hr.
    - rewrite (proj2 (nz_true (info o DT_REL))) by (by apply Hnz). rewrite (proj2 (nz_true (8 * _))) by (simpl; lia). exact Hr. }
  unfold mbind at 1, ldm_bind at 1. rewrite E1, bind_Ret. destruct (nz (info o DT_JMPREL) && is_dyn o).
  - rewrite Hjs, entries_exact. exact Hj.
  - subst js. cbn [patched] in Hp2. by subst m2.
Qed.
