(* ===== verification/LoaderExample.v ===== *)
(** The loader (Loader.v) on an executable and a library, the witnesses of its
    theorems, and where it falls short. *)
From stdpp Require Import base numbers list gmap.
From Stdlib Require Import ZArith Lia Bool.
From S2P Require Import Prelude Str Bytes DList Path Loader LoaderSpec.

Open Scope Z_scope.

(** * Files *)

Definition w16 : Z -> list Z := le_bytes 2.
Definition w32 : Z -> list Z := le_bytes 4.

(** A file with two program headers: all of it is loaded at [vaddr], and the
    dynamic section follows the headers.  [body] comes after it. *)
Definition elf_file (type entry vaddr : Z) (dyn : list (Z * Z)) (body : list Z) : list Z :=
  let dynsize := 8 * Z.of_nat (length dyn) in
  let filesize := 116 + dynsize + Z.of_nat (length body) in
  elf_magic ++ w16 type ++ w16 EM_386 ++ w32 1 ++ w32 entry ++ w32 52 ++ w32 0 ++ w32 0 ++ w16 52 ++ w16 32 ++ w16 2 ++
  w16 0 ++ w16 0 ++ w16 0 ++
  w32 PT_LOAD ++ w32 0 ++ w32 vaddr ++ w32 vaddr ++ w32 filesize ++ w32 filesize ++ w32 7 ++ w32 0x1000 ++
  w32 PT_DYNAMIC ++ w32 116 ++ w32 (vaddr + 116) ++ w32 0 ++ w32 dynsize ++ w32 dynsize ++ w32 7 ++ w32 4 ++
  concat (map (fun '(t, v) => w32 t ++ w32 v) dyn) ++ body.

Definition elf_symbol (name value info : Z) : list Z := w32 name ++ w32 value ++ w32 0 ++ [info; 0; 0; 0].

(** The executable at 0x8000: it needs the library l, and there is a word at 0x80f4
    for the address of f and one at 0x80f8 for that of g, which is weak.  [late]
    puts the entry for the library last. *)
Definition program (type : Z) (late : bool) : list Z :=
  let tables := [(DT_SYMTAB, 0x80ac); (DT_STRTAB, 0x80dc); (DT_SYMENT, 16); (DT_REL, 0x80e4); (DT_RELSZ, 16); (DT_INIT, 0x8111)] in
  elf_file type 0x8abc 0x8000
    (if late then tables ++ [(DT_NEEDED, 1)] else (DT_NEEDED, 1) :: tables)
    ( (* 0xac *) elf_symbol 0 0 0 ++ elf_symbol 3 0 0x10 ++ elf_symbol 5 0 0x20 ++
     (* 0xdc *) [0; 108; 0; 102; 0; 103; 0; 0] ++
     (* 0xe4 *) w32 0x80f4 ++ w32 (Z.lor (Z.shiftl 1 8) R_386_GLOB_DAT) ++ w32 0x80f8 ++ w32 (Z.lor (Z.shiftl 2 8) R_386_GLOB_DAT) ++
     (* 0xf4 *) w32 0 ++ w32 0x55).

(** The library l, which defines f at 0x40 and may need itself. *)
Definition library (loop : bool) : list Z :=
  let o := if loop then 164 else 156 in
  elf_file ET_DYN 0 0
    ((if loop then [(DT_NEEDED, 1)] else []) ++ [(DT_SYMTAB, o); (DT_STRTAB, o + 32); (DT_SYMENT, 16); (DT_INIT, 0x222); (0, 0)])
    (elf_symbol 0 0 0 ++ elf_symbol 3 0x40 0x10 ++ [0; 108; 0; 102; 0; 0; 0; 0]).

Definition path_x : cstring := [47; 120].
Definition path_l : cstring := usr_lib ++ [108].

(** An environment with two files. *)
Definition two_files (x lib : list Z) : LoaderEnv := {|
  ld_file path := if decide (path = path_x) then Some x else if decide (path = path_l) then Some lib else None;
  ld_fd l := 3 + Z.of_nat (size (l_fds l));
  ld_calloc l := 0x100 * (1 + Z.of_nat (size (l_objs l)));
  ld_mmap req len fixed m := (req, m ∪ list_to_map ((fun i => (req + Z.of_nat i, 0)) <$> seq 0 (Z.to_nat len)));
  plt_trampoline := 0x900;
|}.

Definition start : loader := Ld ∅ ∅ [] 0 ∅ [].

(** The result of [main]: the words for f and g, and what has been called. *)
Definition summary (r : outcome (option unit * loader)) : outcome (option (outcome Z * outcome Z * list Z)) :=
  '(r, l) ← r;
  Ret (_ ← r; Some (mload32 (l_mem l) 0x80f4, mload32 (l_mem l) 0x80f8, l_calls l)).

Definition run (x lib : list Z) (depth : nat) : outcome (option unit * loader) :=
  loader_main (H := two_files x lib) depth path_x [path_x] start.

(** The word for f is its address in the library, the one for g is as it was; and
    the init function of the executable is called before that of the library. *)
Lemma loader_runs :
  summary (run (program ET_EXEC false) (library false) 2) = Ret (Some (Ret 0x6000040, Ret 0x55, [0x8111; 0x6000222; 0x8abc])).
Proof. vm_compute. reflexivity. Qed.

(** * Witnesses *)

(** The loader before it relocates: the executable is the object at 0x100, the
    library the one at 0x200. *)
Definition loaded : loader :=
  match load_obj (H := two_files (program ET_EXEC false) (library false)) 2 false 0x100 path_x (l_set_root (l_set_obj start 0x100 new_object) 0x100) with
  | Ret (Some _, l) => l
  | _ => start
  end.

Definition exec_obj : elf_object := match l_objs loaded !! 0x100 with Some o => o | None => new_object end.

Definition lib_obj : elf_object := match l_objs loaded !! 0x200 with Some o => o | None => new_object end.

Lemma exec_at : l_objs loaded !! 0x100 = Some exec_obj.
Proof. vm_compute. reflexivity. Qed.

(** f is found in the library. *)
Lemma resolve_preference_witness : resolve_dep_sym loaded 0x100 [102] = Ret 0x6000040.
Proof.
  rewrite (resolve_preference loaded 0x100 exec_obj [102] [Some (1, 0x6000040)] None exec_obj None).
  - reflexivity.
  - exact exec_at.
  - replace (o_deps exec_obj) with [0x200] by (vm_compute; reflexivity). repeat constructor. exists lib_obj.
    split; [vm_compute; reflexivity |].
    replace ((o_symbols lib_obj =? 0) || (o_strtab lib_obj =? 0)) with false by (vm_compute; reflexivity).
    exists (Some (Sym 3 0x40 0 0x10)). split; vm_compute; reflexivity.
  - vm_compute. reflexivity.
  - replace (l_root loaded) with 0x100 by (vm_compute; reflexivity). exact exec_at.
  - vm_compute. reflexivity.
Defined.

(** The memory of the executable and the library without the two words. *)
Definition tables : gmap Z Z := filter (fun x => x.1 < 0x80f4 \/ 0x80fc <= x.1) (l_mem loaded).

Lemma relocate_correct_witness : exists m, relocate 0x100 loaded = Ret (Some tt, l_set_mem loaded m) /\ mload32 m 0x80f4 = Ret 0x6000040.
Proof.
  destruct (relocate_correct loaded 0x100 exec_obj tables [Some (0x80f4, fun _ => 0x6000040); None] []) as (m & Hr & Hp & _).
  - exact exec_at.
  - apply map_filter_subseteq.
  - vm_compute. reflexivity.
  - intros _. vm_compute. discriminate.
  - replace (info exec_obj DT_REL) with 0x80e4 by (vm_compute; reflexivity). intros [| [| i]] e Hi; [| | discriminate].
    + injection Hi as <-. replace 0x80f4 with (relptr exec_obj 0x80f4) by (vm_compute; reflexivity).
      apply (rel_symbol loaded 0x100 exec_obj tables _ 0x80f4 0x106 (Sym 3 0 0 0x10) [102] 0x6000040); try (vm_compute; reflexivity).
      * vm_compute. discriminate.
      * discriminate.
      * left. split; [vm_compute; reflexivity | reflexivity].
    + injection Hi as <-.
      apply (rel_undefined loaded 0x100 exec_obj tables _ 0x80f8 0x206 (Sym 5 0 0 0x20) [103]); try (vm_compute; reflexivity).
      * vm_compute. discriminate.
      * vm_compute. discriminate.
  - replace (nz (info exec_obj DT_JMPREL) && is_dyn exec_obj) with false by (vm_compute; reflexivity). reflexivity.
  - intros i t Hi. discriminate.
  - cbn. repeat constructor.
  - cbn. apply List.Forall_cons; [split | apply List.Forall_nil].
    + exists 0. vm_compute. reflexivity.
    + intros k [b Hb]. apply map_lookup_filter_Some in Hb as [_ Hb]. unfold outside. cbn [fst] in *. lia.
  - exists m. split; [exact Hr |]. inversion_clear Hp as [| ? ? Hp1 _]. destruct Hp1 as (old & _ & Hp1). exact Hp1.
Defined.

(** * Where the loader falls short *)

(** A library is only loaded when its entry comes before all others in the dynamic
    section: here the loader exits because f is not there. *)
Lemma late_library_ignored : summary (run (program ET_EXEC true) (library false) 2) = Ret None.
Proof. vm_compute. reflexivity. Qed.

(** A library that needs itself is loaded over and over again. *)
Lemma cycle_never_ends : run (program ET_EXEC false) (library true) 12 = Spin.
Proof. vm_compute. reflexivity. Qed.

(** A position independent executable is entered at the address in its header, not
    where it has been loaded. *)
Lemma pie_entry_wrong :
  match run (elf_file ET_DYN 0xabc 0 [] []) [] 2 with
  | Ret (Some _, l) => o_base_addr <$> l_objs l !! 0x100 = Some 0x6000000 /\ l_calls l = [0xabc]
  | _ => False
  end.
Proof. vm_compute. split; reflexivity. Qed.

(** A relative reference to a symbol gets its address, not the distance to it. *)
Lemma pc32_not_relative m p target s old : mload32 m p = Ret old ->
  exists m', apply_rel m R_386_PC32 p target s = Ret (Some m') /\ mload32 m' p = Ret (u32 (old + target)).
Proof.
  intros Ho. unfold apply_rel. cbn [Z.eqb orb R_386_GLOB_DAT R_386_32 R_386_PC32 Pos.eqb]. rewrite Ho, bind_Ret.
  destruct (mstore32_spec m p (old + target) old Ho) as (m' & -> & Hs & _). exists m'. split; [done | exact Hs].
Qed.
