(* ===== verification/Fork.v ===== *)
(** The life of a task before it ends: src/src/tasks/task.c (its end is in
    Sched.v, exit and setid are in Task.v): creating a task, fork, execve, chdir,
    strace, and loading the loader at boot.

    The tasks are those of Task.v; the fields of [task_t] nothing there uses are
    the record [more], kept by the same address.  Files are opened with the
    functions of Vfs.v and Pipe.v.  What else the code calls, virtual memory
    (Vm.v, VmCopy.v), the heap, sysfs and the set-up of the start data
    (Execdata.v), is the class [TaskEnv]. *)
From stdpp Require Import base numbers list gmap.
From Stdlib Require Import ZArith Lia Bool.
From S2P Require Import Prelude Str Buffer Path Mount Vfs Pipe DList Task Sched Vm TaskMem Execdata.

Open Scope Z_scope.

Definition VFS_NAME_MAX : Z := 255.
Definition R_OK : Z := 4.
Definition X_OK : Z := 1.
Definition vfs_mode_to_filetype (mode : Z) : Z := Z.land mode 0xf000.
Definition GDT_SEG_CODE_PL3 : Z := 0x1b.
Definition GDT_SEG_DATA_PL3 : Z := 0x23.
Definition EFLAGS_IF : Z := 0x200.
(** Where the loader goes, and the first end of the heap. *)
Definition LOADER_LOCATION : Z := 0x500000.
Definition SBRK_START : Z := 0xf000000.

(** [isf_t]; its general registers are the [regs] of the task. *)
Record frame : Type := Frame { fr_sse : list Z; fr_cr3 : Z; fr_cr2 : Z; fr_ds : Z; fr_esp : Z; fr_err_code : Z }.
Definition zero_frame : frame := Frame (replicate 512 0) 0 0 0 0 0.
Definition zero_regs : regs := Regs 0 0 0 0 0 0 0.

(** The rest of [task_t]; [m_state] is the pointer [state], [m_frame] what it
    points to. *)
Record more : Type := More {
  m_name : cstring;
  m_cwd : cstring;
  m_binary_path : cstring;
  m_argv : list cstring;
  m_environ : list cstring;
  m_files : list vfs_file;
  m_state : Z;
  m_frame : frame;
  m_entry : Z;
  m_sbrk : Z;
  m_stack_size : Z;
  m_sysfs_file : Z;
}.

(** A task after [zmalloc]. *)
Definition zero_task : task :=
  Task 0 0 0 0 0 0 0 TERMINATED 0 (replicate 33 (Sigaction 0 0 0)) 0 0 0 0 false 0 0 0 0 0 zero_regs ∅.
Definition zero_more : more :=
  More [] [] [] [] [] (replicate (Z.to_nat CONFIG_VFS_MAX_OPENFILES) zero_file) 0 zero_frame 0 0 0 0.

Definition m_set_cwd (m : more) x : more := More (m_name m) x (m_binary_path m) (m_argv m) (m_environ m) (m_files m) (m_state m) (m_frame m) (m_entry m) (m_sbrk m) (m_stack_size m) (m_sysfs_file m).
Definition m_set_path (m : more) x : more := More (m_name m) (m_cwd m) x (m_argv m) (m_environ m) (m_files m) (m_state m) (m_frame m) (m_entry m) (m_sbrk m) (m_stack_size m) (m_sysfs_file m).
Definition m_set_files (m : more) x : more := More (m_name m) (m_cwd m) (m_binary_path m) (m_argv m) (m_environ m) x (m_state m) (m_frame m) (m_entry m) (m_sbrk m) (m_stack_size m) (m_sysfs_file m).
Definition m_set_state (m : more) x (f : frame) : more := More (m_name m) (m_cwd m) (m_binary_path m) (m_argv m) (m_environ m) (m_files m) x f (m_entry m) (m_sbrk m) (m_stack_size m) (m_sysfs_file m).
Definition m_set_memory (m : more) entry sbrk stack : more := More (m_name m) (m_cwd m) (m_binary_path m) (m_argv m) (m_environ m) (m_files m) (m_state m) (m_frame m) entry sbrk stack (m_sysfs_file m).
Definition m_set_sysfs (m : more) x : more := More (m_name m) (m_cwd m) (m_binary_path m) (m_argv m) (m_environ m) (m_files m) (m_state m) (m_frame m) (m_entry m) (m_sbrk m) (m_stack_size m) x.

(** Fields of [task]: the ids, the kernel stack, the observer, the terminal, the
    registers. *)
Definition t_set_ids (t : task) (uid gid euid egid : Z) : task :=
  Task (t_pid t) uid gid euid egid (t_parent t) (t_qentry t) (t_state t) (t_exit_code t) (t_handlers t) (t_mask t) (t_wait_for t)
    (t_wait_res_pid t) (t_stat_loc t) (t_interrupt_yield t) (t_sleep_until t) (t_ctty t) (t_strace_observer t) (t_strace_fd t)
    (t_kernel_stack t) (t_regs t) (t_umem t).
Definition t_set_ctty (t : task) (c : Z) : task :=
  Task (t_pid t) (t_uid t) (t_gid t) (t_euid t) (t_egid t) (t_parent t) (t_qentry t) (t_state t) (t_exit_code t) (t_handlers t)
    (t_mask t) (t_wait_for t) (t_wait_res_pid t) (t_stat_loc t) (t_interrupt_yield t) (t_sleep_until t) c (t_strace_observer t)
    (t_strace_fd t) (t_kernel_stack t) (t_regs t) (t_umem t).
Definition t_set_strace (t : task) (observer fd : Z) : task :=
  Task (t_pid t) (t_uid t) (t_gid t) (t_euid t) (t_egid t) (t_parent t) (t_qentry t) (t_state t) (t_exit_code t) (t_handlers t)
    (t_mask t) (t_wait_for t) (t_wait_res_pid t) (t_stat_loc t) (t_interrupt_yield t) (t_sleep_until t) (t_ctty t) observer fd
    (t_kernel_stack t) (t_regs t) (t_umem t).
Definition t_set_kernel (t : task) (stack : Z) (r : regs) : task :=
  Task (t_pid t) (t_uid t) (t_gid t) (t_euid t) (t_egid t) (t_parent t) (t_qentry t) (t_state t) (t_exit_code t) (t_handlers t)
    (t_mask t) (t_wait_for t) (t_wait_res_pid t) (t_stat_loc t) (t_interrupt_yield t) (t_sleep_until t) (t_ctty t)
    (t_strace_observer t) (t_strace_fd t) stack r (t_umem t).

Definition TASK_NAME : cstring := [116; 97; 115; 107].

(** What the code calls in other parts of the kernel.  The memory context of a
    task is part of it: it is known by the task's address. *)
Class TaskEnv (E : Type) : Type := {
  (* [kmalloc]; 0 when it fails *)
  te_kmalloc : E -> Z -> outcome (Z * E);
  te_kfree : E -> Z -> outcome E;
  (* [vm_new(&task->vmem, NULL)] *)
  te_vm_new : E -> Z -> outcome E;
  (* [vm_alloc_at(&task->vmem, NULL, pages, addr, phys, flags)] *)
  te_alloc_at : E -> Z -> Z -> Z -> Z -> Z -> outcome (Z * E);
  (* [vm_alloc_many] on the kernel, VM_RW, and the task, VM_FREE: the address in
     both, with the two ranges to free it with *)
  te_alloc_many : E -> Z -> Z -> outcome (option Z * E);
  te_free_many : E -> Z -> outcome E;
  (* [vm_clone(&task->vmem, &source->vmem)] *)
  te_vm_clone : E -> Z -> Z -> outcome (Z * E);
  (* [vm_copy(&task->vmem, 0x500000, NULL, &loader_alloc, flags)] *)
  te_copy_loader : E -> Z -> Z -> Z -> outcome (Z * E);
  te_pagedir : E -> Z -> outcome (Z * E);
  te_setup_execdata : E -> Z -> exec_task -> outcome E;
  (* words at an address of the task, through [vm_map] and [vm_free] *)
  te_poke : E -> Z -> Z -> list Z -> outcome E;
  (* [sysfs_add_file] with the task as its meta, [sysfs_rm_file] *)
  te_sysfs_add : E -> cstring -> Z -> outcome (Z * E);
  te_sysfs_rm : E -> Z -> outcome E;
  (* [task_copy_strings] (TaskMem.v); it can signal the task *)
  te_copy_strings : kstate -> E -> Z -> Z -> outcome (option (list cstring) * kstate * E);
  (* [vm_alloc] of the loader's memory in the kernel *)
  te_alloc_loader : E -> Z -> outcome (Z * E);
}.

Section Fork.
Context {P E : Type} `{PageSource P} `{VfsBackend (pipe_world P)} `{TaskEnv E}.
(** UL_VISIBLE_START and UL_VISIBLE_SIZE, which the linker sets, and
    [sizeof(task_t)]. *)
Context (UL_VISIBLE_START UL_VISIBLE_SIZE SIZEOF_TASK : Z).

(** The kernel; [fw_kernel_files] is the file table without a task. *)
Record fork_world : Type := ForkWorld {
  fw_k : kstate;
  fw_more : gmap Z more;
  fw_highest_pid : Z;
  fw_kernel_files : list vfs_file;
  fw_mounts : mounts;
  fw_world : pipe_world P;
  fw_env : E;
}.

Implicit Types s : fork_world.

Definition fw_set_k s x := ForkWorld x (fw_more s) (fw_highest_pid s) (fw_kernel_files s) (fw_mounts s) (fw_world s) (fw_env s).
Definition fw_set_more s x := ForkWorld (fw_k s) x (fw_highest_pid s) (fw_kernel_files s) (fw_mounts s) (fw_world s) (fw_env s).
Definition fw_set_pid s x := ForkWorld (fw_k s) (fw_more s) x (fw_kernel_files s) (fw_mounts s) (fw_world s) (fw_env s).
Definition fw_set_env s x := ForkWorld (fw_k s) (fw_more s) (fw_highest_pid s) (fw_kernel_files s) (fw_mounts s) (fw_world s) x.

(** [sc_errno = e] *)
Definition fw_set_errno s (e : Z) := fw_set_k s (ks_set_errno (fw_k s) e).

Definition load_more s (p : Z) : outcome more := match fw_more s !! p with Some m => Ret m | None => Fault end.
Definition upd_more s (p : Z) (g : more -> more) : outcome fork_world :=
  m ← load_more s p; Ret (fw_set_more s (<[p := g m]> (fw_more s))).
Definition upd_t s (p : Z) (g : task -> task) : outcome fork_world := k ← upd_task (fw_k s) p g; Ret (fw_set_k s k).

(** A call of the virtual file system for the task at [p]: it works on the
    task's files. *)
Definition with_vfs {A} s (p : Z) (f : vfs_state (pipe_world P) -> outcome (A * vfs_state (pipe_world P))) : outcome (A * fork_world) :=
  t ← load_task (fw_k s) p;
  m ← load_more s p;
  '(a, st) ← f (State true (m_files m) (m_cwd m) (t_ctty t) (t_euid t) (ks_errno (fw_k s)) (fw_mounts s) (fw_world s));
  k ← upd_task (ks_set_errno (fw_k s) (vs_errno st)) p (fun t => t_set_ctty t (vs_ctty st));
  Ret (a, ForkWorld k (<[p := m_set_files m (vs_files st)]> (fw_more s)) (fw_highest_pid s) (fw_kernel_files s)
            (vs_mounts st) (vs_world st) (fw_env s)).

(** * Creating tasks *)

(** 0 is NULL.  The sizes of the arrays of pointers are those of [environ] and
    [argv]; the strings are copies. *)
Definition alloc_task s (parent pid : Z) (name : cstring) (environ argv : list cstring) : outcome (Z * fork_world) :=
  '(task, e) ← te_kmalloc (fw_env s) SIZEOF_TASK;
  if task =? 0 then Fault else
  e ← te_vm_new e task;
  '(a, e) ← te_alloc_at e task (RDIV UL_VISIBLE_SIZE PAGE_SIZE) UL_VISIBLE_START UL_VISIBLE_START VM_FIXED;
  let s := fw_set_env s e in
  if a =? 0 then Ret (0, s) else
  let '(pid, s) := if nz pid then (pid, s) else let h := u32 (fw_highest_pid s + 1) in (h, fw_set_pid s h) in
  cwd ← (if nz parent then m ← load_more s parent; Ret (m_cwd m) else Ret [SLASH]);
  '(p1, e) ← te_kmalloc (fw_env s) (4 * Z.of_nat (length environ));
  '(p2, e) ← te_kmalloc e (4 * Z.of_nat (length argv));
  let s := fw_set_env s e in
  if (p1 =? 0) || (p2 =? 0) then Ret (0, s) else
  '(file, e) ← te_sysfs_add (fw_env s) (take 9 (TASK_NAME ++ print_d pid)) task;
  if file =? 0 then Fault else
  let t := t_set_parent (t_set_state (Task pid 0 0 0 0 0 0 TERMINATED 0 (t_handlers zero_task) 0 0 0 0 false 0 0 0 0 0 zero_regs ∅) RUNNING) parent in
  let m := More (take (Z.to_nat (VFS_NAME_MAX - 1)) name) cwd [] argv environ (m_files zero_more) 0 zero_frame 0 0 0 file in
  let s := fw_set_env s e in
  let s := fw_set_more s (<[task := m]> (fw_more s)) in
  Ret (task, fw_set_k s (ks_set_tasks (fw_k s) (<[task := t]> (ks_tasks (fw_k s))))).

(** [kfree(task)]: the pointer is no longer valid. *)
Definition free_task s (task : Z) : outcome fork_world :=
  e ← te_kfree (fw_env s) task;
  let s := fw_set_env s e in
  let s := fw_set_more s (delete task (fw_more s)) in
  Ret (fw_set_k s (ks_set_tasks (fw_k s) (delete task (ks_tasks (fw_k s))))).

Definition map_task s (task : Z) : outcome (Z * fork_world) :=
  '(r, e) ← te_alloc_many (fw_env s) task 1;
  let s := fw_set_env s e in
  match r with
  | None => s ← free_task s task; Ret (-1, s)
  | Some state =>
    s ← upd_more s task (fun m => m_set_state m state zero_frame);
    s ← upd_t s task (fun t => t_set_kernel t (t_kernel_stack t) zero_regs);
    '(r, e) ← te_alloc_many (fw_env s) task KERNEL_STACK_PAGES;
    let s := fw_set_env s e in
    match r with
    | None =>
      e ← te_free_many (fw_env s) state;
      s ← free_task (fw_set_env s e) task;
      Ret (-1, s)
    | Some stack => s ← upd_t s task (fun t => t_set_kernel t stack (t_regs t)); Ret (0, s)
    end
  end.

(** What [task_setup_execdata] reads of the task. *)
Definition exec_of (s : fork_world) (t : task) (m : more) : exec_task :=
  ExecTask (t_pid t) (if nz (t_parent t) then default 0 (t_pid <$> ks_tasks (fw_k s) !! t_parent t) else 0)
    (t_uid t) (t_gid t) (t_euid t) (t_egid t) (map (fun x => x ++ [0]) (m_argv m)) (map (fun x => x ++ [0]) (m_environ m))
    (take (Z.to_nat VFS_PATH_MAX) (m_binary_path m ++ replicate (Z.to_nat VFS_PATH_MAX) 0)).

Definition setup_execdata s (task : Z) : outcome fork_world :=
  t ← load_task (fw_k s) task;
  m ← load_more s task;
  e ← te_setup_execdata (fw_env s) task (exec_of s t m);
  Ret (fw_set_env s e).

Definition DEV_STDIN : cstring := [47; 100; 101; 118; 47; 115; 116; 100; 105; 110].
Definition DEV_STDOUT : cstring := [47; 100; 101; 118; 47; 115; 116; 100; 111; 117; 116].
Definition DEV_STDERR : cstring := [47; 100; 101; 118; 47; 115; 116; 100; 101; 114; 114].

(** The last part of [task_new]: the state the task starts in. *)
Definition start_state s (task : Z) : outcome fork_world :=
  '(cr3, e) ← te_pagedir (fw_env s) task;
  let esp := TASK_STACK_LOCATION - SIZEOF_IRET in
  m ← load_more s task;
  let f := m_frame m in
  s ← upd_more (fw_set_env s e) task (fun m =>
        m_set_state m (m_state m) (Frame (fr_sse f) cr3 (fr_cr2 f) GDT_SEG_DATA_PL3 esp (fr_err_code f)));
  e ← te_poke (fw_env s) task esp [m_entry m; GDT_SEG_CODE_PL3; EFLAGS_IF; TASK_STACK_LOCATION; GDT_SEG_DATA_PL3];
  Ret (fw_set_env s e).

Definition task_new s (parent pid : Z) (name : cstring) (environ argv : list cstring) : outcome (Z * fork_world) :=
  '(task, s) ← alloc_task s parent pid name environ argv;
  if task =? 0 then Ret (0, s) else
  '(r, s) ← map_task s task;
  if nz r then Ret (0, s) else
  let stack_size := PAGE_SIZE * 2 in
  s ← upd_more s task (fun m => m_set_memory m (m_entry m) (m_sbrk m) stack_size);
  '(a, e) ← te_alloc_at (fw_env s) task 2 (TASK_STACK_LOCATION - stack_size) 0
              (Z.lor VM_USER (Z.lor VM_RW (Z.lor VM_FREE (Z.lor VM_TFORK VM_FIXED))));
  let s := fw_set_env s e in
  if a =? 0 then Ret (0, s) else
  '(_, s) ← with_vfs s task (fun st => vfs_open st DEV_STDIN O_RDONLY);
  '(_, s) ← with_vfs s task (fun st => vfs_open st DEV_STDOUT O_WRONLY);
  '(_, s) ← with_vfs s task (fun st => vfs_open st DEV_STDERR O_WRONLY);
  m ← load_more s task;
  abs_path ← vfs_normalize_path name (m_cwd m);
  s ← upd_more s task (fun m => m_set_path m (take (Z.to_nat (VFS_PATH_MAX - 1)) abs_path));
  '(r, e) ← te_copy_loader (fw_env s) task LOADER_LOCATION (Z.lor VM_USER (Z.lor VM_RW (Z.lor VM_TFORK VM_FREE)));
  let s := fw_set_env s e in
  if r <? 0 then Ret (0, s) else
  s ← upd_more s task (fun m => m_set_memory m LOADER_LOCATION SBRK_START (m_stack_size m));
  s ← setup_execdata s task;
  s ← start_state s task;
  Ret (task, s).

(** * fork *)

(** [memcpy(dest, src, 4 * n)] of words of the kernel's memory. *)
Fixpoint copy_words (n : nat) (m : gmap Z Z) (dest src : Z) : gmap Z Z :=
  match n with
  | O => m
  | S n => copy_words n (<[dest := load_word m src]> m) (dest + 4) (src + 4)
  end.

(** The words of a kernel stack. *)
Definition stack_words : nat := Z.to_nat (KERNEL_STACK_SIZE / 4).

(** The state the child continues with: [r] and [f] are the registers of the
    system call, [stack] and [old] the kernel stacks of child and parent. *)
Definition child_frame (f : frame) (cr3 stack old : Z) : frame :=
  Frame (fr_sse f) cr3 (fr_cr2 f) (fr_ds f) (u32 (stack + (fr_esp f - old))) (fr_err_code f).
Definition child_regs (r : regs) : regs := Regs (edi r) (esi r) (ebp r) 0 (edx r) (ecx r) 0.

(** The part of [_fork] after the memory has been cloned. *)
Definition fork_state s (to_fork task : Z) (r : regs) (f : frame) : outcome fork_world :=
  x ← load_task (fw_k s) to_fork;
  t ← load_task (fw_k s) task;
  let k := fw_k s in
  let s := fw_set_k s (ks_set_kmem k (copy_words stack_words (ks_kmem k) (t_kernel_stack t) (t_kernel_stack x))) in
  '(cr3, e) ← te_pagedir (fw_env s) task;
  s ← upd_more (fw_set_env s e) task (fun m => m_set_state m (m_state m) (child_frame f cr3 (t_kernel_stack t) (t_kernel_stack x)));
  s ← upd_t s task (fun t => t_set_kernel t (t_kernel_stack t) (child_regs r));
  '(entry, e) ← te_kmalloc (fw_env s) 16;
  k ← scheduler_add (fw_k s) entry task;
  Ret (fw_set_k (fw_set_env s e) k).

Definition _fork s (to_fork : Z) (r : regs) (f : frame) : outcome (Z * fork_world) :=
  x ← load_task (fw_k s) to_fork;
  mx ← load_more s to_fork;
  '(task, s) ← alloc_task s to_fork 0 (m_name mx) (m_environ mx) (m_argv mx);
  (* NULL is not checked for: [upd_t] faults *)
  s ← upd_t s task (fun t => t_set_ctty (t_set_ids t (t_uid x) (t_gid x) (t_euid x) (t_egid x)) (t_ctty x));
  s ← upd_more s task (fun m => m_set_files (m_set_path (m_set_cwd
        (m_set_memory m (m_entry m) (m_sbrk mx) (m_stack_size mx)) (m_cwd mx)) (m_binary_path mx)) (m_files mx));
  '(c, e) ← te_vm_clone (fw_env s) task to_fork;
  let s := fw_set_env s e in
  if nz c then Ret (0, s) else
  s ← setup_execdata s task;
  '(c, s) ← map_task s task;
  if nz c then Ret (0, s) else
  s ← fork_state s to_fork task r f;
  Ret (task, s).

Definition task_fork s (to_fork : Z) (r : regs) (f : frame) : outcome (Z * fork_world) :=
  '(task, s) ← _fork s to_fork r f;
  if nz task then t ← load_task (fw_k s) task; Ret (t_pid t, s) else Ret (-1, s).

(** * execve *)

(** The loop over the files: an open one replaces what the new task has. *)
Definition inherit_files (new old : list vfs_file) : list vfs_file :=
  zip_with (fun n f => if nz (f_refs f) then f else n) new old.

Definition task_execve s (task : Z) (path : cstring) (argv env : Z) : outcome (Z * fork_world) :=
  '(a, k, e) ← te_copy_strings (fw_k s) (fw_env s) task argv;
  '(v, k, e) ← te_copy_strings k e task env;
  let s := fw_set_env (fw_set_k s k) e in
  match a, v with
  | Some argv, Some environ =>
    m ← load_more s task;
    s ← (if nz (m_sysfs_file m) then e ← te_sysfs_rm (fw_env s) (m_sysfs_file m); Ret (fw_set_env s e) else Ret s);
    s ← upd_more s task (fun m => m_set_sysfs m 0);
    t ← load_task (fw_k s) task;
    '(new, s) ← task_new s (t_parent t) (t_pid t) path environ argv;
    (* NULL is not checked for *)
    t ← load_task (fw_k s) task;
    m ← load_more s task;
    s ← upd_more s new (fun n => m_set_files (m_set_cwd n (m_cwd m)) (inherit_files (m_files n) (m_files m)));
    s ← upd_t s new (fun n => t_set_ctty (t_set_strace (t_set_ids n (t_uid t) (t_gid t) (t_euid t) (t_egid t))
          (t_strace_observer t) (t_strace_fd t)) (t_ctty t));
    '(entry, e) ← te_kmalloc (fw_env s) 16;
    k ← scheduler_add (fw_k s) entry new;
    k ← upd_task k task (fun t => t_set_yield (t_set_state t REPLACED) true);
    Ret (0, fw_set_k (fw_set_env s e) k)
  | _, _ => Ret (0, s)
  end.

(** * chdir and strace *)

Definition task_chdir s (task : Z) (dir : cstring) : outcome (Z * fork_world) :=
  '(r, s) ← with_vfs s task (fun st => vfs_access st dir (Z.lor R_OK X_OK));
  if r <? 0 then Ret (-1, s) else
  '(fd, s) ← with_vfs s task (fun st => vfs_open st dir O_RDONLY);
  if fd =? -1 then Ret (-1, s) else
  '(r, st, s) ← with_vfs s task (fun st => vfs_fstat st fd);
  match st with
  | Some stat =>
    if nz r then '(_, s) ← with_vfs s task (fun st => vfs_close st fd); Ret (-1, fw_set_errno s ENOENT)
    else if negb (vfs_mode_to_filetype (st_mode stat) =? FT_IFDIR) then
      '(_, s) ← with_vfs s task (fun st => vfs_close st fd); Ret (-1, fw_set_errno s ENOTDIR)
    else
      '(i, s) ← with_vfs s task (fun st => r ← vfs_get_from_id st fd; Ret (r, st));
      match i with
      | None => Fault
      | Some i =>
        m ← load_more s task;
        f ← aload (m_files m) (Z.of_nat i);
        s ← upd_more s task (fun m => m_set_cwd m (f_path f));
        '(_, s) ← with_vfs s task (fun st => vfs_close st fd);
        Ret (0, s)
      end
  | None => '(_, s) ← with_vfs s task (fun st => vfs_close st fd); Ret (-1, fw_set_errno s ENOENT)
  end.

(** [p] is the address of the new pipe. *)
Definition task_strace s (task : Z) (r : regs) (f : frame) : outcome (Z * fork_world) :=
  '(fork, s) ← _fork s task r f;
  if fork =? 0 then Ret (-1, s) else
  '(p, e) ← te_kmalloc (fw_env s) 12;
  '(c, ends, s) ← with_vfs (fw_set_env s e) task (fun st => vfs_pipe st p);
  match ends with
  | Some (rd, wr) =>
    if nz c then Ret (-1, s) else
    s ← upd_t s fork (fun t => t_set_strace t task wr);
    Ret (rd, s)
  | None => Ret (-1, s)
  end.

(** * Boot *)

Definition LOADER_PATH : cstring :=
  [47; 117; 115; 114; 47; 108; 105; 98; 101; 120; 101; 99; 47; 115; 121; 115; 116; 101; 109; 47; 120; 101; 108; 105; 120; 45; 108; 111; 97; 100; 101; 114].

(** The loader is read to kernel memory; the result is its address. *)
Definition task_init s : outcome (Z * fork_world) :=
  let put st := ForkWorld (ks_set_errno (fw_k s) (vs_errno st)) (fw_more s) (fw_highest_pid s) (vs_files st) (vs_mounts st) (vs_world st) in
  '(fd, st) ← vfs_open (State false (fw_kernel_files s) [] 0 0 (ks_errno (fw_k s)) (fw_mounts s) (fw_world s)) LOADER_PATH O_RDONLY;
  if fd <? 0 then Panic else
  '(r, stat, st) ← vfs_fstat st fd;
  if r <? 0 then Panic else
  let sz := match stat with Some x => st_size x | None => 0 end in
  '(a, e) ← te_alloc_loader (fw_env s) (RDIV sz PAGE_SIZE);
  if a =? 0 then Panic else
  '(n, st) ← vfs_read st fd a sz;
  if negb (n =? sz) then Panic else Ret (a, put st e).

End Fork.

Arguments fork_world P E : clear implicits.
