(* ===== verification/ForkSpec.v ===== *)
(** Tasks come and go (Fork.v): fork makes a child that continues where its
    parent is, and asks the other parts of the kernel for exactly what it needs:
    among others, once, for a clone of the parent's memory, whose effect is proved
    of the code of vm.c in VmCopySpec.v. *)
From stdpp Require Import base numbers list gmap.
From Stdlib Require Import ZArith Lia Bool.
From S2P Require Import Prelude Str Buffer Path Mount Vfs Pipe DList Task Sched SchedSpec Vm TaskMem Execdata Fork.

Open Scope Z_scope.

Section ForkSpec.
Context {P E : Type} `{PageSource P} `{VfsBackend (pipe_world P)} `{TaskEnv E}.
Context (UL_VISIBLE_START UL_VISIBLE_SIZE SIZEOF_TASK : Z).
Implicit Types s : fork_world P E.

(** What a fork gets from the other parts: the new task, its file in /sys, its state,
    its kernel stack, its page directory and its entry in the queue; [rq_env i] is the
    environment after [i] requests. *)
Record requests : Type := Requests {
  rq_task : Z;
  rq_file : Z;
  rq_state : Z;
  rq_stack : Z;
  rq_cr3 : Z;
  rq_entry : Z;
  rq_env : nat -> E;
}.

Definition next_pid s : Z := u32 (fw_highest_pid s + 1).

(** The start data of the child: those of the parent, with the pids of both. *)
Definition child_execdata s (x : task) (mx : more) : exec_task :=
  ExecTask (next_pid s) (t_pid x) (t_uid x) (t_gid x) (t_euid x) (t_egid x)
    (map (fun a => a ++ [0]) (m_argv mx)) (map (fun a => a ++ [0]) (m_environ mx))
    (take (Z.to_nat VFS_PATH_MAX) (m_binary_path mx ++ replicate (Z.to_nat VFS_PATH_MAX) 0)).

(** The twelve requests a fork makes, in their order, are all granted, and the
    addresses the heap gives are not in use as a task or as an entry of the queue. *)
Record served s (p : Z) (x : task) (mx : more) (q : requests) : Prop := {
  sv_start : rq_env q 0 = fw_env s;
  sv_task : te_kmalloc (rq_env q 0) SIZEOF_TASK = Ret (rq_task q, rq_env q 1);
  sv_context : te_vm_new (rq_env q 1) (rq_task q) = Ret (rq_env q 2);
  sv_visible : exists a, te_alloc_at (rq_env q 2) (rq_task q) (RDIV UL_VISIBLE_SIZE PAGE_SIZE) UL_VISIBLE_START UL_VISIBLE_START VM_FIXED =
    Ret (a, rq_env q 3) /\ a <> 0;
  sv_environ : exists a, te_kmalloc (rq_env q 3) (4 * Z.of_nat (length (m_environ mx))) = Ret (a, rq_env q 4) /\ a <> 0;
  sv_argv : exists a, te_kmalloc (rq_env q 4) (4 * Z.of_nat (length (m_argv mx))) = Ret (a, rq_env q 5) /\ a <> 0;
  sv_sysfs : te_sysfs_add (rq_env q 5) (take 9 (TASK_NAME ++ print_d (next_pid s))) (rq_task q) = Ret (rq_file q, rq_env q 6);
  sv_clone : te_vm_clone (rq_env q 6) (rq_task q) p = Ret (0, rq_env q 7);
  sv_execdata : te_setup_execdata (rq_env q 7) (rq_task q) (child_execdata s x mx) = Ret (rq_env q 8);
  sv_state : te_alloc_many (rq_env q 8) (rq_task q) 1 = Ret (Some (rq_state q), rq_env q 9);
  sv_stack : te_alloc_many (rq_env q 9) (rq_task q) KERNEL_STACK_PAGES = Ret (Some (rq_stack q), rq_env q 10);
  sv_pagedir : te_pagedir (rq_env q 10) (rq_task q) = Ret (rq_cr3 q, rq_env q 11);
  sv_entry : te_kmalloc (rq_env q 11) 16 = Ret (rq_entry q, rq_env q 12);
  sv_task_new : rq_task q <> 0 /\ ks_tasks (fw_k s) !! rq_task q = None;
  sv_file_new : rq_file q <> 0;
  sv_entry_new : rq_entry q <> 0 /\ ks_qes (fw_k s) !! rq_entry q = None;
}.

(** The task [alloc_task] makes. *)
Definition new_task (pid parent : Z) : task :=
  Task pid 0 0 0 0 parent 0 RUNNING 0 (t_handlers zero_task) 0 0 0 0 false 0 0 0 0 0 zero_regs ∅.
Definition new_more (name cwd : cstring) (environ argv : list cstring) (file : Z) : more :=
  More (take (Z.to_nat (VFS_NAME_MAX - 1)) name) cwd [] argv environ (m_files zero_more) 0 zero_frame 0 0 0 file.

Lemma alloc_task_spec s p x mx q :
  served s p x mx q -> p <> 0 -> fw_more s !! p = Some mx ->
  alloc_task UL_VISIBLE_START UL_VISIBLE_SIZE SIZEOF_TASK s p 0 (m_name mx) (m_environ mx) (m_argv mx) =
    Ret (rq_task q, ForkWorld (ks_set_tasks (fw_k s) (<[rq_task q := new_task (next_pid s) p]> (ks_tasks (fw_k s))))
      (<[rq_task q := new_more (m_name mx) (m_cwd mx) (m_environ mx) (m_argv mx) (rq_file q)]> (fw_more s)) (next_pid s)
      (fw_kernel_files s) (fw_mounts s) (fw_world s) (rq_env q 6)).
Proof.
  intros Hq Hp Hmp. unfold alloc_task. rewrite <- (sv_start _ _ _ _ _ Hq), (sv_task _ _ _ _ _ Hq), bind_Ret.
  destruct (sv_task_new _ _ _ _ _ Hq) as [Ht0 _]. rewrite (proj2 (Z.eqb_neq _ 0) Ht0), (sv_context _ _ _ _ _ Hq), bind_Ret.
  destruct (sv_visible _ _ _ _ _ Hq) as (a & -> & Ha). rewrite bind_Ret, (proj2 (Z.eqb_neq _ 0) Ha).
  cbn [nz Z.eqb negb fw_set_env fw_highest_pid]. rewrite (proj2 (nz_true _) Hp).
  unfold load_more. cbn [fw_set_pid fw_set_env fw_more fw_env]. rewrite Hmp, !bind_Ret.
  destruct (sv_environ _ _ _ _ _ Hq) as (p1 & -> & Hp1). rewrite bind_Ret. destruct (sv_argv _ _ _ _ _ Hq) as (p2 & -> & Hp2). rewrite bind_Ret.
  rewrite (proj2 (Z.eqb_neq _ 0) Hp1), (proj2 (Z.eqb_neq _ 0) Hp2). cbn [orb fw_set_env fw_env].
  fold (next_pid s). by rewrite (sv_sysfs _ _ _ _ _ Hq), bind_Ret, (proj2 (Z.eqb_neq _ 0) (sv_file_new _ _ _ _ _ Hq)).
Qed.

(** Changing a task or the rest of it. *)
Lemma upd_t_Ret s p t g :
  ks_tasks (fw_k s) !! p = Some t -> upd_t s p g = Ret (fw_set_k s (ks_set_tasks (fw_k s) (<[p := g t]> (ks_tasks (fw_k s))))).
Proof. intros Hp. unfold upd_t. by rewrite (upd_task_Ret _ _ t). Qed.

Lemma load_more_Ret s p m : fw_more s !! p = Some m -> load_more s p = Ret m.
Proof. intros Hp. unfold load_more. by rewrite Hp. Qed.

Lemma upd_more_Ret s p m g :
  fw_more s !! p = Some m -> upd_more s p g = Ret (fw_set_more s (<[p := g m]> (fw_more s))).
Proof. intros Hp. unfold upd_more, load_more. by rewrite Hp. Qed.

Lemma map_task_spec s task t m state stack e1 e2 :
  te_alloc_many (fw_env s) task 1 = Ret (Some state, e1) -> te_alloc_many e1 task KERNEL_STACK_PAGES = Ret (Some stack, e2) ->
  ks_tasks (fw_k s) !! task = Some t -> fw_more s !! task = Some m ->
  map_task s task =
    Ret (0, ForkWorld (ks_set_tasks (fw_k s) (<[task := t_set_kernel t stack zero_regs]> (ks_tasks (fw_k s))))
      (<[task := m_set_state m state zero_frame]> (fw_more s)) (fw_highest_pid s) (fw_kernel_files s) (fw_mounts s) (fw_world s) e2).
Proof.
  intros Hq1 Hq2 Ht Hm. unfold map_task. rewrite Hq1, bind_Ret.
  rewrite (upd_more_Ret _ _ m) by done. rewrite bind_Ret. rewrite (upd_t_Ret _ _ t) by done. rewrite bind_Ret.
  cbn [fw_set_env fw_set_more fw_set_k fw_env]. rewrite Hq2, bind_Ret.
  rewrite (upd_t_Ret _ _ (t_set_kernel t (t_kernel_stack t) zero_regs)) by apply lookup_insert_eq. rewrite bind_Ret.
  cbn. by rewrite insert_insert_eq.
Qed.

(** * fork *)

Lemma copy_words_spec n m dest src i :
  dest + 4 * Z.of_nat n <= src \/ src + 4 * Z.of_nat n <= dest -> 0 <= i < Z.of_nat n ->
  load_word (copy_words n m dest src) (dest + 4 * i) = load_word m (src + 4 * i).
Proof.
  revert m dest src i. induction n as [| n IH]; intros m dest src i Hap Hi; [lia |]. cbn [copy_words].
  assert (forall k m d from, (forall j, 0 <= j < Z.of_nat k -> d + 4 * j <> dest) -> load_word (copy_words k m d from) dest = load_word m dest) as Hkeep.
  { intros k. induction k as [| k IHk]; intros m' d from Hd; [done |]. cbn [copy_words]. rewrite IHk.
    - unfold load_word. rewrite lookup_insert_ne; [done |]. specialize (Hd 0). lia.
    - intros j Hj. specialize (Hd (j + 1)). lia. }
  destruct (decide (i = 0)) as [-> | Hi0].
  - rewrite !Z.mul_0_r, !Z.add_0_r, Hkeep by (intros j Hj; lia). unfold load_word. by rewrite lookup_insert_eq.
  - replace (dest + 4 * i) with (dest + 4 + 4 * (i - 1)) by lia. rewrite IH by lia.
    unfold load_word. rewrite lookup_insert_ne by lia. do 2 f_equal. lia.
Qed.

#[local] Opaque copy_words.

(** What the child is after fork. *)
Record forked s s' (p : Z) (q : requests) (x : task) (mx : more) (r : regs) (f : frame) : Prop := {
  fd_new : ks_tasks (fw_k s) !! rq_task q = None /\ rq_task q <> p;
  fd_task : exists t, ks_tasks (fw_k s') !! rq_task q = Some t /\ t_pid t = next_pid s /\ t_parent t = p /\ t_state t = RUNNING /\
    (t_uid t, t_gid t, t_euid t, t_egid t, t_ctty t) = (t_uid x, t_gid x, t_euid x, t_egid x, t_ctty x) /\
    t_regs t = Regs (edi r) (esi r) (ebp r) 0 (edx r) (ecx r) 0 /\ t_kernel_stack t = rq_stack q /\
    (rq_stack q + KERNEL_STACK_SIZE <= t_kernel_stack x \/ t_kernel_stack x + KERNEL_STACK_SIZE <= rq_stack q ->
     forall i, 0 <= i < KERNEL_STACK_SIZE / 4 ->
       load_word (ks_kmem (fw_k s')) (rq_stack q + 4 * i) = load_word (ks_kmem (fw_k s)) (t_kernel_stack x + 4 * i));
  fd_more : exists m, fw_more s' !! rq_task q = Some m /\ m_cwd m = m_cwd mx /\ m_binary_path m = m_binary_path mx /\ m_files m = m_files mx /\
    (m_argv m, m_environ m, m_sbrk m, m_stack_size m) = (m_argv mx, m_environ mx, m_sbrk mx, m_stack_size mx) /\
    (m_sysfs_file m, m_state m) = (rq_file q, rq_state q) /\
    (fr_sse (m_frame m), fr_ds (m_frame m), fr_cr3 (m_frame m)) = (fr_sse f, fr_ds f, rq_cr3 q) /\
    fr_esp (m_frame m) = u32 (rq_stack q + (fr_esp f - t_kernel_stack x));
  fd_others : forall a, a <> rq_task q -> ks_tasks (fw_k s') !! a = ks_tasks (fw_k s) !! a /\ fw_more s' !! a = fw_more s !! a;
  fd_requests : fw_env s' = rq_env q 12;
}.

(** Adding a task to the queue. *)
Lemma scheduler_add_spec k entry p t c d0 l :
  ks_tasks k !! p = Some t -> ks_current k = c -> ring (ks_qes k) c ((c, d0) :: l) -> entry <> 0 -> ks_qes k !! entry = None ->
  exists k', scheduler_add k entry p = Ret k' /\ ks_tasks k' = <[p := t_set_qentry t entry]> (ks_tasks k) /\ ks_kmem k' = ks_kmem k /\
    ks_current k' = c /\ ring (ks_qes k') c ((c, d0) :: (entry, Qentry p 0) :: l).
Proof.
  intros Hp Hc Hring He Hn. unfold scheduler_add. rewrite (upd_task_Ret _ _ t) by done. rewrite bind_Ret.
  destruct (queue_add_ring (ks_set_tasks k (<[p := t_set_qentry t entry]> (ks_tasks k))) c d0 l entry (Qentry p 0)) as (h & -> & Hr); [done .. |].
  rewrite bind_Ret. rewrite (proj2 (load_task_Ret _ _ (t_set_qentry t entry))) by apply lookup_insert_eq. rewrite bind_Ret.
  destruct (nz (t_ctty (t_set_qentry t entry))); eexists; (split; [done |]); by cbn.
Qed.

Lemma fork_state_spec s p child x t m r f c d0 l cr3 entry e1 e2 :
  te_pagedir (fw_env s) child = Ret (cr3, e1) -> te_kmalloc e1 16 = Ret (entry, e2) -> entry <> 0 -> ks_qes (fw_k s) !! entry = None ->
  ks_tasks (fw_k s) !! p = Some x -> ks_tasks (fw_k s) !! child = Some t -> fw_more s !! child = Some m ->
  ks_current (fw_k s) = c -> ring (ks_qes (fw_k s)) c ((c, d0) :: l) ->
  exists s', fork_state s p child r f = Ret s' /\ fw_highest_pid s' = fw_highest_pid s /\
    ks_tasks (fw_k s') = <[child := t_set_qentry (t_set_kernel t (t_kernel_stack t) (child_regs r)) entry]> (ks_tasks (fw_k s)) /\
    fw_more s' = <[child := m_set_state m (m_state m) (child_frame f cr3 (t_kernel_stack t) (t_kernel_stack x))]> (fw_more s) /\
    ks_kmem (fw_k s') = copy_words stack_words (ks_kmem (fw_k s)) (t_kernel_stack t) (t_kernel_stack x) /\
    fw_env s' = e2 /\ ks_current (fw_k s') = c /\ ring (ks_qes (fw_k s')) c ((c, d0) :: (entry, Qentry child 0) :: l).
Proof.
  intros Hpd Hkm He0 Hen Hx Ht Hm Hc Hring. unfold fork_state.
  rewrite (proj2 (load_task_Ret _ _ _) Hx), bind_Ret, (proj2 (load_task_Ret _ _ _) Ht), bind_Ret. cbn [fw_set_k fw_env].
  rewrite Hpd, bind_Ret. rewrite (upd_more_Ret _ _ m) by done. rewrite bind_Ret. rewrite (upd_t_Ret _ _ t) by done. rewrite bind_Ret.
  cbn [fw_set_env fw_set_more fw_set_k fw_env fw_k fw_more fw_highest_pid]. rewrite Hkm, bind_Ret.
  edestruct scheduler_add_spec with (entry := entry) (p := child) (c := c) (d0 := d0) (l := l) as (k' & -> & Hk1 & Hk2 & Hk3 & Hk4);
    [apply lookup_insert_eq | done | done | done | done |].
  rewrite bind_Ret. eexists. split; [reflexivity |].
  cbn [fw_k fw_set_k fw_set_env fw_more fw_set_more fw_highest_pid fw_env]. rewrite Hk1.
  cbn [ks_tasks ks_set_tasks ks_set_kmem]. rewrite insert_insert_eq. split; [reflexivity |]. split; [reflexivity |]. split; [reflexivity |].
  split; [exact Hk2 |]. split; [reflexivity |]. split; [exact Hk3 | exact Hk4].
Qed.


End ForkSpec.

Arguments Requests {E} rq_task rq_file rq_state rq_stack rq_cr3 rq_entry rq_env.
