(* ===== verification/ForkExample.v ===== *)
(** Environments for Fork.v: one in which the memory of tasks is that of Vm.v and is
    cloned by the code of VmCopy.v, for the witness for fork, and a small one for what
    happens where the code does not check. *)
From stdpp Require Import base numbers list gmap.
From Stdlib Require Import ZArith Lia Bool.
From S2P Require Import Prelude Str Buffer Path Mount Vfs VfsSpec Pipe DList Task Sched SchedSpec Vm VmSpec VmCopy VmCopySpec TaskMem Execdata Fork ForkSpec.

Open Scope Z_scope.

(** The next address, the objects so far, the memory of every task, and how many
    requests can still be served. *)
Record toy : Type := Toy { ty_next : Z; ty_live : gset Z; ty_mem : gmap Z (gmap Z Z); ty_room : nat }.

Definition toy_use (e : toy) : toy := Toy (ty_next e) (ty_live e) (ty_mem e) (pred (ty_room e)).
Definition toy_set (e : toy) (m : gmap Z (gmap Z Z)) : toy := Toy (ty_next e) (ty_live e) m (pred (ty_room e)).
Definition toy_new (e : toy) : toy := Toy (ty_next e + 16) ({[ty_next e]} ∪ ty_live e) (ty_mem e) (pred (ty_room e)).
Definition toy_full (e : toy) : bool := (ty_room e =? 0)%nat.

#[global] Instance toy_env : TaskEnv toy := {|
  te_kmalloc e _ := Ret (if toy_full e then (0, e) else (ty_next e, toy_new e));
  te_kfree e _ := Ret e;
  te_vm_new e p := Ret (toy_set e (<[p := ∅]> (ty_mem e)));
  te_alloc_at e _ _ addr _ _ := Ret (if toy_full e then 0 else 1, toy_use e);
  te_alloc_many e _ _ := Ret (if toy_full e then None else Some (ty_next e * 0x10000), toy_use e);
  te_free_many e _ := Ret e;
  te_vm_clone e p src := Ret (if toy_full e then -1 else 0, toy_set e (<[p := default ∅ (ty_mem e !! src)]> (ty_mem e)));
  te_copy_loader e _ _ _ := Ret (0, e);
  te_pagedir e _ := Ret (0x9000, toy_use e);
  te_setup_execdata e p _ := Ret (toy_use e);
  te_poke e _ _ _ := Ret e;
  te_sysfs_add e _ _ := Ret (if toy_full e then 0 else 0x700, toy_use e);
  te_sysfs_rm e _ := Ret e;
  te_copy_strings k e _ a := Ret (if a =? 0 then None else Some [[120]], k, e);
  te_alloc_loader e _ := Ret (1, e);
|}.

#[local] Instance fork_backend : VfsBackend (pipe_world unit) := null_backend (pipe_world unit).

(** Three tasks; the second, with the pid 2, is in /home and has a file open. *)
Definition ex_file : vfs_file := with_num (with_refs zero_file 1) 3.
Definition ex_more : more :=
  More [115; 104] [47; 104; 111; 109; 101] [47; 115; 104] [[115; 104]] [] (<[3%nat := ex_file]> (m_files zero_more)) 0x500000 zero_frame 0 SBRK_START 0x2000 0x701.
Definition ex_regs : regs := Regs 1 2 3 4 5 6 22.
Definition ex_frame : frame := Frame (replicate 512 0) 0x8000 0 0x23 0x100 0.
Definition ex_toy (room : nat) : toy := Toy 0x10000 {[0x1000; 0x2000; 0x3000; 0x10; 0x20; 0x30]} {[0x2000 := {[0x600000 := 42]}]} room.

Definition fork_ex (room : nat) : fork_world unit toy :=
  ForkWorld (sched_ex RUNNING SYSCALL RUNNING) {[0x2000 := ex_more; 0x1000 := ex_more]} 3 [] (Mounts ∅ 0 ∅) (PipeWorld ∅ tt 0) (ex_toy room).

Definition ex_fork room := task_fork 0x100000 0x4000 0x1000 (fork_ex room) 0x2000 ex_regs ex_frame.

(** * Fork with the memory of VmCopySpec.v *)

(** The next address of the heap, and virtual and physical memory. *)
Record venv : Type := VEnv { ve_next : Z; ve_copy : copy_state }.

(** The task at 0x2000 has the context of the parent in VmCopySpec.v, the next one that
    of the child. *)
Definition ctx_of (task : Z) : Z := if task =? 0x2000 then EX_TASK else EX_CHILD.

#[global] Instance vm_env : TaskEnv venv := {|
  te_kmalloc e _ := Ret (ve_next e, VEnv (ve_next e + 16) (ve_copy e));
  te_kfree e _ := Ret e;
  te_vm_new e _ := Ret e;
  te_alloc_at e _ _ _ _ _ := Ret (1, e);
  te_alloc_many e _ n := Ret (Some (if n =? 1 then 0x700000 else 0x800000), e);
  te_free_many e _ := Ret e;
  te_vm_clone e p src := '(r, c) ← vm_clone (ve_copy e) (ctx_of p) (ctx_of src); Ret (r, VEnv (ve_next e) c);
  te_copy_loader e _ _ _ := Ret (0, e);
  te_pagedir e _ := Ret (0x9000, e);
  te_setup_execdata e _ _ := Ret e;
  te_poke e _ _ _ := Ret e;
  te_sysfs_add e _ _ := Ret (0x700, e);
  te_sysfs_rm e _ := Ret e;
  te_copy_strings k e _ _ := Ret (None, k, e);
  te_alloc_loader e _ := Ret (1, e);
|}.

Definition ex_memory : copy_state := Copy VmCopySpec.ex_fork {[0x1004 := 77]}.

Definition fork_vm : fork_world unit venv :=
  ForkWorld (sched_ex RUNNING SYSCALL RUNNING) {[0x2000 := ex_more; 0x1000 := ex_more]} 3 [] (Mounts ∅ 0 ∅) (PipeWorld ∅ tt 0) (VEnv 0x10000 ex_memory).

(** Its requests, when cloning the memory gives [c]. *)
Definition fork_vm_requests (c : copy_state) : requests :=
  Requests 0x10000 0x700 0x700000 0x800000 0x9000 0x10030 (fun i =>
    match i with
    | 0%nat => VEnv 0x10000 ex_memory
    | 1%nat | 2%nat | 3%nat => VEnv 0x10010 ex_memory
    | 4%nat => VEnv 0x10020 ex_memory
    | 5%nat | 6%nat => VEnv 0x10030 ex_memory
    | 7%nat | 8%nat | 9%nat | 10%nat | 11%nat => VEnv 0x10030 c
    | _ => VEnv 0x10040 c
    end).


(** * Where the code falls short *)

(** [_fork] does not check what [alloc_task] returns: when there is no memory to
    map the kernel's entry points, it writes to NULL. *)
Lemma fork_null_task : ex_fork 2 = Fault.
Proof. vm_compute. reflexivity. Qed.

(** When the memory cannot be cloned, fork returns -1; the child stays behind, as
    a running task that is in no queue. *)
Lemma fork_leaves_child :
  match ex_fork 6 with
  | Ret (r, s) => r = -1 /\ ks_qes (fw_k s) = ks_qes (fw_k (fork_ex 6)) /\ t_state <$> ks_tasks (fw_k s) !! 0x10000 = Some RUNNING
  | _ => False
  end.
Proof. vm_compute. done. Qed.

(** The child has the default signal handlers and no mask, whatever the parent
    has set. *)
Definition handlers_ex : fork_world unit toy :=
  let s := fork_ex 12 in
  fw_set_k s (ks_set_tasks (fw_k s) (<[0x2000 := t_set_mask (t_set_handlers (sched_task 2 0x1000 0x20 SYSCALL)
    (<[2%nat := Sigaction 0 0 0x8000]> (replicate 33 (Sigaction 0 0 0)))) 8]> (ks_tasks (fw_k s)))).

Lemma fork_forgets_handlers :
  match task_fork 0x100000 0x4000 0x1000 handlers_ex 0x2000 ex_regs ex_frame with
  | Ret (_, s) => (fun t => (sa_handler <$> t_handlers t !! 2%nat, t_mask t)) <$> ks_tasks (fw_k s) !! 0x10000 = Some (Some 0, 0)
  | _ => False
  end.
Proof. vm_compute. reflexivity. Qed.

(** execve: the pid belongs to the new task, which has the old one's directory
    and files; the old one is marked as replaced. *)
Definition ex_execve (room : nat) (argv : Z) := task_execve 0x100000 0x4000 0x1000 (fork_ex room) 0x2000 [47; 115; 104] argv 1.

Lemma execve_example :
  match ex_execve 20 1 with
  | Ret (r, s) => r = 0 /\ scheduler_find (fw_k s) 2 = Ret 0x10000 /\ t_state <$> ks_tasks (fw_k s) !! 0x2000 = Some REPLACED /\
      (fun m => (m_cwd m, f_refs <$> m_files m !! 3%nat)) <$> fw_more s !! 0x10000 = Some ([47; 104; 111; 109; 101], Some 1)
  | _ => False
  end.
Proof. vm_compute. done. Qed.

(** An array that cannot be read makes execve return 0, success, in the task
    that called it. *)
Lemma execve_bad_array : ex_execve 20 0 = Ret (0, fork_ex 20).
Proof. vm_compute. reflexivity. Qed.

(** NULL from [task_new] is not checked for either. *)
Lemma execve_null_task : ex_execve 2 1 = Fault.
Proof. vm_compute. reflexivity. Qed.

(** The names of the files in /sys have room for five digits of the pid. *)
Lemma task_names_cut : take 9 (TASK_NAME ++ print_d 123456) = take 9 (TASK_NAME ++ print_d 123457).
Proof. reflexivity. Qed.
