(* ===== verification/Interrupt.v ===== *)
(** Interrupts: the descriptor tables (src/src/int/i386-idt.c and
    src/src/mem/i386-gdt.c), the registration and the dispatch of handlers
    (src/src/int/int.h and int.c) and the handler of exceptions
    (src/src/tasks/exception.c).

    The tables are shown to say to the processor what they should; the dispatch is
    composed with signals (Task.v), the scheduler (Sched.v) and the memory of tasks
    (TaskMem.v).  Programming the interrupt controller, and interrupts while a
    handler runs, are not part of the model. *)
From stdpp Require Import base numbers list gmap.
From Stdlib Require Import ZArith Lia Bool.
From S2P Require Import Prelude DList Task Sched Vm TaskMem.

Open Scope Z_scope.

(** * The interrupt descriptor table *)

Record idt_entry : Type := IdtEntry {
  ie_base_lo : Z;
  ie_sel : Z;
  ie_always0 : Z;
  ie_flags : Z;
  ie_base_hi : Z;
}.

Definition set_gate (idt : list idt_entry) (num handler flags : Z) : outcome (list idt_entry) :=
  astore idt num (IdtEntry (Z.land handler 0xffff) 0x08 0 flags (Z.land (Z.shiftr handler 16) 0xffff)).

(** The flags of the gates: 49 is for the scheduler, 128 for system calls. *)
Definition gate_flags (num : Z) : Z :=
  if (num =? 49) || (num =? 128) then Z.lor 0x8e 0x60 else 0x8e.

(** The calls of [set_gate] in [idt_init]; [handler] has the addresses of the
    entry points in i386-int.asm. *)
Fixpoint set_gates (handler : Z -> Z) (idt : list idt_entry) (nums : list Z) : outcome (list idt_entry) :=
  match nums with
  | [] => Ret idt
  | num :: nums => idt ← set_gate idt num (handler num) (gate_flags num); set_gates handler idt nums
  end.

Definition idt_init (handler : Z -> Z) : outcome (list idt_entry) :=
  set_gates handler (replicate 256 (IdtEntry 0 0 0 0 0)) (seqZ 0 256).

(** * Segments *)

Definition SEG_DESCTYPE (x : Z) : Z := Z.shiftl x 0x04.
Definition SEG_PRES (x : Z) : Z := Z.shiftl x 0x07.
Definition SEG_SAVL (x : Z) : Z := Z.shiftl x 0x0c.
Definition SEG_LONG (x : Z) : Z := Z.shiftl x 0x0d.
Definition SEG_SIZE (x : Z) : Z := Z.shiftl x 0x0e.
Definition SEG_GRAN (x : Z) : Z := Z.shiftl x 0x0f.
Definition SEG_PRIV (x : Z) : Z := Z.shiftl (Z.land x 0x03) 0x05.
Definition SEG_DATA_RDWR : Z := 0x02.
Definition SEG_CODE_EXRD : Z := 0x0a.

Definition SEGMENT (priv type : Z) : Z :=
  Z.lor (SEG_DESCTYPE 1) (Z.lor (SEG_PRES 1) (Z.lor (SEG_SAVL 0) (Z.lor (SEG_LONG 0)
    (Z.lor (SEG_SIZE 1) (Z.lor (SEG_GRAN 1) (Z.lor (SEG_PRIV priv) type)))))).

Definition GDT_CODE_PL0 : Z := SEGMENT 0 SEG_CODE_EXRD.
Definition GDT_DATA_PL0 : Z := SEGMENT 0 SEG_DATA_RDWR.
Definition GDT_CODE_PL3 : Z := SEGMENT 3 SEG_CODE_EXRD.
Definition GDT_DATA_PL3 : Z := SEGMENT 3 SEG_DATA_RDWR.

(** [base << 16] is done in 32 bits. *)
Definition descriptor (base limit flag : Z) : Z :=
  let d := Z.land limit 0x000f0000 in
  let d := Z.lor d (Z.land (Z.shiftl flag 8) 0x00f0ff00) in
  let d := Z.lor d (Z.land (Z.shiftr base 16) 0x000000ff) in
  let d := Z.lor d (Z.land base 0xff000000) in
  let d := u64 (Z.shiftl d 32) in
  let d := Z.lor d (u32 (Z.shiftl base 16)) in
  Z.lor d (Z.land limit 0x0000ffff).

Definition create_descriptor (descs : list Z) (num base limit flag : Z) : outcome (list Z) :=
  astore descs num (descriptor base limit flag).

(** [tss] is the address of the task state segment; its words 1 and 2 are the
    stack of the kernel. *)
Definition gdt_set_tss (descs : list Z) (tss addr : Z) : outcome (list Z * list Z) :=
  descs ← create_descriptor descs 5 tss 0x60 0x89;
  Ret (descs, 0 :: addr :: 0x10 :: replicate 21 0).

Definition gdt_init (tss stack_end : Z) : outcome (list Z * list Z) :=
  descs ← create_descriptor (replicate 6 0) 0 0 0 0;
  descs ← create_descriptor descs 1 0 0xffffffff GDT_CODE_PL0;
  descs ← create_descriptor descs 2 0 0xffffffff GDT_DATA_PL0;
  descs ← create_descriptor descs 3 0 0xffffffff GDT_CODE_PL3;
  descs ← create_descriptor descs 4 0 0xffffffff GDT_DATA_PL3;
  gdt_set_tss descs tss stack_end.

(** * Handlers *)

(** [isf_t], as far as it is used. *)
Record isf : Type := Isf { isf_regs : regs; isf_cr2 : Z; isf_err_code : Z }.

Definition IRQ (n : Z) : Z := n + 0x20.

Section Dispatch.
(** The state of the machine, which has the kernel's state in it. *)
Context {W : Type} (get_k : W -> kstate) (set_k : W -> kstate -> W).

(** A handler may change the saved registers. *)
Definition interrupt_handler_t : Type := Z -> Z -> isf -> W -> outcome (isf * W).

Record interrupt_reg : Type := IntReg { ir_handler : interrupt_handler_t; ir_can_reent : bool }.

Fixpoint register_slot (row : list (option interrupt_reg)) (r : interrupt_reg) : list (option interrupt_reg) :=
  match row with
  | [] => []
  | Some x :: row => Some x :: register_slot row r
  | None :: row => Some r :: row
  end.

(** When all slots are taken the handler is only logged. *)
Definition int_register (tab : list (list (option interrupt_reg))) (n : Z) (h : interrupt_handler_t) (can_reent : bool)
    : outcome (list (list (option interrupt_reg))) :=
  row ← aload tab n;
  astore tab n (register_slot row (IntReg h can_reent)).

Fixpoint int_register_bulk (tab : list (list (option interrupt_reg))) (nums : list Z) (h : interrupt_handler_t) (can_reent : bool)
    : outcome (list (list (option interrupt_reg))) :=
  match nums with
  | [] => Ret tab
  | n :: nums => tab ← int_register tab n h can_reent; int_register_bulk tab nums h can_reent
  end.

Definition no_handlers : list (list (option interrupt_reg)) := replicate 512 (replicate 10 None).

(** The loop of [int_dispatch]. *)
Fixpoint run_handlers (row : list (option interrupt_reg)) (task intr : Z) (st : isf) (w : W) : outcome (isf * W) :=
  match row with
  | [] => Ret (st, w)
  | None :: _ => Ret (st, w)
  | Some r :: row => '(st, w) ← ir_handler r task intr st w; run_handlers row task intr st w
  end.

Definition t_set_regs (t : task) (r : regs) : task :=
  Task (t_pid t) (t_uid t) (t_gid t) (t_euid t) (t_egid t) (t_parent t) (t_qentry t) (t_state t)
    (t_exit_code t) (t_handlers t) (t_mask t) (t_wait_for t) (t_wait_res_pid t) (t_stat_loc t)
    (t_interrupt_yield t) (t_sleep_until t) (t_ctty t) (t_strace_observer t) (t_strace_fd t)
    (t_kernel_stack t) r (t_umem t).

(** The registers of workers are not part of the state. *)
Definition scheduler_store_isf (k : kstate) (st : isf) : outcome kstate :=
  match ks_sched k with
  | SCHEDULER_INITIALIZED =>
    p ← scheduler_get_current k;
    if nz p then upd_task k p (fun t => t_set_regs t (isf_regs st)) else Ret k
  | _ => Ret k
  end.

(** [user_mapped], [fuel] and [idle] are for the scheduler.  The result is the
    entry whose state is loaded, None when the interrupted one goes on. *)
Definition int_dispatch (user_mapped : Z -> Z -> bool) (fuel : nat) (idle : Z) (tab : list (list (option interrupt_reg)))
    (intr : Z) (st : isf) (w : W) : outcome (option Z * isf * W) :=
  k ← scheduler_store_isf (get_k w) st;
  let w := set_k w k in
  row ← aload tab intr;
  task ← scheduler_get_current (get_k w);
  '(st, w) ← run_handlers row task intr st w;
  yield ← (if nz task then t ← load_task (get_k w) task; Ret (t_interrupt_yield t) else Ret false);
  if (intr =? IRQ 0) || (intr =? 0x31) || yield then
    k ← (if yield : bool then upd_task (get_k w) task (fun t => t_set_yield t false) else Ret (get_k w));
    '(qe, k) ← scheduler_select user_mapped fuel k idle;
    Ret (if nz qe then Some qe else None, st, set_k w k)
  else Ret (None, st, w).

End Dispatch.

Arguments IntReg {W} ir_handler ir_can_reent.

(** * Exceptions *)

Definition PFE_USER : Z := 4.
Definition SIGILL : Z := 4.
Definition SIGTRAP : Z := 5.
Definition SIGFPE : Z := 8.

(** The signals of the table of exceptions. *)
Definition exceptions : list Z :=
  [SIGFPE; SIGTRAP; 0; SIGTRAP; 0; SIGILL; SIGILL; SIGFPE; 0; 0; 0; 0; 0; SIGSEGV; SIGSEGV; 0; SIGFPE; 0; 0; SIGFPE; 0].

(** The machine: the kernel, virtual memory, and of each task its memory
    context, the size of its stack and the end of its heap. *)
Record machine : Type := Machine {
  mc_k : kstate;
  mc_vm : vmworld;
  mc_mem : gmap Z (Z * Z * Z);
}.

Definition mc_set_k (m : machine) (k : kstate) : machine := Machine k (mc_vm m) (mc_mem m).

Section Exceptions.
Context (user_mapped : Z -> Z -> bool).

Definition signal (m : machine) (task sig : Z) : outcome machine :=
  '(_, k) ← task_signal user_mapped (mc_k m) task sig; Ret (mc_set_k m k).

(** The range of the address is looked up for the log. *)
Definition handle_page_fault (task : Z) (st : isf) (m : machine) : outcome machine :=
  if nz task && has_flag (isf_err_code st) PFE_USER then
    '(vmem, stack, sbrk) ← match mc_mem m !! task with Some x => Ret x | None => Fault end;
    '(r, s) ← task_page_fault_cb (TaskMem vmem stack sbrk (ks_errno (mc_k m)) (mc_vm m)) (isf_cr2 st);
    let m := Machine (ks_set_errno (mc_k m) (tm_errno s)) (tm_world s) (<[task := (vmem, tm_stack_size s, tm_sbrk s)]> (mc_mem m)) in
    if r =? 0 then Ret m else
    '(_, w) ← vm_get (mc_vm m) vmem (isf_cr2 st) false;
    signal (Machine (mc_k m) w (mc_mem m)) task SIGSEGV
  else Panic.

Definition exception_handler (task num : Z) (st : isf) (m : machine) : outcome (isf * machine) :=
  if Z.of_nat (length exceptions) <=? num then Panic else
  sig ← aload exceptions num;
  if num =? 14 then m ← handle_page_fault task st m; Ret (st, m) else
  if (sig =? 0) || (task =? 0) then Panic else
  t ← load_task (mc_k m) task;
  if bool_decide (t_state t = SYSCALL) then Panic else
  m ← signal m task sig;
  Ret (st, m).

Definition task_exception_init (tab : list (list (option (interrupt_reg (W := machine))))) : outcome (list (list (option interrupt_reg))) :=
  int_register_bulk tab (seqZ 0 32) exception_handler true.

End Exceptions.
