(* ===== verification/InterruptSpec.v ===== *)
(** Correctness of the interrupt code (Interrupt.v): the gates and segments as
    the processor reads them, and what becomes of a fault in a task. *)
From stdpp Require Import base numbers list gmap.
From Stdlib Require Import ZArith Lia Bool.
From S2P Require Import Prelude Bitmap DList Task Sched SchedSpec Vm VmSpec TaskMem TaskMemSpec TaskMemExample Interrupt.

Open Scope Z_scope.

(** * Gates *)

(** A gate as the processor reads it: where it leads, whether it is present, its
    kind (0xe is a 32-bit interrupt gate) and the ring it may be used from. *)
Definition gate_offset (e : idt_entry) : Z := Z.lor (ie_base_lo e) (Z.shiftl (ie_base_hi e) 16).
Definition gate_present (e : idt_entry) : bool := Z.testbit (ie_flags e) 7.
Definition gate_type (e : idt_entry) : Z := Z.land (ie_flags e) 0xf.
Definition gate_dpl (e : idt_entry) : Z := Z.land (Z.shiftr (ie_flags e) 5) 3.

Definition gate_for (handler : Z -> Z) (n : Z) : idt_entry :=
  IdtEntry (Z.land (handler n) 0xffff) 0x08 0 (gate_flags n) (Z.land (Z.shiftr (handler n) 16) 0xffff).

Lemma set_gates_spec handler idt nums :
  Forall (fun n => 0 <= n < Z.of_nat (length idt)) nums -> NoDup nums ->
  exists idt', set_gates handler idt nums = Ret idt' /\ length idt' = length idt /\
    forall n, 0 <= n -> idt' !! Z.to_nat n = if decide (n ∈ nums) then Some (gate_for handler n) else idt !! Z.to_nat n.
Proof.
  revert idt. induction nums as [| m nums IH]; intros idt Hf Hnd.
  { exists idt. split; [done |]. split; [done |]. intros n _. by rewrite decide_False by apply not_elem_of_nil. }
  apply Forall_cons in Hf as [Hm Hf]. apply NoDup_cons in Hnd as [Hnot Hnd]. cbn [set_gates]. unfold set_gate.
  rewrite astore_in, bind_Ret by lia.
  destruct (IH (<[Z.to_nat m := gate_for handler m]> idt)) as (idt' & E & Hl & Hget);
    [by rewrite length_insert | done |]. rewrite length_insert in Hl.
  exists idt'. split; [exact E |]. split; [done |]. intros n Hn. rewrite Hget by done.
  destruct (decide (n ∈ nums)) as [Hin | Hin]; [by rewrite decide_True by (by right) |].
  destruct (decide (n = m)) as [-> | Hne].
  - rewrite decide_True by left. apply list_lookup_insert_eq. lia.
  - rewrite decide_False by (by apply not_elem_of_cons). apply list_lookup_insert_ne. lia.
Qed.

Lemma halves x : 0 <= x < 2 ^ 32 -> Z.lor (Z.land x 0xffff) (Z.shiftl (Z.land (Z.shiftr x 16) 0xffff) 16) = x.
Proof.
  intros Hx. change 0xffff with (Z.ones 16). rewrite !Z.land_ones, Z.shiftr_div_pow2, Z.shiftl_mul_pow2 by lia.
  rewrite (Z.mod_small (x / 2 ^ 16)).
  2: { split; [apply Z.div_pos; lia | apply Z.div_lt_upper_bound; lia]. }
  rewrite <- Z.land_ones, <- Z.shiftr_div_pow2, <- Z.shiftl_mul_pow2 by lia.
  apply Z.bits_inj'. intros i Hi. rewrite Z.lor_spec, Z.land_spec, Z.shiftl_spec by lia.
  destruct (Z.lt_ge_cases i 16).
  - rewrite Z.ones_spec_low, (Z.testbit_neg_r _ (i - 16)) by lia. by rewrite andb_true_r, orb_false_r.
  - rewrite Z.ones_spec_high, Z.shiftr_spec by lia. replace (i - 16 + 16) with i by lia. by rewrite andb_false_r.
Qed.

(** after idt_init each of the 256 vectors has a present 32-bit interrupt gate
    in the code segment of the kernel that leads to its own entry point, and only
    the vectors 0x31 (giving up the processor) and 0x80 (system calls) can be
    raised by a task. *)
Theorem idt_protects handler :
  (forall n, 0 <= handler n < 2 ^ 32) ->
  exists idt, idt_init handler = Ret idt /\ length idt = 256%nat /\
    forall n, 0 <= n < 256 -> exists e, idt !! Z.to_nat n = Some e /\
      gate_offset e = handler n /\ ie_sel e = 0x08 /\ ie_always0 e = 0 /\ gate_present e = true /\ gate_type e = 0xe /\
      gate_dpl e = (if decide (n = 0x31 \/ n = 0x80) then 3 else 0).
Proof.
  intros Hh. unfold idt_init.
  destruct (set_gates_spec handler (replicate 256 (IdtEntry 0 0 0 0 0)) (seqZ 0 256)) as (idt & E & Hl & Hget).
  - apply Forall_forall. intros n Hn. apply elem_of_seqZ in Hn. rewrite length_replicate. lia.
  - apply NoDup_seqZ.
  - rewrite length_replicate in Hl. exists idt. split; [done |]. split; [done |]. intros n Hn.
    exists (gate_for handler n). rewrite Hget by lia.
    pose proof (proj2 (elem_of_seqZ 0 256 n) ltac:(lia)) as Hin. rewrite (decide_True _ _ Hin). split; [done |].
    split; [by apply halves |]. split; [done |]. split; [done |].
    unfold gate_present, gate_type, gate_dpl, gate_for, gate_flags. cbn [ie_flags]. clear - Hn.
    destruct (Z.eqb_spec n 49), (Z.eqb_spec n 128), (decide (n = 0x31 \/ n = 0x80)); by try lia.
Qed.

Lemma idt_protects_witness :
  exists idt, idt_init (fun n => 0x100000 + 16 * n) = Ret idt /\ length idt = 256%nat /\
    exists e, idt !! 128%nat = Some e /\ gate_offset e = 0x100800 /\ gate_dpl e = 3.
Proof.
  destruct (idt_protects (fun n => (0x100000 + 16 * n) mod 2 ^ 32)) as (idt & E & Hl & Hg).
  - intros n. apply Z.mod_pos_bound. lia.
  - exists idt. split; [| split; [exact Hl |]].
    + rewrite <- E. vm_compute. reflexivity.
    + destruct (Hg 128 ltac:(lia)) as (e & He & Ho & _ & _ & _ & _ & Hd). exists e. split; [exact He |]. split; [exact Ho | exact Hd].
Defined.

(** * Segments *)

(** A descriptor as the processor reads it. *)
Definition desc_base (d : Z) : Z := Z.lor (Z.land (Z.shiftr d 16) 0xffffff) (Z.shiftl (Z.land (Z.shiftr d 56) 0xff) 24).
Definition desc_limit (d : Z) : Z := Z.lor (Z.land d 0xffff) (Z.shiftl (Z.land (Z.shiftr d 48) 0xf) 16).
Definition desc_flags (d : Z) : Z := Z.land (Z.shiftr d 40) 0xf0ff.

(** Numbers of at most [n] bits are equal when these bits are. *)
Lemma eq_by_bits n x y :
  0 <= x < 2 ^ n -> 0 <= y < 2 ^ n -> Forall (fun i => Z.testbit x i = Z.testbit y i) (seqZ 0 n) -> x = y.
Proof.
  intros Hx Hy Hf. rewrite Forall_forall in Hf. apply Z.bits_inj'. intros i Hi.
  destruct (Z.lt_ge_cases i n); [apply Hf, elem_of_seqZ; lia |].
  rewrite <- (Z.mod_small x (2 ^ n)), <- (Z.mod_small y (2 ^ n)) by done.
  destruct (Z.lt_ge_cases n 0); [rewrite !Z.pow_neg_r in * by done; lia |]. by rewrite !Z.mod_pow2_bits_high by lia.
Qed.

Lemma land_ones_bound x n : 0 <= n -> 0 <= Z.land x (Z.ones n) < 2 ^ n.
Proof. intros Hn. rewrite Z.land_ones by done. apply Z.mod_pos_bound. by apply Z.pow_pos_nonneg. Qed.

(** Bits of constants are computed, bits of the parts are those of the parts. *)
Ltac bit_step :=
  first [rewrite Z.lor_spec | rewrite Z.land_spec | rewrite Z.shiftr_spec by lia | rewrite Z.shiftl_spec by lia
    | rewrite Z.mod_pow2_bits_low by lia | rewrite Z.mod_pow2_bits_high by lia | rewrite Z.testbit_neg_r by lia].

Ltac bit_const :=
  match goal with
  | |- context [Z.testbit (Zpos ?c) ?i] => let v := eval vm_compute in (Z.testbit (Zpos c) i) in change (Z.testbit (Zpos c) i) with v
  | |- context [Z.testbit ?x ?i] => lazymatch i with Z.add _ _ => idtac | Z.sub _ _ => idtac end; let j := eval vm_compute in i in change i with j
  end.

Ltac bit_cases :=
  match goal with |- Forall _ ?l => let l' := eval vm_compute in l in change l with l' end;
  repeat (apply Forall_cons; split); [.. | apply Forall_nil_2]; cbn beta;
  unfold desc_base, desc_limit, desc_flags, descriptor, u32, u64; repeat bit_step; repeat bit_const;
  rewrite ?andb_true_r, ?andb_false_r, ?orb_false_r, ?orb_false_l; reflexivity.

Lemma parts_bound x y a b : 0 <= a -> 0 <= b -> 0 <= Z.lor (Z.land x (Z.ones a)) (Z.shiftl (Z.land y (Z.ones b)) a) < 2 ^ (a + b).
Proof.
  intros Ha Hb. pose proof (land_ones_bound x a Ha) as H1. pose proof (land_ones_bound y b Hb) as H2.
  pose proof (Z.add_lor_land (Z.shiftl (Z.land y (Z.ones b)) a) (Z.land x (Z.ones a))) as E.
  assert (Z.land (Z.shiftl (Z.land y (Z.ones b)) a) (Z.land x (Z.ones a)) = 0) as E0.
  { apply Z.bits_inj'. intros i Hi. rewrite !Z.land_spec, Z.shiftl_spec, Z.bits_0 by done.
    destruct (Z.lt_ge_cases i a); [by rewrite Z.testbit_neg_r by lia |]. by rewrite Z.ones_spec_high, !andb_false_r by lia. }
  rewrite E0, Z.add_0_r in E. rewrite Z.lor_comm, E, Z.shiftl_mul_pow2, Z.pow_add_r by done. nia.
Qed.

Lemma descriptor_base base limit flag : 0 <= base < 2 ^ 32 -> desc_base (descriptor base limit flag) = base.
Proof. intros Hb. apply (eq_by_bits 32); [apply (parts_bound _ _ 24 8); lia | done | bit_cases]. Qed.

Lemma descriptor_limit base limit flag : desc_limit (descriptor base limit flag) = limit mod 2 ^ 20.
Proof. apply (eq_by_bits 20); [apply (parts_bound _ _ 16 4); lia | by apply Z.mod_pos_bound | bit_cases]. Qed.

Lemma descriptor_flags base limit flag : desc_flags (descriptor base limit flag) = Z.land flag 0xf0ff.
Proof.
  assert (forall x, 0 <= Z.land x 0xf0ff < 2 ^ 16) as Hb.
  { intros x. change 0xf0ff with (Z.land 0xf0ff (Z.ones 16)). rewrite Z.land_assoc. apply land_ones_bound. lia. }
  apply (eq_by_bits 16); [apply Hb | apply Hb | bit_cases].
Qed.

(** a segment descriptor holds what create_descriptor was given: the processor
    reads the base, the low twenty bits of the limit and the access bits; after
    gdt_init the four segments start at 0 and reach to the end of memory, code and
    data of the kernel in ring 0, of tasks in ring 3, and the fifth descriptor leads
    to the task state segment, whose stack is the one it was given. *)
Theorem gdt_roundtrip :
  (forall base limit flag, 0 <= base < 2 ^ 32 ->
    desc_base (descriptor base limit flag) = base /\ desc_limit (descriptor base limit flag) = limit mod 2 ^ 20 /\
    desc_flags (descriptor base limit flag) = Z.land flag 0xf0ff) /\
  forall tss stack, 0 <= tss < 2 ^ 32 -> exists descs words, gdt_init tss stack = Ret (descs, words) /\
    Forall2 (fun d '(base, limit, dpl, type) => desc_base d = base /\ desc_limit d = limit /\
        Z.land (Z.shiftr (desc_flags d) 5) 3 = dpl /\ Z.land (desc_flags d) 0x1f = type /\ Z.testbit (desc_flags d) 7 = nz type) descs
      [(0, 0, 0, 0); (0, 0xfffff, 0, 0x1a); (0, 0xfffff, 0, 0x12); (0, 0xfffff, 3, 0x1a); (0, 0xfffff, 3, 0x12); (tss, 0x60, 0, 9)] /\
    words !! 1%nat = Some stack.
Proof.
  split.
  - intros base limit flag Hb. split; [by apply descriptor_base |]. split; [apply descriptor_limit | apply descriptor_flags].
  - intros tss stack Ht. do 2 eexists. split; [reflexivity |]. split; [| done].
    repeat (constructor; [rewrite ?descriptor_base, ?descriptor_limit, ?descriptor_flags by lia; done |]). constructor.
Qed.

Lemma gdt_roundtrip_witness : desc_base (descriptor 0x12345678 0x60 0x89) = 0x12345678.
Proof. destruct gdt_roundtrip as [H _]. apply (H 0x12345678 0x60 0x89). lia. Defined.

(** * Faults *)

Section Faults.
Context (user_mapped : Z -> Z -> bool).

Lemma register_bulk_spec {W} (tab : list (list (option (interrupt_reg (W := W))))) nums h re n :
  NoDup nums -> Forall (fun n => 0 <= n /\ tab !! Z.to_nat n = Some (replicate 10 None)) nums -> n ∈ nums ->
  exists tab', int_register_bulk tab nums h re = Ret tab' /\ tab' !! Z.to_nat n = Some (Some (IntReg h re) :: replicate 9 None).
Proof.
  revert tab. assert (forall tab nums, Forall (fun n => 0 <= n /\ is_Some (tab !! Z.to_nat n)) nums -> n ∉ nums -> 0 <= n ->
      exists tab', int_register_bulk tab nums h re = Ret tab' /\ tab' !! Z.to_nat n = tab !! Z.to_nat n) as Hframe.
  { clear. intros tab nums. revert tab. induction nums as [| m nums IH]; intros tab Hf Hn H0; [by exists tab |].
    apply Forall_cons in Hf as [[Hm [row Hr]] Hf]. apply not_elem_of_cons in Hn as [Hne Hn]. cbn [int_register_bulk]. unfold int_register.
    assert (aload tab m = Ret row) as -> by (by apply aload_Ret). rewrite bind_Ret. apply lookup_lt_Some in Hr.
    rewrite astore_in, bind_Ret by lia. destruct (IH (<[Z.to_nat m := register_slot row (IntReg h re)]> tab)) as (tab' & -> & E); [| done | done |].
    - eapply Forall_impl; [exact Hf |]. intros x [Hx0 Hx]. split; [done |]. apply lookup_lt_is_Some. rewrite length_insert. by apply lookup_lt_is_Some.
    - exists tab'. split; [done |]. rewrite E. apply list_lookup_insert_ne. lia. }
  induction nums as [| m nums IH]; intros tab Hnd Hf Hin; [by apply not_elem_of_nil in Hin |].
  apply NoDup_cons in Hnd as [Hnot Hnd]. apply Forall_cons in Hf as [[Hm Hr] Hf]. cbn [int_register_bulk]. unfold int_register.
  assert (aload tab m = Ret (replicate 10 None)) as -> by (by apply aload_Ret). rewrite bind_Ret. apply lookup_lt_Some in Hr as Hl.
  rewrite astore_in, bind_Ret by lia. set (tab1 := <[Z.to_nat m := _]> tab).
  assert (forall x, x ∈ nums -> 0 <= x /\ tab1 !! Z.to_nat x = Some (replicate 10 None)) as H1.
  { intros x Hx. rewrite Forall_forall in Hf. destruct (Hf x Hx) as [Hx0 Hx1]. split; [done |]. unfold tab1.
    rewrite list_lookup_insert_ne; [done |]. intros E. apply Hnot. by replace m with x by lia. }
  apply elem_of_cons in Hin as [-> | Hin].
  - destruct (Hframe tab1 nums) as (tab' & -> & E); [| done | done |].
    + apply Forall_forall. intros x Hx. destruct (H1 x Hx) as [? ->]. by split.
    + exists tab'. split; [done |]. rewrite E. unfold tab1. by rewrite list_lookup_insert_eq by lia.
  - destruct (IH tab1 Hnd) as (tab' & -> & E); [by apply Forall_forall | done |]. by exists tab'.
Qed.

(** The row of an exception after task_exception_init. *)
Lemma exception_row num :
  0 <= num < 32 -> exists tab, task_exception_init user_mapped no_handlers = Ret tab /\
    aload tab num = Ret (Some (IntReg (exception_handler user_mapped) true) :: replicate 9 None).
Proof.
  intros Hn. destruct (register_bulk_spec no_handlers (seqZ 0 32) (exception_handler user_mapped) true num) as (tab & E & Hr).
  - apply NoDup_seqZ.
  - apply Forall_forall. intros x Hx. apply elem_of_seqZ in Hx. split; [lia |]. apply lookup_replicate_2. lia.
  - apply elem_of_seqZ. lia.
  - exists tab. split; [exact E |]. apply aload_Ret. split; [lia | exact Hr].
Qed.

(** A task that a signal has ended, with the registers of the fault saved. *)
Definition ended (t : task) (st : isf) (sig : Z) : task :=
  t_set_yield (t_set_exit (t_set_state (t_set_regs t (isf_regs st)) TERMINATED) (Z.lor 0x100 sig)) false.

(** The machine in which [p] is the task [t], and nothing else has changed. *)
Definition with_task (m : machine) (p : Z) (t : task) : machine := mc_set_k m (ks_set_tasks (mc_k m) (<[p := t]> (ks_tasks (mc_k m)))).

(** The task is what the processor runs, and the signal would end it. *)
Record dies_of (m : machine) (p : Z) (t : task) (sig : Z) : Prop := {
  di_sched : ks_sched (mc_k m) = SCHEDULER_INITIALIZED;
  di_current : scheduler_get_current (mc_k m) = Ret p;
  di_p : p <> 0;
  di_task : ks_tasks (mc_k m) !! p = Some t;
  di_sig : 0 < sig < 32 /\ sig ∉ [SIGKILL; SIGSTOP; SIGCHLD; SIGCONT; SIGURG];
  di_mask : has_flag (t_mask t) (Z.shiftl 1 sig) = false;
  di_handler : exists sa, t_handlers t !! Z.to_nat sig = Some sa /\ sa_handler sa = SIG_DFL;
}.

Lemma signal_ends m p t sig r :
  dies_of m p t sig -> signal user_mapped (with_task m p (t_set_regs t r)) p sig =
    Ret (with_task m p (t_set_yield (t_set_exit (t_set_state (t_set_regs t r) TERMINATED) (Z.lor 0x100 sig)) true)).
Proof.
  intros [_ _ _ Ht [Hs Hn] Hm (sa & Hsa & Hd)]. rewrite !not_elem_of_cons in Hn. destruct Hn as (N1 & N2 & N3 & N4 & N5 & _).
  unfold signal, task_signal. destruct (Z.ltb_spec NSIG sig); [unfold NSIG in *; lia |].
  rewrite (proj2 (Z.eqb_neq sig SIGKILL) N1), (proj2 (Z.eqb_neq sig SIGSTOP) N2). cbn [orb].
  unfold upd_task, load_task. cbn [with_task mc_set_k mc_k ks_set_tasks ks_tasks]. rewrite lookup_insert_eq, bind_Ret. cbn [t_set_regs t_mask t_handlers].
  unfold mask_bit. destruct (Z.ltb_spec sig 0); [lia |]. destruct (Z.leb_spec 32 sig); [lia |]. cbn [orb]. rewrite Hm, bind_Ret.
  assert (aload (t_handlers t) sig = Ret sa) as -> by (apply aload_Ret; split; [lia | done]). rewrite bind_Ret, Hd. cbn [SIG_IGN SIG_DFL Z.eqb nz negb andb].
  rewrite (proj2 (Z.eqb_neq sig SIGCONT) N4), (proj2 (Z.eqb_neq sig SIGCHLD) N3), (proj2 (Z.eqb_neq sig SIGURG) N5). cbn [andb orb].
  rewrite !bind_Ret, insert_insert_eq. done.
Qed.

(** Looking up the range of an address, as the log of a page fault does, changes
    nothing. *)
Lemma vm_get_same w ctx c l addr :
  ctx_inv w ctx c l -> 0 <= addr -> addr / PAGE_SIZE < nbits (data (vc_bitmap c)) -> exists r, vm_get w ctx addr false = Ret (r, w).
Proof.
  intros [Hc Hl Hwf Hs H0 Hlist Hro Hdis] Ha Hlt. unfold vm_get. rewrite (ctx_acquire_spec _ _ _ Hc Hl), bind_Ret.
  rewrite (get_range_find _ ctx (set_ctx_lock c 1) l) by (done || apply store_ctx_lookup).
  rewrite bind_Ret, (ctx_release_spec _ _ _ (store_ctx_lookup _ _ _)), bind_Ret, store_ctx_twice. eexists. f_equal. f_equal.
  assert (set_ctx_lock (set_ctx_lock c 1) 0 = c) as -> by (destruct c; cbn in *; by subst).
  unfold store_ctx, set_ctxs. rewrite insert_id by done. by destruct w.
Qed.

(** A page fault the code does not handle: of user code, at an address that is in the
    stack or above it, or too far below it, in a task whose memory is in order. *)
Record bad_access (m : machine) (p : Z) (st : isf) : Prop := {
  ba_user : has_flag (isf_err_code st) PFE_USER = true;
  ba_addr : 0 <= isf_cr2 st < 2 ^ 32;
  ba_task : exists vmem stack sbrk c l, let s := TaskMem vmem stack sbrk 0 (mc_vm m) in
    mc_mem m !! p = Some (vmem, stack, sbrk) /\ stack_ok s /\
    (stack_lower s <= isf_cr2 st \/ isf_cr2 st < TASK_STACK_LOCATION - 511 * PAGE_SIZE) /\
    ctx_inv (mc_vm m) vmem c l /\ isf_cr2 st / PAGE_SIZE < nbits (data (vc_bitmap c));
}.

Definition with_errno (m : machine) (e : Z) : machine := mc_set_k m (ks_set_errno (mc_k m) e).

Lemma bad_access_signals m p t st :
  p <> 0 -> bad_access m p st ->
  exists e, handle_page_fault user_mapped p st (with_task m p t) = signal user_mapped (with_task (with_errno m e) p t) p SIGSEGV.
Proof.
  intros Hp [Hu Ha (vmem & stack & sbrk & c & l & Hm & Hok & Hout & Hinv & Hn)].
  unfold handle_page_fault. rewrite (proj2 (nz_true p) Hp), Hu. cbn [andb with_task mc_set_k mc_mem mc_vm mc_k]. rewrite Hm, bind_Ret.
  change (ks_errno (ks_set_tasks (mc_k m) (<[p:=t]> (ks_tasks (mc_k m))))) with (ks_errno (mc_k m)).
  destruct (page_fault_refused (TaskMem vmem stack sbrk (ks_errno (mc_k m)) (mc_vm m)) (isf_cr2 st)) as (e & ->); [done | done | done |].
  rewrite bind_Ret. cbn [tm_set_errno tm_errno tm_world tm_stack_size tm_sbrk mc_vm mc_k mc_mem]. change (-1 =? 0) with false. cbn match.
  destruct (vm_get_same _ _ _ _ (isf_cr2 st) Hinv (proj1 Ha) Hn) as (r & ->). rewrite bind_Ret, (insert_id (mc_mem m) p (vmem, stack, sbrk) Hm). by exists e.
Qed.

(** What ends a task: an exception with a signal, other than a page fault, while the
    task is not in a system call; or a page fault that is not handled. *)
Inductive fatal (m : machine) (p : Z) (t : task) (st : isf) : Z -> Z -> Prop :=
  | fatal_exception num sig : exceptions !! Z.to_nat num = Some sig -> 0 <= num -> num <> 14 -> t_state t <> SYSCALL -> fatal m p t st num sig
  | fatal_page : bad_access m p st -> fatal m p t st 14 SIGSEGV.

Lemma dies_with_errno m p t sig e : dies_of m p t sig -> dies_of (with_errno m e) p t sig.
Proof. by intros []. Qed.

Lemma handler_ends num st m p t sig :
  dies_of m p t sig -> fatal m p t st num sig ->
  0 <= num < 21 /\ exists e, (num <> 14 -> e = ks_errno (mc_k m)) /\
  exception_handler user_mapped p num st (with_task m p (t_set_regs t (isf_regs st))) =
    Ret (st, with_task (with_errno m e) p (t_set_yield (t_set_exit (t_set_state (t_set_regs t (isf_regs st)) TERMINATED) (Z.lor 0x100 sig)) true)).
Proof.
  intros Hd Hf. pose proof Hd as [_ _ Hp Ht [Hsig _] _ _]. unfold exception_handler. change (Z.of_nat (length exceptions)) with 21.
  destruct Hf as [num sig Hex Hn0 Hn14 Hs | Hb].
  - assert (num < 21) as Hlt by (apply lookup_lt_Some in Hex; simpl in Hex; lia). split; [lia |]. exists (ks_errno (mc_k m)). split; [done |].
    assert (with_errno m (ks_errno (mc_k m)) = m) as -> by (by destruct m as [[] ? ?]).
    destruct (Z.leb_spec 21 num); [lia |]. assert (aload exceptions num = Ret sig) as -> by (by apply aload_Ret). rewrite bind_Ret.
    rewrite (proj2 (Z.eqb_neq num 14) Hn14), (proj2 (Z.eqb_neq sig 0)), (proj2 (Z.eqb_neq p 0) Hp) by lia. cbn [orb].
    unfold load_task. cbn [with_task mc_set_k mc_k ks_set_tasks ks_tasks]. rewrite lookup_insert_eq, bind_Ret.
    rewrite bool_decide_eq_false_2 by done. fold (ks_set_tasks (mc_k m) (<[p:=t_set_regs t (isf_regs st)]> (ks_tasks (mc_k m)))).
    change (Machine _ (mc_vm m) (mc_mem m)) with (with_task m p (t_set_regs t (isf_regs st))).
    by rewrite (signal_ends _ _ t sig (isf_regs st) Hd), bind_Ret.
  - split; [lia |]. destruct (bad_access_signals m p (t_set_regs t (isf_regs st)) st Hp Hb) as (e & E). exists e. split; [lia |].
    change (21 <=? 14) with false. change (aload exceptions 14) with (Ret SIGSEGV). rewrite bind_Ret. change (14 =? 14) with true. cbn match.
    by rewrite E, (signal_ends _ _ t SIGSEGV (isf_regs st) (dies_with_errno _ _ _ _ e Hd)), bind_Ret.
Qed.

(** What the dispatch does once the handler has ended the task. *)
Lemma dispatch_ended fuel idle tab num st m p t sig e :
  dies_of m p t sig -> num <> IRQ 0 -> num <> 0x31 ->
  aload tab num = Ret (Some (IntReg (exception_handler user_mapped) true) :: replicate 9 None) ->
  exception_handler user_mapped p num st (with_task m p (t_set_regs t (isf_regs st))) =
    Ret (st, with_task (with_errno m e) p (t_set_yield (t_set_exit (t_set_state (t_set_regs t (isf_regs st)) TERMINATED) (Z.lor 0x100 sig)) true)) ->
  int_dispatch mc_k mc_set_k user_mapped fuel idle tab num st m =
    ('(qe, k) ← scheduler_select user_mapped fuel (mc_k (with_task (with_errno m e) p (ended t st sig))) idle;
     Ret (if nz qe then Some qe else None, st, mc_set_k m k)).
Proof.
  intros [Hsc Hc Hp Ht _ _ _] Hn1 Hn2 Hrow Hh. unfold int_dispatch, scheduler_store_isf. rewrite Hsc, Hc, bind_Ret.
  assert (nz p = true) as Hnz by (unfold nz; by destruct (Z.eqb_spec p 0)). rewrite Hnz.
  rewrite (upd_task_Ret _ _ t) by done. rewrite bind_Ret.
  rewrite Hrow, bind_Ret. fold (with_task m p (t_set_regs t (isf_regs st))).
  assert (scheduler_get_current (mc_k (with_task m p (t_set_regs t (isf_regs st)))) = Ret p) as -> by exact Hc. rewrite bind_Ret.
  cbn [run_handlers ir_handler replicate]. rewrite Hh, !bind_Ret, Hnz.
  unfold load_task at 1. cbn [with_task mc_set_k mc_k ks_set_tasks ks_tasks]. rewrite lookup_insert_eq, !bind_Ret. cbn [t_interrupt_yield t_set_yield].
  rewrite (proj2 (Z.eqb_neq num (IRQ 0)) Hn1), (proj2 (Z.eqb_neq num 0x31) Hn2). cbn [orb].
  unfold upd_task, load_task. cbn [ks_tasks ks_set_tasks]. rewrite lookup_insert_eq, !bind_Ret, insert_insert_eq.
  unfold ended, ks_set_tasks. cbn [t_set_yield t_set_exit t_set_state t_set_regs]. cbn [ks_qes ks_current ks_sched ks_tick ks_kmem ks_fg ks_workers ks_errno ks_events].
  done.
Qed.

(** C15: a fault of a task that would die of it ends that task and nothing else.  The
    fault is an exception that has a signal, other than a page fault, while the task is
    not in a system call, or a page fault of user code that is no growth of the stack;
    the signal is not blocked and has its default action.  Then the dispatch saves the
    registers of the task, marks it terminated by the signal, and leaves the choice of
    what runs next to the scheduler; no other task, no memory and no other part of the
    kernel changes (but the error number, for a page fault), and there is no panic. *)
Theorem fault_ends_task fuel idle num st m p t sig :
  dies_of m p t sig -> fatal m p t st num sig ->
  exists tab e, task_exception_init user_mapped no_handlers = Ret tab /\ (num <> 14 -> e = ks_errno (mc_k m)) /\
    int_dispatch mc_k mc_set_k user_mapped fuel idle tab num st m =
      ('(qe, k) ← scheduler_select user_mapped fuel (mc_k (with_task (with_errno m e) p (ended t st sig))) idle;
       Ret (if nz qe then Some qe else None, st, mc_set_k m k)).
Proof.
  intros Hd Hf. destruct (handler_ends num st m p t sig Hd Hf) as (Hn & e & He & Hh).
  destruct (exception_row num) as (tab & E & Hrow); [lia |]. exists tab, e. split; [done |]. split; [done |].
  apply (dispatch_ended fuel idle tab num st m p t sig); [done | unfold IRQ; lia | lia | done | done].
Qed.

End Faults.

(** * Examples *)

(** The machine of SchedSpec.v, where the second task runs. *)
Definition ex_kernel : kstate := ks_set_qes (sched_ex RUNNING RUNNING RUNNING) (ks_qes (sched_ex RUNNING RUNNING RUNNING)) 0x20.
Definition ex_machine : machine := Machine ex_kernel tall_world {[0x2000 := (EX_TASK, 0x2000, 0x5000)]}.
Definition ex_isf (cr2 err : Z) : isf := Isf (Regs 1 2 3 4 5 6 7) cr2 err.

(** The same with the memory of VmSpec.v. *)
Definition ex_machine_vm : machine := Machine ex_kernel ex_world {[0x2000 := (EX_TASK, 0x2000, 0x5000)]}.

Lemma ex_dies m sig : mc_k m = ex_kernel -> sig = SIGFPE \/ sig = SIGSEGV -> dies_of m 0x2000 (sched_task 2 0x1000 0x20 RUNNING) sig.
Proof.
  intros Em Hs. split; rewrite ?Em; try reflexivity.
  - lia.
  - destruct Hs as [-> | ->]; (split; [unfold SIGFPE, SIGSEGV; lia |]); vm_compute; intros H;
      repeat (apply elem_of_cons in H as [H | H]; [lia |]); by apply not_elem_of_nil in H.
  - exists (Sigaction 0 0 0). split; [by destruct Hs as [-> | ->] | reflexivity].
Qed.

(** Its task reads through a null pointer. *)
Lemma ex_bad_access : bad_access ex_machine_vm 0x2000 (ex_isf 8 4).
Proof.
  split; [reflexivity | cbn; lia |]. exists EX_TASK, 0x2000, 0x5000, (ex_ctx 0x200 0), [(0x200, ex_range EX_TASK 0x8000)].
  split; [reflexivity |]. split; [split; [unfold PAGE_SIZE; cbn [tm_stack_size]; lia | reflexivity] |].
  split; [right; reflexivity |]. split; [apply ex_task_inv | reflexivity].
Qed.

(** The second task divides by 0: the third one runs.  It follows a null pointer: it
    is ended before the scheduler chooses. *)
Lemma fault_ends_task_witness :
  (exists tab, task_exception_init (fun _ _ => true) no_handlers = Ret tab /\
    (r ← int_dispatch mc_k mc_set_k (fun _ _ => true) 8 0 tab 0 (ex_isf 0 0) ex_machine; Ret r.1.1) = Ret (Some 0x30)) /\
  exists tab e, task_exception_init (fun _ _ => true) no_handlers = Ret tab /\
    int_dispatch mc_k mc_set_k (fun _ _ => true) 8 0 tab 14 (ex_isf 8 4) ex_machine_vm =
      ('(qe, k) ← scheduler_select (fun _ _ => true) 8
         (mc_k (with_task (with_errno ex_machine_vm e) 0x2000 (ended (sched_task 2 0x1000 0x20 RUNNING) (ex_isf 8 4) SIGSEGV))) 0;
       Ret (if nz qe then Some qe else None, ex_isf 8 4, mc_set_k ex_machine_vm k)).
Proof.
  split.
  - destruct (fault_ends_task (fun _ _ => true) 8 0 0 (ex_isf 0 0) ex_machine 0x2000 (sched_task 2 0x1000 0x20 RUNNING) SIGFPE) as (tab & e & E & He & Hd).
    + apply ex_dies; [reflexivity | by left].
    + apply fatal_exception; [reflexivity | lia | lia | discriminate].
    + exists tab. split; [exact E |]. rewrite Hd, (He ltac:(lia)). vm_compute. reflexivity.
  - destruct (fault_ends_task (fun _ _ => true) 8 0 14 (ex_isf 8 4) ex_machine_vm 0x2000 (sched_task 2 0x1000 0x20 RUNNING) SIGSEGV) as (tab & e & E & _ & Hd).
    + apply ex_dies; [reflexivity | by right].
    + apply fatal_page, ex_bad_access.
    + exists tab, e. split; [exact E | exact Hd].
Defined.

(** A fault below the stack: the stack grows and the task goes on. *)
Lemma stack_fault_resumes :
  (m ← handle_page_fault (fun _ _ => true) 0x2000 (ex_isf 0xbfffdabc 6) ex_machine; Ret (mc_mem m !! 0x2000)) = Ret (Some (EX_TASK, 0x4000, 0x5000)).
Proof. vm_compute. reflexivity. Qed.

(** A fault of the kernel is a panic. *)
Lemma kernel_fault_panics : handle_page_fault (fun _ _ => true) 0x2000 (ex_isf 0xbfffdabc 2) ex_machine = Panic.
Proof. reflexivity. Qed.
