(* ===== verification/Time.v ===== *)
(** The clock: src/src/lib/time.c.

    The date of the real time clock becomes a time stamp, which then follows the
    ticks of the timer.  The theorem compares the conversion with a calendar that
    counts days year by year and month by month. *)
From stdpp Require Import base numbers list.
From Stdlib Require Import ZArith Lia Bool.
From S2P Require Import Prelude.

Open Scope Z_scope.

(** * The real time clock *)

(** The registers 0, 2, 4, 7, 8 and 9; there is no register for the century. *)
Record rtc : Type := Rtc { r_second : Z; r_minute : Z; r_hour : Z; r_day : Z; r_month : Z; r_year : Z }.

#[global] Instance rtc_eq_dec : EqDecision rtc.
Proof. solve_decision. Defined.

(** The loop that reads the registers until two passes agree; [read i] is what
    pass [i] reads once no update is in progress. *)
Fixpoint read_loop (fuel : nat) (read : nat -> rtc) (i : nat) (last : rtc) : outcome rtc :=
  match fuel with
  | O => Spin
  | S fuel => let r := read i in if decide (r = last) then Ret r else read_loop fuel read (S i) r
  end.

Definition CURRENT_YEAR : Z := 2018.

(** BCD to binary, for a register of 8 bits. *)
Definition from_bcd (x : Z) : Z := u8 (Z.land x 0x0f + x / 16 * 10).

(** The digits without the bit for the afternoon. *)
Definition hour_from_bcd (x : Z) : Z :=
  u8 (Z.lor (Z.land x 0x0f + Z.land x 0x70 / 16 * 10) (Z.land x 0x80)).

Definition rtc_from_bcd (r : rtc) : rtc :=
  Rtc (from_bcd (r_second r)) (from_bcd (r_minute r)) (hour_from_bcd (r_hour r)) (from_bcd (r_day r))
    (from_bcd (r_month r)) (u32 (Z.land (r_year r) 0x0f + r_year r / 16 * 10)).

(** From the registers and register B to the time stamp. *)
Definition timestamp (registerB : Z) (r : rtc) : Z :=
  let r := if has_flag registerB 0x04 then r else rtc_from_bcd r in
  let hour := if negb (has_flag registerB 0x02) && has_flag (r_hour r) 0x80
    then (Z.land (r_hour r) 0x7f + 12) mod 24 else r_hour r in
  let year := u32 (r_year r + CURRENT_YEAR / 100 * 100) in
  let year := if year <? CURRENT_YEAR then u32 (year + 100) else year in
  let '(month, year) := if r_month r <=? 2 then (u8 (r_month r + 12), u32 (year - 1)) else (r_month r, year) in
  let t := u32 (365 * year + year / 4 - year / 100 + year / 400) in
  let t := u32 (t + (30 * month + 3 * (month + 1) / 5 + r_day r)) in
  let t := u32 (t - 719561) in
  let t := u32 (t * 86400) in
  u32 (t + (3600 * hour + 60 * r_minute r + r_second r)).

Definition read_rtc (fuel : nat) (read : nat -> rtc) (registerB : Z) : outcome Z :=
  r ← read_loop fuel read 1 (read 0%nat);
  Ret (timestamp registerB r).

(** * The time *)

(** [last_timestamp] and [last_tick], which has 64 bits. *)
Record clock : Type := Clock { last_timestamp : Z; last_tick : Z }.

(** [stick] is the tick of the timer, [rate] its ticks per second. *)
Definition time_get (c : clock) (rate stick : Z) : Z * clock :=
  if stick <=? u64 (last_tick c + rate) then (last_timestamp c, c) else
  let offset := u32 (stick - last_tick c) in
  let t := u32 (last_timestamp c + offset / rate) in
  (t, Clock t stick).

Definition time_init (fuel : nat) (read : nat -> rtc) (registerB tick : Z) : outcome clock :=
  t ← read_rtc fuel read registerB; Ret (Clock t tick).

(** * A calendar *)

Definition leap (y : Z) : bool := ((y mod 4 =? 0) && negb (y mod 100 =? 0)) || (y mod 400 =? 0).

Definition days_in_month (y m : Z) : Z :=
  if m =? 2 then (if leap y then 29 else 28)
  else if (m =? 4) || (m =? 6) || (m =? 9) || (m =? 11) then 30 else 31.

Definition days_in_year (y : Z) : Z := if leap y then 366 else 365.

Definition sum (l : list Z) : Z := foldr Z.add 0 l.

(** The days from 1 January 1970 to a day. *)
Definition days_since_1970 (y m d : Z) : Z :=
  sum (map days_in_year (seqZ 1970 (y - 1970))) + sum (map (days_in_month y) (seqZ 1 (m - 1))) + (d - 1).

Record date : Type := Date { d_year : Z; d_month : Z; d_day : Z; d_hour : Z; d_minute : Z; d_second : Z }.

Definition unix_time (x : date) : Z :=
  days_since_1970 (d_year x) (d_month x) (d_day x) * 86400 + d_hour x * 3600 + d_minute x * 60 + d_second x.

(** The dates the clock can mean. *)
Record date_ok (x : date) : Prop := {
  do_year : 2018 <= d_year x < 2118;
  do_month : 1 <= d_month x <= 12;
  do_day : 1 <= d_day x <= days_in_month (d_year x) (d_month x);
  do_hour : 0 <= d_hour x < 24;
  do_minute : 0 <= d_minute x < 60;
  do_second : 0 <= d_second x < 60;
}.

(** The registers that show a date, in BCD or in binary, with 24 hours. *)
Definition to_bcd (x : Z) : Z := x / 10 * 16 + x mod 10.

Definition shows (registerB : Z) (r : rtc) (x : date) : Prop :=
  has_flag registerB 0x02 = true /\
  r = let enc n := if has_flag registerB 0x04 then n else to_bcd n in
      Rtc (enc (d_second x)) (enc (d_minute x)) (enc (d_hour x)) (enc (d_day x)) (enc (d_month x)) (enc (d_year x mod 100)).

(** A statement about all numbers below [n], by evaluation. *)
Lemma forall_below (n : Z) (P : Z -> bool) x : forallb P (seqZ 0 n) = true -> 0 <= x < n -> P x = true.
Proof. intros H Hx. rewrite forallb_forall in H. apply H, list_elem_of_In, elem_of_seqZ. lia. Qed.

Lemma bcd_roundtrip x : 0 <= x < 100 -> from_bcd (to_bcd x) = x /\ u32 (Z.land (to_bcd x) 0x0f + to_bcd x / 16 * 10) = x.
Proof.
  intros Hx. pose proof (forall_below 100 (fun x => (from_bcd (to_bcd x) =? x) && (u32 (Z.land (to_bcd x) 0x0f + to_bcd x / 16 * 10) =? x)) x
    ltac:(vm_compute; reflexivity) Hx) as H. apply andb_true_iff in H as [H1 H2]. split; by apply Z.eqb_eq.
Qed.

Lemma hour_roundtrip x : 0 <= x < 24 -> hour_from_bcd (to_bcd x) = x /\ has_flag x 0x80 = false.
Proof.
  intros Hx. pose proof (forall_below 24 (fun x => (hour_from_bcd (to_bcd x) =? x) && negb (has_flag x 0x80)) x
    ltac:(vm_compute; reflexivity) Hx) as H. apply andb_true_iff in H as [H1 H2]. split; [by apply Z.eqb_eq | by apply negb_true_iff].
Qed.

(** The formula for the days of a year and a month, without the day. *)
Definition formula_days (y m : Z) : Z :=
  let '(month, year) := if m <=? 2 then (m + 12, y - 1) else (m, y) in
  365 * year + year / 4 - year / 100 + year / 400 + (30 * month + 3 * (month + 1) / 5) - 719561.

Lemma formula_days_spec y m d :
  2018 <= y < 2118 -> 1 <= m <= 12 -> formula_days y m + d = days_since_1970 y m d.
Proof.
  intros Hy Hm. assert (forall_ok : forallb (fun i => forallb (fun j => formula_days (2018 + i) (1 + j) + 1 =? days_since_1970 (2018 + i) (1 + j) 1) (seqZ 0 12)) (seqZ 0 100) = true)
    by (vm_compute; reflexivity).
  pose proof (forall_below 100 _ (y - 2018) forall_ok ltac:(lia)) as H1. cbv beta in H1.
  pose proof (forall_below 12 _ (m - 1) H1 ltac:(lia)) as H2. cbv beta in H2. apply Z.eqb_eq in H2.
  replace (2018 + (y - 2018)) with y in H2 by lia. replace (1 + (m - 1)) with m in H2 by lia.
  unfold days_since_1970 in *. lia.
Qed.

(** What the registers mean once they are decoded. *)
Lemma decoded registerB r x :
  date_ok x -> shows registerB r x ->
  (if has_flag registerB 0x04 then r else rtc_from_bcd r) =
    Rtc (d_second x) (d_minute x) (d_hour x) (d_day x) (d_month x) (d_year x mod 100).
Proof.
  intros [Hy Hm Hd Hh Hmi Hs] [_ ->]. destruct (has_flag registerB 0x04); [done |].
  assert (d_day x < 100) by (unfold days_in_month in Hd; repeat case_match; lia).
  unfold rtc_from_bcd. cbn [r_second r_minute r_hour r_day r_month r_year].
  rewrite (proj1 (bcd_roundtrip (d_second x) ltac:(lia))), (proj1 (bcd_roundtrip (d_minute x) ltac:(lia))),
    (proj1 (hour_roundtrip (d_hour x) ltac:(lia))), (proj1 (bcd_roundtrip (d_day x) ltac:(lia))),
    (proj1 (bcd_roundtrip (d_month x) ltac:(lia))), (proj2 (bcd_roundtrip (d_year x mod 100) ltac:(by apply Z.mod_pos_bound))).
  done.
Qed.

Lemma full_year y :
  2018 <= y < 2118 ->
  (let year := u32 (y mod 100 + CURRENT_YEAR / 100 * 100) in if year <? CURRENT_YEAR then u32 (year + 100) else year) = y.
Proof.
  intros Hy. pose proof (forall_below 100 (fun i => (let year := u32 ((2018 + i) mod 100 + CURRENT_YEAR / 100 * 100) in
    if year <? CURRENT_YEAR then u32 (year + 100) else year) =? 2018 + i) (y - 2018) ltac:(vm_compute; reflexivity) ltac:(lia)) as H.
  cbv beta zeta in H. apply Z.eqb_eq in H. replace (2018 + (y - 2018)) with y in H by lia. exact H.
Qed.

(** Arithmetic of 32 bits, done at the end. *)
Lemma u32_steps a b c s : u32 (u32 (u32 (u32 (u32 a + b) - c) * 86400) + s) = u32 ((a + b - c) * 86400 + s).
Proof.
  unfold u32. rewrite (Zplus_mod_idemp_l a), (Zminus_mod_idemp_l (a + b)), (Zmult_mod_idemp_l (a + b - c)), Zplus_mod_idemp_l. done.
Qed.

Lemma timestamp_spec registerB r x :
  date_ok x -> shows registerB r x -> timestamp registerB r = u32 (unix_time x).
Proof.
  intros Hok Hsh. pose proof (decoded _ _ _ Hok Hsh) as Hdec. destruct Hok as [Hy Hm Hd Hh Hmi Hs]. destruct Hsh as [H24 _].
  unfold timestamp. rewrite Hdec. cbn [r_second r_minute r_hour r_day r_month r_year]. rewrite H24. cbn [negb andb].
  pose proof (full_year _ Hy) as Hf. cbv zeta in Hf. rewrite Hf. clear Hf.
  assert ((if d_month x <=? 2 then (u8 (d_month x + 12), u32 (d_year x - 1)) else (d_month x, d_year x)) =
    (if d_month x <=? 2 then (d_month x + 12, d_year x - 1) else (d_month x, d_year x))) as ->.
  { destruct (d_month x <=? 2); [| done]. unfold u8. by rewrite u32_small, Z.mod_small by lia. }
  pose proof (formula_days_spec (d_year x) (d_month x) (d_day x) Hy Hm) as Hdays. unfold formula_days in Hdays.
  destruct (if d_month x <=? 2 then (d_month x + 12, d_year x - 1) else (d_month x, d_year x)) as [month year] eqn:E.
  rewrite u32_steps. f_equal. unfold unix_time. rewrite <- Hdays. lia.
Qed.

(** The passes agree for the first time at [n]. *)
Definition settles (read : nat -> rtc) (n : nat) (r : rtc) : Prop :=
  (forall j, (j < n)%nat -> read (S j) <> read j) /\ read n = r /\ read (S n) = r.

Lemma read_loop_spec read n r fuel i :
  settles read n r -> (i <= n)%nat -> (n - i < fuel)%nat -> read_loop fuel read (S i) (read i) = Ret r.
Proof.
  intros (Hne & Hn & HSn). revert i. induction fuel as [| fuel IH]; intros i Hi Hf; [lia |]. cbn [read_loop].
  destruct (decide (i = n)) as [-> | Hin].
  - rewrite HSn, Hn. by rewrite decide_True.
  - rewrite decide_False by (apply Hne; lia). apply IH; lia.
Qed.

(** the time the kernel starts with is the Unix time of the date the clock
    shows, counted day by day from 1970 on, for every date from 2018 to 2117, with
    registers in BCD or in binary and a clock of 24 hours (as a number of 32 bits,
    which is exact until 2106); the date is the first one that two passes over the
    registers agree on. *)
Theorem rtc_is_unix_time fuel read n r registerB x tick :
  settles read n r -> (n < fuel)%nat -> date_ok x -> shows registerB r x ->
  time_init fuel read registerB tick = Ret (Clock (u32 (unix_time x)) tick).
Proof.
  intros Hs Hf Hok Hsh. unfold time_init, read_rtc. rewrite (read_loop_spec read n r fuel 0 Hs) by lia.
  by rewrite !bind_Ret, (timestamp_spec _ _ x).
Qed.

Definition ex_read (i : nat) : rtc := match i with O => Rtc 0x59 0x59 0x23 0x28 0x02 0x24 | _ => Rtc 0 0 0 0x29 0x02 0x24 end.

(** 29 February 2024, with the clock changing while it is read. *)
Lemma rtc_is_unix_time_witness : time_init 5 ex_read 0x02 7 = Ret (Clock 1709164800 7).
Proof.
  apply (rtc_is_unix_time 5 ex_read 1 (Rtc 0 0 0 0x29 0x02 0x24) 0x02 (Date 2024 2 29 0 0 0) 7).
  - split; [| done]. intros [| j] Hj; [done | lia].
  - lia.
  - split; vm_compute; intuition discriminate.
  - split; reflexivity.
Defined.

(** * The running clock *)

(** The time never goes back, and is never ahead of the ticks. *)
Theorem time_get_bounded c rate stick t c' :
  0 < rate -> 0 <= last_tick c -> last_tick c + rate < 2 ^ 64 -> 0 <= stick < 2 ^ 32 ->
  0 <= last_timestamp c -> last_timestamp c + stick / rate < 2 ^ 32 ->
  time_get c rate stick = (t, c') ->
  last_timestamp c <= t /\ (t - last_timestamp c) * rate <= last_tick c' - last_tick c /\ last_timestamp c' = t.
Proof.
  intros Hr Hl Hu Hs Ht Hmax. unfold time_get. unfold u64. rewrite Z.mod_small by lia.
  destruct (Z.leb_spec stick (last_tick c + rate)); [intros [= <- <-]; lia |]. intros [= <- <-]. cbn.
  rewrite (u32_small (stick - last_tick c)) by lia.
  assert (0 <= (stick - last_tick c) / rate <= stick / rate) by (split; [apply Z.div_pos; lia | apply Z.div_le_mono; lia]).
  rewrite u32_small by lia. pose proof (Z.mul_div_le (stick - last_tick c) rate Hr). lia.
Qed.

(** What is left of a second is lost each time: asked every 1999 ticks, a clock
    with 1000 ticks per second is at half the time after ten calls. *)
Fixpoint ask (n : nat) (c : clock) (stick : Z) : clock :=
  match n with O => c | S n => ask n (time_get c 1000 stick).2 (stick + 1999) end.

Lemma time_loses_ticks : last_timestamp (ask 10 (Clock 0 0) 1999) = 10 /\ last_tick (ask 10 (Clock 0 0) 1999) = 19990.
Proof. vm_compute. done. Qed.

(** When the counter of ticks has wrapped around, the clock stands still. *)
Lemma time_stops c rate stick :
  0 < rate < 2 ^ 32 -> 2 ^ 32 - rate <= last_tick c < 2 ^ 32 -> 0 <= stick < 2 ^ 32 -> time_get c rate stick = (last_timestamp c, c).
Proof.
  intros Hr Hl Hs. unfold time_get, u64. rewrite Z.mod_small by lia. destruct (Z.leb_spec stick (last_tick c + rate)); [done | lia].
Qed.

(** With a clock of 12 hours noon becomes midnight, and midnight noon. *)
Lemma noon_is_midnight :
  timestamp 0 (Rtc 0 0 0x92 0x01 0x01 0x24) = unix_time (Date 2024 1 1 0 0 0) /\
  timestamp 0 (Rtc 0 0 0x12 0x01 0x01 0x24) = unix_time (Date 2024 1 1 12 0 0).
Proof. vm_compute. done. Qed.
