(* ===== verification/KLog.v ===== *)
(** The kernel log: src/src/lib/log.c.

    Messages are stored one after the other, each behind a header, in a buffer
    that is a static page at first and is then doubled when a message does not
    fit.  What [vsnprintf] has written to [fmt_string] and what it returns are
    arguments of [log]; output to the serial line and the console is a result.
    The theorem: reading the stored log gives back the messages, in order. *)
From stdpp Require Import base numbers list.
From Stdlib Require Import ZArith Lia Bool.
From S2P Require Import Prelude Str Bytes Buffer.

Open Scope Z_scope.

Definition LOG_DEBUG : Z := 1.
Definition LOG_INFO : Z := 2.
Definition LOG_WARN : Z := 3.
Definition LOG_ERR : Z := 4.

(** [sizeof(struct log_entry)], and the offsets of its fields on i386. *)
Definition SIZEOF_LOG_ENTRY : Z := 20.

(** The variables of the file; [lg_early] says that [buffer] is [early_buffer]. *)
Record klog : Type := KLog {
  lg_buffer : list Z;
  lg_early : bool;
  lg_buffer_size : Z;
  lg_size : Z;
  lg_entries : Z;
  lg_console_level : Z;
}.

Definition log_start (level : Z) : klog := KLog (replicate (Z.to_nat PAGE_SIZE) 0) true PAGE_SIZE 0 0 level.

Section Log.

(** [kmalloc_ready], [zmalloc] succeeds, the tick and the time. *)
Context (ready alloc : bool) (tick now : Z).
Implicit Types k : klog.

(** The larger buffer, or None when there is none yet. *)
Definition log_grow k (new_size : Z) : outcome (option klog) :=
  if new_size >? lg_buffer_size k then
    if negb ready then Ret None else
    let size := u32 (lg_buffer_size k * 2) in
    if negb alloc then Fault else
    b ← memcpy (replicate (Z.to_nat size) 0) 0 (lg_buffer k) 0 (lg_size k);
    Ret (Some (KLog b false size (lg_size k) (lg_entries k) (lg_console_level k)))
  else Ret (Some k).

Definition store k (level : Z) (string : list Z) (len : Z) : outcome klog :=
  let new_size := u32 (lg_size k + len + SIZEOF_LOG_ENTRY) in
  r ← log_grow k new_size;
  match r with
  | None => Ret k
  | Some k =>
    let entry := lg_size k in
    b ← store_fields (lg_buffer k) [(entry, [u8 level]); (entry + 4, le_bytes 8 tick); (entry + 12, le_bytes 4 now); (entry + 16, le_bytes 4 len)];
    b ← memcpy b (entry + SIZEOF_LOG_ENTRY) string 0 len;
    Ret (KLog b (lg_early k) (lg_buffer_size k) new_size (u32 (lg_entries k + 1)) (lg_console_level k))
  end.

(** What goes to the serial line (from [serial_level] on, 0 for never) and to the
    console. *)
Definition log (serial_level : Z) k (level : Z) (fmt_string : list Z) (fmt_len : Z) : outcome (bool * bool * klog) :=
  k ← (if level >? LOG_DEBUG then store k level fmt_string (u32 (fmt_len + 1)) else Ret k);
  Ret (nz serial_level && (serial_level <=? level), nz (lg_console_level k) && (lg_console_level k <=? level), k).

(** [log_dump]: the addresses of the messages it prints.  The address of the first
    entry is taken before the function logs a message itself: when that message
    moves the log, the loop goes on in the old buffer, which is either the static
    page or memory that has been freed. *)
Fixpoint dump_loop (n : nat) (b : list Z) (entry : Z) : outcome (list Z) :=
  match n with
  | O => Ret []
  | S n =>
    len ← load_le 4 b (entry + 16);
    l ← dump_loop n b (entry + len + SIZEOF_LOG_ENTRY);
    Ret (entry + SIZEOF_LOG_ENTRY :: l)
  end.

Definition log_dump (serial_level : Z) k (fmt_string : list Z) (fmt_len : Z) : outcome (list Z * klog) :=
  r ← log serial_level k LOG_INFO fmt_string fmt_len;
  let k' := r.2 in
  l ← (if lg_buffer_size k' =? lg_buffer_size k then dump_loop (Z.to_nat (lg_entries k')) (lg_buffer k') 0
       else if lg_early k then dump_loop (Z.to_nat (lg_entries k')) (lg_buffer k) 0 else Fault);
  Ret (l, k').

Definition log_set_console_level (serial_level : Z) k (level : Z) (fmt_string : list Z) (fmt_len : Z) : outcome klog :=
  r ← log serial_level (KLog (lg_buffer k) (lg_early k) (lg_buffer_size k) (lg_size k) (lg_entries k) level) LOG_INFO fmt_string fmt_len;
  Ret r.2.

End Log.

(** The result and [dest]. *)
Definition log_sfs_read (k : klog) (offset : Z) (dest : list Z) (size : Z) : outcome (Z * list Z) :=
  if lg_size k <=? offset then Ret (0, dest) else
  let size := if u32 (offset + size) >? lg_size k then u32 (lg_size k - offset) else size in
  dest ← memcpy dest 0 (lg_buffer k) offset size;
  Ret (size, dest).

(** * The stored messages *)

Record message : Type := Message { ms_level : Z; ms_tick : Z; ms_time : Z; ms_text : list Z }.

Definition message_size (x : message) : Z := SIZEOF_LOG_ENTRY + Z.of_nat (length (ms_text x)).

(** A message at an address: what a program sees that reads the log. *)
Definition message_at (b : list Z) (p : Z) (x : message) : Prop :=
  bytes_at b p 1 = [u8 (ms_level x)] /\ load_le 8 b (p + 4) = Ret (ms_tick x) /\ load_le 4 b (p + 12) = Ret (ms_time x) /\
  load_le 4 b (p + 16) = Ret (Z.of_nat (length (ms_text x))) /\ bytes_at b (p + 20) (Z.of_nat (length (ms_text x))) = ms_text x.

(** Messages one after the other between two addresses. *)
Fixpoint messages_at (b : list Z) (p : Z) (l : list message) (q : Z) : Prop :=
  match l with
  | [] => p = q
  | x :: l => message_at b p x /\ messages_at b (p + message_size x) l q
  end.

(** The log holds these messages. *)
Record log_holds (k : klog) (l : list message) : Prop := {
  lh_buffer : Z.of_nat (length (lg_buffer k)) = lg_buffer_size k;
  lh_room : lg_size k <= lg_buffer_size k;
  lh_page : PAGE_SIZE <= lg_buffer_size k < 2 ^ 31;
  lh_count : lg_entries k = Z.of_nat (length l);
  lh_messages : messages_at (lg_buffer k) 0 l (lg_size k);
}.

Definition message_ok (x : message) : Prop :=
  0 <= ms_tick x < 2 ^ 64 /\ 0 <= ms_time x < 2 ^ 32 /\ Z.of_nat (length (ms_text x)) <= 500.

Lemma messages_end b p l q : messages_at b p l q -> p <= q.
Proof.
  revert p. induction l as [| x l IH]; intros p; cbn [messages_at]; [lia |]. intros [_ H]. apply IH in H.
  unfold message_size, SIZEOF_LOG_ENTRY in H. lia.
Qed.

(** There are no more messages than bytes. *)
Lemma messages_count b p l q : messages_at b p l q -> Z.of_nat (length l) <= q - p.
Proof.
  revert p. induction l as [| x l IH]; intros p; cbn [messages_at length]; [lia |]. intros [_ H]. apply IH in H.
  unfold message_size, SIZEOF_LOG_ENTRY in H. lia.
Qed.

(** Only the bytes of the messages matter. *)
Lemma message_same b b' p x :
  0 <= p -> p + message_size x <= Z.of_nat (length b) -> p + message_size x <= Z.of_nat (length b') -> same_on b b' p (p + message_size x) ->
  message_at b p x -> message_at b' p x.
Proof.
  unfold message_size, SIZEOF_LOG_ENTRY. intros Hp Hl Hl' Hs (H1 & H2 & H3 & H4 & H5).
  assert (forall q n, p <= q -> 0 <= n -> q + n <= p + (20 + Z.of_nat (length (ms_text x))) -> bytes_at b' q n = bytes_at b q n) as Hb.
  { intros q n Hq Hn Hqn. apply same_on_bytes; [lia |]. intros k Hk. apply Hs. lia. }
  assert (forall q n, p <= q -> q + Z.of_nat n <= p + (20 + Z.of_nat (length (ms_text x))) -> load_le n b' q = load_le n b q) as Hle.
  { intros q n Hq Hqn. unfold load_le, load_bytes.
    destruct (Z.leb_spec 0 q); [| lia]. destruct (Z.leb_spec (q + Z.of_nat n) (Z.of_nat (length b'))); [| lia].
    destruct (Z.leb_spec (q + Z.of_nat n) (Z.of_nat (length b))); [| lia]. by rewrite Hb by lia. }
  split; [by rewrite Hb by lia |]. split; [by rewrite Hle by lia |]. split; [by rewrite Hle by lia |].
  split; [by rewrite Hle by lia |]. by rewrite Hb by lia.
Qed.

Lemma messages_same b b' p l q :
  0 <= p -> q <= Z.of_nat (length b) -> q <= Z.of_nat (length b') -> same_on b b' p q -> messages_at b p l q -> messages_at b' p l q.
Proof.
  revert p. induction l as [| x l IH]; intros p Hp Hq Hl Hs; cbn [messages_at]; [done |]. intros [Hx H].
  pose proof (messages_end _ _ _ _ H) as He. assert (0 <= message_size x) by (unfold message_size, SIZEOF_LOG_ENTRY; lia). split.
  - apply (message_same b); [done | lia | lia | | exact Hx]. intros k Hk. apply Hs. lia.
  - apply IH; [lia | done | done | | exact H]. intros k Hk. apply Hs. lia.
Qed.

Lemma messages_app b p l x q : messages_at b p l q -> message_at b q x -> messages_at b p (l ++ [x]) (q + message_size x).
Proof.
  revert p. induction l as [| y l IH]; intros p; cbn [messages_at app].
  - intros ->. done.
  - intros [Hy H] Hx. split; [done |]. by apply IH.
Qed.

Lemma bytes_same_on b b' p n : 0 <= p -> bytes_at b' p n = bytes_at b p n -> same_on b b' p (p + n).
Proof.
  intros Hp E k Hk. pose proof (lookup_bytes_at b' p n (k - Z.to_nat p)) as E'. rewrite E, lookup_bytes_at in E'.
  rewrite !decide_True in E' by lia. by replace (Z.to_nat p + (k - Z.to_nat p))%nat with k in E' by lia.
Qed.

(** Copying is a store of the bytes. *)
Lemma memcpy_store dst d src s n :
  0 <= d -> 0 <= s -> 0 <= n -> d + n <= Z.of_nat (length dst) -> s + n <= Z.of_nat (length src) ->
  memcpy dst d src s n = store_bytes dst d (bytes_at src s n).
Proof.
  intros. rewrite memcpy_spec by lia. unfold store_bytes. rewrite length_bytes_at by lia.
  destruct (Z.leb_spec 0 d); [| lia]. destruct (Z.leb_spec (d + Z.of_nat (Z.to_nat n)) (Z.of_nat (length dst))); [| lia].
  cbn [andb]. f_equal. apply list_eq. intros i. rewrite lookup_splice by (rewrite ?length_bytes_at by lia; lia).
  rewrite length_bytes_at by lia. case_decide.
  - apply list_lookup_inserts. all: rewrite ?length_bytes_at by lia; lia.
  - destruct (decide (i < Z.to_nat d)%nat); [by apply list_lookup_inserts_lt |].
    apply list_lookup_inserts_ge. rewrite length_bytes_at by lia. lia.
Qed.

(** Writing one entry. *)
Definition entry_fields (p : Z) (x : message) : list (Z * list Z) :=
  [(p, [u8 (ms_level x)]); (p + 4, le_bytes 8 (ms_tick x)); (p + 12, le_bytes 4 (ms_time x));
   (p + 16, le_bytes 4 (Z.of_nat (length (ms_text x))))].

Lemma write_entry b p x string :
  0 <= p -> p + message_size x <= Z.of_nat (length b) -> message_ok x -> prefix (ms_text x) string ->
  exists b', (b ← store_fields b (entry_fields p x);
              memcpy b (p + SIZEOF_LOG_ENTRY) string 0 (Z.of_nat (length (ms_text x)))) = Ret b' /\
    length b' = length b /\ same_on b b' 0 p /\ message_at b' p x.
Proof.
  unfold message_size, SIZEOF_LOG_ENTRY. intros Hp Hl (Ht & Hn & Hx) [rest ->].
  destruct (store_fields_spec b (entry_fields p x)) as (b1 & -> & Hl1 & Hb1 & Hs1).
  { unfold entry_fields. repeat (apply Forall_cons; split); [.. | by apply Forall_nil]; cbn [fst snd]; rewrite ?length_le_bytes; cbn [length]; lia. }
  { unfold entry_fields. repeat constructor; unfold apart; cbn [fst snd]; rewrite ?length_le_bytes; cbn [length]; lia. }
  rewrite bind_Ret, memcpy_store by (rewrite ?length_app; lia).
  replace (bytes_at (ms_text x ++ rest) 0 (Z.of_nat (length (ms_text x)))) with (ms_text x) by (symmetry; apply (bytes_at_mid [])).
  destruct (store_bytes_spec b1 (p + 20) (ms_text x)) as (b2 & -> & Hl2 & Hb2 & Hs2); [lia | lia |].
  exists b2. split; [done |]. split; [congruence |]. split.
  { intros k Hk. rewrite Hs2 by lia. apply Hs1. unfold entry_fields.
    repeat (apply Forall_cons; split); [.. | by apply Forall_nil]; cbn [fst snd]; lia. }
  unfold entry_fields in Hb1. rewrite !Forall_cons in Hb1. cbn [fst snd] in Hb1. rewrite !length_le_bytes in Hb1.
  destruct Hb1 as (H1 & H2 & H3 & H4 & _).
  assert (forall q n, p <= q -> q + n <= p + 20 -> bytes_at b2 q n = bytes_at b1 q n) as Hsame.
  { intros q n Hq Hqn. apply same_on_bytes; [lia |]. intros k Hk. apply Hs2. lia. }
  split; [by rewrite Hsame by lia |].
  split; [apply load_le_bytes_at; [lia | lia | exact Ht | by rewrite Hsame by lia] |].
  split; [apply load_le_bytes_at; [lia | lia | exact Hn | by rewrite Hsame by lia] |].
  split; [apply load_le_bytes_at; [lia | lia | change (2 ^ (8 * Z.of_nat 4)) with 4294967296; lia | by rewrite Hsame by lia] | exact Hb2].
Qed.

(** The buffer that a message is written to holds what was there before. *)
Lemma log_grow_holds ready k l new_size :
  log_holds k l -> lg_buffer_size k < 2 ^ 30 -> new_size <= lg_size k + 520 -> ready = true \/ new_size <= lg_buffer_size k ->
  exists k', log_grow ready true k new_size = Ret (Some k') /\ log_holds k' l /\ new_size <= lg_buffer_size k' /\
    lg_size k' = lg_size k /\ lg_entries k' = lg_entries k /\ lg_console_level k' = lg_console_level k /\
    lg_buffer_size k' <= Z.max (lg_buffer_size k) (2 * new_size) /\ (new_size <= lg_buffer_size k -> lg_buffer_size k' = lg_buffer_size k).
Proof.
  intros [Hb Hr Hp Hc Hm] Hmax Hn Hready. unfold log_grow. rewrite Z.gtb_ltb. destruct (Z.ltb_spec (lg_buffer_size k) new_size).
  - destruct Hready as [-> | ?]; [| lia]. cbn [negb]. pose proof (messages_end _ _ _ _ Hm). change PAGE_SIZE with 4096 in *. rewrite u32_small by lia.
    set (new := replicate _ 0). assert (length new = Z.to_nat (lg_buffer_size k * 2)) as Hnew by apply length_replicate.
    rewrite memcpy_store by (rewrite ?Hnew; lia).
    assert (length (bytes_at (lg_buffer k) 0 (lg_size k)) = Z.to_nat (lg_size k)) as Hlb by (apply length_bytes_at; lia).
    destruct (store_bytes_spec new 0 (bytes_at (lg_buffer k) 0 (lg_size k))) as (b & -> & Hl & Hbs & _); [lia | lia |].
    rewrite bind_Ret. eexists. split; [done |]. cbn [lg_buffer lg_early lg_buffer_size lg_size lg_entries lg_console_level].
    split; [| split; [lia | split_and!; done || lia]]. split; cbn [lg_buffer lg_early lg_buffer_size lg_size lg_entries lg_console_level].
    { rewrite Hl, Hnew. lia. } { lia. } { change PAGE_SIZE with 4096. lia. } { done. }
    apply (messages_same (lg_buffer k)); [lia | lia | lia | | done]. intros i Hi.
    rewrite Hlb in Hbs. replace (Z.of_nat (Z.to_nat (lg_size k))) with (lg_size k) in Hbs by lia.
    by apply (bytes_same_on (lg_buffer k) b 0 (lg_size k)).
  - exists k. split_and!; done || lia.
Qed.

Lemma store_holds ready k l tick now level string x :
  log_holds k l -> lg_buffer_size k < 2 ^ 30 -> ready = true \/ lg_size k + message_size x <= lg_buffer_size k -> message_ok x -> x = Message level tick now (ms_text x) -> prefix (ms_text x) string ->
  exists k', store ready true tick now k level string (Z.of_nat (length (ms_text x))) = Ret k' /\ log_holds k' (l ++ [x]) /\
    lg_console_level k' = lg_console_level k /\ lg_size k' = lg_size k + message_size x /\
    lg_buffer_size k' <= Z.max (lg_buffer_size k) (2 * lg_size k') /\
    (lg_size k + message_size x <= lg_buffer_size k -> lg_buffer_size k' = lg_buffer_size k).
Proof.
  intros Hk Hmax Hready Hok Hx Hpre. pose proof Hok as (_ & _ & Hlen). pose proof Hk as [_ Hr Hp Hc Hm].
  pose proof (messages_end _ _ _ _ Hm). change PAGE_SIZE with 4096 in *. unfold store.
  assert (lg_size k + Z.of_nat (length (ms_text x)) + SIZEOF_LOG_ENTRY = lg_size k + message_size x) as Es by (unfold message_size; lia).
  rewrite Es. rewrite u32_small by (unfold message_size, SIZEOF_LOG_ENTRY; lia).
  destruct (log_grow_holds ready k l (lg_size k + message_size x) Hk Hmax) as (k' & -> & Hk' & Hroom & Hs & He & Hcl & Hmx & Hsm);
    [unfold message_size, SIZEOF_LOG_ENTRY; lia | done |]. rewrite bind_Ret.
  destruct Hk' as [Hb' Hr' Hp' Hc' Hm']. rewrite Hs in *.
  destruct (write_entry (lg_buffer k') (lg_size k) x string) as (b & Hw & Hl & Hsame & Hat); [done | lia | done | done |].
  rewrite Hx in Hw at 1. unfold entry_fields in Hw. cbn [ms_level ms_tick ms_time ms_text] in Hw.
  assert (forall (A B C : Type) (a : outcome A) (f : A -> outcome B) (g : B -> outcome C) r,
    (y ← a; f y) = Ret r -> (y ← a; z ← f y; g z) = g r) as Hbind.
  { intros A B C a f g r. destruct a; [| done..]. cbn. intros ->. done. }
  erewrite Hbind by exact Hw. eexists. split; [done |].
  split; [| done]. split; cbn [lg_buffer lg_early lg_buffer_size lg_size lg_entries lg_console_level].
  { lia. } { lia. } { done. }
  { rewrite length_app. cbn [length]. rewrite u32_small; [lia |]. pose proof (messages_count _ _ _ _ Hm'). lia. }
  apply messages_app; [| done]. apply (messages_same (lg_buffer k')); [lia | lia | lia | done | done].
Qed.

(** * Logging and reading back *)

(** A call of [log]: the tick and the time, the level, the 500 bytes of
    [fmt_string] and what [vsnprintf] has returned. *)
Record log_call : Type := LogCall { lc_tick : Z; lc_now : Z; lc_level : Z; lc_string : list Z; lc_len : Z }.

(** The arguments are in range, and the message is not longer than the array. *)
Definition call_ok (c : log_call) : Prop :=
  0 <= lc_tick c < 2 ^ 64 /\ 0 <= lc_now c < 2 ^ 32 /\ length (lc_string c) = 500%nat /\ 0 <= lc_len c < 500.

(** Calls one after the other, before or after the heap is ready. *)
Fixpoint log_all (ready : bool) (serial_level : Z) (k : klog) (l : list log_call) : outcome klog :=
  match l with
  | [] => Ret k
  | c :: l => r ← log ready true (lc_tick c) (lc_now c) serial_level k (lc_level c) (lc_string c) (lc_len c); log_all ready serial_level r.2 l
  end.

(** What is to be found in the log afterwards: the message with its final NUL,
    unless it is for debugging. *)
Definition call_message (c : log_call) : message :=
  Message (lc_level c) (lc_tick c) (lc_now c) (take (Z.to_nat (lc_len c + 1)) (lc_string c)).

Definition kept (l : list log_call) : list message := map call_message (filter (fun c => LOG_DEBUG < lc_level c) l).

(** Before the heap is ready: the messages that fit into the room, first come, first
    served. *)
Fixpoint fitting (room : Z) (l : list message) : list message :=
  match l with
  | [] => []
  | x :: l => if message_size x <=? room then x :: fitting (room - message_size x) l else fitting room l
  end.

Lemma call_message_length c : call_ok c -> Z.of_nat (length (ms_text (call_message c))) = lc_len c + 1.
Proof. intros (_ & _ & Hs & Hl). cbn [call_message ms_text]. rewrite length_take, Hs. lia. Qed.

Lemma message_size_bounds c : call_ok c -> 0 < message_size (call_message c) <= 520.
Proof. intros Hc. pose proof (call_message_length c Hc). destruct Hc as (_ & _ & _ & Hl). unfold message_size, SIZEOF_LOG_ENTRY. lia. Qed.

(** One call above the debug level. *)
Lemma log_call_store ready serial_level k c : call_ok c -> LOG_DEBUG < lc_level c ->
  exists x y, log ready true (lc_tick c) (lc_now c) serial_level k (lc_level c) (lc_string c) (lc_len c) =
    (k ← store ready true (lc_tick c) (lc_now c) k (lc_level c) (lc_string c) (Z.of_nat (length (ms_text (call_message c)))); Ret (x, y k, k)).
Proof.
  intros Hc Hl. unfold log. rewrite Z.gtb_ltb, (proj2 (Z.ltb_lt _ _) Hl), (call_message_length c Hc).
  destruct Hc as (_ & _ & _ & Hn). rewrite u32_small by lia. by eexists _, (fun k => _).
Qed.

Lemma call_stored ready k l0 c :
  log_holds k l0 -> lg_buffer_size k < 2 ^ 30 -> call_ok c -> ready = true \/ lg_size k + message_size (call_message c) <= lg_buffer_size k ->
  exists k', store ready true (lc_tick c) (lc_now c) k (lc_level c) (lc_string c) (Z.of_nat (length (ms_text (call_message c)))) = Ret k' /\
    log_holds k' (l0 ++ [call_message c]) /\ lg_size k' = lg_size k + message_size (call_message c) /\
    lg_buffer_size k' <= Z.max (lg_buffer_size k) (2 * lg_size k') /\
    (lg_size k + message_size (call_message c) <= lg_buffer_size k -> lg_buffer_size k' = lg_buffer_size k).
Proof.
  intros Hk Hb Hc Hr. pose proof (call_message_length c Hc) as Hlen. pose proof Hc as (Ht & Hw & Hs & Hcl).
  destruct (store_holds ready k l0 (lc_tick c) (lc_now c) (lc_level c) (lc_string c) (call_message c)) as (k1 & E & Hk1 & _ & Hrest);
    [done | done | done | | done | | by exists k1].
  - split; [exact Ht |]. split; [exact Hw |]. lia.
  - exists (drop (Z.to_nat (lc_len c + 1)) (lc_string c)). symmetry. apply take_drop.
Qed.

Lemma log_all_holds serial_level k l0 l :
  log_holds k l0 -> Forall call_ok l ->
  lg_buffer_size k <= Z.max PAGE_SIZE (2 * lg_size k) -> lg_size k + 520 * Z.of_nat (length l) < 2 ^ 29 ->
  exists k', log_all true serial_level k l = Ret k' /\ log_holds k' (l0 ++ kept l).
Proof.
  intros Hk Hl. revert k l0 Hk. induction Hl as [| c l Hc Hl IH]; intros k l0 Hk Hb Hn.
  { exists k. split; [done |]. by rewrite app_nil_r. }
  pose proof (messages_end _ _ _ _ (lh_messages _ _ Hk)) as H0. cbn [length] in Hn. cbn [log_all]. unfold kept.
  rewrite filter_cons. destruct (decide (LOG_DEBUG < lc_level c)) as [Hd | Hd].
  - cbn [map]. destruct (log_call_store true serial_level k c Hc Hd) as (x & y & ->). pose proof (message_size_bounds c Hc).
    destruct (call_stored true k l0 c) as (k1 & -> & Hk1 & Hs1 & Hb1 & _); [done | change PAGE_SIZE with 4096 in *; lia | done | by left |].
    rewrite !bind_Ret. cbn [snd]. destruct (IH k1 _ Hk1) as (k2 & -> & Hk2); [lia | lia |]. exists k2. split; [done |].
    by rewrite <- app_assoc in Hk2.
  - unfold log. rewrite Z.gtb_ltb, (proj2 (Z.ltb_ge _ _)), !bind_Ret by lia. cbn [snd]. apply IH; [done | done | lia].
Qed.

(** Before the heap is ready a full log stays as it is. *)
Lemma log_full_early alloc tick now k level string len :
  lg_buffer_size k < u32 (lg_size k + len + SIZEOF_LOG_ENTRY) -> store false alloc tick now k level string len = Ret k.
Proof. intros H. unfold store, log_grow. rewrite Z.gtb_ltb. destruct (Z.ltb_spec (lg_buffer_size k) (u32 (lg_size k + len + SIZEOF_LOG_ENTRY))); [done | lia]. Qed.

(** Before the heap is ready the log stays in its first page. *)
Lemma log_early_holds serial_level k l0 l :
  log_holds k l0 -> Forall call_ok l -> lg_buffer_size k = PAGE_SIZE ->
  exists k', log_all false serial_level k l = Ret k' /\ log_holds k' (l0 ++ fitting (PAGE_SIZE - lg_size k) (kept l)) /\ lg_buffer_size k' = PAGE_SIZE.
Proof.
  intros Hk Hl. revert k l0 Hk. induction Hl as [| c l Hc Hl IH]; intros k l0 Hk Hb.
  { exists k. split; [done |]. split; [by rewrite app_nil_r | done]. }
  pose proof (messages_end _ _ _ _ (lh_messages _ _ Hk)) as H0. cbn [log_all]. unfold kept. rewrite filter_cons.
  destruct (decide (LOG_DEBUG < lc_level c)) as [Hd | Hd].
  - cbn [map fitting]. destruct (log_call_store false serial_level k c Hc Hd) as (x & y & ->). pose proof (message_size_bounds c Hc) as Hm.
    destruct (Z.leb_spec (message_size (call_message c)) (PAGE_SIZE - lg_size k)) as [Hle | Hgt].
    + destruct (call_stored false k l0 c) as (k1 & -> & Hk1 & Hs1 & _ & Hsame); [done | by rewrite Hb | done | right; lia |].
      rewrite !bind_Ret. cbn [snd]. destruct (IH k1 _ Hk1) as (k2 & -> & Hk2 & Hb2); [rewrite Hsame; lia |]. exists k2. split; [done |].
      rewrite <- app_assoc in Hk2. replace (PAGE_SIZE - lg_size k1) with (PAGE_SIZE - lg_size k - message_size (call_message c)) in Hk2 by lia. done.
    + rewrite log_full_early; [rewrite !bind_Ret; cbn [snd]; by apply IH |].
      pose proof (lh_room _ _ Hk). pose proof (lh_page _ _ Hk). unfold message_size in *. rewrite u32_small; lia.
  - unfold log. rewrite Z.gtb_ltb, (proj2 (Z.ltb_ge _ _)), !bind_Ret by lia. cbn [snd]. by apply IH.
Qed.

Lemma log_start_holds level : log_holds (log_start level) [].
Proof. by split. Qed.

(** Reading the file gives the messages. *)
Lemma read_holds k l dest size :
  log_holds k l -> lg_size k <= size -> size <= Z.of_nat (length dest) -> size < 2 ^ 32 ->
  exists dest', log_sfs_read k 0 dest size = Ret (lg_size k, dest') /\ messages_at dest' 0 l (lg_size k) /\ length dest' = length dest.
Proof.
  intros [Hb Hr Hp Hc Hm] Hs Hd Hmax. pose proof (messages_end _ _ _ _ Hm). unfold log_sfs_read.
  destruct (Z.leb_spec (lg_size k) 0).
  - assert (lg_size k = 0) as E by lia. rewrite E in *. exists dest. split; [done |]. split; [| done].
    pose proof (messages_count _ _ _ _ Hm). destruct l; [done | cbn [length] in *; lia].
  - rewrite Z.gtb_ltb, u32_small by lia.
    assert ((if lg_size k <? 0 + size then u32 (lg_size k - 0) else size) = lg_size k) as ->.
    { destruct (Z.ltb_spec (lg_size k) (0 + size)); [rewrite u32_small |]; lia. }
    rewrite memcpy_store by lia.
    assert (length (bytes_at (lg_buffer k) 0 (lg_size k)) = Z.to_nat (lg_size k)) as Hlb by (apply length_bytes_at; lia).
    destruct (store_bytes_spec dest 0 (bytes_at (lg_buffer k) 0 (lg_size k))) as (d & -> & Hl & Hbs & _); [lia | lia |].
    exists d. rewrite bind_Ret. split; [done |]. split; [| done].
    rewrite Hlb in Hbs. replace (Z.of_nat (Z.to_nat (lg_size k))) with (lg_size k) in Hbs by lia.
    apply (messages_same (lg_buffer k)); [lia | lia | lia | | done]. intros i Hi.
    by apply (bytes_same_on (lg_buffer k) d 0 (lg_size k)).
Qed.

(** C34: the kernel log keeps what it is given: after calls of [log], some before and
    some after the heap is ready, a program that reads the log file from the start,
    with a buffer that is large enough, gets the messages above the debug level, in the
    order of the calls, with their level, tick, time and text: of the early ones those
    that fit into the first page, first come, first served (the code drops the others),
    and all the later ones; growing the buffer, which moves the log, loses nothing.
    Conditions: every message is shorter than the 500 bytes of the array
    ([long_message_overreads] shows what happens otherwise), there are at most 2^19
    calls, and the allocations of larger buffers succeed. *)
Theorem log_roundtrip (serial_level level : Z) (early late : list log_call) :
  Forall call_ok early -> Forall call_ok late -> Z.of_nat (length late) <= 2 ^ 19 ->
  let expected := fitting PAGE_SIZE (kept early) ++ kept late in
  exists k, (k ← log_all false serial_level (log_start level) early; log_all true serial_level k late) = Ret k /\
    lg_entries k = Z.of_nat (length expected) /\
    forall dest size, lg_size k <= size -> size <= Z.of_nat (length dest) -> size < 2 ^ 32 ->
      exists dest', log_sfs_read k 0 dest size = Ret (lg_size k, dest') /\ messages_at dest' 0 expected (lg_size k).
Proof.
  intros He Hl Hn.
  destruct (log_early_holds serial_level (log_start level) [] early (log_start_holds level) He) as (k0 & -> & Hh0 & Hb0); [done |].
  change (PAGE_SIZE - lg_size (log_start level)) with PAGE_SIZE in Hh0. cbn [app] in Hh0.
  pose proof (lh_room _ _ Hh0). change PAGE_SIZE with 4096 in *.
  destruct (log_all_holds serial_level k0 _ late Hh0 Hl) as (k & Hk & Hh); [change PAGE_SIZE with 4096; lia | lia |].
  rewrite bind_Ret. exists k. split; [done |]. split; [apply (lh_count _ _ Hh) |]. intros dest size Hs Hd Hm.
  destruct (read_holds k _ dest size Hh Hs Hd Hm) as (d & H1 & H2 & _). by exists d.
Qed.

Lemma log_roundtrip_witness :
  let early := [LogCall 7 99 LOG_INFO (90 :: replicate 499 0) 1; LogCall 8 99 LOG_DEBUG (replicate 500 0) 1] in
  let late := [LogCall 9 100 LOG_ERR (88 :: 89 :: replicate 498 0) 2] in
  let expected := [Message LOG_INFO 7 99 [90; 0]; Message LOG_ERR 9 100 [88; 89; 0]] in
  exists k, (k ← log_all false 0 (log_start 2) early; log_all true 0 k late) = Ret k /\ lg_entries k = 2 /\
    forall dest size, lg_size k <= size -> size <= Z.of_nat (length dest) -> size < 2 ^ 32 ->
      exists dest', log_sfs_read k 0 dest size = Ret (lg_size k, dest') /\ messages_at dest' 0 expected (lg_size k).
Proof.
  intros early late expected. apply (log_roundtrip 0 2 early late); [| | vm_compute; congruence]; repeat constructor; vm_compute; congruence.
Defined.

(** The first page holds 195 messages of one byte: of 200 early ones the last five are
    dropped. *)
Lemma early_log_fills :
  length (fitting PAGE_SIZE (replicate 200 (Message LOG_INFO 7 99 [0]))) = 195%nat.
Proof. vm_compute. reflexivity. Qed.

(** [log_dump] prints the messages of the log and its own, unless its own moves the
    log. *)
Lemma dump_messages b p l q : messages_at b p l q -> exists r, dump_loop (length l) b p = Ret r /\ length r = length l.
Proof.
  revert p. induction l as [| x l IH]; intros p; cbn [messages_at length dump_loop]; [by exists [] |].
  intros [(_ & _ & _ & Hn & _) H]. rewrite Hn, bind_Ret. apply IH in H as (r & Hr & Hl).
  replace (p + Z.of_nat (length (ms_text x)) + SIZEOF_LOG_ENTRY) with (p + message_size x) by (unfold message_size; lia).
  rewrite Hr. eexists. split; [done |]. cbn [length]. by rewrite Hl.
Qed.

(** A message that [vsnprintf] has cut off: it returns the full length, and [store]
    copies from past the end of the array. *)
Lemma long_message_overreads : log true true 7 99 0 (log_start 2) LOG_INFO (replicate 500 65) 500 = Fault.
Proof. vm_compute. reflexivity. Qed.

(** [log_dump] goes on in the old buffer when its own message has moved the log: a
    log on the heap without room for the message is read after it is freed. *)
Lemma dump_uses_freed_buffer tick now serial_level k l fmt_string fmt_len :
  log_holds k l -> lg_buffer_size k < 2 ^ 30 -> lg_early k = false -> 0 <= tick < 2 ^ 64 -> 0 <= now < 2 ^ 32 ->
  0 <= fmt_len < 500 -> length fmt_string = 500%nat -> lg_buffer_size k < lg_size k + fmt_len + 1 + SIZEOF_LOG_ENTRY ->
  log_dump true true tick now serial_level k fmt_string fmt_len = Fault.
Proof.
  intros Hk Hmax He Ht Hw Hf Hs Hfull. pose (x := Message LOG_INFO tick now (take (Z.to_nat (fmt_len + 1)) fmt_string)).
  assert (Z.of_nat (length (ms_text x)) = fmt_len + 1) as Hx by (cbn [x ms_text]; rewrite length_take; lia).
  destruct (store_holds true k l tick now LOG_INFO fmt_string x Hk Hmax) as (k' & Hst & Hk' & _ & Hsz & _);
    [by left | unfold message_ok; cbn [x ms_tick ms_time]; lia | done | apply prefix_take |].
  unfold log_dump, log. change (LOG_INFO >? LOG_DEBUG) with true. cbn iota. rewrite u32_small by lia. rewrite <- Hx, Hst. rewrite !bind_Ret. cbn [snd].
  pose proof (lh_room _ _ Hk') as Hr. unfold message_size in Hsz. destruct (Z.eqb_spec (lg_buffer_size k') (lg_buffer_size k)) as [E |]; [lia |].
  by rewrite He.
Qed.

(** The debug level is not kept. *)
Lemma log_debug_not_kept ready alloc tick now serial_level k fmt_string fmt_len :
  log ready alloc tick now serial_level k LOG_DEBUG fmt_string fmt_len =
    Ret (nz serial_level && (serial_level <=? LOG_DEBUG), nz (lg_console_level k) && (lg_console_level k <=? LOG_DEBUG), k).
Proof. reflexivity. Qed.
