(* ===== verification/Random.v ===== *)
(** The random devices: src/src/block/random.c, a Mersenne Twister with 624 words
    of state.

    All the array accesses stay inside the array, and the numbers have 32 bits.
    A read takes a new number every eight bytes: the theorem says what that means
    for the bytes a program gets. *)
From stdpp Require Import base numbers list.
From Stdlib Require Import ZArith Lia Bool.
From S2P Require Import Prelude Bytes.

Open Scope Z_scope.

Definition UPPER_MASK : Z := 0x80000000.
Definition LOWER_MASK : Z := 0x7fffffff.
Definition TEMPERING_MASK_B : Z := 0x9d2c5680.
Definition TEMPERING_MASK_C : Z := 0xefc60000.
Definition STATE_VECTOR_LENGTH : Z := 624.
Definition STATE_VECTOR_M : Z := 397.
Definition MAG_1 : Z := 0x9908b0df.
Definition MASK32 : Z := 0xffffffff.

(** The two variables of the file. *)
Record rng : Type := Rng { mt : list Z; index : Z }.

Definition rng_start : rng := Rng (replicate (Z.to_nat STATE_VECTOR_LENGTH) 0) 0.

Fixpoint seed_loop (n : nat) (mt : list Z) (index : Z) : outcome (list Z) :=
  match n with
  | O => Ret mt
  | S n =>
    x ← aload mt (index - 1);
    mt ← astore mt index (Z.land (u64 (6069 * x)) MASK32);
    seed_loop n mt (index + 1)
  end.

Definition block_random_seed (r : rng) (seed : Z) : outcome rng :=
  mt ← astore (mt r) 0 (Z.land seed MASK32);
  mt ← seed_loop (Z.to_nat (STATE_VECTOR_LENGTH - 1)) mt 1;
  Ret (Rng mt STATE_VECTOR_LENGTH).

Definition mag (x : Z) : Z := if x =? 0 then 0 else MAG_1.

(** One word of the next 624: [mt[to] = mt[from] ^ (y >> 1) ^ mag[y & 1]] with [y] from
    [mt[to]] and [mt[next]]. *)
Definition twist (mt : list Z) (to next from : Z) : outcome (list Z) :=
  a ← aload mt to;
  b ← aload mt next;
  let y := Z.lor (Z.land a UPPER_MASK) (Z.land b LOWER_MASK) in
  c ← aload mt from;
  astore mt to (Z.lxor (Z.lxor c (Z.shiftr y 1)) (mag (Z.land y 1))).

Fixpoint twist_loop (n : nat) (mt : list Z) (kk offset : Z) : outcome (list Z) :=
  match n with
  | O => Ret mt
  | S n => mt ← twist mt kk (kk + 1) (kk + offset); twist_loop n mt (kk + 1) offset
  end.

Definition refill (r : rng) : outcome rng :=
  r ← (if (STATE_VECTOR_LENGTH + 1 <=? index r) || (index r <? 0) then block_random_seed r 4357 else Ret r);
  mt ← twist_loop (Z.to_nat (STATE_VECTOR_LENGTH - STATE_VECTOR_M)) (mt r) 0 STATE_VECTOR_M;
  mt ← twist_loop (Z.to_nat (STATE_VECTOR_M - 1)) mt (STATE_VECTOR_LENGTH - STATE_VECTOR_M) (STATE_VECTOR_M - STATE_VECTOR_LENGTH);
  mt ← twist mt (STATE_VECTOR_LENGTH - 1) 0 (STATE_VECTOR_M - 1);
  Ret (Rng mt 0).

Definition tempering (y : Z) : Z :=
  let y := Z.lxor y (Z.shiftr y 11) in
  let y := Z.lxor y (Z.land (u64 (Z.shiftl y 7)) TEMPERING_MASK_B) in
  let y := Z.lxor y (Z.land (u64 (Z.shiftl y 15)) TEMPERING_MASK_C) in
  Z.lxor y (Z.shiftr y 18).

Definition getnum (r : rng) : outcome (Z * rng) :=
  r ← (if (STATE_VECTOR_LENGTH <=? index r) || (index r <? 0) then refill r else Ret r);
  y ← aload (mt r) (index r);
  Ret (tempering y, Rng (mt r) (index r + 1)).

(** The loop of [sfs_read]; [rval] is the number whose bytes are handed out. *)
Fixpoint random_loop (n : nat) (i : Z) (rval : Z) (r : rng) (dest : list Z) : outcome (list Z * rng) :=
  match n with
  | O => Ret (dest, r)
  | S n =>
    let boff := i mod 8 in
    '(rval, r) ← (if boff =? 0 then getnum r else Ret (rval, r));
    x ← aload (le_bytes 8 rval) boff;
    dest ← astore dest i x;
    random_loop n (i + 1) rval r dest
  end.

Definition random_sfs_read (r : rng) (dest : list Z) (size : Z) : outcome (Z * list Z * rng) :=
  '(dest, r) ← random_loop (Z.to_nat size) 0 0 r dest;
  Ret (size, dest, r).

(** * Words of 32 bits *)

Definition word (x : Z) : Prop := 0 <= x < 2 ^ 32.

Lemma word_bits x : 0 <= x -> word x <-> forall l, 32 <= l -> Z.testbit x l = false.
Proof. intros Hx. unfold word. rewrite Z.bounded_iff_bits_nonneg' by lia. done. Qed.

Lemma word_lxor x y : word x -> word y -> word (Z.lxor x y).
Proof.
  intros Hx Hy. assert (0 <= Z.lxor x y) as Hp by (apply Z.lxor_nonneg; unfold word in *; lia).
  apply word_bits; [done |]. intros l Hl. rewrite Z.lxor_spec.
  by rewrite (proj1 (word_bits x ltac:(unfold word in *; lia)) Hx l Hl), (proj1 (word_bits y ltac:(unfold word in *; lia)) Hy l Hl).
Qed.

Lemma word_lor x y : word x -> word y -> word (Z.lor x y).
Proof.
  intros Hx Hy. assert (0 <= Z.lor x y) as Hp by (apply Z.lor_nonneg; unfold word in *; lia).
  apply word_bits; [done |]. intros l Hl. rewrite Z.lor_spec.
  by rewrite (proj1 (word_bits x ltac:(unfold word in *; lia)) Hx l Hl), (proj1 (word_bits y ltac:(unfold word in *; lia)) Hy l Hl).
Qed.

Lemma word_land x y : 0 <= x -> word y -> word (Z.land x y).
Proof.
  intros Hx Hy. assert (0 <= Z.land x y) as Hp by (apply Z.land_nonneg; lia).
  apply word_bits; [done |]. intros l Hl. rewrite Z.land_spec.
  by rewrite (proj1 (word_bits y ltac:(unfold word in *; lia)) Hy l Hl), andb_false_r.
Qed.

Lemma word_shiftr x n : word x -> 0 <= n -> word (Z.shiftr x n).
Proof.
  intros Hx Hn. rewrite Z.shiftr_div_pow2 by done. unfold word in *.
  assert (0 < 2 ^ n) by (apply Z.pow_pos_nonneg; lia). split; [apply Z.div_pos; lia |].
  apply Z.le_lt_trans with x; [| lia]. apply Z.div_le_upper_bound; nia.
Qed.

Lemma u64_nonneg x : 0 <= u64 x.
Proof. apply Z.mod_pos_bound. lia. Qed.

Lemma word_const x : (0 <=? x) && (x <? 2 ^ 32) = true -> word x.
Proof. unfold word. intros [H1 H2]%andb_true_iff. lia. Qed.

Ltac word := repeat first [assumption | lia | apply u64_nonneg | apply word_lxor | apply word_lor | apply word_shiftr | apply word_land | by apply word_const].

Lemma word_mag x : word (mag x).
Proof. unfold mag. destruct (x =? 0); by apply word_const. Qed.

Lemma word_tempering y : word y -> word (tempering y).
Proof. intros Hy. unfold tempering. word. Qed.

(** * The array *)

Record rng_wf (r : rng) : Prop := {
  rw_length : Z.of_nat (length (mt r)) = STATE_VECTOR_LENGTH;
  rw_words : Forall word (mt r);
  rw_index : 0 <= index r <= STATE_VECTOR_LENGTH;
}.

(** Arrays of words of the right length. *)
Definition words (m : list Z) : Prop := Z.of_nat (length m) = STATE_VECTOR_LENGTH /\ Forall word m.

Lemma words_store m i x : words m -> 0 <= i < STATE_VECTOR_LENGTH -> word x -> exists m', astore m i x = Ret m' /\ words m'.
Proof.
  intros [Hl Hw] Hi Hx. rewrite astore_in by lia. eexists. split; [done |]. split; [by rewrite length_insert |]. by apply Forall_insert.
Qed.

Lemma words_load m i : words m -> 0 <= i < STATE_VECTOR_LENGTH -> exists x, aload m i = Ret x /\ word x.
Proof.
  intros [Hl Hw] Hi. destruct (aload_in m i) as (x & E & Hx); [lia |]. exists x. split; [done |].
  by eapply Forall_lookup_1.
Qed.

Lemma seed_words n m i : words m -> 1 <= i -> i + Z.of_nat n <= STATE_VECTOR_LENGTH -> exists m', seed_loop n m i = Ret m' /\ words m'.
Proof.
  revert m i. induction n as [| n IH]; intros m i Hm Hi Hn; cbn [seed_loop]; [by exists m |].
  destruct (words_load m (i - 1)) as (x & -> & Hx); [done | lia |]. rewrite bind_Ret.
  destruct (words_store m i (Z.land (u64 (6069 * x)) MASK32)) as (m' & -> & Hm'); [done | lia | word |].
  rewrite bind_Ret. apply IH; [done | lia | lia].
Qed.

Lemma seed_wf r seed : rng_wf r -> 0 <= seed -> exists r', block_random_seed r seed = Ret r' /\ rng_wf r'.
Proof.
  intros [Hl Hw _] Hs. unfold block_random_seed.
  destruct (words_store (mt r) 0 (Z.land seed MASK32)) as (m & -> & Hm); [done | done | word |]. rewrite bind_Ret.
  destruct (seed_words (Z.to_nat (STATE_VECTOR_LENGTH - 1)) m 1) as (m' & -> & [Hl' Hw']); [done | lia | unfold STATE_VECTOR_LENGTH; lia |].
  rewrite bind_Ret. eexists. split; [done |]. by split.
Qed.

Lemma twist_words m to next from :
  words m -> 0 <= to < STATE_VECTOR_LENGTH -> 0 <= next < STATE_VECTOR_LENGTH -> 0 <= from < STATE_VECTOR_LENGTH ->
  exists m', twist m to next from = Ret m' /\ words m'.
Proof.
  intros Hm H1 H2 H3. unfold twist.
  destruct (words_load m to Hm H1) as (a & -> & Ha). destruct (words_load m next Hm H2) as (b & -> & Hb).
  rewrite !bind_Ret. destruct (words_load m from Hm H3) as (c & -> & Hc). rewrite bind_Ret.
  apply words_store; [done | done |]. apply word_lxor; [| apply word_mag]. unfold word in Ha, Hb. word.
Qed.

Lemma twist_loop_words n m kk offset :
  words m -> 0 <= kk -> kk + Z.of_nat n < STATE_VECTOR_LENGTH -> 0 <= kk + offset -> kk + offset + Z.of_nat n <= STATE_VECTOR_LENGTH ->
  exists m', twist_loop n m kk offset = Ret m' /\ words m'.
Proof.
  revert m kk. induction n as [| n IH]; intros m kk Hm Hk Hn Ho Hon; cbn [twist_loop]; [by exists m |].
  destruct (twist_words m kk (kk + 1) (kk + offset)) as (m' & -> & Hm'); [done | lia | lia | lia |].
  rewrite bind_Ret. apply IH; [done | lia..].
Qed.

Lemma refill_wf r : rng_wf r -> exists r', refill r = Ret r' /\ rng_wf r' /\ index r' = 0.
Proof.
  intros [Hl Hw Hi]. unfold refill.
  destruct (Z.leb_spec (STATE_VECTOR_LENGTH + 1) (index r)); [lia |]. destruct (Z.ltb_spec (index r) 0); [lia |]. cbn [orb]. rewrite bind_Ret.
  destruct (twist_loop_words (Z.to_nat (STATE_VECTOR_LENGTH - STATE_VECTOR_M)) (mt r) 0 STATE_VECTOR_M) as (m1 & -> & H1);
    [done | vm_compute; congruence.. |]. rewrite bind_Ret.
  destruct (twist_loop_words (Z.to_nat (STATE_VECTOR_M - 1)) m1 (STATE_VECTOR_LENGTH - STATE_VECTOR_M) (STATE_VECTOR_M - STATE_VECTOR_LENGTH))
    as (m2 & -> & H2); [done | vm_compute; congruence.. |]. rewrite bind_Ret.
  destruct (twist_words m2 (STATE_VECTOR_LENGTH - 1) 0 (STATE_VECTOR_M - 1)) as (m3 & -> & [Hl3 Hw3]); [done | unfold STATE_VECTOR_LENGTH, STATE_VECTOR_M; lia.. |].
  rewrite bind_Ret. eexists. split; [done |]. split; [by split | done].
Qed.

Lemma getnum_wf r : rng_wf r -> exists x r', getnum r = Ret (x, r') /\ word x /\ rng_wf r'.
Proof.
  intros Hr. unfold getnum.
  assert (exists r', (if (STATE_VECTOR_LENGTH <=? index r) || (index r <? 0) then refill r else Ret r) = Ret r' /\ rng_wf r' /\
    index r' < STATE_VECTOR_LENGTH) as (r' & -> & Hr' & Hi).
  { destruct (Z.leb_spec STATE_VECTOR_LENGTH (index r)); cbn [orb].
    - destruct (refill_wf r Hr) as (r' & -> & Hr' & Hi). exists r'. by rewrite Hi.
    - destruct (Z.ltb_spec (index r) 0); [destruct Hr; lia |]. by exists r. }
  rewrite bind_Ret. destruct Hr' as [Hl Hw Hi']. destruct (words_load (mt r') (index r')) as (y & -> & Hy); [done | lia |].
  rewrite bind_Ret. eexists _, _. split; [done |]. split; [by apply word_tempering |]. split; cbn [mt index]; [done | done | lia].
Qed.

(** * Reading *)

Lemma word_high_bytes x i : word x -> 4 <= i < 8 -> aload (le_bytes 8 x) i = Ret 0.
Proof.
  intros Hx Hi. assert (le_bytes 8 x = le_bytes 4 x ++ replicate 4 0) as ->.
  { cbn [le_bytes app replicate]. rewrite !Z.div_div by lia. cbn [Z.mul]. unfold word in Hx.
    assert (x / (2 ^ 8 * 2 ^ 8 * 2 ^ 8 * 2 ^ 8) = 0) as E by (apply Z.div_small; lia). unfold word in Hx.
    repeat f_equal; rewrite ?Z.mul_assoc, ?Z.div_div by lia; rewrite Z.div_small by lia; done. }
  apply aload_Ret. split; [lia |]. rewrite lookup_app_r by (rewrite length_le_bytes; lia). rewrite length_le_bytes.
  by rewrite lookup_replicate_2 by lia.
Qed.

Lemma random_loop_spec n i rval r dest :
  rng_wf r -> word rval -> 0 <= i -> i + Z.of_nat n <= Z.of_nat (length dest) ->
  (forall k, Z.of_nat k < i -> 4 <= Z.of_nat k mod 8 -> dest !! k = Some 0) ->
  exists dest' r', random_loop n i rval r dest = Ret (dest', r') /\ rng_wf r' /\ length dest' = length dest /\
    forall k, Z.of_nat k < i + Z.of_nat n -> 4 <= Z.of_nat k mod 8 -> dest' !! k = Some 0.
Proof.
  revert i rval r dest. induction n as [| n IH]; intros i rval r dest Hr Hv Hi Hn Hz; cbn [random_loop].
  { exists dest, r. split; [done |]. split; [done |]. split; [done |]. intros k Hk. apply Hz. lia. }
  assert (exists v r', (if i mod 8 =? 0 then getnum r else Ret (rval, r)) = Ret (v, r') /\ word v /\ rng_wf r') as (v & r' & -> & Hv' & Hr').
  { destruct (i mod 8 =? 0); [by apply getnum_wf | by exists rval, r]. }
  rewrite bind_Ret. pose proof (Z.mod_pos_bound i 8 ltac:(lia)) as Hm.
  destruct (aload_in (le_bytes 8 v) (i mod 8)) as (x & E & _); [rewrite length_le_bytes; lia |]. rewrite E, bind_Ret.
  rewrite astore_in by lia. rewrite bind_Ret.
  destruct (IH (i + 1) v r' (<[Z.to_nat i := x]> dest)) as (d & r2 & -> & Hr2 & Hl & Hd);
    [done | done | lia | rewrite length_insert; lia | |].
  { intros k Hk Hk8. destruct (decide (k = Z.to_nat i)) as [-> |].
    - rewrite list_lookup_insert_eq by lia. rewrite Z2Nat.id in Hk8 by done. rewrite word_high_bytes in E by (done || lia). by injection E as <-.
    - rewrite list_lookup_insert_ne by done. apply Hz; lia. }
  exists d, r2. split; [done |]. split; [done |]. split; [by rewrite Hl, length_insert |]. intros k Hk. apply Hd. lia.
Qed.

Lemma rng_start_wf : rng_wf rng_start.
Proof. split; [done | by apply Forall_replicate, word_const | done]. Qed.

(** reading a random device never leaves the array of the generator and keeps it
    well-formed, whatever the seed, for every length of the read; but half of what
    a program gets is not random: a number has 32 bits and is handed out as eight
    bytes, so of every eight bytes the last four are zero. *)
Theorem random_read_half_zero (r : rng) (dest : list Z) (size : Z) :
  rng_wf r -> 0 <= size <= Z.of_nat (length dest) ->
  exists dest' r', random_sfs_read r dest size = Ret (size, dest', r') /\ rng_wf r' /\ length dest' = length dest /\
    forall k, Z.of_nat k < size -> 4 <= Z.of_nat k mod 8 -> dest' !! k = Some 0.
Proof.
  intros Hr Hs. unfold random_sfs_read.
  destruct (random_loop_spec (Z.to_nat size) 0 0 r dest) as (d & r' & -> & Hr' & Hl & Hd); [done | by apply word_const | done | lia | lia |].
  rewrite bind_Ret. exists d, r'. split; [done |]. split; [done |]. split; [done |]. intros k Hk. apply Hd. lia.
Qed.

Lemma random_read_half_zero_witness :
  exists dest' r', random_sfs_read rng_start (replicate 16 255) 16 = Ret (16, dest', r') /\ rng_wf r' /\ length dest' = 16%nat /\
    forall k, Z.of_nat k < 16 -> 4 <= Z.of_nat k mod 8 -> dest' !! k = Some 0.
Proof. apply (random_read_half_zero rng_start (replicate 16 255) 16); [apply rng_start_wf | done]. Defined.

(** Before the first seed every number is zero. *)
Lemma unseeded_is_zero : match random_sfs_read rng_start (replicate 16 255) 16 with Ret (_, d, _) => d = replicate 16 0 | _ => False end.
Proof. vm_compute. reflexivity. Qed.

(** The first number after a seed. *)
Lemma seeded_number : match (r ← block_random_seed rng_start 4357; getnum r) with Ret (x, _) => 0 < x | _ => False end.
Proof. vm_compute. reflexivity. Qed.
