(* ===== verification/Keyboard.v ===== *)
(** The keyboard: src/src/tty/keyboard.c with the map of src/src/tty/keymap.h, and the
    part of src/src/gfx/gfx.c that switches between screens.

    An interrupt brings one scan code.  [decode] is what the handler makes of it:
    the state of the modifier keys, and nothing, a switch of the screen or the bytes
    of a key.  [intr_handler] is the whole handler: the bytes go to the terminal of
    the console ([term_input] of Term.v) or, once a program has opened the device,
    into a buffer that the program reads.  The theorem composes the keyboard with
    the terminal: typing a text on the keys gives the terminal that text. *)
From stdpp Require Import base numbers list.
From Stdlib Require Import ZArith Lia Bool.
From S2P Require Import Prelude Spinlock Str Bytes Buffer DList Path Mount Vfs Term Random.

Open Scope Z_scope.

(** [struct tty_input_state] *)
Record tty_input_state : Type := Input {
  is_shift : bool;
  is_shift_left : bool;
  is_shift_right : bool;
  is_capslock : bool;
  is_control_left : bool;
  is_control_right : bool;
  is_alt_left : bool;
  is_alt_right : bool;
  is_super : bool;
  is_code : Z;
}.

Implicit Types i : tty_input_state.

Definition with_code i (code : Z) : tty_input_state :=
  Input (is_shift i) (is_shift_left i) (is_shift_right i) (is_capslock i) (is_control_left i) (is_control_right i) (is_alt_left i) (is_alt_right i) (is_super i) code.
Definition with_shift_left i (b : bool) : tty_input_state :=
  Input (is_shift i) b (is_shift_right i) (is_capslock i) (is_control_left i) (is_control_right i) (is_alt_left i) (is_alt_right i) (is_super i) (is_code i).
Definition with_shift_right i (b : bool) : tty_input_state :=
  Input (is_shift i) (is_shift_left i) b (is_capslock i) (is_control_left i) (is_control_right i) (is_alt_left i) (is_alt_right i) (is_super i) (is_code i).
Definition with_capslock i (b : bool) : tty_input_state :=
  Input (is_shift i) (is_shift_left i) (is_shift_right i) b (is_control_left i) (is_control_right i) (is_alt_left i) (is_alt_right i) (is_super i) (is_code i).
Definition with_control_left i (b : bool) : tty_input_state :=
  Input (is_shift i) (is_shift_left i) (is_shift_right i) (is_capslock i) b (is_control_right i) (is_alt_left i) (is_alt_right i) (is_super i) (is_code i).
Definition with_control_right i (b : bool) : tty_input_state :=
  Input (is_shift i) (is_shift_left i) (is_shift_right i) (is_capslock i) (is_control_left i) b (is_alt_left i) (is_alt_right i) (is_super i) (is_code i).
Definition with_alt_left i (b : bool) : tty_input_state :=
  Input (is_shift i) (is_shift_left i) (is_shift_right i) (is_capslock i) (is_control_left i) (is_control_right i) b (is_alt_right i) (is_super i) (is_code i).
Definition with_alt_right i (b : bool) : tty_input_state :=
  Input (is_shift i) (is_shift_left i) (is_shift_right i) (is_capslock i) (is_control_left i) (is_control_right i) (is_alt_left i) b (is_super i) (is_code i).

(** The rows 0 to 5 of either half; the rows 6 to F are zero. *)
Definition tty_keymap_en : list Z :=
  ([0; 27; 49; 50; 51; 52; 53; 54; 55; 56; 57; 48; 45; 61; 127; 9] ++
   [113; 119; 101; 114; 116; 121; 117; 105; 111; 112; 91; 93; 13; 0; 97; 115] ++
   [100; 102; 103; 104; 106; 107; 108; 59; 39; 96; 0; 0; 122; 120; 99; 118] ++
   [98; 110; 109; 44; 46; 47; 0; 0; 0; 32; 0; 0; 0; 0; 0; 0] ++
   [0; 0; 0; 0; 0; 0; 0; 0; 0; 0; 0; 0; 0; 0; 0; 0] ++
   [0; 0; 0; 0; 0; 0; 92; 0; 0; 0; 0; 0; 0; 0; 0; 0] ++
   replicate 160 0) ++
  ([0; 126; 33; 64; 35; 36; 37; 94; 38; 42; 40; 41; 95; 43; 8; 9] ++
   [81; 87; 69; 82; 84; 89; 85; 73; 79; 80; 123; 125; 10; 0; 65; 83] ++
   [68; 70; 71; 72; 74; 75; 76; 58; 34; 126; 0; 0; 90; 88; 67; 86] ++
   [66; 78; 77; 60; 62; 63; 0; 0; 0; 32; 0; 0; 0; 0; 0; 0] ++
   [0; 0; 0; 0; 0; 0; 0; 0; 0; 0; 0; 0; 0; 0; 0; 0] ++
   [0; 0; 0; 0; 0; 0; 124; 0; 0; 0; 0; 0; 0; 0; 0; 0] ++
   replicate 160 0).

(** What a key sends: 0 for nothing. *)
Definition convert_to_char i : outcome Z :=
  if Z.of_nat (length tty_keymap_en) <=? is_code i then Ret 0 else
  chr ← aload tty_keymap_en (is_code i);
  if (is_control_left i || is_control_right i) && (97 <=? chr) && (chr <=? 122) then
    Ret (if chr =? 100 then 4 else if chr =? 99 then 3 else chr - 97 + 1)
  else if xorb (is_shift_left i || is_shift_right i) (is_capslock i) then aload tty_keymap_en (is_code i + 256)
  else Ret chr.

(** The keys that send escape sequences; 27 is ESC. *)
Definition escape_sequence (code : Z) : option (list Z) :=
  match code with
  | 0x48 => Some [27; 91; 65]
  | 0x50 => Some [27; 91; 66]
  | 0x4d => Some [27; 91; 67]
  | 0x4b => Some [27; 91; 68]
  | 0x4f => Some [27; 91; 70]
  | 0x47 => Some [27; 91; 72]
  | 0xd2 => Some [27; 91; 76]
  | 0x49 => Some [27; 91; 53; 126]
  | 0x51 => Some [27; 91; 54; 126]
  | 0x52 => Some [27; 91; 50; 126]
  | 0x53 => Some [27; 91; 51; 126]
  | 0xbb => Some [27; 79; 80]
  | 0xbc => Some [27; 79; 81]
  | 0xbd => Some [27; 79; 82]
  | 0xbe => Some [27; 79; 83]
  | 0xbf => Some [27; 91; 49; 53; 126]
  | 0xc0 => Some [27; 91; 49; 55; 126]
  | 0xc1 => Some [27; 91; 49; 56; 126]
  | 0xc2 => Some [27; 91; 49; 57; 126]
  | 0xc3 => Some [27; 91; 50; 48; 126]
  | 0xc4 => Some [27; 91; 50; 49; 126]
  | 0xd7 => Some [27; 91; 50; 51; 126]
  | 0xd8 => Some [27; 91; 50; 52; 126]
  | _ => None
  end.

(** The [switch] of the handler: a modifier key. *)
Definition modifier_key i : option tty_input_state :=
  match is_code i with
  | 0x2a => Some (with_shift_left i true)
  | 0x36 => Some (with_shift_right i true)
  | 0xaa => Some (with_shift_left i false)
  | 0xb6 => Some (with_shift_right i false)
  | 0x1d => Some (with_control_left i true)
  | 0x3a => Some (with_capslock i (negb (is_capslock i)))
  | 0x101d => Some (with_control_right i true)
  | 0x9d => Some (with_control_left i false)
  | 0x109d => Some (with_control_right i false)
  | 0x38 => Some (with_alt_left i true)
  | 0x1038 => Some (with_alt_right i true)
  | 0xb8 => Some (with_alt_left i false)
  | 0x10b8 => Some (with_alt_right i false)
  | _ => None
  end.

(** What an interrupt leads to. *)
Inductive reaction : Type :=
| Nothing
| Screen (id : Z)
| Keys (inputseq : list Z).

(** The first part of [handle_noncanon]: the bytes to send. *)
Definition key_sequence i : outcome reaction :=
  match escape_sequence (is_code i) with
  | Some s => Ret (Keys s)
  | None => c ← convert_to_char i; Ret (if c =? 0 then Nothing else Keys [c])
  end.

(** The handler without its effects on other parts: [code] is read from the port,
    [state] and [escape_wait] are its static variables. *)
Definition decode (state : tty_input_state) (escape_wait : bool) (code : Z) : outcome (tty_input_state * bool * reaction) :=
  let i := with_code state code in
  if code =? 0xe0 then
    let i := if escape_wait then with_code i (is_code i + 0x1000) else i in
    Ret (i, negb escape_wait, Nothing)
  else
  match modifier_key i with
  | Some i => Ret (i, escape_wait, Nothing)
  | None =>
    if (is_control_left i || is_control_right i) && (is_alt_left i || is_alt_right i) && (0xbb <=? code) && (code <=? 0xc4)
    then Ret (i, escape_wait, Screen (code - 0xbb))
    else r ← key_sequence i; Ret (i, escape_wait, r)
  end.

(** The screens: which of the twenty handles are used, and the active one. *)
Record gfx : Type := Gfx { gx_used : list bool; gx_active : option Z }.

Definition gfx_get_handle (g : gfx) (id : Z) : outcome (option Z) :=
  if 20 <=? id then Ret None else
  used ← aload (gx_used g) id;
  Ret (if (used : bool) then Some id else None).

Definition gfx_handle_enable (g : gfx) (handle : Z) : gfx := Gfx (gx_used g) (Some handle).

(** The variables of the file, the terminal of the console, the generator of random
    numbers and the screens. *)
Record kbd (S : Type) : Type := Kbd {
  kb_state : tty_input_state;
  kb_escape_wait : bool;
  kb_forward : bool;
  kb_buf : buffer;
  kb_console : tty S;
  kb_rng : rng;
  kb_gfx : gfx;
}.

Arguments Kbd {S} kb_state kb_escape_wait kb_forward kb_buf kb_console kb_rng kb_gfx.
Arguments kb_state {S} k.
Arguments kb_escape_wait {S} k.
Arguments kb_forward {S} k.
Arguments kb_buf {S} k.
Arguments kb_console {S} k.
Arguments kb_rng {S} k.
Arguments kb_gfx {S} k.

Section Keyboard.
Context {S : Type} `{PageSource S}.
Implicit Types k : kbd S.

Definition kb_set_console k (t : tty S) : kbd S :=
  Kbd (kb_state k) (kb_escape_wait k) (kb_forward k) (kb_buf k) t (kb_rng k) (kb_gfx k).
Definition kb_set_buf k (b : buffer) (pages : S) (errno : Z) : kbd S :=
  let t := kb_console k in
  Kbd (kb_state k) (kb_escape_wait k) (kb_forward k) b (Tty (ty_term t) pages errno (ty_sigints t) (ty_log_level t)) (kb_rng k) (kb_gfx k).
Definition kb_set_gfx k (g : gfx) : kbd S :=
  Kbd (kb_state k) (kb_escape_wait k) (kb_forward k) (kb_buf k) (kb_console k) (kb_rng k) g.

(** [write_cb] of the console's terminal. *)
Context (write_cb : tty S -> list Z -> outcome (Z * tty S)).

(** The end of [handle_noncanon]. *)
Definition send_keys k (inputseq : list Z) : outcome (kbd S) :=
  if kb_forward k then '(_, t) ← term_input write_cb (kb_console k) inputseq; Ret (kb_set_console k t)
  else
    '(_, b, pages, e) ← buffer_write (ty_pages (kb_console k)) (ty_errno (kb_console k)) (kb_buf k) inputseq (Z.of_nat (length inputseq));
    Ret (kb_set_buf k b pages e).

Definition intr_handler k (code tick : Z) : outcome (kbd S) :=
  rng ← block_random_seed (kb_rng k) (u32 (code + tick));
  '(state, wait, r) ← decode (kb_state k) (kb_escape_wait k) code;
  let k := Kbd state wait (kb_forward k) (kb_buf k) (kb_console k) rng (kb_gfx k) in
  match r with
  | Nothing => Ret k
  | Screen id =>
    h ← gfx_get_handle (kb_gfx k) id;
    Ret (match h with None => k | Some h => kb_set_gfx k (gfx_handle_enable (kb_gfx k) h) end)
  | Keys seq => send_keys k seq
  end.

(** Interrupts one after the other: scan codes and ticks. *)
Fixpoint intr_all k (l : list (Z * Z)) : outcome (kbd S) :=
  match l with
  | [] => Ret k
  | (code, tick) :: l => k ← intr_handler k code tick; intr_all k l
  end.

(** The device: a read waits for a key. *)
Fixpoint kbd_wait (patience i : nat) (env : nat -> kbd S -> kbd S) k : outcome (kbd S) :=
  '(n, b) ← buffer_size (kb_buf k);
  let k := kb_set_buf k b (ty_pages (kb_console k)) (ty_errno (kb_console k)) in
  if nz n then Ret k else
  match patience with
  | O => Spin
  | Datatypes.S patience => kbd_wait patience (Datatypes.S i) env (env i k)
  end.

Definition kbd_read (patience : nat) (env : nat -> kbd S -> kbd S) (flags : Z) k (dest : list Z) (size : Z) : outcome (Z * list Z * kbd S) :=
  '(n, b) ← buffer_size (kb_buf k);
  let k := kb_set_buf k b (ty_pages (kb_console k)) (ty_errno (kb_console k)) in
  if (n =? 0) && has_flag flags O_NONBLOCK then Ret (u32 (-1), dest, kb_set_buf k b (ty_pages (kb_console k)) EAGAIN) else
  k ← kbd_wait patience 0 env k;
  '(n, dest, b) ← buffer_pop (kb_buf k) dest size;
  Ret (n, dest, kb_set_buf k b (ty_pages (kb_console k)) (ty_errno (kb_console k))).

Definition kbd_poll k (events : Z) : outcome (Z * kbd S) :=
  if has_flag (u32 events) POLLIN then
    '(n, b) ← buffer_size (kb_buf k);
    Ret (if nz n then POLLIN else 0, kb_set_buf k b (ty_pages (kb_console k)) (ty_errno (kb_console k)))
  else Ret (0, k).

Definition SYSFS_STAT_FN : Z := 0x101.
Definition KBD_READ : Z := 0x310.
Definition KBD_POLL : Z := 0x311.

(** The four callbacks the device sets; the others stay. *)
Definition kbd_callbacks (c : vfs_callbacks) : vfs_callbacks :=
  Callbacks (cb_open c) SYSFS_ACCESS_FN KBD_READ (cb_write c) (cb_getdents c) SYSFS_STAT_FN (cb_mkdir c) (cb_symlink c) (cb_unlink c) (cb_chmod c)
    (cb_chown c) (cb_utimes c) (cb_link c) (cb_readlink c) (cb_rmdir c) (cb_ioctl c) KBD_POLL (cb_build_path_tree c).

Definition kbd_open {W : Type} `{VfsBackend W} (st : vfs_state W) k : outcome (option nat * vfs_state W * kbd S) :=
  '(r, st) ← vfs_alloc_fileno st 0;
  match r with
  | None => Ret (None, st, k)
  | Some i =>
    let k := Kbd (kb_state k) (kb_escape_wait k) false (kb_buf k) (kb_console k) (kb_rng k) (kb_gfx k) in
    st ← update st i (fun f => File (f_refs f) (f_dup_target f) FT_IFCHR (f_num f) (f_path f) (f_mount_path f) (f_mp f) (f_mount_instance f)
      (kbd_callbacks (f_callbacks f)) (f_flags f) (f_offset f) 1 (f_meta f));
    Ret (Some i, st, k)
  end.

End Keyboard.

(** * Typing *)

(** No modifier key is down, and caps lock is off. *)
Definition calm i : Prop :=
  is_shift_left i = false /\ is_shift_right i = false /\ is_capslock i = false /\ is_control_left i = false /\ is_control_right i = false.

(** The scan codes of pressing and releasing the key for a character, in the lower
    half of the map or, with shift, in the upper half. *)
Fixpoint find_key (l : list Z) (code c : Z) : option Z :=
  match l with
  | [] => None
  | x :: l => if x =? c then Some code else find_key l (code + 1) c
  end.

Definition strokes (c : Z) : list Z :=
  match find_key (take 256 tty_keymap_en) 0 c with
  | Some code => [code; code + 0x80]
  | None =>
    match find_key (drop 256 tty_keymap_en) 0 c with
    | Some code => [0x2a; code; code + 0x80; 0xaa]
    | None => []
    end
  end.

(** The characters that have a key: the printable ones and tab, new line, return,
    escape, backspace and delete. *)
Definition typable (c : Z) : bool := (32 <=? c) && (c <=? 127) || bool_decide (c ∈ [8; 9; 10; 13; 27]).

(** The bytes of a sequence of interrupts. *)
Fixpoint decode_all i (wait : bool) (codes : list Z) : outcome (tty_input_state * bool * list Z) :=
  match codes with
  | [] => Ret (i, wait, [])
  | code :: codes =>
    '(i, wait, r) ← decode i wait code;
    '(i, wait, l) ← decode_all i wait codes;
    Ret (i, wait, match r with Keys s => s | _ => [] end ++ l)
  end.

Lemma decode_all_app i wait a b :
  decode_all i wait (a ++ b) = ('(i, wait, l) ← decode_all i wait a; '(i, wait, l') ← decode_all i wait b; Ret (i, wait, l ++ l')).
Proof.
  revert i wait. induction a as [| code a IH]; intros i wait; cbn [decode_all app].
  - rewrite bind_Ret. by destruct (decode_all i wait b) as [[[? ?] ?] | | |].
  - destruct (decode i wait code) as [[[i1 w1] r] | | |]; try done. rewrite !bind_Ret. rewrite IH.
    destruct (decode_all i1 w1 a) as [[[i2 w2] l2] | | |]; try done. rewrite !bind_Ret.
    destruct (decode_all i2 w2 b) as [[[i3 w3] l3] | | |]; try done. rewrite !bind_Ret. by rewrite app_assoc.
Qed.

(** Each character by computation; the other modifiers do not matter. *)
Lemma strokes_decode c i wait :
  typable c = true -> calm i -> exists code, decode_all i wait (strokes c) = Ret (with_code i code, wait, [c]).
Proof.
  intros Hc (H1 & H2 & H3 & H4 & H5). destruct i as [sh sl sr cl ctl ctr al ar su co]. cbn in H1, H2, H3, H4, H5. subst.
  assert (c ∈ [8; 9; 10; 13; 27] ++ map (fun n => 32 + Z.of_nat n) (seq 0 96)) as He.
  { unfold typable in Hc. apply orb_true_iff in Hc as [Hc | Hc]; apply elem_of_app; [right | left].
    - apply list_elem_of_fmap. exists (Z.to_nat (c - 32)). apply andb_true_iff in Hc as [? ?]. split; [lia |]. apply elem_of_seq. lia.
    - by apply bool_decide_eq_true in Hc. }
  clear Hc. revert c He. apply Forall_forall. cbn [app map seq].
  repeat (apply Forall_cons; split; [eexists; vm_compute; reflexivity |]). by apply Forall_nil.
Qed.

Lemma calm_with_code i code : calm i -> calm (with_code i code).
Proof. done. Qed.

Lemma text_decode text i wait :
  Forall (fun c => typable c = true) text -> calm i ->
  exists i', decode_all i wait (concat (map strokes text)) = Ret (i', wait, text) /\ calm i'.
Proof.
  intros Ht. revert i. induction Ht as [| c text Hc Ht IH]; intros i Hi; cbn [map concat]; [by exists i |].
  destruct (strokes_decode c i wait Hc Hi) as (code & E). rewrite decode_all_app, E, bind_Ret.
  destruct (IH (with_code i code)) as (i' & -> & Hi'); [by apply calm_with_code |]. exists i'. by rewrite bind_Ret.
Qed.

Section Console.
Context {S : Type} `{PageSource S}.
Implicit Types k : kbd S.
Context (write_cb : tty S -> list Z -> outcome (Z * tty S)).

Lemma outcome_bind_assoc {A B C} (m : outcome A) (f : A -> outcome B) (g : B -> outcome C) :
  (y ← (x ← m; f x); g y) = (x ← m; y ← f x; g y).
Proof. by destruct m. Qed.

Lemma input_loop_app (t : tty S) a b : input_loop write_cb t (a ++ b) = (t ← input_loop write_cb t a; input_loop write_cb t b).
Proof.
  revert t. induction a as [| c a IH]; intros t; cbn [input_loop app]; [done |].
  destruct (cc t VINTR) as [v | | |]; try done. rewrite !bind_Ret. destruct (_ && _ && _).
  - destruct (term_write write_cb t INTR_SEQ) as [[? ?] | | |]; try done. rewrite !bind_Ret. apply IH.
  - rewrite !outcome_bind_assoc. match goal with |- mbind _ ?m = _ => destruct m as [t' | | |]; try done end. rewrite !bind_Ret. apply IH.
Qed.

(** The terminal gets the bytes of the interrupts. *)
Lemma intr_all_decode l k i' w' seq :
  rng_wf (kb_rng k) -> kb_forward k = true -> length (gx_used (kb_gfx k)) = 20%nat ->
  decode_all (kb_state k) (kb_escape_wait k) (map fst l) = Ret (i', w', seq) ->
  (k' ← intr_all write_cb k l; Ret (kb_console k')) = input_loop write_cb (kb_console k) seq.
Proof.
  revert k seq. induction l as [| [code tick] l IH]; intros k seq Hr Hf Hg; cbn [map fst decode_all intr_all]; [by intros [= _ _ <-] |].
  unfold intr_handler. destruct (seed_wf (kb_rng k) (u32 (code + tick))) as (rng & -> & Hrng); [done | apply Z.mod_pos_bound; lia |].
  rewrite bind_Ret. destruct (decode (kb_state k) (kb_escape_wait k) code) as [[[i1 w1] r] | | |] eqn:Ed; try done.
  rewrite !bind_Ret. destruct (decode_all i1 w1 (map fst l)) as [[[i2 w2] rest] | | |] eqn:E; try done. rewrite bind_Ret. intros [= -> -> <-].
  set (k1 := Kbd i1 w1 (kb_forward k) (kb_buf k) (kb_console k) rng (kb_gfx k)).
  destruct r as [| id | s].
  - rewrite bind_Ret. by apply (IH k1).
  - cbn [kb_gfx app]. unfold gfx_get_handle. rewrite outcome_bind_assoc. destruct (Z.leb_spec 20 id).
    + rewrite !bind_Ret. by apply (IH k1).
    + assert (0 <= id) as Hid.
      { unfold decode in Ed. destruct (code =? 0xe0); [by destruct (kb_escape_wait k) |]. destruct (modifier_key _); [done |].
        destruct (_ && _ && _ && _) eqn:Eb; [| unfold key_sequence in Ed].
        - injection Ed as _ _ <-. apply andb_true_iff in Eb as [Eb _]. apply andb_true_iff in Eb as [_ Eb]. lia.
        - destruct (escape_sequence _); [done |]. destruct (convert_to_char _) as [c | | |]; try done. rewrite !bind_Ret in Ed. by destruct (c =? 0). }
      change (kb_gfx k1) with (kb_gfx k). destruct (aload_in (gx_used (kb_gfx k)) id) as (u & -> & _); [lia |]. rewrite !bind_Ret.
      destruct u; [by apply (IH (kb_set_gfx k1 (gfx_handle_enable (kb_gfx k) id))) | by apply (IH k1)].
  - unfold send_keys. change (kb_forward k1) with (kb_forward k). change (kb_console k1) with (kb_console k). rewrite Hf, input_loop_app. unfold term_input.
    destruct (input_loop write_cb (kb_console k) s) as [t | | |] eqn:Es; try done. rewrite !bind_Ret. by apply (IH (kb_set_console k1 t)).
Qed.

(** C35: typing works: pressing and releasing the keys of a text one after the other,
    with shift for the characters that need it, from any state without modifiers,
    gives the terminal of the console exactly that text, as one call of
    [term_input]: nothing is lost, doubled or changed, and the releases of the keys
    are not taken for keys. *)
Theorem keyboard_types_text (k : kbd S) (text : list Z) (l : list (Z * Z)) :
  rng_wf (kb_rng k) -> kb_forward k = true -> length (gx_used (kb_gfx k)) = 20%nat -> calm (kb_state k) ->
  Forall (fun c => typable c = true) text -> map fst l = concat (map strokes text) ->
  (k' ← intr_all write_cb k l; Ret (kb_console k')) = ('(_, t) ← term_input write_cb (kb_console k) text; Ret t).
Proof.
  intros Hr Hf Hg Hc Ht Hl. destruct (text_decode text (kb_state k) (kb_escape_wait k) Ht Hc) as (i' & E & _).
  rewrite (intr_all_decode l k i' (kb_escape_wait k) text) by (done || by rewrite Hl). unfold term_input.
  by destruct (input_loop write_cb (kb_console k) text).
Qed.

End Console.

(** * Properties of the decoding *)

(** Every scan code has a meaning: the map is never left. *)
Lemma decode_total i wait code : 0 <= code < 256 -> exists i' w' r, decode i wait code = Ret (i', w', r).
Proof.
  intros Hc. unfold decode. destruct (code =? 0xe0); [by eexists _, _, _ |]. destruct (modifier_key _); [by eexists _, _, _ |].
  destruct (_ && _ && _ && _); [by eexists _, _, _ |]. unfold key_sequence. destruct (escape_sequence _); [by eexists _, _, _ |].
  unfold convert_to_char. change (Z.of_nat (length tty_keymap_en)) with 512. cbn [is_code with_code].
  destruct (Z.leb_spec 512 code); [lia |]. destruct (aload_in tty_keymap_en code) as (c & -> & _); [change (Z.of_nat (length tty_keymap_en)) with 512; lia |].
  destruct (aload_in tty_keymap_en (code + 256)) as (c' & -> & _); [change (Z.of_nat (length tty_keymap_en)) with 512; lia |].
  rewrite bind_Ret. destruct (_ && _ && _); [by eexists _, _, _ |]. destruct (xorb _ _); by eexists _, _, _.
Qed.

(** The scan code that announces another one has no effect on it, whatever is waited
    for: the right control and alt keys are never seen as such. *)
Lemma right_keys_never_seen i wait code i' w' r :
  0 <= code < 256 -> is_control_right i = false -> is_alt_right i = false -> decode i wait code = Ret (i', w', r) ->
  is_control_right i' = false /\ is_alt_right i' = false.
Proof.
  intros Hc H1 H2 Hd. unfold decode in Hd. destruct (code =? 0xe0); [by destruct wait; injection Hd as <- _ _ |].
  destruct (modifier_key (with_code i code)) as [i1 |] eqn:E.
  - injection Hd as <- _ _. unfold modifier_key in E. cbn [is_code with_code] in E.
    repeat match type of E with match ?c with _ => _ end = _ => destruct c; try done end; try lia; injection E as <-; done.
  - destruct (_ && _ && _ && _); [by injection Hd as <- _ _ |].
    destruct (key_sequence _); try done. rewrite bind_Ret in Hd. by injection Hd as <- _ _.
Qed.

Lemma escape_wait_no_effect i code :
  code <> 0xe0 -> decode i true code = ('(i', _, r) ← decode i false code; Ret (i', true, r)).
Proof.
  intros Hc. unfold decode. destruct (Z.eqb_spec code 0xe0); [done |]. destruct (modifier_key _); [done |].
  destruct (_ && _ && _ && _); [done |]. by destruct (key_sequence _).
Qed.

Definition no_keys : tty_input_state := Input false false false false false false false false false 0.

(** The insert key sends one sequence when it is pressed and another when it is
    released. *)
Lemma insert_sends_twice : decode_all no_keys false [0x52; 0xd2] = Ret (with_code no_keys 0xd2, false, [27; 91; 50; 126; 27; 91; 76]).
Proof. reflexivity. Qed.

(** Caps lock acts on all keys, like shift: 1 gives an exclamation mark. *)
Lemma capslock_shifts_digits : match decode_all no_keys false [0x3a; 0x02; 0x82] with Ret (_, _, l) => l = [33] | _ => False end.
Proof. reflexivity. Qed.

(** Control and a letter. *)
Lemma control_letters : match decode_all no_keys false [0x1d; 0x1e; 0x9e; 0x2e; 0xae; 0x9d] with Ret (_, _, l) => l = [1; 3] | _ => False end.
Proof. reflexivity. Qed.

(** After the device has been opened once the console gets no more keys: nothing
    sets the flag again. *)
Lemma open_takes_keyboard {S W : Type} `{PageSource S} `{VfsBackend W} (st st' : vfs_state W) (k k' : kbd S) fd :
  kbd_open st k = Ret (Some fd, st', k') -> kb_forward k' = false.
Proof.
  unfold kbd_open. destruct (vfs_alloc_fileno st 0) as [[[j |] st1] | | |]; try done. rewrite bind_Ret.
  destruct (update st1 j _); try done. rewrite bind_Ret. by intros [= _ _ <-].
Qed.

Lemma handler_keeps_forward {S : Type} `{PageSource S} write_cb (k k' : kbd S) code tick :
  intr_handler write_cb k code tick = Ret k' -> kb_forward k' = kb_forward k.
Proof.
  unfold intr_handler. destruct (block_random_seed _ _); try done. rewrite bind_Ret. destruct (decode _ _ _) as [[[i w] r] | | |]; try done.
  rewrite bind_Ret. destruct r as [| id | s].
  - by intros [= <-].
  - destruct (gfx_get_handle _ _) as [[h |] | | |]; try done; rewrite bind_Ret; by intros [= <-].
  - unfold send_keys. cbn [kb_forward]. destruct (kb_forward k) eqn:E.
    + destruct (term_input _ _ _) as [[n t] | | |]; try done. rewrite bind_Ret. by intros [= <-].
    + destruct (buffer_write _ _ _ _ _) as [[[[n b] p] e] | | |]; try done. rewrite bind_Ret. by intros [= <-].
Qed.

(** A concrete text: "Hi!" and return. *)
Definition ex_kbd_buffer : buffer := Buffer (replicate (Z.to_nat (1 * PAGE_SIZE)) 0) 0 0 1 150.
Definition ex_console : tty unit := Tty (Term 9 4 default_termios (replicate 8 0) ex_kbd_buffer false 0 ex_kbd_buffer 3) tt 0 [] 0.
Definition ex_kbd : kbd unit := Kbd no_keys false true ex_kbd_buffer ex_console rng_start (Gfx (replicate 20 false) None).

Lemma keyboard_types_text_witness :
  let text := [72; 105; 33; 13] in
  let l := map (fun c => (c, 1000)) (concat (map strokes text)) in
  length l = 12%nat /\
  (k' ← intr_all pty_write_cb ex_kbd l; Ret (kb_console k')) = ('(_, t) ← term_input pty_write_cb ex_console text; Ret t).
Proof.
  intros text l. split; [reflexivity |]. apply (keyboard_types_text pty_write_cb ex_kbd text l); try reflexivity.
  - apply rng_start_wf.
  - by split_and!.
  - by repeat constructor.
Defined.
