(* ===== verification/Tmt.v ===== *)
(** The terminal emulator of the console: src/src/tty/tmt.c.

    A screen is an array of lines of characters with attributes; [handlechar] is a
    state machine that interprets the escape sequences of ANSI terminals.  What the
    emulator reports to its owner goes to a callback [cb], which gets the emulator
    and the state [X] of the owner, and may call the emulator again.  The pointers
    to the lines are not shared with anyone: the array holds the lines themselves.
    [size_t] has 32 bits, and wraps around. *)
From stdpp Require Import base numbers list.
From Stdlib Require Import ZArith Lia Bool.
From S2P Require Import Prelude Str.

Open Scope Z_scope.

Definition BUF_MAX : Z := 100.
Definition PAR_MAX : Z := 8.
Definition TAB : Z := 8.
Definition MB_LEN_MAX : Z := 1.
Definition SPACE : Z := 32.
Definition STAR : Z := 42.

(** [tmt_color_t]; the value 0, which has no name, is in fresh memory. *)
Inductive tmt_color : Type :=
| COLOR_ZERO | COLOR_DEFAULT | COLOR_BLACK | COLOR_RED | COLOR_GREEN | COLOR_YELLOW | COLOR_BLUE | COLOR_MAGENTA | COLOR_CYAN | COLOR_WHITE.

#[global] Instance tmt_color_eq_dec : EqDecision tmt_color.
Proof. solve_decision. Defined.

(** [struct TMTATTRS] *)
Record tmt_attrs : Type := Attrs {
  at_bold : bool; at_dim : bool; at_underline : bool; at_blink : bool; at_reverse : bool; at_invisible : bool;
  at_fg : tmt_color; at_bg : tmt_color;
}.

#[global] Instance tmt_attrs_eq_dec : EqDecision tmt_attrs.
Proof. solve_decision. Defined.

Definition defattrs : tmt_attrs := Attrs false false false false false false COLOR_DEFAULT COLOR_DEFAULT.

(** [struct TMTCHAR], [struct TMTPOINT], [struct TMTLINE] and [struct TMTSCREEN] *)
Record tmt_char : Type := Char { ch_c : Z; ch_a : tmt_attrs }.
Record tmt_point : Type := Point { pt_r : Z; pt_c : Z }.
Record tmt_line : Type := TLine { tl_dirty : bool; tl_chars : list tmt_char }.
Record tmt_screen : Type := Screen { sc_nline : Z; sc_ncol : Z; sc_lines : list tmt_line }.

(** The state of the parser. *)
Inductive tmt_state : Type := S_NUL | S_ESC | S_ARG.

#[global] Instance tmt_state_eq_dec : EqDecision tmt_state.
Proof. solve_decision. Defined.

Record tmt_parser : Type := Parser { pr_pars : list Z; pr_npar : Z; pr_arg : Z; pr_state : tmt_state; pr_ignored : bool }.

(** [struct TMT], the callback apart. *)
Record tmt : Type := Tmt {
  vt_curs : tmt_point;
  vt_oldcurs : tmt_point;
  vt_attrs : tmt_attrs;
  vt_oldattrs : tmt_attrs;
  vt_dirty : bool;
  vt_acs : bool;
  vt_screen : tmt_screen;
  vt_tabs : tmt_line;
  vt_acschars : list Z;
  vt_nmb : Z;
  vt_mb : list Z;
  vt_parser : tmt_parser;
}.

Implicit Types vt : tmt.

Definition with_curs vt (p : tmt_point) : tmt :=
  Tmt p (vt_oldcurs vt) (vt_attrs vt) (vt_oldattrs vt) (vt_dirty vt) (vt_acs vt) (vt_screen vt) (vt_tabs vt) (vt_acschars vt) (vt_nmb vt) (vt_mb vt) (vt_parser vt).
Definition with_old vt (p : tmt_point) (a : tmt_attrs) : tmt :=
  Tmt (vt_curs vt) p (vt_attrs vt) a (vt_dirty vt) (vt_acs vt) (vt_screen vt) (vt_tabs vt) (vt_acschars vt) (vt_nmb vt) (vt_mb vt) (vt_parser vt).
Definition with_attrs vt (a : tmt_attrs) : tmt :=
  Tmt (vt_curs vt) (vt_oldcurs vt) a (vt_oldattrs vt) (vt_dirty vt) (vt_acs vt) (vt_screen vt) (vt_tabs vt) (vt_acschars vt) (vt_nmb vt) (vt_mb vt) (vt_parser vt).
Definition with_dirty vt (d : bool) : tmt :=
  Tmt (vt_curs vt) (vt_oldcurs vt) (vt_attrs vt) (vt_oldattrs vt) d (vt_acs vt) (vt_screen vt) (vt_tabs vt) (vt_acschars vt) (vt_nmb vt) (vt_mb vt) (vt_parser vt).
Definition with_acs vt (a : bool) : tmt :=
  Tmt (vt_curs vt) (vt_oldcurs vt) (vt_attrs vt) (vt_oldattrs vt) (vt_dirty vt) a (vt_screen vt) (vt_tabs vt) (vt_acschars vt) (vt_nmb vt) (vt_mb vt) (vt_parser vt).
Definition with_screen vt (s : tmt_screen) : tmt :=
  Tmt (vt_curs vt) (vt_oldcurs vt) (vt_attrs vt) (vt_oldattrs vt) (vt_dirty vt) (vt_acs vt) s (vt_tabs vt) (vt_acschars vt) (vt_nmb vt) (vt_mb vt) (vt_parser vt).
Definition with_tabs vt (l : tmt_line) : tmt :=
  Tmt (vt_curs vt) (vt_oldcurs vt) (vt_attrs vt) (vt_oldattrs vt) (vt_dirty vt) (vt_acs vt) (vt_screen vt) l (vt_acschars vt) (vt_nmb vt) (vt_mb vt) (vt_parser vt).
Definition with_mb vt (n : Z) (mb : list Z) : tmt :=
  Tmt (vt_curs vt) (vt_oldcurs vt) (vt_attrs vt) (vt_oldattrs vt) (vt_dirty vt) (vt_acs vt) (vt_screen vt) (vt_tabs vt) (vt_acschars vt) n mb (vt_parser vt).
Definition with_parser vt (p : tmt_parser) : tmt :=
  Tmt (vt_curs vt) (vt_oldcurs vt) (vt_attrs vt) (vt_oldattrs vt) (vt_dirty vt) (vt_acs vt) (vt_screen vt) (vt_tabs vt) (vt_acschars vt) (vt_nmb vt) (vt_mb vt) p.

Definition nline vt : Z := sc_nline (vt_screen vt).
Definition ncol vt : Z := sc_ncol (vt_screen vt).
Definition lines vt : list tmt_line := sc_lines (vt_screen vt).
Definition cr vt : Z := pt_r (vt_curs vt).
Definition cc vt : Z := pt_c (vt_curs vt).
Definition set_r vt (r : Z) : tmt := with_curs vt (Point r (cc vt)).
Definition set_c vt (c : Z) : tmt := with_curs vt (Point (cr vt) c).
Definition set_lines vt (l : list tmt_line) : tmt := with_screen vt (Screen (nline vt) (ncol vt) l).

(** The macros [P0], [P1] and [CLINE]. *)
Definition P0 vt (x : Z) : outcome Z := aload (pr_pars (vt_parser vt)) x.
Definition P1 vt (x : Z) : outcome Z := n ← P0 vt x; Ret (if n =? 0 then 1 else n).
Definition cline vt : Z := MIN (cr vt) (u32 (nline vt - 1)).

(** [memcpy] and [memmove] of [n] elements from [s] of [src] to [d] of [dst]. *)
Definition blit {A} (dst : list A) (d : Z) (src : list A) (s n : Z) : outcome (list A) :=
  if (0 <=? d) && (0 <=? s) && (0 <=? n) && (d + n <=? Z.of_nat (length dst)) && (s + n <=? Z.of_nat (length src))
  then Ret (take (Z.to_nat d) dst ++ take (Z.to_nat n) (drop (Z.to_nat s) src) ++ drop (Z.to_nat (d + n)) dst)
  else Fault.

Definition slice {A} (src : list A) (s n : Z) : outcome (list A) :=
  if (0 <=? s) && (0 <=? n) && (s + n <=? Z.of_nat (length src)) then Ret (take (Z.to_nat n) (drop (Z.to_nat s) src)) else Fault.

(** * The screen *)

(** The alternate character set. *)
Definition acs_map : list Z :=
  [16; 17; 24; 25; 219; 4; 177; 248; 241; 176; 217; 191; 218; 192; 197; 126; 196; 196; 196; 95; 195; 180; 193; 194; 179; 243; 242; 227; 216; 156; 254].

Fixpoint tacs_loop (map acschars : list Z) (i c : Z) : outcome Z :=
  match map with
  | [] => Ret c
  | x :: map => if x =? c then aload acschars i else tacs_loop map acschars (i + 1) c
  end.

Definition tacs vt (c : Z) : outcome Z := tacs_loop acs_map (vt_acschars vt) 0 c.

Definition dirty_line (l : tmt_line) : tmt_line := TLine true (tl_chars l).

Fixpoint dirty_loop (n : nat) (ls : list tmt_line) (i : Z) : outcome (list tmt_line) :=
  match n with
  | O => Ret ls
  | S n => l ← aload ls i; ls ← astore ls i (dirty_line l); dirty_loop n ls (i + 1)
  end.

Definition dirtylines vt (s e : Z) : outcome tmt :=
  ls ← dirty_loop (Z.to_nat (e - s)) (lines vt) s;
  Ret (with_dirty (set_lines vt ls) true).

Fixpoint clear_loop (n : nat) (l : list tmt_char) (i : Z) : outcome (list tmt_char) :=
  match n with
  | O => Ret l
  | S n => l ← astore l i (Char SPACE defattrs); clear_loop n l (i + 1)
  end.

(** [clearline] for a line that is not in the screen, and for one that is. *)
Definition clear_line vt (l : tmt_line) (s e : Z) : outcome tmt_line :=
  cs ← clear_loop (Z.to_nat (MIN e (ncol vt) - s)) (tl_chars l) s; Ret (TLine true cs).

Definition clearline vt (i s e : Z) : outcome tmt :=
  l ← aload (lines vt) i;
  l ← clear_line vt l s e;
  ls ← astore (lines vt) i l;
  Ret (with_dirty (set_lines vt ls) true).

Fixpoint clearlines_loop (n : nat) vt (i : Z) : outcome tmt :=
  match n with
  | O => Ret vt
  | S n => vt ← clearline vt i 0 (ncol vt); clearlines_loop n vt (i + 1)
  end.

Definition clearlines vt (r n : Z) : outcome tmt :=
  clearlines_loop (Z.to_nat (MIN (u32 (r + n)) (nline vt) - r)) vt r.

Definition scrup vt (r n : Z) : outcome tmt :=
  let n := MIN n (u32 (nline vt - 1 - r)) in
  if n =? 0 then Ret vt else
  buf ← slice (lines vt) r n;
  ls ← blit (lines vt) r (lines vt) (r + n) (u32 (nline vt - n - r));
  ls ← blit ls (nline vt - n) buf 0 n;
  vt ← clearlines (set_lines vt ls) (nline vt - n) n;
  dirtylines vt r (nline vt).

Definition scrdn vt (r n : Z) : outcome tmt :=
  let n := MIN n (u32 (nline vt - 1 - r)) in
  if n =? 0 then Ret vt else
  buf ← slice (lines vt) (nline vt - n) n;
  ls ← blit (lines vt) (r + n) (lines vt) r (u32 (nline vt - n - r));
  ls ← blit ls r buf 0 n;
  vt ← clearlines (set_lines vt ls) r n;
  dirtylines vt r (nline vt).

(** * The handlers of escape sequences *)

Definition ed vt : outcome tmt :=
  p ← P0 vt 0;
  match p with
  | 0 =>
    vt ← clearline vt (cline vt) (cc vt) (ncol vt);
    let b := u32 (cr vt + 1) in clearlines vt b (u32 (nline vt - b))
  | 1 =>
    vt ← clearline vt (cline vt) 0 (cc vt);
    clearlines vt 0 (u32 (cr vt - 1))
  | 2 => clearlines vt 0 (nline vt)
  | _ => Ret vt
  end.

(** The characters of the current line. *)
Definition on_line vt (f : list tmt_char -> outcome (list tmt_char)) : outcome tmt :=
  l ← aload (lines vt) (cline vt);
  cs ← f (tl_chars l);
  ls ← astore (lines vt) (cline vt) (TLine (tl_dirty l) cs);
  Ret (set_lines vt ls).

Definition ich vt : outcome tmt :=
  n ← P1 vt 0;
  let room := u32 (ncol vt - cc vt - 1) in
  let n := if n >? room then room else n in
  vt ← on_line vt (fun cs => blit cs (u32 (cc vt + n)) cs (cc vt) (MIN (u32 (ncol vt - 1 - cc vt)) (u32 (ncol vt - cc vt - n - 1))));
  clearline vt (cline vt) (cc vt) n.

Definition dch vt : outcome tmt :=
  n ← P1 vt 0;
  let room := u32 (ncol vt - cc vt) in
  let n := if n >? room then room else n in
  if n =? 0 then Ret vt else
  vt ← on_line vt (fun cs => blit cs (cc vt) cs (u32 (cc vt + n)) (u32 (ncol vt - cc vt - n)));
  clearline vt (cline vt) (u32 (ncol vt - n)) (ncol vt).

Definition el vt : outcome tmt :=
  p ← P0 vt 0;
  match p with
  | 0 => clearline vt (cline vt) (cc vt) (ncol vt)
  | 1 => clearline vt (cline vt) 0 (MIN (u32 (cc vt + 1)) (u32 (ncol vt - 1)))
  | 2 => clearline vt (cline vt) 0 (ncol vt)
  | _ => Ret vt
  end.

Definition color_of (k : Z) : option tmt_color :=
  match k with
  | 0 => Some COLOR_BLACK
  | 1 => Some COLOR_RED
  | 2 => Some COLOR_GREEN
  | 3 => Some COLOR_YELLOW
  | 4 => Some COLOR_BLUE
  | 5 => Some COLOR_MAGENTA
  | 6 => Some COLOR_CYAN
  | 7 => Some COLOR_WHITE
  | 9 => Some COLOR_DEFAULT
  | _ => None
  end.

(** The colours 30 to 39 are for the foreground, 40 to 49 for the background. *)
Definition set_color (a : tmt_attrs) (p : Z) : tmt_attrs :=
  match color_of (p mod 10) with
  | Some c =>
    if (30 <=? p) && (p <? 40) then Attrs (at_bold a) (at_dim a) (at_underline a) (at_blink a) (at_reverse a) (at_invisible a) c (at_bg a)
    else if (40 <=? p) && (p <? 50) then Attrs (at_bold a) (at_dim a) (at_underline a) (at_blink a) (at_reverse a) (at_invisible a) (at_fg a) c
    else a
  | None => a
  end.

(** One parameter [p] of [sgr]; [p0] is the first one. *)
Definition sgr_par vt (p0 p : Z) : tmt :=
  let a := vt_attrs vt in
  let on := p0 <? 20 in
  match p with
  | 0 => with_attrs vt defattrs
  | 1 | 22 => with_attrs vt (Attrs on (at_dim a) (at_underline a) (at_blink a) (at_reverse a) (at_invisible a) (at_fg a) (at_bg a))
  | 2 | 23 => with_attrs vt (Attrs (at_bold a) on (at_underline a) (at_blink a) (at_reverse a) (at_invisible a) (at_fg a) (at_bg a))
  | 4 | 24 => with_attrs vt (Attrs (at_bold a) (at_dim a) on (at_blink a) (at_reverse a) (at_invisible a) (at_fg a) (at_bg a))
  | 5 | 25 => with_attrs vt (Attrs (at_bold a) (at_dim a) (at_underline a) on (at_reverse a) (at_invisible a) (at_fg a) (at_bg a))
  | 7 | 27 => with_attrs vt (Attrs (at_bold a) (at_dim a) (at_underline a) (at_blink a) on (at_invisible a) (at_fg a) (at_bg a))
  | 8 | 28 => with_attrs vt (Attrs (at_bold a) (at_dim a) (at_underline a) (at_blink a) (at_reverse a) on (at_fg a) (at_bg a))
  | 10 | 11 => with_acs vt (10 <? p0)
  | _ => with_attrs vt (set_color a p)
  end.

Fixpoint sgr_loop (n : nat) vt (i : Z) : outcome tmt :=
  match n with
  | O => Ret vt
  | S n => p ← P0 vt i; p0 ← P0 vt 0; sgr_loop n (sgr_par vt p0 p) (i + 1)
  end.

Definition sgr vt : outcome tmt := sgr_loop (Z.to_nat (pr_npar (vt_parser vt))) vt 0.

Definition resetparser vt : tmt := with_parser vt (Parser (replicate (Z.to_nat PAR_MAX) 0) 0 0 S_NUL false).

Definition consumearg vt : outcome tmt :=
  let p := vt_parser vt in
  if pr_npar p <? PAR_MAX then
    pars ← astore (pr_pars p) (pr_npar p) (pr_arg p);
    Ret (with_parser vt (Parser pars (pr_npar p + 1) 0 (pr_state p) (pr_ignored p)))
  else Ret (with_parser vt (Parser (pr_pars p) (pr_npar p) 0 (pr_state p) (pr_ignored p))).

Definition fixcursor vt : tmt := with_curs vt (Point (MIN (cr vt) (u32 (nline vt - 1))) (MIN (cc vt) (u32 (ncol vt - 1)))).

Definition writecharatcurs vt (w : Z) : outcome tmt :=
  l ← aload (lines vt) (cline vt);
  cs ← astore (tl_chars l) (cc vt) (Char w (vt_attrs vt));
  ls ← astore (lines vt) (cline vt) (TLine true cs);
  let vt := with_dirty (set_lines vt ls) true in
  let vt := if cc vt <? u32 (ncol vt - 1) then set_c vt (u32 (cc vt + 1)) else with_curs vt (Point (u32 (cr vt + 1)) 0) in
  if nline vt <=? cr vt then scrup (set_r vt (u32 (nline vt - 1))) 0 1 else Ret vt.

Fixpoint rep_loop (n : nat) vt (r : Z) : outcome tmt :=
  match n with
  | O => Ret vt
  | S n => vt ← writecharatcurs vt r; rep_loop n vt r
  end.

Definition rep vt : outcome tmt :=
  if cc vt =? 0 then Ret vt else
  l ← aload (lines vt) (cline vt);
  r ← aload (tl_chars l) (cc vt - 1);
  n ← P1 vt 0;
  rep_loop (Z.to_nat n) vt (ch_c r).

(** The loops of the tabulator keys. *)
Fixpoint tab_loop (fuel : nat) vt (c : Z) : outcome Z :=
  match fuel with
  | O => Spin
  | S fuel =>
    let c := u32 (c + 1) in
    if c <? u32 (ncol vt - 1) then
      t ← aload (tl_chars (vt_tabs vt)) c;
      if ch_c t =? STAR then Ret c else tab_loop fuel vt c
    else Ret c
  end.

Definition tab vt : outcome tmt := c ← tab_loop (S (Z.to_nat (ncol vt))) vt (cc vt); Ret (set_c vt c).

Fixpoint backtab_loop (fuel : nat) vt (c : Z) : outcome Z :=
  match fuel with
  | O => Spin
  | S fuel =>
    if c =? 0 then Ret c else
    t ← aload (tl_chars (vt_tabs vt)) (c - 1);
    if ch_c t =? STAR then Ret (c - 1) else backtab_loop fuel vt (c - 1)
  end.

Definition backtab vt : outcome tmt := c ← backtab_loop (S (Z.to_nat (cc vt))) vt (cc vt); Ret (set_c vt c).

Definition set_tab vt : outcome tmt :=
  t ← aload (tl_chars (vt_tabs vt)) (cc vt);
  cs ← astore (tl_chars (vt_tabs vt)) (cc vt) (Char STAR (ch_a t));
  Ret (with_tabs vt (TLine (tl_dirty (vt_tabs vt)) cs)).

Definition clear_tabs vt : outcome tmt :=
  l ← clear_line vt (vt_tabs vt) 0 (ncol vt); Ret (with_dirty (with_tabs vt l) true).

Definition save_cursor vt : tmt := with_old vt (vt_curs vt) (vt_attrs vt).
Definition restore_cursor vt : tmt := with_attrs (with_curs vt (vt_oldcurs vt)) (vt_oldattrs vt).

(** * The state machine *)

(** [tmt_msg_t] with what it is about. *)
Inductive tmt_msg : Type :=
| MSG_MOVED
| MSG_UPDATE
| MSG_ANSWER (s : list Z)
| MSG_BELL
| MSG_CURSOR (c : Z).

(** ESC [ ? 6 c *)
Definition DEVICE_ATTRIBUTES : list Z := [27; 91; 63; 54; 99].

Section Handle.
Context {X : Type} (cb : tmt_msg -> tmt -> X -> outcome (tmt * X)).
Implicit Types x : X.

Definition notify vt x (update moved : bool) : outcome (tmt * X) :=
  '(vt, x) ← (if update then cb MSG_UPDATE vt x else Ret (vt, x));
  if moved then cb MSG_MOVED vt x else Ret (vt, x).

Definition tmt_reset vt x : outcome (tmt * X) :=
  let vt := with_acs (with_old (with_curs vt (Point 0 0)) (Point 0 0) (vt_oldattrs vt)) false in
  let vt := resetparser vt in
  let vt := with_old (with_attrs vt defattrs) (vt_oldcurs vt) defattrs in
  vt ← clearlines vt 0 (nline vt);
  '(vt, x) ← cb (MSG_CURSOR 116) vt x;
  notify vt x true true.

Definition dsr vt x : outcome (tmt * X) :=
  cb (MSG_ANSWER (take 99 ([27; 91] ++ print_d (u32 (cr vt + 1)) ++ [59] ++ print_d (u32 (cc vt + 1)) ++ [82]))) vt x.

(** [strchr(C, i)]: a NUL is found at the end of every string. *)
Definition in_string (C : list Z) (i : Z) : bool := match strchr (C ++ [0]) 0 i with Ret (Some _) => true | _ => false end.

(** The condition of the macros ON and DO. *)
Definition on vt (S : tmt_state) (C : list Z) (i : Z) : bool := bool_decide (pr_state (vt_parser vt) = S) && in_string C i.

(** What DO does around its action. *)
Definition act vt x (A : tmt -> outcome (tmt * X)) : outcome (bool * tmt * X) :=
  vt ← consumearg vt;
  '(vt, x) ← (if pr_ignored (vt_parser vt) then Ret (vt, x) else A vt);
  Ret (true, resetparser (fixcursor vt), x).

(** An action without callbacks. *)
Definition pure x (A : tmt -> outcome tmt) vt : outcome (tmt * X) := vt ← A vt; Ret (vt, x).

Definition set_state vt (s : tmt_state) : tmt :=
  let p := vt_parser vt in with_parser vt (Parser (pr_pars p) (pr_npar p) (pr_arg p) s (pr_ignored p)).
Definition set_ignored vt : tmt :=
  let p := vt_parser vt in with_parser vt (Parser (pr_pars p) (pr_npar p) (pr_arg p) S_ARG true).
Definition add_digit vt (i : Z) : tmt :=
  let p := vt_parser vt in with_parser vt (Parser (pr_pars p) (pr_npar p) (u32 (pr_arg p * 10 + (i - 48))) (pr_state p) (pr_ignored p)).

(** The actions of the cursor keys and of the commands that move the cursor. *)
Definition line_feed vt : outcome tmt :=
  if cr vt <? u32 (nline vt - 1) then Ret (set_r vt (u32 (cr vt + 1))) else scrup vt 0 1.
Definition cursor_up vt : outcome tmt := n ← P1 vt 0; Ret (set_r vt (MAX (u32 (cr vt - n)) 0)).
Definition cursor_down vt : outcome tmt := n ← P1 vt 0; Ret (set_r vt (MIN (u32 (cr vt + n)) (u32 (nline vt - 1)))).
Definition cursor_right vt : outcome tmt := n ← P1 vt 0; Ret (set_c vt (MIN (u32 (cc vt + n)) (u32 (ncol vt - 1)))).
Definition cursor_left vt : outcome tmt := n ← P1 vt 0; Ret (set_c vt (MIN (u32 (cc vt - n)) (cc vt))).
Definition cursor_column vt : outcome tmt := n ← P1 vt 0; Ret (set_c vt (MIN (u32 (n - 1)) (u32 (ncol vt - 1)))).
Definition cursor_line vt : outcome tmt := n ← P1 vt 0; Ret (set_r vt (MIN (u32 (n - 1)) (u32 (nline vt - 1)))).
Definition cursor_position vt : outcome tmt := r ← P1 vt 0; c ← P1 vt 1; Ret (with_curs vt (Point (u32 (r - 1)) (u32 (c - 1)))).
Definition on_par vt x (k : Z) (A : tmt -> outcome (tmt * X)) : outcome (tmt * X) := p ← P0 vt 0; if p =? k then A vt else Ret (vt, x).

Definition handlechar vt x (i : Z) : outcome (bool * tmt * X) :=
  if on vt S_NUL [7] i then act vt x (fun vt => cb MSG_BELL vt x) else
  if on vt S_NUL [8] i then act vt x (pure x (fun vt => Ret (if cc vt =? 0 then vt else set_c vt (cc vt - 1)))) else
  if on vt S_NUL [9] i then act vt x (pure x tab) else
  if on vt S_NUL [10] i then act vt x (pure x line_feed) else
  if on vt S_NUL [13] i then act vt x (pure x (fun vt => Ret (set_c vt 0))) else
  if on vt S_NUL [27] i then Ret (true, set_state vt S_ESC, x) else
  if on vt S_ESC [27] i then Ret (true, set_state vt S_ESC, x) else
  if on vt S_ESC [72] i then act vt x (pure x set_tab) else
  if on vt S_ESC [55] i then act vt x (pure x (fun vt => Ret (save_cursor vt))) else
  if on vt S_ESC [56] i then act vt x (pure x (fun vt => Ret (restore_cursor vt))) else
  if on vt S_ESC [43; 42; 40; 41] i then Ret (true, set_ignored vt, x) else
  if on vt S_ESC [99] i then act vt x (fun vt => tmt_reset vt x) else
  if on vt S_ESC [91] i then Ret (true, set_state vt S_ARG, x) else
  if on vt S_ARG [27] i then Ret (true, set_state vt S_ESC, x) else
  if on vt S_ARG [59] i then vt ← consumearg vt; Ret (true, vt, x) else
  if on vt S_ARG [63] i then Ret (true, vt, x) else
  if on vt S_ARG [48; 49; 50; 51; 52; 53; 54; 55; 56; 57] i then Ret (true, add_digit vt i, x) else
  if on vt S_ARG [65] i then act vt x (pure x cursor_up) else
  if on vt S_ARG [66] i then act vt x (pure x cursor_down) else
  if on vt S_ARG [67] i then act vt x (pure x cursor_right) else
  if on vt S_ARG [68] i then act vt x (pure x cursor_left) else
  if on vt S_ARG [69] i then act vt x (pure x (fun vt => cursor_down (set_c vt 0))) else
  if on vt S_ARG [70] i then act vt x (pure x (fun vt => cursor_up (set_c vt 0))) else
  if on vt S_ARG [71] i then act vt x (pure x cursor_column) else
  if on vt S_ARG [100] i then act vt x (pure x cursor_line) else
  if on vt S_ARG [72; 102] i then act vt x (pure x cursor_position) else
  if on vt S_ARG [73] i then act vt x (pure x tab) else
  if on vt S_ARG [74] i then act vt x (pure x ed) else
  if on vt S_ARG [75] i then act vt x (pure x el) else
  if on vt S_ARG [76] i then act vt x (pure x (fun vt => n ← P1 vt 0; scrdn vt (cr vt) n)) else
  if on vt S_ARG [77] i then act vt x (pure x (fun vt => n ← P1 vt 0; scrup vt (cr vt) n)) else
  if on vt S_ARG [80] i then act vt x (pure x dch) else
  if on vt S_ARG [83] i then act vt x (pure x (fun vt => n ← P1 vt 0; scrup vt 0 n)) else
  if on vt S_ARG [84] i then act vt x (pure x (fun vt => n ← P1 vt 0; scrdn vt 0 n)) else
  if on vt S_ARG [88] i then act vt x (pure x (fun vt => n ← P1 vt 0; clearline vt (cline vt) (cc vt) n)) else
  if on vt S_ARG [90] i then act vt x (pure x backtab) else
  if on vt S_ARG [98] i then act vt x (pure x rep) else
  if on vt S_ARG [99] i then act vt x (fun vt => cb (MSG_ANSWER DEVICE_ATTRIBUTES) vt x) else
  if on vt S_ARG [103] i then act vt x (fun vt => on_par vt x 3 (pure x clear_tabs)) else
  if on vt S_ARG [109] i then act vt x (pure x sgr) else
  if on vt S_ARG [110] i then act vt x (fun vt => on_par vt x 6 (fun vt => dsr vt x)) else
  if on vt S_ARG [104] i then act vt x (fun vt => on_par vt x 25 (fun vt => cb (MSG_CURSOR 116) vt x)) else
  if on vt S_ARG [105] i then act vt x (pure x (fun vt => Ret vt)) else
  if on vt S_ARG [108] i then act vt x (fun vt => on_par vt x 25 (fun vt => cb (MSG_CURSOR 102) vt x)) else
  if on vt S_ARG [115] i then act vt x (pure x (fun vt => Ret (save_cursor vt))) else
  if on vt S_ARG [117] i then act vt x (pure x (fun vt => Ret (restore_cursor vt))) else
  if on vt S_ARG [64] i then act vt x (pure x ich) else
  Ret (false, resetparser vt, x).

(** * Output *)

Definition testmbchar vt : Z := if vt_nmb vt =? 0 then u32 (-2) else 1.

(** [char] is signed. *)
Definition getmbchar vt : outcome (Z * tmt) := c ← aload (vt_mb vt) 0; Ret (schar c, with_mb vt 0 (vt_mb vt)).

Definition write_mb vt : outcome tmt := '(w, vt) ← getmbchar vt; writecharatcurs vt w.

Definition write_char vt (c : Z) : outcome tmt :=
  if vt_acs vt then w ← tacs vt c; writecharatcurs vt w
  else if BUF_MAX <=? vt_nmb vt then write_mb vt
  else
    vt ← (if testmbchar vt =? u32 (-1) then write_mb vt
          else if testmbchar vt =? u32 (-2) then mb ← astore (vt_mb vt) (vt_nmb vt) c; Ret (with_mb vt (vt_nmb vt + 1) mb)
          else Ret vt);
    if testmbchar vt <=? MB_LEN_MAX then write_mb vt else Ret vt.

Fixpoint write_bytes vt x (s : list Z) : outcome (tmt * X) :=
  match s with
  | [] => Ret (vt, x)
  | c :: s =>
    '(handled, vt, x) ← handlechar vt x c;
    vt ← (if (handled : bool) then Ret vt else write_char vt c);
    write_bytes vt x s
  end.

Definition point_eqb (a b : tmt_point) : bool := (pt_r a =? pt_r b) && (pt_c a =? pt_c b).

(** [n] bytes of the string. *)
Definition tmt_write vt x (s : list Z) (n : Z) : outcome (tmt * X) :=
  let oc := vt_curs vt in
  n ← (if n =? 0 then strlen s 0 else Ret n);
  s ← slice s 0 n;
  '(vt, x) ← write_bytes vt x s;
  notify vt x (vt_dirty vt) (negb (point_eqb oc (vt_curs vt))).

Fixpoint clean_loop (n : nat) (ls : list tmt_line) (i : Z) : outcome (list tmt_line) :=
  match n with
  | O => Ret ls
  | S n => l ← aload ls i; ls ← astore ls i (TLine false (tl_chars l)); clean_loop n ls (i + 1)
  end.

Definition tmt_clean vt : outcome tmt :=
  ls ← clean_loop (Z.to_nat (nline vt)) (lines vt) 0;
  Ret (with_dirty (set_lines vt ls) (if nline vt =? 0 then vt_dirty vt else false)).

(** * Opening and resizing *)

(** [alloc i] says whether the [i]-th allocation of the call succeeds, [junk] is what
    fresh memory holds. *)
Context (alloc : nat -> bool) (junk : tmt_char).

(** [krealloc] of a line with the characters [o] to [n] characters. *)
Definition realloc_chars (o : list tmt_char) (n : Z) : list tmt_char :=
  take (Z.to_nat n) o ++ replicate (Z.to_nat n - length o) junk.

Definition allocline vt (k : nat) (o : tmt_line) (n pc : Z) : outcome (option tmt_line) :=
  if negb (alloc k) then Ret None else
  l ← clear_line vt (TLine (tl_dirty o) (realloc_chars (tl_chars o) n)) pc n; Ret (Some l).

(** The loop over the lines; [old] is the old number of lines, [pc] of columns. *)
Fixpoint resize_loop (m : nat) vt (i old pc : Z) : outcome (bool * tmt) :=
  match m with
  | O => Ret (true, vt)
  | S m =>
    o ← (if old <=? i then Ret (TLine false []) else aload (lines vt) i);
    r ← allocline vt (S (Z.to_nat i)) o (ncol vt) (if old <=? i then 0 else pc);
    match r with
    | None => Ret (false, vt)
    | Some l =>
      ls ← (if i <? Z.of_nat (length (lines vt)) then astore (lines vt) i l else Ret (lines vt ++ [l]));
      resize_loop m (with_dirty (set_lines vt ls) true) (i + 1) old pc
    end
  end.

Fixpoint tabs_loop (m : nat) (cs : list tmt_char) (i : Z) : outcome (list tmt_char) :=
  match m with
  | O => Ret cs
  | S m =>
    cs ← (if i mod TAB =? 0 then t ← aload cs i; astore cs i (Char STAR (ch_a t)) else Ret cs);
    tabs_loop m cs (i + 1)
  end.

(** The tabulators: the first and the last column, and every eighth. *)
Definition default_tabs (cs : list tmt_char) (ncol : Z) : outcome (list tmt_char) :=
  t ← aload cs 0;
  cs ← astore cs 0 (Char STAR (ch_a t));
  t ← aload cs (ncol - 1);
  cs ← astore cs (ncol - 1) (Char STAR (ch_a t));
  tabs_loop (Z.to_nat ncol) cs 0.

(** The lines that are given up are freed before the array is reallocated: they are
    no longer there when that fails.  When the tabulators cannot be allocated the
    array itself is freed. *)
Definition tmt_resize vt x (nl nc : Z) : outcome (bool * tmt * X) :=
  if (nl <? 2) || (nc <? 2) then Ret (false, vt, x) else
  let old := nline vt in
  let pc := ncol vt in
  let ls := if nl <? old then take (Z.to_nat nl) (lines vt) else lines vt in
  if negb (alloc 0) then Ret (false, set_lines vt ls, x) else
  '(ok, vt) ← resize_loop (Z.to_nat nl) (with_screen vt (Screen old nc ls)) 0 old pc;
  if negb (ok : bool) then Ret (false, vt, x) else
  let vt := with_screen vt (Screen nl nc (lines vt)) in
  r ← allocline vt (S (Z.to_nat nl)) (vt_tabs vt) nc 0;
  match r with
  | None => Ret (false, set_lines vt [], x)
  | Some t =>
    cs ← default_tabs (tl_chars t) nc;
    let vt := fixcursor (with_dirty (with_tabs vt (TLine true cs)) true) in
    vt ← dirtylines vt 0 nl;
    '(vt, x) ← notify vt x true true;
    Ret (true, vt, x)
  end.

Definition default_acs : list Z :=
  [62; 60; 94; 118; 35; 43; 58; 111; 35; 35; 43; 43; 43; 43; 43; 126; 45; 45; 45; 95; 43; 43; 43; 43; 124; 60; 62; 42; 33; 102; 111; 0].

(** A new emulator: zeroed memory. *)
Definition zero_tmt (acs : list Z) : tmt :=
  let a := Attrs false false false false false false COLOR_ZERO COLOR_ZERO in
  Tmt (Point 0 0) (Point 0 0) a a false false (Screen 0 0 []) (TLine false []) acs 0 (replicate (Z.to_nat (BUF_MAX + 1)) 0)
    (Parser (replicate (Z.to_nat PAR_MAX) 0) 0 0 S_NUL false).

(** [room]: the [zmalloc] of the structure succeeds. *)
Definition tmt_open (room : bool) x (nl nc : Z) (acs : option (list Z)) : outcome (option tmt * X) :=
  if (nl =? 0) || (nc =? 0) || negb room then Ret (None, x) else
  '(ok, vt, x) ← tmt_resize (zero_tmt (default default_acs acs)) x nl nc;
  Ret (if (ok : bool) then Some vt else None, x).

End Handle.
