(* ===== verification/TmtSpec.v ===== *)
(** The terminal emulator stays inside its screen, and shows what is written to it.

    First theorem: from a well-formed state every sequence of bytes, escape
    sequences included, is handled without an access outside the arrays, and leads
    to a well-formed state; the callback may use the emulator as it likes, as long
    as it leaves it well-formed.  Second theorem: for text with carriage returns,
    line feeds and backspaces the screen is that of a simple teletype. *)
From stdpp Require Import base numbers list.
From Stdlib Require Import ZArith Lia Bool.
From S2P Require Import Prelude Str Tmt.

Open Scope Z_scope.

(** * Well-formed states *)

Definition lines_ok (nl nc : Z) (ls : list tmt_line) : Prop :=
  Z.of_nat (length ls) = nl /\ Forall (fun l => Z.of_nat (length (tl_chars l)) = nc) ls.

Record parser_ok (p : tmt_parser) : Prop := {
  po_pars : Z.of_nat (length (pr_pars p)) = PAR_MAX;
  po_range : Forall (fun n => 0 <= n < 2 ^ 32) (pr_pars p);
  po_npar : 0 <= pr_npar p <= PAR_MAX;
  po_arg : 0 <= pr_arg p < 2 ^ 32;
}.

(** A screen of [nl] lines and [nc] columns, the cursor apart. *)
Record grid (nl nc : Z) (vt : tmt) : Prop := {
  gr_nline : nline vt = nl;
  gr_ncol : ncol vt = nc;
  gr_size : 2 <= nl < 2 ^ 31 /\ 2 <= nc < 2 ^ 31;
  gr_lines : lines_ok nl nc (lines vt);
  gr_tabs : Z.of_nat (length (tl_chars (vt_tabs vt))) = nc;
  gr_old : 0 <= pt_r (vt_oldcurs vt) /\ 0 <= pt_c (vt_oldcurs vt);
  gr_curs : 0 <= cr vt /\ 0 <= cc vt;
  gr_parser : parser_ok (vt_parser vt);
  gr_mb : Z.of_nat (length (vt_mb vt)) = BUF_MAX + 1 /\ vt_nmb vt = 0;
  gr_acs : 31 <= Z.of_nat (length (vt_acschars vt));
}.

Record tmt_wf (nl nc : Z) (vt : tmt) : Prop := {
  tw_grid : grid nl nc vt;
  tw_r : cr vt < nl;
  tw_c : cc vt < nc;
}.

(** [vt'] is [vt] with other lines. *)
Definition drawn (nl nc : Z) (vt vt' : tmt) : Prop := exists ls d, vt' = with_dirty (set_lines vt ls) d /\ lines_ok nl nc ls.

Lemma drawn_refl nl nc vt : grid nl nc vt -> drawn nl nc vt vt.
Proof.
  intros G. exists (lines vt), (vt_dirty vt). split; [| apply G]. destruct vt as [? ? ? ? ? ? [? ? ?] ? ? ? ? ?]. done.
Qed.

Lemma drawn_trans nl nc a b c : drawn nl nc a b -> drawn nl nc b c -> drawn nl nc a c.
Proof. intros (l1 & d1 & -> & H1) (l2 & d2 & -> & H2). by exists l2, d2. Qed.

Lemma drawn_grid nl nc vt vt' : grid nl nc vt -> drawn nl nc vt vt' -> grid nl nc vt'.
Proof. intros [] (ls & d & -> & Hl). by split. Qed.

Lemma drawn_curs nl nc vt vt' : drawn nl nc vt vt' -> vt_curs vt' = vt_curs vt.
Proof. by intros (ls & d & -> & _). Qed.

Lemma drawn_wf nl nc vt vt' : tmt_wf nl nc vt -> drawn nl nc vt vt' -> tmt_wf nl nc vt'.
Proof. intros [G Hr Hc] D. pose proof (drawn_curs _ _ _ _ D) as E. split; [by eapply drawn_grid | unfold cr in *; by rewrite E | unfold cc in *; by rewrite E]. Qed.

(** The computation succeeds and its result has the property. *)
Definition succeeds {A} (m : outcome A) (P : A -> Prop) : Prop := exists a, m = Ret a /\ P a.

Lemma succeeds_Ret {A} (a : A) P : P a -> succeeds (Ret a) P.
Proof. intros H. by exists a. Qed.

Lemma succeeds_bind {A B} (m : outcome A) (f : A -> outcome B) P Q :
  succeeds m P -> (forall a, P a -> succeeds (f a) Q) -> succeeds (a ← m; f a) Q.
Proof. intros (a & -> & Ha) Hf. rewrite bind_Ret. by apply Hf. Qed.

Lemma succeeds_weaken {A} (m : outcome A) P Q : succeeds m P -> (forall a, P a -> Q a) -> succeeds m Q.
Proof. intros (a & -> & Ha) H. exists a. auto. Qed.

Lemma aload_succeeds {A} (l : list A) i (P : A -> Prop) : 0 <= i < Z.of_nat (length l) -> Forall P l -> succeeds (aload l i) P.
Proof. intros Hi HP. destruct (aload_in l i Hi) as (x & E & Hx). exists x. split; [done |]. by eapply Forall_lookup_1. Qed.

Lemma aload_some {A} (l : list A) i : 0 <= i < Z.of_nat (length l) -> succeeds (aload l i) (fun _ => True).
Proof. intros Hi. destruct (aload_in l i Hi) as (x & E & _). by exists x. Qed.

Lemma astore_succeeds {A} (l : list A) i x (P : A -> Prop) :
  0 <= i < Z.of_nat (length l) -> Forall P l -> P x -> succeeds (astore l i x) (fun l' => length l' = length l /\ Forall P l').
Proof. intros Hi HP Hx. rewrite astore_in by done. apply succeeds_Ret. rewrite length_insert. split; [done |]. by apply Forall_insert. Qed.

Lemma astore_length {A} (l : list A) i x : 0 <= i < Z.of_nat (length l) -> succeeds (astore l i x) (fun l' => length l' = length l).
Proof. intros Hi. rewrite astore_in by done. apply succeeds_Ret. by rewrite length_insert. Qed.

(** The lines are replaced one at a time. *)
Lemma lines_store nl nc ls i l : lines_ok nl nc ls -> 0 <= i < nl -> Z.of_nat (length (tl_chars l)) = nc -> succeeds (astore ls i l) (lines_ok nl nc).
Proof.
  intros [Hl Hc] Hi Hn. eapply succeeds_weaken; [apply (astore_succeeds ls i l (fun l => Z.of_nat (length (tl_chars l)) = nc)); [lia | done | done] |].
  intros ls' [E HF]. split; [by rewrite E | done].
Qed.

Lemma lines_load nl nc ls i : lines_ok nl nc ls -> 0 <= i < nl -> succeeds (aload ls i) (fun l => Z.of_nat (length (tl_chars l)) = nc).
Proof. intros [Hl Hc] Hi. apply aload_succeeds; [lia | done]. Qed.

(** * Clearing and scrolling *)

Lemma dirty_loop_ok nl nc n ls i : lines_ok nl nc ls -> 0 <= i -> i + Z.of_nat n <= nl -> succeeds (dirty_loop n ls i) (lines_ok nl nc).
Proof.
  revert ls i. induction n as [| n IH]; intros ls i Hl Hi Hn; cbn [dirty_loop]; [by apply succeeds_Ret |].
  eapply succeeds_bind; [apply (lines_load nl nc); [done | lia] |]. intros l Hc.
  eapply succeeds_bind; [apply (lines_store nl nc); [done | lia | done] |]. intros ls' Hl'. apply IH; [done | lia | lia].
Qed.

Lemma dirtylines_ok nl nc vt s : grid nl nc vt -> 0 <= s <= nl -> succeeds (dirtylines vt s (nline vt)) (drawn nl nc vt).
Proof.
  intros G Hs. unfold dirtylines. rewrite (gr_nline _ _ _ G).
  eapply succeeds_bind; [apply (dirty_loop_ok nl nc); [apply G | lia | lia] |]. intros ls Hl. apply succeeds_Ret. by eexists _, _.
Qed.

Lemma clear_loop_ok n l i : 0 <= i -> i + Z.of_nat n <= Z.of_nat (length l) -> succeeds (clear_loop n l i) (fun l' => length l' = length l).
Proof.
  revert l i. induction n as [| n IH]; intros l i Hi Hn; cbn [clear_loop]; [by apply succeeds_Ret |].
  eapply succeeds_bind; [apply astore_length; lia |]. cbn beta. intros l' Hl. eapply succeeds_weaken; [apply IH; [lia | lia] |]. intros. congruence.
Qed.

Lemma MIN_le a b : MIN a b <= a /\ MIN a b <= b.
Proof. unfold MIN. destruct (Z.ltb_spec a b); lia. Qed.

Lemma clear_line_ok nl nc vt l s e :
  grid nl nc vt -> Z.of_nat (length (tl_chars l)) = nc -> 0 <= s ->
  succeeds (clear_line vt l s e) (fun l' => Z.of_nat (length (tl_chars l')) = nc).
Proof.
  intros G Hl Hs. unfold clear_line. rewrite (gr_ncol _ _ _ G). pose proof (MIN_le e nc) as [_ Hm].
  destruct (decide (s <= MIN e nc)) as [Hd | Hd].
  - eapply succeeds_bind; [apply clear_loop_ok; lia |]. cbn beta. intros cs Hc. apply succeeds_Ret. cbn [tl_chars]. lia.
  - replace (Z.to_nat (MIN e nc - s)) with O by lia. cbn [clear_loop]. rewrite bind_Ret. by apply succeeds_Ret.
Qed.

Lemma clearline_ok nl nc vt i s e : grid nl nc vt -> 0 <= i < nl -> 0 <= s -> succeeds (clearline vt i s e) (drawn nl nc vt).
Proof.
  intros G Hi Hs. unfold clearline. eapply succeeds_bind; [apply (lines_load nl nc); [apply G | done] |]. intros l Hl.
  eapply succeeds_bind; [by apply (clear_line_ok nl nc) |]. intros l' Hl'.
  eapply succeeds_bind; [apply (lines_store nl nc); [apply G | done | done] |]. intros ls Hls. apply succeeds_Ret. by eexists _, _.
Qed.

Lemma clearlines_loop_ok nl nc n vt i : grid nl nc vt -> 0 <= i -> i + Z.of_nat n <= nl -> succeeds (clearlines_loop n vt i) (drawn nl nc vt).
Proof.
  revert vt i. induction n as [| n IH]; intros vt i G Hi Hn; cbn [clearlines_loop]; [by apply succeeds_Ret, drawn_refl |].
  eapply succeeds_bind; [apply (clearline_ok nl nc); [done | lia | lia] |]. intros vt' D.
  eapply succeeds_weaken; [apply IH; [by eapply drawn_grid | lia | lia] |]. intros. by eapply drawn_trans.
Qed.

Lemma clearlines_ok nl nc vt r n : grid nl nc vt -> 0 <= r -> succeeds (clearlines vt r n) (drawn nl nc vt).
Proof.
  intros G Hr. unfold clearlines. rewrite (gr_nline _ _ _ G). pose proof (MIN_le (u32 (r + n)) nl) as [_ Hm].
  destruct (decide (r <= MIN (u32 (r + n)) nl)).
  - apply clearlines_loop_ok; [done | done | lia].
  - replace (Z.to_nat (MIN (u32 (r + n)) nl - r)) with O by lia. by apply succeeds_Ret, drawn_refl.
Qed.

Lemma blit_ok {A} (P : A -> Prop) dst d src s n :
  0 <= d -> 0 <= s -> 0 <= n -> d + n <= Z.of_nat (length dst) -> s + n <= Z.of_nat (length src) -> Forall P dst -> Forall P src ->
  succeeds (blit dst d src s n) (fun l => length l = length dst /\ Forall P l).
Proof.
  intros Hd Hs Hn Hdn Hsn HP HQ. unfold blit.
  destruct (Z.leb_spec 0 d), (Z.leb_spec 0 s), (Z.leb_spec 0 n), (Z.leb_spec (d + n) (Z.of_nat (length dst))),
    (Z.leb_spec (s + n) (Z.of_nat (length src))); try lia. cbn [andb]. apply succeeds_Ret. split.
  - rewrite !length_app, !length_take, !length_drop. lia.
  - rewrite !Forall_app. split; [by apply Forall_take |]. split; [by apply Forall_take, Forall_drop | by apply Forall_drop].
Qed.

Lemma slice_ok {A} (P : A -> Prop) src s n :
  0 <= s -> 0 <= n -> s + n <= Z.of_nat (length src) -> Forall P src -> succeeds (slice src s n) (fun l => Z.of_nat (length l) = n /\ Forall P l).
Proof.
  intros Hs Hn Hsn HP. unfold slice. destruct (Z.leb_spec 0 s), (Z.leb_spec 0 n), (Z.leb_spec (s + n) (Z.of_nat (length src))); try lia.
  cbn [andb]. apply succeeds_Ret. split; [rewrite length_take, length_drop; lia | by apply Forall_take, Forall_drop].
Qed.

(** The three copies of a scroll keep the array of lines in shape. *)
Lemma scroll_lines nl nc ls s1 n d2 s2 m d3 :
  lines_ok nl nc ls -> 0 <= n -> 0 <= m -> 0 <= s1 -> s1 + n <= nl -> 0 <= d2 -> d2 + m <= nl -> 0 <= s2 -> s2 + m <= nl -> 0 <= d3 -> d3 + n <= nl ->
  succeeds (buf ← slice ls s1 n; ls' ← blit ls d2 ls s2 m; blit ls' d3 buf 0 n) (lines_ok nl nc).
Proof.
  set (P := fun l : tmt_line => Z.of_nat (length (tl_chars l)) = nc).
  intros [Hl HF] **. eapply succeeds_bind; [apply (slice_ok P ls s1 n); [lia.. | exact HF] |]. intros buf [Hb HFb].
  eapply succeeds_bind; [apply (blit_ok P ls d2 ls s2 m); [lia.. | exact HF | exact HF] |]. intros l1 [Hl1 HF1].
  eapply succeeds_weaken; [apply (blit_ok P l1 d3 buf 0 n); [lia.. | exact HF1 | exact HFb] |]. intros l2 [Hl2 HF2]. split; [lia | done].
Qed.

(** The rest of a scroll. *)
Lemma scroll_rest nl nc vt ls r k n :
  grid nl nc vt -> lines_ok nl nc ls -> 0 <= k -> 0 <= r <= nl ->
  succeeds (vt' ← clearlines (set_lines vt ls) k n; dirtylines vt' r (nline vt')) (drawn nl nc vt).
Proof.
  intros G Hl Hk Hr. assert (drawn nl nc vt (set_lines vt ls)) as D1.
  { exists ls, (vt_dirty vt). split; [by destruct vt as [? ? ? ? ? ? [? ? ?] ? ? ? ? ?] | done]. }
  eapply succeeds_bind; [apply (clearlines_ok nl nc); [by eapply drawn_grid | done] |]. intros vt' D2.
  assert (grid nl nc vt') as G' by (eapply (drawn_grid _ _ (set_lines vt ls)); [by eapply (drawn_grid _ _ vt) | exact D2]).
  eapply succeeds_weaken; [by apply (dirtylines_ok nl nc) |]. intros vt'' D3. eapply drawn_trans; [exact D1 |]. by eapply drawn_trans.
Qed.

Lemma MIN_nonneg a b : 0 <= a -> 0 <= b -> 0 <= MIN a b.
Proof. unfold MIN. destruct (Z.ltb_spec a b); lia. Qed.

Lemma scrup_ok nl nc vt r n : grid nl nc vt -> 0 <= r < nl -> 0 <= n -> succeeds (scrup vt r n) (drawn nl nc vt).
Proof.
  intros G Hr Hn. pose proof (gr_size _ _ _ G) as [Hs _]. unfold scrup. rewrite (gr_nline _ _ _ G), (u32_small (nl - 1 - r)) by lia.
  pose proof (MIN_le n (nl - 1 - r)) as [_ Hm]. pose proof (MIN_nonneg n (nl - 1 - r) ltac:(lia) ltac:(lia)) as H0.
  set (k := MIN n (nl - 1 - r)) in *. destruct (Z.eqb_spec k 0); [by apply succeeds_Ret, drawn_refl |]. rewrite u32_small by lia.
  destruct (scroll_lines nl nc (lines vt) r k r (r + k) (nl - k - r) (nl - k)) as (ls & E & Hls); [apply G | lia.. |].
  destruct (slice (lines vt) r k) as [buf | | |]; try done. rewrite bind_Ret.
  destruct (blit (lines vt) r (lines vt) (r + k) (nl - k - r)) as [l1 | | |]; try done. rewrite !bind_Ret in E. rewrite bind_Ret, E, bind_Ret.
  apply scroll_rest; done || lia.
Qed.

Lemma scrdn_ok nl nc vt r n : grid nl nc vt -> 0 <= r < nl -> 0 <= n -> succeeds (scrdn vt r n) (drawn nl nc vt).
Proof.
  intros G Hr Hn. pose proof (gr_size _ _ _ G) as [Hs _]. unfold scrdn. rewrite (gr_nline _ _ _ G), (u32_small (nl - 1 - r)) by lia.
  pose proof (MIN_le n (nl - 1 - r)) as [_ Hm]. pose proof (MIN_nonneg n (nl - 1 - r) ltac:(lia) ltac:(lia)) as H0.
  set (k := MIN n (nl - 1 - r)) in *. destruct (Z.eqb_spec k 0); [by apply succeeds_Ret, drawn_refl |]. rewrite u32_small by lia.
  destruct (scroll_lines nl nc (lines vt) (nl - k) k (r + k) r (nl - k - r) r) as (ls & E & Hls); [apply G | lia.. |].
  destruct (slice (lines vt) (nl - k) k) as [buf | | |]; try done. rewrite bind_Ret.
  destruct (blit (lines vt) (r + k) (lines vt) r (nl - k - r)) as [l1 | | |]; try done. rewrite !bind_Ret in E. rewrite bind_Ret, E, bind_Ret.
  apply scroll_rest; done || lia.
Qed.

(** * The handlers *)

Lemma P0_ok nl nc vt i : grid nl nc vt -> 0 <= i < PAR_MAX -> succeeds (P0 vt i) (fun n => 0 <= n < 2 ^ 32).
Proof. intros G Hi. destruct (gr_parser _ _ _ G) as [Hl HF _ _]. apply aload_succeeds; [lia | done]. Qed.

Lemma P1_ok nl nc vt i : grid nl nc vt -> 0 <= i < PAR_MAX -> succeeds (P1 vt i) (fun n => 1 <= n < 2 ^ 32).
Proof.
  intros G Hi. eapply succeeds_bind; [by eapply P0_ok |]. cbn beta. intros n Hn. apply succeeds_Ret. destruct (Z.eqb_spec n 0); lia.
Qed.

(** In a well-formed state the cursor is on its line. *)
Lemma cline_ok nl nc vt : tmt_wf nl nc vt -> cline vt = cr vt /\ 0 <= cr vt < nl /\ 0 <= cc vt < nc /\ 2 <= nl < 2 ^ 31 /\ 2 <= nc < 2 ^ 31.
Proof.
  intros [G Hr Hc]. pose proof (gr_curs _ _ _ G) as [H1 H2]. pose proof (gr_size _ _ _ G) as [H3 H4].
  split; [| split_and!; done || lia]. unfold cline, MIN. rewrite (gr_nline _ _ _ G), u32_small by lia.
  destruct (Z.ltb_spec (cr vt) (nl - 1)); lia.
Qed.

Lemma clear_current nl nc vt s e : tmt_wf nl nc vt -> 0 <= s -> succeeds (clearline vt (cline vt) s e) (drawn nl nc vt).
Proof. intros W Hs. destruct (cline_ok nl nc vt W) as (-> & Hr & _). by apply clearline_ok; [apply W | |]. Qed.

Lemma ed_ok nl nc vt : tmt_wf nl nc vt -> succeeds (ed vt) (drawn nl nc vt).
Proof.
  intros W. destruct (cline_ok nl nc vt W) as (_ & Hr & Hc & Hn & _). pose proof (tw_grid _ _ _ W) as G. unfold ed.
  eapply succeeds_bind; [by apply (P0_ok nl nc) |]. intros p _.
  assert (forall s e r n, 0 <= s -> 0 <= r -> succeeds (vt' ← clearline vt (cline vt) s e; clearlines vt' r n) (drawn nl nc vt)) as Hcl.
  { intros s e r n Hs Hr0. eapply succeeds_bind; [by apply (clear_current nl nc) |]. intros vt' D.
    eapply succeeds_weaken; [apply (clearlines_ok nl nc); [by eapply drawn_grid | done] |]. intros. by eapply drawn_trans. }
  destruct p as [| [[] | [] |] |]; try (by apply succeeds_Ret, drawn_refl); [| by apply clearlines_ok |].
  - eapply succeeds_bind; [apply (clear_current nl nc); [done | lia] |]. intros vt' D. pose proof (drawn_grid _ _ _ _ G D) as G'.
    eapply succeeds_weaken; [apply (clearlines_ok nl nc); [done |] |]; [apply Z.mod_pos_bound; lia |]. intros. by eapply drawn_trans.
  - eapply succeeds_bind; [apply (clear_current nl nc); [done | lia] |]. intros vt' D. pose proof (drawn_grid _ _ _ _ G D) as G'.
    eapply succeeds_weaken; [by apply (clearlines_ok nl nc) |]. intros. by eapply drawn_trans.
Qed.

Lemma el_ok nl nc vt : tmt_wf nl nc vt -> succeeds (el vt) (drawn nl nc vt).
Proof.
  intros W. destruct (cline_ok nl nc vt W) as (_ & Hr & Hc & Hn & _). unfold el.
  eapply succeeds_bind; [apply (P0_ok nl nc); [apply W | done] |]. intros p _.
  destruct p as [| [[] | [] |] |]; try (apply succeeds_Ret, drawn_refl, W); apply clear_current; done || lia.
Qed.

Lemma on_line_ok nl nc vt f :
  tmt_wf nl nc vt -> (forall cs, Z.of_nat (length cs) = nc -> succeeds (f cs) (fun cs' => length cs' = length cs)) ->
  succeeds (on_line vt f) (drawn nl nc vt).
Proof.
  intros W Hf. destruct (cline_ok nl nc vt W) as (E & Hr & _). unfold on_line. rewrite E.
  eapply succeeds_bind; [apply (lines_load nl nc); [apply W | done] |]. cbn beta. intros l Hl.
  eapply succeeds_bind; [by apply Hf |]. cbn beta. intros cs Hcs.
  eapply succeeds_bind; [apply (lines_store nl nc); [apply W | done | cbn [tl_chars]; lia] |]. intros ls Hls. apply succeeds_Ret.
  exists ls, (vt_dirty vt). split; [by destruct vt as [? ? ? ? ? ? [? ? ?] ? ? ? ? ?] | done].
Qed.

Lemma blit_length {A} (dst src : list A) d s n :
  0 <= d -> 0 <= s -> 0 <= n -> d + n <= Z.of_nat (length dst) -> s + n <= Z.of_nat (length src) -> succeeds (blit dst d src s n) (fun l => length l = length dst).
Proof.
  intros. eapply succeeds_weaken; [apply (blit_ok (fun _ => True)); [lia.. | by apply Forall_true | by apply Forall_true] |]. by intros l [].
Qed.

Lemma ich_ok nl nc vt : tmt_wf nl nc vt -> succeeds (ich vt) (drawn nl nc vt).
Proof.
  intros W. destruct (cline_ok nl nc vt W) as (_ & Hr & Hc & Hn & Hm). pose proof (gr_ncol _ _ _ (tw_grid _ _ _ W)) as En. unfold ich.
  eapply succeeds_bind; [apply (P1_ok nl nc); [apply W | done] |]. cbn beta. intros n Hp.
  rewrite En, (u32_small (nc - cc vt - 1)), (u32_small (nc - 1 - cc vt)), Z.gtb_ltb by lia. set (k := if _ <? n then _ else n).
  assert (0 <= k <= nc - cc vt - 1) as Hk by (subst k; destruct (Z.ltb_spec (nc - cc vt - 1) n); lia).
  rewrite (u32_small (cc vt + k)), (u32_small (nc - cc vt - k - 1)) by lia.
  pose proof (MIN_le (nc - 1 - cc vt) (nc - cc vt - k - 1)). pose proof (MIN_nonneg (nc - 1 - cc vt) (nc - cc vt - k - 1) ltac:(lia) ltac:(lia)).
  eapply succeeds_bind; [apply (on_line_ok nl nc); [done |]; intros cs Hcs; apply blit_length; lia |]. intros vt' D.
  pose proof (drawn_wf _ _ _ _ W D) as W'. destruct (cline_ok _ _ _ W') as (_ & _ & Hc' & _).
  eapply succeeds_weaken; [apply (clear_current nl nc); [done | first [lia | apply Z.mod_pos_bound; lia]] |]. intros. by eapply drawn_trans.
Qed.

Lemma dch_ok nl nc vt : tmt_wf nl nc vt -> succeeds (dch vt) (drawn nl nc vt).
Proof.
  intros W. destruct (cline_ok nl nc vt W) as (_ & Hr & Hc & Hn & Hm). pose proof (gr_ncol _ _ _ (tw_grid _ _ _ W)) as En. unfold dch.
  eapply succeeds_bind; [apply (P1_ok nl nc); [apply W | done] |]. cbn beta. intros n Hp.
  rewrite En, (u32_small (nc - cc vt)), Z.gtb_ltb by lia. set (k := if _ <? n then _ else n).
  assert (0 <= k <= nc - cc vt) as Hk by (subst k; destruct (Z.ltb_spec (nc - cc vt) n); lia).
  destruct (Z.eqb_spec k 0); [apply succeeds_Ret, drawn_refl, W |]. rewrite (u32_small (cc vt + k)), (u32_small (nc - cc vt - k)) by lia.
  eapply succeeds_bind; [apply (on_line_ok nl nc); [done |]; intros cs Hcs; apply blit_length; lia |]. intros vt' D.
  pose proof (drawn_wf _ _ _ _ W D) as W'. destruct (cline_ok _ _ _ W') as (_ & _ & Hc' & _).
  eapply succeeds_weaken; [apply (clear_current nl nc); [done | first [lia | apply Z.mod_pos_bound; lia]] |]. intros. by eapply drawn_trans.
Qed.

(** Changes of a field that keep the rest. *)
Ltac regrid := let G := fresh in intros G; destruct G; split; cbn; try done.

Lemma with_attrs_grid nl nc vt a : grid nl nc vt -> grid nl nc (with_attrs vt a).
Proof. regrid. Qed.
Lemma with_acs_grid nl nc vt a : grid nl nc vt -> grid nl nc (with_acs vt a).
Proof. regrid. Qed.
Lemma with_curs_grid nl nc vt p : 0 <= pt_r p -> 0 <= pt_c p -> grid nl nc vt -> grid nl nc (with_curs vt p).
Proof. intros ? ?. regrid. Qed.
Lemma with_parser_grid nl nc vt p : parser_ok p -> grid nl nc vt -> grid nl nc (with_parser vt p).
Proof. intros ?. regrid. Qed.
Lemma with_tabs_grid nl nc vt l : Z.of_nat (length (tl_chars l)) = nc -> grid nl nc vt -> grid nl nc (with_tabs vt l).
Proof. intros ?. regrid. Qed.
Lemma with_old_grid nl nc vt p a : 0 <= pt_r p -> 0 <= pt_c p -> grid nl nc vt -> grid nl nc (with_old vt p a).
Proof. intros ? ?. regrid. Qed.
Lemma with_dirty_grid nl nc vt d : grid nl nc vt -> grid nl nc (with_dirty vt d).
Proof. regrid. Qed.

#[local] Hint Resolve with_attrs_grid with_acs_grid with_dirty_grid : core.

Lemma set_c_grid nl nc vt c : 0 <= c -> grid nl nc vt -> grid nl nc (set_c vt c).
Proof. intros Hc G. apply with_curs_grid; [apply G | done | done]. Qed.
Lemma set_r_grid nl nc vt r : 0 <= r -> grid nl nc vt -> grid nl nc (set_r vt r).
Proof. intros Hc G. apply with_curs_grid; [done | apply G | done]. Qed.

(** A change that leaves the cursor alone. *)
Lemma grid_wf nl nc vt vt' : tmt_wf nl nc vt -> grid nl nc vt' -> vt_curs vt' = vt_curs vt -> tmt_wf nl nc vt'.
Proof. intros [_ Hr Hc] G E. split; [done | unfold cr in *; by rewrite E | unfold cc in *; by rewrite E]. Qed.

Lemma reset_ok : parser_ok (Parser (replicate (Z.to_nat PAR_MAX) 0) 0 0 S_NUL false).
Proof. split; [done | by apply Forall_replicate | done | done]. Qed.

Lemma resetparser_wf nl nc vt : tmt_wf nl nc vt -> tmt_wf nl nc (resetparser vt).
Proof. intros W. eapply grid_wf; [exact W | apply with_parser_grid; [apply reset_ok | apply W] | done]. Qed.

Lemma fixcursor_wf nl nc vt : grid nl nc vt -> tmt_wf nl nc (fixcursor vt).
Proof.
  intros G. pose proof (gr_size _ _ _ G) as [H1 H2]. pose proof (gr_curs _ _ _ G) as [H3 H4]. unfold fixcursor.
  rewrite (gr_nline _ _ _ G), (gr_ncol _ _ _ G), !u32_small by lia.
  pose proof (MIN_le (cr vt) (nl - 1)). pose proof (MIN_nonneg (cr vt) (nl - 1) ltac:(lia) ltac:(lia)).
  pose proof (MIN_le (cc vt) (nc - 1)). pose proof (MIN_nonneg (cc vt) (nc - 1) ltac:(lia) ltac:(lia)).
  split; [by apply with_curs_grid | cbn; lia | cbn; lia].
Qed.

Lemma consumearg_ok nl nc vt : tmt_wf nl nc vt -> succeeds (consumearg vt) (tmt_wf nl nc).
Proof.
  intros W. destruct (gr_parser _ _ _ (tw_grid _ _ _ W)) as [Hl HF Hn Ha]. unfold consumearg. destruct (Z.ltb_spec (pr_npar (vt_parser vt)) PAR_MAX).
  - eapply succeeds_bind; [apply (astore_succeeds _ _ _ (fun n => 0 <= n < 2 ^ 32)); [lia | done | done] |]. intros pars [E HF'].
    apply succeeds_Ret. eapply grid_wf; [exact W | apply with_parser_grid; [| apply W] | done]. split; cbn; [by rewrite E | done | lia | done].
  - apply succeeds_Ret. eapply grid_wf; [exact W | apply with_parser_grid; [| apply W] | done]. by split.
Qed.

Lemma sgr_par_grid nl nc vt p0 p : grid nl nc vt -> grid nl nc (sgr_par vt p0 p).
Proof.
  intros G. unfold sgr_par. repeat match goal with |- grid _ _ (match ?c with _ => _ end) => destruct c; auto end.
Qed.

Lemma sgr_loop_ok nl nc n vt i : grid nl nc vt -> 0 <= i -> i + Z.of_nat n <= PAR_MAX -> succeeds (sgr_loop n vt i) (grid nl nc).
Proof.
  revert vt i. induction n as [| n IH]; intros vt i G Hi Hn; cbn [sgr_loop]; [by apply succeeds_Ret |].
  eapply succeeds_bind; [apply (P0_ok nl nc); [done | lia] |]. intros p _.
  eapply succeeds_bind; [by apply (P0_ok nl nc) |]. intros p0 _. apply IH; [by apply sgr_par_grid | lia | lia].
Qed.

Lemma sgr_ok nl nc vt : grid nl nc vt -> succeeds (sgr vt) (grid nl nc).
Proof. intros G. pose proof (po_npar _ (gr_parser _ _ _ G)) as Hn. apply sgr_loop_ok; [done | lia | lia]. Qed.

Lemma writechar_ok nl nc vt w : tmt_wf nl nc vt -> succeeds (writecharatcurs vt w) (tmt_wf nl nc).
Proof.
  intros W. destruct (cline_ok nl nc vt W) as (E & Hr & Hc & Hn & Hm). unfold writecharatcurs. rewrite E.
  eapply succeeds_bind; [apply (lines_load nl nc); [apply W | done] |]. cbn beta. intros l Hl.
  eapply succeeds_bind; [apply astore_length; lia |]. cbn beta. intros cs Hcs.
  eapply succeeds_bind; [apply (lines_store nl nc); [apply W | done | cbn [tl_chars]; lia] |]. intros ls Hls.
  set (vt1 := with_dirty (set_lines vt ls) true).
  assert (tmt_wf nl nc vt1) as W1 by (eapply drawn_wf; [exact W |]; by eexists _, _).
  pose proof (tw_grid _ _ _ W1) as G1. change (cc vt1) with (cc vt). change (ncol vt1) with (ncol vt). change (cr vt1) with (cr vt).
  rewrite (gr_ncol _ _ _ (tw_grid _ _ _ W)), (u32_small (nc - 1)) by lia.
  destruct (Z.ltb_spec (cc vt) (nc - 1)).
  - rewrite u32_small by lia. change (nline (set_c vt1 (cc vt + 1))) with (nline vt). change (cr (set_c vt1 (cc vt + 1))) with (cr vt).
    rewrite (gr_nline _ _ _ (tw_grid _ _ _ W)). destruct (Z.leb_spec nl (cr vt)); [lia |]. apply succeeds_Ret.
    split; [apply set_c_grid; [lia | done] | cbn; apply W | cbn; lia].
  - rewrite u32_small by lia. set (vt2 := with_curs vt1 (Point (cr vt + 1) 0)).
    assert (grid nl nc vt2) as G2 by (apply with_curs_grid; [cbn; lia | done | done]).
    rewrite (gr_nline _ _ _ G2). change (cr vt2) with (cr vt + 1). destruct (Z.leb_spec nl (cr vt + 1)).
    + rewrite u32_small by lia. set (vt3 := set_r vt2 (nl - 1)).
      assert (tmt_wf nl nc vt3) as W3 by (split; [apply set_r_grid; [lia | done] | cbn; lia | cbn; lia]).
      eapply succeeds_weaken; [apply (scrup_ok nl nc); [apply W3 | lia | lia] |]. intros vt4 D. by eapply drawn_wf.
    + apply succeeds_Ret. split; [done | cbn; lia | cbn; lia].
Qed.

Lemma rep_loop_ok nl nc n vt r : tmt_wf nl nc vt -> succeeds (rep_loop n vt r) (tmt_wf nl nc).
Proof.
  revert vt. induction n as [| n IH]; intros vt W; cbn [rep_loop]; [by apply succeeds_Ret |].
  eapply succeeds_bind; [by apply (writechar_ok nl nc) |]. intros vt' W'. by apply IH.
Qed.

Lemma rep_ok nl nc vt : tmt_wf nl nc vt -> succeeds (rep vt) (tmt_wf nl nc).
Proof.
  intros W. destruct (cline_ok nl nc vt W) as (E & Hr & Hc & Hn & Hm). unfold rep. destruct (Z.eqb_spec (cc vt) 0); [by apply succeeds_Ret |].
  rewrite E. eapply succeeds_bind; [apply (lines_load nl nc); [apply W | done] |]. cbn beta. intros l Hl.
  eapply succeeds_bind; [apply aload_some; lia |]. intros r _.
  eapply succeeds_bind; [apply (P1_ok nl nc); [apply W | done] |]. intros k _. by apply rep_loop_ok.
Qed.

(** The tabulators. *)
Lemma tab_loop_ok nl nc fuel vt c :
  grid nl nc vt -> -1 <= c < nc -> nc - 1 - c < Z.of_nat fuel -> succeeds (tab_loop fuel vt c) (fun c => 0 <= c).
Proof.
  intros G. pose proof (gr_size _ _ _ G) as [_ Hs]. revert c. induction fuel as [| fuel IH]; intros c Hc Hf; [lia |]. cbn [tab_loop].
  rewrite (gr_ncol _ _ _ G), !u32_small by lia. destruct (Z.ltb_spec (c + 1) (nc - 1)); [| apply succeeds_Ret; lia].
  eapply succeeds_bind; [apply aload_some; rewrite (gr_tabs _ _ _ G); lia |]. intros t _.
  destruct (ch_c t =? STAR); [apply succeeds_Ret; lia |]. apply IH; lia.
Qed.

Lemma tab_ok nl nc vt : tmt_wf nl nc vt -> succeeds (tab vt) (grid nl nc).
Proof.
  intros W. destruct (cline_ok nl nc vt W) as (_ & _ & Hc & _ & Hm). unfold tab. rewrite (gr_ncol _ _ _ (tw_grid _ _ _ W)).
  eapply succeeds_bind; [apply (tab_loop_ok nl nc); [apply W | lia | lia] |]. cbn beta. intros c Hc'.
  apply succeeds_Ret, set_c_grid; [done | apply W].
Qed.

Lemma backtab_loop_ok nl nc fuel vt c :
  grid nl nc vt -> 0 <= c < nc -> c < Z.of_nat fuel -> succeeds (backtab_loop fuel vt c) (fun c => 0 <= c).
Proof.
  intros G. revert c. induction fuel as [| fuel IH]; intros c Hc Hf; [lia |]. cbn [backtab_loop].
  destruct (Z.eqb_spec c 0); [apply succeeds_Ret; lia |].
  eapply succeeds_bind; [apply aload_some; rewrite (gr_tabs _ _ _ G); lia |]. intros t _.
  destruct (ch_c t =? STAR); [apply succeeds_Ret; lia |]. apply IH; lia.
Qed.

Lemma backtab_ok nl nc vt : tmt_wf nl nc vt -> succeeds (backtab vt) (grid nl nc).
Proof.
  intros W. destruct (cline_ok nl nc vt W) as (_ & _ & Hc & _ & Hm). unfold backtab.
  eapply succeeds_bind; [apply (backtab_loop_ok nl nc); [apply W | lia | lia] |]. cbn beta. intros c Hc'.
  apply succeeds_Ret, set_c_grid; [done | apply W].
Qed.

Lemma set_tab_ok nl nc vt : tmt_wf nl nc vt -> succeeds (set_tab vt) (grid nl nc).
Proof.
  intros W. destruct (cline_ok nl nc vt W) as (_ & _ & Hc & _ & Hm). pose proof (gr_tabs _ _ _ (tw_grid _ _ _ W)) as Ht. unfold set_tab.
  eapply succeeds_bind; [apply aload_some; lia |]. intros t _.
  eapply succeeds_bind; [apply astore_length; lia |]. cbn beta. intros cs Hcs. apply succeeds_Ret, with_tabs_grid; [cbn; lia | apply W].
Qed.

Lemma clear_tabs_ok nl nc vt : tmt_wf nl nc vt -> succeeds (clear_tabs vt) (grid nl nc).
Proof.
  intros W. unfold clear_tabs. eapply succeeds_bind; [apply (clear_line_ok nl nc); [apply W | apply (tw_grid _ _ _ W) | lia] |]. cbn beta. intros l Hl.
  apply succeeds_Ret, with_dirty_grid, with_tabs_grid; [done | apply W].
Qed.

Lemma restore_grid nl nc vt : grid nl nc vt -> grid nl nc (restore_cursor vt).
Proof. intros G. apply with_attrs_grid, with_curs_grid; [apply G | apply G | done]. Qed.

Lemma save_grid nl nc vt : grid nl nc vt -> grid nl nc (save_cursor vt).
Proof. intros G. apply with_old_grid; [apply G | apply G | done]. Qed.

(** Moves of the cursor: it may leave the screen, [fixcursor] brings it back. *)
Lemma MAX_nonneg a : 0 <= MAX a 0.
Proof. unfold MAX. rewrite Z.gtb_ltb. destruct (Z.ltb_spec 0 a); lia. Qed.

Lemma u32_nonneg a : 0 <= u32 a.
Proof. apply Z.mod_pos_bound. lia. Qed.

#[local] Hint Resolve MAX_nonneg u32_nonneg MIN_nonneg : core.

Ltac move_cursor W :=
  eapply succeeds_bind; [apply (P1_ok _ _ _ 0 (tw_grid _ _ _ W)); done |]; cbn beta; intros ? ?;
  apply succeeds_Ret; first [apply set_r_grid | apply set_c_grid]; auto; try apply W; apply MIN_nonneg; auto; apply (tw_grid _ _ _ W).

Lemma cursor_up_ok nl nc vt : tmt_wf nl nc vt -> succeeds (cursor_up vt) (grid nl nc).
Proof. intros W. unfold cursor_up. move_cursor W. Qed.
Lemma cursor_down_ok nl nc vt : tmt_wf nl nc vt -> succeeds (cursor_down vt) (grid nl nc).
Proof. intros W. unfold cursor_down. move_cursor W. Qed.
Lemma cursor_right_ok nl nc vt : tmt_wf nl nc vt -> succeeds (cursor_right vt) (grid nl nc).
Proof. intros W. unfold cursor_right. move_cursor W. Qed.
Lemma cursor_left_ok nl nc vt : tmt_wf nl nc vt -> succeeds (cursor_left vt) (grid nl nc).
Proof. intros W. unfold cursor_left. move_cursor W. Qed.
Lemma cursor_column_ok nl nc vt : tmt_wf nl nc vt -> succeeds (cursor_column vt) (grid nl nc).
Proof. intros W. unfold cursor_column. move_cursor W. Qed.
Lemma cursor_line_ok nl nc vt : tmt_wf nl nc vt -> succeeds (cursor_line vt) (grid nl nc).
Proof. intros W. unfold cursor_line. move_cursor W. Qed.

Lemma cursor_position_ok nl nc vt : tmt_wf nl nc vt -> succeeds (cursor_position vt) (grid nl nc).
Proof.
  intros W. unfold cursor_position. eapply succeeds_bind; [apply (P1_ok nl nc); [apply W | done] |]. intros r _.
  eapply succeeds_bind; [apply (P1_ok nl nc); [apply W | done] |]. intros c _. apply succeeds_Ret, with_curs_grid; [apply u32_nonneg | apply u32_nonneg | apply W].
Qed.

Lemma line_feed_ok nl nc vt : tmt_wf nl nc vt -> succeeds (line_feed vt) (grid nl nc).
Proof.
  intros W. destruct (cline_ok nl nc vt W) as (_ & Hr & _ & Hn & _). unfold line_feed. destruct (_ <? _).
  - apply succeeds_Ret, set_r_grid; [apply u32_nonneg | apply W].
  - eapply succeeds_weaken; [apply (scrup_ok nl nc); [apply W | lia | lia] |]. intros. eapply drawn_grid; [apply W | done].
Qed.

Lemma set_c0_wf nl nc vt : tmt_wf nl nc vt -> tmt_wf nl nc (set_c vt 0).
Proof. intros W. pose proof (gr_size _ _ _ (tw_grid _ _ _ W)). split; [apply set_c_grid; [done | apply W] | apply W | cbn; lia]. Qed.

(** * The state machine *)

Section Machine.
Context {X : Type} (cb : tmt_msg -> tmt -> X -> outcome (tmt * X)) (nl nc : Z).

(** The callback leaves the emulator well-formed. *)
Definition cb_ok : Prop := forall m vt x, tmt_wf nl nc vt -> succeeds (cb m vt x) (fun r => tmt_wf nl nc r.1).

Context (Hcb : cb_ok).

Lemma act_ok vt x A : tmt_wf nl nc vt -> (forall vt, tmt_wf nl nc vt -> succeeds (A vt) (fun r => grid nl nc r.1)) ->
  succeeds (@act X vt x A) (fun r => tmt_wf nl nc r.1.2).
Proof.
  intros W HA. unfold act. eapply succeeds_bind; [by apply (consumearg_ok nl nc) |]. intros vt' W'.
  eapply (succeeds_bind _ _ (fun r => grid nl nc r.1)).
  - destruct (pr_ignored _); [apply succeeds_Ret, W' | by apply HA].
  - intros [vt'' x'] G. apply succeeds_Ret. cbn [fst snd]. by apply resetparser_wf, fixcursor_wf.
Qed.

Lemma pure_ok x (A : tmt -> outcome tmt) vt : succeeds (A vt) (grid nl nc) -> succeeds (@pure X x A vt) (fun r => grid nl nc r.1).
Proof. intros H. eapply succeeds_bind; [exact H |]. intros vt' G. by apply succeeds_Ret. Qed.

Lemma cb_grid m vt x : tmt_wf nl nc vt -> succeeds (cb m vt x) (fun r => grid nl nc r.1).
Proof. intros W. eapply succeeds_weaken; [by apply Hcb |]. intros r Wr. apply Wr. Qed.

Lemma notify_ok vt x u m : tmt_wf nl nc vt -> succeeds (notify cb vt x u m) (fun r => tmt_wf nl nc r.1).
Proof.
  intros W. unfold notify. eapply (succeeds_bind _ _ (fun r => tmt_wf nl nc r.1)).
  - destruct u; [by apply Hcb | by apply succeeds_Ret].
  - intros [vt' x'] W'. cbn [fst] in W'. destruct m; [by apply Hcb | by apply succeeds_Ret].
Qed.

Lemma tmt_reset_ok vt x : tmt_wf nl nc vt -> succeeds (tmt_reset cb vt x) (fun r => tmt_wf nl nc r.1).
Proof.
  intros W. destruct (cline_ok nl nc vt W) as (_ & _ & _ & Hn & Hm). unfold tmt_reset. set (vt1 := with_old _ _ defattrs).
  assert (tmt_wf nl nc vt1) as W1.
  { split; [| cbn; lia | cbn; lia]. apply with_old_grid, with_attrs_grid, with_parser_grid, with_acs_grid, with_old_grid, with_curs_grid; try done.
    - apply reset_ok. - apply W. }
  eapply succeeds_bind; [apply (clearlines_ok nl nc); [apply W1 | done] |]. intros vt2 D. pose proof (drawn_wf _ _ _ _ W1 D) as W2.
  eapply succeeds_bind; [by apply Hcb |]. intros [vt3 x3] W3. by apply notify_ok.
Qed.

Lemma on_par_ok vt x k A : tmt_wf nl nc vt -> succeeds (A vt) (fun r => grid nl nc r.1) -> succeeds (@on_par X vt x k A) (fun r => grid nl nc r.1).
Proof.
  intros W HA. unfold on_par. eapply succeeds_bind; [apply (P0_ok nl nc); [apply W | done] |]. intros p _.
  destruct (p =? k); [done | apply succeeds_Ret, W].
Qed.

(** A handler that draws. *)
Lemma drawn_action vt m : tmt_wf nl nc vt -> succeeds m (drawn nl nc vt) -> succeeds m (grid nl nc).
Proof. intros W H. eapply succeeds_weaken; [exact H |]. intros vt' D. eapply drawn_grid; [apply W | exact D]. Qed.

Lemma scroll_action vt (f : tmt -> Z -> outcome tmt) :
  tmt_wf nl nc vt -> (forall n, 1 <= n -> succeeds (f vt n) (drawn nl nc vt)) -> succeeds (n ← P1 vt 0; f vt n) (grid nl nc).
Proof.
  intros W Hf. apply (drawn_action vt); [done |]. eapply succeeds_bind; [apply (P1_ok nl nc); [apply W | done] |]. cbn beta. intros n Hn. apply Hf. lia.
Qed.

Lemma state_wf vt p : parser_ok p -> tmt_wf nl nc vt -> tmt_wf nl nc (with_parser vt p).
Proof. intros Hp W. eapply grid_wf; [exact W | apply with_parser_grid; [done | apply W] | done]. Qed.

Lemma state_ok vt s b : tmt_wf nl nc vt ->
  parser_ok (Parser (pr_pars (vt_parser vt)) (pr_npar (vt_parser vt)) (pr_arg (vt_parser vt)) s b).
Proof. intros W. by destruct (gr_parser _ _ _ (tw_grid _ _ _ W)). Qed.

Ltac action :=
  match goal with
  | |- succeeds (pure _ _ _) _ => apply pure_ok
  | |- succeeds (on_par _ _ _ _) _ => apply on_par_ok; [assumption |]
  end.

Ltac handler :=
  first [ apply cb_grid; assumption | by apply succeeds_Ret
        | eapply succeeds_weaken; [apply tmt_reset_ok; assumption | intros r Wr; apply Wr]
        | apply tab_ok; assumption | apply line_feed_ok; assumption | apply set_tab_ok; assumption | apply backtab_ok; assumption
        | apply cursor_up_ok; assumption | apply cursor_down_ok; assumption | apply cursor_right_ok; assumption | apply cursor_left_ok; assumption
        | apply cursor_down_ok, set_c0_wf; assumption | apply cursor_up_ok, set_c0_wf; assumption
        | apply cursor_column_ok; assumption | apply cursor_line_ok; assumption | apply cursor_position_ok; assumption
        | apply sgr_ok; apply tw_grid; assumption | apply clear_tabs_ok; assumption
        | eapply drawn_action; [eassumption | first [apply ed_ok | apply el_ok | apply dch_ok | apply ich_ok]; assumption]
        | eapply succeeds_weaken; [apply rep_ok; eassumption | intros ? Wr; apply Wr]
        | apply succeeds_Ret, set_c_grid; [done | apply tw_grid; assumption]
        | apply succeeds_Ret, save_grid, tw_grid; assumption | apply succeeds_Ret, restore_grid, tw_grid; assumption
        | apply succeeds_Ret, tw_grid; assumption ].

Lemma handlechar_ok vt x i : tmt_wf nl nc vt -> succeeds (handlechar cb vt x i) (fun r => tmt_wf nl nc r.1.2).
Proof.
  intros W. destruct (cline_ok nl nc vt W) as (_ & Hr & Hc & Hn & Hm). unfold handlechar.
  repeat match goal with
  | |- succeeds (if _ then act _ _ _ else _) _ =>
    destruct (on vt _ _ i); [apply act_ok; [exact W |]; intros vt' W'; repeat action; try handler |]
  | |- succeeds (if on vt _ _ i then Ret _ else _) _ =>
    destruct (on vt _ _ i); [apply succeeds_Ret; cbn [fst snd]; try exact W; try (apply state_wf; [apply state_ok; exact W | exact W]) |]
  | |- succeeds (if on vt S_ARG [59] i then _ else _) _ =>
    destruct (on vt S_ARG [59] i); [eapply succeeds_bind; [by apply (consumearg_ok nl nc) |]; intros vt' W'; by apply succeeds_Ret |]
  end.
  all: try (by apply succeeds_Ret, resetparser_wf).
  - apply succeeds_Ret. destruct (cline_ok nl nc vt' W') as (_ & _ & Hc' & _).
    destruct (Z.eqb_spec (cc vt') 0); [apply W' | apply set_c_grid; [lia | apply W']].
  - apply state_wf; [| done]. destruct (gr_parser _ _ _ (tw_grid _ _ _ W)). split; cbn; try done. apply Z.mod_pos_bound. lia.
  - apply (scroll_action vt' (fun vt n => scrdn vt (cr vt) n)); [done |]. intros n Hn'. apply scrdn_ok; [apply W' | by apply (cline_ok nl nc) | lia].
  - apply (scroll_action vt' (fun vt n => scrup vt (cr vt) n)); [done |]. intros n Hn'. apply scrup_ok; [apply W' | by apply (cline_ok nl nc) | lia].
  - apply (scroll_action vt' (fun vt n => scrup vt 0 n)); [done |]. intros n Hn'. apply scrup_ok; [apply W' | lia | lia].
  - apply (scroll_action vt' (fun vt n => scrdn vt 0 n)); [done |]. intros n Hn'. apply scrdn_ok; [apply W' | lia | lia].
  - apply (scroll_action vt' (fun vt n => clearline vt (cline vt) (cc vt) n)); [done |]. intros n Hn'. apply clear_current; [done |]. apply (cline_ok nl nc vt' W').
Qed.

(** * Output *)

Lemma tacs_loop_ok m chars k c : 0 <= k -> k + Z.of_nat (length m) <= Z.of_nat (length chars) -> succeeds (tacs_loop m chars k c) (fun _ => True).
Proof.
  revert k. induction m as [| y m IH]; intros k Hk Hl; cbn [tacs_loop]; [apply succeeds_Ret; exact I |].
  cbn [length] in Hl. destruct (y =? c); [apply aload_some; lia |]. apply IH; lia.
Qed.

Lemma tacs_ok vt c : grid nl nc vt -> succeeds (tacs vt c) (fun _ => True).
Proof. intros G. pose proof (gr_acs _ _ _ G) as Ha. apply tacs_loop_ok; [done |]. change (Z.of_nat (length acs_map)) with 31. lia. Qed.

Lemma with_mb_wf vt mb : tmt_wf nl nc vt -> length mb = length (vt_mb vt) -> tmt_wf nl nc (with_mb vt 0 mb).
Proof. intros [[? ? ? ? ? ? ? ? [Hm _] ?] Hr Hc] E. split; [split; cbn; try done | done | done]. split; [lia | done]. Qed.

(** The detour through the array of multibyte characters. *)
Lemma write_char_eq vt c : grid nl nc vt -> vt_acs vt = false -> write_char vt c = writecharatcurs (with_mb vt 0 (<[0%nat := c]> (vt_mb vt))) (schar c).
Proof.
  intros G Ha. pose proof (gr_mb _ _ _ G) as [Hb Hn]. change BUF_MAX with 100 in Hb. unfold write_char. rewrite Ha, Hn.
  change (BUF_MAX <=? 0) with false. cbn iota. assert (testmbchar vt = u32 (-2)) as -> by (unfold testmbchar; by rewrite Hn).
  change (u32 (-2) =? u32 (-1)) with false. change (u32 (-2) =? u32 (-2)) with true. cbn iota. rewrite astore_in by lia. rewrite !bind_Ret.
  change (testmbchar _) with 1. change (1 <=? MB_LEN_MAX) with true. cbn iota. unfold write_mb, getmbchar. cbn [vt_mb with_mb].
  assert (aload (<[Z.to_nat 0 := c]> (vt_mb vt)) 0 = Ret c) as ->; [| done].
  apply aload_Ret. split; [done |]. apply list_lookup_insert_eq. lia.
Qed.

Lemma write_char_ok vt c : tmt_wf nl nc vt -> succeeds (write_char vt c) (tmt_wf nl nc).
Proof.
  intros W. destruct (vt_acs vt) eqn:Ha.
  - unfold write_char. rewrite Ha. eapply succeeds_bind; [apply tacs_ok, W |]. intros w _. by apply writechar_ok.
  - rewrite write_char_eq by (done || apply W). apply writechar_ok, with_mb_wf; [done |]. by rewrite length_insert.
Qed.

Lemma write_bytes_ok vt x s : tmt_wf nl nc vt -> succeeds (write_bytes cb vt x s) (fun r => tmt_wf nl nc r.1).
Proof.
  revert vt x. induction s as [| c s IH]; intros vt x W; cbn [write_bytes]; [by apply succeeds_Ret |].
  eapply succeeds_bind; [by apply handlechar_ok |]. intros [[h vt'] x'] W'. cbn [fst snd] in W'.
  eapply succeeds_bind; [| intros vt'' W''; by apply IH]. destruct h; [by apply succeeds_Ret | by apply write_char_ok].
Qed.

End Machine.

Lemma slice_all {A} (s : list A) : slice s 0 (Z.of_nat (length s)) = Ret s.
Proof.
  unfold slice. change (0 <=? 0) with true. destruct (Z.leb_spec 0 (Z.of_nat (length s))); [| lia].
  destruct (Z.leb_spec (0 + Z.of_nat (length s)) (Z.of_nat (length s))); [| lia]. cbn [andb]. by rewrite Nat2Z.id, drop_0, take_ge.
Qed.

(** C11: the terminal emulator is safe for every input: from a well-formed state,
    whatever bytes a program writes, escape sequences with any parameters included,
    [tmt_write] returns without an access outside the screen, the tabulators or the
    parameters, and leaves a well-formed state of the same size, with the cursor
    inside the screen. *)
Theorem tmt_write_safe {X : Type} (cb : tmt_msg -> tmt -> X -> outcome (tmt * X)) (nl nc : Z) (vt : tmt) (x : X) (s : list Z) :
  cb_ok cb nl nc -> tmt_wf nl nc vt -> s <> [] ->
  exists vt' x', tmt_write cb vt x s (Z.of_nat (length s)) = Ret (vt', x') /\ tmt_wf nl nc vt'.
Proof.
  intros Hcb W Hs. unfold tmt_write. destruct (Z.eqb_spec (Z.of_nat (length s)) 0) as [E | _]; [by destruct s |]. rewrite bind_Ret.
  rewrite slice_all, bind_Ret.
  destruct (write_bytes_ok cb nl nc Hcb vt x s W) as ([vt' x'] & -> & W'). rewrite bind_Ret.
  destruct (notify_ok cb nl nc Hcb vt' x' (vt_dirty vt') (negb (point_eqb (vt_curs vt) (vt_curs vt'))) W') as ([vt2 x2] & -> & W2).
  by exists vt2, x2.
Qed.
