(* ===== verification/TmtScreen.v ===== *)
(** What the emulator of the console shows.

    A teletype has rows of characters and a position: characters are put at the
    position, which moves on and wraps around at the end of a row; at the end of the
    last row the rows move up.  The emulator shows what a teletype shows. *)
From stdpp Require Import base numbers list.
From Stdlib Require Import ZArith Lia Bool.
From S2P Require Import Prelude Str Tmt TmtSpec.

Open Scope Z_scope.

(** * The teletype *)

Record teletype : Type := Teletype { tt_rows : list (list tmt_char); tt_r : Z; tt_c : Z }.

Definition blank : tmt_char := Char SPACE defattrs.

Definition tt_up (nc : Z) (rows : list (list tmt_char)) : list (list tmt_char) := drop 1 rows ++ [replicate (Z.to_nat nc) blank].

(** The position below the last row. *)
Definition tt_settle (nl nc : Z) (t : teletype) : teletype :=
  if nl <=? tt_r t then Teletype (tt_up nc (tt_rows t)) (nl - 1) (tt_c t) else t.

Definition tt_put (nl nc : Z) (x : tmt_char) (t : teletype) : teletype :=
  let rows := alter (fun row => <[Z.to_nat (tt_c t) := x]> row) (Z.to_nat (tt_r t)) (tt_rows t) in
  tt_settle nl nc (if tt_c t <? nc - 1 then Teletype rows (tt_r t) (tt_c t + 1) else Teletype rows (tt_r t + 1) 0).

Definition tt_char (nl nc : Z) (a : tmt_attrs) (t : teletype) (c : Z) : teletype :=
  if c =? 8 then Teletype (tt_rows t) (tt_r t) (if tt_c t =? 0 then 0 else tt_c t - 1)
  else if c =? 10 then tt_settle nl nc (Teletype (tt_rows t) (tt_r t + 1) (tt_c t))
  else if c =? 13 then Teletype (tt_rows t) (tt_r t) 0
  else tt_put nl nc (Char c a) t.

(** What the emulator shows. *)
Definition view (vt : tmt) : teletype := Teletype (map tl_chars (lines vt)) (cr vt) (cc vt).

(** * Clearing and scrolling, exactly *)

Lemma clear_loop_eq n l i :
  0 <= i -> i + Z.of_nat n <= Z.of_nat (length l) ->
  clear_loop n l i = Ret (take (Z.to_nat i) l ++ replicate n blank ++ drop (Z.to_nat i + n) l).
Proof.
  revert l i. induction n as [| n IH]; intros l i Hi Hn; cbn [clear_loop].
  - rewrite Nat.add_0_r. cbn [replicate app]. by rewrite take_drop.
  - rewrite astore_in by lia. rewrite bind_Ret, IH by (rewrite ?length_insert; lia). f_equal.
    replace (Z.to_nat (i + 1)) with (S (Z.to_nat i)) by lia.
    rewrite (take_S_r _ _ blank) by (apply list_lookup_insert_eq; lia). rewrite take_insert_ge by lia.
    rewrite drop_insert_lt by lia. rewrite <- app_assoc. cbn [replicate app]. do 3 f_equal. f_equal. lia.
Qed.

Lemma dirty_loop_view n ls i ls' : dirty_loop n ls i = Ret ls' -> map tl_chars ls' = map tl_chars ls.
Proof.
  revert ls i. induction n as [| n IH]; intros ls i; cbn [dirty_loop]; [by intros [= <-] |].
  destruct (aload ls i) as [l | | |] eqn:El; try done. rewrite bind_Ret. apply aload_Ret in El as [Hi Hl].
  rewrite astore_in by (apply lookup_lt_Some in Hl; lia). rewrite bind_Ret. intros H. rewrite (IH _ _ H).
  apply list_eq. intros k. rewrite !list_lookup_fmap. destruct (decide (k = Z.to_nat i)) as [-> |].
  - rewrite list_lookup_insert_eq by (by apply lookup_lt_Some in Hl). by rewrite Hl.
  - by rewrite list_lookup_insert_ne.
Qed.

(** The copies of a scroll by one line. *)
Lemma rotate_lines {A} nl (l0 : A) ls :
  nl = Z.of_nat (S (length ls)) -> 2 <= nl ->
  slice (l0 :: ls) 0 1 = Ret [l0] /\ blit (l0 :: ls) 0 (l0 :: ls) (0 + 1) (nl - 1 - 0) = Ret (ls ++ drop (Z.to_nat (nl - 1)) (l0 :: ls)) /\
  blit (ls ++ drop (Z.to_nat (nl - 1)) (l0 :: ls)) (nl - 1) [l0] 0 1 = Ret (ls ++ [l0]).
Proof.
  intros Hl Hn. split_and!.
  - unfold slice. change (0 <=? 0) with true. change (0 <=? 1) with true. cbn [length].
    destruct (Z.leb_spec (0 + 1) (Z.of_nat (S (length ls)))); [done | lia].
  - unfold blit. change (0 <=? 0) with true. change (0 <=? 0 + 1) with true. cbn [length]. destruct (Z.leb_spec 0 (nl - 1 - 0)); [| lia].
    destruct (Z.leb_spec (0 + (nl - 1 - 0)) (Z.of_nat (S (length ls)))); [| lia]. destruct (Z.leb_spec (0 + 1 + (nl - 1 - 0)) (Z.of_nat (S (length ls)))); [| lia].
    cbn [andb]. change (Z.to_nat 0) with O. change (Z.to_nat (0 + 1)) with 1%nat. cbn [take app]. change (drop 1 (l0 :: ls)) with ls.
    rewrite take_ge by lia. do 3 f_equal. lia.
  - unfold blit. rewrite length_app, length_drop. cbn [length]. change (0 <=? 0) with true. change (0 <=? 1) with true. change (0 + 1 <=? Z.of_nat 1) with true.
    destruct (Z.leb_spec 0 (nl - 1)); [| lia]. destruct (Z.leb_spec (nl - 1 + 1) (Z.of_nat (length ls + (S (length ls) - Z.to_nat (nl - 1))))); [| lia].
    cbn [andb]. rewrite take_app_length' by lia. rewrite (drop_ge (ls ++ _)) by (rewrite length_app, length_drop; cbn [length]; lia).
    change (take (Z.to_nat 1) (drop (Z.to_nat 0) [l0])) with [l0]. by rewrite app_nil_r.
Qed.

Lemma clear_last nl nc vt ls l0 :
  grid nl nc vt -> lines vt = ls ++ [l0] ->
  clearlines vt (nl - 1) 1 = Ret (with_dirty (set_lines vt (ls ++ [TLine true (replicate (Z.to_nat nc) blank)])) true).
Proof.
  intros G El. pose proof (gr_size _ _ _ G) as [Hs Hc]. pose proof (gr_lines _ _ _ G) as [Hl HF]. rewrite El in Hl, HF.
  rewrite length_app in Hl. cbn [length] in Hl. apply Forall_app in HF as [_ [H0 _]%Forall_cons].
  unfold clearlines. rewrite (gr_nline _ _ _ G), u32_small by lia.
  assert (MIN (nl - 1 + 1) nl = nl) as -> by (unfold MIN; destruct (Z.ltb_spec (nl - 1 + 1) nl); lia).
  replace (Z.to_nat (nl - (nl - 1))) with 1%nat by lia. cbn [clearlines_loop]. unfold clearline. rewrite (gr_ncol _ _ _ G), El.
  assert (aload (ls ++ [l0]) (nl - 1) = Ret l0) as ->.
  { apply aload_Ret. split; [lia |]. replace (Z.to_nat (nl - 1)) with (length ls) by lia. by apply list_lookup_middle. }
  rewrite bind_Ret. unfold clear_line. rewrite (gr_ncol _ _ _ G).
  assert (MIN nc nc = nc) as -> by (unfold MIN; rewrite Z.ltb_irrefl; done).
  rewrite clear_loop_eq by lia. rewrite !bind_Ret, astore_in by (rewrite length_app; cbn [length]; lia). rewrite !bind_Ret.
  do 3 f_equal. rewrite insert_app_r_alt by lia. replace (Z.to_nat (nl - 1) - length ls)%nat with O by lia. cbn [insert list_insert].
  do 3 f_equal. change (Z.to_nat 0) with O. cbn [take app]. rewrite Z.sub_0_r, drop_ge by lia. by rewrite app_nil_r.
Qed.

(** One line up: the first line goes to the end and is cleared. *)
Lemma scrup_view nl nc vt :
  grid nl nc vt -> exists vt', scrup vt 0 1 = Ret vt' /\ drawn nl nc vt vt' /\ map tl_chars (lines vt') = tt_up nc (map tl_chars (lines vt)).
Proof.
  intros G. pose proof (gr_size _ _ _ G) as [Hs Hc]. destruct (scrup_ok nl nc vt 0 1 G) as (vt' & E & D); [lia | lia |].
  exists vt'. split; [done |]. split; [done |]. revert E. pose proof (gr_lines _ _ _ G) as [Hl HF].
  unfold scrup. rewrite (gr_nline _ _ _ G), u32_small by lia.
  assert (MIN 1 (nl - 1 - 0) = 1) as -> by (unfold MIN; destruct (Z.ltb_spec 1 (nl - 1 - 0)); lia).
  change (1 =? 0) with false. cbn iota. destruct (lines vt) as [| l0 ls] eqn:El; [cbn in Hl; lia |]. cbn [length] in Hl.
  destruct (rotate_lines nl l0 ls) as (-> & E1 & E2); [lia | lia |]. rewrite u32_small by lia. rewrite bind_Ret, E1, bind_Ret, E2, bind_Ret.
  rewrite (clear_last nl nc (set_lines vt (ls ++ [l0])) ls l0); [| | done].
  2: { eapply drawn_grid; [exact G |]. exists (ls ++ [l0]), (vt_dirty vt). split; [by destruct vt as [? ? ? ? ? ? [? ? ?] ? ? ? ? ?] |].
       apply Forall_cons in HF as [H0 HF]. split; [rewrite length_app; cbn [length]; lia |]. apply Forall_app. split; [done | by repeat constructor]. }
  rewrite bind_Ret. unfold dirtylines.
  match goal with |- context [dirty_loop ?n ?l ?i] => destruct (dirty_loop n l i) as [ls' | | |] eqn:Ed; try done end.
  rewrite bind_Ret. intros [= <-]. change (map tl_chars ls' = tt_up nc (map tl_chars (l0 :: ls))). rewrite (dirty_loop_view _ _ _ _ Ed).
  change (map tl_chars (ls ++ [TLine true (replicate (Z.to_nat nc) blank)]) = tt_up nc (map tl_chars (l0 :: ls))).
  unfold tt_up. rewrite map_app. done.
Qed.

(** Putting a character. *)
Lemma writechar_view nl nc vt w :
  tmt_wf nl nc vt -> exists vt', writecharatcurs vt w = Ret vt' /\ tmt_wf nl nc vt' /\ view vt' = tt_put nl nc (Char w (vt_attrs vt)) (view vt) /\
    vt_attrs vt' = vt_attrs vt /\ vt_acs vt' = vt_acs vt /\ vt_parser vt' = vt_parser vt.
Proof.
  intros W. destruct (writechar_ok nl nc vt w W) as (vt' & E & W'). exists vt'. split; [done |]. split; [done |]. revert E.
  destruct (cline_ok nl nc vt W) as (Ec & Hr & Hc & Hn & Hm). pose proof (tw_grid _ _ _ W) as G. unfold writecharatcurs. rewrite Ec.
  destruct (lines_load nl nc (lines vt) (cr vt) (gr_lines _ _ _ G) Hr) as (l & El & Hl). rewrite El, bind_Ret.
  rewrite astore_in, bind_Ret by lia.
  destruct (lines_store nl nc (lines vt) (cr vt) (TLine true (<[Z.to_nat (cc vt) := Char w (vt_attrs vt)]> (tl_chars l))) (gr_lines _ _ _ G) Hr)
    as (ls & Els & Hls); [cbn [tl_chars]; rewrite length_insert; lia |].
  rewrite Els, bind_Ret. apply aload_Ret in El as [_ El]. rewrite astore_in in Els by (destruct (gr_lines _ _ _ G); lia). injection Els as Els.
  set (rows := alter (fun row => <[Z.to_nat (cc vt) := Char w (vt_attrs vt)]> row) (Z.to_nat (cr vt)) (map tl_chars (lines vt))).
  assert (map tl_chars ls = rows) as Erows.
  { subst ls rows. apply list_eq. intros i. rewrite list_lookup_fmap. destruct (decide (i = Z.to_nat (cr vt))) as [-> |].
    - rewrite list_lookup_insert_eq by (by apply lookup_lt_Some in El). rewrite list_lookup_alter_eq, list_lookup_fmap, El. done.
    - rewrite list_lookup_insert_ne, list_lookup_alter_ne, list_lookup_fmap by done. done. }
  set (vt1 := with_dirty (set_lines vt ls) true). change (cc vt1) with (cc vt). change (ncol vt1) with (ncol vt). change (cr vt1) with (cr vt).
  rewrite (gr_ncol _ _ _ G), (u32_small (nc - 1)) by lia. unfold tt_put. cbn [tt_c tt_r tt_rows view]. fold rows.
  assert (grid nl nc vt1) as G1 by (eapply drawn_grid; [exact G |]; by eexists _, _).
  destruct (Z.ltb_spec (cc vt) (nc - 1)).
  - rewrite u32_small by lia. change (nline (set_c vt1 (cc vt + 1))) with (nline vt). change (cr (set_c vt1 (cc vt + 1))) with (cr vt).
    rewrite (gr_nline _ _ _ G). unfold tt_settle. cbn [tt_r]. destruct (Z.leb_spec nl (cr vt)); [lia |]. intros [= <-]. split_and!; try done.
    unfold view. by rewrite <- Erows.
  - rewrite u32_small by lia. set (vt2 := with_curs vt1 (Point (cr vt + 1) 0)).
    assert (grid nl nc vt2) as G2 by (apply with_curs_grid; [cbn; lia | done | done]).
    rewrite (gr_nline _ _ _ G2). change (cr vt2) with (cr vt + 1). unfold tt_settle. cbn [tt_r tt_rows tt_c]. destruct (Z.leb_spec nl (cr vt + 1)).
    + rewrite u32_small by lia. set (vt3 := set_r vt2 (nl - 1)). destruct (scrup_view nl nc vt3) as (vt4 & -> & D & Ev); [by apply set_r_grid; [lia |] |].
      intros [= <-]. destruct D as (ls' & d & -> & _). split_and!; try done. unfold view. rewrite Ev. change (lines vt3) with ls. by rewrite Erows.
    + intros [= <-]. split_and!; try done. unfold view. by rewrite <- Erows.
Qed.

(** * Text *)

(** The emulator is not in an escape sequence, and has the usual characters. *)
Definition typing (vt : tmt) : Prop := pr_state (vt_parser vt) = S_NUL /\ pr_ignored (vt_parser vt) = false /\ vt_acs vt = false.

(** Printable characters, backspace, line feed and carriage return. *)
Definition text_char (c : Z) : bool := (32 <=? c) && (c <=? 126) || bool_decide (c ∈ [8; 10; 13]).

(** The characters that are put on the screen are not control characters. *)
Lemma printable_plain c C : 32 <= c <= 126 -> C ∈ [[7]; [8]; [9]; [10]; [13]; [27]] -> in_string C c = false.
Proof.
  intros Hc. revert C. apply Forall_forall. assert (c ∈ map (fun n => 32 + Z.of_nat n) (seq 0 95)) as He.
  { apply list_elem_of_fmap. exists (Z.to_nat (c - 32)). split; [lia |]. apply elem_of_seq. lia. }
  clear Hc. revert c He. apply Forall_forall. cbn [map seq]. repeat (apply Forall_cons; split; [by repeat constructor |]). by apply Forall_nil.
Qed.

Section Text.
Context {X : Type} (cb : tmt_msg -> tmt -> X -> outcome (tmt * X)) (nl nc : Z).

Lemma on_typing vt S C i : typing vt -> S <> S_NUL -> on vt S C i = false.
Proof. intros (E & _ & _) HS. unfold on. rewrite E. by rewrite bool_decide_eq_false_2 by congruence. Qed.

Lemma on_nul vt C i : typing vt -> on vt S_NUL C i = in_string C i.
Proof. intros (E & _ & _). unfold on. by rewrite E, bool_decide_eq_true_2. Qed.

Lemma handle_printable vt x c : typing vt -> 32 <= c <= 126 -> handlechar cb vt x c = Ret (false, resetparser vt, x).
Proof.
  intros T Hc. unfold handlechar. rewrite !(on_nul vt _ c T).
  rewrite !(printable_plain c) by (done || (rewrite !elem_of_cons; naive_solver)). by rewrite !(on_typing vt _ _ c T) by done.
Qed.

(** What an action does to the view, and where it leaves the emulator. *)
Lemma act_view vt (x : X) (A : tmt -> outcome tmt) t :
  tmt_wf nl nc vt -> typing vt ->
  (forall vt, tmt_wf nl nc vt -> exists vt', A vt = Ret vt' /\ tmt_wf nl nc vt' /\ view vt' = t (view vt) /\ vt_attrs vt' = vt_attrs vt /\ vt_acs vt' = vt_acs vt) ->
  exists vt', act vt x (pure x A) = Ret (true, vt', x) /\ tmt_wf nl nc vt' /\ view vt' = t (view vt) /\ vt_attrs vt' = vt_attrs vt /\ typing vt'.
Proof.
  intros W (_ & Hi & Ha) HA. destruct (consumearg_ok nl nc vt W) as (vt1 & E1 & W1). unfold act. rewrite E1, bind_Ret.
  assert (exists p, vt1 = with_parser vt p /\ pr_ignored p = false) as (p & -> & Hp).
  { revert E1. unfold consumearg. destruct (_ <? _); [| intros [= <-]; by eexists]. destruct (astore _ _ _); try done. rewrite bind_Ret. intros [= <-]. by eexists. }
  cbn [vt_parser with_parser]. rewrite Hp. unfold pure. destruct (HA _ W1) as (vt2 & -> & W2 & Ev & Eat & Eac). rewrite !bind_Ret.
  assert (fixcursor vt2 = vt2) as ->.
  { destruct (cline_ok nl nc vt2 W2) as (_ & Hr & Hc & Hn & Hm). unfold fixcursor.
    rewrite (gr_nline _ _ _ (tw_grid _ _ _ W2)), (gr_ncol _ _ _ (tw_grid _ _ _ W2)), !u32_small by lia.
    unfold MIN. destruct (Z.ltb_spec (cr vt2) (nl - 1)), (Z.ltb_spec (cc vt2) (nc - 1)); destruct vt2 as [[r c] ? ? ? ? ? [? ? ?] ? ? ? ? ?]; unfold with_curs, cr, cc in *; cbn in *;
      repeat f_equal; lia. }
  exists (resetparser vt2). split; [done |]. split; [by apply resetparser_wf |]. split_and!; try done.
  split_and!; try done. change (vt_acs vt2 = false). by rewrite Eac.
Qed.

Lemma line_feed_view vt :
  tmt_wf nl nc vt -> exists vt', line_feed vt = Ret vt' /\ tmt_wf nl nc vt' /\
    view vt' = tt_settle nl nc (Teletype (tt_rows (view vt)) (tt_r (view vt) + 1) (tt_c (view vt))) /\ vt_attrs vt' = vt_attrs vt /\ vt_acs vt' = vt_acs vt.
Proof.
  intros W. destruct (cline_ok nl nc vt W) as (_ & Hr & Hc & Hn & Hm). pose proof (tw_grid _ _ _ W) as G. unfold line_feed, tt_settle. cbn [tt_r tt_c tt_rows view].
  rewrite (gr_nline _ _ _ G), (u32_small (nl - 1)) by lia. destruct (Z.ltb_spec (cr vt) (nl - 1)), (Z.leb_spec nl (cr vt + 1)); try lia.
  - rewrite u32_small by lia. eexists. split; [done |]. split; [split; [apply set_r_grid; [lia | done] | cbn; lia | apply W] |]. by split_and!.
  - destruct (scrup_view nl nc vt G) as (vt' & E & D & Ev). exists vt'. split; [done |]. split; [by eapply drawn_wf |].
    destruct D as (ls & d & -> & _). split_and!; try done. unfold view. rewrite Ev. f_equal. change (cr vt = nl - 1). lia.
Qed.

(** One character of text. *)
Lemma text_char_view vt x c :
  tmt_wf nl nc vt -> typing vt -> text_char c = true ->
  exists vt', ('(h, vt', x') ← handlechar cb vt x c; vt'' ← (if (h : bool) then Ret vt' else write_char vt' c); Ret (vt'', x')) = Ret (vt', x) /\
    tmt_wf nl nc vt' /\ view vt' = tt_char nl nc (vt_attrs vt) (view vt) c /\ vt_attrs vt' = vt_attrs vt /\ typing vt'.
Proof.
  intros W T Hc. unfold text_char in Hc. apply orb_true_iff in Hc as [[H1 H2]%andb_true_iff | Hc].
  - rewrite handle_printable by (done || lia). rewrite bind_Ret. set (vt1 := resetparser vt). pose proof (resetparser_wf _ _ _ W : tmt_wf nl nc vt1) as W1.
    rewrite (write_char_eq nl nc vt1 c) by (apply W1 || apply T). assert (schar c = c) as -> by (unfold schar; destruct (Z.ltb_spec c 128); lia).
    set (vt2 := with_mb vt1 0 _). assert (tmt_wf nl nc vt2) as W2 by (apply with_mb_wf; [done | by rewrite length_insert]).
    destruct (writechar_view nl nc vt2 c W2) as (vt3 & -> & W3 & Ev & Eat & Eac & Ep). rewrite bind_Ret. exists vt3. split; [done |]. split; [done |].
    split; [| split; [done |]].
    + rewrite Ev. unfold tt_char. destruct (Z.eqb_spec c 8), (Z.eqb_spec c 10), (Z.eqb_spec c 13); try lia. done.
    + unfold typing. rewrite Ep, Eac. split_and!; try done. apply T.
  - apply bool_decide_eq_true in Hc. rewrite !elem_of_cons, elem_of_nil in Hc. unfold handlechar. rewrite !(on_nul vt _ _ T).
    destruct Hc as [-> | [-> | [-> | []]]].
    + change (in_string [7] 8) with false. change (in_string [8] 8) with true. cbn iota.
      edestruct (act_view vt x (fun vt => Ret (if cc vt =? 0 then vt else set_c vt (cc vt - 1))) (fun t => tt_char nl nc (vt_attrs vt) t 8) W T) as (vt' & -> & H);
        [| rewrite !bind_Ret; by exists vt'].
      intros v Wv. destruct (cline_ok nl nc v Wv) as (_ & Hr & Hc & _). eexists. split; [done |]. unfold tt_char. cbn [view tt_c tt_r tt_rows Z.eqb Pos.eqb].
      destruct (Z.eqb_spec (cc v) 0) as [E |]; [split_and!; try done; unfold view; by rewrite E |].
      split; [split; [apply set_c_grid; [lia | apply Wv] | apply Wv | cbn; lia] | by split_and!].
    + change (in_string [7] 10) with false. change (in_string [8] 10) with false. change (in_string [9] 10) with false. change (in_string [10] 10) with true. cbn iota.
      destruct (act_view vt x line_feed (fun t => tt_char nl nc (vt_attrs vt) t 10) W T) as (vt' & -> & H); [| rewrite !bind_Ret; by exists vt'].
      intros v Wv. by apply line_feed_view.
    + change (in_string [7] 13) with false. change (in_string [8] 13) with false. change (in_string [9] 13) with false.
      change (in_string [10] 13) with false. change (in_string [13] 13) with true. cbn iota.
      destruct (act_view vt x (fun vt => Ret (set_c vt 0)) (fun t => tt_char nl nc (vt_attrs vt) t 13) W T) as (vt' & -> & H); [| rewrite !bind_Ret; by exists vt'].
      intros v Wv. eexists. split; [done |]. split; [by apply set_c0_wf | by split_and!].
Qed.

Lemma write_bytes_view vt x s :
  tmt_wf nl nc vt -> typing vt -> Forall (fun c => text_char c = true) s ->
  exists vt', write_bytes cb vt x s = Ret (vt', x) /\ tmt_wf nl nc vt' /\ view vt' = foldl (tt_char nl nc (vt_attrs vt)) (view vt) s /\
    vt_attrs vt' = vt_attrs vt /\ typing vt'.
Proof.
  intros W T Hs. revert vt W T. induction Hs as [| c s Hc Hs IH]; intros vt W T; cbn [write_bytes foldl]; [by exists vt |].
  destruct (text_char_view vt x c W T Hc) as (vt1 & E & W1 & Ev & Ea & T1).
  destruct (handlechar cb vt x c) as [[[h v] x1] | | |]; try done. rewrite bind_Ret in *.
  destruct (if h then Ret v else write_char v c) as [v' | | |]; try done. rewrite bind_Ret in *. injection E as -> ->.
  destruct (IH vt1 W1 T1) as (vt2 & -> & W2 & Ev2 & Ea2 & T2). exists vt2. split; [done |]. split; [done |].
  rewrite Ev2, Ev, Ea. split; [done |]. split; [congruence | done].
Qed.

End Text.

(** C26: the console shows text: a text of printable characters, backspaces, line feeds
    and carriage returns that is written to the emulator outside of an escape
    sequence leaves on the screen, and as the position of the cursor, exactly what a
    teletype has after it, for texts of any length, with the wrapping at the end of
    lines and the scrolling at the end of the screen; then the owner is notified. *)
Theorem tmt_shows_text {X : Type} (cb : tmt_msg -> tmt -> X -> outcome (tmt * X)) (nl nc : Z) (vt : tmt) (x : X) (s : list Z) :
  tmt_wf nl nc vt -> typing vt -> s <> [] -> Forall (fun c => text_char c = true) s ->
  exists vt', view vt' = foldl (tt_char nl nc (vt_attrs vt)) (view vt) s /\ tmt_wf nl nc vt' /\ typing vt' /\
    tmt_write cb vt x s (Z.of_nat (length s)) = notify cb vt' x (vt_dirty vt') (negb (point_eqb (vt_curs vt) (vt_curs vt'))).
Proof.
  intros W T Hs Ht. destruct (write_bytes_view cb nl nc vt x s W T Ht) as (vt' & E & W' & Ev & _ & T'). exists vt'. split_and!; try done.
  unfold tmt_write. destruct (Z.eqb_spec (Z.of_nat (length s)) 0) as [E0 | _]; [by destruct s |]. by rewrite bind_Ret, slice_all, bind_Ret, E, bind_Ret.
Qed.
