(* ===== verification/TmtExample.v ===== *)
(** Opening the emulator gives a well-formed state; examples of what it shows. *)
From stdpp Require Import base numbers list.
From Stdlib Require Import ZArith Lia Bool.
From S2P Require Import Prelude Str Tmt TmtSpec TmtScreen.

Open Scope Z_scope.

(** * Opening *)

Section Open.
Context {X : Type} (cb : tmt_msg -> tmt -> X -> outcome (tmt * X)) (alloc : nat -> bool) (junk : tmt_char) (nl nc : Z).
Context (Hsize : 2 <= nl < 2 ^ 31 /\ 2 <= nc < 2 ^ 31) (Halloc : forall k, alloc k = true) (Hcb : cb_ok cb nl nc).

Lemma realloc_length o n : 0 <= n -> Z.of_nat (length (realloc_chars junk o n)) = n.
Proof. intros Hn. unfold realloc_chars. rewrite length_app, length_take, length_replicate. lia. Qed.

Lemma allocline_ok vt k o pc :
  ncol vt = nc -> 0 <= pc -> succeeds (allocline alloc junk vt k o nc pc) (fun r => exists l, r = Some l /\ Z.of_nat (length (tl_chars l)) = nc).
Proof.
  intros Hc Hp. unfold allocline, clear_line. rewrite Halloc, Hc. cbn [negb tl_chars]. assert (MIN nc nc = nc) as -> by (unfold MIN; by rewrite Z.ltb_irrefl).
  pose proof (realloc_length (tl_chars o) nc ltac:(lia)) as Hl. destruct (decide (pc <= nc)).
  - destruct (clear_loop_ok (Z.to_nat (nc - pc)) (realloc_chars junk (tl_chars o) nc) pc) as (cs & -> & E); [done | lia |].
    rewrite !bind_Ret. apply succeeds_Ret. eexists. split; [done |]. cbn [tl_chars]. lia.
  - replace (Z.to_nat (nc - pc)) with O by lia. apply succeeds_Ret. by eexists.
Qed.

Lemma resize_loop_ok m vt i old pc :
  ncol vt = nc -> 0 <= pc -> 0 <= i <= Z.of_nat (length (lines vt)) -> Z.of_nat (length (lines vt)) <= i + Z.of_nat m ->
  (old <= Z.of_nat (length (lines vt)) \/ Z.of_nat (length (lines vt)) = i + Z.of_nat m) ->
  Forall (fun l => Z.of_nat (length (tl_chars l)) = nc) (take (Z.to_nat i) (lines vt)) ->
  succeeds (resize_loop alloc junk m vt i old pc)
    (fun r => r.1 = true /\ exists ls d, r.2 = with_dirty (set_lines vt ls) d /\ lines_ok (i + Z.of_nat m) nc ls).
Proof.
  revert vt i. induction m as [| m IH]; intros vt i Hc Hp Hi Hm Hold HF; cbn [resize_loop].
  - apply succeeds_Ret. split; [done |]. exists (lines vt), (vt_dirty vt). split; [by destruct vt as [? ? ? ? ? ? [? ? ?] ? ? ? ? ?] |].
    split; [lia |]. by rewrite take_ge in HF by lia.
  - eapply (succeeds_bind _ _ (fun _ => True)).
    { destruct (Z.leb_spec old i); [by apply succeeds_Ret |]. apply aload_some. lia. }
    intros o _. rewrite Hc. eapply succeeds_bind; [apply allocline_ok; [done |]; destruct (old <=? i); lia |]. intros r (l & -> & Hl).
    assert (exists ls, (if i <? Z.of_nat (length (lines vt)) then astore (lines vt) i l else Ret (lines vt ++ [l])) = Ret ls /\
      Z.of_nat (length ls) = Z.max (Z.of_nat (length (lines vt))) (i + 1) /\ take (S (Z.to_nat i)) ls = take (Z.to_nat i) (lines vt) ++ [l]) as (ls & -> & Els & Et).
    { destruct (Z.ltb_spec i (Z.of_nat (length (lines vt)))).
      - rewrite astore_in by lia. eexists. split; [done |]. rewrite length_insert. split; [lia |].
        rewrite (take_S_r _ _ l) by (apply list_lookup_insert_eq; lia). by rewrite take_insert_ge.
      - eexists. split; [done |]. rewrite length_app. cbn [length]. split; [lia |]. assert (Z.to_nat i = length (lines vt)) as -> by lia.
        rewrite !take_ge by (rewrite ?length_app; cbn [length]; lia). done. }
    rewrite bind_Ret. set (vt1 := with_dirty (set_lines vt ls) true). change (lines vt) with (lines vt) in *.
    eapply succeeds_weaken; [apply (IH vt1 (i + 1)) |].
    + done. + done. + change (lines vt1) with ls. lia. + change (lines vt1) with ls. lia. + change (lines vt1) with ls. lia.
    + change (lines vt1) with ls. replace (Z.to_nat (i + 1)) with (S (Z.to_nat i)) by lia. rewrite Et. apply Forall_app. split; [done | by repeat constructor].
    + intros [b v] [Hb (ls' & d & E & Hls)]. split; [done |]. exists ls', d. split; [exact E |]. by replace (i + Z.of_nat (S m)) with (i + 1 + Z.of_nat m) by lia.
Qed.

Lemma tabs_loop_ok m cs i : 0 <= i -> i + Z.of_nat m <= Z.of_nat (length cs) -> succeeds (tabs_loop m cs i) (fun cs' => length cs' = length cs).
Proof.
  revert cs i. induction m as [| m IH]; intros cs i Hi Hm; cbn [tabs_loop]; [by apply succeeds_Ret |].
  eapply (succeeds_bind _ _ (fun cs' => length cs' = length cs)).
  - destruct (_ =? 0); [| by apply succeeds_Ret]. eapply succeeds_bind; [apply aload_some; lia |]. intros t _. apply astore_length. lia.
  - intros cs' E. eapply succeeds_weaken; [apply IH; lia |]. cbn beta. intros. congruence.
Qed.

Lemma default_tabs_ok cs : Z.of_nat (length cs) = nc -> succeeds (default_tabs cs nc) (fun cs' => length cs' = length cs).
Proof.
  intros Hl. unfold default_tabs. eapply succeeds_bind; [apply aload_some; lia |]. intros t _.
  eapply succeeds_bind; [apply astore_length; lia |]. cbn beta. intros c1 E1. eapply succeeds_bind; [apply aload_some; lia |]. intros t' _.
  eapply succeeds_bind; [apply astore_length; lia |]. cbn beta. intros c2 E2. eapply succeeds_weaken; [apply tabs_loop_ok; lia |]. cbn beta. intros. congruence.
Qed.

(** Resizing: from any state with enough lines, when the memory suffices. *)
Lemma tmt_resize_ok vt x :
  Z.of_nat (length (lines vt)) = nline vt -> 0 <= ncol vt -> 0 <= cr vt /\ 0 <= cc vt -> 0 <= pt_r (vt_oldcurs vt) /\ 0 <= pt_c (vt_oldcurs vt) ->
  parser_ok (vt_parser vt) -> Z.of_nat (length (vt_mb vt)) = BUF_MAX + 1 /\ vt_nmb vt = 0 -> 31 <= Z.of_nat (length (vt_acschars vt)) ->
  succeeds (tmt_resize cb alloc junk vt x nl nc) (fun r => r.1.1 = true /\ tmt_wf nl nc r.1.2).
Proof.
  intros Hl Hc Hcur Hold Hpar Hmb Hacs. unfold tmt_resize. destruct (Z.ltb_spec nl 2); [lia |]. destruct (Z.ltb_spec nc 2); [lia |]. cbn [orb].
  rewrite Halloc. cbn [negb]. set (ls0 := if nl <? nline vt then _ else _).
  assert (Z.of_nat (length ls0) = Z.min nl (nline vt)) as Hls0.
  { subst ls0. destruct (Z.ltb_spec nl (nline vt)); [rewrite length_take |]; lia. }
  set (vt0 := with_screen vt (Tmt.Screen (nline vt) nc ls0)).
  eapply succeeds_bind; [apply (resize_loop_ok (Z.to_nat nl) vt0 0 (nline vt) (ncol vt)) |].
  { done. } { done. } { change (lines vt0) with ls0. lia. } { change (lines vt0) with ls0. lia. } { change (lines vt0) with ls0. lia. } { apply Forall_nil_2. }
  intros [b vt1] [Hb (ls & d & E & Hls)]. cbn [fst snd] in Hb, E. subst b vt1. cbn [negb]. rewrite Z2Nat.id, Z.add_0_l in Hls by lia.
  set (vt2 := with_screen _ (Tmt.Screen nl nc _)).
  eapply succeeds_bind; [apply (allocline_ok vt2); done |]. intros r (t & -> & Ht).
  eapply succeeds_bind; [by apply default_tabs_ok |]. cbn beta. intros cs Hcs.
  set (vt3 := with_dirty (with_tabs vt2 (TLine true cs)) true).
  assert (grid nl nc vt3) as G3 by (split; try done; cbn; lia). pose proof (fixcursor_wf nl nc vt3 G3) as W4.
  eapply (succeeds_bind _ _ (tmt_wf nl nc)).
  { eapply succeeds_weaken; [rewrite <- (gr_nline _ _ _ (tw_grid _ _ _ W4)) at 1; apply (dirtylines_ok nl nc); [apply W4 | lia] |]. intros v D. by eapply drawn_wf. }
  intros v5 W5. eapply succeeds_bind; [by apply (notify_ok cb nl nc) |]. intros [v6 x6] W6. by apply succeeds_Ret.
Qed.

(** A new emulator is well-formed. *)
Lemma tmt_open_wf x : exists vt x', tmt_open cb alloc junk true x nl nc None = Ret (Some vt, x') /\ tmt_wf nl nc vt.
Proof.
  unfold tmt_open. destruct (Z.eqb_spec nl 0); [lia |]. destruct (Z.eqb_spec nc 0); [lia |]. cbn [orb negb default].
  destruct (tmt_resize_ok (zero_tmt default_acs) x) as ([[b vt] x'] & -> & Hb & W); try done; [by split; [| apply Forall_replicate | |] |].
  cbn [fst snd] in Hb, W. subst b. rewrite bind_Ret. by exists vt, x'.
Qed.

End Open.

(** * Examples *)

(** An owner that notes what it is told. *)
Definition note (m : tmt_msg) (vt : tmt) (x : list tmt_msg) : outcome (tmt * list tmt_msg) := Ret (vt, m :: x).

Lemma note_ok nl nc : cb_ok note nl nc.
Proof. intros m vt x W. by apply succeeds_Ret. Qed.

(** A new screen of three lines and four columns. *)
Definition ex_vt : tmt :=
  let a := Attrs false false false false false false COLOR_ZERO COLOR_ZERO in
  let star := Char STAR defattrs in
  Tmt (Point 0 0) (Point 0 0) a a true false (Tmt.Screen 3 4 (replicate 3 (TLine true (replicate 4 blank)))) (TLine true [star; blank; blank; star])
    default_acs 0 (replicate 101 0) (Parser (replicate 8 0) 0 0 S_NUL false).

Lemma ex_open : tmt_open note (fun _ => true) (Char 7 defattrs) true [] 3 4 None = Ret (Some ex_vt, [MSG_MOVED; MSG_UPDATE]).
Proof. vm_compute. reflexivity. Qed.

Lemma ex_wf : tmt_wf 3 4 ex_vt.
Proof.
  destruct (tmt_open_wf note (fun _ => true) (Char 7 defattrs) 3 4 ltac:(lia) ltac:(done) (note_ok 3 4) []) as (vt & x & E & W).
  rewrite ex_open in E. by injection E as <- _.
Qed.

Lemma tmt_write_safe_witness :
  let s := [27; 91; 57; 57; 57; 57; 65; 104; 105; 27; 91; 49; 74] in
  exists vt' x', tmt_write note ex_vt [] s 13 = Ret (vt', x') /\ tmt_wf 3 4 vt'.
Proof. intros s. apply (tmt_write_safe note 3 4 ex_vt [] s); [apply note_ok | apply ex_wf | discriminate]. Defined.

Lemma tmt_shows_text_witness :
  let s := [104; 105; 13; 10; 97; 98; 99; 100; 101; 102; 10; 8; 33] in
  exists vt', view vt' = foldl (tt_char 3 4 (vt_attrs ex_vt)) (view ex_vt) s /\ tmt_wf 3 4 vt' /\ typing vt' /\
    tmt_write note ex_vt [] s 13 = notify note vt' [] (vt_dirty vt') (negb (point_eqb (vt_curs ex_vt) (vt_curs vt'))).
Proof.
  intros s. apply (tmt_shows_text note 3 4 ex_vt [] s); [apply ex_wf | done | discriminate | by repeat constructor].
Defined.

(** The text of the screen after some output. *)
Definition shown (s : list Z) : option (list (list Z) * Z * Z) :=
  match tmt_write note ex_vt [] s (Z.of_nat (length s)) with
  | Ret (vt, _) => Some (map (fun l => map ch_c (tl_chars l)) (lines vt), cr vt, cc vt)
  | _ => None
  end.

Definition attrs_after (s : list Z) : option tmt_attrs :=
  match tmt_write note ex_vt [] s (Z.of_nat (length s)) with Ret (vt, _) => Some (vt_attrs vt) | _ => None end.

Lemma ex_shown :
  shown [104; 105; 13; 10; 97; 98; 99; 100; 101; 102; 10; 8; 33] = Some ([[97; 98; 99; 100]; [101; 102; 32; 32]; [32; 33; 32; 32]], 2, 2).
Proof. vm_compute. reflexivity. Qed.

(** Moving the cursor up from the first line takes it to the last one: the
    difference wraps around before the maximum is taken. *)
Lemma cursor_up_wraps : shown [27; 91; 65; 120] = Some ([[32; 32; 32; 32]; [32; 32; 32; 32]; [120; 32; 32; 32]], 2, 1).
Proof. vm_compute. reflexivity. Qed.

(** Clearing from the start of the screen to a cursor in the first line clears all of
    it. *)
Lemma clear_above_clears_all :
  shown [97; 10; 98; 27; 91; 72; 27; 91; 49; 74] = Some (replicate 3 (replicate 4 32), 0, 0).
Proof. vm_compute. reflexivity. Qed.

(** And with the cursor in the third line it leaves the second one. *)
Lemma clear_above_leaves_line :
  shown [97; 10; 98; 10; 99; 27; 91; 49; 74] = Some ([[32; 32; 32; 32]; [32; 98; 32; 32]; [32; 32; 32; 32]], 2, 3).
Proof. vm_compute. reflexivity. Qed.

(** Bold and red, in either order: the parameter that is looked at is always the
    first. *)
Lemma bold_after_color_lost :
  attrs_after [27; 91; 49; 59; 51; 49; 109] = Some (Attrs true false false false false false COLOR_RED COLOR_ZERO) /\
  attrs_after [27; 91; 51; 49; 59; 49; 109] = Some (Attrs false false false false false false COLOR_RED COLOR_ZERO).
Proof. split; vm_compute; reflexivity. Qed.

(** Inserting a blank before the second of three characters: it is doubled, and the
    third is lost. *)
Lemma insert_keeps_character :
  shown [97; 98; 99; 27; 91; 50; 71; 27; 91; 64] = Some ([[97; 98; 98; 32]; [32; 32; 32; 32]; [32; 32; 32; 32]], 0, 1).
Proof. vm_compute. reflexivity. Qed.

(** Deleting the last line does nothing. *)
Lemma last_line_not_deleted :
  shown [10; 10; 97; 27; 91; 77] = Some ([[32; 32; 32; 32]; [32; 32; 32; 32]; [97; 32; 32; 32]], 2, 1).
Proof. vm_compute. reflexivity. Qed.

(** A NUL rings the bell: [strchr] finds it at the end of every string. *)
Lemma nul_rings_bell : match tmt_write note ex_vt [] [97; 0] 2 with Ret (_, x) => MSG_BELL ∈ x | _ => False end.
Proof. vm_compute. right. right. left. Qed.

(** When a line cannot be allocated the number of columns has been changed already:
    the old lines are too short for it. *)
Lemma resize_fails_unsafe :
  match tmt_resize note (fun k => Nat.eqb k 0) (Char 7 defattrs) ex_vt [] 3 8 with
  | Ret (false, vt, _) => tmt_write note vt [] [97; 98; 99; 100; 101] 5 = Fault
  | _ => False
  end.
Proof. vm_compute. reflexivity. Qed.
