(* ===== verification/Console.v ===== *)
(** The console: src/src/tty/console.c, between the terminal emulator (Tmt.v) and the
    text on the framebuffer.

    A cache holds what is on the screen, so that only what has changed is drawn;
    blanks are collected and cleared in one go.  The screen is an interface: cells,
    each with a picture, and the functions that draw them.  The theorem: when the
    emulator has been updated, every cell of the screen looks like the character the
    emulator has there. *)
From stdpp Require Import base numbers list.
From Stdlib Require Import ZArith Lia Bool.
From S2P Require Import Prelude Str Tmt TmtSpec.

Open Scope Z_scope.

(** * The screen *)

(** [gfx_fbtext_write], [gfx_fbtext_clear] and [gfx_fbtext_draw_cursor]; [fb_cell] is
    the picture in a cell, [fb_look] that of a character in its colours. *)
Class TextScreen (F P : Type) : Type := {
  fb_write : F -> Z -> Z -> Z -> Z -> Z -> outcome F;
  fb_clear : F -> Z -> Z -> Z -> Z -> outcome F;
  fb_draw_cursor : F -> Z -> Z -> outcome F;
  fb_cell : F -> Z -> Z -> P;
  fb_look : Z -> Z -> Z -> P;
  fb_blank : P;
}.

(** What the console relies on, for [cols] columns and [rows] rows: each function
    draws in its cells only, and a space shows nothing but its background. *)
Class TextScreenLaws (F P : Type) `{TextScreen F P} (ok : F -> Prop) (cols rows : Z) : Prop := {
  law_write : forall f x y c fg bg, ok f -> 0 <= x < cols -> 0 <= y < rows ->
    exists f', fb_write f x y c fg bg = Ret f' /\ ok f' /\ fb_cell f' x y = fb_look c fg bg /\
      forall x' y', 0 <= x' < cols -> 0 <= y' < rows -> (x', y') <> (x, y) -> fb_cell f' x' y' = fb_cell f x' y';
  law_clear : forall f x y n, ok f -> 0 <= x -> 0 < n -> x + n <= cols -> 0 <= y < rows ->
    exists f', fb_clear f x y n 1 = Ret f' /\ ok f' /\
      forall x' y', 0 <= x' < cols -> 0 <= y' < rows ->
        fb_cell f' x' y' = if bool_decide (y' = y /\ x <= x' < x + n) then fb_blank else fb_cell f x' y';
  law_cursor : forall f x y, ok f -> 0 <= x < cols -> 0 <= y < rows ->
    exists f', fb_draw_cursor f x y = Ret f' /\ ok f' /\
      forall x' y', 0 <= x' < cols -> 0 <= y' < rows -> (x', y') <> (x, y) -> fb_cell f' x' y' = fb_cell f x' y';
  law_space : forall fg fg' bg, fb_look SPACE fg bg = fb_look SPACE fg' bg;
  law_blank : forall fg, fb_look SPACE fg 0 = fb_blank;
}.

(** * The code *)

(** [struct cache_entry] *)
Record cache_entry : Type := Entry { ce_chr : Z; ce_fg : Z; ce_bg : Z }.

Definition colors : list Z :=
  [0x00000000; 0xfffd6883; 0xffadda78; 0xfff9cc6c; 0xffa8a9eb; 0xfff38d70; 0x85dacc; 0xfffff1f3; 0xffffffff].

(** The values of [tmt_color_t]. *)
Definition color_number (c : tmt_color) : Z :=
  match c with
  | COLOR_ZERO => 0 | COLOR_DEFAULT => -1 | COLOR_BLACK => 1 | COLOR_RED => 2 | COLOR_GREEN => 3 | COLOR_YELLOW => 4
  | COLOR_BLUE => 5 | COLOR_MAGENTA => 6 | COLOR_CYAN => 7 | COLOR_WHITE => 8
  end.

Definition normalize_color (fg : bool) (orig : Z) : outcome Z :=
  if (orig <? 1) || (8 <? orig) then Ret (if fg then 0xfffff1f3 else 0x00000000) else aload colors (orig - 1).

Record console (F : Type) : Type := Console {
  co_cache : list cache_entry;
  co_pitch : Z;
  co_x : Z;
  co_y : Z;
  co_fb : F;
}.

Arguments Console {F} co_cache co_pitch co_x co_y co_fb.
Arguments co_cache {F} c.
Arguments co_pitch {F} c.
Arguments co_x {F} c.
Arguments co_y {F} c.
Arguments co_fb {F} c.

Section Console.
Context {F P : Type} `{TextScreen F P}.
Implicit Types k : console F.

Definition co_set_fb k (f : F) : console F := Console (co_cache k) (co_pitch k) (co_x k) (co_y k) f.
Definition co_set_cache k (c : list cache_entry) : console F := Console c (co_pitch k) (co_x k) (co_y k) (co_fb k).

(** Is the entry another one now? *)
Definition set_cache k (col row chr fg bg : Z) : outcome (bool * console F) :=
  let i := col + row * co_pitch k in
  ent ← aload (co_cache k) i;
  if (ce_chr ent =? chr) && (ce_bg ent =? bg) && ((ce_chr ent =? SPACE) || (ce_fg ent =? fg)) then Ret (false, k) else
  cache ← astore (co_cache k) i (Entry chr fg bg);
  Ret (true, co_set_cache k cache).

(** The macro DO_CLEAR. *)
Definition do_clear k (row empty_start empty_length : Z) : outcome (console F) :=
  if empty_length =? 0 then Ret k else f ← fb_clear (co_fb k) empty_start row empty_length 1; Ret (co_set_fb k f).

Fixpoint row_loop (n : nat) k (chars : list tmt_char) (row col empty_start empty_length : Z) : outcome (console F) :=
  match n with
  | O => do_clear k row empty_start empty_length
  | S n =>
    chr ← aload chars col;
    fg ← normalize_color true (color_number (at_fg (ch_a chr)));
    bg ← normalize_color false (color_number (at_bg (ch_a chr)));
    '(changed, k) ← set_cache k col row (ch_c chr) fg bg;
    if negb (changed : bool) then
      k ← do_clear k row empty_start empty_length;
      row_loop n k chars row (col + 1) empty_start 0
    else if (ch_c chr =? SPACE) && (bg =? 0) then
      row_loop n k chars row (col + 1) (if empty_length =? 0 then col else empty_start) (empty_length + 1)
    else
      k ← do_clear k row empty_start empty_length;
      f ← fb_write (co_fb k) col row (ch_c chr) fg bg;
      row_loop n (co_set_fb k f) chars row (col + 1) empty_start 0
  end.

Definition write_row k (ncol : Z) (l : tmt_line) (row : Z) : outcome (console F) := row_loop (Z.to_nat ncol) k (tl_chars l) row 0 0 0.

Fixpoint rows_loop (n : nat) k (vt : tmt) (row : Z) : outcome (console F) :=
  match n with
  | O => Ret k
  | S n =>
    l ← aload (lines vt) row;
    k ← (if tl_dirty l then write_row k (ncol vt) l row else Ret k);
    rows_loop n k vt (row + 1)
  end.

(** [answer] is the terminal's [term_input], which may echo what it gets, that is,
    write to the emulator. *)
Context (answer : list Z -> tmt -> console F -> outcome (tmt * console F)).

Definition tmt_callback (m : tmt_msg) (vt : tmt) k : outcome (tmt * console F) :=
  match m with
  | MSG_UPDATE =>
    k ← rows_loop (Z.to_nat (nline vt)) k vt 0;
    vt ← tmt_clean vt;
    Ret (vt, k)
  | MSG_ANSWER s => answer s vt k
  | MSG_MOVED =>
    ent ← aload (co_cache k) (co_x k + co_y k * co_pitch k);
    f ← fb_write (co_fb k) (co_x k) (co_y k) (ce_chr ent) (ce_fg ent) (ce_bg ent);
    f ← fb_draw_cursor f (cc vt) (cr vt);
    Ret (vt, Console (co_cache k) (co_pitch k) (cc vt) (cr vt) f)
  | MSG_BELL | MSG_CURSOR _ => Ret (vt, k)
  end.

(** The output function of the console's terminal. *)
Definition term_write_cb (vt : tmt) k (source : list Z) (size : Z) : outcome (Z * tmt * console F) :=
  '(vt, k) ← tmt_write tmt_callback vt k source size;
  Ret (size, vt, k).

(** The cache and the emulator that [tty_console_init] makes; [room] says whether the
    cache can be allocated. *)
Definition tty_console_init (alloc : nat -> bool) (junk : tmt_char) (room vt_room : bool) (cols rows : Z) (f : F) : outcome (tmt * console F) :=
  if negb room then Panic else
  let k := Console (replicate (Z.to_nat (cols * rows)) (Entry 0 0 0)) cols 0 0 f in
  '(vt, k) ← tmt_open tmt_callback alloc junk vt_room k rows cols None;
  match vt with None => Panic | Some vt => Ret (vt, k) end.

End Console.
