(* ===== verification/ConsoleSpec.v ===== *)
(** The screen of the console looks like that of the emulator. *)
From stdpp Require Import base numbers list.
From Stdlib Require Import ZArith Lia Bool.
From S2P Require Import Prelude Str Tmt TmtSpec Console.

Open Scope Z_scope.

(** The colours of a character. *)
Definition norm (fg : bool) (c : tmt_color) : Z := match normalize_color fg (color_number c) with Ret x => x | _ => 0 end.

Lemma normalize_total fg c : normalize_color fg (color_number c) = Ret (norm fg c).
Proof. by destruct fg, c. Qed.

(** The entry of the cache is for the character; the foreground of a space does not
    matter. *)
Definition entry_for (e : cache_entry) (c : tmt_char) : Prop :=
  ce_chr e = ch_c c /\ ce_bg e = norm false (at_bg (ch_a c)) /\ (ch_c c = SPACE \/ ce_fg e = norm true (at_fg (ch_a c))).

Section Spec.
Context {F P : Type} (ok : F -> Prop) (cols rows : Z) `{TextScreenLaws F P ok cols rows}.
Implicit Types k : console F.

Definition idx (x y : Z) : nat := Z.to_nat (x + y * cols).

Lemma idx_inj x y x' y' : 0 <= x < cols -> 0 <= y -> 0 <= x' < cols -> 0 <= y' -> idx x y = idx x' y' -> x = x' /\ y = y'.
Proof.
  unfold idx. intros Hx Hy Hx' Hy' E. apply Z2Nat.inj in E; [| nia | nia].
  assert (y = y') as ->; [| lia]. destruct (Z.lt_trichotomy y y') as [L | [-> | L]]; [nia | done | nia].
Qed.

Lemma idx_range x y : 0 <= x < cols -> 0 <= y < rows -> 0 <= x + y * cols < cols * rows.
Proof. nia. Qed.

Definition look (e : cache_entry) : P := fb_look (ce_chr e) (ce_fg e) (ce_bg e).

(** The cache says what is on the screen, except for what has never been drawn, the
    place of the cursor and the cells from [lo] to [hi] in a row, which are to be
    cleared. *)
Definition honest k (row lo hi : Z) : Prop :=
  forall x y e, 0 <= x < cols -> 0 <= y < rows -> (x, y) <> (co_x k, co_y k) -> co_cache k !! idx x y = Some e -> ce_chr e <> 0 ->
    (y = row /\ lo <= x < hi /\ look e = fb_blank) \/ (~ (y = row /\ lo <= x < hi) /\ fb_cell (co_fb k) x y = look e).

Record console_ok k : Prop := {
  ck_pitch : co_pitch k = cols;
  ck_cache : Z.of_nat (length (co_cache k)) = cols * rows;
  ck_fb : ok (co_fb k);
}.

(** The entries of a row. *)
Definition row_for k (row : Z) (chars : list tmt_char) (n : Z) : Prop :=
  forall x c, 0 <= x < n -> chars !! Z.to_nat x = Some c -> exists e, co_cache k !! idx x row = Some e /\ entry_for e c.

(** Entries of other rows are as before. *)
Definition other_rows k k' (row : Z) : Prop := forall x y, 0 <= x < cols -> 0 <= y < rows -> y <> row -> co_cache k' !! idx x y = co_cache k !! idx x y.

Definition same_cursor k k' : Prop := co_x k' = co_x k /\ co_y k' = co_y k.

Lemma do_clear_ok k row col es el :
  console_ok k -> 0 <= row < rows -> 0 <= el -> el <= col <= cols -> (el = 0 \/ es = col - el) -> honest k row (col - el) col ->
  exists f, do_clear k row es el = Ret (co_set_fb k f) /\ ok f /\ honest (co_set_fb k f) row col col.
Proof.
  intros [Hp Hc Hf] Hr He Hcol Hes Hh. unfold do_clear. destruct (Z.eqb_spec el 0) as [-> | Hne].
  - exists (co_fb k). split; [by destruct k |]. split; [done |]. intros x y e Hx Hy Hxy Hlk Hn. right. split; [lia |].
    destruct (Hh x y e Hx Hy Hxy Hlk Hn) as [(_ & ? & _) | [_ ?]]; [lia | done].
  - destruct Hes as [-> | ->]; [done |]. destruct (law_clear (co_fb k) (col - el) row el) as (f & -> & Hok & Hcell); [done | lia | lia | lia | done |].
    rewrite bind_Ret. exists f. split; [done |]. split; [done |]. intros x y e Hx Hy Hxy Hlk Hn. right. split; [lia |]. cbn [co_fb co_set_fb].
    rewrite Hcell by done. destruct (Hh x y e Hx Hy Hxy Hlk Hn) as [(-> & Hr1 & E) | [Hnr E]].
    + by rewrite bool_decide_eq_true_2 by lia.
    + by rewrite bool_decide_eq_false_2 by lia.
Qed.

(** Setting an entry. *)
Lemma set_cache_ok k col row c :
  console_ok k -> 0 <= col < cols -> 0 <= row < rows ->
  exists b k', set_cache k col row (ch_c c) (norm true (at_fg (ch_a c))) (norm false (at_bg (ch_a c))) = Ret (b, k') /\
    console_ok k' /\ co_fb k' = co_fb k /\ same_cursor k k' /\
    (exists e, co_cache k' !! idx col row = Some e /\ entry_for e c) /\
    (forall i, i <> idx col row -> co_cache k' !! i = co_cache k !! i) /\
    (if b then co_cache k' !! idx col row = Some (Entry (ch_c c) (norm true (at_fg (ch_a c))) (norm false (at_bg (ch_a c)))) else k' = k).
Proof.
  intros [Hp Hc Hf] Hcol Hr. pose proof (idx_range col row Hcol Hr) as Hi. unfold set_cache. rewrite Hp.
  destruct (aload_in (co_cache k) (col + row * cols)) as (e & E & He); [lia |]. rewrite E, bind_Ret.
  destruct (_ && _ && _) eqn:Eb.
  - exists false, k. split; [done |]. split; [done |]. split_and!; try done. exists e. split; [done |]. unfold entry_for.
    apply andb_true_iff in Eb as [[? ?]%andb_true_iff Eo]. apply orb_true_iff in Eo. split_and!; [lia | lia |]. destruct Eo; [left | right]; lia.
  - rewrite astore_in, bind_Ret by lia. eexists true, _. split; [done |]. split; [split; [done | cbn; by rewrite length_insert | done] |].
    split_and!; try done; cbn [co_cache co_set_cache].
    + eexists. split; [apply list_lookup_insert_eq; unfold idx; lia |]. unfold entry_for. cbn. split_and!; try done. by right.
    + intros i Hne. by apply list_lookup_insert_ne.
    + apply list_lookup_insert_eq. lia.
Qed.

Lemma norm_bg_blank (c : tmt_char) : ch_c c = SPACE -> norm false (at_bg (ch_a c)) = 0 -> forall fg, look (Entry (ch_c c) fg (norm false (at_bg (ch_a c)))) = fb_blank.
Proof. intros -> -> fg. apply law_blank. Qed.

Lemma honest_empty k row a row' b : honest k row a a -> honest k row' b b.
Proof.
  intros Hh x y e Hx Hy Hxy Hlk Hn. right. split; [lia |]. destruct (Hh x y e Hx Hy Hxy Hlk Hn) as [(_ & ? & _) | [_ ?]]; [lia | done].
Qed.

Lemma do_clear_fb k k' row es el f : co_fb k' = co_fb k -> do_clear k row es el = Ret (co_set_fb k f) -> do_clear k' row es el = Ret (co_set_fb k' f).
Proof.
  intros E. unfold do_clear. rewrite E. destruct (el =? 0).
  - intros [= Ek]. assert (co_fb k = f) as Ef by (rewrite Ek; done). rewrite <- Ef, <- E. by destruct k'.
  - destruct (fb_clear _ _ _ _ _) as [f' | | |]; try done. rewrite !bind_Ret. by intros [= ->].
Qed.

Lemma row_for_step k k' row chars col c :
  0 <= col < cols -> 0 <= row < rows -> row_for k row chars col -> chars !! Z.to_nat col = Some c ->
  (forall i, i <> idx col row -> co_cache k' !! i = co_cache k !! i) -> (exists e, co_cache k' !! idx col row = Some e /\ entry_for e c) ->
  row_for k' row chars (col + 1).
Proof.
  intros Hc Hr Hf Hl Hs He x d Hx Hd. destruct (decide (x = col)) as [-> |].
  - rewrite Hl in Hd. by injection Hd as <-.
  - destruct (Hf x d ltac:(lia) Hd) as (e & E & Hfor). exists e. split; [| done]. rewrite Hs; [done |]. intros Ei.
    destruct (idx_inj x row col row ltac:(lia) ltac:(lia) ltac:(lia) ltac:(lia) Ei). lia.
Qed.

(** One more cell to clear. *)
Lemma honest_pending k k' row col el c :
  console_ok k -> 0 <= col < cols -> 0 <= row < rows -> 0 <= el <= col -> honest k row (col - el) col ->
  co_fb k' = co_fb k -> same_cursor k k' -> (forall i, i <> idx col row -> co_cache k' !! i = co_cache k !! i) ->
  co_cache k' !! idx col row = Some c -> look c = fb_blank -> honest k' row (col + 1 - (el + 1)) (col + 1).
Proof.
  intros Hk Hc Hr He Hh Hfb [Ex Ey] Hs Hl Hlk x y e Hx Hy Hxy Hce Hn. rewrite Ex, Ey in Hxy. destruct (decide (idx x y = idx col row)) as [E | E].
  - pose proof (idx_inj x y col row Hx ltac:(lia) Hc ltac:(lia) E) as [-> ->]. left. rewrite Hl in Hce. injection Hce as <-. split_and!; [done | lia | lia | done].
  - rewrite Hs in Hce by done. rewrite Hfb. destruct (Hh x y e Hx Hy Hxy Hce Hn) as [(-> & Hr1 & El) | [Hnr El]]; [left; split_and!; done || lia |].
    right. split; [| done]. intros [-> Hr1]. destruct (decide (x = col)) as [-> |]; [done |]. apply Hnr. lia.
Qed.

(** A cell drawn. *)
Lemma honest_drawn k k' f row col c f' :
  0 <= col < cols -> 0 <= row < rows -> honest (co_set_fb k f) row col col -> same_cursor k k' ->
  (forall i, i <> idx col row -> co_cache k' !! i = co_cache k !! i) -> co_cache k' !! idx col row = Some c ->
  fb_cell f' col row = look c -> (forall x y, 0 <= x < cols -> 0 <= y < rows -> (x, y) <> (col, row) -> fb_cell f' x y = fb_cell f x y) ->
  honest (co_set_fb k' f') row (col + 1) (col + 1).
Proof.
  intros Hc Hr Hh [Ex Ey] Hs Hl Hcell Hother x y e Hx Hy Hxy Hce Hn. cbn [co_x co_y co_set_fb co_cache co_fb] in *. rewrite Ex, Ey in Hxy.
  right. split; [lia |]. destruct (decide (idx x y = idx col row)) as [E | E].
  - pose proof (idx_inj x y col row Hx ltac:(lia) Hc ltac:(lia) E) as [-> ->]. rewrite Hl in Hce. by injection Hce as <-.
  - rewrite Hs in Hce by done. rewrite Hother by (done || (intros [= -> ->]; done)).
    destruct (Hh x y e Hx Hy Hxy Hce Hn) as [(_ & ? & _) | [_ ?]]; [lia | done].
Qed.

Lemma row_loop_ok n k chars row col es el :
  console_ok k -> 0 <= row < rows -> Z.of_nat (length chars) = cols -> 0 <= col -> col + Z.of_nat n = cols -> 0 <= el <= col -> (el = 0 \/ es = col - el) ->
  honest k row (col - el) col -> row_for k row chars col ->
  exists k', row_loop n k chars row col es el = Ret k' /\ console_ok k' /\ same_cursor k k' /\ honest k' row cols cols /\ row_for k' row chars cols /\ other_rows k k' row.
Proof.
  intros Hk Hr Hl Hc Hn. revert k col es el Hk Hc Hn. induction n as [| n IH]; intros k col es el Hk Hc Hn He Hes Hh Hf; cbn [row_loop].
  { destruct (do_clear_ok k row col es el) as (f & -> & Hok & Hh'); [done | done | lia | lia | done | done |]. assert (col = cols) as -> by lia.
    exists (co_set_fb k f). destruct Hk. by split_and!. }
  destruct (aload_in chars col) as (c & -> & Hch); [lia |]. rewrite bind_Ret, !normalize_total, !bind_Ret.
  destruct (set_cache_ok k col row c Hk) as (b & k1 & -> & Hk1 & Hfb1 & Hcur1 & He1 & Hs1 & Hb); [lia | done |]. rewrite bind_Ret.
  pose proof (row_for_step k k1 row chars col c ltac:(lia) Hr Hf Hch Hs1 He1) as Hf1.
  assert (other_rows k k1 row) as Ho1.
  { intros x y Hx Hy Hne. apply Hs1. intros Ei. destruct (idx_inj x y col row ltac:(lia) ltac:(lia) ltac:(lia) ltac:(lia) Ei). lia. }
  destruct (do_clear_ok k row col es el Hk Hr ltac:(lia) ltac:(lia) Hes Hh) as (f & Ecl & Hokf & Hhf).
  assert (forall k2, console_ok k2 -> co_cache k2 = co_cache k1 -> same_cursor k k2 -> forall es' el', 0 <= el' <= col + 1 -> (el' = 0 \/ es' = col + 1 - el') ->
    honest k2 row (col + 1 - el') (col + 1) ->
    exists k', row_loop n k2 chars row (col + 1) es' el' = Ret k' /\ console_ok k' /\ same_cursor k k' /\ honest k' row cols cols /\ row_for k' row chars cols /\ other_rows k k' row) as Hrec.
  { intros k2 Hk2 Ec [Ex Ey] es' el' He' Hes' Hh2. destruct (IH k2 (col + 1) es' el') as (k' & E & Hk' & [Ex' Ey'] & Hh' & Hf' & Ho'); try done; [lia | lia | |].
    - intros x d Hx Hd. rewrite Ec. by apply Hf1.
    - exists k'. split; [done |]. split; [done |]. split; [split; congruence |]. split; [done |]. split; [done |]. intros x y Hx Hy Hne. rewrite Ho' by done. rewrite Ec. by apply Ho1. }
  destruct b; cbn [negb].
  - destruct (_ && _) eqn:Eb.
    + apply andb_true_iff in Eb as [E1 E2]. apply Hrec; [done | done | done | lia | right; destruct (Z.eqb_spec el 0); lia |].
      eapply (honest_pending k k1); [exact Hk | lia | done | lia | done | done | done | done | exact Hb | apply norm_bg_blank; lia].
    + rewrite (do_clear_fb k k1 row es el f) by done. rewrite bind_Ret. cbn [co_fb co_set_fb].
      destruct (law_write f col row (ch_c c) (norm true (at_fg (ch_a c))) (norm false (at_bg (ch_a c)))) as (f' & -> & Hokf' & Hcell & Hother); [done | lia | done |].
      rewrite bind_Ret. destruct Hk1. apply Hrec; [by split | done | done | lia | by left |].
      replace (col + 1 - 0) with (col + 1) by lia. eapply (honest_drawn k k1 f); [lia | done | done | done | done | exact Hb | done | done].
  - subst k1. rewrite Ecl, bind_Ret. destruct Hk. apply Hrec; [by split | done | done | lia | by left |].
    replace (col + 1 - 0) with (col + 1) by lia. by eapply honest_empty.
Qed.

(** All rows that are not dirty, and those above [row], are in the cache. *)
Definition rows_for k (ls : list tmt_line) (row : Z) : Prop :=
  forall y l, ls !! Z.to_nat y = Some l -> 0 <= y -> y < row \/ tl_dirty l = false -> row_for k y (tl_chars l) cols.

Lemma rows_loop_ok n k vt row :
  console_ok k -> lines_ok rows cols (lines vt) -> ncol vt = cols -> 0 < cols -> 0 <= row -> row + Z.of_nat n = rows -> honest k 0 0 0 -> rows_for k (lines vt) row ->
  exists k', rows_loop n k vt row = Ret k' /\ console_ok k' /\ same_cursor k k' /\ honest k' 0 0 0 /\ rows_for k' (lines vt) rows.
Proof.
  intros Hk Hl Hnc Hcols Hr. revert k row Hk Hr. induction n as [| n IH]; intros k row Hk Hr Hn Hh Hf; cbn [rows_loop].
  { exists k. split_and!; try done. by replace rows with row by lia. }
  destruct (lines_load rows cols (lines vt) row Hl) as (l & E & Hc); [lia |]. rewrite E, bind_Ret. apply aload_Ret in E as [_ El].
  assert (exists k1, (if tl_dirty l then write_row k (ncol vt) l row else Ret k) = Ret k1 /\ console_ok k1 /\ same_cursor k k1 /\ honest k1 0 0 0 /\
    rows_for k1 (lines vt) (row + 1)) as (k1 & -> & Hk1 & [Ex Ey] & Hh1 & Hf1).
  { destruct (tl_dirty l) eqn:Ed.
    - unfold write_row. rewrite Hnc. destruct (row_loop_ok (Z.to_nat cols) k (tl_chars l) row 0 0 0) as (k1 & -> & Hk1 & Hcur & Hh1 & Hf1 & Ho1);
        [done | lia | done | done | lia | lia | by left | by eapply honest_empty | intros x c Hx; lia |].
      exists k1. split_and!; try done; [by eapply honest_empty |]. intros y l' Hl' Hy Hd. destruct (decide (y = row)) as [-> |].
      + rewrite El in Hl'. by injection Hl' as <-.
      + intros x c Hx Hcx. rewrite Ho1; [| lia | split; [done |] | done].
        * apply (Hf y l' Hl' Hy); [destruct Hd; [left; lia | by right] | done | done].
        * apply lookup_lt_Some in Hl'. destruct Hl as [Hl _]. lia.
    - exists k. split_and!; try done. intros y l' Hl' Hy Hd. apply Hf; [done | done |]. destruct (decide (y = row)) as [-> |]; [right; congruence |].
      destruct Hd; [left; lia | by right]. }
  rewrite bind_Ret. destruct (IH k1 (row + 1)) as (k2 & -> & Hk2 & [Ex2 Ey2] & Hh2 & Hf2); [done | lia | lia | done | done |].
  exists k2. split; [done |]. split; [done |]. split; [split; congruence | done].
Qed.

Lemma clean_loop_ok n ls i :
  0 <= i -> i + Z.of_nat n = Z.of_nat (length ls) ->
  exists ls', clean_loop n ls i = Ret ls' /\ map tl_chars ls' = map tl_chars ls /\
    (forall y l, ls' !! y = Some l -> (Z.to_nat i <= y)%nat \/ (exists l0, ls !! y = Some l0 /\ tl_dirty l0 = false) -> tl_dirty l = false).
Proof.
  revert ls i. induction n as [| n IH]; intros ls i Hi Hn; cbn [clean_loop].
  { exists ls. split_and!; try done. intros y l Hl [Hy | (l0 & E & Hd)]; [apply lookup_lt_Some in Hl; lia | congruence]. }
  destruct (aload_in ls i) as (l & -> & El); [lia |]. rewrite bind_Ret, astore_in, bind_Ret by lia.
  destruct (IH (<[Z.to_nat i := TLine false (tl_chars l)]> ls) (i + 1)) as (ls' & -> & Em & Hd); [lia | rewrite length_insert; lia |].
  exists ls'. split; [done |]. split.
  - rewrite Em. apply list_eq. intros j. rewrite !list_lookup_fmap. destruct (decide (j = Z.to_nat i)) as [-> |].
    + rewrite list_lookup_insert_eq by lia. by rewrite El.
    + by rewrite list_lookup_insert_ne.
  - intros y l' Hl' Hy. apply (Hd y l' Hl'). destruct (decide (y = Z.to_nat i)) as [-> |].
    + right. eexists. split; [apply list_lookup_insert_eq; lia | done].
    + destruct Hy as [Hy | (l0 & E & Hd0)]; [left; lia |]. right. exists l0. by rewrite list_lookup_insert_ne.
Qed.

End Spec.

(** C22: the console is up to date: after the callback for an update every cell of the
    screen, the one under the cursor apart, looks like the character the emulator
    has there, in its colours, although only the lines that have changed are looked
    at, only the cells that differ from the cache are drawn, and runs of blanks are
    cleared at once; and this holds again after the next update. *)
Theorem console_update_correct {F P : Type} (ok : F -> Prop) (cols rows : Z) `{TextScreenLaws F P ok cols rows} answer (vt : tmt) (k : console F) :
  grid rows cols vt -> console_ok ok cols rows k -> honest cols rows k 0 0 0 -> rows_for cols k (lines vt) 0 ->
  exists vt' k', tmt_callback answer MSG_UPDATE vt k = Ret (vt', k') /\
    map tl_chars (lines vt') = map tl_chars (lines vt) /\ Forall (fun l => tl_dirty l = false) (lines vt') /\
    console_ok ok cols rows k' /\ honest cols rows k' 0 0 0 /\ rows_for cols k' (lines vt') 0 /\
    forall x y l c, lines vt !! Z.to_nat y = Some l -> tl_chars l !! Z.to_nat x = Some c -> 0 <= x -> 0 <= y ->
      (x, y) <> (co_x k, co_y k) -> ch_c c <> 0 ->
      fb_cell (co_fb k') x y = fb_look (ch_c c) (norm true (at_fg (ch_a c))) (norm false (at_bg (ch_a c))).
Proof.
  intros G Hk Hh Hf. pose proof (gr_lines _ _ _ G) as Hl. pose proof (gr_size _ _ _ G) as [Hr Hc]. cbn [tmt_callback]. rewrite (gr_nline _ _ _ G).
  destruct (rows_loop_ok ok cols rows (Z.to_nat rows) k vt 0) as (k' & -> & Hk' & [Ex Ey] & Hh' & Hf'); try done; [apply (gr_ncol _ _ _ G) | lia | lia |].
  rewrite bind_Ret. unfold tmt_clean. rewrite (gr_nline _ _ _ G).
  destruct (clean_loop_ok (Z.to_nat rows) (lines vt) 0) as (ls & -> & Em & Hd); [done | destruct Hl; lia |]. rewrite !bind_Ret.
  eexists _, k'. split; [done |]. split; [exact Em |]. split; [| split; [done |]; split; [done |]; split].
  - apply Forall_lookup. intros y l E. apply (Hd y l E). left. lia.
  - intros y l E Hy _. change (lines _) with ls in E. pose proof (f_equal (fun m => m !! Z.to_nat y) Em) as E2. cbn beta in E2.
    rewrite !list_lookup_fmap, E in E2. destruct (lines vt !! Z.to_nat y) as [l0 |] eqn:E0; [| done]. cbn in E2. injection E2 as ->.
    apply (Hf' y l0 E0 Hy). left. apply lookup_lt_Some in E0. destruct Hl. lia.
  - intros x y l c El Ec Hx Hy Hxy Hn. pose proof (lookup_lt_Some _ _ _ El) as Hy'. pose proof (lookup_lt_Some _ _ _ Ec) as Hx'. destruct Hl as [Hl HF].
    pose proof (proj1 (Forall_lookup _ _) HF _ _ El) as Hcl. cbn beta in Hcl.
    destruct (Hf' y l El Hy ltac:(left; lia) x c ltac:(lia) Ec) as (e & He & E1 & E2 & E3).
    destruct (Hh' x y e) as [(_ & ? & _) | [_ E]]; [lia | lia | by rewrite Ex, Ey | done | congruence | lia |]. rewrite E. unfold look. rewrite E1, E2.
    destruct E3 as [-> | ->]; [apply law_space | done].
Qed.
