(* ===== verification/FbtextSpec.v ===== *)
(** Text on the framebuffer keeps the contract of the console. *)
From stdpp Require Import base numbers list.
From Stdlib Require Import ZArith Lia Bool.
From S2P Require Import Prelude Bitmap Str Bytes Buffer Tmt TmtSpec Console ConsoleSpec Fbtext.

Open Scope Z_scope.

Lemma bytes_at_0 b p : bytes_at b p 0 = [].
Proof. done. Qed.

Section Spec.
Context (ft : font) (md : mode) (cols rows : Z).

Notation pb := (pixel_bytes md).
Notation w := (font_width_bytes ft md).
Notation h := (ft_height ft).
Notation pitch := (md_pitch md).

(** The sizes fit, and the font has its glyphs, with as many bytes behind them as
    another one would need, since the code takes the character with the number of
    glyphs to have one (the font of the repository has its table of code points there);
    the glyph of the space is empty. *)
Record mode_ok : Prop := {
  mo_bpp : md_bpp md = 16 \/ md_bpp md = 32;
  mo_font : 0 < ft_width ft /\ 0 < h;
  mo_cols : 0 < cols /\ pb * ft_width ft * cols <= pitch;
  mo_rows : 0 < rows /\ h * pitch * rows < 2 ^ 32;
  mo_glyphs : SPACE <= ft_num_glyphs ft < 2 ^ 31 /\ 0 <= ft_header_size ft /\ h * row_bytes ft <= ft_bytes_per_glyph ft /\
    ft_header_size ft + (ft_num_glyphs ft + 1) * ft_bytes_per_glyph ft <= Z.of_nat (length (ft_data ft));
  mo_space : forall j i, Z.of_nat j < h -> Z.of_nat i < ft_width ft -> glyph_bit ft SPACE j i = false;
}.

Definition fb_ok (fb : list Z) : Prop := h * pitch * rows <= Z.of_nat (length fb).

Context (M : mode_ok).

Lemma pixel_length col : Z.of_nat (length (pixel md col)) = pb.
Proof. unfold pixel, pixel_bytes. destruct (mo_bpp M) as [-> | ->]; done. Qed.

Lemma pb_pos : 0 < pb.
Proof. unfold pixel_bytes. destruct (mo_bpp M) as [-> | ->]; done. Qed.

Lemma pitch_bound : 0 < pb * ft_width ft <= pitch /\ 0 < h * pitch < 2 ^ 32 /\ pitch <= h * pitch.
Proof.
  destruct (mo_cols M) as [H1 H2]. destruct (mo_rows M) as [H3 H4]. destruct (mo_font M) as [H5 H6]. pose proof pb_pos.
  assert (0 < pb * ft_width ft) by nia. assert (pb * ft_width ft <= pitch) by nia. assert (pitch <= h * pitch) by nia.
  assert (h * pitch * 1 <= h * pitch * rows) by (apply Z.mul_le_mono_nonneg_l; nia). lia.
Qed.

Lemma w_eq : w = pb * ft_width ft.
Proof. pose proof pitch_bound. apply u32_small. lia. Qed.

Lemma hp_eq : font_height_pitch ft md = h * pitch.
Proof. pose proof pitch_bound. apply u32_small. lia. Qed.

Lemma sizes : 0 < w /\ w * cols <= pitch /\ 0 < h /\ 0 < cols /\ 0 < rows /\ h * pitch * rows < 2 ^ 32 /\ 0 < pitch.
Proof.
  rewrite w_eq. destruct (mo_cols M) as [H1 H2]. destruct (mo_rows M) as [H3 H4]. destruct (mo_font M) as [H5 H6]. pose proof pb_pos. split_and!; try done; nia.
Qed.

(** * Painting rows *)

(** From [p] on, rows of [n] bytes have been painted, a pitch apart, and nothing else. *)
Definition painted (fb fb' : list Z) (p n : Z) (rs : list (list Z)) : Prop :=
  length fb' = length fb /\
  (forall j r, rs !! j = Some r -> bytes_at fb' (p + Z.of_nat j * pitch) n = r) /\
  (forall k, (forall j, (j < length rs)%nat -> Z.of_nat k < p + Z.of_nat j * pitch \/ p + Z.of_nat j * pitch + n <= Z.of_nat k) -> fb' !! k = fb !! k).

Lemma painted_nil fb p n : painted fb fb p n [].
Proof. by split_and!. Qed.

(** One row, then the others. *)
Lemma painted_cons fb fb1 fb2 p n r rs :
  0 <= p -> 0 <= n <= pitch -> length fb1 = length fb -> bytes_at fb1 p n = r ->
  (forall k, Z.of_nat k < p \/ p + n <= Z.of_nat k -> fb1 !! k = fb !! k) -> painted fb1 fb2 (p + pitch) n rs -> painted fb fb2 p n (r :: rs).
Proof.
  intros Hp Hn Hl Hr Hs (Hl2 & Hr2 & Hs2). split; [congruence |]. split.
  - intros [| j] r' E.
    + injection E as <-. rewrite <- Hr. replace (p + Z.of_nat 0 * pitch) with p by lia. apply same_on_bytes; [done |]. intros k Hk. apply Hs2. intros j Hj. nia.
    + cbn in E. rewrite <- (Hr2 j r' E). f_equal. lia.
  - intros k Hk. rewrite Hs2.
    + apply Hs. specialize (Hk O ltac:(cbn; lia)). lia.
    + intros j Hj. specialize (Hk (S j) ltac:(cbn; lia)). lia.
Qed.

Lemma clear_rows_ok n fb p size :
  0 <= p -> 0 <= size <= pitch -> (0 < n)%nat -> p + (Z.of_nat n - 1) * pitch + size <= Z.of_nat (length fb) ->
  exists fb', clear_rows md n fb p size = Ret fb' /\ painted fb fb' p size (replicate n (replicate (Z.to_nat size) 0)).
Proof.
  revert fb p. induction n as [| n IH]; intros fb p Hp Hs Hn Hl; [lia |]. cbn [clear_rows replicate].
  destruct (store_bytes_spec fb p (replicate (Z.to_nat size) 0)) as (fb1 & -> & Hl1 & Hb1 & Hs1); [done | rewrite length_replicate; nia |].
  rewrite length_replicate in Hb1, Hs1. rewrite Z2Nat.id in Hb1, Hs1 by lia. rewrite bind_Ret. destruct n as [| n].
  - exists fb1. split; [done |]. eapply painted_cons; [done | done | done | done | done | apply painted_nil].
  - destruct (IH fb1 (p + pitch)) as (fb2 & -> & HP); [lia | done | lia | rewrite Hl1; lia |]. exists fb2. split; [done |]. by eapply painted_cons.
Qed.

(** * Glyphs *)

Definition at_pixel (i bi br b0 : Z) : Prop := (if br <? 0 then (bi + 1, 7) else (bi, br)) = (b0 + i / 8, 7 - i mod 8).

Lemma at_pixel_next i b0 : 0 <= i -> at_pixel (i + 1) (b0 + i / 8) (7 - i mod 8 - 1) b0.
Proof.
  intros Hi. unfold at_pixel. destruct (Z.ltb_spec (7 - i mod 8 - 1) 0); f_equal; Z.to_euclidean_division_equations; lia.
Qed.

(** The colour of a pixel. *)
Definition bit_at (glyph b0 : Z) (i : nat) : bool :=
  nz (bit_get (default 0 (ft_data ft !! Z.to_nat (glyph + (b0 + Z.of_nat i / 8)))) (7 - Z.of_nat i mod 8)).

Lemma glyph_row_ok n i fb p glyph bi br b0 fg bg :
  at_pixel (Z.of_nat i) bi br b0 -> 0 <= glyph + b0 -> 0 <= p -> p + Z.of_nat n * pb <= Z.of_nat (length fb) ->
  (n = O \/ glyph + (b0 + (Z.of_nat i + Z.of_nat n - 1) / 8) < Z.of_nat (length (ft_data ft))) ->
  exists fb' last, glyph_row ft md n fb p glyph bi br fg bg = Ret (fb', last) /\ last = (if Nat.eqb n 0 then bi else b0 + (Z.of_nat i + Z.of_nat n - 1) / 8) /\
    length fb' = length fb /\ bytes_at fb' p (Z.of_nat n * pb) = concat (map (fun t => pixel md (if bit_at glyph b0 t then fg else bg)) (seq i n)) /\
    (forall k, Z.of_nat k < p \/ p + Z.of_nat n * pb <= Z.of_nat k -> fb' !! k = fb !! k).
Proof.
  pose proof pb_pos as Hpb. revert i fb p bi br. induction n as [| n IH]; intros i fb p bi br Ha Hg Hp Hl Hd; cbn [glyph_row].
  { by exists fb, bi. }
  unfold at_pixel in Ha. destruct (if br <? 0 then (bi + 1, 7) else (bi, br)) as [nb nr]. injection Ha as -> ->.
  destruct Hd as [| Hd]; [lia |]. assert (0 <= Z.of_nat i / 8) by (apply Z.div_pos; lia).
  assert (Z.of_nat i / 8 <= (Z.of_nat i + Z.of_nat (S n) - 1) / 8) by (apply Z.div_le_mono; lia).
  destruct (aload_in (ft_data ft) (glyph + (b0 + Z.of_nat i / 8))) as (b & -> & Eb); [lia |]. rewrite bind_Ret.
  assert (nz (bit_get b (7 - Z.of_nat i mod 8)) = bit_at glyph b0 i) as -> by (unfold bit_at; by rewrite Eb). unfold setpixel.
  set (px := pixel md _). assert (Z.of_nat (length px) = pb) as Hpx by apply pixel_length.
  destruct (store_bytes_spec fb p px) as (fb1 & -> & Hl1 & Hb1 & Hs1); [done | lia |]. rewrite Hpx in Hb1, Hs1. rewrite bind_Ret.
  destruct (IH (S i) fb1 (p + pb) (b0 + Z.of_nat i / 8) (7 - Z.of_nat i mod 8 - 1)) as (fb2 & last & -> & Hlast & Hl2 & Hb2 & Hs2); [| done | lia | lia | |].
  { replace (Z.of_nat (S i)) with (Z.of_nat i + 1) by lia. apply at_pixel_next. lia. }
  { destruct n; [by left | right]. replace (Z.of_nat (S i) + Z.of_nat (S n) - 1) with (Z.of_nat i + Z.of_nat (S (S n)) - 1) by lia. done. }
  exists fb2, last. split; [done |]. split; [| split; [congruence |]; split].
  - rewrite Hlast. destruct n; cbn [Nat.eqb]; do 2 f_equal; lia.
  - replace (Z.of_nat (S n) * pb) with (pb + Z.of_nat n * pb) by lia. rewrite bytes_at_app by lia. cbn [seq map concat]. rewrite Hb2. f_equal.
    transitivity (bytes_at fb1 p pb); [| exact Hb1]. apply same_on_bytes; [done |]. intros k Hk. apply Hs2. lia.
  - intros k Hk. rewrite Hs2 by lia. apply Hs1. lia.
Qed.

Lemma glyph_rows_ok n j fb p glyph fg bg :
  0 <= glyph -> 0 <= p -> (0 < n)%nat -> p + (Z.of_nat n - 1) * pitch + w <= Z.of_nat (length fb) ->
  glyph + (Z.of_nat j + Z.of_nat n) * row_bytes ft <= Z.of_nat (length (ft_data ft)) ->
  exists fb', glyph_rows ft md n fb p glyph (Z.of_nat j * row_bytes ft) fg bg = Ret fb' /\
    painted fb fb' p w (map (fun j => concat (map (fun i => pixel md (if bit_at glyph (Z.of_nat j * row_bytes ft) i then fg else bg))
      (seq 0 (Z.to_nat (ft_width ft))))) (seq j n)).
Proof.
  intros Hg. pose proof sizes as (Hw & Hwp & _ & Hc & _ & _ & Hpi). destruct (mo_font M) as [Hfw _]. pose proof w_eq as Ew.
  assert (1 <= row_bytes ft) as Hrb by (unfold row_bytes; Z.to_euclidean_division_equations; lia).
  assert ((ft_width ft - 1) / 8 + 1 = row_bytes ft) as Erb by (unfold row_bytes; Z.to_euclidean_division_equations; lia).
  revert j fb p. induction n as [| n IH]; intros j fb p Hp Hn Hl Hd; [lia |]. cbn [glyph_rows seq map].
  destruct (glyph_row_ok (Z.to_nat (ft_width ft)) 0 fb p glyph (Z.of_nat j * row_bytes ft) 7 (Z.of_nat j * row_bytes ft) fg bg)
    as (fb1 & last & -> & Hlast & Hl1 & Hb1 & Hs1).
  { unfold at_pixel. cbn [Z.ltb]. f_equal. change (Z.of_nat 0 / 8) with 0. lia. }
  { nia. } { done. } { nia. }
  { right. rewrite Z2Nat.id by lia. replace (Z.of_nat 0 + ft_width ft - 1) with (ft_width ft - 1) by lia. nia. }
  rewrite bind_Ret. destruct (Nat.eqb_spec (Z.to_nat (ft_width ft)) 0); [lia |]. rewrite Z2Nat.id in Hlast, Hb1, Hs1 by lia.
  replace (Z.of_nat 0 + ft_width ft - 1) with (ft_width ft - 1) in Hlast by lia. replace (ft_width ft * pb) with w in Hb1, Hs1 by lia.
  replace (last + 1) with (Z.of_nat (S j) * row_bytes ft) by lia.
  assert (w <= pitch) by nia. destruct n as [| n].
  - exists fb1. split; [done |]. eapply painted_cons; [done | lia | done | exact Hb1 | done | apply painted_nil].
  - destruct (IH (S j) fb1 (p + pitch)) as (fb2 & -> & HP); [lia | lia | rewrite Hl1; lia | lia |]. exists fb2. split; [done |].
    eapply painted_cons; [done | lia | done | exact Hb1 | done | exact HP].
Qed.

(** * Cells *)

Lemma cell_ptr_eq x y : cell_ptr ft md x y = y * h * pitch + x * w.
Proof. unfold cell_ptr. rewrite hp_eq. lia. Qed.

Lemma cell_fits fb x y : fb_ok fb -> 0 <= x < cols -> 0 <= y < rows ->
  0 <= cell_ptr ft md x y /\ cell_ptr ft md x y + (h - 1) * pitch + w <= Z.of_nat (length fb).
Proof.
  unfold fb_ok. intros Hf Hx Hy. pose proof sizes as (Hw & Hwp & Hh & Hc & Hr & Hm & Hpi). rewrite cell_ptr_eq. split; [nia |].
  assert ((x + 1) * w <= pitch) by nia. assert ((y + 1) * (h * pitch) <= rows * (h * pitch)) by (apply Z.mul_le_mono_nonneg_r; nia). nia.
Qed.

(** Two places on the screen are the same only if their rows and columns are. *)
Lemma place_inj a b c d : 0 <= b < pitch -> 0 <= d < pitch -> a * pitch + b = c * pitch + d -> a = c /\ b = d.
Proof. intros Hb Hd E. assert (a = c) as ->; [| lia]. destruct (Z.lt_trichotomy a c) as [L | [-> | L]]; [nia | done | nia]. Qed.

(** Painting in some columns [a] to [a + n] of the cells of row [y]: what is left of or
    right of them, and the other rows, are as before. *)
Lemma painted_other fb fb' y a n rs x' y' :
  painted fb fb' (y * h * pitch + a) n rs -> (length rs <= Z.to_nat h)%nat -> 0 <= a -> 0 < n -> a + n <= pitch -> 0 <= y ->
  0 <= x' < cols -> 0 <= y' -> (y' <> y \/ (x' + 1) * w <= a \/ a + n <= x' * w) -> cell_rows ft md fb' x' y' = cell_rows ft md fb x' y'.
Proof.
  intros (Hl & _ & Hs) Hrs Ha Hn Hap Hy Hx' Hy' Hd. pose proof sizes as (Hw & Hwp & Hh & Hc & Hr & Hm & Hpi). unfold cell_rows.
  apply map_ext_in. intros j Hj. apply in_seq in Hj. rewrite !cell_ptr_eq. apply same_on_bytes; [nia |]. intros k Hk. apply Hs. intros j0 Hj0.
  destruct (decide (Z.of_nat k < y * h * pitch + a + Z.of_nat j0 * pitch)); [by left |]. right.
  destruct (decide (y * h * pitch + a + Z.of_nat j0 * pitch + n <= Z.of_nat k)); [done |]. exfalso.
  assert ((x' + 1) * w <= pitch) by nia.
  destruct (place_inj (y * h + Z.of_nat j0) (Z.of_nat k - (y * h + Z.of_nat j0) * pitch) (y' * h + Z.of_nat j) (Z.of_nat k - (y' * h + Z.of_nat j) * pitch)) as [E1 E2];
    [split; nia | split; nia | lia |].
  assert (y = y') as -> by nia. assert (j0 = j) as -> by lia. nia.
Qed.

Lemma painted_cell fb fb' x y rs :
  painted fb fb' (cell_ptr ft md x y) w rs -> length rs = Z.to_nat h -> cell_rows ft md fb' x y = rs.
Proof.
  intros (_ & Hr & _) Hl. unfold cell_rows. apply list_eq. intros j. rewrite list_lookup_fmap. destruct (rs !! j) as [r |] eqn:E.
  - pose proof (lookup_lt_Some _ _ _ E). rewrite lookup_seq_lt by lia. cbn. f_equal. rewrite <- (Hr j r E). done.
  - apply lookup_ge_None in E. rewrite lookup_seq_ge by lia. done.
Qed.

(** The glyph of a character. *)
Definition glyph_of (chr : Z) : Z := if ft_num_glyphs ft <? u32 chr then 0 else s32 chr.

Lemma glyph_range chr : 0 <= glyph_of chr <= ft_num_glyphs ft.
Proof.
  destruct (mo_glyphs M) as ([H1 H2] & _). change SPACE with 32 in H1. unfold glyph_of. destruct (Z.ltb_spec (ft_num_glyphs ft) (u32 chr)); [lia |].
  unfold s32. pose proof (Z.mod_pos_bound chr (2 ^ 32) ltac:(lia)). change (chr mod 2 ^ 32) with (u32 chr) in *. destruct (Z.ltb_spec (u32 chr) (2 ^ 31)); lia.
Qed.

Lemma write_cell fb x y chr fg bg : fb_ok fb -> 0 <= x < cols -> 0 <= y < rows ->
  exists fb', gfx_fbtext_write ft md fb x y chr fg bg = Ret fb' /\ painted fb fb' (cell_ptr ft md x y) w (picture ft md chr fg bg) /\
    length (picture ft md chr fg bg) = Z.to_nat h.
Proof.
  intros Hf Hx Hy. destruct (cell_fits fb x y Hf Hx Hy) as [Hp Hl]. pose proof sizes as (Hw & Hwp & Hh & Hc & Hr & Hm & Hpi).
  pose proof (glyph_range chr) as Hg. destruct (mo_glyphs M) as (_ & Hhd & Hbg & Hdl). unfold gfx_fbtext_write, picture. fold (glyph_of chr).
  destruct (_ && _).
  - destruct (clear_rows_ok (Z.to_nat h) fb (cell_ptr ft md x y) w) as (fb' & -> & HP); [lia | nia | lia | lia |].
    exists fb'. split; [done |]. split; [done |]. by rewrite length_replicate.
  - destruct (if md_bpp md =? 16 then _ else _) as [fg' bg']. set (g := ft_header_size ft + glyph_of chr * ft_bytes_per_glyph ft).
    assert (0 <= ft_bytes_per_glyph ft) as Hb0.
    { assert (0 <= row_bytes ft) by (unfold row_bytes; destruct (mo_font M); apply Z.div_pos; lia). nia. }
    destruct (glyph_rows_ok (Z.to_nat h) 0 fb (cell_ptr ft md x y) g fg' bg') as (fb' & E & HP); [nia | lia | lia | lia | |].
    { assert ((glyph_of chr + 1) * ft_bytes_per_glyph ft <= (ft_num_glyphs ft + 1) * ft_bytes_per_glyph ft) by (apply Z.mul_le_mono_nonneg_r; lia).
      rewrite Z2Nat.id by lia. replace (Z.of_nat 0 + h) with h by lia. subst g. lia. }
    change (Z.of_nat 0 * row_bytes ft) with 0 in E. exists fb'. split; [exact E |]. split; [| by rewrite length_map, length_seq].
    erewrite map_ext; [exact HP |]. intros j. cbn beta. f_equal. apply map_ext. intros i. unfold glyph_bit, bit_at. fold g.
    by replace (g + Z.of_nat j * row_bytes ft + Z.of_nat i / 8) with (g + (Z.of_nat j * row_bytes ft + Z.of_nat i / 8)) by lia.
Qed.

Lemma cursor_loop_ok n i fb x y :
  0 <= x < cols -> 0 <= y -> 0 <= i -> (y * h + i) * pitch + x * w + (Z.of_nat n - 1) * pitch + pb <= Z.of_nat (length fb) -> (0 < n)%nat ->
  exists fb' rs, cursor_loop ft md n fb (x * ft_width ft) (y * h) i = Ret fb' /\ painted fb fb' ((y * h + i) * pitch + x * w) pb rs /\ length rs = n.
Proof.
  intros Hx Hy. pose proof pb_pos as Hpb. pose proof sizes as (Hw & Hwp & Hh & _ & _ & _ & Hpi). pose proof w_eq as Ew. destruct (mo_font M) as [Hfw _].
  assert (pb <= pitch) by nia. revert i fb. induction n as [| n IH]; intros i fb Hi Hl Hn; [lia |]. cbn [cursor_loop]. unfold setpixel.
  replace ((y * h + i) * pitch + x * ft_width ft * (md_bpp md / 8)) with ((y * h + i) * pitch + x * w) by (rewrite Ew; unfold pixel_bytes; lia).
  set (px := pixel md _). assert (Z.of_nat (length px) = pb) as Hpx by apply pixel_length. assert (0 <= (y * h + i) * pitch + x * w) by nia.
  destruct (store_bytes_spec fb ((y * h + i) * pitch + x * w) px) as (fb1 & -> & Hl1 & Hb1 & Hs1); [done | nia |]. rewrite Hpx in Hb1, Hs1. rewrite bind_Ret.
  destruct n as [| n].
  - exists fb1, [px]. split; [done |]. split; [| done]. eapply painted_cons; [done | lia | done | done | done | apply painted_nil].
  - destruct (IH (i + 1) fb1) as (fb2 & rs & -> & HP & Hlr); [lia | rewrite Hl1; lia | lia |]. exists fb2, (px :: rs). split; [done |].
    split; [| cbn; by rewrite Hlr]. eapply painted_cons; [done | lia | done | done | done |].
    by replace ((y * h + i) * pitch + x * w + pitch) with ((y * h + (i + 1)) * pitch + x * w) by lia.
Qed.

Lemma zeros_part b p n off m : 0 <= p -> 0 <= off -> 0 <= m -> off + m <= n -> bytes_at b p n = replicate (Z.to_nat n) 0 -> bytes_at b (p + off) m = replicate (Z.to_nat m) 0.
Proof.
  intros Hp Ho Hm Hn E. apply list_eq. intros i. rewrite lookup_bytes_at. destruct (decide (i < Z.to_nat m)%nat).
  - rewrite lookup_replicate_2 by done. pose proof (lookup_bytes_at b p n (Z.to_nat off + i)) as E2. rewrite E, lookup_replicate_2 in E2 by lia.
    rewrite decide_True in E2 by lia. rewrite E2. f_equal. lia.
  - symmetry. apply lookup_ge_None_2. rewrite length_replicate. lia.
Qed.

Lemma fb_ok_length fb fb' : fb_ok fb -> length fb' = length fb -> fb_ok fb'.
Proof. unfold fb_ok. by intros H ->. Qed.

Lemma clear_cells fb x y n : fb_ok fb -> 0 <= x -> 0 < n -> x + n <= cols -> 0 <= y < rows ->
  exists fb', gfx_fbtext_clear ft md fb x y n 1 = Ret fb' /\ fb_ok fb' /\
    forall x' y', 0 <= x' < cols -> 0 <= y' < rows ->
      cell_rows ft md fb' x' y' =
        if bool_decide (y' = y /\ x <= x' < x + n) then replicate (Z.to_nat h) (replicate (Z.to_nat w) 0) else cell_rows ft md fb x' y'.
Proof.
  intros Hf Hx Hn Hxn Hy. pose proof sizes as (Hw & Hwp & Hh & Hc & Hr & Hm & Hpi). pose proof pitch_bound as (_ & Hpb & Hph).
  destruct (cell_fits fb x y Hf ltac:(lia) Hy) as [Hp _]. destruct (cell_fits fb (x + n - 1) y Hf ltac:(lia) Hy) as [_ Hl]. rewrite cell_ptr_eq in *.
  unfold gfx_fbtext_clear. rewrite cell_ptr_eq, Z.mul_1_r, u32_small by nia.
  destruct (clear_rows_ok (Z.to_nat h) fb (y * h * pitch + x * w) (w * n)) as (fb' & -> & HP); [lia | nia | lia | nia |].
  exists fb'. split; [done |]. split; [eapply fb_ok_length; [done | apply HP] |]. intros x' y' Hx' Hy'. case_bool_decide as Hd.
  - destruct Hd as [-> Hd]. destruct HP as (_ & HP & _). unfold cell_rows. apply list_eq. intros j. rewrite list_lookup_fmap.
    destruct (decide (j < Z.to_nat h)%nat).
    + rewrite lookup_seq_lt, lookup_replicate_2 by lia. cbn. f_equal. rewrite cell_ptr_eq. specialize (HP j _ (lookup_replicate_2 (Z.to_nat h) _ j ltac:(lia))).
      replace (y * h * pitch + x' * w + Z.of_nat j * pitch) with (y * h * pitch + x * w + Z.of_nat j * pitch + (x' - x) * w) by lia.
      apply (zeros_part fb' (y * h * pitch + x * w + Z.of_nat j * pitch) (w * n)); [nia | nia | lia | nia | exact HP].
    + rewrite lookup_seq_ge by lia. cbn. symmetry. apply lookup_ge_None_2. rewrite length_replicate. lia.
  - eapply (painted_other fb fb' y (x * w) (w * n)); [exact HP | rewrite length_replicate; lia | nia | nia | nia | lia | done | lia |].
    destruct (decide (y' = y)) as [-> |]; [right | by left]. destruct (decide (x' < x)); [left; nia | right]. assert (x + n <= x') by lia. nia.
Qed.

Lemma cell_apart (x y x' y' n : Z) : 0 <= x < cols -> 0 <= x' < cols -> 0 < n <= w -> (x', y') <> (x, y) -> y' <> y \/ (x' + 1) * w <= x * w \/ x * w + n <= x' * w.
Proof.
  intros Hx Hx' Hn Hne. pose proof sizes as (Hw & _). destruct (decide (y' = y)) as [-> |]; [right | by left].
  destruct (Z.lt_trichotomy x' x) as [L | [-> | L]]; [left; nia | done | right; nia].
Qed.

Lemma fbtext_laws : @TextScreenLaws (list Z) (list (list Z)) (fbtext_screen ft md) fb_ok cols rows.
Proof.
  pose proof sizes as (Hw & Hwp & Hh & Hc & Hr & Hm & Hpi). pose proof pitch_bound as (Hpw & Hpb & Hph). pose proof pb_pos. destruct (mo_font M) as [Hfw _]. split.
  - intros fb x y c fg bg Hf Hx Hy. destruct (write_cell fb x y c fg bg Hf Hx Hy) as (fb' & E & HP & Hl). exists fb'. split; [exact E |].
    split; [eapply fb_ok_length; [done | apply HP] |]. split; [by apply (painted_cell fb) |]. intros x' y' Hx' Hy' Hne. rewrite cell_ptr_eq in HP.
    eapply (painted_other fb fb' y (x * w) w); [exact HP | by rewrite Hl | nia | lia | nia | lia | done | lia | apply cell_apart; done || lia].
  - exact clear_cells.
  - intros fb x y Hf Hx Hy. destruct (cell_fits fb x y Hf Hx Hy) as [Hp Hl]. rewrite cell_ptr_eq in *. cbn [fb_draw_cursor fbtext_screen]. unfold gfx_fbtext_draw_cursor.
    assert (x * ft_width ft < 2 ^ 32).
    { pose proof (proj2 (mo_cols M)). assert (x * ft_width ft <= pb * ft_width ft * cols) by nia. lia. }
    assert (y * h < 2 ^ 32) by nia. rewrite !u32_small by nia.
    destruct (cursor_loop_ok (Z.to_nat h) 0 fb x y) as (fb' & rs & E & HP & Hlr); [done | lia | lia | rewrite w_eq in *; nia | lia |].
    exists fb'. split; [exact E |]. split; [eapply fb_ok_length; [done | apply HP] |]. intros x' y' Hx' Hy' Hne. replace ((y * h + 0) * pitch + x * w) with (y * h * pitch + x * w) in HP by lia.
    assert (pb <= w) by (rewrite w_eq; nia).
    eapply (painted_other fb fb' y (x * w) pb); [exact HP | by rewrite Hlr | nia | lia | nia | lia | done | lia | apply cell_apart; done || lia].
  - intros fg fg' bg. cbn [fb_look fbtext_screen]. unfold picture. fold (glyph_of SPACE). assert (glyph_of SPACE = SPACE) as ->.
    { unfold glyph_of. destruct (mo_glyphs M) as ([H1 _] & _). change (u32 SPACE) with SPACE. destruct (Z.ltb_spec (ft_num_glyphs ft) SPACE); [lia | done]. }
    destruct (_ && _); [done |]. destruct (md_bpp md =? 16); apply map_ext_in; intros j Hj%in_seq; f_equal; apply map_ext_in; intros i Hi%in_seq; by rewrite (mo_space M) by lia.
  - intros fg. cbn [fb_look fb_blank fbtext_screen]. unfold picture. fold (glyph_of SPACE). assert (glyph_of SPACE = SPACE) as ->; [| done].
    unfold glyph_of. destruct (mo_glyphs M) as ([H1 _] & _). change (u32 SPACE) with SPACE. destruct (Z.ltb_spec (ft_num_glyphs ft) SPACE); [lia | done].
Qed.

End Spec.

(** C27: the text functions of the framebuffer keep the contract the console relies on:
    for every depth of 16 or 32 bits and all sizes of screen and font that fit,
    drawing a character gives its cell exactly the picture of the glyph in its
    colours, clearing gives blank cells, the cursor stays in its cell, and no
    function changes a pixel of another cell.  The font has bytes for one glyph more
    than it declares ([mode_ok]): the code draws these for the character with the
    number of glyphs. *)
Theorem fbtext_keeps_contract (ft : font) (md : mode) (cols rows : Z) :
  mode_ok ft md cols rows -> @TextScreenLaws (list Z) (list (list Z)) (fbtext_screen ft md) (fb_ok ft md rows) cols rows.
Proof. intros M. by apply fbtext_laws. Qed.

(** * A small screen *)

(** Glyphs of eight by two pixels: an exclamation mark, and nothing else. *)
Definition ex_font : font := Font 0 40 2 2 8 (replicate 66 0 ++ [0xff; 0x81] ++ replicate 14 0).
Definition ex_mode : mode := Mode 128 32 768 32 6.

Lemma ex_mode_ok : mode_ok ex_font ex_mode 4 3.
Proof.
  split; try (vm_compute; intuition congruence). intros j i Hj Hi. change (ft_height ex_font) with 2 in Hj. change (ft_width ex_font) with 8 in Hi.
  destruct j as [| [| j]]; [| | lia]; do 8 (destruct i as [| i]; [done |]); lia.
Qed.

Lemma fbtext_keeps_contract_witness : @TextScreenLaws (list Z) (list (list Z)) (fbtext_screen ex_font ex_mode) (fb_ok ex_font ex_mode 3) 4 3.
Proof. apply fbtext_keeps_contract. exact ex_mode_ok. Defined.

(** The exclamation mark in white: its second row has two pixels. *)
Lemma ex_picture :
  match gfx_fbtext_write ex_font ex_mode (replicate 768 7) 1 2 33 0xffffff 0 with
  | Ret fb => nth 1 (cell_rows ex_font ex_mode fb 1 2) [] = [255; 255; 255; 0] ++ replicate 24 0 ++ [255; 255; 255; 0] /\
              nth 1 (cell_rows ex_font ex_mode fb 2 2) [] = replicate 32 7
  | _ => False
  end.
Proof. vm_compute. split; reflexivity. Qed.

(** A character one past the last glyph is not replaced: the comparison should include
    equality.  Here the font ends with its glyphs. *)
Lemma last_glyph_plus_one :
  gfx_fbtext_write (Font 0 40 2 2 8 (replicate 80 0)) ex_mode (replicate 768 7) 0 0 40 0xffffff 0 = Fault.
Proof. vm_compute. reflexivity. Qed.

(** The first update of the console draws the whole screen. *)
Definition ex_line (s : list Z) : tmt_line := TLine true (map (fun c => Char c defattrs) s).
Definition ex_screen : tmt :=
  Tmt (Point 0 0) (Point 0 0) defattrs defattrs true false (Tmt.Screen 3 4 [ex_line [32; 33; 32; 32]; ex_line [32; 32; 32; 32]; ex_line [33; 32; 32; 33]])
    (ex_line [42; 32; 32; 42]) default_acs 0 (replicate 101 0) (Parser (replicate 8 0) 0 0 S_NUL false).
Definition ex_co : console (list Z) := Console (replicate 12 (Entry 0 0 0)) 4 0 0 (replicate 768 7).

Lemma console_update_correct_witness :
  exists vt' k', @tmt_callback _ _ (fbtext_screen ex_font ex_mode) (fun _ vt k => Ret (vt, k)) MSG_UPDATE ex_screen ex_co = Ret (vt', k') /\
    @fb_cell _ _ (fbtext_screen ex_font ex_mode) (co_fb k') 3 2 = @fb_look _ _ (fbtext_screen ex_font ex_mode) 33 0xfffff1f3 0.
Proof.
  destruct (@console_update_correct _ _ (fb_ok ex_font ex_mode 3) 4 3 (fbtext_screen ex_font ex_mode) (fbtext_laws ex_font ex_mode 4 3 ex_mode_ok)
    (fun _ vt k => Ret (vt, k)) ex_screen ex_co) as (vt' & k' & E & _ & _ & _ & _ & _ & Hcell).
  - split; try done; [by split; [| repeat constructor] | by split; [| apply Forall_replicate | |]].
  - split; [done | done |]. vm_compute. congruence.
  - intros x y e Hx Hy _ He Hn. destruct Hn. change (co_cache ex_co) with (replicate 12 (Entry 0 0 0)) in He. apply lookup_replicate in He as [-> _]. done.
  - intros y l Hl Hy [? | Hd]; [lia |]. change (lines ex_screen) with [ex_line [32; 33; 32; 32]; ex_line [32; 32; 32; 32]; ex_line [33; 32; 32; 33]] in Hl.
    apply list_elem_of_lookup_2 in Hl. rewrite !elem_of_cons, elem_of_nil in Hl. by destruct Hl as [-> | [-> | [-> | []]]].
  - exists vt', k'. split; [exact E |].
    apply (Hcell 3 2 (ex_line [33; 32; 32; 33]) (Char 33 defattrs)); [done | done | lia | lia | discriminate | done].
Defined.
