(* ===== verification/Virtio.v ===== *)
(** Virtio: the queues of src/src/bsp/virtio.c and virtio.h, and the block driver of
    src/src/block/virtio.c.

    A request is a chain of descriptors in a ring; the driver writes the chain, puts
    its head into the ring of available chains and tells the device.  [chain] is how
    a device reads it.  The driver of block devices sends a header, the data and a
    byte for the status, and waits until the status has been written: [env i] is what
    the device and the other tasks do during the [i]-th [scheduler_yield]. *)
From stdpp Require Import base numbers list.
From Stdlib Require Import ZArith Lia Bool.
From S2P Require Import Prelude Str Bytes.

Open Scope Z_scope.

Definition VIRTQ_DESC_F_NEXT : Z := 1.
Definition VIRTQ_DESC_F_WRITE : Z := 2.
Definition VIRTIO_PCI_STATUS_RESET : Z := 0.
Definition VIRTIO_PCI_STATUS_ACKNOWLEDGE : Z := 1.
Definition VIRTIO_PCI_STATUS_DRIVER : Z := 2.
Definition VIRTIO_PCI_STATUS_DRIVER_OK : Z := 4.
Definition VIRTIO_PCI_STATUS_FEATURES_OK : Z := 8.
Definition VIRTIO_PCI_STATUS_FAILED : Z := 0x80.
Definition VIRTIO_IO_DEV_FEATURE : Z := 0.
Definition VIRTIO_IO_DRV_FEATURE : Z := 4.
Definition VIRTIO_IO_QUEUE_PFN : Z := 8.
Definition VIRTIO_IO_QUEUE_SIZE : Z := 12.
Definition VIRTIO_IO_QUEUE_SELECT : Z := 14.
Definition VIRTIO_IO_NOTIFY : Z := 0x10.
Definition VIRTIO_IO_STATUS : Z := 18.

(** [struct virtq_desc] *)
Record virtq_desc : Type := Desc { vd_addr : Z; vd_len : Z; vd_flags : Z; vd_next : Z }.

(** [struct virtqueue]; the ring of available chains is [vq_ring] with its [vq_idx].
    The ring of used chains is the device's. *)
Record virtqueue : Type := Queue {
  vq_descriptors : list virtq_desc;
  vq_ring : list Z;
  vq_idx : Z;
  vq_id : Z;
  vq_size : Z;
  vq_desc_index : Z;
}.

Implicit Types q : virtqueue.

Definition q_set_desc q (d : list virtq_desc) (i : Z) : virtqueue := Queue d (vq_ring q) (vq_idx q) (vq_id q) (vq_size q) i.
Definition q_set_ring q (r : list Z) (i : Z) : virtqueue := Queue (vq_descriptors q) r i (vq_id q) (vq_size q) (vq_desc_index q).

(** A buffer: its address, length and flags. *)
Record vbuf : Type := VBuf { vb_addr : Z; vb_len : Z; vb_flags : Z }.

(** The loop of [write_desc_chain] over the buffers that are left; [nonnull] says that
    there are flags. *)
Fixpoint chain_loop q (nonnull : bool) (l : list vbuf) : outcome virtqueue :=
  match l with
  | [] => Ret q
  | b :: l =>
    let i := vq_desc_index q in
    let next := (i + 1) mod vq_size q in
    let flags := if nonnull then u16 (vb_flags b) else 0 in
    let d := match l with
             | [] => Desc (vb_addr b) (u32 (vb_len b)) flags 0
             | _ => Desc (vb_addr b) (u32 (vb_len b)) (Z.lor flags VIRTQ_DESC_F_NEXT) (u16 next)
             end in
    ds ← astore (vq_descriptors q) i d;
    chain_loop (q_set_desc q ds next) nonnull l
  end.

Definition write_desc_chain q (nonnull : bool) (l : list vbuf) : outcome (Z * virtqueue) :=
  let desc_head := vq_desc_index q in
  q ← chain_loop q nonnull l;
  Ret (desc_head, q).

(** The queue, and the number that is written to the port of the device. *)
Definition virtio_write_avail q (desc_no : Z) : outcome (virtqueue * Z) :=
  ring ← astore (vq_ring q) (vq_idx q mod vq_size q) (u16 desc_no);
  Ret (q_set_ring q ring (u16 (vq_idx q + 1)), vq_id q).

Definition virtio_write q (nonnull : bool) (l : list vbuf) : outcome (Z * virtqueue * Z) :=
  '(head, q) ← write_desc_chain q nonnull l;
  '(q, note) ← virtio_write_avail q head;
  Ret (head, q, note).

(** Buffers for the device to write to; the address of each comes from [kmalloc]. *)
Fixpoint provide_loop q (size i : Z) (bufs : list Z) : outcome virtqueue :=
  match bufs with
  | [] => Ret q
  | buf :: bufs =>
    '(desc, q) ← write_desc_chain q true [VBuf buf size VIRTQ_DESC_F_WRITE];
    ring ← astore (vq_ring q) ((vq_idx q + i) mod vq_size q) (u16 desc);
    provide_loop (q_set_ring q ring (vq_idx q)) size (i + 1) bufs
  end.

Definition virtio_provide_descs q (size : Z) (bufs : list Z) : outcome (virtqueue * Z) :=
  q ← provide_loop q size 0 bufs;
  Ret (q_set_ring q (vq_ring q) (u16 (vq_idx q + Z.of_nat (length bufs))), vq_id q).

(** * Setting up a device *)

(** The ports of the device. *)
Class VirtioPorts (H : Type) : Type := {
  vp_in : H -> Z -> Z * H;
  vp_out : H -> Z -> Z -> H;
}.

Record virtio_dev : Type := VDev { vv_features : Z; vv_status : Z; vv_queues : list virtqueue }.

Section Init.
Context {H : Type} `{VirtioPorts H}.

Definition virtio_write_status (h : H) (dev : virtio_dev) : H := vp_out h VIRTIO_IO_STATUS (vv_status dev).

Definition negotiate_features (h : H) (dev : virtio_dev) (want_cap : Z) : bool * virtio_dev * H :=
  let '(features, h) := vp_in h VIRTIO_IO_DEV_FEATURE in
  let dev := VDev (Z.land features want_cap) (Z.lor (vv_status dev) VIRTIO_PCI_STATUS_FEATURES_OK) (vv_queues dev) in
  let h := vp_out h VIRTIO_IO_DRV_FEATURE (vv_features dev) in
  let h := virtio_write_status h dev in
  let '(status, h) := vp_in h VIRTIO_IO_STATUS in
  (has_flag status VIRTIO_PCI_STATUS_FEATURES_OK, dev, h).

(** The sizes of the three parts of a queue of [n] descriptors. *)
Definition desc_size (n : Z) : Z := ALIGN (n * 16) 4.
Definition available_size (n : Z) : Z := ALIGN (n * 2 + 6) PAGE_SIZE.
Definition used_size (n : Z) : Z := n * 8 + 6.

(** [alloc]: [zmalloc_a] gives the address of the memory. *)
Definition setup_virtqueue (alloc : Z -> Z) (h : H) (queue_id : Z) : option virtqueue * H :=
  let h := vp_out h VIRTIO_IO_QUEUE_SELECT queue_id in
  let '(size, h) := vp_in h VIRTIO_IO_QUEUE_SIZE in
  if size <? 1 then (None, h) else
  let buf := alloc (desc_size size + available_size size + used_size size) in
  let h := vp_out h VIRTIO_IO_QUEUE_PFN (Z.shiftr buf 12) in
  (Some (Queue (replicate (Z.to_nat size) (Desc 0 0 0 0)) (replicate (Z.to_nat size) 0) 0 queue_id size 0), h).

Fixpoint setup_loop (alloc : Z -> Z) (n : nat) (h : H) (i : Z) : option (list virtqueue) * H :=
  match n with
  | O => (Some [], h)
  | S n =>
    let '(q, h) := setup_virtqueue alloc h i in
    match q with
    | None => (None, h)
    | Some q => let '(r, h) := setup_loop alloc n h (i + 1) in (option_map (cons q) r, h)
    end
  end.

Definition virtio_init_dev (alloc : Z -> Z) (h : H) (cap queues : Z) : option virtio_dev * H :=
  let dev := VDev 0 VIRTIO_PCI_STATUS_RESET [] in
  let h := virtio_write_status h dev in
  let '(status, h) := vp_in h VIRTIO_IO_STATUS in
  if nz status then (None, h) else
  let dev := VDev 0 (Z.lor VIRTIO_PCI_STATUS_ACKNOWLEDGE VIRTIO_PCI_STATUS_DRIVER) [] in
  let h := virtio_write_status h dev in
  let '(ok, dev, h) := negotiate_features h dev cap in
  let failed h := virtio_write_status h (VDev (vv_features dev) VIRTIO_PCI_STATUS_FAILED []) in
  if negb (ok : bool) then (None, failed h) else
  let '(r, h) := setup_loop alloc (Z.to_nat queues) h 0 in
  match r with
  | None => (None, failed h)
  | Some qs => (Some (VDev (vv_features dev) (vv_status dev) qs), h)
  end.

End Init.

(** * The block driver *)

Definition VIRTIO_BLK_F_RO : Z := 32.
Definition VIRTIO_BLK_T_IN : Z := 0.
Definition VIRTIO_BLK_T_OUT : Z := 1.
Definition VIRTIO_BLK_S_OK : Z := 0.
Definition ERR64 : Z := u64 (-1).

(** The device structure with its one queue, the physical memory and the disk. *)
Record vblk : Type := VBlk {
  vk_features : Z;
  vk_status : Z;
  vk_queue : virtqueue;
  vk_mem : list Z;
  vk_disk : list Z;
}.

Implicit Types v : vblk.

Definition vk_set_mem v (m : list Z) : vblk := VBlk (vk_features v) (vk_status v) (vk_queue v) m (vk_disk v).
Definition vk_set_queue v q : vblk := VBlk (vk_features v) (vk_status v) q (vk_mem v) (vk_disk v).

(** [struct virtio_blk_req] *)
Definition blk_req (type lba : Z) : list Z := le_bytes 4 type ++ le_bytes 4 0 ++ le_bytes 8 lba.

Section Blk.
(** [valloc_translate(VM_KERNEL, ...)], 0 for an address that is not mapped, and the
    addresses of [hdr] and [status] on the stack. *)
Context (translate : Z -> Z) (hdr status : Z).
Context (patience : nat) (env : nat -> vblk -> vblk).

(** [while(status == 0xff) scheduler_yield();] *)
Fixpoint wait_status (n i : nat) v : outcome (Z * vblk) :=
  s ← aload (vk_mem v) (translate status);
  if negb (s =? 0xff) then Ret (s, v) else
  match n with
  | O => Spin
  | S n => wait_status n (S i) (env i v)
  end.

Definition send_request v (type lba num_blocks buf : Z) : outcome (Z * vblk) :=
  if num_blocks <? 1 then Ret (ERR64, v) else
  if negb (has_flag (vk_status v) VIRTIO_PCI_STATUS_DRIVER_OK) then Ret (ERR64, v) else
  if (translate hdr =? 0) || (translate buf =? 0) || (translate status =? 0) then Ret (ERR64, v) else
  m ← store_bytes (vk_mem v) (translate hdr) (blk_req type lba);
  m ← astore m (translate status) 0xff;
  let v := vk_set_mem v m in
  let user_buffer_flag := if type =? VIRTIO_BLK_T_IN then VIRTQ_DESC_F_WRITE else 0 in
  '(r, q, _) ← virtio_write (vk_queue v) true
    [VBuf (translate hdr) 16 0; VBuf (translate buf) (u32 (num_blocks * 512)) user_buffer_flag; VBuf (translate status) 1 VIRTQ_DESC_F_WRITE];
  let v := vk_set_queue v q in
  if s32 r <? 0 then Ret (ERR64, v) else
  '(s, v) ← wait_status patience 0 v;
  if negb (s =? VIRTIO_BLK_S_OK) then Ret (ERR64, v) else Ret (num_blocks, v).

Fixpoint read_loop (n : nat) v (lba num_blocks buf i : Z) : outcome (Z * vblk) :=
  match n with
  | O => Ret (num_blocks, v)
  | S n =>
    '(r, v) ← send_request v VIRTIO_BLK_T_IN (u64 (lba + i)) 1 (u32 (buf + u32 i * 512));
    if r =? ERR64 then Ret (i, v) else read_loop n v lba num_blocks buf (i + 1)
  end.

Definition virtio_read_cb v (lba num_blocks buf : Z) : outcome (Z * vblk) :=
  if num_blocks <? 16 then send_request v VIRTIO_BLK_T_IN lba num_blocks buf
  else read_loop (Z.to_nat num_blocks) v lba num_blocks buf 0.

Definition virtio_write_cb v (lba num_blocks buf : Z) : outcome (Z * vblk) :=
  if has_flag (vk_features v) VIRTIO_BLK_F_RO then Ret (ERR64, v) else send_request v VIRTIO_BLK_T_OUT lba num_blocks buf.

End Blk.

(** * The device *)

(** How a device reads a chain: by the [next] of descriptors with the flag for it. *)
Fixpoint chain (fuel : nat) q (i : Z) : option (list vbuf) :=
  match fuel with
  | O => None
  | S fuel =>
    d ← vq_descriptors q !! Z.to_nat i;
    let b := VBuf (vd_addr d) (vd_len d) (Z.land (vd_flags d) (Z.lnot VIRTQ_DESC_F_NEXT)) in
    if has_flag (vd_flags d) VIRTQ_DESC_F_NEXT then l ← chain fuel q (vd_next d); Some (b :: l) else Some [b]
  end.

(** The chain that was made available last. *)
Definition newest q : option (list vbuf) :=
  head ← vq_ring q !! Z.to_nat ((vq_idx q - 1) mod vq_size q);
  chain (length (vq_descriptors q)) q head.

(** The standard's block device at work on a request: the header, the data and the
    status.  Reads and writes of whole sectors inside the disk. *)
Definition serve v : option vblk :=
  l ← newest (vk_queue v);
  match l with
  | [h; d; s] =>
    let hdr := bytes_at (vk_mem v) (vb_addr h) 16 in
    let type := le_at 4 hdr 0 in
    let pos := le_at 8 (drop 8 hdr) 0 * 512 in
    let m := vk_mem v in
    if type =? VIRTIO_BLK_T_IN then
      if has_flag (vb_flags d) VIRTQ_DESC_F_WRITE then
        Some (vk_set_mem v (splice (splice m (vb_addr d) (bytes_at (vk_disk v) pos (vb_len d))) (vb_addr s) [VIRTIO_BLK_S_OK]))
      else None
    else
      Some (VBlk (vk_features v) (vk_status v) (vk_queue v) (splice m (vb_addr s) [VIRTIO_BLK_S_OK])
        (splice (vk_disk v) pos (bytes_at m (vb_addr d) (vb_len d))))
  | _ => None
  end.
