(* ===== verification/VirtioSpec.v ===== *)
(** A request arrives: what the driver puts into the queue is what a device finds
    there, and reading blocks through the queue gives the blocks of the disk. *)
From stdpp Require Import base numbers list.
From Stdlib Require Import ZArith Lia Bool.
From S2P Require Import Prelude Str Bytes Virtio.

Open Scope Z_scope.

(** * Queues *)

Record queue_ok (q : virtqueue) : Prop := {
  qo_size : 0 < vq_size q <= 2 ^ 15 /\ 2 ^ 16 mod vq_size q = 0;
  qo_descriptors : Z.of_nat (length (vq_descriptors q)) = vq_size q;
  qo_ring : Z.of_nat (length (vq_ring q)) = vq_size q;
  qo_index : 0 <= vq_desc_index q < vq_size q;
  qo_idx : 0 <= vq_idx q < 2 ^ 16;
}.

(** Buffers with the flags the drivers use. *)
Definition buf_ok (b : vbuf) : Prop := 0 <= vb_len b < 2 ^ 32 /\ (vb_flags b = 0 \/ vb_flags b = VIRTQ_DESC_F_WRITE).

Lemma mod_shift a t n : 0 <= a < n -> 0 < t < n -> (a + t) mod n <> a.
Proof.
  intros Ha Ht. destruct (decide (a + t < n)); [rewrite Z.mod_small by lia; lia |].
  replace (a + t) with (a + t - n + 1 * n) by lia. rewrite Z.mod_add, Z.mod_small by lia. lia.
Qed.

Lemma chain_loop_ok q l :
  queue_ok q -> Z.of_nat (length l) <= vq_size q -> Forall buf_ok l ->
  exists q', chain_loop q true l = Ret q' /\ queue_ok q' /\ vq_ring q' = vq_ring q /\ vq_idx q' = vq_idx q /\ vq_size q' = vq_size q /\ vq_id q' = vq_id q /\
    (forall i, (forall t, 0 <= t < Z.of_nat (length l) -> i <> (vq_desc_index q + t) mod vq_size q) -> 0 <= i -> vq_descriptors q' !! Z.to_nat i = vq_descriptors q !! Z.to_nat i) /\
    (l <> [] -> forall fuel, (length l <= fuel)%nat -> chain fuel q' (vq_desc_index q) = Some l).
Proof.
  intros Hq Hl Hb. revert q Hq Hl. induction Hb as [| b l Hb0 Hb IH]; intros q Hq Hl; cbn [chain_loop]; [by exists q |].
  pose proof Hq as [[Hs Hs16] Hd Hr Hi Hx]. rewrite astore_in by lia. rewrite bind_Ret. set (nxt := (vq_desc_index q + 1) mod vq_size q).
  pose proof (Z.mod_pos_bound (vq_desc_index q + 1) (vq_size q) ltac:(lia)) as Hn. fold nxt in Hn.
  set (d := match l with [] => _ | _ => _ end). set (q1 := q_set_desc q (<[Z.to_nat (vq_desc_index q) := d]> (vq_descriptors q)) nxt).
  assert (queue_ok q1) as Hq1 by (split; cbn; rewrite ?length_insert; done). cbn [length] in Hl.
  destruct (IH q1 Hq1) as (q' & -> & Hq' & Er & Ex & Es & Eid & Hsame & Hch); [cbn; lia |]. exists q'.
  split; [done |]. split; [done |]. split_and!; try done.
  - intros i Hne Hi0. rewrite Hsame; [| | done].
    + cbn [vq_descriptors q1 q_set_desc]. apply list_lookup_insert_ne. specialize (Hne 0 ltac:(cbn; lia)). rewrite Z.add_0_r, Z.mod_small in Hne by lia. lia.
    + intros t Ht. cbn [vq_desc_index vq_size q1 q_set_desc]. subst nxt. rewrite Zplus_mod_idemp_l. replace (vq_desc_index q + 1 + t) with (vq_desc_index q + (t + 1)) by lia.
      apply Hne. cbn. lia.
  - intros _ fuel Hf. destruct fuel as [| fuel]; [cbn in Hf; lia |]. cbn [chain].
    assert (vq_descriptors q' !! Z.to_nat (vq_desc_index q) = Some d) as ->.
    { rewrite Hsame; [| | lia]; [cbn [vq_descriptors q1 q_set_desc]; apply list_lookup_insert_eq; lia |]. intros t Ht. cbn [vq_desc_index vq_size q1 q_set_desc]. subst nxt.
      rewrite Zplus_mod_idemp_l. replace (vq_desc_index q + 1 + t) with (vq_desc_index q + (1 + t)) by lia. intros E. symmetry in E. revert E. apply mod_shift; lia. }
    destruct Hb0 as [Hlen Hflags]. cbn [mbind option_bind]. destruct b as [ba bl bf]. cbn [vb_len vb_flags vb_addr] in *. destruct l as [| b' l].
    + subst d. cbn [vd_flags vd_addr vd_len]. rewrite u32_small by done. by destruct Hflags as [-> | ->].
    + specialize (Hch ltac:(done) fuel ltac:(cbn in Hf |- *; lia)). cbn [vq_desc_index q1 q_set_desc] in Hch. subst d. cbn [vd_flags vd_addr vd_len vd_next].
      rewrite u32_small by done. assert (u16 nxt = nxt) as -> by (apply Z.mod_small; lia). destruct Hflags as [-> | ->]; rewrite Hch; done.
Qed.

(** The chain a device finds after a write. *)
Lemma virtio_write_chain (q : virtqueue) (l : list vbuf) :
  queue_ok q -> l <> [] -> Z.of_nat (length l) <= vq_size q -> Forall buf_ok l ->
  exists q', virtio_write q true l = Ret (vq_desc_index q, q', vq_id q) /\ queue_ok q' /\ vq_size q' = vq_size q /\ newest q' = Some l.
Proof.
  intros Hq Hne Hl Hb. destruct (chain_loop_ok q l Hq Hl Hb) as (q1 & E & Hq1 & Er & Ex & Es & Eid & _ & Hch). specialize (Hch Hne).
  unfold virtio_write, write_desc_chain. rewrite E, !bind_Ret. unfold virtio_write_avail. pose proof Hq as [[Hs Hs16] Hd Hr Hi Hx].
  pose proof (Z.mod_pos_bound (vq_idx q) (vq_size q) ltac:(lia)) as Hm. rewrite Er, Ex, Es. rewrite astore_in by lia. rewrite !bind_Ret, Eid.
  eexists. split; [done |]. set (q2 := q_set_ring _ _ _). assert (queue_ok q2) as Hq2.
  { destruct Hq1 as [H1 H2 H3 H4 H5]. split; cbn; try done; [by rewrite length_insert, Es |]. apply Z.mod_pos_bound. lia. }
  split; [done |]. split; [exact Es |]. unfold newest. assert ((vq_idx q2 - 1) mod vq_size q2 = vq_idx q mod vq_size q) as ->.
  { cbn [vq_idx vq_size q2 q_set_ring]. rewrite Es. unfold u16. destruct (decide (vq_idx q + 1 = 2 ^ 16)) as [E16 |].
    - rewrite E16, Z.mod_same by lia. replace (vq_idx q) with (0 - 1 + 2 ^ 16) by lia.
      apply Z.mod_divide in Hs16 as [c Ec]; [| lia]. rewrite Ec. by rewrite Z.mod_add by lia.
    - rewrite (Z.mod_small (vq_idx q + 1)) by lia. f_equal. lia. }
  change (vq_ring q2) with (<[Z.to_nat (vq_idx q mod vq_size q) := u16 (vq_desc_index q)]> (vq_ring q)). rewrite list_lookup_insert_eq by lia.
  cbn [mbind option_bind]. assert (u16 (vq_desc_index q) = vq_desc_index q) as -> by (apply Z.mod_small; lia).
  assert (forall fuel i, chain fuel q2 i = chain fuel q1 i) as Hc.
  { intros fuel. induction fuel as [| fuel IH]; intros i; [done |]. cbn [chain]. change (vq_descriptors q2) with (vq_descriptors q1).
    destruct (vq_descriptors q1 !! Z.to_nat i) as [d |]; [| done]. cbn [mbind option_bind]. by rewrite IH. }
  rewrite Hc. apply Hch. change (vq_descriptors q2) with (vq_descriptors q1). destruct Hq1 as [_ H2 _ _ _]. lia.
Qed.

(** C37: the device gets the request the driver sends: after [virtio_write] of a list of
    at most as many buffers as the queue has descriptors, the chain that was made
    available last has exactly these buffers, in order, with their addresses,
    lengths and flags, wherever in the ring it lies and however often the ring and
    the counter have wrapped around; the queue stays well-formed. *)
Theorem virtio_write_roundtrip (q : virtqueue) (l : list vbuf) :
  queue_ok q -> l <> [] -> Z.of_nat (length l) <= vq_size q -> Forall buf_ok l ->
  exists q', virtio_write q true l = Ret (vq_desc_index q, q', vq_id q) /\ queue_ok q' /\ vq_size q' = vq_size q /\ newest q' = Some l.
Proof. apply virtio_write_chain. Qed.

(** * The block driver *)

(** Three areas of memory apart from each other: the header, the data and the
    status. *)
Record areas_ok (m : list Z) (hp bp sp n : Z) : Prop := {
  ar_hdr : 0 < hp /\ hp + 16 <= Z.of_nat (length m);
  ar_buf : 0 < bp /\ bp + n <= Z.of_nat (length m);
  ar_status : 0 < sp < Z.of_nat (length m);
  ar_apart : (hp + 16 <= bp \/ bp + n <= hp) /\ (sp < hp \/ hp + 16 <= sp) /\ (sp < bp \/ bp + n <= sp);
}.

(** Outside of the areas. *)
Definition outside (hp bp sp n : Z) (k : nat) : Prop :=
  (Z.of_nat k < hp \/ hp + 16 <= Z.of_nat k) /\ (Z.of_nat k < bp \/ bp + n <= Z.of_nat k) /\ Z.of_nat k <> sp.

Record vblk_ok (v : vblk) : Prop := {
  vo_status : has_flag (vk_status v) VIRTIO_PCI_STATUS_DRIVER_OK = true;
  vo_queue : queue_ok (vk_queue v);
  vo_size : 3 <= vq_size (vk_queue v);
}.

Lemma length_blk_req type lba : length (blk_req type lba) = 16%nat.
Proof. reflexivity. Qed.

Lemma blk_req_fields type lba : 0 <= type < 2 ^ 32 -> 0 <= lba < 2 ^ 64 -> le_at 4 (blk_req type lba) 0 = type /\ le_at 8 (drop 8 (blk_req type lba)) 0 = lba.
Proof.
  intros Ht Hl. split; [by apply le_at_le_bytes |]. change (drop 8 (blk_req type lba)) with (le_bytes 8 lba).
  rewrite <- (app_nil_r (le_bytes 8 lba)). by apply le_at_le_bytes.
Qed.

Section Request.
Context (translate : Z -> Z) (hdr status : Z) (patience : nat) (env : nat -> vblk -> vblk).

(** The device answers during the [j]-th yield, and nothing else happens. *)
Context (j : nat) (Hj : (j < patience)%nat) (Hbefore : forall i v, (i < j)%nat -> env i v = v) (Hserve : forall v v', serve v = Some v' -> env j v = v').

Lemma wait_served n i v v' s :
  (i <= j)%nat -> (j < i + n)%nat -> aload (vk_mem v) (translate status) = Ret 0xff -> serve v = Some v' -> aload (vk_mem v') (translate status) = Ret s -> s <> 0xff ->
  wait_status translate status env n i v = Ret (s, v').
Proof.
  revert i. induction n as [| n IH]; intros i Hi Hn Hm Hs Hm' Hne; [lia |]. cbn [wait_status]. rewrite Hm, bind_Ret. change (negb (255 =? 255)) with false. cbn iota.
  destruct (decide (i = j)) as [-> |].
  - rewrite (Hserve v v' Hs). destruct n; cbn [wait_status]; rewrite Hm', bind_Ret; destruct (Z.eqb_spec s 255); done.
  - rewrite Hbefore by lia. apply IH; [lia | lia | done..].
Qed.

Lemma splice_same m p x k : 0 <= p -> p + Z.of_nat (length x) <= Z.of_nat (length m) -> Z.of_nat k < p \/ p + Z.of_nat (length x) <= Z.of_nat k -> splice m p x !! k = m !! k.
Proof. intros Hp Hl Hk. rewrite lookup_splice by done. by rewrite decide_False by lia. Qed.

Lemma splice_bytes m p x : 0 <= p -> p + Z.of_nat (length x) <= Z.of_nat (length m) -> bytes_at (splice m p x) p (Z.of_nat (length x)) = x.
Proof.
  intros Hp Hl. apply list_eq. intros i. rewrite lookup_bytes_at. rewrite Nat2Z.id. case_decide.
  - rewrite lookup_splice by done. rewrite decide_True by lia. f_equal. lia.
  - symmetry. apply lookup_ge_None_2. lia.
Qed.

(** The memory when the request has been sent. *)
Lemma sent_memory m type lba n bp :
  areas_ok m (translate hdr) bp (translate status) n -> 0 <= n ->
  exists m1, (m1 ← store_bytes m (translate hdr) (blk_req type lba); astore m1 (translate status) 0xff) = Ret m1 /\ length m1 = length m /\
    bytes_at m1 (translate hdr) 16 = blk_req type lba /\ bytes_at m1 bp n = bytes_at m bp n /\ aload m1 (translate status) = Ret 0xff /\
    forall k, outside (translate hdr) bp (translate status) n k -> m1 !! k = m !! k.
Proof.
  intros [[Hh1 Hh2] [Hb1 Hb2] Hs (Ha1 & Ha2 & Ha3)] Hn. destruct (store_bytes_spec m (translate hdr) (blk_req type lba)) as (m0 & -> & Hl0 & Hr0 & Hs0);
    [lia | rewrite length_blk_req; lia |]. rewrite length_blk_req in Hr0, Hs0. rewrite bind_Ret, astore_in by lia. eexists. split; [done |].
  split; [by rewrite length_insert |]. split_and!.
  - rewrite <- Hr0. apply same_on_bytes; [lia |]. intros k Hk. apply list_lookup_insert_ne. lia.
  - apply same_on_bytes; [lia |]. intros k Hk. rewrite list_lookup_insert_ne by lia. apply Hs0. lia.
  - apply aload_Ret. split; [lia |]. apply list_lookup_insert_eq. lia.
  - intros k (Hk1 & Hk2 & Hk3). rewrite list_lookup_insert_ne by lia. apply Hs0. lia.
Qed.

(** What a request of the given type does to the memory and the disk. *)
Definition request_done (v v' : vblk) (type lba n bp sp : Z) : Prop :=
  vk_features v' = vk_features v /\ vk_status v' = vk_status v /\ length (vk_mem v') = length (vk_mem v) /\
  (if type =? VIRTIO_BLK_T_IN then bytes_at (vk_mem v') bp (n * 512) = bytes_at (vk_disk v) (lba * 512) (n * 512) /\ vk_disk v' = vk_disk v
   else bytes_at (vk_mem v') bp (n * 512) = bytes_at (vk_mem v) bp (n * 512) /\ vk_disk v' = splice (vk_disk v) (lba * 512) (bytes_at (vk_mem v) bp (n * 512))).

Lemma serve_ok v type lba n hp bp sp f :
  newest (vk_queue v) = Some [VBuf hp 16 0; VBuf bp (n * 512) f; VBuf sp 1 VIRTQ_DESC_F_WRITE] -> bytes_at (vk_mem v) hp 16 = blk_req type lba ->
  (type = VIRTIO_BLK_T_IN /\ f = VIRTQ_DESC_F_WRITE) \/ type = VIRTIO_BLK_T_OUT -> 0 <= lba < 2 ^ 64 -> 0 <= n -> (lba + n) * 512 <= Z.of_nat (length (vk_disk v)) ->
  areas_ok (vk_mem v) hp bp sp (n * 512) ->
  exists v', serve v = Some v' /\ aload (vk_mem v') sp = Ret VIRTIO_BLK_S_OK /\ vk_queue v' = vk_queue v /\ request_done v v' type lba n bp sp /\
    forall k, outside hp bp sp (n * 512) k -> vk_mem v' !! k = vk_mem v !! k.
Proof.
  intros Hnew Hreq Htype Hlba Hn Hdisk [[Hh1 Hh2] [Hb1 Hb2] Hs (Ha1 & Ha2 & Ha3)]. unfold serve. rewrite Hnew. cbn [mbind option_bind vb_addr vb_len vb_flags].
  destruct (blk_req_fields type lba) as [Ety Elb]; [destruct Htype as [[-> _] | ->]; done | lia |]. rewrite Hreq, Ety, Elb.
  set (dd := bytes_at (vk_disk v) (lba * 512) (n * 512)). assert (length dd = Z.to_nat (n * 512)) as Hdd by (apply length_bytes_at; lia).
  assert (forall m, length m = length (vk_mem v) -> length (splice m sp [VIRTIO_BLK_S_OK]) = length m /\ aload (splice m sp [VIRTIO_BLK_S_OK]) sp = Ret VIRTIO_BLK_S_OK) as Hsp.
  { intros m Hm. assert (length (splice m sp [VIRTIO_BLK_S_OK]) = length m) as E by (apply length_splice; cbn [length]; lia). split; [done |].
    apply aload_Ret. split; [lia |]. rewrite lookup_splice by (cbn [length]; lia). rewrite decide_True by (cbn [length]; lia). by rewrite Nat.sub_diag. }
  destruct Htype as [[-> ->] | ->]; cbn [Z.eqb VIRTIO_BLK_T_IN VIRTIO_BLK_T_OUT Pos.eqb]; cbn iota.
  - change (has_flag VIRTQ_DESC_F_WRITE VIRTQ_DESC_F_WRITE) with true. cbn iota. eexists. split; [done |]. cbn [vk_mem vk_set_mem vk_queue].
    set (m2 := splice (vk_mem v) bp dd). assert (length m2 = length (vk_mem v)) as Hl2 by (apply length_splice; lia). destruct (Hsp m2 Hl2) as [Hl3 Hst].
    split; [done |]. split; [done |]. split.
    + split; [done |]. split; [done |]. split; [cbn [vk_mem vk_set_mem]; lia |]. split; [| done]. transitivity (bytes_at m2 bp (n * 512)).
      * apply same_on_bytes; [lia |]. intros k Hk. apply splice_same; cbn [length]; lia.
      * pose proof (splice_bytes (vk_mem v) bp dd ltac:(lia) ltac:(lia)) as E. rewrite Hdd, Z2Nat.id in E by lia. exact E.
    + intros k (Hk1 & Hk2 & Hk3). rewrite splice_same by (cbn [length]; lia). unfold m2. rewrite splice_same by lia. done.
  - eexists. split; [done |]. cbn [vk_mem vk_queue]. destruct (Hsp (vk_mem v) eq_refl) as [Hl3 Hst]. split; [done |]. split; [done |]. split.
    + split; [done |]. split; [done |]. split; [done |]. split; [| done]. apply same_on_bytes; [lia |]. intros k Hk. apply splice_same; cbn [length]; lia.
    + intros k (Hk1 & Hk2 & Hk3). apply splice_same; cbn [length]; lia.
Qed.

(** A request and its answer. *)
Lemma send_request_ok v type lba n buf :
  vblk_ok v -> type = VIRTIO_BLK_T_IN \/ type = VIRTIO_BLK_T_OUT -> 0 <= lba < 2 ^ 64 -> 1 <= n -> n * 512 < 2 ^ 32 -> (lba + n) * 512 <= Z.of_nat (length (vk_disk v)) ->
  areas_ok (vk_mem v) (translate hdr) (translate buf) (translate status) (n * 512) ->
  exists v', send_request translate hdr status patience env v type lba n buf = Ret (n, v') /\ vblk_ok v' /\
    request_done v v' type lba n (translate buf) (translate status) /\
    forall k, outside (translate hdr) (translate buf) (translate status) (n * 512) k -> vk_mem v' !! k = vk_mem v !! k.
Proof.
  intros [Hst Hq Hq3] Htype Hlba Hn Hn32 Hdisk Har. unfold send_request. destruct (Z.ltb_spec n 1); [lia |]. rewrite Hst. cbn [negb].
  pose proof Har as [[Hh1 _] [Hb1 _] [Hs1 _] _].
  destruct (Z.eqb_spec (translate hdr) 0); [lia |]. destruct (Z.eqb_spec (translate buf) 0); [lia |]. destruct (Z.eqb_spec (translate status) 0); [lia |]. cbn [orb].
  destruct (sent_memory (vk_mem v) type lba (n * 512) (translate buf) Har ltac:(lia)) as (m1 & E1 & Hl1 & Hreq & Hdata & Hff & Hout).
  destruct (store_bytes (vk_mem v) (translate hdr) (blk_req type lba)) as [m0 | | |]; try done. rewrite bind_Ret in E1. rewrite bind_Ret, E1, bind_Ret.
  cbn [vk_queue vk_set_mem]. rewrite u32_small by lia. set (f := if type =? VIRTIO_BLK_T_IN then _ else _). set (l := [_; _; _]).
  destruct (virtio_write_chain (vk_queue v) l) as (q' & -> & Hq' & Eqs & Hnew); [done | done | cbn; lia | |].
  { repeat (apply Forall_cons; split); [by split; [| left] | split; [cbn; lia |] | by split; [| right] | by apply Forall_nil]. cbn. subst f. destruct (type =? VIRTIO_BLK_T_IN); [by right | by left]. }
  rewrite bind_Ret. set (v1 := vk_set_queue _ q'). destruct Hq as [[Hsz _] _ _ Hidx _].
  assert (s32 (vq_desc_index (vk_queue v)) <? 0 = false) as ->.
  { unfold s32. rewrite u32_small by lia. destruct (Z.ltb_spec (vq_desc_index (vk_queue v)) (2 ^ 31)); [apply Z.ltb_ge |]; lia. }
  destruct (serve_ok v1 type lba n (translate hdr) (translate buf) (translate status) f) as (v' & Esv & Hst' & Eq & Hdone & Hout'); try done; [| lia | |].
  { destruct Htype as [-> | ->]; [by left | by right]. }
  { destruct Har as [? ? ? ?]. change (vk_mem v1) with m1. split; by rewrite ?Hl1. }
  rewrite (wait_served patience 0 v1 v' VIRTIO_BLK_S_OK) by (done || lia). rewrite bind_Ret. change (negb (VIRTIO_BLK_S_OK =? VIRTIO_BLK_S_OK)) with false. cbn iota.
  destruct Hdone as (D1 & D2 & D3 & D4). exists v'. split; [done |]. split; [split; [by rewrite D2 | by rewrite Eq | rewrite Eq; change (vk_queue v1) with q'; lia] |].
  split; [| intros k Hk; rewrite Hout' by done; by apply Hout]. split; [done |]. split; [done |]. split; [rewrite D3; exact Hl1 |].
  change (vk_mem v1) with m1 in D4. change (vk_disk v1) with (vk_disk v) in D4. by rewrite Hdata in D4.
Qed.

(** Block by block. *)
Lemma read_loop_ok m v i lba n buf bp :
  vblk_ok v -> 0 <= i -> i + Z.of_nat m = n -> 0 <= lba -> lba + n < 2 ^ 64 -> n * 512 < 2 ^ 32 -> (lba + n) * 512 <= Z.of_nat (length (vk_disk v)) ->
  areas_ok (vk_mem v) (translate hdr) bp (translate status) (n * 512) -> (forall k, 0 <= k < n -> translate (u32 (buf + k * 512)) = bp + k * 512) ->
  bytes_at (vk_mem v) bp (i * 512) = bytes_at (vk_disk v) (lba * 512) (i * 512) ->
  exists v', read_loop translate hdr status patience env m v lba n buf i = Ret (n, v') /\ vblk_ok v' /\ vk_disk v' = vk_disk v /\
    length (vk_mem v') = length (vk_mem v) /\ bytes_at (vk_mem v') bp (n * 512) = bytes_at (vk_disk v) (lba * 512) (n * 512) /\
    forall k, outside (translate hdr) bp (translate status) (n * 512) k -> vk_mem v' !! k = vk_mem v !! k.
Proof.
  revert v i. induction m as [| m IH]; intros v i Hv Hi Hm Hlba H64 H32 Hdisk Har Htr Hdone; cbn [read_loop].
  { exists v. split; [done |]. split; [done |]. split; [done |]. split; [done |]. by replace n with i by lia. }
  pose proof Har as [Hh [Hb1 Hb2] Hs (Ha1 & Ha2 & Ha3)]. rewrite (u32_small i) by lia. assert (u64 (lba + i) = lba + i) as -> by (apply u64_small; lia).
  destruct (send_request_ok v VIRTIO_BLK_T_IN (lba + i) 1 (u32 (buf + i * 512))) as (v1 & -> & Hv1 & Hreq & Hout); [done | by left | lia | lia | lia | lia | |].
  { rewrite Htr by lia. split; [done | lia | done | lia]. }
  rewrite bind_Ret. change (1 =? ERR64) with false. cbn iota. destruct Hreq as (_ & _ & Hl & Hbytes & Hd). rewrite Htr in Hbytes, Hout by lia.
  destruct (IH v1 (i + 1)) as (v2 & -> & Hv2 & Hd2 & Hl2 & Hb & Ho2); try done; [lia | lia | by rewrite Hd | | |].
  { split; rewrite ?Hl; done. }
  { rewrite Hd. replace ((i + 1) * 512) with (i * 512 + 1 * 512) by lia. rewrite !bytes_at_app by lia. rewrite Hbytes. f_equal.
    - rewrite <- Hdone. apply same_on_bytes; [lia |]. intros k Hk. apply Hout. split; [lia |]. lia.
    - f_equal. lia. }
  exists v2. rewrite Hd in Hd2, Hb. split; [done |]. split; [done |]. split; [done |]. split; [congruence |]. split; [done |].
  intros k Hk. rewrite Ho2 by done. apply Hout. destruct Hk as (Hk1 & Hk2 & Hk3). split; [done |]. lia.
Qed.

End Request.

(** C21: reading blocks from a virtio device gives the blocks of its disk, for a buffer
    that is contiguous in physical memory: its start translates to [bp], and the start
    of each block to the place of that block behind [bp] ([contiguous_only] shows what
    happens to other memory otherwise).  When moreover the blocks are on the disk, the
    areas do not overlap, and the device answers each request, as the standard says,
    after the same number of yields below the bound, [read_cb] returns the number of
    blocks and has stored exactly the bytes of the disk at the buffer, whether they are
    read in one request or, for 16 blocks and more, in one request each; the disk and
    all other memory, the areas on the stack apart, are as before, and the queue is
    ready for the next request. *)
Theorem virtio_read_correct (translate : Z -> Z) (hdr status : Z) (patience j : nat) (env : nat -> vblk -> vblk) (v : vblk) (lba n buf bp : Z) :
  (j < patience)%nat -> (forall i v, (i < j)%nat -> env i v = v) -> (forall v v', serve v = Some v' -> env j v = v') ->
  vblk_ok v -> 0 <= lba -> 1 <= n -> lba + n < 2 ^ 64 -> n * 512 < 2 ^ 32 -> (lba + n) * 512 <= Z.of_nat (length (vk_disk v)) ->
  areas_ok (vk_mem v) (translate hdr) bp (translate status) (n * 512) ->
  translate buf = bp -> (forall k, 0 <= k < n -> translate (u32 (buf + k * 512)) = bp + k * 512) ->
  exists v', virtio_read_cb translate hdr status patience env v lba n buf = Ret (n, v') /\ vblk_ok v' /\ vk_disk v' = vk_disk v /\
    bytes_at (vk_mem v') bp (n * 512) = bytes_at (vk_disk v) (lba * 512) (n * 512) /\
    forall k, outside (translate hdr) bp (translate status) (n * 512) k -> vk_mem v' !! k = vk_mem v !! k.
Proof.
  intros Hj Hb Hs Hv Hlba Hn H64 H32 Hdisk Har Ebp Htr. unfold virtio_read_cb. destruct (Z.ltb_spec n 16).
  - destruct (send_request_ok translate hdr status patience env j Hj Hb Hs v VIRTIO_BLK_T_IN lba n buf) as (v' & -> & Hv' & Hreq & Hout);
      [done | by left | lia | lia | lia | lia | by rewrite Ebp |].
    rewrite Ebp in *. destruct Hreq as (_ & _ & _ & Hbytes & Hd). by exists v'.
  - destruct (read_loop_ok translate hdr status patience env j Hj Hb Hs (Z.to_nat n) v 0 lba n buf bp) as (v' & E & Hv' & Hd & _ & Hbytes & Hout); try done; [lia |].
    by exists v'.
Qed.

(** writing blocks to a virtio device: the disk has the bytes of the buffer in its
    place and is otherwise as before, and a device that is read-only is left alone. *)
Theorem virtio_write_correct (translate : Z -> Z) (hdr status : Z) (patience j : nat) (env : nat -> vblk -> vblk) (v : vblk) (lba n buf : Z) :
  (j < patience)%nat -> (forall i v, (i < j)%nat -> env i v = v) -> (forall v v', serve v = Some v' -> env j v = v') ->
  vblk_ok v -> 0 <= lba -> 1 <= n -> lba < 2 ^ 64 -> n * 512 < 2 ^ 32 -> (lba + n) * 512 <= Z.of_nat (length (vk_disk v)) ->
  areas_ok (vk_mem v) (translate hdr) (translate buf) (translate status) (n * 512) ->
  if has_flag (vk_features v) VIRTIO_BLK_F_RO
  then virtio_write_cb translate hdr status patience env v lba n buf = Ret (ERR64, v)
  else exists v', virtio_write_cb translate hdr status patience env v lba n buf = Ret (n, v') /\ vblk_ok v' /\
    vk_disk v' = splice (vk_disk v) (lba * 512) (bytes_at (vk_mem v) (translate buf) (n * 512)).
Proof.
  intros Hj Hb Hs Hv Hlba Hn H64 H32 Hdisk Har. unfold virtio_write_cb. destruct (has_flag _ _); [done |].
  destruct (send_request_ok translate hdr status patience env j Hj Hb Hs v VIRTIO_BLK_T_OUT lba n buf) as (v' & -> & Hv' & Hreq & Hout);
    [done | by right | lia | lia | lia | lia | done |].
  destruct Hreq as (_ & _ & _ & _ & Hd). by exists v'.
Qed.

(** * Examples *)

Definition ex_queue : virtqueue := Queue (replicate 4 (Desc 9 9 9 9)) (replicate 4 9) 65535 0 4 3.

Lemma ex_queue_ok : queue_ok ex_queue.
Proof. by split. Qed.

Lemma virtio_write_roundtrip_witness :
  let l := [VBuf 100 16 0; VBuf 200 512 VIRTQ_DESC_F_WRITE; VBuf 300 1 VIRTQ_DESC_F_WRITE] in
  exists q', virtio_write ex_queue true l = Ret (3, q', 0) /\ queue_ok q' /\ vq_size q' = 4 /\ newest q' = Some l.
Proof.
  intros l. apply (virtio_write_roundtrip ex_queue l); [apply ex_queue_ok | discriminate | vm_compute; congruence |].
  repeat (apply Forall_cons; split); [by split; [| left] | by split; [| right] | by split; [| right] | by apply Forall_nil].
Defined.

Definition ex_vblk : vblk := VBlk 0 (Z.lor 7 8) ex_queue (replicate 2048 7) (replicate 512 1 ++ replicate 512 2 ++ replicate 512 3).
Definition ex_env (i : nat) (v : vblk) : vblk := if (i <? 2)%nat then v else default v (serve v).

Lemma ex_env_serves v v' : serve v = Some v' -> ex_env 2 v = v'.
Proof. intros E. unfold ex_env. cbn [Nat.ltb Nat.leb]. by rewrite E. Qed.

Lemma virtio_read_correct_witness :
  exists v', virtio_read_cb (fun a => a) 1600 1700 3 ex_env ex_vblk 1 2 100 = Ret (2, v') /\ vblk_ok v' /\ vk_disk v' = vk_disk ex_vblk /\
    bytes_at (vk_mem v') 100 1024 = bytes_at (vk_disk ex_vblk) 512 1024 /\
    forall k, outside 1600 100 1700 1024 k -> vk_mem v' !! k = vk_mem ex_vblk !! k.
Proof.
  apply (virtio_read_correct (fun a => a) 1600 1700 3 2 ex_env ex_vblk 1 2 100 100); try lia; try done.
  - intros i v Hi. unfold ex_env. by destruct (Nat.ltb_spec i 2); [| lia].
  - exact ex_env_serves.
  - split; vm_compute; intuition congruence.
  - intros k Hk. apply u32_small. lia.
Defined.

Lemma virtio_write_correct_witness :
  exists v', virtio_write_cb (fun a => a) 1600 1700 3 ex_env ex_vblk 1 2 100 = Ret (2, v') /\ vblk_ok v' /\
    vk_disk v' = splice (vk_disk ex_vblk) 512 (bytes_at (vk_mem ex_vblk) 100 1024).
Proof.
  apply (virtio_write_correct (fun a => a) 1600 1700 3 2 ex_env ex_vblk 1 2 100); try lia; try done.
  - intros i v Hi. unfold ex_env. by destruct (Nat.ltb_spec i 2); [| lia].
  - exact ex_env_serves.
  - split; vm_compute; intuition congruence.
Defined.

(** Only the address of the start of the buffer is translated: a buffer of two blocks
    whose second block is on another page frame gets the first block only, and what
    follows its first frame is overwritten. *)
Lemma contiguous_only :
  let translate a := if a =? 612 then 1500 else a in
  match virtio_read_cb translate 1700 1800 3 ex_env ex_vblk 1 2 100 with
  | Ret (2, v') => bytes_at (vk_mem v') 1500 4 = [7; 7; 7; 7] /\ bytes_at (vk_mem v') 612 4 = [3; 3; 3; 3]
  | _ => False
  end.
Proof. vm_compute. split; reflexivity. Qed.

(** More buffers than descriptors: the chain overwrites its own start. *)
Lemma chain_too_long :
  match virtio_write (Queue (replicate 2 (Desc 9 9 9 9)) (replicate 2 9) 0 0 2 0) true [VBuf 1 1 0; VBuf 2 1 0; VBuf 3 1 0] with
  | Ret (_, q, _) => newest q = Some [VBuf 3 1 0]
  | _ => False
  end.
Proof. vm_compute. reflexivity. Qed.
