(* ===== verification/MemInit.v ===== *)
(** Memory at boot: src/src/boot/i386-multiboot.c, which looks for the tags the boot
    loader left, and src/src/mem/mem.c, which takes the memory that is not available
    out of the page allocator.

    Memory is a list of bytes, an address is an index.  What is made for the log only
    is not modelled, but reads of arrays for it are.  The theorem: pages the memory
    map does not call available, and those below the end of the early allocations,
    are never handed out, however the allocator is used afterwards. *)
From stdpp Require Import base numbers list.
From Stdlib Require Import ZArith Lia Bool.
From S2P Require Import Prelude Spinlock Bitmap PageAlloc Str Bytes.

Open Scope Z_scope.

(** * The tags of the boot loader *)

Definition MULTIBOOT2_BOOTLOADER_MAGIC : Z := 0x36d76289.
Definition MULTIBOOT_TAG_TYPE_CMDLINE : Z := 1.
Definition MULTIBOOT_TAG_TYPE_BASIC_MEMINFO : Z := 4.
Definition MULTIBOOT_TAG_TYPE_MMAP : Z := 6.
Definition MULTIBOOT_TAG_TYPE_FRAMEBUFFER : Z := 8.
Definition MULTIBOOT_TAG_TYPE_ELF_SECTIONS : Z := 9.
Definition SYMTAB_BSIZE : Z := 0x10000.

(** The number of entries of [tag_type_names]. *)
Definition TAG_NAMES : Z := 22.
(** [sizeof(struct multiboot_tag_framebuffer)] *)
Definition SIZEOF_FRAMEBUFFER : Z := 40.

(** The variables of the file. *)
Record multiboot : Type := Multiboot {
  mb_mmap : Z;
  mb_mem : Z;
  mb_framebuffer : list Z;
  mb_cmdline : list Z;
  mb_symtab : list Z;
  mb_strtab : list Z;
  mb_symtab_len : Z;
  mb_strtab_len : Z;
}.

Implicit Types i : multiboot.

Definition set_mmap i (p : Z) : multiboot :=
  Multiboot p (mb_mem i) (mb_framebuffer i) (mb_cmdline i) (mb_symtab i) (mb_strtab i) (mb_symtab_len i) (mb_strtab_len i).
Definition set_mem i (p : Z) : multiboot :=
  Multiboot (mb_mmap i) p (mb_framebuffer i) (mb_cmdline i) (mb_symtab i) (mb_strtab i) (mb_symtab_len i) (mb_strtab_len i).
Definition set_framebuffer i (b : list Z) : multiboot :=
  Multiboot (mb_mmap i) (mb_mem i) b (mb_cmdline i) (mb_symtab i) (mb_strtab i) (mb_symtab_len i) (mb_strtab_len i).
Definition set_cmdline i (b : list Z) : multiboot :=
  Multiboot (mb_mmap i) (mb_mem i) (mb_framebuffer i) b (mb_symtab i) (mb_strtab i) (mb_symtab_len i) (mb_strtab_len i).
Definition set_symtab i (b : list Z) (n : Z) : multiboot :=
  Multiboot (mb_mmap i) (mb_mem i) (mb_framebuffer i) (mb_cmdline i) b (mb_strtab i) n (mb_strtab_len i).
Definition set_strtab i (b : list Z) (n : Z) : multiboot :=
  Multiboot (mb_mmap i) (mb_mem i) (mb_framebuffer i) (mb_cmdline i) (mb_symtab i) b (mb_symtab_len i) n.

(** The strings ".symtab" and ".strtab". *)
Definition NAME_SYMTAB : list Z := [46; 115; 121; 109; 116; 97; 98; 0].
Definition NAME_STRTAB : list Z := [46; 115; 116; 114; 116; 97; 98; 0].

Section Multiboot.
Context (mem : list Z).

(** The loop over the sections: [section] is [elf_section], [sh_section] the one with
    the names.  Fields of [struct elf_section]: name, type, flags, addr, offset,
    size. *)
Fixpoint symtab_loop (n : nat) (section entsize sh_section r : Z) i : outcome (Z * multiboot) :=
  match n with
  | O => Ret (r, i)
  | S n =>
    sh_addr ← load_le 4 mem (sh_section + 12);
    name ← load_le 4 mem section;
    addr ← load_le 4 mem (section + 12);
    size ← load_le 4 mem (section + 20);
    let shname := u32 (sh_addr + name) in
    c ← strcmp NAME_SYMTAB mem 0 shname;
    '(r, i) ← (if c =? 0 then
        let len := MIN SYMTAB_BSIZE size in
        b ← memcpy (mb_symtab i) 0 mem addr len;
        Ret (r + 1, set_symtab i b len)
      else Ret (r, i));
    c ← strcmp NAME_STRTAB mem 0 shname;
    '(r, i) ← (if c =? 0 then
        let len := MIN SYMTAB_BSIZE size in
        b ← memcpy (mb_strtab i) 0 mem addr len;
        Ret (r + 1, set_strtab i b len)
      else Ret (r, i));
    symtab_loop n (u32 (section + entsize)) entsize sh_section r i
  end.

Definition extract_symtab (tag : Z) i : outcome (Z * multiboot) :=
  num ← load_le 4 mem (tag + 8);
  entsize ← load_le 4 mem (tag + 12);
  shndx ← load_le 4 mem (tag + 16);
  let elf_section := u32 (tag + 20) in
  let sh_section := u32 (elf_section + entsize * shndx) in
  symtab_loop (Z.to_nat num) elf_section entsize sh_section (-2) i.

(** What a tag is used for. *)
Definition tag_action (tag type : Z) i : outcome multiboot :=
  if type =? MULTIBOOT_TAG_TYPE_CMDLINE then
    '(_, b) ← strlcpy (mb_cmdline i) 0 mem (tag + 8) 0x400;
    Ret (set_cmdline i b)
  else if type =? MULTIBOOT_TAG_TYPE_MMAP then Ret (set_mmap i tag)
  else if type =? MULTIBOOT_TAG_TYPE_BASIC_MEMINFO then Ret (set_mem i tag)
  else if type =? MULTIBOOT_TAG_TYPE_ELF_SECTIONS then '(_, i) ← extract_symtab tag i; Ret i
  else if type =? MULTIBOOT_TAG_TYPE_FRAMEBUFFER then
    b ← memcpy (mb_framebuffer i) 0 mem tag SIZEOF_FRAMEBUFFER;
    Ret (set_framebuffer i b)
  else Ret i.

(** The loop over the tags up to the address [last]. *)
Fixpoint tag_loop (fuel : nat) (tag last : Z) i : outcome multiboot :=
  match fuel with
  | O => Spin
  | S fuel =>
    if tag <? last then
      let tag := ALIGN tag 8 in
      type ← load_le 4 mem tag;
      size ← load_le 4 mem (tag + 4);
      if (type =? 0) || (size =? 0) then Ret i else
      i ← tag_action tag type i;
      (* tag_type_names[tag->type] *)
      if TAG_NAMES <=? type then Fault else
      tag_loop fuel (u32 (tag + size)) last i
    else Ret i
  end.

Definition multiboot_init (magic header : Z) i : outcome multiboot :=
  if negb (magic =? MULTIBOOT2_BOOTLOADER_MAGIC) then Panic else
  total_size ← load_le 4 mem header;
  tag_loop (S (Z.to_nat total_size)) (u32 (header + 8)) (u32 (header + total_size)) i.

(** * The memory map *)

Definition MULTIBOOT_MEMORY_AVAILABLE : Z := 1.
(** The number of entries of [type_names]. *)
Definition TYPE_NAMES : Z := 6.

(** [struct multiboot_mmap_entry] *)
Record mmap_entry : Type := MmapEntry { me_addr : Z; me_len : Z; me_type : Z }.

Definition load_entry (p : Z) : outcome mmap_entry :=
  addr ← load_le 8 mem p;
  len ← load_le 8 mem (p + 8);
  type ← load_le 4 mem (p + 16);
  Ret (MmapEntry addr len type).

(** Takes the pages of an entry out; addresses and sizes are cut to 32 bits. *)
Definition block_entry (e : mmap_entry) (ctx : mem_page_alloc_ctx) : outcome mem_page_alloc_ctx :=
  if negb (me_type e =? MULTIBOOT_MEMORY_AVAILABLE) then
    '(_, ctx) ← mem_page_alloc_at ctx (u32 (me_addr e)) (u32 (me_len e / PAGE_SIZE));
    Ret ctx
  else Ret ctx.

Fixpoint mmap_loop (fuel : nat) (mmap size entry_size offset : Z) (ctx : mem_page_alloc_ctx) : outcome mem_page_alloc_ctx :=
  match fuel with
  | O => Spin
  | S fuel =>
    if offset <? size then
      e ← load_entry (u32 (mmap + offset));
      (* type_names[entry->type] *)
      if TYPE_NAMES <=? me_type e then Fault else
      ctx ← block_entry e ctx;
      mmap_loop fuel mmap size entry_size (u32 (offset + entry_size)) ctx
    else Ret ctx
  end.

(** [mmap] and [meminfo] are what multiboot_get_mmap and multiboot_get_meminfo return,
    [vm_bitmap] is the bitmap of the kernel's memory context, whose pages are counted
    for the log. *)
Definition mem_init (ctx : mem_page_alloc_ctx) (vm_bitmap : bitmap) (mmap meminfo : Z) : outcome mem_page_alloc_ctx :=
  '(r, ctx) ← mem_page_alloc_new ctx;
  if r <? 0 then Panic else
  if mmap =? 0 then Panic else
  size ← load_le 4 mem (mmap + 4);
  entry_size ← load_le 4 mem (mmap + 8);
  ctx ← mmap_loop (S (Z.to_nat size)) mmap size entry_size 16 ctx;
  if meminfo =? 0 then Fault else
  mem_lower ← load_le 4 mem (meminfo + 8);
  mem_upper ← load_le 4 mem (meminfo + 12);
  let mem_kb := u32 (MAX 1024 mem_lower + mem_upper) in
  let bm := pa_bitmap ctx in
  let ctx := PageCtx (pa_lock ctx) (Bitmap (data bm) (u32 (mem_kb * 1024) / PAGE_SIZE) (first_free bm)) in
  _ ← bitmap_count (pa_bitmap ctx);
  _ ← bitmap_count vm_bitmap;
  Ret ctx.

End Multiboot.

(** The part of [mem_late_init] that is about pages; the heap follows ([kmalloc_init] of
    Kmalloc.v). *)
Definition mem_late_init (ctx : mem_page_alloc_ctx) (paging_alloc_end : Z) : outcome mem_page_alloc_ctx :=
  '(_, ctx) ← mem_page_alloc_at ctx 0 (paging_alloc_end / PAGE_SIZE);
  Ret ctx.

(** * Pages that are taken stay taken *)

(** The pages the code takes out for an entry, and for a memory map: an account of what
    it does, not of what the map says. *)
Definition code_pages (e : mmap_entry) (k : Z) : Prop :=
  me_type e <> MULTIBOOT_MEMORY_AVAILABLE /\ me_addr e / PAGE_SIZE <= k < me_addr e / PAGE_SIZE + me_len e / PAGE_SIZE.

Definition code_taken (l : list mmap_entry) (k : Z) : Prop := Exists (fun e => code_pages e k) l.

(** What the map says, in bytes: the page [k] is one the map reserves if all of its
    bytes lie in an area that is not available and that starts at a page. *)
Definition in_area (e : mmap_entry) (b : Z) : Prop := me_addr e <= b < me_addr e + me_len e.

Definition area_has_page (e : mmap_entry) (k : Z) : Prop :=
  me_type e <> MULTIBOOT_MEMORY_AVAILABLE /\ me_addr e mod PAGE_SIZE = 0 /\
  forall b, k * PAGE_SIZE <= b < (k + 1) * PAGE_SIZE -> in_area e b.

Definition reserved (l : list mmap_entry) (k : Z) : Prop := Exists (fun e => area_has_page e k) l.

(** An area that also ends at a page is made of such pages: every page with one byte of
    it lies in it with all its bytes. *)
Lemma aligned_area_pages e b :
  me_type e <> MULTIBOOT_MEMORY_AVAILABLE -> me_addr e mod PAGE_SIZE = 0 -> me_len e mod PAGE_SIZE = 0 ->
  in_area e b -> area_has_page e (b / PAGE_SIZE).
Proof.
  unfold area_has_page, in_area. rewrite PAGE_SIZE_eq. intros Ht Ha Hl Hb. split; [done |]. split; [done |]. intros c Hc.
  pose proof (Z.div_mod (me_addr e) 4096). pose proof (Z.div_mod (me_len e) 4096).
  pose proof (Z.div_mod b 4096). pose proof (Z.mod_pos_bound b 4096). lia.
Qed.

(** The code takes at least these. *)
Lemma area_page_taken e k : 0 <= me_len e -> area_has_page e k -> code_pages e k.
Proof.
  unfold area_has_page, code_pages, in_area. rewrite PAGE_SIZE_eq. intros Hl (Ht & Ha & Hk). split; [done |].
  pose proof (Hk (k * 4096)). pose proof (Hk ((k + 1) * 4096 - 1)).
  pose proof (Z.div_mod (me_addr e) 4096). pose proof (Z.div_mod (me_len e) 4096). pose proof (Z.mod_pos_bound (me_len e) 4096). lia.
Qed.

(** No live allocation has the page. *)
Definition untouched (live : list (Z * Z)) (k : Z) : Prop := Forall (fun a => ~ a.1 <= k < a.1 + a.2) live.

(** The pages of [R] are marked and in no live allocation. *)
Definition guarded (R : Z -> Prop) (s : pa_state) : Prop :=
  forall k, R k -> 0 <= k /\ bitmap_bit (data (pa_bitmap s.1)) k = true /\ untouched s.2 k.

Lemma guarded_step (R : Z -> Prop) s s' : pa_inv s -> guarded R s -> pa_step s s' -> guarded R s'.
Proof.
  intros [Hwf Hsz Hz Hm Hd] Hg Hstep k Hk. destruct (Hg k Hk) as (Hk0 & Hb & Hu).
  destruct Hstep as [ctx ctx' live sz addr Hsp He Hne | ctx ctx' live sz Hsp He | ctx ctx' l1 l2 num sz r He]; simpl in *.
  - assert (pa_lock ctx = 0) as Hlock by (unfold mem_page_alloc, lock_acquire in He; by destruct (Z.eqb_spec (pa_lock ctx) 0)).
    destruct (mem_page_alloc_spec ctx sz) as [(ff & _ & He') | (num & ctx2 & He' & Hr)]; try done; rewrite He' in He; simplify_eq.
    destruct Hr as (Hn & _ & _ & Hfree & _ & _ & _ & _ & Hbits). split; [done |]. rewrite Hbits, Hb by done. split; [by destruct (_ && _) |].
    constructor; [| done]. cbn [fst snd]. rewrite PAGE_SIZE_eq, Z.div_mul by lia. intros Hin. by rewrite (Hfree k Hin) in Hb.
  - assert (pa_lock ctx = 0) as Hlock by (unfold mem_page_alloc, lock_acquire in He; by destruct (Z.eqb_spec (pa_lock ctx) 0)).
    destruct (mem_page_alloc_spec ctx sz) as [(ff & _ & He') | (num & ctx2 & He' & Hr)]; try done; rewrite He' in He; simplify_eq; [done |].
    destruct Hr as (Hn & _ & _ & Hfree & _). assert (num = 0) as -> by (rewrite PAGE_SIZE_eq in *; lia). by rewrite (Hfree 0) in Hz by lia.
  - apply Forall_app in Hm as [_ [(Hp & Hs & Hnb & _) _]%Forall_cons]. apply Forall_app in Hu as [Hu1 [Ha Hu2]%Forall_cons]. simpl in *.
    destruct (mem_page_free_spec ctx num sz) as (ctx2 & He' & _ & _ & _ & _ & Hbits); try done; try lia.
    rewrite He' in He. simplify_eq. split; [done |]. split; [rewrite Hbits, Hb by done; zcases | by apply Forall_app].
Qed.

Lemma guarded_reach (R : Z -> Prop) s0 s : pa_inv s0 -> guarded R s0 -> pa_reach s0 s -> guarded R s.
Proof.
  intros H0 Hg Hr. assert (pa_inv s /\ guarded R s) as [_ ?]; [| done].
  induction Hr as [| s s' Hr [Hs IH] Hst]; [done |]. split; [by eapply pa_step_inv | by eapply guarded_step].
Qed.

(** * The set-up *)

(** The allocator at boot: the bitmap of all pages and the word behind it. *)
Record booting (ctx : mem_page_alloc_ctx) : Prop := {
  bt_lock : pa_lock ctx = 0;
  bt_wf : bitmap_wf (pa_bitmap ctx);
  bt_length : length (data (pa_bitmap ctx)) = Z.to_nat (bitmap_size PAGE_ALLOC_BITMAP_SIZE + 1);
  bt_first : first_free (pa_bitmap ctx) = 0;
}.

Lemma boot_nbits ctx : booting ctx -> 2 ^ 20 <= nbits (data (pa_bitmap ctx)).
Proof. intros [_ _ Hl _]. unfold nbits. rewrite Hl. vm_compute. discriminate. Qed.

(** Bits that are set, and nothing else that changes. *)
Definition marks_more (ctx ctx' : mem_page_alloc_ctx) (R : Z -> Prop) : Prop :=
  size (pa_bitmap ctx') = size (pa_bitmap ctx) /\
  forall k, 0 <= k -> bitmap_bit (data (pa_bitmap ctx')) k = true <-> bitmap_bit (data (pa_bitmap ctx)) k = true \/ R k.

Lemma alloc_at_boot ctx addr sz :
  booting ctx -> 0 <= addr -> 0 <= sz -> addr / PAGE_SIZE + sz <= 2 ^ 20 ->
  exists ctx', mem_page_alloc_at ctx addr sz = Ret (0, ctx') /\ booting ctx' /\
    marks_more ctx ctx' (fun k => addr / PAGE_SIZE <= k < addr / PAGE_SIZE + sz).
Proof.
  intros Hb Ha Hs Hle. pose proof (boot_nbits _ Hb). destruct Hb as [Hlk Hwf Hlen Hff].
  unfold mem_page_alloc_at, lock_acquire. rewrite Hlk, Z.eqb_refl, bind_Ret.
  assert (0 <= addr / PAGE_SIZE) by (apply Z.div_pos; [done | by rewrite PAGE_SIZE_eq]).
  destruct (bitmap_set_spec (pa_bitmap ctx) (addr / PAGE_SIZE) sz Hwf) as (bm & -> & Hwf' & Hs' & Hff' & Hl' & Hbits); [done | done | lia |].
  rewrite bind_Ret. eexists. split; [done |]. split; [split; cbn [pa_lock pa_bitmap]; done || congruence |].
  split; [done |]. cbn [pa_bitmap]. intros k Hk. rewrite Hbits by done.
  destruct (Z.leb_spec (addr / PAGE_SIZE) k), (Z.ltb_spec k (addr / PAGE_SIZE + sz)); cbn [andb]; intuition (try done; lia).
Qed.

(** The allocator is zeroed memory at first. *)
Definition zero_ctx : mem_page_alloc_ctx :=
  PageCtx 0 (Bitmap (replicate (Z.to_nat (bitmap_size PAGE_ALLOC_BITMAP_SIZE + 1)) 0) 0 0).

Lemma bzero_replicate n m : bzero_words (replicate n 0) m = replicate n 0.
Proof.
  revert m. induction n as [| n IH]; intros m; [done |]. cbn [replicate bzero_words]. rewrite IH. f_equal.
  destruct (4 <=? m), (m <=? 0); by rewrite ?Z.shiftr_0_l, ?Z.shiftl_0_l.
Qed.

Lemma zero_bit n k : bitmap_bit (replicate n 0) k = false.
Proof.
  unfold bitmap_bit. destruct (replicate n 0 !! _) as [w |] eqn:E; [apply lookup_replicate in E as [-> _] |]; apply Z.bits_0.
Qed.

Lemma alloc_new_boot :
  exists ctx, mem_page_alloc_new zero_ctx = Ret (0, ctx) /\ booting ctx /\
    forall k, 0 <= k -> bitmap_bit (data (pa_bitmap ctx)) k = true <-> k = 0.
Proof.
  unfold mem_page_alloc_new. cbn [zero_ctx pa_bitmap data first_free]. unfold bitmap_clear_all. cbn [data Bitmap.size set_data first_free].
  rewrite bzero_replicate. set (n := Z.to_nat (bitmap_size PAGE_ALLOC_BITMAP_SIZE + 1)). set (bm := Bitmap (replicate n 0) _ _).
  assert (Z.of_nat n = 32769 /\ n = Z.to_nat (bitmap_size PAGE_ALLOC_BITMAP_SIZE + 1)) as [Hn En] by done. clearbody n.
  assert (bitmap_wf bm) as Hwf.
  { split; cbn [bm data Bitmap.size first_free]; rewrite ?length_replicate, ?Hn; try done.
    unfold words_ok. apply Forall_replicate. lia. }
  destruct (bitmap_set_spec bm 0 1 Hwf) as (bm' & E & Hwf' & _ & Hff & Hl & Hbits); [done | done | unfold nbits; cbn [bm data]; rewrite length_replicate, Hn; lia |].
  cbn [data Bitmap.size first_free]. change (set_data _ _) with bm. rewrite E, bind_Ret. eexists. split; [done |]. split.
  - split; cbn [pa_lock pa_bitmap]; [done | done | | by rewrite Hff]. rewrite Hl, <- En. apply length_replicate.
  - cbn [pa_bitmap]. intros k Hk. rewrite Hbits by done. cbn [bm data]. rewrite zero_bit.
    destruct (Z.leb_spec 0 k), (Z.ltb_spec k (0 + 1)); cbn [andb]; intuition (try done; lia).
Qed.

(** Entries one after the other, each [entry_size] bytes from the one before. *)
Fixpoint entries_at (mem : list Z) (p entry_size : Z) (l : list mmap_entry) : Prop :=
  match l with
  | [] => True
  | e :: l => load_entry mem p = Ret e /\ entries_at mem (p + entry_size) entry_size l
  end.

(** Entries the code can work with: known types, and below 4 GB unless available. *)
Definition entry_ok (e : mmap_entry) : Prop :=
  me_type e < TYPE_NAMES /\
  (me_type e <> MULTIBOOT_MEMORY_AVAILABLE -> 0 <= me_addr e < 2 ^ 32 /\ 0 <= me_len e /\ me_addr e + me_len e <= 2 ^ 32).

Lemma page_div a : 0 <= a -> 0 <= a / PAGE_SIZE /\ 4096 * (a / PAGE_SIZE) <= a.
Proof. rewrite PAGE_SIZE_eq. intros Ha. split; [by apply Z.div_pos | by apply Z.mul_div_le]. Qed.

Lemma reserved_taken l k : Forall entry_ok l -> reserved l k -> code_taken l k.
Proof.
  intros Hl (e & He & Hk)%Exists_exists. apply Exists_exists. exists e. split; [done |].
  rewrite Forall_forall in Hl. apply area_page_taken; [| done]. destruct (Hl e He) as [_ H]. by destruct (H (proj1 Hk)) as (_ & ? & _).
Qed.

Lemma block_entry_boot e ctx :
  booting ctx -> entry_ok e -> exists ctx', block_entry e ctx = Ret ctx' /\ booting ctx' /\ marks_more ctx ctx' (code_pages e).
Proof.
  intros Hb [_ He]. unfold block_entry, code_pages. destruct (Z.eqb_spec (me_type e) MULTIBOOT_MEMORY_AVAILABLE) as [E | E]; cbn [negb].
  - exists ctx. split; [done |]. split; [done |]. split; [done |]. intros k Hk. intuition.
  - destruct (He E) as (Ha & Hl & Hs). pose proof (page_div _ (proj1 Ha)). pose proof (page_div _ Hl).
    rewrite (u32_small (me_addr e)), u32_small by lia.
    destruct (alloc_at_boot ctx (me_addr e) (me_len e / PAGE_SIZE) Hb) as (ctx' & -> & Hb' & Hm); [lia | lia | lia |].
    exists ctx'. rewrite bind_Ret. split; [done |]. split; [done |]. destruct Hm as [Hs' Hm]. split; [done |].
    intros k Hk. rewrite Hm by done. intuition.
Qed.

Lemma mmap_loop_boot mem mmap entry_size l fuel offset size ctx :
  booting ctx -> Forall entry_ok l -> 0 < entry_size -> 0 <= mmap -> 0 <= offset -> size = offset + entry_size * Z.of_nat (length l) ->
  mmap + size < 2 ^ 32 -> entries_at mem (mmap + offset) entry_size l -> (length l < fuel)%nat ->
  exists ctx', mmap_loop mem fuel mmap size entry_size offset ctx = Ret ctx' /\ booting ctx' /\ marks_more ctx ctx' (code_taken l).
Proof.
  revert fuel offset ctx. induction l as [| e l IH]; intros fuel offset ctx Hb Hl He Hm Ho Hs Hw Hat Hf;
    (destruct fuel as [| fuel]; [simpl in Hf; lia |]); cbn [mmap_loop length] in *.
  - destruct (Z.ltb_spec offset size); [lia |]. exists ctx. split; [done |]. split; [done |]. split; [done |].
    intros k Hk. unfold code_taken. rewrite Exists_nil. intuition.
  - destruct Hat as [Hld Hat]. apply Forall_cons in Hl as [Hok Hl]. destruct (Z.ltb_spec offset size); [| lia].
    rewrite (u32_small (mmap + offset)) by lia. rewrite Hld, bind_Ret. destruct (Z.leb_spec TYPE_NAMES (me_type e)); [destruct Hok; lia |].
    destruct (block_entry_boot e ctx Hb Hok) as (c1 & -> & Hb1 & Hs1 & Hm1). rewrite bind_Ret.
    rewrite (u32_small (offset + entry_size)) by nia.
    destruct (IH fuel (offset + entry_size) c1) as (c2 & -> & Hb2 & Hs2 & Hm2); try done; try lia.
    { by rewrite Z.add_assoc. }
    exists c2. split; [done |]. split; [done |]. split; [congruence |]. intros k Hk. rewrite Hm2, Hm1 by done.
    unfold code_taken. rewrite Exists_cons. intuition.
Qed.

Lemma count_boot bm : bitmap_wf bm -> first_free bm = 0 -> exists n, bitmap_count bm = Ret n.
Proof.
  intros Hwf Hff. eexists. apply bitmap_count_exact; [done | |]; rewrite Hff; [| lia].
  unfold bitmap_size. apply Z.div_pos; [apply u32_range | lia].
Qed.

Lemma resize_boot bm n : bitmap_wf bm -> length (data bm) = Z.to_nat (bitmap_size PAGE_ALLOC_BITMAP_SIZE + 1) -> 0 <= n <= 2 ^ 20 - 32 ->
  bitmap_wf (Bitmap (data bm) n (first_free bm)).
Proof.
  intros [Hw _ Hl Hf] Hlen Hn. split; cbn [data Bitmap.size first_free]; [done | lia | | done].
  rewrite Hlen. change (Z.of_nat (Z.to_nat (bitmap_size PAGE_ALLOC_BITMAP_SIZE + 1))) with 32769. split; [| lia].
  unfold bitmap_size. rewrite u32_small by lia. apply Z.div_lt_upper_bound; lia.
Qed.

(** What the boot loader says: a memory map with these entries, and the numbers of
    kilobytes of lower and upper memory. *)
Record boot_info (mem : list Z) (mmap meminfo entry_size : Z) (l : list mmap_entry) (lower upper : Z) : Prop := {
  bi_mmap : 0 < mmap;
  bi_entry_size : 0 < entry_size;
  bi_size : load_le 4 mem (mmap + 4) = Ret (16 + entry_size * Z.of_nat (length l));
  bi_entry : load_le 4 mem (mmap + 8) = Ret entry_size;
  bi_end : mmap + 16 + entry_size * Z.of_nat (length l) < 2 ^ 32;
  bi_entries : entries_at mem (mmap + 16) entry_size l;
  bi_ok : Forall entry_ok l;
  bi_meminfo : 0 < meminfo;
  bi_lower : load_le 4 mem (meminfo + 8) = Ret lower;
  bi_upper : load_le 4 mem (meminfo + 12) = Ret upper;
  bi_kb : 0 <= lower /\ 0 <= upper /\ (Z.max 1024 lower + upper) * 1024 <= (2 ^ 20 - 32) * PAGE_SIZE;
}.

(** The state of the allocator after the set-up: its pages are those of the memory
    size, and marked are page 0, those taken for the map and those below the end of the
    early allocations, and no others. *)
Lemma mem_set_up mem vm_bitmap mmap meminfo entry_size l lower upper vused paging_alloc_end :
  boot_info mem mmap meminfo entry_size l lower upper -> bitmap_count vm_bitmap = Ret vused -> 0 <= paging_alloc_end < 2 ^ 32 ->
  exists ctx, (ctx ← mem_init mem zero_ctx vm_bitmap mmap meminfo; mem_late_init ctx paging_alloc_end) = Ret ctx /\
    pa_inv (ctx, []) /\ pa_lock ctx = 0 /\ size (pa_bitmap ctx) = (Z.max 1024 lower + upper) / 4 /\
    forall k, 0 <= k -> bitmap_bit (data (pa_bitmap ctx)) k = true <-> k = 0 \/ code_taken l k \/ k < paging_alloc_end / PAGE_SIZE.
Proof.
  intros [Hmm Hes Hsz Hen Hend Hat Hok Hmi Hlo Hup (Hkl & Hku & Hkb)] Hvm Hpe. change PAGE_SIZE with 4096 in Hkb. unfold mem_init.
  destruct alloc_new_boot as (c0 & -> & Hb0 & Hbit0). rewrite bind_Ret. cbn [Z.ltb Z.compare].
  destruct (Z.eqb_spec mmap 0) as [? | _]; [lia |]. rewrite Hsz, bind_Ret, Hen, bind_Ret.
  destruct (mmap_loop_boot mem mmap entry_size l (S (Z.to_nat (16 + entry_size * Z.of_nat (length l)))) 16
    (16 + entry_size * Z.of_nat (length l)) c0 Hb0 Hok Hes) as (c1 & -> & Hb1 & _ & Hm1);
    [lia | lia | done | lia | done | nia |]. rewrite bind_Ret.
  destruct (Z.eqb_spec meminfo 0) as [? | _]; [lia |]. rewrite Hlo, bind_Ret, Hup, bind_Ret. rewrite MAX_spec, (u32_small (Z.max 1024 lower + upper)), u32_small by lia.
  assert ((Z.max 1024 lower + upper) * 1024 / PAGE_SIZE = (Z.max 1024 lower + upper) / 4) as ->
    by (rewrite PAGE_SIZE_eq; change 4096 with (4 * 1024); by rewrite Z.div_mul_cancel_r).
  set (n := (Z.max 1024 lower + upper) / 4). assert (0 <= n <= 2 ^ 20 - 32) as Hn by (split; [apply Z.div_pos; lia | apply Z.div_le_upper_bound; lia]).
  destruct Hb1 as [Hlk1 Hwf1 Hlen1 Hff1]. cbn [pa_bitmap pa_lock]. set (bm := Bitmap _ n _).
  assert (bitmap_wf bm) as Hwf by (by apply resize_boot).
  destruct (count_boot bm Hwf Hff1) as (u & ->). rewrite bind_Ret, Hvm, !bind_Ret. unfold mem_late_init.
  pose proof (page_div paging_alloc_end ltac:(lia)).
  destruct (alloc_at_boot (PageCtx (pa_lock c1) bm) 0 (paging_alloc_end / PAGE_SIZE)) as (c2 & -> & [Hlk2 Hwf2 _ _] & Hs2 & Hm2); [by split | lia | lia | |].
  { change (0 / PAGE_SIZE) with 0. lia. }
  rewrite bind_Ret. exists c2. split; [done |]. cbn [pa_bitmap bm data Bitmap.size] in Hs2, Hm2.
  assert (forall k, 0 <= k -> bitmap_bit (data (pa_bitmap c2)) k = true <-> k = 0 \/ code_taken l k \/ k < paging_alloc_end / PAGE_SIZE) as Hbits.
  { intros k Hk. rewrite Hm2, Hm1, Hbit0 by done. change (0 / PAGE_SIZE) with 0. intuition lia. }
  split; [| done]. split; cbn [fst snd]; [done | lia | | constructor | done]. apply Hbits; [lia | by left].
Qed.

(** C6: memory that is not the kernel's to give stays untouched: when the memory map of
    the boot loader has the entries [l] (reserved ones below 4 GB, of known types) and
    the memory it reports is below 4 GB ([boot_info]), the set-up of the page allocator
    returns, and from then on, however pages are allocated and released, no live allocation has a page all of whose bytes lie in an
    area that is not available and that starts at a page, nor a page that lies before
    the end of the early allocations, where the kernel itself is.  For an area that
    also ends at a page these are all the pages with a byte of it
    ([aligned_area_pages]).  Pages that an area covers in part are not protected by
    the code: see [partial_pages_stay_free]. *)
Theorem reserved_never_allocated mem vm_bitmap mmap meminfo entry_size l lower upper vused paging_alloc_end :
  boot_info mem mmap meminfo entry_size l lower upper -> bitmap_count vm_bitmap = Ret vused -> 0 <= paging_alloc_end < 2 ^ 32 ->
  exists ctx, (ctx ← mem_init mem zero_ctx vm_bitmap mmap meminfo; mem_late_init ctx paging_alloc_end) = Ret ctx /\
    forall s, pa_reach (ctx, []) s -> forall k, 0 <= k -> reserved l k \/ (k + 1) * PAGE_SIZE <= paging_alloc_end -> untouched s.2 k.
Proof.
  intros Hi Hv Hp. destruct (mem_set_up mem vm_bitmap mmap meminfo entry_size l lower upper vused paging_alloc_end Hi Hv Hp) as (ctx & E & Hinv & _ & _ & Hb).
  exists ctx. split; [done |]. intros s Hr k Hk HR.
  apply (guarded_reach (fun k => 0 <= k /\ (code_taken l k \/ k < paging_alloc_end / PAGE_SIZE)) (ctx, []) s Hinv); [| done | split; [done |]].
  - intros k' [Hk' HR']. split; [done |]. split; [apply Hb; [done | by right] | constructor].
  - destruct HR as [HR | HR]; [left; by eapply reserved_taken, HR; apply bi_ok in Hi | right].
    rewrite PAGE_SIZE_eq in *. pose proof (Z.div_mod paging_alloc_end 4096). pose proof (Z.mod_pos_bound paging_alloc_end 4096). lia.
Qed.

(** * Finding the tags *)

Section Tags.
Context (mem : list Z).

(** Tags one after the other from [p] on, each at the next multiple of 8, as their types
    and sizes; then the tag of type 0, or the end. *)
Fixpoint tags_at (p last : Z) (l : list (Z * Z)) : Prop :=
  match l with
  | [] => last <= p \/ exists size, load_le 4 mem (ALIGN p 8) = Ret 0 /\ load_le 4 mem (ALIGN p 8 + 4) = Ret size
  | (type, size) :: l =>
    p < last /\ load_le 4 mem (ALIGN p 8) = Ret type /\ load_le 4 mem (ALIGN p 8 + 4) = Ret size /\
    0 < type < TAG_NAMES /\ 0 < size /\ ALIGN p 8 + size + 8 <= 2 ^ 32 /\ tags_at (ALIGN p 8 + size) last l
  end.

(** Where they are. *)
Fixpoint tag_places (p : Z) (l : list (Z * Z)) : list (Z * Z) :=
  match l with
  | [] => []
  | (type, size) :: l => (ALIGN p 8, type) :: tag_places (ALIGN p 8 + size) l
  end.

Fixpoint each_tag (l : list (Z * Z)) i : outcome multiboot :=
  match l with
  | [] => Ret i
  | (tag, type) :: l => i ← tag_action mem tag type i; each_tag l i
  end.

(** The loop visits every tag once, in order. *)
Lemma tag_loop_each fuel p last l i :
  0 <= p -> p + 8 <= 2 ^ 32 -> last - p < Z.of_nat fuel -> (0 < fuel)%nat -> tags_at p last l ->
  tag_loop mem fuel p last i = each_tag (tag_places p l) i.
Proof.
  revert fuel p i. induction l as [| [type size] l IH]; intros fuel p i Hp Hw Hf Hf0 Ht;
    (destruct fuel as [| fuel]; [lia |]); cbn [tag_loop tag_places each_tag tags_at] in *.
  - destruct (Z.ltb_spec p last); [| done]. destruct Ht as [? | (size & Ht & Hs)]; [lia |]. by rewrite Ht, bind_Ret, Hs, bind_Ret.
  - destruct Ht as (Hl & Et & Es & Hty & Hsz & Hwr & Ht). destruct (Z.ltb_spec p last); [| lia].
    destruct (ALIGN_spec 3 p) as [[Ha _] _]; [lia | lia | lia |]. change (2 ^ 3) with 8 in Ha.
    rewrite Et, bind_Ret, Es, bind_Ret. rewrite (proj2 (Z.eqb_neq type 0)), (proj2 (Z.eqb_neq size 0)) by lia. cbn [orb].
    destruct (tag_action mem (ALIGN p 8) type i) as [i' | | |]; [| done ..]. rewrite !bind_Ret.
    destruct (Z.leb_spec TAG_NAMES type); [lia |]. rewrite u32_small by lia. apply IH; try done; lia.
Qed.

(** The address of the last tag of a type, [d] if there is none. *)
Definition last_tag (t d : Z) (l : list (Z * Z)) : Z := foldl (fun a x => if x.2 =? t then x.1 else a) d l.

Lemma symtab_keeps n section entsize sh r i r' i' :
  symtab_loop mem n section entsize sh r i = Ret (r', i') -> mb_mmap i' = mb_mmap i /\ mb_mem i' = mb_mem i.
Proof.
  revert section r i. induction n as [| n IH]; intros section r i; cbn [symtab_loop]; [by intros [= <- <-] |].
  intros (a & _ & (b & _ & (c & _ & (d & _ & (x & _ & H)%bind_Ret_inv)%bind_Ret_inv)%bind_Ret_inv)%bind_Ret_inv)%bind_Ret_inv.
  apply bind_Ret_inv in H as ([r1 i1] & H1 & (y & _ & ([r2 i2] & H2 & H3)%bind_Ret_inv)%bind_Ret_inv).
  apply IH in H3 as [-> ->].
  assert (mb_mmap i1 = mb_mmap i /\ mb_mem i1 = mb_mem i) as [<- <-].
  { destruct (x =? 0); [apply bind_Ret_inv in H1 as (? & _ & [= <- <-]) | injection H1 as <- <-]; done. }
  destruct (y =? 0); [apply bind_Ret_inv in H2 as (? & _ & [= <- <-]) | injection H2 as <- <-]; done.
Qed.

Lemma action_keeps tag type i i' : tag_action mem tag type i = Ret i' ->
  mb_mmap i' = (if type =? MULTIBOOT_TAG_TYPE_MMAP then tag else mb_mmap i) /\
  mb_mem i' = (if type =? MULTIBOOT_TAG_TYPE_BASIC_MEMINFO then tag else mb_mem i).
Proof.
  unfold tag_action, MULTIBOOT_TAG_TYPE_CMDLINE, MULTIBOOT_TAG_TYPE_MMAP, MULTIBOOT_TAG_TYPE_BASIC_MEMINFO,
    MULTIBOOT_TAG_TYPE_ELF_SECTIONS, MULTIBOOT_TAG_TYPE_FRAMEBUFFER.
  destruct (Z.eqb_spec type 1) as [-> |]; [intros ([? ?] & _ & [= <-])%bind_Ret_inv; done |].
  destruct (Z.eqb_spec type 6) as [-> |]; [intros [= <-]; done |]. destruct (Z.eqb_spec type 4) as [-> |]; [intros [= <-]; done |].
  destruct (Z.eqb_spec type 9) as [-> |].
  { intros ([r i1] & H & [= <-])%bind_Ret_inv. unfold extract_symtab in H.
    apply bind_Ret_inv in H as (? & _ & (? & _ & (? & _ & H)%bind_Ret_inv)%bind_Ret_inv). by apply symtab_keeps in H. }
  destruct (Z.eqb_spec type 8) as [-> |]; [intros (? & _ & [= <-])%bind_Ret_inv; done | intros [= <-]; done].
Qed.

(** The memory map and the memory size that are used afterwards are those of the last
    tags of their types. *)
Lemma multiboot_finds magic header l i i' :
  0 <= header -> (forall n, load_le 4 mem header = Ret n -> 0 <= n /\ header + n + 16 <= 2 ^ 32 /\ tags_at (header + 8) (header + n) l) ->
  multiboot_init mem magic header i = Ret i' ->
  magic = MULTIBOOT2_BOOTLOADER_MAGIC /\ mb_mmap i' = last_tag MULTIBOOT_TAG_TYPE_MMAP (mb_mmap i) (tag_places (header + 8) l) /\
    mb_mem i' = last_tag MULTIBOOT_TAG_TYPE_BASIC_MEMINFO (mb_mem i) (tag_places (header + 8) l).
Proof.
  intros Hh Ht. unfold multiboot_init. destruct (Z.eqb_spec magic MULTIBOOT2_BOOTLOADER_MAGIC); [| done]. cbn [negb].
  intros (n & Hn & H)%bind_Ret_inv. destruct (Ht n Hn) as (Hn0 & Hw & Hat). split; [done |].
  rewrite !u32_small in H by lia. rewrite (tag_loop_each _ _ _ l) in H by (done || lia).
  clear Hat Ht Hn. revert i H. generalize (tag_places (header + 8) l). intros pl. induction pl as [| [tag type] pl IH]; intros i; cbn [each_tag].
  { by intros [= <-]. }
  intros (i1 & H1 & H2)%bind_Ret_inv. apply action_keeps in H1 as [E1 E2]. unfold last_tag in *. cbn [foldl fst snd].
  rewrite <- E1, <- E2. by apply IH.
Qed.

End Tags.

(** * Examples *)

(** Tags at 16: the sizes of memory, a map with low memory and the area of the BIOS, and
    the end. *)
Definition ex_tags : list Z :=
  replicate 16 0 ++ le_bytes 4 104 ++ le_bytes 4 0 ++
  le_bytes 4 4 ++ le_bytes 4 16 ++ le_bytes 4 640 ++ le_bytes 4 65536 ++
  le_bytes 4 6 ++ le_bytes 4 64 ++ le_bytes 4 24 ++ le_bytes 4 0 ++
  le_bytes 8 0 ++ le_bytes 8 0xa0000 ++ le_bytes 4 1 ++ le_bytes 4 0 ++
  le_bytes 8 0xf0000 ++ le_bytes 8 0x10000 ++ le_bytes 4 2 ++ le_bytes 4 0 ++
  le_bytes 4 0 ++ le_bytes 4 8.

Definition ex_map : list mmap_entry := [MmapEntry 0 0xa0000 1; MmapEntry 0xf0000 0x10000 2].

Definition no_info : multiboot := Multiboot 0 0 [] [] [] [] 0 0.

Lemma ex_multiboot : multiboot_init ex_tags MULTIBOOT2_BOOTLOADER_MAGIC 16 no_info = Ret (set_mem (set_mmap no_info 40) 24).
Proof. vm_compute. reflexivity. Qed.

Lemma ex_boot_info : boot_info ex_tags 40 24 24 ex_map 640 65536.
Proof.
  split; [lia | lia | reflexivity | reflexivity | reflexivity | | | lia | reflexivity | reflexivity | unfold PAGE_SIZE; lia].
  - split; [reflexivity |]. split; [reflexivity | exact I].
  - constructor; [| constructor; [| constructor]]; (split; [reflexivity |]); intros H; [done | cbn; lia].
Qed.

(** Page 0xf8 is in the area of the BIOS, page 0x120 in that of the kernel. *)
Lemma reserved_never_allocated_witness :
  exists ctx, (ctx ← mem_init ex_tags zero_ctx (pa_bitmap pa_ex) 40 24; mem_late_init ctx 0x300000) = Ret ctx /\
    forall s, pa_reach (ctx, []) s -> untouched s.2 0xf8 /\ untouched s.2 0x120.
Proof.
  destruct (reserved_never_allocated ex_tags (pa_bitmap pa_ex) 40 24 24 ex_map 640 65536 1 0x300000 ex_boot_info) as (ctx & E & H); [reflexivity | lia |].
  exists ctx. split; [exact E |]. intros s Hs. split; apply (H s Hs); try lia; [left | right; unfold PAGE_SIZE; lia].
  right. left. split; [discriminate |]. split; [reflexivity |]. unfold in_area, PAGE_SIZE. cbn [me_addr me_len]. intros b Hb. lia.
Defined.

(** * Where the code falls short *)

(** A reserved area above 4 GB takes pages below away: here page 5. *)
Lemma high_area_blocks_low :
  (ctx ← block_entry (MmapEntry (2 ^ 32 + 0x5000) 0x1000 2) pa_ex; Ret (data (pa_bitmap ctx))) = Ret [33; 0; 0].
Proof. vm_compute. reflexivity. Qed.

(** An area of a page's length that does not start at a page leaves its second page
    free, one inside a page is not taken out at all, and of one that starts in the
    middle of page 1 and ends with page 2, page 2 stays free although it is reserved
    with all its bytes. *)
Lemma partial_pages_stay_free :
  (ctx ← block_entry (MmapEntry 0x1800 0x1000 2) pa_ex; Ret (data (pa_bitmap ctx))) = Ret [3; 0; 0] /\
  block_entry (MmapEntry 0x1c00 0x400 2) pa_ex = Ret pa_ex /\
  (ctx ← block_entry (MmapEntry 0x1800 0x1800 2) pa_ex; Ret (data (pa_bitmap ctx))) = Ret [3; 0; 0].
Proof. split; [| split]; vm_compute; reflexivity. Qed.

(** The name of a type that is not in the list is read from behind the array. *)
Lemma unknown_type_faults fuel mem mmap size entry_size offset ctx e :
  offset < size -> load_entry mem (u32 (mmap + offset)) = Ret e -> TYPE_NAMES <= me_type e ->
  mmap_loop mem (S fuel) mmap size entry_size offset ctx = Fault.
Proof.
  intros Ho He Ht. cbn [mmap_loop]. destruct (Z.ltb_spec offset size); [| lia]. rewrite He, bind_Ret.
  by destruct (Z.leb_spec TYPE_NAMES (me_type e)); [| lia].
Qed.
